(* ===== verification/_CoqProject ===== *)
-Q . S2P
Prelude.v
GoStrings.v
GoNum.v
Netip.v
Config.v
Name.v
Paths.v
WSTLS.v
WSTLSNames.v
WSTLSCollect.v
WSTLSTheorems.v
Parser.v
Writer.v
ConfLines.v
ConfWf.v
ParserTheorems.v
RoundTrip.v
UAPI.v
Driver.v
Highlighter.v
HighlighterTheorems.v
HighlighterParser.v
Effects.v
Version.v
ImportExport.v
Store.v
StoreLaws.v
StoreTheorems.v
StoreTLS.v
StoreTunnels.v
StoreMigration.v
ImportTheorems.v
ImportExample.v
StoreExample.v
StoreWatcher.v
Services.v
Firewall.v
FirewallTheorems.v
KillSwitch.v
FirewallExample.v
Updater.v
Manager.v
Installation.v
IPC.v
UpdateChecker.v
IPCTheorems.v
ManagerTheorems.v
ManagerMethods.v
Tracker.v
TrackerTheorems.v
Sessions.v
SessionsExample.v
ManagerExample.v
InstallationExample.v
UpdaterTheorems.v
Downloader.v
DeterministicGUID.v
Ringlogger.v
RingTheorems.v
RingReaders.v
ChangeHandlers.v
TunnelNet.v
RouteMonitor.v
TunnelConfig.v
Memmod.v
MemmodTheorems.v
MemmodReloc.v
MemmodSections.v
MemmodExample.v
Winipcfg.v
WinipcfgTheorems.v
InterfaceWatcher.v
WatcherTheorems.v
TunnelService.v
TunnelServiceTheorems.v
TunnelServiceTLS.v
TunnelExample.v
WinipcfgExample.v
TunnelServiceExample.v
