(* ===== verification/Prelude.v ===== *)
(** * WireGuard for Windows (WireGuard WS): a verification development

    A model in Rocq of the parts of the program that decide something, and the
    theorems that make them correct. The program is a Go service and user
    interface for Windows that keeps tunnel configurations, checks and shows
    them, hands them to a kernel driver or to a userspace device (for peers that
    are reached over WebSocket), restricts traffic with the Windows Filtering
    Platform, logs to memory shared between processes and updates itself.

    ** How the parts fit

    A configuration is text. [FromWgQuick] (conf/parser.go) reads it into a
    [Config] (conf/config.go), [ToWgQuick] (conf/writer.go) writes it back, and
    the editor colours it as it is typed (ui/syntax/highlighter.go). The TLS
    files its peers refer to are collected (conf/wstls.go), and the store keeps
    both encrypted (conf/store.go, wstls_store.go, filewriter_windows.go).

    The manager (manager) answers the user interface over a connection: it
    creates, shows and deletes tunnels, and starts one by installing a service
    for it, which a tracker then follows (manager/tunneltracker.go). It runs one user
    interface process in the session of every user who may have one
    (manager/service.go). The service of a tunnel
    (tunnel/service.go) loads the tunnel from the store, resolves its endpoints,
    makes an adapter, enables the firewall (tunnel/firewall) and hands over the
    [Config]: as a block of memory to the driver ([ToDriverConfiguration],
    driver/configuration_windows.go and conf/writer.go) or as directives to the
    userspace device ([ToUAPI], conf/uapi.go); the answers of either come back
    through [FromDriverConfiguration] and [FromUAPI]. When the interface of the
    adapter appears (tunnel/interfacewatcher.go) it gets its routes, addresses
    and DNS servers (tunnel/addressconfig.go), and the default route is followed
    (tunnel/defaultroutemonitor.go, mtumonitor.go). All processes write to the
    ring of log lines (ringlogger), and the updater (updater) offers, downloads,
    checks and runs a newer installer.

    ** Files and what they model

    - Prelude: byte strings, Go errors as [result], tactics, shared lemmas.
    - GoStrings, GoNum, Netip, Paths: what the program uses of strings, bytes,
      strconv, encoding/hex, encoding/base64, net/netip, path/filepath and path.
    - Config: conf/config.go, the structs, keys, redaction, deduplication.
    - Name: conf/name.go.
    - WSTLS: conf/wstls.go; WSTLSNames, WSTLSCollect, WSTLSTheorems hold its
      theorems.
    - Parser, Writer: conf/parser.go and conf/writer.go; ConfLines, ConfWf,
      ParserTheorems, RoundTrip hold their theorems.
    - UAPI: conf/uapi.go. Driver: the memory layout of the driver's blocks
      (driver/configuration_windows.go, the socket addresses of
      tunnel/winipcfg/types.go) and both conversions.
    - Memmod, MemmodTheorems, MemmodReloc, MemmodSections, MemmodExample:
      driver/memmod, the loader that takes the driver library from memory.
    - Highlighter, HighlighterTheorems, HighlighterParser:
      ui/syntax/highlighter.go, its memory safety and its agreement with the
      parser.
    - ImportExport, ImportTheorems, ImportExample: importFiles and exportTunnels of
      ui/tunnelspage.go, and that what is exported can be imported.
    - Version: version/official.go and os.go.
    - Effects: programs that call the system, as functions of its state that
      return a result and the next state, with Hoare triples.
    - Store: conf/store.go, wstls_store.go, filewriter_windows.go,
      path_windows.go, migration_windows.go and dpapi/dpapi_windows.go. StoreLaws
      says what the file functions of Windows promise; StoreTheorems, StoreTLS,
      StoreTunnels and StoreMigration go from one file to a tunnel; StoreExample
      is a store in memory. StoreWatcher: conf/storewatcher.go and
      storewatcher_windows.go, threads and all.
    - Services: services/errors.go, services/boot.go, conf/admin_windows.go and
      conf/dnsresolver_windows.go.
    - Firewall, FirewallTheorems, KillSwitch, FirewallExample:
      tunnel/firewall/rules.go, blocker.go, helpers.go and types.
    - Updater, UpdaterTheorems, Downloader: updater/versions.go, signify.go,
      downloader.go, constants.go, version/version.go, version/useragent.go.
    - Manager: manager/ipc_server.go, ipc_uapi.go, ipc_driver.go and the services
      of install.go; ManagerTheorems and ManagerMethods hold its theorems. IPC,
      IPCTheorems: the messages of ipc_server.go and ipc_client.go. Installation,
      InstallationExample: the rest of install.go, and the handles all of it
      opens. UpdateChecker: manager/updatestate.go. Tracker,
      TrackerTheorems: manager/tunneltracker.go. ManagerExample runs them.
    - Sessions, SessionsExample: the tokens and the threads of the sessions in
      manager/service.go, elevate/membership.go.
    - DeterministicGUID: tunnel/deterministicguid.go.
    - Ringlogger, RingTheorems, RingReaders: ringlogger/ringlogger.go, dump.go,
      global.go.
    - ChangeHandlers: winipcfg/route_change_handler.go,
      interface_change_handler.go and unicast_address_change_handler.go.
    - TunnelNet, RouteMonitor, TunnelConfig, TunnelExample:
      tunnel/defaultroutemonitor.go, mtumonitor.go and addressconfig.go.
    - Winipcfg, WinipcfgTheorems, WinipcfgExample: winipcfg/luid.go, winipcfg.go
      and the rows of types.go, and that they give the tunnel what it relies on.
    - InterfaceWatcher, WatcherTheorems: tunnel/interfacewatcher.go.
    - TunnelService, TunnelServiceTheorems, TunnelServiceTLS,
      TunnelServiceExample: tunnel/service.go and scriptrunner.go.

    State is passed explicitly: a parser state, a monitor, the memory of the log
    or the world of an interface class is an argument and a result of every
    operation that changes it. Integers are [Z] with the wrap-around of their
    width written out where the code relies on it. A Go map that is ranged over
    is a finite map or set with its order as a parameter. A panic or an
    out-of-range access is an error value of the model, and the theorems show
    that it does not occur.

    ** What the theorems show

    - Configuration: writing and reading back is the identity on well-formed
      configurations; parsing is total, its results are in range and obey the
      rules for WebSocket peers; messages and redacted copies carry no secret;
      deduplication, the order and the validity of names.
    - TLS files and store: what is imported is what the store accepts, under
      names that no two files share; a tunnel that was saved is loaded as it was,
      a write that fails leaves the old file, deleting removes all of a tunnel
      and nothing else, migration with its retries ends and loses nothing. These
      speak of the files of the store but the temporary ones of a write under
      way. An archive of exported tunnels
      is imported as the same tunnels with the same files. A callback registered
      for changes of the store is called for every change it has not missed, and
      the two ways to miss one are shown.
    - Manager: a call over the connection gives what the method gives; a client
      without an elevated token changes nothing in the store, cannot quit or
      update and is sent no configuration with a secret (the texts of errors are
      another matter); starting a tunnel stops exactly those it conflicts with; a
      tracker tells exactly the changes it sees, unless the service stops before
      its first call, and no two follow the same tunnel; notifications arrive
      whole at those they are meant for until a deadline cuts one. Services are
      installed and removed without leaving a handle open, and only those of the
      name given are created, stopped and deleted; updates are looked for at a pace and announced once. A session
      is served to administrators with an elevated token, to operators without
      one and to nobody else, and no other token is left open; one
      thread looks after a session that was never logged off, a stop reaches the
      processes that are waited for, and the threads end.
    - Tunnel service: whatever fails, each adapter, TUN, device and listener it
      made is closed once, the firewall is off at the end and was on whenever the
      adapter was brought up, also by a notification during the shutdown, no
      decrypted TLS file is left unless it could not be removed, and the callbacks
      that stay registered are those that a notification during the shutdown
      registered.
    - Devices: the driver block is read back field by field; the directives sent
      to the userspace device are exactly those of the configuration; its report
      is read in full and keeps stored settings and positions. The library of the
      driver is checked without a read outside it and taken exactly when its
      headers are in order, its sections and relocations (of every type) are what
      the headers say, and what loading it takes is given back.
    - Editor: the highlighter stays in its buffer on every text, knows the keys
      of the parser and marks as valid only values the parser accepts.
    - Firewall: rules are installed all or none, at most one set is in force in
      any sequence of calls, and a restricted tunnel permits
      exactly the intended traffic; other tunnels block nothing. The rule that
      decides which tunnels are restricted (0.0.0.0/0 or ::/0, literally) is
      composed with it.
    - Network: interface configuration ends within sixteen attempts and leaves
      what the configuration says in the tables of the IP helper library, beside
      old addresses whose deletion failed, and the routes of other interfaces as
      they were; the host routes of WebSocket servers never
      enter the tunnel and are all removed in the end; the default route chosen
      is the one of lowest metric; the GUID of an adapter hashes a text that
      identifies the tunnel and, where no public key is repeated, not the order
      in which it is written.
    - Updater: what is run is a newer installer from a list signed with the
      release key, every update reports how it ended, and the order of versions.
    - Log: interleaved writers, store by store, refine an append to an unbounded
      history; no reader sees a torn line; following loses and repeats nothing when no
      write is under way at a poll;
      the capture of runtime output ends and loses no byte.

    ** Parameters and hypotheses

    Code outside the repository is a parameter with named laws: net/url
    ([NetURL]), the Unicode tables and code pages ([UnicodeTables] and the
    decoders of the parser), Curve25519, Ed25519 and BLAKE2, the disk and the
    archive an import reads ([Disk]), the file functions and the data protection
    of Windows ([FileSystem], [FileLaws]), the registry, the resolver and the
    start reason ([Registry], [ResolverSystem], [BootSystem]), the service
    control manager, the driver and the pipes ([ServiceSystem], [ServiceLaws]),
    the texts of errors ([ErrorTexts]), the filtering engine and how it
    arbitrates between filters ([WFP], [WFPLaws], [Arbitration]), the HTTP
    client, temporary file and msiexec ([UpdateSystem], [UpdateLaws]), the IP
    helper library, as the tunnel sees it ([NetSystem], [NetLaws],
    [NetConfigLaws], [ChangeNotify]) and as its rows and tables ([IPHelper],
    [IPHelperLaws], [TunSystem]), the tokens of Windows ([TokenSystem]),
    memory, libraries and the code of the driver library ([LoaderSystem],
    [LoaderLaws]), the handles and the settings of services ([HandleLaws],
    [ServiceSettings]), certificates ([CertSystem], [CertLaws]), the client of
    the manager ([TunnelClient]),
    adapters, devices and processes ([AdapterSystem], [DeviceSystem]), the local
    time zone. FirewallExample, Downloader, DeterministicGUID, StoreExample,
    ManagerExample, InstallationExample, ImportExample, MemmodExample, TunnelExample, WinipcfgExample and
    TunnelServiceExample build concrete instances, so that every hypothesis is met somewhere and the theorems are
    applied there.

    ** Fuel

    Loops that are not structural take fuel and come with a proof that it is
    enough: 16 attempts for [configureInterface] (the code gives up retrying
    after 15), twice the number of bytes for [globalWrite] (a round that takes
    no byte empties the buffer, and the next one takes some), one more than the
    names taken for the search of a free name, any number above the sizes a
    buffer can have for [adaptersLoop], whose buffer grows, as many blocks as fit
    into the directory for relocations and as many steps as the image has bytes
    for its other tables, which run into its end; the digit loops of GoNum take
    more digits than their width allows. The loops that wait for Windows
    (the data directory, a service that is being deleted or stopped) take as many
    rounds as the parameter [fuel] says, and fail after them; theorems about them
    hold for every number. Retries with a bound in the code keep it: 10 or 30 for
    the resolver, 15 for an adapter, 20 for the start of a service.

    ** Interleaving

    The log is the only state written without a lock: its writes are modelled
    store by store, with any number of writers, under the limit that the source
    documents (fewer than 2048 writes begin while one is under way). A read is
    taken at one moment. The monitors hold a mutex: their operations are steps
    in any order, with arbitrary changes of the system between them. The
    trackers, the threads of the sessions and the watcher of the store
    interleave their critical sections,
    and the processes they wait for end at any moment; a goroutine that a
    method starts is recorded as a task; what Windows tells the watcher before,
    while and after it is configured is a list of events, and Destroy runs with
    the notifications that come between its two critical sections, all of which
    have ended when it turns the firewall off, since Unregister waits for them. A
    tracker hears some notices between its subscription and its first call.
    Channels are lists without a bound. A write of a notification is done, or cut
    by its deadline anywhere.

    ** Not modelled

    The windows of the user interface, the dispatch of the command line
    (main.go), elevation, the calls of the driver library,
    the 32-bit layout of its headers, whether a page was decommitted when the
    loader reads it, the C code of the installer and generated code: they call Windows or draw, and
    leave no decision to state. Diagnostics that are only logged (pitfalls.go).
    The enumerations and string accessors of winipcfg. *)

From Stdlib Require Export ZArith Lia Ascii.
From stdpp Require Export prelude strings gmap.

(** ** Byte strings

    A Go string is a sequence of bytes; the model uses lists of [ascii], with
    [str] turning a literal into one. *)
Abbreviation gostring := (list ascii).

Definition str (s : string) : gostring := String.list_ascii_of_string s.

(** The numeric value of a byte, and the byte of a number (modulo 256). *)
Definition code (c : ascii) : Z := Z.of_N (N_of_ascii c).

Definition chr (z : Z) : ascii := ascii_of_N (Z.to_N (z mod 256)).

Definition LF : ascii := "010"%char.
Definition CR : ascii := "013"%char.
Definition TAB : ascii := "009"%char.
Definition QUOTE : ascii := "034"%char.

(** ** Errors

    [ParseError] is conf.ParseError with the message key given to l18n.Sprintf
    in place of its translation; [NumError] is strconv.NumError ([range] is true
    for ErrRange, false for ErrSyntax); [ErrText] is errors.New; [ErrCode] is an
    error of Windows; [ErrWrap] is fmt.Errorf with a cause. *)
Inductive goerr : Type :=
  | ParseError (why : string) (offender : gostring)
  | NumError (fn : string) (num : gostring) (range : bool)
  | ErrText (msg : string)
  | ErrCode (code : Z)
  | ErrWrap (why : string) (offender : gostring) (cause : goerr).

Inductive result (A : Type) : Type :=
  | Ok (a : A)
  | Err (e : goerr).
Arguments Ok {A} _.
Arguments Err {A} _.

Declare Scope go_scope.
Delimit Scope go_scope with go.

Definition rbind {A B} (r : result A) (f : A -> result B) : result B :=
  match r with Ok a => f a | Err e => Err e end.

Notation "'let?' x ':=' r 'in' k" := (rbind r (fun x => k))
  (at level 10, x pattern, r at level 100, k at level 200) : go_scope.
#[global] Open Scope go_scope.

Definition is_Ok {A} (r : result A) : bool :=
  match r with Ok _ => true | Err _ => false end.

(** Replaces whatever error [r] carries, as the callers do that report their
    own error when a helper fails. *)
Definition with_err {A} (e : goerr) (r : result A) : result A :=
  match r with Ok a => Ok a | Err _ => Err e end.

Fixpoint rmap {A B} (f : A -> result B) (l : list A) : result (list B) :=
  match l with
  | [] => Ok []
  | x :: l' => let? y := f x in let? ys := rmap f l' in Ok (y :: ys)
  end.

Fixpoint rfold {A S} (f : S -> A -> result S) (s : S) (l : list A) : result S :=
  match l with
  | [] => Ok s
  | x :: l' => let? s' := f s x in rfold f s' l'
  end.

#[global] Instance goerr_eq_dec : EqDecision goerr.
Proof. solve_decision. Defined.

#[global] Instance result_eq_dec {A} `{EqDecision A} : EqDecision (result A).
Proof. solve_decision. Defined.

(** ** Tactics *)

(** Case analysis on the innermost [rbind] of a hypothesis [... = Ok _]. *)
Ltac bind_ok H :=
  repeat match type of H with
  | rbind ?r _ = Ok _ =>
      let E := fresh "Hb" in
      destruct r eqn:E; cbn [rbind] in H; [ | discriminate H ]
  end.

Create HintDb go.

(** ** Generic lemmas *)

Lemma rbind_Ok {A B} (r : result A) (f : A -> result B) b :
  rbind r f = Ok b <-> exists a, r = Ok a /\ f a = Ok b.
Proof. destruct r; cbn; naive_solver. Qed.

Lemma rmap_Ok {A B} (f : A -> result B) l ys :
  rmap f l = Ok ys <-> Forall2 (fun x y => f x = Ok y) l ys.
Proof.
  revert ys; induction l as [|x l IH]; intros ys; cbn.
  - split; [intros [= <-]; constructor | intros H; by inv H].
  - rewrite rbind_Ok. split.
    + intros (y & Hy & H). apply rbind_Ok in H as (ys' & Hys & [= <-]).
      constructor; [done | by apply IH].
    + intros H; inv H. eexists; split; [done|].
      match goal with H : Forall2 _ _ _ |- _ => apply IH in H; rewrite H end.
      done.
Qed.

Lemma rfold_app {A S} (f : S -> A -> result S) s l1 l2 :
  rfold f s (l1 ++ l2) = (let? s' := rfold f s l1 in rfold f s' l2).
Proof.
  revert s; induction l1 as [|x l1 IH]; intros s; cbn; [done|].
  destruct (f s x); cbn; [apply IH | done].
Qed.

(** An invariant kept by every step is kept by the whole fold. *)
Lemma rfold_inv {A S} (I : S -> Prop) (f : S -> A -> result S) l :
  (forall s x s', x ∈ l -> I s -> f s x = Ok s' -> I s') ->
  forall s s', I s -> rfold f s l = Ok s' -> I s'.
Proof.
  induction l as [|x l IH]; intros Hstep s s' Hs H; cbn in H.
  - by inv H.
  - apply rbind_Ok in H as (s1 & H1 & H2).
    eapply IH; [| |exact H2].
    + intros s2 y s3 Hy. apply Hstep. by right.
    + eapply Hstep; [left | exact Hs | exact H1].
Qed.

(** Induction that follows a recursion taking three elements at a time. *)
Lemma list_ind3 {A} (P : list A -> Prop) :
  P [] -> (forall a, P [a]) -> (forall a b, P [a; b]) ->
  (forall a b c l, P l -> P (a :: b :: c :: l)) -> forall l, P l.
Proof.
  intros H0 H1 H2 H3. fix IH 1. intros [|a [|b [|c l]]]; [done.. |]. apply H3, IH.
Qed.

Lemma code_range c : (0 <= code c < 256)%Z.
Proof.
  unfold code. pose proof (N_ascii_bounded c). lia.
Qed.

Lemma chr_code c : chr (code c) = c.
Proof.
  unfold chr. rewrite Z.mod_small by apply code_range.
  unfold code. rewrite N2Z.id. apply ascii_N_embedding.
Qed.

Lemma code_chr z : code (chr z) = (z mod 256)%Z.
Proof.
  unfold code, chr. rewrite N_ascii_embedding.
  - rewrite Z2N.id; [done|]. apply Z.mod_pos_bound; lia.
  - pose proof (Z.mod_pos_bound z 256). lia.
Qed.

Lemma code_inj c d : code c = code d -> c = d.
Proof. intros H. rewrite <- (chr_code c), <- (chr_code d). by rewrite H. Qed.
Lemma map_code_inj a b : map code a = map code b -> a = b.
Proof. apply (list_fmap_eq_inj code). intros x y. apply code_inj. Qed.

Lemma chr_inj_range a b :
  (0 <= a < 256)%Z -> (0 <= b < 256)%Z -> chr a = chr b -> a = b.
Proof.
  intros Ha Hb H. apply (f_equal code) in H. rewrite !code_chr in H.
  by rewrite !Z.mod_small in H.
Qed.

#[export] Hint Resolve code_range : go.
