(* ===== verification/GoStrings.v ===== *)
(** * The parts of Go's strings, bytes and unicode packages the program uses

    Definitions work on bytes, as Go's do. Functions that Go defines on runes
    (TrimSpace, ToLower) are defined on the UTF-8 encodings of those runes. The
    lower-case mapping of the runes above U+007F is data of the Unicode tables,
    a parameter of class [UnicodeTables]. *)

From S2P Require Import Prelude.
Local Open Scope Z_scope.

(** ** Characters *)

Definition in_range (lo hi : Z) (c : ascii) : bool := (lo <=? code c) && (code c <=? hi).

Definition isDigit (c : ascii) : bool := in_range 48 57 c.
Definition isUpper (c : ascii) : bool := in_range 65 90 c.
Definition isLower (c : ascii) : bool := in_range 97 122 c.
Definition isASCII (c : ascii) : bool := code c <? 128.

Definition lowerByte (c : ascii) : ascii := if isUpper c then chr (code c + 32) else c.
Definition upperByte (c : ascii) : ascii := if isLower c then chr (code c - 32) else c.

(** ** Searching and cutting *)

Fixpoint prefixb (p s : gostring) : bool :=
  match p, s with
  | [], _ => true
  | a :: p', b :: s' => Ascii.eqb a b && prefixb p' s'
  | _ :: _, [] => false
  end.

Definition HasPrefix (s p : gostring) : bool := prefixb p s.
Definition HasSuffix (s p : gostring) : bool := prefixb (reverse p) (reverse s).

Definition TrimPrefix (s p : gostring) : gostring :=
  if HasPrefix s p then drop (length p) s else s.
Definition TrimSuffix (s p : gostring) : gostring :=
  if HasSuffix s p then take (length s - length p) s else s.

Fixpoint cut_at (sep s : gostring) : option (gostring * gostring) :=
  if prefixb sep s then Some ([], drop (length sep) s)
  else match s with
       | [] => None
       | c :: s' =>
           match cut_at sep s' with
           | Some (b, a) => Some (c :: b, a)
           | None => None
           end
       end.

(** strings.Cut: the text before and after the first [sep], and whether there
    is one. *)
Definition Cut (s sep : gostring) : gostring * gostring * bool :=
  match cut_at sep s with
  | Some (b, a) => (b, a, true)
  | None => (s, [], false)
  end.

(** The text before and after the last byte [c], when there is one. *)
Definition cut_last (c : ascii) (s : gostring) : option (gostring * gostring) :=
  match cut_at [c] (reverse s) with
  | Some (ra, rb) => Some (reverse rb, reverse ra)
  | None => None
  end.

(** strings.IndexByte and strings.LastIndexByte, -1 when absent. *)
Definition IndexByte (s : gostring) (c : ascii) : Z :=
  match cut_at [c] s with Some (b, _) => Z.of_nat (length b) | None => -1 end.
Definition LastIndexByte (s : gostring) (c : ascii) : Z :=
  match cut_last c s with Some (b, _) => Z.of_nat (length b) | None => -1 end.

Definition has_byte (c : ascii) (s : gostring) : bool := existsb (Ascii.eqb c) s.

Definition ContainsAny (s chars : gostring) : bool := existsb (fun c => has_byte c chars) s.

(** strings.Split with a one-byte separator. *)
Fixpoint Split (sep : ascii) (s : gostring) : list gostring :=
  match s with
  | [] => [[]]
  | c :: s' =>
      if Ascii.eqb c sep then [] :: Split sep s'
      else match Split sep s' with
           | p :: ps => (c :: p) :: ps
           | [] => [[c]]
           end
  end.

Fixpoint Join (l : list gostring) (sep : gostring) : gostring :=
  match l with
  | [] => []
  | [s] => s
  | s :: l' => s ++ sep ++ Join l' sep
  end.

(** ** Trimming *)

Fixpoint dropWhile (f : ascii -> bool) (s : gostring) : gostring :=
  match s with
  | [] => []
  | c :: s' => if f c then dropWhile f s' else s
  end.

(** strings.TrimRight and strings.Trim with an ASCII cut set. *)
Definition TrimRight (s cutset : gostring) : gostring :=
  reverse (dropWhile (fun c => has_byte c cutset) (reverse s)).
Definition Trim (s cutset : gostring) : gostring :=
  TrimRight (dropWhile (fun c => has_byte c cutset) s) cutset.

Definition bytes_of (l : list Z) : gostring := map chr l.

(** The UTF-8 encodings of the runes of unicode.IsSpace. *)
Definition spaces : list gostring :=
  map bytes_of
    ([[32]; [9]; [10]; [11]; [12]; [13]; [194; 133]; [194; 160]; [225; 154; 128];
      [226; 128; 168]; [226; 128; 169]; [226; 128; 175]; [226; 129; 159]; [227; 128; 128]]
     ++ map (fun i => [226; 128; i])
          [128; 129; 130; 131; 132; 133; 134; 135; 136; 137; 138]).

(** The number of bytes of the first of [ws] that [s] starts with, 0 if none. *)
Definition lead (ws : list gostring) (s : gostring) : nat :=
  match find (fun w => prefixb w s) ws with Some w => length w | None => 0%nat end.

(** Drops words of [ws] from the front; [n] bounds the number of words. *)
Fixpoint strip (ws : list gostring) (n : nat) (s : gostring) : gostring :=
  match n with
  | O => s
  | S n' => match lead ws s with
            | O => s
            | k => strip ws n' (drop k s)
            end
  end.

Definition rspaces : list gostring := map reverse spaces.

Definition TrimLeftSpace (s : gostring) : gostring := strip spaces (length s) s.
Definition TrimRightSpace (s : gostring) : gostring :=
  reverse (strip rspaces (length s) (reverse s)).

(** strings.TrimSpace. *)
Definition TrimSpace (s : gostring) : gostring := TrimRightSpace (TrimLeftSpace s).

(** A string TrimSpace leaves alone. *)
Definition trimmed (s : gostring) : Prop :=
  lead spaces s = 0%nat /\ lead rspaces (reverse s) = 0%nat.

(** ** UTF-8 and letter case *)

Class UnicodeTables := {
  uni_lower : Z -> Z;
  (** The runes above U+007F with an ASCII lower case are U+0130, whose lower
      case is i, and U+212A, whose lower case is k. *)
  uni_lower_ascii : forall r, (128 <= r)%Z -> (128 <= uni_lower r)%Z \/ uni_lower r = 105%Z \/ uni_lower r = 107%Z
}.

Definition RuneError : Z := 65533.

Definition cont (lo hi : Z) (c : ascii) : bool := in_range lo hi c.

(** utf8.DecodeRune on a non-empty string: the rune and its width. *)
Definition decodeRune (s : gostring) : Z * nat :=
  match s with
  | [] => (RuneError, 0%nat)
  | c0 :: s1 =>
    let b0 := code c0 in
    if b0 <? 128 then (b0, 1%nat)
    else if (194 <=? b0) && (b0 <=? 223) then
      match s1 with
      | c1 :: _ => if cont 128 191 c1 then ((b0 - 192) * 64 + (code c1 - 128), 2%nat)
                   else (RuneError, 1%nat)
      | _ => (RuneError, 1%nat)
      end
    else if (224 <=? b0) && (b0 <=? 239) then
      let lo := if b0 =? 224 then 160 else 128 in
      let hi := if b0 =? 237 then 159 else 191 in
      match s1 with
      | c1 :: c2 :: _ =>
          if cont lo hi c1 && cont 128 191 c2
          then ((b0 - 224) * 4096 + (code c1 - 128) * 64 + (code c2 - 128), 3%nat)
          else (RuneError, 1%nat)
      | _ => (RuneError, 1%nat)
      end
    else if (240 <=? b0) && (b0 <=? 244) then
      let lo := if b0 =? 240 then 144 else 128 in
      let hi := if b0 =? 244 then 143 else 191 in
      match s1 with
      | c1 :: c2 :: c3 :: _ =>
          if cont lo hi c1 && cont 128 191 c2 && cont 128 191 c3
          then ((b0 - 240) * 262144 + (code c1 - 128) * 4096 + (code c2 - 128) * 64
                + (code c3 - 128), 4%nat)
          else (RuneError, 1%nat)
      | _ => (RuneError, 1%nat)
      end
    else (RuneError, 1%nat)
  end.

(** utf8.AppendRune. *)
Definition encodeRune (r : Z) : gostring :=
  if (0 <=? r) && (r <? 128) then bytes_of [r]
  else if (128 <=? r) && (r <? 2048) then bytes_of [192 + r / 64; 128 + r mod 64]
  else if (r <? 2048) || (1114111 <? r) || ((55296 <=? r) && (r <=? 57343))
       then bytes_of [239; 191; 189]
  else if r <? 65536 then bytes_of [224 + r / 4096; 128 + r / 64 mod 64; 128 + r mod 64]
  else bytes_of [240 + r / 262144; 128 + r / 4096 mod 64; 128 + r / 64 mod 64; 128 + r mod 64].

(** The runes of a string, as [for _, r := range s] yields them. *)
Fixpoint runes (n : nat) (s : gostring) : list Z :=
  match n with
  | O => []
  | S n' => match s with
            | [] => []
            | _ => let '(r, w) := decodeRune s in r :: runes n' (drop w s)
            end
  end.

Definition rangeRunes (s : gostring) : list Z := runes (length s) s.

(** UTF-16 *)
Definition utf16Rune (r : Z) : list Z :=
  if r <? 65536 then [r]
  else let r := r - 65536 in [55296 + r / 1024; 56320 + r mod 1024].

(** windows.UTF16FromString: the units and a terminating NUL; a NUL inside is
    an error. *)
Definition UTF16FromString (s : gostring) : result (list Z) :=
  if has_byte (chr 0) s then Err (ErrCode 22)
  else Ok (concat (map utf16Rune (rangeRunes s)) ++ [0]).

Section ToLower.
Context `{UnicodeTables}.

Definition lowerRune (r : Z) : Z :=
  if r <? 128 then (if (65 <=? r) && (r <=? 90) then r + 32 else r) else uni_lower r.

(** strings.ToLower. *)
Definition ToLower (s : gostring) : gostring :=
  if forallb isASCII s then map lowerByte s
  else concat (map encodeRune
         (List.filter (fun r => 0 <=? r) (map lowerRune (rangeRunes s)))).
End ToLower.

(** strings.EqualFold(s, t) for an ASCII [t] without the letters K and S, the
    only ASCII letters whose case orbit has a rune above U+007F. *)
Definition EqualFoldASCII (s t : gostring) : bool :=
  bool_decide (map lowerByte s = map lowerByte t).

(** ** Lemmas: searching and cutting *)

Lemma prefixb_spec p s : prefixb p s = true <-> exists t, s = p ++ t.
Proof.
  revert s; induction p as [|a p IH]; intros s; cbn.
  - split; eauto.
  - destruct s as [|b s].
    + split; [done | intros (t & ?); done].
    + rewrite andb_true_iff, Ascii.eqb_eq, IH.
      split; [intros [-> (t & ->)]; eauto | intros (t & [= -> ->]); eauto].
Qed.

Lemma prefixb_app p s : prefixb p (p ++ s) = true.
Proof. apply prefixb_spec; eauto. Qed.

Lemma cut_at_Some sep s b a : cut_at sep s = Some (b, a) -> s = b ++ sep ++ a.
Proof.
  revert b; induction s as [|c s IH]; intros b; cbn.
  - destruct (prefixb sep []) eqn:E; [|done].
    apply prefixb_spec in E as (t & E). destruct sep; [|done].
    cbn. intros [= <- <-]. done.
  - destruct (prefixb sep (c :: s)) eqn:E.
    + apply prefixb_spec in E as (t & E). intros [= <- <-].
      rewrite E, drop_app_length. done.
    + destruct (cut_at sep s) as [[b' a']|] eqn:Ec; [|done].
      intros [= <- <-]. by rewrite (IH b').
Qed.

Lemma cut_byte_app c b a : c ∉ b -> cut_at [c] (b ++ c :: a) = Some (b, a).
Proof.
  induction b as [|d b IH]; intros Hb; cbn.
  - by rewrite Ascii.eqb_refl.
  - apply not_elem_of_cons in Hb as [Hd Hb].
    destruct (Ascii.eqb_spec c d) as [->|_]; [done|]. cbn. by rewrite IH.
Qed.

Lemma cut_byte_None c s : cut_at [c] s = None <-> c ∉ s.
Proof.
  induction s as [|d s IH]; cbn.
  - split; [intros _; apply not_elem_of_nil | done].
  - rewrite not_elem_of_cons. destruct (Ascii.eqb_spec c d) as [->|Hne]; cbn.
    + split; [done | naive_solver].
    + destruct (cut_at [c] s) as [[]|]; [|by rewrite <- IH].
      split; [done|]. intros [_ H]. by apply IH in H.
Qed.

Lemma cut_byte_notin c s b a : cut_at [c] s = Some (b, a) -> c ∉ b.
Proof.
  revert b; induction s as [|d s IH]; intros b; cbn; [done|].
  destruct (Ascii.eqb_spec c d) as [->|Hne]; cbn.
  - intros [= <- <-]. apply not_elem_of_nil.
  - destruct (cut_at [c] s) as [[b' a']|]; [|done]. intros [= <- <-].
    apply not_elem_of_cons; eauto.
Qed.

Lemma Cut_app c b a : c ∉ b -> Cut (b ++ c :: a) [c] = (b, a, true).
Proof. intros H. unfold Cut. by rewrite cut_byte_app. Qed.

Lemma Cut_notin c s : c ∉ s -> Cut s [c] = (s, [], false).
Proof. intros H. unfold Cut. by apply cut_byte_None in H as ->. Qed.

(** What Cut returns, in both cases. *)
Lemma Cut_spec c s b a f :
  Cut s [c] = (b, a, f) ->
  c ∉ b /\ (f = true /\ s = b ++ c :: a \/ f = false /\ b = s /\ a = []).
Proof.
  unfold Cut. destruct (cut_at [c] s) as [[b' a']|] eqn:E; intros [= <- <- <-].
  - split; [by eapply cut_byte_notin|]. left. split; [done|].
    by apply cut_at_Some in E.
  - split; [by apply cut_byte_None | by right].
Qed.

Lemma cut_last_app c b a : c ∉ a -> cut_last c (b ++ c :: a) = Some (b, a).
Proof.
  intros H. unfold cut_last.
  rewrite reverse_app, reverse_cons, <- (assoc_L (++)). cbn.
  rewrite cut_byte_app by (by rewrite elem_of_reverse).
  by rewrite !reverse_involutive.
Qed.

Lemma cut_last_Some c s b a : cut_last c s = Some (b, a) -> s = b ++ c :: a /\ c ∉ a.
Proof.
  unfold cut_last. destruct (cut_at [c] (reverse s)) as [[ra rb]|] eqn:E; [|done].
  intros [= <- <-]. split.
  - apply cut_at_Some in E. apply (f_equal reverse) in E.
    rewrite reverse_involutive in E. rewrite E. cbn.
    by rewrite reverse_app, reverse_cons, <- (assoc_L (++)).
  - apply cut_byte_notin in E. by rewrite elem_of_reverse.
Qed.

Lemma cut_last_None c s : cut_last c s = None <-> c ∉ s.
Proof.
  unfold cut_last. destruct (cut_at [c] (reverse s)) as [[ra rb]|] eqn:E.
  - split; [done|]. intros H. apply cut_at_Some in E.
    exfalso. apply H. rewrite <- elem_of_reverse, E. set_solver.
  - apply cut_byte_None in E. by rewrite elem_of_reverse in E.
Qed.

Lemma has_byte_spec c s : has_byte c s = true <-> c ∈ s.
Proof.
  unfold has_byte. rewrite existsb_exists. setoid_rewrite Ascii.eqb_eq.
  rewrite list_elem_of_In. naive_solver.
Qed.

Lemma has_byte_false c s : has_byte c s = false <-> c ∉ s.
Proof. rewrite <- has_byte_spec. destruct (has_byte c s); naive_solver. Qed.

Lemma IndexByte_neg s c : (IndexByte s c < 0 <-> c ∉ s)%Z.
Proof.
  unfold IndexByte. rewrite <- cut_byte_None.
  destruct (cut_at [c] s) as [[]|]; split; intros H; try lia; done.
Qed.

(** ** Lemmas: Split and Join *)

Lemma Split_notin c s : c ∉ s -> Split c s = [s].
Proof.
  induction s as [|d s IH]; cbn; [done|].
  intros [Hd Hs]%not_elem_of_cons. rewrite IH by done.
  destruct (Ascii.eqb_spec d c); [congruence | done].
Qed.

Lemma Split_cons c b a : c ∉ b -> Split c (b ++ c :: a) = b :: Split c a.
Proof.
  induction b as [|d b IH]; cbn.
  - by rewrite Ascii.eqb_refl.
  - intros [Hd Hs]%not_elem_of_cons. rewrite IH by done.
    destruct (Ascii.eqb_spec d c); [congruence | done].
Qed.

Lemma Split_elem c s p : p ∈ Split c s -> c ∉ p /\ forall x, x ∈ p -> x ∈ s.
Proof.
  revert p; induction s as [|d s IH]; intros p; cbn.
  - rewrite list_elem_of_singleton. intros ->. split; [apply not_elem_of_nil | set_solver].
  - destruct (Ascii.eqb_spec d c) as [->|Hne].
    + intros [->|H]%elem_of_cons; [split; set_solver|].
      apply IH in H as [? ?]; set_solver.
    + destruct (Split c s) as [|q qs] eqn:E.
      * intros ->%list_elem_of_singleton. set_solver.
      * intros [->|H]%elem_of_cons.
        -- destruct (IH q) as [? ?]; [set_solver|]. set_solver.
        -- destruct (IH p) as [? ?]; [set_solver|]. set_solver.
Qed.

Lemma Split_nonempty c s : Split c s <> [].
Proof.
  destruct s as [|d s]; cbn; [done|].
  destruct (Ascii.eqb d c); [done|]. by destruct (Split c s).
Qed.

(** A text made of terminated lines splits into those lines and a last empty one. *)
Lemma Split_lines c ls :
  Forall (fun l => c ∉ l) ls ->
  Split c (concat (map (fun l => l ++ [c]) ls)) = ls ++ [[]].
Proof.
  induction 1 as [|l ls Hl _ IH]; [done|].
  cbn. rewrite <- (assoc_L (++)). cbn. rewrite Split_cons by done. by rewrite IH.
Qed.

Lemma Join_cons s t l sep : Join (s :: t :: l) sep = s ++ sep ++ Join (t :: l) sep.
Proof. done. Qed.

Lemma Join_elem l sep x : x ∈ Join l sep -> x ∈ sep \/ exists s, s ∈ l /\ x ∈ s.
Proof.
  induction l as [|s l IH]; [set_solver|].
  destruct l as [|t l]; [set_solver|]. rewrite Join_cons. set_solver.
Qed.

(** ** Lemmas: trimming *)

(** The properties of the two word lists that trimming relies on: no word is
    empty, and a word of several bytes has no ASCII byte. *)
Definition trim_words (ws : list gostring) : bool :=
  forallb (fun w => match w with
                    | [] => false
                    | [_] => true
                    | _ => forallb (fun c => negb (isASCII c)) w
                    end) ws.

Lemma spaces_words : trim_words spaces = true.
Proof. vm_compute. done. Qed.

Lemma rspaces_words : trim_words rspaces = true.
Proof. vm_compute. done. Qed.
#[export] Hint Resolve spaces_words rspaces_words : go.

Section strip.
Context (ws : list gostring) (Hws : trim_words ws = true).

Lemma lead_zero s : lead ws s = 0%nat <-> forall w, w ∈ ws -> prefixb w s = false.
Proof.
  unfold lead. destruct (find _ ws) as [w|] eqn:E.
  - apply find_some in E as [Hin Hp]. unfold trim_words in Hws.
    rewrite forallb_forall in Hws. specialize (Hws w Hin).
    split; [destruct w; done|].
    intros H. apply list_elem_of_In in Hin. rewrite H in Hp; done.
  - split; [|done]. intros _ w Hw. apply list_elem_of_In in Hw.
    by apply (find_none _ _ E).
Qed.

Lemma lead_pos s k : lead ws s = S k -> exists w t, w ∈ ws /\ length w = S k /\ s = w ++ t.
Proof.
  unfold lead. destruct (find _ ws) as [w|] eqn:E; [|done].
  intros Hk. apply find_some in E as [Hin [t Ht]%prefixb_spec].
  apply list_elem_of_In in Hin. eauto.
Qed.

Lemma lead_prefix a b : lead ws (a ++ b) = 0%nat -> lead ws a = 0%nat.
Proof.
  rewrite !lead_zero. intros H w Hw. specialize (H w Hw).
  apply not_true_iff_false. apply not_true_iff_false in H.
  rewrite prefixb_spec in *. intros (t & ->). apply H.
  exists (t ++ b). by rewrite (assoc_L (++)).
Qed.

(** An ASCII byte after a non-empty text without leading words adds none. *)
Lemma lead_app_ascii u c x :
  lead ws u = 0%nat -> u <> [] -> isASCII c = true -> lead ws (u ++ c :: x) = 0%nat.
Proof.
  rewrite !lead_zero. intros H Hu Hc w Hw. apply not_true_iff_false.
  rewrite prefixb_spec. intros (t & Ht).
  destruct (app_eq_inv _ _ _ _ Ht) as [(k & -> & Hk)|(k & -> & Hk)].
  - assert (Hp : prefixb w (w ++ k) = true) by apply prefixb_app.
    rewrite H in Hp; done.
  - destruct k as [|d k].
    { rewrite app_nil_r in Hw. specialize (H u Hw).
      assert (Hp : prefixb u (u ++ []) = true) by apply prefixb_app.
      rewrite app_nil_r in Hp. congruence. }
    cbn in Hk. injection Hk as <- _.
    unfold trim_words in Hws. rewrite forallb_forall in Hws.
    apply list_elem_of_In in Hw. specialize (Hws _ Hw).
    destruct u as [|u0 u]; [done|]. cbn in Hws.
    destruct (u ++ c :: k) eqn:E; [by destruct u|]. rewrite <- E in Hws.
    apply andb_true_iff in Hws as [_ Hws].
    rewrite forallb_app in Hws. cbn in Hws. rewrite Hc in Hws.
    rewrite andb_false_r in Hws. done.
Qed.

Lemma strip_spec n s :
  (length s <= n)%nat -> exists p, s = p ++ strip ws n s /\ lead ws (strip ws n s) = 0%nat.
Proof.
  revert s; induction n as [|n IH]; intros s Hn; cbn.
  - exists []. split; [done|]. destruct s; [|cbn in Hn; lia].
    apply lead_zero. intros w Hw. unfold trim_words in Hws.
    rewrite forallb_forall in Hws. apply list_elem_of_In in Hw.
    specialize (Hws w Hw). destruct w; done.
  - destruct (lead ws s) as [|k] eqn:E; [by exists []|].
    destruct (lead_pos _ _ E) as (w & t & Hw & Hl & ->).
    rewrite <- Hl, drop_app_length.
    destruct (IH t) as (p & Hp & Hz).
    { rewrite length_app in Hn. lia. }
    exists (w ++ p). split; [|done]. by rewrite <- (assoc_L (++)), <- Hp.
Qed.

Lemma strip_id n s : lead ws s = 0%nat -> strip ws n s = s.
Proof. intros H. destruct n; cbn; [done|]. by rewrite H. Qed.
End strip.

Lemma TrimRightSpace_spec s :
  exists p, s = TrimRightSpace s ++ p /\ lead rspaces (reverse (TrimRightSpace s)) = 0%nat.
Proof.
  unfold TrimRightSpace.
  destruct (strip_spec rspaces rspaces_words (length s) (reverse s)) as (p & Hp & Hz).
  { by rewrite length_reverse. }
  exists (reverse p). rewrite reverse_involutive. split; [|done].
  by rewrite <- reverse_app, <- Hp, reverse_involutive.
Qed.

(** TrimSpace returns a trimmed infix of its argument. *)
Lemma TrimSpace_spec s : trimmed (TrimSpace s) /\ exists p q, s = p ++ TrimSpace s ++ q.
Proof.
  unfold TrimSpace.
  destruct (strip_spec spaces spaces_words (length s) s) as (p & Hp & Hz); [done|].
  fold (TrimLeftSpace s) in *.
  destruct (TrimRightSpace_spec (TrimLeftSpace s)) as (q & Hq & Hr).
  split.
  - split; [|done]. eapply lead_prefix; [apply spaces_words|]. by rewrite <- Hq.
  - exists p, q. by rewrite <- Hq.
Qed.

Lemma TrimSpace_trimmed s : trimmed (TrimSpace s).
Proof. apply TrimSpace_spec. Qed.

Lemma TrimSpace_elem s x : x ∈ TrimSpace s -> x ∈ s.
Proof. destruct (TrimSpace_spec s) as (_ & p & q & H). rewrite H at 2. set_solver. Qed.

Lemma TrimSpace_id s : trimmed s -> TrimSpace s = s.
Proof.
  intros [Hl Hr]. unfold TrimSpace, TrimLeftSpace. rewrite strip_id by done.
  unfold TrimRightSpace. rewrite strip_id by done. apply reverse_involutive.
Qed.

Lemma TrimRightSpace_id s : lead rspaces (reverse s) = 0%nat -> TrimRightSpace s = s.
Proof. intros H. unfold TrimRightSpace. rewrite strip_id by done. apply reverse_involutive. Qed.

Lemma TrimSpace_cons_space s : TrimSpace (" "%char :: s) = TrimSpace s.
Proof. reflexivity. Qed.

Lemma TrimRightSpace_snoc_space s : TrimRightSpace (s ++ [" "%char]) = TrimRightSpace s.
Proof.
  unfold TrimRightSpace. rewrite reverse_app, length_app, Nat.add_comm. reflexivity.
Qed.

Lemma TrimSpace_snoc_space s : trimmed s -> TrimSpace (s ++ [" "%char]) = s.
Proof.
  intros [Hl Hr]. unfold TrimSpace.
  destruct s as [|c s]; [reflexivity|].
  unfold TrimLeftSpace. rewrite strip_id.
  - rewrite TrimRightSpace_snoc_space. by apply TrimRightSpace_id.
  - apply (lead_app_ascii spaces spaces_words); done.
Qed.

(** Bytes that never begin or end a run of white space. *)
Definition solid (c : ascii) : bool :=
  isASCII c && negb (has_byte c (bytes_of [9; 10; 11; 12; 13; 32])).

Lemma lead_solid c s : solid c = true -> lead spaces (c :: s) = 0%nat.
Proof. destruct c as [[][][][][][][][]]; vm_compute; done. Qed.

Lemma rlead_solid c s : solid c = true -> lead rspaces (c :: s) = 0%nat.
Proof. destruct c as [[][][][][][][][]]; vm_compute; done. Qed.

(** A text that starts with a solid byte and ends in a trimmed value after an
    ASCII byte is trimmed. *)
Lemma trimmed_field c a d v :
  solid c = true -> isASCII d = true -> trimmed v -> v <> [] -> trimmed (c :: a ++ d :: v).
Proof.
  intros Hc Hd [_ Hv] Hne. split; [by apply lead_solid|].
  rewrite reverse_cons, reverse_app, reverse_cons.
  rewrite <- !(assoc_L (++)). cbn.
  apply (lead_app_ascii rspaces rspaces_words); [done| |done].
  intros E. apply Hne. by rewrite <- (reverse_involutive v), E.
Qed.

Lemma trimmed_solid_ends c a d :
  solid c = true -> solid d = true -> trimmed (c :: a ++ [d]).
Proof.
  intros Hc Hd. split; [by apply lead_solid|].
  rewrite reverse_cons, reverse_app. cbn. by apply rlead_solid.
Qed.

Lemma trimmed_single c : solid c = true -> trimmed [c].
Proof. intros Hc. split; [by apply lead_solid | by apply rlead_solid]. Qed.

Lemma trimmed_solid s : Forall (fun c => solid c = true) s -> trimmed s.
Proof.
  intros H. destruct s as [|c s]; [split; vm_compute; done|].
  apply Forall_cons in H as [Hc H].
  induction s as [|d s _] using rev_ind; [by apply trimmed_single|].
  apply Forall_app in H as [_ [Hd _]%Forall_cons].
  by apply trimmed_solid_ends.
Qed.

(** ** Lemmas: TrimRight *)

Lemma dropWhile_spec f s :
  exists p, s = p ++ dropWhile f s /\ match dropWhile f s with [] => True | c :: _ => f c = false end.
Proof.
  induction s as [|c s (p & Hp & Hf)]; cbn; [by exists []|].
  destruct (f c) eqn:E.
  - exists (c :: p). split; [cbn; by rewrite <- Hp | done].
  - exists []. by rewrite E.
Qed.

(** [s] does not end in a byte of [cutset]. *)
Definition rclean (cutset s : gostring) : Prop :=
  forall c, last s = Some c -> c ∉ cutset.

Lemma TrimRight_rclean s cutset : rclean cutset (TrimRight s cutset).
Proof.
  unfold rclean, TrimRight. intros c.
  destruct (dropWhile_spec (fun c => has_byte c cutset) (reverse s)) as (p & _ & Hf).
  destruct (dropWhile _ _) as [|d r]; [done|].
  rewrite reverse_cons, last_snoc. intros [= <-]. by apply has_byte_false.
Qed.

Lemma TrimRight_id s cutset : rclean cutset s -> TrimRight s cutset = s.
Proof.
  intros H. unfold TrimRight. induction s as [|c s _] using rev_ind; [done|].
  rewrite reverse_snoc. cbn [dropWhile].
  assert (Hc : has_byte c cutset = false).
  { apply has_byte_false, H. apply last_snoc. }
  rewrite Hc. by rewrite reverse_cons, reverse_involutive.
Qed.

Lemma TrimRight_elem s cutset x : x ∈ TrimRight s cutset -> x ∈ s.
Proof.
  unfold TrimRight. rewrite elem_of_reverse. intros Hx.
  destruct (dropWhile_spec (fun c => has_byte c cutset) (reverse s)) as (p & Hp & _).
  rewrite <- elem_of_reverse, Hp. set_solver.
Qed.

(** ** Lemmas: letter case *)

Lemma lowerByte_ascii c : isASCII c = true -> isASCII (lowerByte c) = true.
Proof. destruct c as [[][][][][][][][]]; vm_compute; done. Qed.

Lemma ToLower_ascii `{UnicodeTables} s :
  forallb isASCII s = true -> ToLower s = map lowerByte s.
Proof. intros Hs. unfold ToLower. by rewrite Hs. Qed.

Lemma isASCII_code c : isASCII c = true <-> (code c < 128)%Z.
Proof. unfold isASCII. apply Z.ltb_lt. Qed.

Lemma decodeRune_high c s : isASCII c = false -> (128 <= (decodeRune (c :: s)).1)%Z.
Proof.
  unfold isASCII, RuneError. intros Hc. cbn [decodeRune].
  rewrite Hc. unfold cont, in_range.
  repeat (case_match; cbn [fst]; try (unfold RuneError; lia)); lia.
Qed.

Lemma encodeRune_head r :
  (128 <= r)%Z -> exists d t, encodeRune r = d :: t /\ isASCII d = false.
Proof.
  intros Hr. unfold encodeRune.
  assert (Hd : forall z t, (128 <= z < 256)%Z -> exists d t', bytes_of (z :: t) = d :: t' /\ isASCII d = false).
  { intros z t Hz. exists (chr z), (bytes_of t). split; [done|].
    unfold isASCII. rewrite code_chr, Z.mod_small by lia. apply Z.ltb_ge. lia. }
  repeat case_match; try lia; apply Hd; Z.to_euclidean_division_equations; lia.
Qed.

Section LowerPrefix.
Context `{UnicodeTables}.

Definition lowerRunes (n : nat) (s : gostring) : gostring :=
  concat (map encodeRune (List.filter (fun r => 0 <=? r) (map lowerRune (runes n s)))).

Lemma lowerRunes_ascii n c s :
  isASCII c = true -> lowerRunes (S n) (c :: s) = lowerByte c :: lowerRunes n s.
Proof.
  intros Hc. unfold lowerRunes. cbn [runes decodeRune].
  assert (Hlt : (code c <? 128) = true) by exact Hc. rewrite Hlt. cbn [map].
  pose proof (code_range c).
  assert (Hl : lowerRune (code c) = code (lowerByte c)).
  { unfold lowerRune, lowerByte, isUpper, in_range. rewrite Hlt. case_match; [|done].
    rewrite code_chr, Z.mod_small; [done|]. lia. }
  rewrite Hl. cbn [List.filter]. pose proof (code_range (lowerByte c)).
  destruct (Z.leb_spec 0 (code (lowerByte c))); [|lia]. cbn [map concat].
  unfold encodeRune at 1. apply lowerByte_ascii, isASCII_code in Hc.
  destruct (Z.leb_spec 0 (code (lowerByte c))); [|lia].
  destruct (Z.ltb_spec (code (lowerByte c)) 128); [|lia]. cbn [andb bytes_of map app].
  by rewrite chr_code.
Qed.

Lemma lowerRunes_high n c s :
  isASCII c = false ->
  exists d t, lowerRunes (S n) (c :: s) = d :: t /\ (isASCII d = false \/ d = "i"%char \/ d = "k"%char).
Proof.
  intros Hc. unfold lowerRunes. cbn [runes].
  pose proof (decodeRune_high c s Hc) as Hr. destruct (decodeRune (c :: s)) as [r w]. cbn [fst] in Hr.
  cbn [map]. assert (lowerRune r = uni_lower r) as ->
    by (unfold lowerRune; destruct (Z.ltb_spec r 128); [lia|done]).
  cbn [List.filter]. destruct (uni_lower_ascii r Hr) as [Hu|[-> | ->]].
  - destruct (Z.leb_spec 0 (uni_lower r)); [|lia]. cbn [map concat].
    destruct (encodeRune_head _ Hu) as (d & t & -> & Hd). cbn [app]. eauto.
  - cbn. eexists _, _. split; [done | auto].
  - cbn. eexists _, _. split; [done | auto].
Qed.

(** A prefix of ASCII letters other than i and k in the lower-cased text
    comes from ASCII letters. *)
Lemma ToLower_prefix s p :
  Forall (fun c => isASCII c = true /\ c <> "i"%char /\ c <> "k"%char) p ->
  HasPrefix (ToLower s) p = true -> HasPrefix (map lowerByte s) p = true.
Proof.
  intros Hp. unfold ToLower. case_match; [done|].
  change (concat _) with (lowerRunes (length s) s).
  generalize (length s). intros n. clear -Hp. revert n s.
  induction Hp as [|c p (Hc & Hi & Hk) _ IH]; intros n s; [done|]. unfold HasPrefix in *.
  destruct n as [|n]; [done|]. destruct s as [|d s]; [done|].
  destruct (isASCII d) eqn:Hd.
  - rewrite lowerRunes_ascii by done. cbn [prefixb map].
    intros [E Hr]%andb_prop. rewrite E. by apply (IH n).
  - destruct (lowerRunes_high n d s Hd) as (e & t & -> & He). cbn [prefixb].
    intros [E%Ascii.eqb_eq _]%andb_prop. subst. destruct He as [He|[He|He]]; congruence.
Qed.
End LowerPrefix.

Lemma HasSuffix_spec s p : HasSuffix s p = true <-> exists t, s = t ++ p.
Proof.
  unfold HasSuffix. rewrite prefixb_spec. split.
  - intros (t & Ht). exists (reverse t). apply (f_equal reverse) in Ht.
    by rewrite reverse_involutive, reverse_app, reverse_involutive in Ht.
  - intros (t & ->). exists (reverse t). by rewrite reverse_app.
Qed.

Lemma TrimSuffix_app t p : TrimSuffix (t ++ p) p = t.
Proof.
  unfold TrimSuffix.
  assert (HasSuffix (t ++ p) p = true) as -> by (apply HasSuffix_spec; eauto).
  rewrite length_app, Nat.add_sub. by rewrite take_app_length.
Qed.

Lemma TrimPrefix_app p t : TrimPrefix (p ++ t) p = t.
Proof. unfold TrimPrefix, HasPrefix. by rewrite prefixb_app, drop_app_length. Qed.
