(* ===== verification/GoNum.v ===== *)
(** * The parts of Go's strconv, encoding/hex and encoding/base64 the program uses

    [int] is 64 bits wide. Decoders return [None] for any decoding error: the
    callers only use the fact that there was one. *)

From S2P Require Import Prelude GoStrings.
Local Open Scope Z_scope.

(** ** strconv *)

Definition digitChar (d : Z) : ascii := if d <? 10 then chr (48 + d) else chr (87 + d).

(** The value of a digit of [base] (at most 16), in either letter case. *)
Definition digitVal (base : Z) (c : ascii) : option Z :=
  let v := if isDigit c then code c - 48
           else if in_range 97 102 c then code c - 87
           else if in_range 65 70 c then code c - 55
           else base in
  if v <? base then Some v else None.

Fixpoint format (base : Z) (n : nat) (z : Z) : gostring :=
  match n with
  | O => []
  | S n' => if z <? base then [digitChar z]
            else format base n' (z / base) ++ [digitChar (z mod base)]
  end.

(** strconv.FormatUint for a non-negative number. *)
Definition FormatUint (base z : Z) : gostring := format base (S (Z.to_nat (Z.log2 z))) z.

(** fmt's %d and strconv.Itoa on non-negative numbers. *)
Definition itoa (z : Z) : gostring := FormatUint 10 z.

(** The digit loop of strconv.ParseUint: the first bad digit or overflow wins. *)
Fixpoint parseDigits (fn : string) (num : gostring) (base maxv acc : Z) (s : gostring)
    : result Z :=
  match s with
  | [] => Ok acc
  | c :: s' =>
      match digitVal base c with
      | None => Err (NumError fn num false)
      | Some d => let n := acc * base + d in
                  if maxv <? n then Err (NumError fn num true)
                  else parseDigits fn num base maxv n s'
      end
  end.

Definition ParseUint (s : gostring) (bits : Z) : result Z :=
  match s with
  | [] => Err (NumError "ParseUint" s false)
  | _ => parseDigits "ParseUint" s 10 (2 ^ bits - 1) 0 s
  end.

Definition maxInt : Z := 2 ^ 63 - 1.

Definition atoiSigned (neg : bool) (s digits : gostring) : result Z :=
  match digits with
  | [] => Err (NumError "Atoi" s false)
  | _ =>
      let? n := parseDigits "Atoi" s 10 (2 ^ 64 - 1) 0 digits in
      if neg then (if 2 ^ 63 <? n then Err (NumError "Atoi" s true) else Ok (- n))
      else (if maxInt <? n then Err (NumError "Atoi" s true) else Ok n)
  end.

Definition Atoi (s : gostring) : result Z :=
  match s with
  | "-"%char :: ds => atoiSigned true s ds
  | "+"%char :: ds => atoiSigned false s ds
  | _ => atoiSigned false s s
  end.

(** ** encoding/hex *)

Fixpoint hexEncode (bs : gostring) : gostring :=
  match bs with
  | [] => []
  | b :: bs' => digitChar (code b / 16) :: digitChar (code b mod 16) :: hexEncode bs'
  end.

Fixpoint hexDecode (s : gostring) : option gostring :=
  match s with
  | [] => Some []
  | a :: b :: s' =>
      match digitVal 16 a, digitVal 16 b, hexDecode s' with
      | Some h, Some l, Some bs => Some (chr (h * 16 + l) :: bs)
      | _, _, _ => None
      end
  | [_] => None
  end.

(** ** encoding/base64, StdEncoding *)

Definition b64char (v : Z) : ascii :=
  if v <? 26 then chr (65 + v)
  else if v <? 52 then chr (97 + (v - 26))
  else if v <? 62 then chr (48 + (v - 52))
  else if v =? 62 then "+"%char else "/"%char.

Definition b64val (c : ascii) : option Z :=
  if isUpper c then Some (code c - 65)
  else if isLower c then Some (code c - 71)
  else if isDigit c then Some (code c + 4)
  else if Ascii.eqb c "+" then Some 62
  else if Ascii.eqb c "/" then Some 63
  else None.

Fixpoint b64Encode (bs : gostring) : gostring :=
  match bs with
  | [] => []
  | [a] =>
      [b64char (code a / 4); b64char (code a mod 4 * 16); "="%char; "="%char]
  | [a; b] =>
      [b64char (code a / 4); b64char (code a mod 4 * 16 + code b / 16);
       b64char (code b mod 16 * 4); "="%char]
  | a :: b :: c :: bs' =>
      b64char (code a / 4) :: b64char (code a mod 4 * 16 + code b / 16)
      :: b64char (code b mod 16 * 4 + code c / 64) :: b64char (code c mod 64)
      :: b64Encode bs'
  end.

Definition isNewline (c : ascii) : bool := Ascii.eqb c LF || Ascii.eqb c CR.

(** The first [n] of the three bytes that four sextets make. *)
Definition b64bytes (n : nat) (v0 v1 v2 v3 : Z) : gostring :=
  take n [chr (v0 * 4 + v1 / 16); chr (v1 mod 16 * 16 + v2 / 4); chr (v2 mod 4 * 64 + v3)].

(** decodeQuantum, byte by byte: [buf] holds the sextets of the current quantum.
    Line breaks are skipped; padding must end the input. *)
Fixpoint b64Loop (buf : list Z) (s : gostring) : option gostring :=
  match s with
  | [] => match buf with [] => Some [] | _ => None end
  | c :: s' =>
      match b64val c with
      | Some v =>
          match buf with
          | [v0; v1; v2] =>
              match b64Loop [] s' with
              | Some bs => Some (b64bytes 3 v0 v1 v2 v ++ bs)
              | None => None
              end
          | _ => b64Loop (buf ++ [v]) s'
          end
      | None =>
          if isNewline c then b64Loop buf s'
          else if Ascii.eqb c "=" then
            match buf with
            | [v0; v1] =>
                match dropWhile isNewline s' with
                | p :: s'' =>
                    if Ascii.eqb p "=" && bool_decide (dropWhile isNewline s'' = [])
                    then Some (b64bytes 1 v0 v1 0 0) else None
                | [] => None
                end
            | [v0; v1; v2] =>
                if bool_decide (dropWhile isNewline s' = [])
                then Some (b64bytes 2 v0 v1 v2 0) else None
            | _ => None
            end
          else None
      end
  end.

Definition b64Decode (s : gostring) : option gostring := b64Loop [] s.

(** ** Lemmas: digits *)

Lemma Forall_Z_range (P : Z -> bool) (n : nat) :
  forallb (fun i => P (Z.of_nat i)) (seq 0 n) = true ->
  forall z, 0 <= z < Z.of_nat n -> P z = true.
Proof.
  intros H z Hz. rewrite forallb_forall in H.
  rewrite <- (Z2Nat.id z) by lia. apply H, in_seq. lia.
Qed.

Lemma digitVal_digitChar base d :
  2 <= base <= 16 -> 0 <= d < base -> digitVal base (digitChar d) = Some d.
Proof.
  intros Hb Hd.
  assert (H : (match digitVal 16 (digitChar d) with Some v => v =? d | None => false end) = true).
  { revert d Hd. intros d Hd.
    apply (Forall_Z_range (fun d => match digitVal 16 (digitChar d) with
                                    | Some v => v =? d | None => false end) 16);
      [vm_compute; done | lia]. }
  unfold digitVal in *. repeat case_match; simplify_eq; try done; try lia; f_equal; lia.
Qed.

Lemma digitChar_solid d :
  0 <= d < 16 -> solid (digitChar d) && negb (has_byte (digitChar d) (str ",#=/:.%[]+-")) = true.
Proof.
  intros Hd.
  apply (Forall_Z_range (fun d => solid (digitChar d)
           && negb (has_byte (digitChar d) (str ",#=/:.%[]+-"))) 16); [vm_compute; done | lia].
Qed.

Section format.
Context (base : Z) (Hbase : 2 <= base <= 16).

Lemma format_fuel n z : 0 <= z < 2 ^ Z.of_nat n -> (0 < n)%nat -> format base n z <> [].
Proof. destruct n; cbn; [lia|]. intros _ _. case_match; [done|]. by destruct (format _ _ _). Qed.

Lemma format_digits n z :
  0 <= z -> Forall (fun c => exists d, 0 <= d < base /\ c = digitChar d) (format base n z).
Proof.
  revert z; induction n as [|n IH]; intros z Hz; cbn; [constructor|].
  case_match eqn:E.
  - repeat constructor. exists z. split; [lia | done].
  - apply Forall_app. split; [apply IH, Z.div_pos; lia|].
    repeat constructor. exists (z mod base). split; [|done].
    apply Z.mod_pos_bound. lia.
Qed.

Lemma parseDigits_app fn num maxv s t acc a :
  parseDigits fn num base maxv acc s = Ok a ->
  parseDigits fn num base maxv acc (s ++ t) = parseDigits fn num base maxv a t.
Proof.
  revert acc; induction s as [|c s IH]; intros acc; cbn; [by intros [= ->]|].
  repeat case_match; try done. apply IH.
Qed.

Lemma parseDigits_format fn num maxv n z :
  0 <= z <= maxv -> z < 2 ^ Z.of_nat n -> (0 < n)%nat ->
  parseDigits fn num base maxv 0 (format base n z) = Ok z.
Proof.
  revert z; induction n as [|n IH]; intros z Hz Hn Hpos; [lia|].
  cbn [format]. case_match eqn:E.
  - cbn. rewrite digitVal_digitChar by lia. case_match; [lia|]. f_equal; lia.
  - assert (Hd : 0 <= z / base <= z / 2).
    { split; [apply Z.div_pos; lia | apply Z.div_le_compat_l; lia]. }
    pose proof (Z.div_mod z base ltac:(lia)) as Hdm.
    pose proof (Z.mod_pos_bound z base ltac:(lia)) as Hm.
    assert (Hz2 : z / 2 < 2 ^ Z.of_nat n).
    { apply Z.div_lt_upper_bound; [lia|].
      rewrite Nat2Z.inj_succ, Z.pow_succ_r in Hn by lia. lia. }
    assert (Hnn : (0 < n)%nat).
    { destruct n; [|lia]. change (z < 2) in Hn. lia. }
    rewrite (parseDigits_app _ _ _ _ _ _ (z / base)).
    + cbn. rewrite digitVal_digitChar by lia.
      rewrite (Z.mul_comm (z / base)), <- Hdm. case_match; [lia | done].
    + apply IH; [|lia|done]. split; [lia|]. nia.
Qed.
End format.

Lemma log2_fuel z : 0 <= z -> z < 2 ^ Z.of_nat (S (Z.to_nat (Z.log2 z))).
Proof.
  intros Hz. rewrite Nat2Z.inj_succ, Z2Nat.id by apply Z.log2_nonneg.
  destruct (decide (z = 0)) as [->|]; [done|]. apply Z.log2_spec. lia.
Qed.

(** ** Lemmas: numbers written by the program are read back *)

Section FormatUint.
Context (base : Z) (Hbase : 2 <= base <= 16).

Lemma FormatUint_nonempty z : FormatUint base z <> [].
Proof. unfold FormatUint. cbn. case_match; [done|]. by destruct (format _ _ _). Qed.

Lemma FormatUint_digits z :
  0 <= z -> Forall (fun c => exists d, 0 <= d < base /\ c = digitChar d) (FormatUint base z).
Proof. intros Hz. by apply format_digits. Qed.

Lemma parseDigits_FormatUint fn num maxv z :
  0 <= z <= maxv -> parseDigits fn num base maxv 0 (FormatUint base z) = Ok z.
Proof. intros Hz. apply parseDigits_format; [done..| |lia]. apply log2_fuel. lia. Qed.

(** Every byte of a formatted number is a solid one and no separator. *)
Lemma FormatUint_clean z :
  0 <= z -> Forall (fun c => solid c = true /\ c ∉ str ",#=/:.%[]+-") (FormatUint base z).
Proof.
  intros Hz. eapply Forall_impl; [by apply FormatUint_digits|].
  intros c (d & Hd & ->). pose proof (digitChar_solid d ltac:(lia)) as H.
  apply andb_true_iff in H as [? ?%negb_true_iff]. split; [done|].
  by apply has_byte_false.
Qed.
End FormatUint.

Lemma itoa_nonempty z : itoa z <> [].
Proof. apply FormatUint_nonempty. Qed.

Lemma itoa_clean z :
  0 <= z -> Forall (fun c => solid c = true /\ c ∉ str ",#=/:.%[]+-") (itoa z).
Proof. intros. apply FormatUint_clean; lia. Qed.

Lemma itoa_notin z c : 0 <= z -> c ∈ str ",#=/:.%[]+-" -> c ∉ itoa z.
Proof.
  intros Hz Hc Hin. pose proof (itoa_clean z Hz) as H.
  rewrite Forall_forall in H. by destruct (H c Hin).
Qed.

Lemma itoa_trimmed z : 0 <= z -> trimmed (itoa z).
Proof.
  intros Hz. apply trimmed_solid. eapply Forall_impl; [by apply itoa_clean|].
  by intros c [? _].
Qed.

Lemma ParseUint_itoa z bits : 0 <= z < 2 ^ bits -> ParseUint (itoa z) bits = Ok z.
Proof.
  intros Hz. unfold ParseUint. destruct (itoa z) eqn:E; [by apply itoa_nonempty in E|].
  rewrite <- E. apply parseDigits_FormatUint; lia.
Qed.

Lemma Atoi_itoa z : 0 <= z <= maxInt -> Atoi (itoa z) = Ok z.
Proof.
  intros Hz. unfold Atoi.
  assert (Hs : atoiSigned false (itoa z) (itoa z) = Ok z).
  { unfold atoiSigned. destruct (itoa z) eqn:E; [by apply itoa_nonempty in E|].
    rewrite <- E. unfold itoa at 2. rewrite parseDigits_FormatUint.
    - cbn. case_match; [lia | done].
    - lia.
    - unfold maxInt in Hz. lia. }
  destruct (itoa z) as [|c s] eqn:E; [done|].
  assert (Hm : "-"%char ∉ itoa z) by (apply itoa_notin; [lia | vm_compute; set_solver]).
  assert (Hp : "+"%char ∉ itoa z) by (apply itoa_notin; [lia | vm_compute; set_solver]).
  rewrite E in Hm, Hp. apply not_elem_of_cons in Hm as [Hm _], Hp as [Hp _].
  destruct c as [[][][][][][][][]]; done.
Qed.

(** ** Lemmas: hex *)

Lemma code_div16 b : 0 <= code b / 16 < 16 /\ 0 <= code b mod 16 < 16.
Proof.
  pose proof (code_range b). split; [|apply Z.mod_pos_bound; lia].
  split; [apply Z.div_pos; lia | apply Z.div_lt_upper_bound; lia].
Qed.

Lemma hexDecode_hexEncode bs : hexDecode (hexEncode bs) = Some bs.
Proof.
  induction bs as [|b bs IH]; [done|]. cbn [hexEncode hexDecode].
  destruct (code_div16 b) as [Hh Hl].
  rewrite !digitVal_digitChar by lia. rewrite IH.
  rewrite (Z.mul_comm (code b / 16)), <- Z.div_mod, chr_code by lia. done.
Qed.

Lemma length_hexEncode bs : length (hexEncode bs) = (2 * length bs)%nat.
Proof. induction bs as [|b bs IH]; cbn [hexEncode length]; lia. Qed.

(** ** Lemmas: base64 *)

Lemma b64val_b64char v : 0 <= v < 64 -> b64val (b64char v) = Some v.
Proof.
  intros Hv.
  assert (H : (match b64val (b64char v) with Some w => w =? v | None => false end) = true).
  { apply (Forall_Z_range (fun v => match b64val (b64char v) with
                                    | Some w => w =? v | None => false end) 64);
      [vm_compute; done | lia]. }
  case_match; [f_equal; lia | done].
Qed.

Lemma b64char_clean v :
  0 <= v < 64 -> solid (b64char v) = true /\ b64char v ∉ str ",#[]:%".
Proof.
  intros Hv.
  assert (H : solid (b64char v) && negb (has_byte (b64char v) (str ",#[]:%")) = true).
  { apply (Forall_Z_range (fun v => solid (b64char v)
             && negb (has_byte (b64char v) (str ",#[]:%"))) 64); [vm_compute; done | lia]. }
  apply andb_true_iff in H as [? ?%negb_true_iff]. split; [done|]. by apply has_byte_false.
Qed.

(** The sextets of three bytes, and the bytes of four sextets. *)
Lemma sextets a b c :
  0 <= a < 256 -> 0 <= b < 256 -> 0 <= c < 256 ->
  (0 <= a / 4 < 64 /\ 0 <= a mod 4 * 16 + b / 16 < 64
   /\ 0 <= b mod 16 * 4 + c / 64 < 64 /\ 0 <= c mod 64 < 64)
  /\ (a / 4 * 4 + (a mod 4 * 16 + b / 16) / 16 = a
      /\ (a mod 4 * 16 + b / 16) mod 16 * 16 + (b mod 16 * 4 + c / 64) / 4 = b
      /\ (b mod 16 * 4 + c / 64) mod 4 * 64 + c mod 64 = c).
Proof. intros. Z.to_euclidean_division_equations. nia. Qed.

Lemma b64_quantum a b c s :
  b64Loop [] (b64char (code a / 4) :: b64char (code a mod 4 * 16 + code b / 16)
      :: b64char (code b mod 16 * 4 + code c / 64) :: b64char (code c mod 64) :: s)
  = (bs ← b64Loop [] s; Some (a :: b :: c :: bs)).
Proof.
  destruct (sextets (code a) (code b) (code c)) as [(H0 & H1 & H2 & H3) (E0 & E1 & E2)];
    [apply code_range..|].
  cbn [b64Loop]. rewrite !b64val_b64char by done. cbn [app].
  unfold b64bytes. cbn [take]. rewrite E0, E1, E2, !chr_code.
  by destruct (b64Loop [] s).
Qed.

Lemma b64_pad2 a b :
  b64Loop [] [b64char (code a / 4); b64char (code a mod 4 * 16 + code b / 16);
              b64char (code b mod 16 * 4); "="%char] = Some [a; b].
Proof.
  destruct (sextets (code a) (code b) 0) as [(H0 & H1 & H2 & H3) (E0 & E1 & E2)];
    [apply code_range.. | lia |].
  rewrite Z.add_0_r in *. cbn [b64Loop]. rewrite !b64val_b64char by done.
  cbn. unfold b64bytes. cbn [take]. by rewrite E0, E1, !chr_code.
Qed.

Lemma b64_pad1 a :
  b64Loop [] [b64char (code a / 4); b64char (code a mod 4 * 16); "="%char; "="%char]
  = Some [a].
Proof.
  destruct (sextets (code a) 0 0) as [(H0 & H1 & H2 & H3) (E0 & E1 & E2)];
    [apply code_range.. | lia | lia |].
  rewrite Z.add_0_r in *. cbn [b64Loop]. rewrite !b64val_b64char by done.
  cbn. unfold b64bytes. cbn [take]. by rewrite E0, !chr_code.
Qed.

(** base64.StdEncoding decodes what it encoded. *)
Lemma b64Decode_b64Encode bs : b64Decode (b64Encode bs) = Some bs.
Proof.
  unfold b64Decode. induction bs as [|a|a b|a b c bs IH] using list_ind3;
    [done | apply b64_pad1 | apply b64_pad2 |].
  cbn [b64Encode]. by rewrite b64_quantum, IH.
Qed.

Lemma b64Encode_clean bs : Forall (fun c => solid c = true /\ c ∉ str ",#[]:%") (b64Encode bs).
Proof.
  assert (He : solid "="%char = true /\ "="%char ∉ str ",#[]:%").
  { split; [done|]. apply has_byte_false. done. }
  induction bs as [|a|a b|a b c bs IH] using list_ind3; cbn [b64Encode].
  - constructor.
  - destruct (sextets (code a) 0 0) as [(H0 & H1 & H2 & H3) _]; [apply code_range.. | lia | lia |].
    rewrite Z.add_0_r in *. repeat (constructor; auto using b64char_clean).
  - destruct (sextets (code a) (code b) 0) as [(H0 & H1 & H2 & H3) _];
      [apply code_range.. | lia |].
    rewrite Z.add_0_r in *. repeat (constructor; auto using b64char_clean).
  - destruct (sextets (code a) (code b) (code c)) as [(H0 & H1 & H2 & H3) _];
      [apply code_range..|].
    repeat (constructor; auto using b64char_clean).
Qed.

Lemma b64Encode_nonempty bs : bs <> [] -> b64Encode bs <> [].
Proof. destruct bs as [|a [|b [|c bs]]]; done. Qed.
