(* ===== verification/Netip.v ===== *)
(** * Go's net/netip: addresses, prefixes, their text forms

    An address is the zero Addr, an IPv4 address as a 32-bit number, or an IPv6
    address as a 128-bit number with its zone. Parsers return [None] where Go
    returns an error: the program only uses the fact that there was one. *)

From S2P Require Import Prelude GoStrings GoNum.
Local Open Scope Z_scope.

Inductive Addr : Type :=
  | AddrZero
  | Addr4 (v : Z)
  | Addr6 (v : Z) (zone : gostring).

#[global] Instance Addr_eq_dec : EqDecision Addr.
Proof. solve_decision. Defined.

(** [p_bits] is netip.Prefix.Bits: -1 for an invalid prefix. *)
Record Prefix : Type := mkPrefix { p_addr : Addr; p_bits : Z }.

#[global] Instance Prefix_eq_dec : EqDecision Prefix.
Proof. solve_decision. Defined.

Definition Is4 (a : Addr) : bool := match a with Addr4 _ => true | _ => false end.
Definition Is6 (a : Addr) : bool := match a with Addr6 _ _ => true | _ => false end.
Definition BitLen (a : Addr) : Z :=
  match a with AddrZero => 0 | Addr4 _ => 32 | Addr6 _ _ => 128 end.
Definition Is4In6 (a : Addr) : bool :=
  match a with Addr6 v _ => v / 2 ^ 32 =? 65535 | _ => false end.
Definition Unmap (a : Addr) : Addr :=
  match a with
  | Addr6 v _ => if Is4In6 a then Addr4 (v mod 2 ^ 32) else a
  | _ => a
  end.
Definition withoutZone (a : Addr) : Addr :=
  match a with Addr6 v _ => Addr6 v [] | _ => a end.

Definition PrefixFrom (a : Addr) (bits : Z) : Prefix :=
  mkPrefix (withoutZone a)
    (if bool_decide (a <> AddrZero) && (0 <=? bits) && (bits <=? BitLen a) then bits else -1).

Definition IsValidPrefix (p : Prefix) : bool := 0 <=? p_bits p.

Definition maskTo (width bits v : Z) : Z := v / 2 ^ (width - bits) * 2 ^ (width - bits).

(** Prefix.Masked. *)
Definition Masked (p : Prefix) : Prefix :=
  if IsValidPrefix p then
    match p_addr p with
    | Addr4 v => PrefixFrom (Addr4 (maskTo 32 (p_bits p) v)) (p_bits p)
    | Addr6 v _ => PrefixFrom (Addr6 (maskTo 128 (p_bits p) v) []) (p_bits p)
    | AddrZero => mkPrefix AddrZero (-1)
    end
  else mkPrefix AddrZero (-1).

(** ** Parsing *)

(** parseIPv4Fields: [dig] digits of the current octet make [val]. *)
Fixpoint parse4 (fields : list Z) (val : Z) (dig : nat) (s : gostring) : option (list Z) :=
  match s with
  | [] => if (length fields =? 3)%nat then Some (fields ++ [val]) else None
  | c :: s' =>
      if isDigit c then
        if (dig =? 1)%nat && (val =? 0) then None
        else let v := val * 10 + (code c - 48) in
             if 255 <? v then None else parse4 fields v (S dig) s'
      else if Ascii.eqb c "." then
        match s' with
        | [] => None
        | _ => if (dig =? 0)%nat then None
               else if (length fields =? 3)%nat then None
               else parse4 (fields ++ [val]) 0 0 s'
        end
      else None
  end.

Definition combine (base : Z) (l : list Z) : Z := fold_left (fun acc d => acc * base + d) l 0.

Definition parseIPv4 (s : gostring) : option Addr :=
  match parse4 [] 0 0 s with
  | Some fs => Some (Addr4 (combine 256 fs))
  | None => None
  end.

(** The hex digits of one group: value, number of digits, remaining text. *)
Fixpoint hexGroup (off : nat) (acc : Z) (s : gostring) : option (Z * nat * gostring) :=
  match s with
  | [] => Some (acc, off, [])
  | c :: s' =>
      match digitVal 16 c with
      | Some d => if (3 <? off)%nat then None else hexGroup (S off) (acc * 16 + d) s'
      | None => Some (acc, off, s)
      end
  end.

(** The group loop of parseIPv6; [n] groups may still be added. *)
Fixpoint parse6 (n : nat) (gs : list Z) (ell : option nat) (s : gostring)
    : option (list Z * option nat * gostring) :=
  match n with
  | O => Some (gs, ell, s)
  | S n' =>
      match hexGroup 0 0 s with
      | None => None
      | Some (_, O, _) => None
      | Some (acc, _, rest) =>
          match rest with
          | [] => Some (gs ++ [acc], ell, [])
          | c :: rest' =>
              if Ascii.eqb c "." then
                if bool_decide (ell = None) && negb (length gs =? 6)%nat then None
                else if (6 <? length gs)%nat then None
                else match parse4 [] 0 0 s with
                     | Some [a; b; c'; d] => Some (gs ++ [a * 256 + b; c' * 256 + d], ell, [])
                     | _ => None
                     end
              else if Ascii.eqb c ":" then
                match rest' with
                | [] => None
                | d :: rest'' =>
                    if Ascii.eqb d ":" then
                      match ell with
                      | Some _ => None
                      | None =>
                          match rest'' with
                          | [] => Some (gs ++ [acc], Some (S (length gs)), [])
                          | _ => parse6 n' (gs ++ [acc]) (Some (S (length gs))) rest''
                          end
                      end
                    else parse6 n' (gs ++ [acc]) ell rest'
                end
              else None
          end
      end
  end.

(** The checks and the expansion of "::" after the loop. *)
Definition finish6 (r : list Z * option nat * gostring) : option (list Z) :=
  let '(gs, ell, s) := r in
  match s with
  | _ :: _ => None
  | [] =>
      if (length gs <? 8)%nat then
        match ell with
        | None => None
        | Some e => Some (take e gs ++ replicate (8 - length gs) 0 ++ drop e gs)
        end
      else match ell with Some _ => None | None => Some gs end
  end.

Definition parseGroups (s : gostring) : option (list Z) :=
  match s with
  | ":"%char :: ":"%char :: [] => Some (replicate 8 0)
  | ":"%char :: ":"%char :: s' => parse6 8 [] (Some 0%nat) s' ≫= finish6
  | _ => parse6 8 [] None s ≫= finish6
  end.

Definition parseIPv6 (s : gostring) : option Addr :=
  let '(a, zone, hasZone) := Cut s (str "%") in
  if hasZone && bool_decide (zone = []) then None
  else gs ← parseGroups a; Some (Addr6 (combine 65536 gs) zone).

(** netip.ParseAddr: the first '.', ':' or '%' decides. *)
Fixpoint parseKind (whole s : gostring) : option Addr :=
  match s with
  | [] => None
  | c :: s' =>
      if Ascii.eqb c "." then parseIPv4 whole
      else if Ascii.eqb c ":" then parseIPv6 whole
      else if Ascii.eqb c "%" then None
      else parseKind whole s'
  end.

Definition ParseAddr (s : gostring) : option Addr := parseKind s s.

(** More than one byte, not starting with 1 to 9: a sign or a leading zero. *)
Definition badBits (bitsStr : gostring) : bool :=
  match bitsStr with
  | c :: _ :: _ => negb (in_range 49 57 c)
  | _ => false
  end.

Definition hasZone (a : Addr) : bool :=
  match a with Addr6 _ (_ :: _) => true | _ => false end.

(** netip.ParsePrefix. *)
Definition ParsePrefix (s : gostring) : option Prefix :=
  match cut_last "/" s with
  | None => None
  | Some (ipStr, bitsStr) =>
      ip ← ParseAddr ipStr;
      if hasZone ip then None
      else if badBits bitsStr then None
      else match Atoi bitsStr with
           | Err _ => None
           | Ok bits =>
               if (bits <? 0) || (BitLen ip <? bits) then None
               else Some (PrefixFrom ip bits)
           end
  end.

(** ** Printing *)

Definition octets (v : Z) : list Z := map (fun i => v / 2 ^ i mod 256) [24; 16; 8; 0].
Definition groups (v : Z) : list Z :=
  map (fun i => v / 2 ^ i mod 65536) [112; 96; 80; 64; 48; 32; 16; 0].

Definition string4 (v : Z) : gostring := Join (map itoa (octets v)) (str ".").

(** The number of leading zero groups. *)
Fixpoint leadZeros (gs : list Z) : nat :=
  match gs with
  | 0 :: gs' => S (leadZeros gs')
  | _ => O
  end.

(** The first longest run of at least two zero groups, as start and end. *)
Definition zeroRun (gs : list Z) : option (nat * nat) :=
  fold_left (fun best i =>
      let l := leadZeros (drop i gs) in
      let cur := match best with Some (s, e) => (e - s)%nat | None => 0%nat end in
      if (2 <=? l)%nat && (cur <? l)%nat then Some (i, (i + l)%nat) else best)
    (seq 0 8) None.

Definition hexJoin (gs : list Z) : gostring := Join (map (FormatUint 16) gs) (str ":").

Definition string6 (gs : list Z) : gostring :=
  match zeroRun gs with
  | None => hexJoin gs
  | Some (s, e) => hexJoin (take s gs) ++ str "::" ++ hexJoin (drop e gs)
  end.

Definition zoneSuffix (zone : gostring) : gostring :=
  match zone with [] => [] | _ => str "%" ++ zone end.

(** Addr.String. *)
Definition AddrString (a : Addr) : gostring :=
  match a with
  | AddrZero => str "invalid IP"
  | Addr4 v => string4 v
  | Addr6 v zone =>
      (if Is4In6 a then str "::ffff:" ++ string4 (v mod 2 ^ 32) else string6 (groups v))
      ++ zoneSuffix zone
  end.

(** Prefix.String. *)
Definition PrefixString (p : Prefix) : gostring :=
  if IsValidPrefix p then AddrString (p_addr p) ++ str "/" ++ itoa (p_bits p)
  else str "invalid Prefix".

(** ** Well-formedness *)

Definition validAddr (a : Addr) : Prop :=
  match a with
  | AddrZero => False
  | Addr4 v => 0 <= v < 2 ^ 32
  | Addr6 v _ => 0 <= v < 2 ^ 128
  end.

(** A prefix as parsing makes it: a valid address without zone, bits in range. *)
Definition validPrefix (p : Prefix) : Prop :=
  validAddr (p_addr p) /\ withoutZone (p_addr p) = p_addr p /\ 0 <= p_bits p <= BitLen (p_addr p).

(** ** Lemmas: numbers and their digits *)

Lemma div_step v i w j :
  0 <= i -> 0 <= w -> j = i + w -> v / 2 ^ j * 2 ^ w + v / 2 ^ i mod 2 ^ w = v / 2 ^ i.
Proof.
  intros Hi Hw ->. rewrite Z.pow_add_r, <- Z.div_div by lia.
  rewrite Z.mul_comm, <- Z.div_mod; lia.
Qed.

Lemma combine_octets v : 0 <= v < 2 ^ 32 -> combine 256 (octets v) = v.
Proof.
  intros Hv. unfold combine, octets. cbn [map fold_left].
  change 256 with (2 ^ 8).
  rewrite (Z.mod_small (v / 2 ^ 24)).
  2:{ split; [apply Z.div_pos; lia | apply Z.div_lt_upper_bound; lia]. }
  rewrite Z.mul_0_l, Z.add_0_l.
  rewrite (div_step v 16 8 24), (div_step v 8 8 16), (div_step v 0 8 8) by lia.
  apply Z.div_1_r.
Qed.

Lemma combine_groups v : 0 <= v < 2 ^ 128 -> combine 65536 (groups v) = v.
Proof.
  intros Hv. unfold combine, groups. cbn [map fold_left].
  change 65536 with (2 ^ 16).
  rewrite (Z.mod_small (v / 2 ^ 112)).
  2:{ split; [apply Z.div_pos; lia | apply Z.div_lt_upper_bound; lia]. }
  rewrite Z.mul_0_l, Z.add_0_l.
  rewrite (div_step v 96 16 112), (div_step v 80 16 96), (div_step v 64 16 80),
    (div_step v 48 16 64), (div_step v 32 16 48), (div_step v 16 16 32), (div_step v 0 16 16) by lia.
  apply Z.div_1_r.
Qed.

Definition inRange (b : Z) (d : Z) : Prop := 0 <= d < b.

Lemma octets_range v : Forall (inRange 256) (octets v).
Proof. unfold octets. repeat constructor; apply Z.mod_pos_bound; lia. Qed.

Lemma groups_range v : Forall (inRange 65536) (groups v).
Proof. unfold groups. repeat constructor; apply Z.mod_pos_bound; lia. Qed.

Lemma combine_range b l :
  0 < b -> Forall (inRange b) l -> 0 <= combine b l < b ^ Z.of_nat (length l).
Proof.
  intros Hb Hl. unfold combine.
  induction l as [|d l IH] using rev_ind; [cbn; lia|].
  apply Forall_app in Hl as [Hl [Hd _]%Forall_cons].
  specialize (IH Hl). rewrite fold_left_app, length_app, Nat2Z.inj_add. cbn [fold_left length].
  rewrite Z.pow_add_r, Z.pow_1_r by lia. unfold inRange in Hd. nia.
Qed.

(** ** Lemmas: IPv4 text *)

Lemma Z_range_cases (P : Z -> Prop) (n : nat) :
  Forall P (map Z.of_nat (seq 0 n)) -> forall z, inRange (Z.of_nat n) z -> P z.
Proof.
  intros H z Hz. unfold inRange in Hz. rewrite Forall_forall in H. apply H.
  apply list_elem_of_In, in_map_iff. exists (Z.to_nat z). split; [lia|].
  apply in_seq. lia.
Qed.

(** One octet: the loop reaches the text after it with the octet's value. *)
Lemma parse4_octet a fs t :
  inRange 256 a -> exists k, parse4 fs 0 0 (itoa a ++ t) = parse4 fs a (S k) t.
Proof.
  revert a. apply (Z_range_cases (fun a => exists k,
    parse4 fs 0 0 (itoa a ++ t) = parse4 fs a (S k) t) 256).
  cbn [seq map]. repeat constructor;
    first [by exists 0%nat | by exists 1%nat | by exists 2%nat].
Qed.

Lemma parse4_dot a fs t :
  inRange 256 a -> t <> [] -> length fs <> 3%nat ->
  parse4 fs 0 0 (itoa a ++ "."%char :: t) = parse4 (fs ++ [a]) 0 0 t.
Proof.
  intros Ha Ht Hl. destruct (parse4_octet a fs ("."%char :: t) Ha) as [k ->].
  destruct t as [|c t]; [done|]. cbn [parse4].
  change (isDigit ".") with false. cbn. by apply Nat.eqb_neq in Hl as ->.
Qed.

Lemma octets_cases v : exists a b c d, octets v = [a; b; c; d] /\ inRange 256 a
  /\ inRange 256 b /\ inRange 256 c /\ inRange 256 d.
Proof.
  pose proof (octets_range v) as H. unfold octets in *. cbn [map] in *.
  repeat match goal with H : Forall _ (_ :: _) |- _ => apply Forall_cons in H as [? H] end.
  eauto 10.
Qed.

Lemma parse4_string4 v : parse4 [] 0 0 (string4 v) = Some (octets v).
Proof.
  unfold string4. destruct (octets_cases v) as (a & b & c & d & -> & Ha & Hb & Hc & Hd).
  cbn [map Join str String.list_ascii_of_string app].
  assert (Hne : forall x t, itoa x ++ t <> []).
  { intros x t. pose proof (itoa_nonempty x). by destruct (itoa x). }
  rewrite parse4_dot by done. rewrite parse4_dot by done.
  rewrite parse4_dot by (done || apply itoa_nonempty).
  destruct (parse4_octet d ([] ++ [a] ++ [b] ++ [c]) [] Hd) as [k Hk].
  rewrite app_nil_r in Hk. cbn in Hk |- *. by rewrite Hk.
Qed.

(** ** Lemmas: IPv6 text *)

Lemma length_format base n z k :
  2 <= base -> 0 <= z < base ^ Z.of_nat k -> (0 < k)%nat -> (length (format base n z) <= k)%nat.
Proof.
  intros Hb. revert z k; induction n as [|n IH]; intros z k Hz Hk; cbn; [lia|].
  case_match eqn:E; [cbn; lia|]. rewrite length_app. cbn.
  destruct k as [|[|k]]; [lia| |].
  - change (Z.of_nat 1) with 1 in Hz. rewrite Z.pow_1_r in Hz. lia.
  - enough (length (format base n (z / base)) <= S k)%nat by lia.
    apply IH; [|lia]. split; [apply Z.div_pos; lia|].
    apply Z.div_lt_upper_bound; [lia|].
    rewrite (Nat2Z.inj_succ (S k)), Z.pow_succ_r in Hz by lia. lia.
Qed.

Definition hexStop (t : gostring) : Prop :=
  match t with [] => True | c :: _ => digitVal 16 c = None end.

Lemma hexGroup_digits ds t off acc :
  Forall (fun c => exists d, 0 <= d < 16 /\ c = digitChar d) ds ->
  (off + length ds <= 4)%nat -> hexStop t ->
  hexGroup off acc (ds ++ t)
  = Some (fold_left (fun a c => match digitVal 16 c with Some d => a * 16 + d | None => a end) ds acc,
          (off + length ds)%nat, t).
Proof.
  intros Hds. revert off acc; induction Hds as [|c ds (d & Hd & ->) _ IH]; intros off acc Hl Ht.
  - cbn. destruct t as [|c t]; cbn in *; [by rewrite Nat.add_0_r|].
    by rewrite Ht, Nat.add_0_r.
  - cbn [app hexGroup fold_left]. rewrite digitVal_digitChar by lia.
    cbn [length] in Hl. destruct (Nat.ltb_spec 3 off); [lia|].
    rewrite IH by (done || lia). cbn [length]. by rewrite Nat.add_succ_r.
Qed.

(** The value the group loop accumulates is the one ParseUint would. *)
Lemma parseDigits_fold fn num maxv ds acc z :
  parseDigits fn num 16 maxv acc ds = Ok z ->
  fold_left (fun a c => match digitVal 16 c with Some d => a * 16 + d | None => a end) ds acc = z.
Proof.
  revert acc; induction ds as [|c ds IH]; intros acc; cbn; [by intros [= ->]|].
  repeat case_match; try done. apply IH.
Qed.

Lemma hexGroup_group g t :
  inRange 65536 g -> hexStop t ->
  exists k, hexGroup 0 0 (FormatUint 16 g ++ t) = Some (g, S k, t).
Proof.
  intros Hg Ht. unfold inRange in Hg.
  assert (Hl : (length (FormatUint 16 g) <= 4)%nat).
  { apply length_format; [lia| |lia]. change (16 ^ Z.of_nat 4) with 65536. lia. }
  rewrite hexGroup_digits; [|apply FormatUint_digits; lia|lia|done].
  erewrite (parseDigits_fold "" [] 65535) by (apply parseDigits_FormatUint; lia).
  pose proof (FormatUint_nonempty 16 g). destruct (FormatUint 16 g) as [|c l]; [done|].
  by exists (length l).
Qed.

Lemma FormatUint16_head g t :
  inRange 65536 g -> exists c r, FormatUint 16 g ++ t = c :: r /\ digitVal 16 c <> None.
Proof.
  intros Hg. unfold inRange in Hg.
  pose proof (FormatUint_digits 16 ltac:(lia) g ltac:(lia)) as H.
  pose proof (FormatUint_nonempty 16 g).
  destruct (FormatUint 16 g) as [|c l]; [done|].
  apply Forall_cons in H as [(d & Hd & ->) _]. eexists _, _. split; [done|].
  rewrite digitVal_digitChar; lia || done.
Qed.

Lemma hexJoin_head gs t :
  Forall (inRange 65536) gs -> gs <> [] ->
  exists c r, hexJoin gs ++ t = c :: r /\ digitVal 16 c <> None.
Proof.
  intros Hgs Hne. destruct gs as [|g [|h gs]]; [done| |];
    apply Forall_cons in Hgs as [Hg Hgs].
  - by apply FormatUint16_head.
  - unfold hexJoin. cbn [map]. rewrite Join_cons, <- (assoc_L (++)).
    by apply FormatUint16_head.
Qed.

Lemma hexDigit_not_sep c : digitVal 16 c <> None -> Ascii.eqb c ":" = false /\ Ascii.eqb c "." = false.
Proof. destruct c as [[][][][][][][][]]; vm_compute; naive_solver. Qed.

(** The loop on groups separated by colons, up to the end of the text. *)
Lemma parse6_groups gs n acc ell :
  Forall (inRange 65536) gs -> gs <> [] -> (length gs <= n)%nat ->
  parse6 n acc ell (hexJoin gs) = Some (acc ++ gs, ell, []).
Proof.
  intros Hgs. revert n acc; induction Hgs as [|g gs Hg Hgs IH]; intros n acc Hne Hn; [done|].
  destruct n as [|n]; [cbn in Hn; lia|]. cbn in Hn.
  destruct gs as [|h gs].
  - destruct (hexGroup_group g []) as [k Hk]; [done..|]. rewrite app_nil_r in Hk.
    unfold hexJoin. cbn [map Join parse6]. by rewrite Hk.
  - unfold hexJoin. cbn [map]. rewrite Join_cons.
    change (Join (FormatUint 16 h :: _) _) with (hexJoin (h :: gs)).
    destruct (hexGroup_group g (str ":" ++ hexJoin (h :: gs))) as [k Hk]; [done..|].
    cbn [parse6]. rewrite Hk. cbn [str String.list_ascii_of_string app Ascii.eqb Bool.eqb].
    destruct (hexJoin_head (h :: gs) []) as (c & r & Hc & Hd); [done..|].
    rewrite app_nil_r in Hc. rewrite Hc. apply hexDigit_not_sep in Hd as [-> _].
    rewrite <- Hc, IH by (done || lia). by rewrite <- (assoc_L (++)).
Qed.

(** The loop on groups followed by "::" and a text [t]. *)
Lemma parse6_ellipsis gs n acc t :
  Forall (inRange 65536) gs -> gs <> [] -> (length gs <= n)%nat ->
  parse6 n acc None (hexJoin gs ++ str "::" ++ t)
  = match t with
    | [] => Some (acc ++ gs, Some (length (acc ++ gs)), [])
    | _ => parse6 (n - length gs) (acc ++ gs) (Some (length (acc ++ gs))) t
    end.
Proof.
  intros Hgs. revert n acc; induction Hgs as [|g gs Hg Hgs IH]; intros n acc Hne Hn; [done|].
  destruct n as [|n]; [cbn in Hn; lia|]. cbn in Hn.
  destruct gs as [|h gs].
  - destruct (hexGroup_group g (str "::" ++ t)) as [k Hk]; [done..|].
    unfold hexJoin. cbn [map Join parse6]. rewrite Hk.
    cbn [str String.list_ascii_of_string app Ascii.eqb Bool.eqb length].
    rewrite length_app. cbn [length]. rewrite Nat.add_1_r, Nat.sub_succ, Nat.sub_0_r. done.
  - unfold hexJoin. cbn [map]. rewrite Join_cons.
    change (Join (FormatUint 16 h :: _) _) with (hexJoin (h :: gs)).
    rewrite <- !(assoc_L (++)).
    destruct (hexGroup_group g (str ":" ++ hexJoin (h :: gs) ++ str "::" ++ t)) as [k Hk]; [done..|].
    cbn [parse6]. rewrite Hk. cbn [str String.list_ascii_of_string app Ascii.eqb Bool.eqb].
    destruct (hexJoin_head (h :: gs) (":"%char :: ":"%char :: t)) as (c & r & Hc & Hd); [done..|].
    rewrite Hc. apply hexDigit_not_sep in Hd as [-> _].
    rewrite <- Hc. specialize (IH n (acc ++ [g])).
    cbn [str String.list_ascii_of_string app] in IH. rewrite IH by (done || lia).
    rewrite <- (assoc_L (++)). cbn [app length]. by rewrite Nat.sub_succ.
Qed.

Lemma leadZeros_spec gs :
  (leadZeros gs <= length gs)%nat /\ take (leadZeros gs) gs = replicate (leadZeros gs) 0.
Proof.
  induction gs as [|g gs [IH1 IH2]]; cbn; [done|].
  destruct g; cbn; [split; [lia | by f_equal] | split; [lia|done]..].
Qed.

(** The run to elide consists of zero groups, at least two of them. *)
Lemma zeroRun_spec gs s e :
  length gs = 8%nat -> zeroRun gs = Some (s, e) ->
  (s + 2 <= e <= 8)%nat /\ gs = take s gs ++ replicate (e - s) 0 ++ drop e gs.
Proof.
  intros Hlen. unfold zeroRun.
  set (f := fun (best : option (nat * nat)) (i : nat) => _).
  set (Q := fun best : option (nat * nat) => forall s e, best = Some (s, e) ->
         (s + 2 <= e)%nat /\ e = (s + leadZeros (drop s gs))%nat).
  assert (HQ : forall l best, Q best -> Q (fold_left f l best)).
  { induction l as [|i l IH]; intros best Hb; [done|]. cbn. apply IH.
    unfold f at 1. case_match eqn:Ec; [|done].
    intros s' e' [= <- <-]. apply andb_true_iff in Ec as [?%Nat.leb_le _]. split; [lia|done]. }
  intros Hz. destruct (HQ (seq 0 8) None ltac:(intros ? ? [=]) s e Hz) as [Hse He].
  destruct (leadZeros_spec (drop s gs)) as [Hle Ht]. rewrite length_drop in Hle.
  split; [lia|].
  rewrite <- (take_drop s gs) at 1. f_equal.
  rewrite <- (take_drop (leadZeros (drop s gs)) (drop s gs)) at 1.
  rewrite Ht, drop_drop, <- He. do 2 f_equal. lia.
Qed.

Lemma parseGroups_hex c r :
  digitVal 16 c <> None -> parseGroups (c :: r) = parse6 8 [] None (c :: r) ≫= finish6.
Proof. destruct c as [[][][][][][][][]]; vm_compute digitVal; naive_solver. Qed.

Lemma parseGroups_ellipsis c r :
  parseGroups (str "::" ++ c :: r) = parse6 8 [] (Some 0%nat) (c :: r) ≫= finish6.
Proof. reflexivity. Qed.

Lemma finish6_ell gs e k :
  (length gs + k = 8)%nat -> (0 < k)%nat ->
  finish6 (gs, Some e, []) = Some (take e gs ++ replicate k 0 ++ drop e gs).
Proof.
  intros Hl Hk. unfold finish6. destruct (Nat.ltb_spec (length gs) 8); [|lia].
  do 3 f_equal. f_equal. lia.
Qed.

Lemma parseGroups_string6 gs :
  length gs = 8%nat -> Forall (inRange 65536) gs -> parseGroups (string6 gs) = Some gs.
Proof.
  intros Hlen Hgs. unfold string6. destruct (zeroRun gs) as [[s e]|] eqn:Ez.
  - destruct (zeroRun_spec gs s e Hlen Ez) as [Hse Hsplit].
    set (l := take s gs) in *. set (r := drop e gs) in *.
    assert (Hl : Forall (inRange 65536) l) by by apply Forall_take.
    assert (Hr : Forall (inRange 65536) r) by by apply Forall_drop.
    assert (Hll : length l = s) by (unfold l; rewrite length_take; lia).
    assert (Hlr : length r = (8 - e)%nat) by (unfold r; rewrite length_drop; lia).
    clearbody l r. rewrite Hsplit.
    destruct (decide (l = [])) as [->|Hne].
    + change (hexJoin []) with (@nil ascii). cbn [length app] in *. subst s.
      rewrite Nat.sub_0_r. destruct (decide (r = [])) as [Hre|Hre].
      * rewrite Hre in *. cbn in Hlr. change (parseGroups _) with (Some (replicate 8 0)).
        rewrite app_nil_r. repeat f_equal. lia.
      * destruct (hexJoin_head r [] Hr Hre) as (c & t & Hc & Hd). rewrite app_nil_r in Hc.
        rewrite Hc, parseGroups_ellipsis, <- Hc, parse6_groups by (done || lia).
        cbn [mbind option_bind app]. by rewrite (finish6_ell r 0 e) by lia.
    + destruct (hexJoin_head l (str "::" ++ hexJoin r) Hl Hne) as (c & t & Hc & Hd).
      rewrite Hc, parseGroups_hex, <- Hc, parse6_ellipsis by (done || lia).
      cbn [app]. rewrite Hll. destruct (decide (r = [])) as [Hre|Hre].
      * rewrite Hre in *. cbn [hexJoin map Join mbind option_bind length] in *.
        rewrite (finish6_ell l s (e - s)) by lia.
        by rewrite <- Hll, firstn_all, drop_ge by lia.
      * destruct (hexJoin_head r [] Hr Hre) as (c' & t' & Hc' & _). rewrite app_nil_r in Hc'.
        rewrite Hc', <- Hc', parse6_groups by (done || lia). cbn [mbind option_bind].
        rewrite (finish6_ell _ s (e - s)) by (rewrite ?length_app; lia).
        by rewrite take_app_length', drop_app_length' by done.
  - destruct (hexJoin_head gs []) as (c & r & Hc & Hd); [done | by destruct gs |].
    rewrite app_nil_r in Hc. rewrite Hc, parseGroups_hex, <- Hc by done.
    rewrite parse6_groups by (done || lia || by destruct gs). cbn. by rewrite Hlen.
Qed.

(** ** Lemmas: the bytes of printed addresses *)

(** Bytes of printed addresses and prefixes: no white space and none of the
    separators of the configuration formats. *)
Definition addrByte (c : ascii) : Prop := solid c = true /\ c ∉ str ",#%[]=".

Lemma addrByte_dec_true c : solid c && negb (has_byte c (str ",#%[]=")) = true -> addrByte c.
Proof. intros [? ?%negb_true_iff]%andb_true_iff. split; [done|]. by apply has_byte_false. Qed.

Lemma FormatUint_addrByte base z :
  2 <= base <= 16 -> 0 <= z -> Forall addrByte (FormatUint base z).
Proof.
  intros Hb Hz. eapply Forall_impl; [by apply FormatUint_clean|].
  intros c [Hs Hc]. split; [done|]. vm_compute in Hc |- *. set_solver.
Qed.

Lemma Join_Forall (P : ascii -> Prop) l sep :
  Forall (Forall P) l -> Forall P sep -> Forall P (Join l sep).
Proof.
  intros Hl Hsep. rewrite Forall_forall. intros x Hx. apply Join_elem in Hx as [Hx|(s & Hs & Hx)].
  - by eapply Forall_forall in Hsep.
  - eapply Forall_forall in Hl; [|done]. by eapply Forall_forall in Hl.
Qed.

Lemma lit_addrByte s :
  forallb (fun c => solid c && negb (has_byte c (str ",#%[]="))) s = true -> Forall addrByte s.
Proof. rewrite forallb_True_iff || rewrite forallb_forall. intros H. apply Forall_forall.
  intros c Hc. apply addrByte_dec_true, H. by apply list_elem_of_In. Qed.

Lemma string4_addrByte v : Forall addrByte (string4 v).
Proof.
  unfold string4. apply Join_Forall; [|by apply lit_addrByte].
  apply Forall_map. eapply Forall_impl; [apply octets_range|].
  intros z Hz. apply FormatUint_addrByte; unfold inRange in *; lia.
Qed.

Lemma hexJoin_addrByte gs : Forall (inRange 65536) gs -> Forall addrByte (hexJoin gs).
Proof.
  intros H. unfold hexJoin. apply Join_Forall; [|by apply lit_addrByte].
  apply Forall_map. eapply Forall_impl; [done|].
  intros z Hz. apply FormatUint_addrByte; unfold inRange in *; lia.
Qed.

Lemma string6_addrByte gs : Forall (inRange 65536) gs -> Forall addrByte (string6 gs).
Proof.
  intros H. unfold string6. destruct (zeroRun gs) as [[s e]|].
  - rewrite !Forall_app. repeat split; [apply hexJoin_addrByte, Forall_take | by apply lit_addrByte
      | apply hexJoin_addrByte, Forall_drop]; done.
  - by apply hexJoin_addrByte.
Qed.

(** The text of an IPv6 address without its zone. *)
Definition body6 (v : Z) : gostring :=
  if v / 2 ^ 32 =? 65535 then str "::ffff:" ++ string4 (v mod 2 ^ 32) else string6 (groups v).

Lemma body6_addrByte v : Forall addrByte (body6 v).
Proof.
  unfold body6. case_match.
  - apply Forall_app. split; [by apply lit_addrByte | apply string4_addrByte].
  - apply string6_addrByte, groups_range.
Qed.

(** ** Lemmas: ParseAddr and ParsePrefix invert String *)

Lemma parseKind_skip w p t :
  Forall (fun c => c ∉ str ".:%") p -> parseKind w (p ++ t) = parseKind w t.
Proof.
  induction 1 as [|c p Hc _ IH]; [done|]. cbn.
  vm_compute str in Hc.
  destruct (Ascii.eqb_spec c "."), (Ascii.eqb_spec c ":"), (Ascii.eqb_spec c "%");
    subst; try done; exfalso; set_solver.
Qed.

Lemma FormatUint_noKind base z :
  2 <= base <= 16 -> 0 <= z -> Forall (fun c => c ∉ str ".:%") (FormatUint base z).
Proof.
  intros Hb Hz. eapply Forall_impl; [by apply FormatUint_clean|].
  intros c [_ Hc]. vm_compute in Hc |- *. set_solver.
Qed.

Lemma ParseAddr_string4 v : 0 <= v < 2 ^ 32 -> ParseAddr (string4 v) = Some (Addr4 v).
Proof.
  intros Hv.
  assert (Hp : parseIPv4 (string4 v) = Some (Addr4 v)).
  { unfold parseIPv4. by rewrite parse4_string4, combine_octets. }
  unfold ParseAddr. rewrite <- Hp.
  unfold string4 at 2. destruct (octets_cases v) as (a & b & c & d & -> & Ha & _).
  cbn [map Join]. unfold inRange in Ha.
  rewrite parseKind_skip by (apply FormatUint_noKind; lia). done.
Qed.

(** Every IPv6 text has a colon before any '.' or '%'. *)
Lemma body6_colon v : exists p t, body6 v = p ++ ":"%char :: t /\ Forall (fun c => c ∉ str ".:%") p.
Proof.
  unfold body6. case_match; [by exists [], (str ":ffff:" ++ string4 (v mod 2 ^ 32))|].
  pose proof (groups_range v) as Hg.
  assert (Hj : forall g h l, inRange 65536 g -> exists t,
             hexJoin (g :: h :: l) = FormatUint 16 g ++ ":"%char :: t) by (intros; by eexists).
  unfold string6. unfold groups in *. cbn [map] in *.
  apply Forall_cons in Hg as [Hg0 Hg]. unfold inRange in Hg0.
  set (g0 := v / 2 ^ 112 mod 65536) in *.
  assert (Hc : Forall (fun c => c ∉ str ".:%") (FormatUint 16 g0)) by (apply FormatUint_noKind; lia).
  destruct (zeroRun _) as [[s e]|].
  - destruct s as [|[|s]]; [by eexists [], _ | by eexists _, _ |].
    cbn [take]. unfold hexJoin. cbn [map]. rewrite Join_cons, <- !(assoc_L (++)). by eexists _, _.
  - unfold hexJoin. cbn [map]. rewrite Join_cons. by eexists _, _.
Qed.

Lemma parse6_step g n gs ell c r :
  inRange 65536 g -> Ascii.eqb c ":" = false ->
  parse6 (S n) gs ell (FormatUint 16 g ++ ":"%char :: c :: r) = parse6 n (gs ++ [g]) ell (c :: r).
Proof.
  intros Hg Hc. destruct (hexGroup_group g (":"%char :: c :: r)) as [k Hk]; [done..|].
  cbn [parse6]. rewrite Hk. cbn [Ascii.eqb Bool.eqb]. by rewrite Hc.
Qed.

(** The loop on a dotted quad, at the place of the last two groups. *)
Lemma parse6_string4 n gs e w :
  0 <= w < 2 ^ 32 -> (length gs <= 6)%nat ->
  parse6 (S n) gs (Some e) (string4 w) = Some (gs ++ [w / 65536; w mod 65536], Some e, []).
Proof.
  intros Hw Hl. pose proof (parse4_string4 w) as H4. pose proof (combine_octets w Hw) as Hco.
  unfold string4 in *. destruct (octets_cases w) as (a & b & c & d & Ho & Ha & Hb & Hc & Hd).
  rewrite Ho in *. cbn [map Join] in *. unfold combine in Hco. cbn in Hco. unfold inRange in *.
  set (t := str "." ++ itoa b ++ _) in *.
  assert (Hg : exists z k, hexGroup 0 0 (itoa a ++ t) = Some (z, S k, t)).
  { rewrite hexGroup_digits; [|..|done].
    - pose proof (itoa_nonempty a). destruct (itoa a); [done|]. by eexists _, _.
    - eapply Forall_impl; [apply FormatUint_digits; lia|].
      intros x (y & ? & ->). exists y. split; [lia|done].
    - apply length_format; [lia| |lia]. change (10 ^ Z.of_nat 4) with 10000. lia. }
  destruct Hg as (z & k & Hg). cbn [parse6]. rewrite Hg, H4.
  cbn [t str String.list_ascii_of_string app Ascii.eqb Bool.eqb bool_decide decide_rel].
  rewrite bool_decide_eq_false_2 by done. cbn [andb].
  destruct (Nat.ltb_spec 6 (length gs)); [lia|].
  assert (a * 256 + b = w / 65536 /\ c * 256 + d = w mod 65536) as [-> ->]; [|done].
  Z.to_euclidean_division_equations; lia.
Qed.

Lemma string4_head v : exists c r, string4 v = c :: r /\ Ascii.eqb c ":" = false.
Proof.
  pose proof (octets_cases v) as (a & b & c & d & Ho & Ha & _). unfold inRange in Ha.
  unfold string4. rewrite Ho. cbn [map Join].
  pose proof (itoa_notin a ":"%char ltac:(lia) ltac:(vm_compute; set_solver)) as Hn.
  pose proof (itoa_nonempty a). destruct (itoa a) as [|x xs]; [done|].
  eexists _, _. split; [done|]. apply Ascii.eqb_neq. set_solver.
Qed.

Lemma parseGroups_4in6 w :
  0 <= w < 2 ^ 32 ->
  parseGroups (str "::ffff:" ++ string4 w) = Some [0; 0; 0; 0; 0; 65535; w / 65536; w mod 65536].
Proof.
  intros Hw. destruct (string4_head w) as (c & r & Hs & Hc).
  change (parseGroups _)
    with (parse6 8 [] (Some 0%nat) (FormatUint 16 65535 ++ ":"%char :: string4 w) ≫= finish6).
  rewrite Hs, parse6_step, <- Hs by (done || unfold inRange; lia).
  by rewrite parse6_string4 by (done || cbn; lia).
Qed.

Lemma parseGroups_body6 v :
  0 <= v < 2 ^ 128 -> exists gs, parseGroups (body6 v) = Some gs /\ combine 65536 gs = v.
Proof.
  intros Hv. unfold body6. case_match eqn:E.
  - rewrite parseGroups_4in6 by (apply Z.mod_pos_bound; lia). eexists. split; [done|].
    unfold combine. cbn [fold_left]. apply Z.eqb_eq in E.
    pose proof (Z.div_mod v (2 ^ 32) ltac:(lia)) as H1.
    pose proof (Z.div_mod (v mod 2 ^ 32) 65536 ltac:(lia)) as H2. lia.
  - rewrite parseGroups_string6; [|done|apply groups_range].
    eexists. split; [done|]. by apply combine_groups.
Qed.

Lemma AddrString6 v zone : AddrString (Addr6 v zone) = body6 v ++ zoneSuffix zone.
Proof. reflexivity. Qed.

Lemma Forall_notin (P : ascii -> Prop) c s : Forall P s -> ~ P c -> c ∉ s.
Proof. intros H Hn Hc. by eapply Forall_forall in H. Qed.

(** netip.ParseAddr returns an address from its own text. *)
Lemma ParseAddr_AddrString a : validAddr a -> ParseAddr (AddrString a) = Some a.
Proof.
  destruct a as [|v|v zone]; intros Hv; [done | by apply ParseAddr_string4 |].
  rewrite AddrString6. unfold ParseAddr.
  assert (Hk : forall w t, parseKind w (body6 v ++ t) = parseIPv6 w).
  { intros w t. destruct (body6_colon v) as (p & q & -> & Hp).
    rewrite <- (assoc_L (++)), parseKind_skip by done. done. }
  rewrite Hk. unfold parseIPv6. destruct (parseGroups_body6 v Hv) as (gs & Hgs & Hcv).
  assert (Hn : "%"%char ∉ body6 v).
  { eapply Forall_notin; [apply body6_addrByte|]. intros [_ H]. apply H. vm_compute. set_solver. }
  change (str "%") with ["%"%char].
  destruct zone as [|z zone]; cbn [zoneSuffix].
  - rewrite app_nil_r. rewrite Cut_notin by done. cbn. rewrite Hgs. cbn. by rewrite Hcv.
  - change (str "%" ++ z :: zone) with ("%"%char :: z :: zone). rewrite Cut_app by done. cbn. rewrite Hgs. cbn. by rewrite Hcv.
Qed.

Lemma PrefixFrom_valid p : validPrefix p -> PrefixFrom (p_addr p) (p_bits p) = p.
Proof.
  destruct p as [a bits]; intros (Ha & Hz & Hb); unfold PrefixFrom; cbn in *.
  rewrite Hz. rewrite bool_decide_eq_true_2 by (by destruct a).
  destruct (Z.leb_spec 0 bits), (Z.leb_spec bits (BitLen a)); done || lia.
Qed.

(** A number without sign or leading zero, as ParsePrefix requires. *)
Lemma itoa_no_leading_zero z :
  inRange 129 z -> badBits (itoa z) = false.
Proof.
  intros Hz. apply negb_true_iff.
  apply (Forall_Z_range (fun z => negb (badBits (itoa z))) 129); [vm_compute; done | done].
Qed.

(** netip.ParsePrefix returns a prefix from its own text. *)
Lemma ParsePrefix_PrefixString p : validPrefix p -> ParsePrefix (PrefixString p) = Some p.
Proof.
  intros Hp. pose proof (PrefixFrom_valid p Hp) as Hfrom.
  destruct Hp as (Ha & Hz & Hb).
  assert (Hbits : inRange 129 (p_bits p)).
  { unfold inRange. destruct (p_addr p); cbn in Hb; lia. }
  unfold inRange in Hbits. unfold ParsePrefix, PrefixString, IsValidPrefix.
  destruct (Z.leb_spec 0 (p_bits p)); [|lia].
  change (str "/" ++ itoa (p_bits p)) with ("/"%char :: itoa (p_bits p)).
  rewrite cut_last_app by (apply itoa_notin; [lia | vm_compute; set_solver]).
  cbn [mbind option_bind]. rewrite ParseAddr_AddrString by done. cbn [mbind option_bind].
  assert (hasZone (p_addr p) = false) as ->.
  { destruct (p_addr p) as [| |v [|]]; cbn in *; congruence. }
  rewrite itoa_no_leading_zero by done. rewrite Atoi_itoa by (unfold maxInt; lia).
  destruct (Z.ltb_spec (p_bits p) 0), (Z.ltb_spec (BitLen (p_addr p)) (p_bits p)); try lia.
  by rewrite Hfrom.
Qed.

(** ** Lemmas: what parsing returns is well formed *)

Lemma parse4_range fs val dig s r :
  parse4 fs val dig s = Some r -> Forall (inRange 256) fs -> inRange 256 val ->
  (length fs <= 3)%nat -> length r = 4%nat /\ Forall (inRange 256) r.
Proof.
  revert fs val dig; induction s as [|c s IH]; intros fs val dig; cbn.
  - destruct (Nat.eqb_spec (length fs) 3); [|done]. intros [= <-] Hfs Hv Hl.
    rewrite length_app, Forall_app. repeat split; [cbn; lia | done | by apply Forall_singleton].
  - destruct (isDigit c) eqn:Ed.
    + case_match; [done|]. case_match eqn:E; [done|]. intros Hr Hfs Hv Hl.
      eapply IH; [exact Hr|done| |done]. unfold inRange, isDigit, in_range in *. lia.
    + case_match; [|done]. destruct s as [|c' s]; [done|].
      case_match; [done|]. destruct (Nat.eqb_spec (length fs) 3); [done|].
      intros Hr Hfs Hv Hl. eapply IH; [done| | |].
      * apply Forall_app; split; [done | by apply Forall_singleton].
      * unfold inRange; lia.
      * rewrite length_app. cbn. lia.
Qed.

Lemma parseIPv4_valid s a : parseIPv4 s = Some a -> validAddr a.
Proof.
  unfold parseIPv4. destruct (parse4 [] 0 0 s) as [r|] eqn:E; [|done]. intros [= <-].
  apply parse4_range in E as [Hl Hr]; [|constructor | unfold inRange; lia | cbn; lia].
  cbn. pose proof (combine_range 256 r ltac:(lia) Hr) as H. rewrite Hl in H.
  change (256 ^ Z.of_nat 4) with (2 ^ 32) in H. lia.
Qed.

Lemma hexGroup_range off acc s g k t :
  hexGroup off acc s = Some (g, k, t) -> (off <= 4)%nat -> inRange (16 ^ Z.of_nat off) acc ->
  inRange 65536 g.
Proof.
  revert off acc; induction s as [|c s IH]; intros off acc; cbn [hexGroup].
  - intros [= <- <- <-] Ho Ha. unfold inRange in *.
    assert (16 ^ Z.of_nat off <= 16 ^ 4) by (apply Z.pow_le_mono_r; lia). lia.
  - destruct (digitVal 16 c) as [d|] eqn:Ed.
    + destruct (Nat.ltb_spec 3 off); [done|]. intros Hr Ho Ha. eapply IH; [done|lia|].
      unfold inRange in *. rewrite Nat2Z.inj_succ, Z.pow_succ_r by lia.
      assert (0 <= d < 16); [|nia]. unfold digitVal in Ed. unfold in_range, isDigit, in_range in Ed.
      repeat case_match; simplify_eq; lia.
    + intros [= <- <- <-] Ho Ha. unfold inRange in *.
      assert (16 ^ Z.of_nat off <= 16 ^ 4) by (apply Z.pow_le_mono_r; lia). lia.
Qed.

Lemma parse6_range n gs ell s gs' ell' t :
  parse6 n gs ell s = Some (gs', ell', t) -> Forall (inRange 65536) gs ->
  (length gs + n <= 8)%nat -> Forall (inRange 65536) gs' /\ (length gs' <= 8)%nat.
Proof.
  revert gs ell s; induction n as [|n IH]; intros gs ell s; cbn [parse6].
  { intros [= <- <- <-] ? ?. split; [done|lia]. }
  destruct (hexGroup 0 0 s) as [[[acc [|k]] rest]|] eqn:Eg; try done.
  apply hexGroup_range in Eg; [|lia|unfold inRange; cbn; lia].
  intros H Hgs Hl.
  assert (Hgs' : Forall (inRange 65536) (gs ++ [acc])).
  { apply Forall_app; split; [done | by apply Forall_singleton]. }
  assert (Hl' : (length (gs ++ [acc]) + n <= 8)%nat) by (rewrite length_app; cbn; lia).
  destruct rest as [|c rest]; [by simplify_eq; split; [|lia]|].
  destruct (Ascii.eqb c ".").
  - case_match; [done|]. destruct (Nat.ltb_spec 6 (length gs)); [done|].
    destruct (parse4 [] 0 0 s) as [r|] eqn:E4; [|done].
    apply parse4_range in E4 as [_ Hr]; [|constructor|unfold inRange; lia|cbn; lia].
    destruct r as [|a [|b [|c' [|d [|]]]]]; simplify_eq.
    repeat match goal with H : Forall _ (_ :: _) |- _ => apply Forall_cons in H as [? H] end.
    unfold inRange in *. rewrite Forall_app, length_app. cbn [length].
    repeat split; [done | repeat constructor; lia | lia].
  - case_match; [|done]. destruct rest as [|d rest]; [done|].
    case_match; [|by eapply IH].
    destruct ell; [done|]. destruct rest; [by simplify_eq; split; [|lia]|]. by eapply IH.
Qed.

Lemma finish6_range gs ell t r :
  finish6 (gs, ell, t) = Some r -> Forall (inRange 65536) gs -> (length gs <= 8)%nat ->
  length r = 8%nat /\ Forall (inRange 65536) r.
Proof.
  unfold finish6. destruct t; [|done]. intros H Hgs Hl.
  destruct (Nat.ltb_spec (length gs) 8).
  - destruct ell as [e|]; [|done]. injection H as <-. split.
    + rewrite !length_app, length_take, length_drop, length_replicate. lia.
    + rewrite !Forall_app. repeat split; [by apply Forall_take| |by apply Forall_drop].
      apply Forall_replicate. unfold inRange. lia.
  - destruct ell; [done|]. injection H as <-. split; [lia|done].
Qed.

Lemma parseGroups_range s r :
  parseGroups s = Some r -> length r = 8%nat /\ Forall (inRange 65536) r.
Proof.
  assert (Hgen : forall ell s, parse6 8 [] ell s ≫= finish6 = Some r ->
            length r = 8%nat /\ Forall (inRange 65536) r).
  { intros ell s' H. destruct (parse6 8 [] ell s') as [[[gs ell'] t]|] eqn:E; [|done].
    apply parse6_range in E as [? ?]; [|constructor|cbn; lia].
    cbn [mbind option_bind] in H. by eapply finish6_range. }
  unfold parseGroups. intros H.
  repeat (case_match; try (by eapply Hgen)).
  injection H as <-. split; [done|]. repeat constructor; lia.
Qed.

(** Addresses that ParseAddr returns are in range; a zone is never the empty
    text of an explicit '%', and comes from the text parsed. *)
Lemma ParseAddr_valid s a : ParseAddr s = Some a -> validAddr a.
Proof.
  unfold ParseAddr. generalize s at 2. intros t. induction t as [|c t IH]; cbn; [done|].
  case_match; [apply parseIPv4_valid|]. case_match; [|by case_match].
  unfold parseIPv6. destruct (Cut s (str "%")) as [[b z] f].
  case_match; [done|]. destruct (parseGroups b) as [gs|] eqn:E; [|done].
  intros [= <-]. apply parseGroups_range in E as [Hl Hr]. cbn.
  pose proof (combine_range 65536 gs ltac:(lia) Hr) as H'. rewrite Hl in H'. exact H'.
Qed.

Lemma ParseAddr_zone s v z : ParseAddr s = Some (Addr6 v z) -> z = [] \/ exists p, s = p ++ "%"%char :: z.
Proof.
  unfold ParseAddr. generalize s at 2. intros t. induction t as [|c t IH]; cbn; [done|].
  case_match; [unfold parseIPv4; by case_match|]. case_match; [|by case_match].
  unfold parseIPv6. destruct (Cut s (str "%")) as [[b z'] f] eqn:Ec.
  case_match; [done|]. destruct (parseGroups b) as [gs|]; [|done]. intros [= <- <-].
  apply Cut_spec in Ec as [_ [[-> ->]|(-> & -> & ->)]]; eauto.
Qed.

Lemma PrefixFrom_Some a bits :
  validAddr a -> 0 <= bits <= BitLen a -> validPrefix (PrefixFrom a bits).
Proof.
  intros Ha Hb. unfold PrefixFrom, validPrefix. cbn.
  rewrite bool_decide_eq_true_2 by (by destruct a).
  destruct (Z.leb_spec 0 bits), (Z.leb_spec bits (BitLen a)); try lia. cbn.
  by destruct a.
Qed.

Lemma ParsePrefix_valid s p : ParsePrefix s = Some p -> validPrefix p.
Proof.
  unfold ParsePrefix. destruct (cut_last "/" s) as [[ipStr bitsStr]|]; [|done].
  destruct (ParseAddr ipStr) as [ip|] eqn:Ea; [|done]. cbn.
  apply ParseAddr_valid in Ea. repeat (case_match; try done).
  intros [= <-]. apply PrefixFrom_Some; [done|]. lia.
Qed.

Lemma BitLen_nonneg a : 0 <= BitLen a.
Proof. destruct a; cbn; lia. Qed.

Lemma PrefixString_addrByte p : validPrefix p -> Forall addrByte (PrefixString p).
Proof.
  intros (Ha & Hz & Hb). unfold PrefixString, IsValidPrefix.
  destruct (Z.leb_spec 0 (p_bits p)); [|lia]. rewrite !Forall_app. repeat split.
  - destruct (p_addr p) as [|v|v z]; [done | apply string4_addrByte |].
    cbn in Hz. injection Hz as <-. rewrite AddrString6, app_nil_r. apply body6_addrByte.
  - by apply lit_addrByte.
  - apply FormatUint_addrByte; lia.
Qed.

Lemma Masked_valid p : validPrefix p -> validPrefix (Masked p).
Proof.
  intros (Ha & Hz & Hb). unfold Masked, IsValidPrefix. rewrite (proj2 (Z.leb_le 0 (p_bits p))) by lia.
  assert (Hm : forall width v bits, 0 <= bits <= width -> 0 <= v < 2 ^ width -> 0 <= maskTo width bits v < 2 ^ width).
  { intros width v bits Hbits Hv. unfold maskTo. pose proof (Z.pow_pos_nonneg 2 (width - bits)). 
    pose proof (Z.mul_div_le v (2 ^ (width - bits))). pose proof (Z.div_pos v (2 ^ (width - bits))). nia. }
  destruct (p_addr p) as [|v|v z]; [done|..]; cbn in Ha, Hb; (apply PrefixFrom_Some; [|done]); cbn; apply Hm; lia.
Qed.
