(* ===== verification/Config.v ===== *)
(** * conf/config.go: the configuration and the operations on it

    The structs of the source are records with its field names, prefixed by
    [i_] (Interface), [pr_] (Peer), [c_] (Config), [e_] (Endpoint), [cm_]
    (Comments) and [sc_] (SectionComments). Integers of a machine width are [Z]
    in that width's range. A nil slice or map is the empty one. *)

From S2P Require Import Prelude GoStrings GoNum Netip.
Local Open Scope Z_scope.

Definition KeyLength : nat := 32.

(** type Key [KeyLength]byte: a list of that many bytes. *)
Abbreviation Key := gostring.

Definition zeroKey : Key := replicate KeyLength "000"%char.

Record Endpoint : Type := mkEndpoint { e_Host : gostring; e_Port : Z }.

(** type WSMode string and its constants. *)
Abbreviation WSMode := gostring.
Definition WSModeNone : WSMode := [].
Definition WSModeWebSocket : WSMode := str "websocket".
Definition WSModeWSTunnel : WSMode := str "wstunnel".

Record Comments : Type := mkComments { cm_Before : list gostring; cm_Suffix : gostring }.

Record SectionComments : Type := mkSectionComments {
  sc_Header : Comments;
  sc_Lines : gmap gostring Comments
}.

Definition noComments : Comments := mkComments [] [].
Definition noSectionComments : SectionComments := mkSectionComments noComments ∅.

Record Interface : Type := mkInterface {
  i_PrivateKey : Key;
  i_Addresses : list Prefix;
  i_ListenPort : Z;
  i_MTU : Z;
  i_DNS : list Addr;
  i_DNSSearch : list gostring;
  i_PreUp : gostring;
  i_PostUp : gostring;
  i_PreDown : gostring;
  i_PostDown : gostring;
  i_TableOff : bool;
  i_Comments : SectionComments
}.

Record Peer : Type := mkPeer {
  pr_PublicKey : Key;
  pr_PresharedKey : Key;
  pr_AllowedIPs : list Prefix;
  pr_Endpoint : Endpoint;
  pr_PersistentKeepalive : Z;
  pr_WSMode : WSMode;
  pr_WSURL : gostring;
  pr_WSTunnelTarget : gostring;
  pr_WSBearer : gostring;
  pr_WSMask : bool;
  pr_WSTLSCA : gostring;
  pr_WSTLSCert : gostring;
  pr_WSTLSKey : gostring;
  pr_WSTLSInsecure : bool;
  pr_WSPingInterval : Z;
  pr_WSBackoffMin : Z;
  pr_WSBackoffMax : Z;
  pr_RxBytes : Z;
  pr_TxBytes : Z;
  pr_LastHandshakeTime : Z;
  pr_Comments : SectionComments
}.

Record Config : Type := mkConfig {
  c_Name : gostring;
  c_Interface : Interface;
  c_Peers : list Peer;
  c_WSTLSFiles : gmap gostring gostring;
  c_TrailingComments : list gostring
}.


(** Field updates. *)

Definition set_i_PrivateKey (x : Key) (i0 : Interface) : Interface :=
  mkInterface
    x (i_Addresses i0) (i_ListenPort i0) (i_MTU i0) (i_DNS i0) (i_DNSSearch i0) (i_PreUp i0)
    (i_PostUp i0) (i_PreDown i0) (i_PostDown i0) (i_TableOff i0) (i_Comments i0).
Definition set_i_Addresses (x : list Prefix) (i0 : Interface) : Interface :=
  mkInterface
    (i_PrivateKey i0) x (i_ListenPort i0) (i_MTU i0) (i_DNS i0) (i_DNSSearch i0) (i_PreUp i0)
    (i_PostUp i0) (i_PreDown i0) (i_PostDown i0) (i_TableOff i0) (i_Comments i0).
Definition set_i_ListenPort (x : Z) (i0 : Interface) : Interface :=
  mkInterface
    (i_PrivateKey i0) (i_Addresses i0) x (i_MTU i0) (i_DNS i0) (i_DNSSearch i0) (i_PreUp i0)
    (i_PostUp i0) (i_PreDown i0) (i_PostDown i0) (i_TableOff i0) (i_Comments i0).
Definition set_i_MTU (x : Z) (i0 : Interface) : Interface :=
  mkInterface
    (i_PrivateKey i0) (i_Addresses i0) (i_ListenPort i0) x (i_DNS i0) (i_DNSSearch i0)
    (i_PreUp i0) (i_PostUp i0) (i_PreDown i0) (i_PostDown i0) (i_TableOff i0) (i_Comments i0).
Definition set_i_DNS (x : list Addr) (i0 : Interface) : Interface :=
  mkInterface
    (i_PrivateKey i0) (i_Addresses i0) (i_ListenPort i0) (i_MTU i0) x (i_DNSSearch i0)
    (i_PreUp i0) (i_PostUp i0) (i_PreDown i0) (i_PostDown i0) (i_TableOff i0) (i_Comments i0).
Definition set_i_DNSSearch (x : list gostring) (i0 : Interface) : Interface :=
  mkInterface
    (i_PrivateKey i0) (i_Addresses i0) (i_ListenPort i0) (i_MTU i0) (i_DNS i0) x (i_PreUp i0)
    (i_PostUp i0) (i_PreDown i0) (i_PostDown i0) (i_TableOff i0) (i_Comments i0).
Definition set_i_PreUp (x : gostring) (i0 : Interface) : Interface :=
  mkInterface
    (i_PrivateKey i0) (i_Addresses i0) (i_ListenPort i0) (i_MTU i0) (i_DNS i0) (i_DNSSearch i0)
    x (i_PostUp i0) (i_PreDown i0) (i_PostDown i0) (i_TableOff i0) (i_Comments i0).
Definition set_i_PostUp (x : gostring) (i0 : Interface) : Interface :=
  mkInterface
    (i_PrivateKey i0) (i_Addresses i0) (i_ListenPort i0) (i_MTU i0) (i_DNS i0) (i_DNSSearch i0)
    (i_PreUp i0) x (i_PreDown i0) (i_PostDown i0) (i_TableOff i0) (i_Comments i0).
Definition set_i_PreDown (x : gostring) (i0 : Interface) : Interface :=
  mkInterface
    (i_PrivateKey i0) (i_Addresses i0) (i_ListenPort i0) (i_MTU i0) (i_DNS i0) (i_DNSSearch i0)
    (i_PreUp i0) (i_PostUp i0) x (i_PostDown i0) (i_TableOff i0) (i_Comments i0).
Definition set_i_PostDown (x : gostring) (i0 : Interface) : Interface :=
  mkInterface
    (i_PrivateKey i0) (i_Addresses i0) (i_ListenPort i0) (i_MTU i0) (i_DNS i0) (i_DNSSearch i0)
    (i_PreUp i0) (i_PostUp i0) (i_PreDown i0) x (i_TableOff i0) (i_Comments i0).
Definition set_i_TableOff (x : bool) (i0 : Interface) : Interface :=
  mkInterface
    (i_PrivateKey i0) (i_Addresses i0) (i_ListenPort i0) (i_MTU i0) (i_DNS i0) (i_DNSSearch i0)
    (i_PreUp i0) (i_PostUp i0) (i_PreDown i0) (i_PostDown i0) x (i_Comments i0).
Definition set_i_Comments (x : SectionComments) (i0 : Interface) : Interface :=
  mkInterface
    (i_PrivateKey i0) (i_Addresses i0) (i_ListenPort i0) (i_MTU i0) (i_DNS i0) (i_DNSSearch i0)
    (i_PreUp i0) (i_PostUp i0) (i_PreDown i0) (i_PostDown i0) (i_TableOff i0) x.

Definition set_pr_PublicKey (x : Key) (pr0 : Peer) : Peer :=
  mkPeer
    x (pr_PresharedKey pr0) (pr_AllowedIPs pr0) (pr_Endpoint pr0) (pr_PersistentKeepalive pr0)
    (pr_WSMode pr0) (pr_WSURL pr0) (pr_WSTunnelTarget pr0) (pr_WSBearer pr0) (pr_WSMask pr0)
    (pr_WSTLSCA pr0) (pr_WSTLSCert pr0) (pr_WSTLSKey pr0) (pr_WSTLSInsecure pr0)
    (pr_WSPingInterval pr0) (pr_WSBackoffMin pr0) (pr_WSBackoffMax pr0) (pr_RxBytes pr0)
    (pr_TxBytes pr0) (pr_LastHandshakeTime pr0) (pr_Comments pr0).
Definition set_pr_PresharedKey (x : Key) (pr0 : Peer) : Peer :=
  mkPeer
    (pr_PublicKey pr0) x (pr_AllowedIPs pr0) (pr_Endpoint pr0) (pr_PersistentKeepalive pr0)
    (pr_WSMode pr0) (pr_WSURL pr0) (pr_WSTunnelTarget pr0) (pr_WSBearer pr0) (pr_WSMask pr0)
    (pr_WSTLSCA pr0) (pr_WSTLSCert pr0) (pr_WSTLSKey pr0) (pr_WSTLSInsecure pr0)
    (pr_WSPingInterval pr0) (pr_WSBackoffMin pr0) (pr_WSBackoffMax pr0) (pr_RxBytes pr0)
    (pr_TxBytes pr0) (pr_LastHandshakeTime pr0) (pr_Comments pr0).
Definition set_pr_AllowedIPs (x : list Prefix) (pr0 : Peer) : Peer :=
  mkPeer
    (pr_PublicKey pr0) (pr_PresharedKey pr0) x (pr_Endpoint pr0) (pr_PersistentKeepalive pr0)
    (pr_WSMode pr0) (pr_WSURL pr0) (pr_WSTunnelTarget pr0) (pr_WSBearer pr0) (pr_WSMask pr0)
    (pr_WSTLSCA pr0) (pr_WSTLSCert pr0) (pr_WSTLSKey pr0) (pr_WSTLSInsecure pr0)
    (pr_WSPingInterval pr0) (pr_WSBackoffMin pr0) (pr_WSBackoffMax pr0) (pr_RxBytes pr0)
    (pr_TxBytes pr0) (pr_LastHandshakeTime pr0) (pr_Comments pr0).
Definition set_pr_Endpoint (x : Endpoint) (pr0 : Peer) : Peer :=
  mkPeer
    (pr_PublicKey pr0) (pr_PresharedKey pr0) (pr_AllowedIPs pr0) x (pr_PersistentKeepalive pr0)
    (pr_WSMode pr0) (pr_WSURL pr0) (pr_WSTunnelTarget pr0) (pr_WSBearer pr0) (pr_WSMask pr0)
    (pr_WSTLSCA pr0) (pr_WSTLSCert pr0) (pr_WSTLSKey pr0) (pr_WSTLSInsecure pr0)
    (pr_WSPingInterval pr0) (pr_WSBackoffMin pr0) (pr_WSBackoffMax pr0) (pr_RxBytes pr0)
    (pr_TxBytes pr0) (pr_LastHandshakeTime pr0) (pr_Comments pr0).
Definition set_pr_PersistentKeepalive (x : Z) (pr0 : Peer) : Peer :=
  mkPeer
    (pr_PublicKey pr0) (pr_PresharedKey pr0) (pr_AllowedIPs pr0) (pr_Endpoint pr0) x
    (pr_WSMode pr0) (pr_WSURL pr0) (pr_WSTunnelTarget pr0) (pr_WSBearer pr0) (pr_WSMask pr0)
    (pr_WSTLSCA pr0) (pr_WSTLSCert pr0) (pr_WSTLSKey pr0) (pr_WSTLSInsecure pr0)
    (pr_WSPingInterval pr0) (pr_WSBackoffMin pr0) (pr_WSBackoffMax pr0) (pr_RxBytes pr0)
    (pr_TxBytes pr0) (pr_LastHandshakeTime pr0) (pr_Comments pr0).
Definition set_pr_WSMode (x : WSMode) (pr0 : Peer) : Peer :=
  mkPeer
    (pr_PublicKey pr0) (pr_PresharedKey pr0) (pr_AllowedIPs pr0) (pr_Endpoint pr0)
    (pr_PersistentKeepalive pr0) x (pr_WSURL pr0) (pr_WSTunnelTarget pr0) (pr_WSBearer pr0)
    (pr_WSMask pr0) (pr_WSTLSCA pr0) (pr_WSTLSCert pr0) (pr_WSTLSKey pr0)
    (pr_WSTLSInsecure pr0) (pr_WSPingInterval pr0) (pr_WSBackoffMin pr0) (pr_WSBackoffMax pr0)
    (pr_RxBytes pr0) (pr_TxBytes pr0) (pr_LastHandshakeTime pr0) (pr_Comments pr0).
Definition set_pr_WSURL (x : gostring) (pr0 : Peer) : Peer :=
  mkPeer
    (pr_PublicKey pr0) (pr_PresharedKey pr0) (pr_AllowedIPs pr0) (pr_Endpoint pr0)
    (pr_PersistentKeepalive pr0) (pr_WSMode pr0) x (pr_WSTunnelTarget pr0) (pr_WSBearer pr0)
    (pr_WSMask pr0) (pr_WSTLSCA pr0) (pr_WSTLSCert pr0) (pr_WSTLSKey pr0)
    (pr_WSTLSInsecure pr0) (pr_WSPingInterval pr0) (pr_WSBackoffMin pr0) (pr_WSBackoffMax pr0)
    (pr_RxBytes pr0) (pr_TxBytes pr0) (pr_LastHandshakeTime pr0) (pr_Comments pr0).
Definition set_pr_WSTunnelTarget (x : gostring) (pr0 : Peer) : Peer :=
  mkPeer
    (pr_PublicKey pr0) (pr_PresharedKey pr0) (pr_AllowedIPs pr0) (pr_Endpoint pr0)
    (pr_PersistentKeepalive pr0) (pr_WSMode pr0) (pr_WSURL pr0) x (pr_WSBearer pr0)
    (pr_WSMask pr0) (pr_WSTLSCA pr0) (pr_WSTLSCert pr0) (pr_WSTLSKey pr0)
    (pr_WSTLSInsecure pr0) (pr_WSPingInterval pr0) (pr_WSBackoffMin pr0) (pr_WSBackoffMax pr0)
    (pr_RxBytes pr0) (pr_TxBytes pr0) (pr_LastHandshakeTime pr0) (pr_Comments pr0).
Definition set_pr_WSBearer (x : gostring) (pr0 : Peer) : Peer :=
  mkPeer
    (pr_PublicKey pr0) (pr_PresharedKey pr0) (pr_AllowedIPs pr0) (pr_Endpoint pr0)
    (pr_PersistentKeepalive pr0) (pr_WSMode pr0) (pr_WSURL pr0) (pr_WSTunnelTarget pr0) x
    (pr_WSMask pr0) (pr_WSTLSCA pr0) (pr_WSTLSCert pr0) (pr_WSTLSKey pr0)
    (pr_WSTLSInsecure pr0) (pr_WSPingInterval pr0) (pr_WSBackoffMin pr0) (pr_WSBackoffMax pr0)
    (pr_RxBytes pr0) (pr_TxBytes pr0) (pr_LastHandshakeTime pr0) (pr_Comments pr0).
Definition set_pr_WSMask (x : bool) (pr0 : Peer) : Peer :=
  mkPeer
    (pr_PublicKey pr0) (pr_PresharedKey pr0) (pr_AllowedIPs pr0) (pr_Endpoint pr0)
    (pr_PersistentKeepalive pr0) (pr_WSMode pr0) (pr_WSURL pr0) (pr_WSTunnelTarget pr0)
    (pr_WSBearer pr0) x (pr_WSTLSCA pr0) (pr_WSTLSCert pr0) (pr_WSTLSKey pr0)
    (pr_WSTLSInsecure pr0) (pr_WSPingInterval pr0) (pr_WSBackoffMin pr0) (pr_WSBackoffMax pr0)
    (pr_RxBytes pr0) (pr_TxBytes pr0) (pr_LastHandshakeTime pr0) (pr_Comments pr0).
Definition set_pr_WSTLSCA (x : gostring) (pr0 : Peer) : Peer :=
  mkPeer
    (pr_PublicKey pr0) (pr_PresharedKey pr0) (pr_AllowedIPs pr0) (pr_Endpoint pr0)
    (pr_PersistentKeepalive pr0) (pr_WSMode pr0) (pr_WSURL pr0) (pr_WSTunnelTarget pr0)
    (pr_WSBearer pr0) (pr_WSMask pr0) x (pr_WSTLSCert pr0) (pr_WSTLSKey pr0)
    (pr_WSTLSInsecure pr0) (pr_WSPingInterval pr0) (pr_WSBackoffMin pr0) (pr_WSBackoffMax pr0)
    (pr_RxBytes pr0) (pr_TxBytes pr0) (pr_LastHandshakeTime pr0) (pr_Comments pr0).
Definition set_pr_WSTLSCert (x : gostring) (pr0 : Peer) : Peer :=
  mkPeer
    (pr_PublicKey pr0) (pr_PresharedKey pr0) (pr_AllowedIPs pr0) (pr_Endpoint pr0)
    (pr_PersistentKeepalive pr0) (pr_WSMode pr0) (pr_WSURL pr0) (pr_WSTunnelTarget pr0)
    (pr_WSBearer pr0) (pr_WSMask pr0) (pr_WSTLSCA pr0) x (pr_WSTLSKey pr0)
    (pr_WSTLSInsecure pr0) (pr_WSPingInterval pr0) (pr_WSBackoffMin pr0) (pr_WSBackoffMax pr0)
    (pr_RxBytes pr0) (pr_TxBytes pr0) (pr_LastHandshakeTime pr0) (pr_Comments pr0).
Definition set_pr_WSTLSKey (x : gostring) (pr0 : Peer) : Peer :=
  mkPeer
    (pr_PublicKey pr0) (pr_PresharedKey pr0) (pr_AllowedIPs pr0) (pr_Endpoint pr0)
    (pr_PersistentKeepalive pr0) (pr_WSMode pr0) (pr_WSURL pr0) (pr_WSTunnelTarget pr0)
    (pr_WSBearer pr0) (pr_WSMask pr0) (pr_WSTLSCA pr0) (pr_WSTLSCert pr0) x
    (pr_WSTLSInsecure pr0) (pr_WSPingInterval pr0) (pr_WSBackoffMin pr0) (pr_WSBackoffMax pr0)
    (pr_RxBytes pr0) (pr_TxBytes pr0) (pr_LastHandshakeTime pr0) (pr_Comments pr0).
Definition set_pr_WSTLSInsecure (x : bool) (pr0 : Peer) : Peer :=
  mkPeer
    (pr_PublicKey pr0) (pr_PresharedKey pr0) (pr_AllowedIPs pr0) (pr_Endpoint pr0)
    (pr_PersistentKeepalive pr0) (pr_WSMode pr0) (pr_WSURL pr0) (pr_WSTunnelTarget pr0)
    (pr_WSBearer pr0) (pr_WSMask pr0) (pr_WSTLSCA pr0) (pr_WSTLSCert pr0) (pr_WSTLSKey pr0) x
    (pr_WSPingInterval pr0) (pr_WSBackoffMin pr0) (pr_WSBackoffMax pr0) (pr_RxBytes pr0)
    (pr_TxBytes pr0) (pr_LastHandshakeTime pr0) (pr_Comments pr0).
Definition set_pr_WSPingInterval (x : Z) (pr0 : Peer) : Peer :=
  mkPeer
    (pr_PublicKey pr0) (pr_PresharedKey pr0) (pr_AllowedIPs pr0) (pr_Endpoint pr0)
    (pr_PersistentKeepalive pr0) (pr_WSMode pr0) (pr_WSURL pr0) (pr_WSTunnelTarget pr0)
    (pr_WSBearer pr0) (pr_WSMask pr0) (pr_WSTLSCA pr0) (pr_WSTLSCert pr0) (pr_WSTLSKey pr0)
    (pr_WSTLSInsecure pr0) x (pr_WSBackoffMin pr0) (pr_WSBackoffMax pr0) (pr_RxBytes pr0)
    (pr_TxBytes pr0) (pr_LastHandshakeTime pr0) (pr_Comments pr0).
Definition set_pr_WSBackoffMin (x : Z) (pr0 : Peer) : Peer :=
  mkPeer
    (pr_PublicKey pr0) (pr_PresharedKey pr0) (pr_AllowedIPs pr0) (pr_Endpoint pr0)
    (pr_PersistentKeepalive pr0) (pr_WSMode pr0) (pr_WSURL pr0) (pr_WSTunnelTarget pr0)
    (pr_WSBearer pr0) (pr_WSMask pr0) (pr_WSTLSCA pr0) (pr_WSTLSCert pr0) (pr_WSTLSKey pr0)
    (pr_WSTLSInsecure pr0) (pr_WSPingInterval pr0) x (pr_WSBackoffMax pr0) (pr_RxBytes pr0)
    (pr_TxBytes pr0) (pr_LastHandshakeTime pr0) (pr_Comments pr0).
Definition set_pr_WSBackoffMax (x : Z) (pr0 : Peer) : Peer :=
  mkPeer
    (pr_PublicKey pr0) (pr_PresharedKey pr0) (pr_AllowedIPs pr0) (pr_Endpoint pr0)
    (pr_PersistentKeepalive pr0) (pr_WSMode pr0) (pr_WSURL pr0) (pr_WSTunnelTarget pr0)
    (pr_WSBearer pr0) (pr_WSMask pr0) (pr_WSTLSCA pr0) (pr_WSTLSCert pr0) (pr_WSTLSKey pr0)
    (pr_WSTLSInsecure pr0) (pr_WSPingInterval pr0) (pr_WSBackoffMin pr0) x (pr_RxBytes pr0)
    (pr_TxBytes pr0) (pr_LastHandshakeTime pr0) (pr_Comments pr0).
Definition set_pr_RxBytes (x : Z) (pr0 : Peer) : Peer :=
  mkPeer
    (pr_PublicKey pr0) (pr_PresharedKey pr0) (pr_AllowedIPs pr0) (pr_Endpoint pr0)
    (pr_PersistentKeepalive pr0) (pr_WSMode pr0) (pr_WSURL pr0) (pr_WSTunnelTarget pr0)
    (pr_WSBearer pr0) (pr_WSMask pr0) (pr_WSTLSCA pr0) (pr_WSTLSCert pr0) (pr_WSTLSKey pr0)
    (pr_WSTLSInsecure pr0) (pr_WSPingInterval pr0) (pr_WSBackoffMin pr0) (pr_WSBackoffMax pr0)
    x (pr_TxBytes pr0) (pr_LastHandshakeTime pr0) (pr_Comments pr0).
Definition set_pr_TxBytes (x : Z) (pr0 : Peer) : Peer :=
  mkPeer
    (pr_PublicKey pr0) (pr_PresharedKey pr0) (pr_AllowedIPs pr0) (pr_Endpoint pr0)
    (pr_PersistentKeepalive pr0) (pr_WSMode pr0) (pr_WSURL pr0) (pr_WSTunnelTarget pr0)
    (pr_WSBearer pr0) (pr_WSMask pr0) (pr_WSTLSCA pr0) (pr_WSTLSCert pr0) (pr_WSTLSKey pr0)
    (pr_WSTLSInsecure pr0) (pr_WSPingInterval pr0) (pr_WSBackoffMin pr0) (pr_WSBackoffMax pr0)
    (pr_RxBytes pr0) x (pr_LastHandshakeTime pr0) (pr_Comments pr0).
Definition set_pr_LastHandshakeTime (x : Z) (pr0 : Peer) : Peer :=
  mkPeer
    (pr_PublicKey pr0) (pr_PresharedKey pr0) (pr_AllowedIPs pr0) (pr_Endpoint pr0)
    (pr_PersistentKeepalive pr0) (pr_WSMode pr0) (pr_WSURL pr0) (pr_WSTunnelTarget pr0)
    (pr_WSBearer pr0) (pr_WSMask pr0) (pr_WSTLSCA pr0) (pr_WSTLSCert pr0) (pr_WSTLSKey pr0)
    (pr_WSTLSInsecure pr0) (pr_WSPingInterval pr0) (pr_WSBackoffMin pr0) (pr_WSBackoffMax pr0)
    (pr_RxBytes pr0) (pr_TxBytes pr0) x (pr_Comments pr0).
Definition set_pr_Comments (x : SectionComments) (pr0 : Peer) : Peer :=
  mkPeer
    (pr_PublicKey pr0) (pr_PresharedKey pr0) (pr_AllowedIPs pr0) (pr_Endpoint pr0)
    (pr_PersistentKeepalive pr0) (pr_WSMode pr0) (pr_WSURL pr0) (pr_WSTunnelTarget pr0)
    (pr_WSBearer pr0) (pr_WSMask pr0) (pr_WSTLSCA pr0) (pr_WSTLSCert pr0) (pr_WSTLSKey pr0)
    (pr_WSTLSInsecure pr0) (pr_WSPingInterval pr0) (pr_WSBackoffMin pr0) (pr_WSBackoffMax pr0)
    (pr_RxBytes pr0) (pr_TxBytes pr0) (pr_LastHandshakeTime pr0) x.

Definition set_c_Name (x : gostring) (c0 : Config) : Config :=
  mkConfig
    x (c_Interface c0) (c_Peers c0) (c_WSTLSFiles c0) (c_TrailingComments c0).
Definition set_c_Interface (x : Interface) (c0 : Config) : Config :=
  mkConfig
    (c_Name c0) x (c_Peers c0) (c_WSTLSFiles c0) (c_TrailingComments c0).
Definition set_c_Peers (x : list Peer) (c0 : Config) : Config :=
  mkConfig
    (c_Name c0) (c_Interface c0) x (c_WSTLSFiles c0) (c_TrailingComments c0).
Definition set_c_WSTLSFiles (x : gmap gostring gostring) (c0 : Config) : Config :=
  mkConfig
    (c_Name c0) (c_Interface c0) (c_Peers c0) x (c_TrailingComments c0).
Definition set_c_TrailingComments (x : list gostring) (c0 : Config) : Config :=
  mkConfig
    (c_Name c0) (c_Interface c0) (c_Peers c0) (c_WSTLSFiles c0) x.


#[global] Instance Endpoint_eq_dec : EqDecision Endpoint.
Proof. solve_decision. Defined.
#[global] Instance Comments_eq_dec : EqDecision Comments.
Proof. solve_decision. Defined.
#[global] Instance SectionComments_eq_dec : EqDecision SectionComments.
Proof. solve_decision. Defined.
#[global] Instance Interface_eq_dec : EqDecision Interface.
Proof. solve_decision. Defined.
#[global] Instance Peer_eq_dec : EqDecision Peer.
Proof. solve_decision. Defined.
#[global] Instance Config_eq_dec : EqDecision Config.
Proof. solve_decision. Defined.

Definition emptyEndpoint : Endpoint := mkEndpoint [] 0.
Definition emptyInterface : Interface :=
  mkInterface zeroKey [] 0 0 [] [] [] [] [] [] false noSectionComments.
Definition emptyPeer : Peer :=
  mkPeer zeroKey zeroKey [] emptyEndpoint 0 WSModeNone [] [] [] false [] [] [] false 0 0 0 0 0 0
    noSectionComments.

(** ** Queries *)

(** The prefixes a configuration claims: the loops that fill allRoutes, and the
    ones that look prefixes of the other configuration up in it. *)
Definition interfaceRoutes (i : Interface) : list Prefix :=
  concat (map (fun a => [PrefixFrom (p_addr a) (BitLen (p_addr a)); Masked a]) (i_Addresses i)).
Definition peerRoutes (ps : list Peer) : list Prefix :=
  concat (map (fun p => map Masked (pr_AllowedIPs p)) ps).
Definition allRoutes (c : Config) : list Prefix :=
  interfaceRoutes (c_Interface c) ++ peerRoutes (c_Peers c).

Definition IntersectsWith (conf other : Config) : bool :=
  existsb (fun p => bool_decide (p ∈ allRoutes conf)) (interfaceRoutes (c_Interface other))
  || existsb (fun p => bool_decide (p ∈ allRoutes conf)) (peerRoutes (c_Peers other)).

Definition HasWebSocketPeers (c : Config) : bool :=
  existsb (fun p => bool_decide (pr_WSMode p <> WSModeNone)) (c_Peers c).

Definition EndpointString (e : Endpoint) : gostring :=
  if negb (IndexByte (e_Host e) ":" =? -1)
  then str "[" ++ e_Host e ++ str "]:" ++ itoa (e_Port e)
  else e_Host e ++ str ":" ++ itoa (e_Port e).

Definition EndpointIsEmpty (e : Endpoint) : bool := (length (e_Host e) =? 0)%nat.

Definition KeyString (k : Key) : gostring := b64Encode k.

Definition KeyIsZero (k : Key) : bool := bool_decide (zeroKey = k).

(** ** Keys

    [rand] is what crypto/rand writes into the key. *)
Definition NewPresharedKey (rand : Key) : Key := rand.

Definition byteAt (k : Key) (i : nat) : Z := code (nth i k "000"%char).

Definition NewPrivateKey (rand : Key) : Key :=
  let k := NewPresharedKey rand in
  let k := <[0%nat := chr (Z.land (byteAt k 0) 248)]> k in
  <[31%nat := chr (Z.lor (Z.land (byteAt k 31) 127) 64)]> k.

(** ** Durations and sizes shown to the user

    The translated texts are external data; the model keeps the parts they are
    built from: the count and the unit of each text. *)
Inductive timeUnit : Type := Years | Days | Hours | Minutes | Seconds.

Inductive handshakeText : Type :=
  | TextNow
  | TextWoundBackward
  | TextAgo (parts : list (Z * timeUnit)).

Definition HandshakeTimeIsEmpty (t : Z) : bool := t =? 0.

(** [u] is the handshake and [n] the current time, in Unix seconds; Go's integer
    division and remainder truncate, which [left] being positive makes floor. *)
Definition HandshakeTimeString (u n : Z) : handshakeText :=
  if u =? n then TextNow
  else if n <? u then TextWoundBackward
  else
    let left := n - u in
    let years := left / (365 * 24 * 60 * 60) in
    let left := left mod (365 * 24 * 60 * 60) in
    let days := left / (24 * 60 * 60) in
    let left := left mod (24 * 60 * 60) in
    let hours := left / (60 * 60) in
    let left := left mod (60 * 60) in
    let minutes := left / 60 in
    let seconds := left mod 60 in
    TextAgo
      ((if 0 <? years then [(years, Years)] else [])
       ++ (if 0 <? days then [(days, Days)] else [])
       ++ (if 0 <? hours then [(hours, Hours)] else [])
       ++ (if 0 <? minutes then [(minutes, Minutes)] else [])
       ++ (if 0 <? seconds then [(seconds, Seconds)] else [])).

(** ** DeduplicateNetworkEntries

    The loop writes the kept entries to the front of the slice it ranges over;
    the model keeps the array, so an entry read after such a write is the one
    in the array at that time. *)
Section Compact.
Context {A : Type} (text : A -> gostring).

(** The state of the loop: the array, the seen texts, the write index. *)
Fixpoint compactLoop (n j : nat) (arr : list A) (m : gset gostring) (i : nat) : list A * nat :=
  match n with
  | O => (arr, i)
  | S n' =>
      match arr !! j with
      | None => (arr, i)
      | Some addr =>
          let s := text addr in
          if decide (s ∈ m) then compactLoop n' (S j) arr m i
          else compactLoop n' (S j) (<[i := addr]> arr) ({[s]} ∪ m) (S i)
      end
  end.

Definition compactSlice (arr : list A) : list A :=
  let '(arr', i) := compactLoop (length arr) 0 arr ∅ 0 in take i arr'.
End Compact.

Definition DeduplicateNetworkEntries (c : Config) : Config :=
  let i := c_Interface c in
  let i := set_i_Addresses (compactSlice PrefixString (i_Addresses i)) i in
  let i := set_i_DNS (compactSlice AddrString (i_DNS i)) i in
  set_c_Peers
    (map (fun p => set_pr_AllowedIPs (compactSlice PrefixString (pr_AllowedIPs p)) p) (c_Peers c))
    (set_c_Interface i c).

(** ** Redact *)

(** binary.LittleEndian.PutUint64 of [v]. *)
Fixpoint leBytes (n : nat) (v : Z) : gostring :=
  match n with
  | O => []
  | S n' => chr (v mod 256) :: leBytes n' (v / 256)
  end.

(** The zero key with the position of the peer in its first eight bytes. *)
Definition redactKey (i : nat) : Key :=
  leBytes 8 (Z.of_nat i mod 2 ^ 64) ++ drop 8 zeroKey.

Definition redactPeer (i : nat) (p : Peer) : Peer :=
  set_pr_Comments noSectionComments
    (set_pr_WSBearer [] (set_pr_PresharedKey zeroKey (set_pr_PublicKey (redactKey i) p))).

Definition Redact (c : Config) : Config :=
  let i := c_Interface c in
  let i := set_i_Comments noSectionComments
    (set_i_PostDown [] (set_i_PreDown [] (set_i_PostUp [] (set_i_PreUp []
      (set_i_PrivateKey zeroKey i))))) in
  set_c_WSTLSFiles ∅
    (set_c_TrailingComments []
      (set_c_Peers (imap redactPeer (c_Peers c)) (set_c_Interface i c))).

(** ** Intersecting configurations *)

Lemma IntersectsWith_spec c1 c2 :
  IntersectsWith c1 c2 = true <-> exists p, p ∈ allRoutes c1 /\ p ∈ allRoutes c2.
Proof.
  unfold IntersectsWith. rewrite orb_true_iff, !existsb_exists.
  unfold allRoutes at 4. setoid_rewrite <- list_elem_of_In. setoid_rewrite bool_decide_eq_true.
  setoid_rewrite elem_of_app. naive_solver.
Qed.

(** Starting [c1] stops [c2] exactly when starting [c2] would stop [c1], and
    that is when both claim one and the same prefix. *)
Theorem IntersectsWith_sym c1 c2 :
  IntersectsWith c1 c2 = IntersectsWith c2 c1
  /\ (IntersectsWith c1 c2 = true <-> exists p, p ∈ allRoutes c1 /\ p ∈ allRoutes c2).
Proof.
  split; [|apply IntersectsWith_spec].
  apply eq_true_iff_eq. rewrite !IntersectsWith_spec. naive_solver.
Qed.

(** ** Deduplication *)

Section dedup.
Context {A : Type} (text : A -> gostring).

(** What the in-place loop should compute: the first entry of each text. *)
Fixpoint dedupBy (m : gset gostring) (l : list A) : list A :=
  match l with
  | [] => []
  | x :: l' => if decide (text x ∈ m) then dedupBy m l'
               else x :: dedupBy ({[text x]} ∪ m) l'
  end.

Lemma compactLoop_spec n j arr m i :
  (n + j = length arr)%nat -> (i <= j)%nat ->
  let '(arr', i') := compactLoop text n j arr m i in
  take i' arr' = take i arr ++ dedupBy m (drop j arr).
Proof.
  revert j arr m i; induction n as [|n IH]; intros j arr m i Hn Hi; cbn.
  - rewrite (drop_ge arr j) by lia. cbn. by rewrite app_nil_r.
  - destruct (lookup_lt_is_Some_2 arr j) as [x Hx]; [lia|]. rewrite Hx.
    rewrite (drop_S arr x j Hx). cbn [dedupBy]. case_decide.
    + specialize (IH (S j) arr m i). apply IH; lia.
    + specialize (IH (S j) (<[i:=x]> arr) ({[text x]} ∪ m) (S i)).
      rewrite length_insert in IH. specialize (IH ltac:(lia) ltac:(lia)).
      destruct (compactLoop _ _ _ _ _ _) as [arr' i']. rewrite IH.
      rewrite (take_S_r _ _ x) by (apply list_lookup_insert_eq; lia).
      rewrite take_insert_ge, drop_insert_lt by lia.
      by rewrite <- (assoc_L (++)).
Qed.

Lemma compactSlice_dedupBy arr : compactSlice text arr = dedupBy ∅ arr.
Proof.
  unfold compactSlice. pose proof (compactLoop_spec (length arr) 0 arr ∅ 0) as H.
  destruct (compactLoop _ _ _ _ _ _) as [arr' i']. rewrite H by lia. done.
Qed.

Lemma dedupBy_spec m l :
  NoDup (text <$> dedupBy m l) /\ sublist (dedupBy m l) l
  /\ (forall x, x ∈ dedupBy m l -> text x ∉ m)
  /\ (forall x, x ∈ l -> text x ∈ m \/ exists y, y ∈ dedupBy m l /\ text y = text x).
Proof.
  revert m; induction l as [|x l IH]; intros m; cbn.
  { repeat split; [constructor | constructor | set_solver..]. }
  case_decide as Hx.
  - destruct (IH m) as (H1 & H2 & H3 & H4). repeat split; [done|by constructor|done|].
    intros y [->|Hy]%elem_of_cons; [by left | by apply H4].
  - destruct (IH ({[text x]} ∪ m)) as (H1 & H2 & H3 & H4). repeat split.
    + cbn. apply NoDup_cons. split; [|done]. intros (y & Hy & Hin)%list_elem_of_fmap.
      apply H3 in Hin. set_solver.
    + by constructor.
    + intros y [->|Hy]%elem_of_cons; [done|]. apply H3 in Hy. set_solver.
    + intros y [->|Hy]%elem_of_cons; [right; exists x; set_solver|].
      destruct (H4 y Hy) as [Hm|(z & Hz & Ht)]; [|right; set_solver].
      apply elem_of_union in Hm as [Hm%elem_of_singleton|Hm]; [|by left].
      right. exists x. set_solver.
Qed.
End dedup.

Lemma dedupBy_id {A} (text : A -> gostring) m l :
  NoDup (text <$> l) -> (forall x, x ∈ l -> text x ∉ m) -> dedupBy text m l = l.
Proof.
  revert m; induction l as [|x l IH]; intros m Hnd Hm; cbn; [done|].
  apply NoDup_cons in Hnd as [Hx Hnd].
  rewrite decide_False by (apply Hm; set_solver). f_equal. apply IH; [done|].
  intros y Hy. pose proof (Hm y ltac:(set_solver)).
  assert (text y <> text x); [|set_solver].
  intros E. apply Hx. rewrite <- E. by apply list_elem_of_fmap_2.
Qed.

Lemma compactSlice_idem {A} (text : A -> gostring) l :
  compactSlice text (compactSlice text l) = compactSlice text l.
Proof.
  rewrite !compactSlice_dedupBy. apply dedupBy_id; [apply dedupBy_spec | set_solver].
Qed.

(** What deduplicating a slice must achieve: the texts are distinct, entries
    keep their order and none is invented, and no text is lost. *)
Definition deduplicated {A} (text : A -> gostring) (before after : list A) : Prop :=
  NoDup (text <$> after) /\ sublist after before
  /\ forall x, x ∈ before -> exists y, y ∈ after /\ text y = text x.

Lemma compactSlice_deduplicated {A} (text : A -> gostring) l :
  deduplicated text l (compactSlice text l).
Proof.
  rewrite compactSlice_dedupBy. destruct (dedupBy_spec text ∅ l) as (H1 & H2 & _ & H4).
  repeat split; [done..|]. intros x Hx. destruct (H4 x Hx); [set_solver|done].
Qed.

(** The in-place loops of DeduplicateNetworkEntries deduplicate every list,
    leave the other fields alone, and change nothing the second time. *)
Theorem DeduplicateNetworkEntries_spec c :
  let c' := DeduplicateNetworkEntries c in
  deduplicated PrefixString (i_Addresses (c_Interface c)) (i_Addresses (c_Interface c'))
  /\ deduplicated AddrString (i_DNS (c_Interface c)) (i_DNS (c_Interface c'))
  /\ Forall2 (fun p p' => deduplicated PrefixString (pr_AllowedIPs p) (pr_AllowedIPs p')
                          /\ p' = set_pr_AllowedIPs (pr_AllowedIPs p') p)
       (c_Peers c) (c_Peers c')
  /\ c_Name c' = c_Name c
  /\ set_i_Addresses (i_Addresses (c_Interface c))
       (set_i_DNS (i_DNS (c_Interface c)) (c_Interface c')) = c_Interface c
  /\ DeduplicateNetworkEntries c' = c'.
Proof.
  cbn. split; [apply compactSlice_deduplicated|].
  split; [apply compactSlice_deduplicated|].
  split; [|split; [done | split; [by destruct (c_Interface c)|]]].
  2:{ unfold DeduplicateNetworkEntries. cbn. rewrite !compactSlice_idem, map_map. cbn.
      by setoid_rewrite compactSlice_idem. }
  apply Forall2_fmap_r, Forall_Forall2_diag, Forall_forall. intros p _. cbn.
  split; [apply compactSlice_deduplicated | done].
Qed.

(** ** Redaction *)

(** Two peers, and two configurations, that differ at most in what a limited
    operator must not see. *)
Definition samePeerBarSecrets (p1 p2 : Peer) : Prop :=
  pr_AllowedIPs p1 = pr_AllowedIPs p2 /\ pr_Endpoint p1 = pr_Endpoint p2
  /\ pr_PersistentKeepalive p1 = pr_PersistentKeepalive p2 /\ pr_WSMode p1 = pr_WSMode p2
  /\ pr_WSURL p1 = pr_WSURL p2 /\ pr_WSTunnelTarget p1 = pr_WSTunnelTarget p2
  /\ pr_WSMask p1 = pr_WSMask p2 /\ pr_WSTLSCA p1 = pr_WSTLSCA p2
  /\ pr_WSTLSCert p1 = pr_WSTLSCert p2 /\ pr_WSTLSKey p1 = pr_WSTLSKey p2
  /\ pr_WSTLSInsecure p1 = pr_WSTLSInsecure p2 /\ pr_WSPingInterval p1 = pr_WSPingInterval p2
  /\ pr_WSBackoffMin p1 = pr_WSBackoffMin p2 /\ pr_WSBackoffMax p1 = pr_WSBackoffMax p2
  /\ pr_RxBytes p1 = pr_RxBytes p2 /\ pr_TxBytes p1 = pr_TxBytes p2
  /\ pr_LastHandshakeTime p1 = pr_LastHandshakeTime p2.

Definition sameBarSecrets (c1 c2 : Config) : Prop :=
  c_Name c1 = c_Name c2
  /\ i_Addresses (c_Interface c1) = i_Addresses (c_Interface c2)
  /\ i_ListenPort (c_Interface c1) = i_ListenPort (c_Interface c2)
  /\ i_MTU (c_Interface c1) = i_MTU (c_Interface c2)
  /\ i_DNS (c_Interface c1) = i_DNS (c_Interface c2)
  /\ i_DNSSearch (c_Interface c1) = i_DNSSearch (c_Interface c2)
  /\ i_TableOff (c_Interface c1) = i_TableOff (c_Interface c2)
  /\ Forall2 samePeerBarSecrets (c_Peers c1) (c_Peers c2).

Lemma redactPeer_secrets i p1 p2 :
  samePeerBarSecrets p1 p2 -> redactPeer i p1 = redactPeer i p2.
Proof.
  intros H. destruct p1, p2. unfold samePeerBarSecrets in H. cbn in H. destruct_and!. subst.
  reflexivity.
Qed.

Lemma imap_Forall2 {A B} (R : A -> A -> Prop) (f : nat -> A -> B) l1 l2 :
  (forall i x y, R x y -> f i x = f i y) -> Forall2 R l1 l2 -> imap f l1 = imap f l2.
Proof.
  intros Hf H. revert f Hf; induction H as [|x y l1 l2 Hxy _ IH]; intros f Hf; [done|].
  cbn. f_equal; [by apply Hf|]. apply IH. naive_solver.
Qed.

(** Redact reveals nothing: its result does not depend on the keys, scripts,
    bearer tokens, comments and TLS file contents of its argument. *)
Theorem Redact_noninterference c1 c2 : sameBarSecrets c1 c2 -> Redact c1 = Redact c2.
Proof.
  intros (Hn & H1 & H2 & H3 & H4 & H5 & H6 & Hp). unfold Redact.
  rewrite (imap_Forall2 samePeerBarSecrets redactPeer _ (c_Peers c2)) by (done || apply redactPeer_secrets).
  destruct c1 as [n1 i1 ps1 f1 t1], c2 as [n2 i2 ps2 f2 t2]. cbn in *. destruct i1, i2. cbn in *.
  unfold set_c_WSTLSFiles, set_c_TrailingComments, set_c_Peers, set_c_Interface. cbn. subst.
  reflexivity.
Qed.

Lemma leBytes_length n v : length (leBytes n v) = n.
Proof. revert v; induction n; intros v; cbn; auto. Qed.

Lemma leBytes_inj n v w :
  0 <= v < 256 ^ Z.of_nat n -> 0 <= w < 256 ^ Z.of_nat n -> leBytes n v = leBytes n w -> v = w.
Proof.
  revert v w; induction n as [|n IH]; intros v w Hv Hw; cbn [leBytes].
  - cbn in *. lia.
  - rewrite Nat2Z.inj_succ, Z.pow_succ_r in * by lia. intros [= Hh Ht].
    apply chr_inj_range in Hh; [|apply Z.mod_pos_bound; lia..].
    apply IH in Ht.
    + rewrite (Z.div_mod v 256), (Z.div_mod w 256) by lia. lia.
    + split; [apply Z.div_pos; lia | apply Z.div_lt_upper_bound; lia].
    + split; [apply Z.div_pos; lia | apply Z.div_lt_upper_bound; lia].
Qed.

Lemma redactKey_inj i j :
  Z.of_nat i < 2 ^ 64 -> Z.of_nat j < 2 ^ 64 -> redactKey i = redactKey j -> i = j.
Proof.
  unfold redactKey. intros Hi Hj H. apply app_inj_1 in H as [H _]; [|by rewrite !leBytes_length].
  rewrite !Z.mod_small in H by lia.
  apply leBytes_inj in H; [lia | change (256 ^ Z.of_nat 8) with (2 ^ 64); lia..].
Qed.

(** The keys Redact substitutes are the peers' positions: well-formed keys that
    tell the peers apart, which the UI relies on to match peers. *)
Theorem Redact_keys_distinct c :
  Z.of_nat (length (c_Peers c)) <= 2 ^ 64 ->
  NoDup (pr_PublicKey <$> c_Peers (Redact c))
  /\ Forall (fun p => length (pr_PublicKey p) = KeyLength) (c_Peers (Redact c)).
Proof.
  intros Hlen. cbn [Redact c_Peers set_c_WSTLSFiles set_c_TrailingComments set_c_Peers].
  split.
  - apply NoDup_alt. intros i j k Hi Hj.
    rewrite list_lookup_fmap, list_lookup_imap in Hi, Hj.
    destruct (c_Peers c !! i) as [p|] eqn:Ei; [|done].
    destruct (c_Peers c !! j) as [q|] eqn:Ej; [|done]. cbn [fmap option_fmap option_map] in Hi, Hj.
    apply lookup_lt_Some in Ei, Ej. apply (inj Some) in Hi, Hj.
    apply redactKey_inj; [lia..|]. transitivity k; done.
  - apply Forall_forall. intros p (i & q & -> & _)%elem_of_lookup_imap. done.
Qed.

(** ** Keys *)

Lemma insert_byteAt (k : Key) i j c :
  (j < length k)%nat -> byteAt (<[j := c]> k) i = if decide (j = i) then code c else byteAt k i.
Proof.
  intros Hj. unfold byteAt. rewrite !nth_lookup, list_lookup_insert.
  repeat case_decide; try done; naive_solver.
Qed.

(** The two bytes the clamping changes, checked on all byte values. *)
Definition clamp0 (b : Z) : Z := Z.land b 248.
Definition clamp31 (b : Z) : Z := Z.lor (Z.land b 127) 64.

Definition clampOk (b : Z) : Prop :=
  (Z.land (clamp0 b) 7 = 0 /\ Z.land (clamp0 b) 248 = Z.land b 248
   /\ code (chr (clamp0 b)) = clamp0 b /\ clamp0 (clamp0 b) = clamp0 b)
  /\ (Z.land (clamp31 b) 192 = 64 /\ Z.land (clamp31 b) 63 = Z.land b 63
      /\ code (chr (clamp31 b)) = clamp31 b /\ clamp31 (clamp31 b) = clamp31 b).

Lemma clamp_bits b : 0 <= b < 256 -> clampOk b.
Proof.
  revert b. apply (Z_range_cases clampOk 256). cbn [seq map Z.to_nat].
  repeat (apply Forall_cons_2; [vm_compute; repeat split|]). apply Forall_nil_2.
Qed.

Lemma NewPrivateKey_byteAt rand i :
  length rand = KeyLength ->
  byteAt (NewPrivateKey rand) i
  = if decide (i = 0%nat) then clamp0 (byteAt rand 0)
    else if decide (i = 31%nat) then clamp31 (byteAt rand 31) else byteAt rand i.
Proof.
  intros Hl. unfold NewPrivateKey, NewPresharedKey.
  change (Z.land (byteAt rand 0) 248) with (clamp0 (byteAt rand 0)).
  unfold KeyLength in Hl.
  destruct (clamp_bits (byteAt rand 0) ltac:(apply code_range)) as [(_ & _ & H0 & _) _].
  destruct (clamp_bits (byteAt rand 31) ltac:(apply code_range)) as [_ (_ & _ & H31 & _)].
  rewrite !insert_byteAt by (rewrite ?length_insert; lia). rewrite H0.
  repeat case_decide; subst; try done.
Qed.

Lemma length_NewPrivateKey rand : length (NewPrivateKey rand) = length rand.
Proof. unfold NewPrivateKey, NewPresharedKey. by rewrite !length_insert. Qed.

Lemma key_ext (k1 k2 : Key) :
  length k1 = length k2 -> (forall i, byteAt k1 i = byteAt k2 i) -> k1 = k2.
Proof.
  intros Hl H. apply (nth_ext k1 k2 "000"%char "000"%char Hl).
  intros i _. apply code_inj, H.
Qed.

(** NewPrivateKey clamps: the key is a valid X25519 scalar encoding (low three
    bits of the first byte clear, top bit of the last clear and the next set),
    and it keeps every other bit of the random bytes. *)
Theorem NewPrivateKey_clamped rand :
  length rand = KeyLength ->
  let k := NewPrivateKey rand in
  length k = KeyLength
  /\ Z.land (byteAt k 0) 7 = 0 /\ Z.land (byteAt k 31) 192 = 64
  /\ (forall i, (0 < i < 31)%nat -> byteAt k i = byteAt rand i)
  /\ Z.land (byteAt k 0) 248 = Z.land (byteAt rand 0) 248
  /\ Z.land (byteAt k 31) 63 = Z.land (byteAt rand 31) 63
  /\ NewPrivateKey k = k.
Proof.
  intros Hl k. assert (Hk : length k = KeyLength) by (unfold k; by rewrite length_NewPrivateKey).
  destruct (clamp_bits (byteAt rand 0) ltac:(apply code_range)) as [(A1 & A2 & _ & A4) _].
  destruct (clamp_bits (byteAt rand 31) ltac:(apply code_range)) as [_ (B1 & B2 & _ & B4)].
  assert (E0 : byteAt k 0 = clamp0 (byteAt rand 0)) by (unfold k; by rewrite NewPrivateKey_byteAt).
  assert (E31 : byteAt k 31 = clamp31 (byteAt rand 31)) by (unfold k; by rewrite NewPrivateKey_byteAt).
  rewrite E0, E31. repeat (split; [done|]). split.
  { intros i Hi. unfold k. rewrite NewPrivateKey_byteAt by done. repeat case_decide; lia || done. }
  repeat (split; [done|]).
  apply key_ext; [by rewrite length_NewPrivateKey|]. intros i.
  rewrite (NewPrivateKey_byteAt k), E0, E31, A4, B4 by done.
  unfold k. rewrite (NewPrivateKey_byteAt rand i) by done. by repeat case_decide.
Qed.

(** ** Handshake ages *)

Definition unitSeconds (u : timeUnit) : Z :=
  match u with
  | Years => 365 * 24 * 60 * 60
  | Days => 24 * 60 * 60
  | Hours => 60 * 60
  | Minutes => 60
  | Seconds => 1
  end.

(** The bound on the count shown for a unit below years. *)
Definition unitLimit (u : timeUnit) : option Z :=
  match u with
  | Years => None | Days => Some 365 | Hours => Some 24 | Minutes => Some 60 | Seconds => Some 60
  end.

Definition partsSeconds (parts : list (Z * timeUnit)) : Z :=
  fold_right (fun p acc => fst p * unitSeconds (snd p) + acc) 0 parts.

Lemma partsSeconds_app p q : partsSeconds (p ++ q) = partsSeconds p + partsSeconds q.
Proof.
  induction p as [|[n u] p IH]; [done|]. unfold partsSeconds in *. cbn [app fold_right fst snd].
  rewrite IH. lia.
Qed.

Lemma partsSeconds_if n u :
  0 <= n -> partsSeconds (if 0 <? n then [(n, u)] else []) = n * unitSeconds u.
Proof.
  intros Hn. unfold partsSeconds. destruct (Z.ltb_spec 0 n); cbn [fold_right fst snd]; [lia|].
  replace n with 0 by lia. lia.
Qed.

Lemma handshake_arith l :
  0 <= l ->
  let d := l mod (365 * 24 * 60 * 60) in
  let h := d mod (24 * 60 * 60) in
  let m := h mod (60 * 60) in
  0 <= l / (365 * 24 * 60 * 60) /\ 0 <= d / (24 * 60 * 60) < 365 /\ 0 <= h / (60 * 60) < 24
  /\ 0 <= m / 60 < 60 /\ 0 <= m mod 60 < 60
  /\ l / (365 * 24 * 60 * 60) * (365 * 24 * 60 * 60) + d / (24 * 60 * 60) * (24 * 60 * 60)
     + h / (60 * 60) * (60 * 60) + m / 60 * 60 + m mod 60 = l.
Proof. intros Hl. cbn zeta. Z.to_euclidean_division_equations. lia. Qed.

(** The age shown for a past handshake is the exact number of seconds, split
    into units in their usual ranges, each shown only when it counts. *)
Theorem HandshakeTimeString_exact u n :
  u < n -> exists parts,
    HandshakeTimeString u n = TextAgo parts /\ partsSeconds parts = n - u /\ parts <> []
    /\ Forall (fun p => 0 < fst p /\ forall lim, unitLimit (snd p) = Some lim -> fst p < lim) parts.
Proof.
  intros Hlt. unfold HandshakeTimeString.
  destruct (Z.eqb_spec u n); [lia|]. destruct (Z.ltb_spec n u); [lia|].
  destruct (handshake_arith (n - u) ltac:(lia)) as (Hy & Hd & Hh & Hm & Hs & Hsum).
  cbn zeta in *. eexists. split; [reflexivity|].
  assert (Hps : forall x u, 0 <= x -> (forall lim, unitLimit u = Some lim -> x < lim) ->
     Forall (fun p => 0 < fst p /\ forall lim, unitLimit (snd p) = Some lim -> fst p < lim)
       (if 0 <? x then [(x, u)] else [])).
  { intros x u' Hx Hlim. destruct (Z.ltb_spec 0 x); [|constructor]. apply Forall_singleton. done. }
  match goal with |- partsSeconds ?l = _ /\ _ => assert (Hp : partsSeconds l = n - u) end.
  { rewrite !partsSeconds_app, !partsSeconds_if by lia. cbn [unitSeconds]. lia. }
  split; [exact Hp|]. split; [intros E; rewrite E in Hp; cbn in Hp; lia|].
  rewrite !Forall_app. repeat split; apply Hps; try lia; cbn [unitLimit]; intros lim [=]; lia.
Qed.

(** ** Witnesses *)

Definition witnessPeer (key : Key) (bearer : gostring) : Peer :=
  set_pr_WSBearer bearer (set_pr_PublicKey key
    (set_pr_AllowedIPs [mkPrefix (Addr4 167772160) 8] emptyPeer)).
Definition witnessConfig (key : Key) (bearer : gostring) : Config :=
  mkConfig (str "wg0") (set_i_PrivateKey key emptyInterface)
    [witnessPeer key bearer; witnessPeer key []] ∅ [bearer].
Definition onesKey : Key := replicate KeyLength "255"%char.

Lemma Redact_noninterference_witness :
  witnessConfig onesKey (str "token") <> witnessConfig zeroKey []
  /\ Redact (witnessConfig onesKey (str "token")) = Redact (witnessConfig zeroKey []).
Proof.
  split; [done|]. apply Redact_noninterference.
  repeat split. apply Forall2_cons_2; [|apply Forall2_cons_2; [|apply Forall2_nil_2]]; repeat split.
Defined.

Lemma Redact_keys_distinct_witness :
  NoDup (pr_PublicKey <$> c_Peers (Redact (witnessConfig zeroKey [])))
  /\ Forall (fun p => length (pr_PublicKey p) = KeyLength)
       (c_Peers (Redact (witnessConfig zeroKey []))).
Proof. apply Redact_keys_distinct. vm_compute. discriminate. Defined.

Lemma NewPrivateKey_clamped_witness :
  Z.land (byteAt (NewPrivateKey onesKey) 0) 7 = 0
  /\ Z.land (byteAt (NewPrivateKey onesKey) 31) 192 = 64.
Proof.
  destruct (NewPrivateKey_clamped onesKey eq_refl) as (_ & H0 & H31 & _). by split.
Defined.

Lemma HandshakeTimeString_exact_witness :
  exists parts, HandshakeTimeString 10 100000 = TextAgo parts /\ partsSeconds parts = 99990.
Proof.
  destruct (HandshakeTimeString_exact 10 100000 ltac:(lia)) as (parts & H1 & H2 & _).
  exists parts. by split.
Defined.
