(* ===== verification/Name.v ===== *)
(** * conf/name.go: tunnel names, their order and the service name

    A tunnel name is a file name, a registry key and part of a service name, so
    the checks here are what keeps the rest of the program's paths inside the
    configuration directory. *)

From S2P Require Import Prelude GoStrings GoNum.
Local Open Scope Z_scope.

(** ** Validity *)

Definition reservedNames : list gostring :=
  map str ["CON"; "PRN"; "AUX"; "NUL";
           "COM1"; "COM2"; "COM3"; "COM4"; "COM5"; "COM6"; "COM7"; "COM8"; "COM9";
           "LPT1"; "LPT2"; "LPT3"; "LPT4"; "LPT5"; "LPT6"; "LPT7"; "LPT8"; "LPT9"].

Definition serviceNameForbidden : gostring := str "$".
Definition netshellDllForbidden : gostring := str "\/:*?" ++ [QUOTE] ++ str "<>|" ++ [TAB].
Definition specialChars : gostring :=
  str "/\<>:" ++ [QUOTE] ++ str "|?*" ++ bytes_of (map Z.of_nat (seq 1 31)) ++ [chr 0].

Definition isReserved (name : gostring) : bool :=
  let '(name, _, _) := Cut name (str ".") in
  existsb (EqualFoldASCII name) reservedNames.

Definition hasSpecialChars (name : gostring) : bool :=
  ContainsAny name specialChars || ContainsAny name netshellDllForbidden
  || ContainsAny name serviceNameForbidden || HasPrefix name (str ".") || HasSuffix name (str ".").

(** The class [a-zA-Z0-9_=+.-]. *)
Definition nameByte (c : ascii) : bool :=
  isLower c || isUpper c || isDigit c || has_byte c (str "_=+.-").

(** allowedNameFormat.MatchString: one to thirty-two bytes of the class. *)
Definition allowedNameFormat (name : gostring) : bool :=
  (1 <=? length name)%nat && (length name <=? 32)%nat && forallb nameByte name.

Definition TunnelNameIsValid (name : gostring) : bool :=
  if isReserved name || hasSpecialChars name then false else allowedNameFormat name.

Definition servicePrefix : gostring := str "WireGuardWSTunnel$".

Definition ServiceNameOfTunnel (tunnelName : gostring) : result gostring :=
  if negb (TunnelNameIsValid tunnelName) then Err (ErrText "Tunnel name is not valid")
  else Ok (servicePrefix ++ tunnelName).

(** ** The natural order of names *)

Record naturalSortToken : Type := mkToken { maybeString : gostring; maybeNumber : Z }.

(** The loop of strings.Fields; [cur] is the field being read. *)
Fixpoint fieldsLoop (n : nat) (cur s : gostring) : list gostring :=
  let flush := match cur with [] => [] | _ => [cur] end in
  match n with
  | O => flush
  | S n' =>
      match s with
      | [] => flush
      | c :: s' => match lead spaces s with
                   | O => fieldsLoop n' (cur ++ [c]) s'
                   | k => flush ++ fieldsLoop n' [] (drop k s)
                   end
      end
  end.

Definition Fields (s : gostring) : list gostring := fieldsLoop (S (length s)) [] s.

(** naturalSortDigitFinder.FindAllString: the maximal runs of digits and of
    other bytes. *)
Fixpoint digitRuns (s : gostring) : list gostring :=
  match s with
  | [] => []
  | c :: s' => match digitRuns s' with
               | (d :: r) :: rs => if Bool.eqb (isDigit c) (isDigit d) then (c :: d :: r) :: rs
                                   else [c] :: (d :: r) :: rs
               | rs => [c] :: rs
               end
  end.

Section Order.
Context `{UnicodeTables}.

Definition naturalToken (s : gostring) : naturalSortToken :=
  match Atoi s with Ok n => mkToken [] n | Err _ => mkToken s 0 end.

Definition newNaturalSortString (s : gostring) : list naturalSortToken :=
  map naturalToken (digitRuns (ToLower (Join (Fields s) (str " ")))).
End Order.

(** Go's < on strings: bytewise lexicographic. *)
Fixpoint stringLess (s t : gostring) : bool :=
  match s, t with
  | _, [] => false
  | [], _ :: _ => true
  | c :: s', d :: t' =>
      if code c <? code d then true else if code d <? code c then false else stringLess s' t'
  end.

Definition Cmp (f1 f2 : naturalSortToken) : Z :=
  if (length (maybeString f1) =? 0)%nat then
    if negb (length (maybeString f2) =? 0)%nat || (maybeNumber f1 <? maybeNumber f2) then -1
    else if maybeNumber f2 <? maybeNumber f1 then 1 else 0
  else if (length (maybeString f2) =? 0)%nat || stringLess (maybeString f2) (maybeString f1) then 1
  else if stringLess (maybeString f1) (maybeString f2) then -1
  else 0.

(** The loop over [nb.tokens]. *)
Fixpoint tokensLess (na nb : list naturalSortToken) : bool :=
  match nb with
  | [] => false
  | t :: nb' => match na with
                | [] => true
                | f :: na' => if Cmp f t =? -1 then true
                              else if Cmp f t =? 1 then false else tokensLess na' nb'
                end
  end.

Definition TunnelNameIsLess `{UnicodeTables} (a b : gostring) : bool :=
  if bool_decide (a = b) then false
  else tokensLess (newNaturalSortString a) (newNaturalSortString b).

(** ** Validity: theorems *)

Lemma code_cases (P : ascii -> bool) :
  forallb (fun i => P (chr (Z.of_nat i))) (seq 0 256) = true -> forall c, P c = true.
Proof.
  intros HP c. rewrite <- (chr_code c).
  apply (Forall_Z_range (fun z => P (chr z)) 256); [exact HP | apply code_range].
Qed.

Definition forbidden : gostring := specialChars ++ netshellDllForbidden ++ serviceNameForbidden.

Lemma nameByte_plain c : nameByte c = true -> has_byte c forbidden = false /\ isASCII c = true /\ solid c = true.
Proof.
  intros Hc. pose proof (code_cases (fun c => negb (nameByte c)
    || (negb (has_byte c forbidden) && isASCII c && solid c)) eq_refl c) as H.
  cbn beta in H. rewrite Hc in H. cbn [negb orb] in H. apply andb_prop in H as [H H3].
  apply andb_prop in H as [H1 H2]. by destruct (has_byte c forbidden).
Qed.

Lemma has_byte_app c s t : has_byte c (s ++ t) = has_byte c s || has_byte c t.
Proof. apply existsb_app. Qed.

Lemma ContainsAny_plain s chars :
  forallb nameByte s = true -> (forall c, has_byte c chars = true -> has_byte c forbidden = true) ->
  ContainsAny s chars = false.
Proof.
  intros Hs Hsub. unfold ContainsAny. induction s as [|c s IH]; [done|]. cbn [forallb existsb] in *.
  apply andb_prop in Hs as [Hc Hs]. rewrite IH by done. rewrite orb_false_r.
  destruct (has_byte c chars) eqn:E; [|done]. apply Hsub in E.
  by rewrite (proj1 (nameByte_plain c Hc)) in E.
Qed.

Lemma hasSpecialChars_plain s :
  forallb nameByte s = true -> hasSpecialChars s = HasPrefix s (str ".") || HasSuffix s (str ".").
Proof.
  intros Hs. unfold hasSpecialChars, forbidden in *.
  rewrite !ContainsAny_plain; [done | done | | done | | done | ]; intros c Hc;
    unfold forbidden; rewrite !has_byte_app, Hc; by rewrite ?orb_true_r.
Qed.

(** A tunnel name is valid exactly when it is one to thirty-two bytes of the
    allowed class, neither starts nor ends with a dot, and its part before the
    first dot is not a reserved device name in any case. *)
Theorem TunnelNameIsValid_spec name :
  TunnelNameIsValid name = true <->
  (1 <= length name <= 32)%nat /\ Forall (fun c => nameByte c = true) name
  /\ HasPrefix name (str ".") = false /\ HasSuffix name (str ".") = false
  /\ (forall r, r ∈ reservedNames -> map lowerByte (Cut name (str ".")).1.1 <> map lowerByte r).
Proof.
  unfold TunnelNameIsValid, allowedNameFormat.
  assert (Hr : isReserved name = false <-> forall r, r ∈ reservedNames ->
    map lowerByte (Cut name (str ".")).1.1 <> map lowerByte r).
  { unfold isReserved. destruct (Cut name (str ".")) as [[b a] f]. cbn [fst].
    rewrite <- not_true_iff_false, existsb_exists. unfold EqualFoldASCII. split.
    - intros H r Hr E. apply H. exists r. split; [by apply list_elem_of_In | by apply bool_decide_eq_true].
    - intros H (r & Hr%list_elem_of_In & E%bool_decide_eq_true). by apply (H r). }
  rewrite <- Hr. rewrite <- (Forall_iff (fun c => Is_true (nameByte c))), <- forallb_True
    by (intros c; by rewrite Is_true_true).
  destruct (forallb nameByte name) eqn:Hf.
  - rewrite hasSpecialChars_plain by done. rewrite andb_true_r.
    destruct (isReserved name), (HasPrefix name _), (HasSuffix name _); cbn [orb];
      try (split; [done | naive_solver]).
    rewrite andb_true_iff, !Nat.leb_le. naive_solver.
  - rewrite andb_false_r. destruct (_ || _); naive_solver.
Qed.

Lemma TunnelNameIsValid_bytes name c :
  TunnelNameIsValid name = true -> c ∈ name -> nameByte c = true.
Proof.
  unfold TunnelNameIsValid, allowedNameFormat. case_match; [done|].
  rewrite !andb_true_iff, forallb_forall. intros [_ Hf] Hc. by apply Hf, list_elem_of_In.
Qed.

(** A service name determines its tunnel; it has one '$', so what follows it
    is the tunnel name the service manager hands back. *)
Theorem ServiceNameOfTunnel_roundtrip name svc :
  ServiceNameOfTunnel name = Ok svc ->
  TunnelNameIsValid name = true /\ TrimPrefix svc servicePrefix = name
  /\ (Cut svc (str "$")).1.2 = name /\ cut_last "$" svc = Some (str "WireGuardWSTunnel", name).
Proof.
  unfold ServiceNameOfTunnel. destruct (TunnelNameIsValid name) eqn:Hv; cbn [negb]; [|done].
  intros Es. assert (svc = servicePrefix ++ name) as -> by congruence. clear Es.
  assert (Hn : "$"%char ∉ name) by (intros Hin; apply TunnelNameIsValid_bytes in Hin; [|done]; done).
  split; [done|]. split; [apply TrimPrefix_app|].
  change (servicePrefix ++ name) with (str "WireGuardWSTunnel" ++ "$"%char :: name).
  change (str "$") with ["$"%char]. rewrite Cut_app by (vm_compute; set_solver).
  split; [done|]. by apply cut_last_app.
Qed.

(** ** The order: theorems *)

Definition charLess (a b : gostring) : Prop := stringLess a b = true.

Lemma stringLess_trichotomy s t :
  stringLess s t = true \/ s = t \/ stringLess t s = true.
Proof.
  revert t; induction s as [|c s IH]; intros [|d t]; cbn; auto.
  destruct (Z.ltb_spec (code c) (code d)); [auto|]. destruct (Z.ltb_spec (code d) (code c)); [auto|].
  assert (c = d) as -> by (apply code_inj; lia). destruct (IH t) as [?|[->|?]]; auto.
Qed.

Lemma stringLess_trans s t u :
  stringLess s t = true -> stringLess t u = true -> stringLess s u = true.
Proof.
  revert t u; induction s as [|c s IH]; intros [|d t] [|e u]; cbn; auto; try done.
  repeat match goal with |- context [?a <? ?b] => destruct (Z.ltb_spec a b) end;
    try done; try lia. apply IH.
Qed.

Lemma stringLess_irrefl s : stringLess s s = false.
Proof. induction s as [|c s IH]; cbn; [done|]. by rewrite Z.ltb_irrefl. Qed.

Lemma stringLess_asym s t : stringLess s t = true -> stringLess t s = false.
Proof.
  intros H1. destruct (stringLess t s) eqn:H2; [|done].
  by rewrite <- (stringLess_irrefl s), (stringLess_trans s t s).
Qed.

(** A token is a number or a nonempty string, never both. *)
Definition tokenWf (t : naturalSortToken) : Prop := maybeString t <> [] -> maybeNumber t = 0.

Lemma Cmp_eq f g : tokenWf f -> tokenWf g -> Cmp f g = 0 <-> f = g.
Proof.
  unfold tokenWf, Cmp. destruct f as [[|c s] n], g as [[|d t] m]; cbn [maybeString maybeNumber length Nat.eqb negb orb];
    intros Hf Hg.
  - repeat case_match; try (split; [lia|intros [=]; lia]). split; [intros _; f_equal; lia | done].
  - done.
  - done.
  - rewrite Hf, Hg by done.
    destruct (stringLess_trichotomy (c :: s) (d :: t)) as [Hl|[->|Hl]].
    + rewrite (stringLess_asym _ _ Hl), Hl. split; [lia | intros [= -> ->]].
      by rewrite stringLess_irrefl in Hl.
    + rewrite stringLess_irrefl. done.
    + rewrite Hl. split; [lia | intros [= -> ->]]. by rewrite stringLess_irrefl in Hl.
Qed.

Lemma Cmp_antisym f g : Cmp g f = - Cmp f g.
Proof.
  unfold Cmp. destruct f as [[|c s] n], g as [[|d t] m]; cbn [maybeString maybeNumber length Nat.eqb negb orb].
  - repeat match goal with |- context [?a <? ?b] => destruct (Z.ltb_spec a b) end; lia.
  - done.
  - done.
  - destruct (stringLess (c :: s) (d :: t)) eqn:E1, (stringLess (d :: t) (c :: s)) eqn:E2; try done.
    by rewrite (stringLess_asym _ _ E1) in E2.
Qed.

Lemma Cmp_trans f g h : Cmp f g = -1 -> Cmp g h = -1 -> Cmp f h = -1.
Proof.
  unfold Cmp. destruct f as [[|c s] n], g as [[|d t] m], h as [[|e u] k];
    cbn [maybeString maybeNumber length Nat.eqb negb orb]; try done.
  - repeat match goal with |- context [?a <? ?b] => destruct (Z.ltb_spec a b) end; lia.
  - intros H1 H2.
    destruct (stringLess (d :: t) (c :: s)) eqn:E1, (stringLess (e :: u) (d :: t)) eqn:E2; try done.
    destruct (stringLess (c :: s) (d :: t)) eqn:E3, (stringLess (d :: t) (e :: u)) eqn:E4; try done.
    rewrite (stringLess_trans _ _ _ E3 E4).
    by rewrite (stringLess_asym _ _ (stringLess_trans _ _ _ E3 E4)).
Qed.

Lemma Cmp_range f g : Cmp f g = -1 \/ Cmp f g = 0 \/ Cmp f g = 1.
Proof. unfold Cmp. repeat case_match; auto. Qed.

Lemma tokensLess_cons f na g nb :
  tokensLess (f :: na) (g :: nb)
  = if Cmp f g =? -1 then true else if Cmp f g =? 1 then false else tokensLess na nb.
Proof. done. Qed.

Lemma tokensLess_irrefl l : Forall tokenWf l -> tokensLess l l = false.
Proof.
  induction 1 as [|t l Ht _ IH]; [done|]. rewrite tokensLess_cons.
  by rewrite (proj2 (Cmp_eq t t Ht Ht) eq_refl).
Qed.

Lemma tokensLess_trans a b c :
  Forall tokenWf a -> Forall tokenWf b -> Forall tokenWf c ->
  tokensLess a b = true -> tokensLess b c = true -> tokensLess a c = true.
Proof.
  intros Ha; revert b c; induction Ha as [|f a Hf Ha IH]; intros b c Hb Hc; destruct Hb as [|g b Hg Hb],
    Hc as [|h c Hh Hc]; try done.
  rewrite !tokensLess_cons.
  destruct (Cmp_range f g) as [E1|[E1|E1]], (Cmp_range g h) as [E2|[E2|E2]];
    rewrite ?E1, ?E2; cbn [Z.eqb]; try done.
  - by rewrite (Cmp_trans f g h).
  - apply Cmp_eq in E2 as ->; [|done..]. by rewrite E1.
  - apply Cmp_eq in E1 as ->; [|done..]. by rewrite E2.
  - apply Cmp_eq in E1 as ->; [|done..]. rewrite E2. cbn [Z.eqb]. by apply IH.
Qed.

Lemma tokensLess_total a b :
  Forall tokenWf a -> Forall tokenWf b ->
  tokensLess a b = true \/ a = b \/ tokensLess b a = true.
Proof.
  intros Ha; revert b; induction Ha as [|f a Hf Ha IH]; intros b Hb; destruct Hb as [|g b Hg Hb]; cbn; auto.
  rewrite (Cmp_antisym f g). destruct (Cmp_range f g) as [E|[E|E]]; rewrite E; cbn [Z.eqb Z.opp]; auto.
  apply Cmp_eq in E as ->; [|done..]. destruct (IH b Hb) as [?|[->|?]]; auto.
Qed.

Section OrderTheorems.
Context `{UnicodeTables}.

Lemma newNaturalSortString_wf s : Forall tokenWf (newNaturalSortString s).
Proof.
  unfold newNaturalSortString. apply Forall_fmap, Forall_forall. intros r _.
  unfold compose, naturalToken, tokenWf. by destruct (Atoi r).
Qed.

Lemma TunnelNameIsLess_tokens a b :
  TunnelNameIsLess a b = tokensLess (newNaturalSortString a) (newNaturalSortString b).
Proof.
  unfold TunnelNameIsLess. case_bool_decide as E; [|done]. subst.
  by rewrite tokensLess_irrefl by apply newNaturalSortString_wf.
Qed.

(** TunnelNameIsLess is a strict weak order, as sort.Slice requires of the
    comparison it is given: irreflexive, transitive, and two names neither of
    which is less than the other are the ones with the same tokens. *)
Theorem TunnelNameIsLess_strict_weak_order a b c :
  TunnelNameIsLess a a = false
  /\ (TunnelNameIsLess a b = true -> TunnelNameIsLess b a = false)
  /\ (TunnelNameIsLess a b = true -> TunnelNameIsLess b c = true -> TunnelNameIsLess a c = true)
  /\ (TunnelNameIsLess a b = false /\ TunnelNameIsLess b a = false
      <-> newNaturalSortString a = newNaturalSortString b).
Proof.
  rewrite !TunnelNameIsLess_tokens.
  pose proof (newNaturalSortString_wf a) as Ha. pose proof (newNaturalSortString_wf b) as Hb.
  pose proof (newNaturalSortString_wf c) as Hc. revert Ha Hb Hc.
  generalize (newNaturalSortString a), (newNaturalSortString b), (newNaturalSortString c).
  clear a b c. intros a b c Ha Hb Hc.
  split; [by apply tokensLess_irrefl|]. split.
  { intros H1. destruct (tokensLess b a) eqn:H2; [|done].
    by rewrite <- (tokensLess_irrefl a Ha), (tokensLess_trans a b a). }
  split; [by apply tokensLess_trans|]. split.
  - intros [H1 H2]. destruct (tokensLess_total a b Ha Hb) as [?|[?|?]]; congruence.
  - intros ->. by rewrite tokensLess_irrefl.
Qed.
End OrderTheorems.

(** The order on examples: numbers by value, numbers before letters, case and
    leading zeroes ignored. *)
#[refine] Definition asciiTables : UnicodeTables := {| uni_lower := fun r => r |}.
Proof. auto. Defined.

Example natural_order :
  let less a b := @TunnelNameIsLess asciiTables (str a) (str b) in
  [less "wg2" "wg10"; less "wg10" "wg2"; less "a1b" "a1c"; less "WG1" "wg01"; less "1" "a"; less "wg" "wg0"]%string
  = [true; false; true; false; true; true].
Proof. reflexivity. Qed.

Lemma ServiceNameOfTunnel_roundtrip_witness :
  cut_last "$" (servicePrefix ++ str "wg-0") = Some (str "WireGuardWSTunnel", str "wg-0").
Proof. apply (ServiceNameOfTunnel_roundtrip (str "wg-0")). reflexivity. Defined.
