(* ===== verification/Paths.v ===== *)
(** * What the program uses of path/filepath on Windows and of path

    File names are byte strings. The functions are those of Go's Windows build:
    both slashes separate, and a volume name is a drive letter, a UNC host and
    share or a device. *)

From S2P Require Import Prelude GoStrings.
Local Open Scope Z_scope.

Definition isSeparator (c : ascii) : bool := Ascii.eqb c "\" || Ascii.eqb c "/".

(** filepath.ToSlash. *)
Definition ToSlash (p : gostring) : gostring :=
  map (fun c => if Ascii.eqb c "\" then "/"%char else c) p.

(** The bytes after the last one with [f], and whether there is one. *)
Fixpoint afterLast (f : ascii -> bool) (p : gostring) : option gostring :=
  match p with
  | [] => None
  | c :: p' => match afterLast f p' with
               | Some q => Some q
               | None => if f c then Some p' else None
               end
  end.

(** filepath.Ext: from the last dot of the last element on. *)
Definition Ext (p : gostring) : gostring :=
  let element := default p (afterLast isSeparator p) in
  match cut_last "." element with
  | Some (_, after) => "."%char :: after
  | None => []
  end.

(** ** Volume names *)

Fixpoint pathHasPrefixFold (s prefix : gostring) : bool :=
  match prefix, s with
  | [], [] => true
  | [], c :: _ => isSeparator c
  | _ :: _, [] => false
  | d :: prefix', c :: s' =>
      (if isSeparator d then isSeparator c else Ascii.eqb (upperByte d) (upperByte c))
      && pathHasPrefixFold s' prefix'
  end.

(** The index in [p] of the second separator, or the length of [p]. *)
Fixpoint uncLoop (count : nat) (p : gostring) : nat :=
  match p with
  | [] => 0
  | c :: p' => if isSeparator c then match count with
                                     | O => 0
                                     | S count' => S (uncLoop count' p')
                                     end
               else S (uncLoop count p')
  end.

Definition uncLen (p : gostring) (prefixLen : nat) : nat :=
  Nat.min (length p) (prefixLen + uncLoop 1 (drop prefixLen p)).

Definition volumeNameLen (p : gostring) : nat :=
  match p with
  | _ :: ":"%char :: _ => 2
  | [] => 0
  | c0 :: rest =>
      if negb (isSeparator c0) then 0
      else if pathHasPrefixFold p (str "\\.\UNC") then uncLen p 8
      else if pathHasPrefixFold p (str "\\.") || pathHasPrefixFold p (str "\\?")
              || pathHasPrefixFold p (str "\??")
      then if (length p =? 3)%nat then 3
           else (4 + uncLoop 0 (drop 4 p))%nat
      else match rest with
           | c1 :: _ => if isSeparator c1 then uncLen p 2 else 0
           | [] => 0
           end
  end.

(** filepath.IsAbs. *)
Definition IsAbs (p : gostring) : bool :=
  let l := volumeNameLen p in
  if (l =? 0)%nat then false
  else if forallb isSeparator (take 2 p) then true
  else match drop l p with
       | [] => false
       | c :: _ => isSeparator c
       end.

(** filepath.Base. *)
Definition Base (p : gostring) : gostring :=
  match p with
  | [] => str "."
  | _ =>
      let p := reverse (dropWhile isSeparator (reverse p)) in
      let p := drop (volumeNameLen p) p in
      match default p (afterLast isSeparator p) with
      | [] => str "\"
      | element => element
      end
  end.

(** ** Slash-separated paths: package path *)

Module SlashPath.
Definition isSlash (c : ascii) : bool := Ascii.eqb c "/".

(** One element of the loop of path.Clean: [out] holds the kept elements, the
    last first. *)
Definition cleanStep (rooted : bool) (out : list gostring) (element : gostring) : list gostring :=
  if bool_decide (element = []) || bool_decide (element = str ".") then out
  else if bool_decide (element = str "..") then
    match out with
    | top :: out' => if bool_decide (top = str "..") then element :: out else out'
    | [] => if rooted then [] else [element]
    end
  else element :: out.

Definition Clean (p : gostring) : gostring :=
  let rooted := HasPrefix p (str "/") in
  let out := reverse (fold_left (cleanStep rooted) (Split "/" p) []) in
  let text := (if rooted then str "/" else []) ++ Join out (str "/") in
  match text with [] => str "." | _ => text end.

(** path.Join drops the empty elements and cleans the rest. *)
Definition JoinPath (elements : list gostring) : gostring :=
  match List.filter (fun e => negb (bool_decide (e = []))) elements with
  | [] => []
  | kept => Clean (Join kept (str "/"))
  end.

(** path.Dir. *)
Definition Dir (p : gostring) : gostring :=
  Clean (match afterLast isSlash p with
         | Some q => take (length p - length q) p
         | None => []
         end).

(** path.Base. *)
Definition SlashBase (p : gostring) : gostring :=
  match p with
  | [] => str "."
  | _ =>
      let p := reverse (dropWhile isSlash (reverse p)) in
      match default p (afterLast isSlash p) with
      | [] => str "/"
      | element => element
      end
  end.

(** path.Ext. *)
Definition SlashExt (p : gostring) : gostring :=
  match cut_last "." (default p (afterLast isSlash p)) with
  | Some (_, after) => "."%char :: after
  | None => []
  end.
End SlashPath.

(** ** Lemmas *)

Lemma afterLast_None f p : afterLast f p = None <-> Forall (fun c => f c = false) p.
Proof.
  induction p as [|c p IH]; cbn; [split; [constructor|done]|].
  rewrite Forall_cons. destruct (afterLast f p) as [q|].
  - split; [done|]. intros [_ H]. by apply IH in H.
  - destruct (f c); naive_solver.
Qed.

(** Of a name without separators the extension is a suffix that starts at the
    last dot. *)
Lemma Ext_name p :
  Forall (fun c => isSeparator c = false) p ->
  ("."%char ∉ p /\ Ext p = [])
  \/ exists stem after, p = stem ++ "."%char :: after /\ "."%char ∉ after /\ Ext p = "."%char :: after.
Proof.
  intros Hp. unfold Ext. apply afterLast_None in Hp as ->. cbn [default].
  destruct (cut_last "." p) as [[b a]|] eqn:E.
  - right. apply cut_last_Some in E as [-> Ha]. eauto.
  - left. split; [by apply cut_last_None|done].
Qed.

Lemma ToSlash_id p : Forall (fun c => isSeparator c = false) p -> ToSlash p = p.
Proof.
  unfold ToSlash. induction 1 as [|c p Hc _ IH]; [done|]. cbn [map]. rewrite IH.
  unfold isSeparator in Hc. apply orb_false_iff in Hc as [-> _]. done.
Qed.

(** A relative path has no drive letter followed by a slash, and does not begin
    with two separators. *)
Lemma IsAbs_drive a c p : isSeparator c = true -> IsAbs (a :: ":"%char :: c :: p) = true.
Proof.
  intros Hc. unfold IsAbs. cbn [volumeNameLen Nat.eqb take drop]. rewrite Hc.
  by destruct (forallb _ _).
Qed.

Lemma uncLoop_nonsep n c p : isSeparator c = false -> uncLoop n (c :: p) = S (uncLoop n p).
Proof. intros H. cbn [uncLoop]. by rewrite H. Qed.

Lemma IsAbs_double a b p : isSeparator a = true -> isSeparator b = true -> IsAbs (a :: b :: p) = true.
Proof.
  intros Ha Hb. unfold IsAbs. cbn [take forallb]. rewrite Ha, Hb. cbn [andb].
  assert (volumeNameLen (a :: b :: p) <> 0%nat) as Hv; [|by apply Nat.eqb_neq in Hv as ->].
  unfold volumeNameLen.
  assert (Hu : forall k, (0 < k)%nat -> uncLen (a :: b :: p) k <> 0%nat) by (intros k Hk; unfold uncLen; cbn [length]; lia).
  destruct b as [[] [] [] [] [] [] [] []]; try done; cbn [isSeparator] in *; rewrite Ha;
    cbn [negb]; repeat case_match; try lia; try apply Hu; lia.
Qed.
