(* ===== verification/WSTLS.v ===== *)
(** * conf/wstls.go: the TLS files of WebSocket peers

    A peer reached over TLS names a CA, a certificate and a key. In the store
    they are bare file names of copies kept with the tunnel; anything else must
    be an absolute local path. Importing reads the files, picks a stored name
    for each and rewrites the references. *)

From stdpp Require Import sorting.
From S2P Require Import Prelude GoStrings GoNum Netip Config Name Paths.
Local Open Scope Z_scope.

Definition MaxWSTLSFileSize : Z := Z.shiftl 1 20.
Definition MaxWSTLSFiles : nat := 64.
Definition wsTLSFileNameFallback : gostring := str "ws-tls".
Definition wsTLSFileNameMaxLen : nat := 64.

(** ** Names *)

(** The classes [a-zA-Z0-9_-] and [a-zA-Z0-9_.-]. *)
Definition firstNameByte (c : ascii) : bool :=
  isLower c || isUpper c || isDigit c || has_byte c (str "_-").
Definition laterNameByte (c : ascii) : bool := firstNameByte c || Ascii.eqb c ".".

(** allowedWSTLSFileNameFormat.MatchString. *)
Definition allowedWSTLSFileNameFormat (name : gostring) : bool :=
  match name with
  | [] => false
  | c :: rest => firstNameByte c && forallb laterNameByte rest && (length rest <=? 63)%nat
  end.

Definition WSTLSFileNameIsValid (name : gostring) : bool :=
  allowedWSTLSFileNameFormat name && negb (HasSuffix name (str ".")) && negb (isReserved name).

Definition isAlphabetic (c : Z) : bool :=
  (code "a" <=? Z.lor c 32) && (Z.lor c 32 <=? code "z").

Definition IsWSTLSLocalPath (path : gostring) : bool :=
  match path with
  | c0 :: c1 :: c2 :: _ =>
      isAlphabetic (code c0) && Ascii.eqb c1 ":" && (Ascii.eqb c2 "\" || Ascii.eqb c2 "/")
  | _ => false
  end.

(** The runes that are kept; the others become an underscore each. *)
Definition keptRune (r : Z) : bool :=
  (r <? 128) && (isAlphabetic r || ((code "0" <=? r) && (r <=? code "9"))
                 || (r =? code "_") || (r =? code "-") || (r =? code ".")).

(** The extension that the name keeps when it is shortened or numbered. *)
Definition keptExt (name : gostring) : gostring :=
  let ext := Ext name in
  if (wsTLSFileNameMaxLen / 2 <? length ext)%nat then [] else ext.

Definition sanitizeWSTLSFileName (base : gostring) : gostring :=
  let b := map (fun r => if keptRune r then chr r else "_"%char) (rangeRunes base) in
  let name := Trim b (str ".") in
  match name with
  | [] => wsTLSFileNameFallback
  | _ =>
      let name := if isReserved name then str "_" ++ name else name in
      if (wsTLSFileNameMaxLen <? length name)%nat then
        let ext := keptExt name in
        TrimRight (take (wsTLSFileNameMaxLen - length ext) name) (str ".") ++ ext
      else name
  end.

(** The [i]-th candidate of uniqueWSTLSFileName's loop. A negative bound of the
    slice is the run-time panic it would be. *)
Definition uniqueCandidate (stem ext : gostring) (i : Z) : result gostring :=
  let suffix := str "-" ++ itoa i in
  let bound := Z.of_nat wsTLSFileNameMaxLen - Z.of_nat (length suffix) - Z.of_nat (length ext) in
  if (wsTLSFileNameMaxLen <? length stem + length suffix + length ext)%nat then
    if bound <? 0 then Err (ErrText "slice bounds out of range")
    else Ok (take (Z.to_nat bound) stem ++ suffix ++ ext)
  else Ok (stem ++ suffix ++ ext).

Section Unique.
Context `{UnicodeTables}.

Fixpoint uniqueLoop (fuel : nat) (stem ext : gostring) (taken : gset gostring) (i : Z)
    : result gostring :=
  match fuel with
  | O => Err (ErrText "out of fuel")
  | S fuel' =>
      let? candidate := uniqueCandidate stem ext i in
      if bool_decide (ToLower candidate ∈ taken) then uniqueLoop fuel' stem ext taken (i + 1)
      else Ok candidate
  end.

(** The number of candidates tried is at most one more than the names taken. *)
Definition uniqueWSTLSFileName (name : gostring) (taken : gset gostring) : result gostring :=
  if bool_decide (ToLower name ∉ taken) then Ok name
  else
    let ext := keptExt name in
    let stem := TrimSuffix name ext in
    uniqueLoop (S (size taken)) stem ext taken 2.
End Unique.

(** ** References *)

(** wsTLSReferences: the values at the pointers, in order. *)
Definition peerReferences (p : Peer) : list gostring :=
  List.filter (fun r => negb (bool_decide (r = []))) [pr_WSTLSCA p; pr_WSTLSCert p; pr_WSTLSKey p].

Definition wsTLSReferences (c : Config) : list gostring := concat (map peerReferences (c_Peers c)).

(** Writing new values through the pointers, in the same order. *)
Definition writeRef (old : gostring) (refs : list gostring) : gostring * list gostring :=
  if bool_decide (old = []) then (old, refs)
  else match refs with r :: refs' => (r, refs') | [] => (old, []) end.

Definition writePeerRefs (p : Peer) (refs : list gostring) : Peer * list gostring :=
  let '(ca, refs) := writeRef (pr_WSTLSCA p) refs in
  let '(cert, refs) := writeRef (pr_WSTLSCert p) refs in
  let '(key, refs) := writeRef (pr_WSTLSKey p) refs in
  (set_pr_WSTLSKey key (set_pr_WSTLSCert cert (set_pr_WSTLSCA ca p)), refs).

Fixpoint writePeersRefs (ps : list Peer) (refs : list gostring) : list Peer :=
  match ps with
  | [] => []
  | p :: ps' => let '(p', refs') := writePeerRefs p refs in p' :: writePeersRefs ps' refs'
  end.

Definition writeRefs (refs : list gostring) (c : Config) : Config :=
  set_c_Peers (writePeersRefs (c_Peers c) refs) c.

(** sort.Strings. *)
Definition stringLe (s t : gostring) : Prop := stringLess t s = false.
#[global] Instance stringLe_dec : RelDecision stringLe.
Proof. intros s t. unfold stringLe. apply _. Defined.

Fixpoint storedNames (seen : gset gostring) (refs : list gostring) : list gostring :=
  match refs with
  | [] => []
  | r :: refs' => if WSTLSFileNameIsValid r && bool_decide (r ∉ seen)
                  then r :: storedNames ({[r]} ∪ seen) refs'
                  else storedNames seen refs'
  end.

Definition WSTLSStoredFileNames (c : Config) : list gostring :=
  merge_sort stringLe (storedNames ∅ (wsTLSReferences c)).

(** ** Collecting *)

Section Collect.
Context `{UnicodeTables}.

(** The first loop: the names of stored files are claimed, one spelling for all
    that differ only in case. *)
Record claims : Type := mkClaims {
  cl_spellings : gmap gostring gostring;
  cl_names : gmap gostring gostring;
  cl_taken : gset gostring
}.

Definition claimName (cl : claims) (ref : gostring) : claims :=
  if WSTLSFileNameIsValid ref then
    let lower := ToLower ref in
    let spellings := match cl_spellings cl !! lower with
                     | Some _ => cl_spellings cl
                     | None => <[lower := ref]> (cl_spellings cl)
                     end in
    mkClaims spellings (<[ref := default [] (spellings !! lower)]> (cl_names cl))
             ({[lower]} ∪ cl_taken cl)
  else cl.

Definition claimNames (refs : list gostring) : claims :=
  fold_left claimName refs (mkClaims ∅ ∅ ∅).

Variable read : gostring -> result gostring.

(** The state of the second loop. *)
Record collecting : Type := mkCollecting {
  co_names : gmap gostring gostring;
  co_taken : gset gostring;
  co_stored : gmap gostring gostring;
  co_files : gmap gostring gostring
}.

Definition nameFor (st : collecting) (ref : gostring) : result (gostring * collecting) :=
  match co_names st !! ref with
  | Some name => Ok (name, st)
  | None =>
      let? name := uniqueWSTLSFileName (sanitizeWSTLSFileName (Base ref)) (co_taken st) in
      Ok (name, mkCollecting (<[ref := name]> (co_names st)) ({[ToLower name]} ∪ co_taken st)
                             (co_stored st) (co_files st))
  end.

Definition readRef (ref : gostring) : result gostring :=
  match read ref with
  | Err e => Err (ErrWrap "Unable to read TLS file %q" ref e)
  | Ok data => if MaxWSTLSFileSize <? Z.of_nat (length data)
               then Err (ParseError "TLS file is too large" ref) else Ok data
  end.

(** One reference: the name it is stored under, and the next state. *)
Definition collectRef (st : collecting) (ref : gostring) : result (gostring * collecting) :=
  let? (name, st) := nameFor st ref in
  let stored := <[ref := name]> (co_stored st) in
  match co_files st !! name with
  | Some _ => Ok (name, mkCollecting (co_names st) (co_taken st) stored (co_files st))
  | None =>
      let? data := readRef ref in
      Ok (name, mkCollecting (co_names st) (co_taken st) stored (<[name := data]> (co_files st)))
  end.

(** The second loop: the references that have been rewritten when it ends, and
    its outcome. *)
Fixpoint collectLoop (st : collecting) (refs : list gostring) : list gostring * result collecting :=
  match refs with
  | [] => ([], Ok st)
  | ref :: refs' =>
      match collectRef st ref with
      | Err e => (refs, Err e)
      | Ok (name, st') => let '(done, r) := collectLoop st' refs' in (name :: done, r)
      end
  end.

(** An error leaves the references before it rewritten. *)
Definition CollectWSTLSFiles (c : Config) : result (gmap gostring gostring) * Config :=
  let refs := wsTLSReferences c in
  let cl := claimNames refs in
  let '(refs', r) := collectLoop (mkCollecting (cl_names cl) (cl_taken cl) ∅ ∅) refs in
  let c' := writeRefs refs' c in
  match r with
  | Err e => (Err e, c')
  | Ok st =>
      if (MaxWSTLSFiles <? size (co_files st))%nat
      then (Err (ParseError "Too many TLS files" (itoa (Z.of_nat (size (co_files st))))), c')
      else (Ok (co_stored st), set_c_WSTLSFiles (co_files st) c')
  end.
End Collect.

(** ** Validating *)

Section Validate.
Context `{UnicodeTables}.

(** One reference; [referenced] are the stored names seen so far. *)
Definition validateRef (files : gmap gostring gostring) (referenced : gset gostring) (ref : gostring)
    : result (gset gostring) :=
  if WSTLSFileNameIsValid ref then
    match files !! ref with
    | None => Err (ParseError "Missing contents of stored TLS file" ref)
    | Some _ => Ok ({[ref]} ∪ referenced)
    end
  else if negb (IsWSTLSLocalPath ref) then
    Err (ParseError "TLS file must be a stored file name or an absolute local path" ref)
  else Ok referenced.

Definition validateFile (referenced : gset gostring) (lowerNames : gset gostring)
    (entry : gostring * gostring) : result (gset gostring) :=
  let '(name, data) := entry in
  if bool_decide (ToLower name ∈ lowerNames) then
    Err (ParseError "Stored TLS file names must differ in more than letter case" name)
  else if negb (WSTLSFileNameIsValid name) || bool_decide (name ∉ referenced) then
    Err (ParseError "Unexpected stored TLS file" name)
  else if MaxWSTLSFileSize <? Z.of_nat (length data) then
    Err (ParseError "TLS file is too large" name)
  else Ok ({[ToLower name]} ∪ lowerNames).

(** [order] is the order in which the map of files is ranged over. *)
Definition ValidateWSTLSFiles (order : list (gostring * gostring)) (c : Config) : result unit :=
  let? referenced := rfold (validateRef (c_WSTLSFiles c)) ∅ (wsTLSReferences c) in
  if (MaxWSTLSFiles <? size (c_WSTLSFiles c))%nat then
    Err (ParseError "Too many TLS files" (itoa (Z.of_nat (size (c_WSTLSFiles c)))))
  else
    let? _ := rfold (validateFile referenced) ∅ order in
    Ok tt.
End Validate.

(** ** Reading *)

(** What os.Stat and os.ReadFile find at a path, and filepath.Join for Windows. *)
Class Disk := {
  disk_size : gostring -> result Z;
  disk_read : gostring -> result gostring;
  disk_join : gostring -> gostring -> gostring
}.

Definition WSTLSFileReader `{Disk} (known : gmap gostring gostring) (baseDir ref : gostring)
    : result gostring :=
  match known !! ToSlash ref with
  | Some data => Ok data
  | None =>
      if IsAbs ref && negb (IsWSTLSLocalPath ref) then Err (ErrText "the path must be on a local drive")
      else
        let? path := if negb (IsAbs ref) then
                       if bool_decide (baseDir = [])
                       then Err (ErrText "the path must be absolute or the name of a file stored with the tunnel")
                       else Ok (disk_join baseDir ref)
                     else Ok ref in
        let? size := disk_size path in
        if MaxWSTLSFileSize <? size then Err (ErrText "the file is too large")
        else disk_read path
  end.

(** An entry of an archive: its declared size, whether it opens, the bytes that
    decompressing it yields and the error that ends them, if any. *)
Record zipFile : Type := mkZipFile {
  zf_UncompressedSize64 : Z;
  zf_Open : result unit;
  zf_data : gostring;
  zf_error : option goerr
}.

(** io.ReadAll of an io.LimitReader of [n] bytes. *)
Definition readLimited (n : nat) (f : zipFile) : result gostring :=
  if (n <=? length (zf_data f))%nat then Ok (take n (zf_data f))
  else match zf_error f with Some e => Err e | None => Ok (zf_data f) end.

Definition readZipFile (f : zipFile) : result gostring :=
  if MaxWSTLSFileSize <? zf_UncompressedSize64 f then Err (ErrText "the file is too large")
  else
    let? _ := zf_Open f in
    let? data := readLimited (Z.to_nat (MaxWSTLSFileSize + 1)) f in
    if MaxWSTLSFileSize <? Z.of_nat (length data) then Err (ErrText "the file is too large")
    else Ok data.

Definition WSTLSZipFileReader `{Disk} (files : gmap gostring zipFile) (confPath ref : gostring)
    : result gostring :=
  let dir := SlashPath.Dir confPath in
  let name := TrimSuffix (SlashPath.SlashBase confPath) (SlashPath.SlashExt confPath) in
  if IsAbs ref then WSTLSFileReader ∅ [] ref
  else
    let rel := ToSlash ref in
    match files !! SlashPath.JoinPath [dir; name; rel] with
    | Some f => readZipFile f
    | None => match files !! SlashPath.JoinPath [dir; rel] with
              | Some f => readZipFile f
              | None => Err (ErrText "the file is not in the archive")
              end
    end.
