(* ===== verification/WSTLSNames.v ===== *)
(** * Stored TLS file names: what sanitizing and numbering guarantee *)

From S2P Require Import Prelude GoStrings GoNum Netip Config Name Paths WSTLS.
Local Open Scope Z_scope.

Lemma Ok_inj {A} (a b : A) : Ok a = Ok b -> a = b.
Proof. congruence. Qed.

(** ** Bytes *)

Lemma firstNameByte_facts c :
  firstNameByte c = true ->
  isASCII c = true /\ isSeparator c = false /\ c <> "."%char.
Proof.
  intros Hc. pose proof (code_cases (fun c => negb (firstNameByte c)
    || (isASCII c && negb (isSeparator c) && negb (Ascii.eqb c "."))) eq_refl c) as H.
  cbn beta in H. rewrite Hc in H. cbn [negb orb] in H.
  rewrite !andb_true_iff, !negb_true_iff, Ascii.eqb_neq in H. naive_solver.
Qed.

Lemma laterNameByte_facts c : laterNameByte c = true -> isASCII c = true /\ isSeparator c = false.
Proof.
  unfold laterNameByte. rewrite orb_true_iff, Ascii.eqb_eq. intros [H | ->]; [|done].
  by apply firstNameByte_facts in H as (? & ? & ?).
Qed.

Lemma first_later c : firstNameByte c = true -> laterNameByte c = true.
Proof. unfold laterNameByte. by intros ->. Qed.

Lemma later_first c : laterNameByte c = true -> c <> "."%char -> firstNameByte c = true.
Proof. unfold laterNameByte. rewrite orb_true_iff, Ascii.eqb_eq. naive_solver. Qed.

Lemma isAlphabetic_nonneg r : isAlphabetic r = true -> 0 <= r.
Proof.
  unfold isAlphabetic. intros [H _]%andb_prop. apply Z.leb_le in H.
  destruct (Z.lor_nonneg r 32) as [Hn _]. apply Hn. change (code "a") with 97 in H. lia.
Qed.

Lemma keptRune_byte r : keptRune r = true -> laterNameByte (chr r) = true.
Proof.
  intros Hk. assert (Hr : 0 <= r < 128).
  { unfold keptRune in Hk. apply andb_prop in Hk as [Hlt%Z.ltb_lt Hk].
    rewrite !orb_true_iff, andb_true_iff, !Z.eqb_eq, !Z.leb_le in Hk.
    destruct Hk as [[[[?%isAlphabetic_nonneg|[? _]]|?]|?]|?]; [lia| |subst r..];
      change (code "0") with 48 in *; [lia|vm_compute; by split..]. }
  revert Hk. apply implb_true_iff.
  apply (Forall_Z_range (fun z => implb (keptRune z) (laterNameByte (chr z))) 128); [done|lia].
Qed.

(** ** The shape of valid names *)

Abbreviation nameBytes s := (Forall (fun c => laterNameByte c = true) s).

(** [s] starts with a byte that is not a dot. *)
Definition startsPlain (s : gostring) : Prop :=
  match s with [] => False | c :: _ => c <> "."%char end.

Lemma WSTLSFileNameIsValid_spec name :
  WSTLSFileNameIsValid name = true <->
  nameBytes name /\ startsPlain name /\ (length name <= 64)%nat
  /\ HasSuffix name (str ".") = false /\ isReserved name = false.
Proof.
  unfold WSTLSFileNameIsValid, allowedWSTLSFileNameFormat.
  rewrite !andb_true_iff, !negb_true_iff. destruct name as [|c rest]; [naive_solver|].
  rewrite !andb_true_iff, Nat.leb_le, Forall_cons, forallb_forall, Forall_forall.
  setoid_rewrite list_elem_of_In. cbn [startsPlain length]. split.
  - intros [[[[H1 H2] H3] H4] H5]. pose proof (firstNameByte_facts c H1) as (_ & _ & ?).
    auto 10 using first_later with lia.
  - intros ([H1 H2] & H3 & H4 & H5 & H6). auto 10 using later_first with lia.
Qed.

Lemma nameBytes_ascii s : nameBytes s -> forallb isASCII s = true.
Proof.
  intros H. apply forallb_forall. intros c Hc%list_elem_of_In. rewrite Forall_forall in H.
  by apply H, laterNameByte_facts in Hc as [? _].
Qed.

Lemma nameBytes_nosep s : nameBytes s -> Forall (fun c => isSeparator c = false) s.
Proof. intros H. eapply Forall_impl; [exact H|]. intros c Hc. by apply laterNameByte_facts. Qed.

Lemma valid_bytes name : WSTLSFileNameIsValid name = true -> nameBytes name.
Proof. by intros (? & _)%WSTLSFileNameIsValid_spec. Qed.

Lemma nodot_HasSuffix s t :
  t <> [] -> HasSuffix t (str ".") = false -> HasSuffix (s ++ t) (str ".") = false.
Proof.
  intros Ht. rewrite <- !not_true_iff_false, !HasSuffix_spec. intros H (u & Hu).
  destruct t as [|c t _] using rev_ind; [done|].
  rewrite (assoc_L (++)) in Hu. apply app_inj_tail in Hu as [_ ->]. apply H. by exists t.
Qed.

Lemma HasSuffix_dot_last s : HasSuffix s (str ".") = false <-> last s <> Some "."%char.
Proof.
  rewrite <- not_true_iff_false, HasSuffix_spec. destruct s as [|c s _] using rev_ind.
  - split; [done|]. intros _ (t & Ht). by destruct t.
  - rewrite last_snoc. split.
    + intros H [= ->]. apply H. by exists s.
    + intros H (t & Ht). apply app_inj_tail in Ht as [_ ->]. done.
Qed.

(** ** Reserved names *)

Definition firstPart (name : gostring) : gostring := (Cut name ["."%char]).1.1.

Lemma isReserved_part name : isReserved name = existsb (EqualFoldASCII (firstPart name)) reservedNames.
Proof. unfold isReserved, firstPart. change (str ".") with ["."%char]. by destruct (Cut name ["."%char]) as [[? ?] ?]. Qed.

(** A reserved part has at most four bytes, and neither hyphen nor underscore. *)
Lemma isReserved_true name :
  isReserved name = true ->
  (length (firstPart name) <= 4)%nat /\ "-"%char ∉ firstPart name /\ "_"%char ∉ firstPart name.
Proof.
  rewrite isReserved_part, existsb_exists. intros (r & Hr & E).
  unfold EqualFoldASCII in E. apply bool_decide_eq_true in E.
  assert (Hall : forallb (fun r => (length r <=? 4)%nat && negb (has_byte "-" (map lowerByte r))
                  && negb (has_byte "_" (map lowerByte r))) reservedNames = true) by done.
  rewrite forallb_forall in Hall. apply Hall in Hr.
  rewrite !andb_true_iff, !negb_true_iff, !has_byte_false, Nat.leb_le, <- E in Hr.
  destruct Hr as [[H1 H2] H3]. apply (f_equal length) in E. rewrite !length_map in E.
  split; [lia|]. split; intros Hin.
  - apply H2. apply list_elem_of_fmap. by exists "-"%char.
  - apply H3. apply list_elem_of_fmap. by exists "_"%char.
Qed.

(** The first part of a text that has its first dot inside [p]. *)
Lemma firstPart_app_dot p s : "."%char ∈ p -> firstPart (p ++ s) = firstPart p.
Proof.
  intros Hp. apply list_elem_of_split in Hp as (p1 & p2 & ->).
  destruct (decide ("."%char ∈ p1)) as [H|H].
  - apply list_elem_of_split_l in H as (q1 & q2 & -> & Hq). unfold firstPart.
    rewrite <- !(assoc_L (++)). cbn [app]. by rewrite !Cut_app.
  - unfold firstPart. rewrite <- (assoc_L (++)). cbn [app]. by rewrite !Cut_app.
Qed.

Lemma firstPart_nodot p s :
  "."%char ∉ p -> (s = [] \/ exists t, s = "."%char :: t) -> firstPart (p ++ s) = p.
Proof.
  unfold firstPart. intros Hp [-> | (t & ->)].
  - by rewrite app_nil_r, Cut_notin.
  - by rewrite Cut_app.
Qed.

Lemma firstPart_prefix p s : "."%char ∉ p -> exists q, firstPart (p ++ s) = p ++ q.
Proof.
  intros Hp. destruct (decide ("."%char ∈ s)) as [H|H].
  - apply list_elem_of_split_l in H as (s1 & s2 & -> & H). exists s1.
    unfold firstPart. rewrite (assoc_L (++)), Cut_app; [done|]. set_solver.
  - exists s. unfold firstPart. rewrite Cut_notin; [done|]. set_solver.
Qed.

(** A name is not reserved when its start holds a hyphen or is long before any
    dot, or when it has the first part of a name that is not. *)
Lemma unreserved_start p s :
  "."%char ∉ p -> ("-"%char ∈ p \/ "_"%char ∈ p \/ (4 < length p)%nat) -> isReserved (p ++ s) = false.
Proof.
  intros Hp Hc. apply not_true_iff_false. intros (Hl & Hh & Hu)%isReserved_true.
  destruct (firstPart_prefix p s Hp) as (q & Eq). rewrite Eq in *. rewrite length_app in Hl.
  destruct Hc as [Hc|[Hc|Hc]]; [set_solver|set_solver|lia].
Qed.

Lemma unreserved_same a b : firstPart a = firstPart b -> isReserved a = false -> isReserved b = false.
Proof. rewrite !isReserved_part. by intros ->. Qed.

(** ** Extensions *)

(** The extension a name keeps: nothing, or a short suffix that starts with its
    only dot and has more than that. *)
Lemma keptExt_spec name :
  nameBytes name -> startsPlain name -> HasSuffix name (str ".") = false ->
  exists stem, name = stem ++ keptExt name /\ startsPlain stem /\ (length (keptExt name) <= 32)%nat
  /\ (keptExt name = [] \/ exists after, keptExt name = "."%char :: after /\ after <> [])
  /\ TrimSuffix name (keptExt name) = stem.
Proof.
  intros Hb Hs Hd. unfold keptExt. change (wsTLSFileNameMaxLen / 2)%nat with 32%nat.
  assert (Hnil : exists stem, name = stem ++ [] /\ startsPlain stem /\ (length (@nil ascii) <= 32)%nat
    /\ (@nil ascii = [] \/ exists after, @nil ascii = "."%char :: after /\ after <> [])
    /\ TrimSuffix name [] = stem).
  { exists name. rewrite app_nil_r. split; [done|]. split; [done|]. split; [cbn; lia|].
    split; [by left|]. rewrite <- (app_nil_r name) at 1. apply TrimSuffix_app. }
  destruct (Ext_name name (nameBytes_nosep _ Hb)) as [[_ ->]|(stem & after & En & Ha & ->)]; [done|].
  destruct (Nat.ltb_spec 32 (length ("."%char :: after))); [done|].
  exists stem. split; [done|]. split.
  { destruct stem; [|by rewrite En in Hs]. by rewrite En in Hs. }
  split; [done|]. split.
  - right. exists after. split; [done|]. intros ->. rewrite En in Hd.
    assert (HasSuffix (stem ++ ["."%char]) (str ".") = true) as Hx by (apply HasSuffix_spec; by exists stem).
    congruence.
  - rewrite En. apply TrimSuffix_app.
Qed.

(** ** Sanitizing *)

Lemma nameBytes_TrimRight s cutset : nameBytes s -> nameBytes (TrimRight s cutset).
Proof. rewrite !Forall_forall. intros H c Hc. by eapply H, TrimRight_elem. Qed.

(** TrimRight keeps a prefix, and what it removes is in the cut set. *)
Lemma TrimRight_prefix s cutset :
  exists t, s = TrimRight s cutset ++ t /\ Forall (fun c => c ∈ cutset) t.
Proof.
  unfold TrimRight. generalize s. clear s. intros s. induction s as [|c s IH] using rev_ind.
  - by exists [].
  - rewrite reverse_snoc. cbn [dropWhile]. destruct (has_byte c cutset) eqn:E.
    + destruct IH as (t & Ht & HF). exists (t ++ [c]). split.
      * rewrite (assoc_L (++)). by rewrite <- Ht.
      * apply Forall_app. split; [done|]. apply Forall_singleton. by apply has_byte_spec.
    + exists []. rewrite app_nil_r. split; [|constructor].
      by rewrite reverse_cons, reverse_involutive.
Qed.

Lemma startsPlain_TrimRight s : startsPlain s -> startsPlain (TrimRight s (str ".")).
Proof.
  intros Hs. destruct (TrimRight_prefix s (str ".")) as (t & Et & Ht).
  destruct (TrimRight s (str ".")) as [|c u]; cbn [app] in Et.
  - subst t. destruct s as [|c s]; [done|]. rewrite Forall_cons in Ht. destruct Ht as [Ht _].
    cbn in *. set_solver.
  - by rewrite Et in Hs.
Qed.

Lemma startsPlain_app s t : startsPlain s -> startsPlain (s ++ t).
Proof. by destruct s. Qed.

Lemma startsPlain_pos s : startsPlain s -> (0 < length s)%nat.
Proof. destruct s; [done|cbn; lia]. Qed.

Lemma startsPlain_take n s : (0 < n)%nat -> startsPlain s -> startsPlain (take n s).
Proof. intros Hn. destruct n; [lia|]. by destruct s. Qed.

Lemma Trim_dot s :
  Trim s (str ".") = [] \/ startsPlain (Trim s (str ".")) /\ HasSuffix (Trim s (str ".")) (str ".") = false.
Proof.
  unfold Trim. pose proof (dropWhile_spec (fun c => has_byte c (str ".")) s) as (p & _ & Hf).
  destruct (dropWhile _ s) as [|c r] eqn:E; [by left|]. right. split.
  - apply startsPlain_TrimRight. apply has_byte_false in Hf. cbn in *. set_solver.
  - apply HasSuffix_dot_last. intros H. apply (TrimRight_rclean _ _ _ H). cbn. set_solver.
Qed.

Lemma nameBytes_Trim s cutset : nameBytes s -> nameBytes (Trim s cutset).
Proof.
  intros H. unfold Trim. apply nameBytes_TrimRight.
  destruct (dropWhile_spec (fun c => has_byte c cutset) s) as (p & E & _).
  rewrite E in H. by apply Forall_app in H as [_ H].
Qed.

Lemma TrimRight_nodot_suffix s : HasSuffix (TrimRight s (str ".")) (str ".") = false.
Proof. apply HasSuffix_dot_last. intros H. apply (TrimRight_rclean _ _ _ H). cbn. set_solver. Qed.

(** The first part is kept when trailing dots are trimmed. *)
Lemma firstPart_TrimRight s : startsPlain s -> firstPart (TrimRight s (str ".")) = firstPart s.
Proof.
  intros Hs. destruct (TrimRight_prefix s (str ".")) as (t & Et & Ht).
  destruct (decide ("."%char ∈ TrimRight s (str "."))) as [Hd|Hd].
  - rewrite Et at 2. by rewrite firstPart_app_dot.
  - rewrite Et at 2. rewrite (firstPart_nodot _ t Hd).
    + rewrite <- (app_nil_r (TrimRight _ _)) at 1. rewrite firstPart_nodot; [done|done|by left].
    + destruct t as [|c t]; [by left|]. right. exists t. f_equal.
      apply Forall_cons in Ht as [Ht _]. cbn in Ht. set_solver.
Qed.

(** Shortening keeps a name valid. *)
Lemma shorten_valid name :
  nameBytes name -> startsPlain name -> HasSuffix name (str ".") = false -> isReserved name = false ->
  (64 < length name)%nat ->
  WSTLSFileNameIsValid
    (TrimRight (take (64 - length (keptExt name)) name) (str ".") ++ keptExt name) = true.
Proof.
  intros Hb Hs Hd Hr Hl. destruct (keptExt_spec name Hb Hs Hd) as (stem & En & Hst & Hle & Hext & _).
  remember (keptExt name) as ext eqn:Hk. clear Hk.
  assert (Hbe : nameBytes ext) by (rewrite En in Hb; by apply Forall_app in Hb as [_ ?]).
  pose proof (startsPlain_take (64 - length ext) name ltac:(lia) Hs) as Hst'.
  assert (Hde : ext = [] \/ ext <> [] /\ HasSuffix ext (str ".") = false).
  { destruct Hext as [->|(after & -> & Ha)]; [by left|]. right. split; [done|].
    apply HasSuffix_dot_last. rewrite HasSuffix_dot_last, En, last_app in Hd.
    by destruct (last ("."%char :: after)). }
  apply WSTLSFileNameIsValid_spec. split; [|split; [|split; [|split]]].
  - apply Forall_app. split; [|done]. apply nameBytes_TrimRight. by apply Forall_take.
  - by apply startsPlain_app, startsPlain_TrimRight.
  - rewrite length_app. destruct (TrimRight_prefix (take (64 - length ext) name) (str ".")) as (t & Et & _).
    apply (f_equal length) in Et. rewrite length_app, length_take in Et. lia.
  - destruct Hde as [->|[Hne Hde]]; [rewrite app_nil_r; apply TrimRight_nodot_suffix|].
    by apply nodot_HasSuffix.
  - set (p := take (64 - length ext) name) in *. destruct (decide ("."%char ∈ p)) as [Hp|Hp].
    + eapply unreserved_same; [|exact Hr].
      rewrite <- (take_drop (64 - length ext) name), firstPart_app_dot by done.
      fold p. rewrite <- (firstPart_TrimRight p) by done.
      destruct (decide ("."%char ∈ TrimRight p (str "."))) as [Hq|Hq]; [by rewrite firstPart_app_dot|].
      rewrite (firstPart_nodot _ ext Hq) by (destruct Hext as [->|(? & -> & _)]; eauto).
      rewrite <- (app_nil_r (TrimRight p _)) at 1. by rewrite firstPart_nodot by eauto.
    + apply unreserved_start; [intros Hq; by apply TrimRight_elem in Hq|]. right. right.
      assert (rclean (str ".") p) as Hc.
      { intros c Hc%last_Some_elem_of Hin. apply Hp. cbn in Hin. set_solver. }
      rewrite TrimRight_id by done. unfold p. rewrite length_take. lia.
Qed.

(** The name derived from any file name is a valid stored name. *)
Lemma sanitize_valid base : WSTLSFileNameIsValid (sanitizeWSTLSFileName base) = true.
Proof.
  unfold sanitizeWSTLSFileName. set (b := map _ _).
  assert (Hb : nameBytes b).
  { apply Forall_fmap, Forall_forall. intros r _. cbn. destruct (keptRune r) eqn:E; [|done].
    by apply keptRune_byte. }
  destruct (Trim_dot b) as [->|[Hs Hd]]; [done|]. apply (nameBytes_Trim b (str ".")) in Hb.
  destruct (Trim b (str ".")) as [|c rest] eqn:Et; [done|]. rewrite <- Et in *. clear c rest Et.
  set (t := Trim b (str ".")) in *. clearbody t. clear b.
  set (name := if isReserved t then str "_" ++ t else t).
  assert (nameBytes name /\ startsPlain name /\ HasSuffix name (str ".") = false
          /\ isReserved name = false) as (Hb' & Hs' & Hd' & Hr').
  { unfold name. destruct (isReserved t) eqn:Hr; [|done]. split; [by constructor|]. split; [done|].
    split; [apply nodot_HasSuffix; [by destruct t|done]|].
    apply unreserved_start; cbn; set_solver. }
  clearbody name. change wsTLSFileNameMaxLen with 64%nat.
  destruct (Nat.ltb_spec 64 (length name)); [by apply shorten_valid|].
  by apply WSTLSFileNameIsValid_spec.
Qed.

(** ** Numbering *)

Lemma format_length base n z k :
  2 <= base -> 0 <= z < base ^ Z.of_nat k -> (0 < k)%nat -> (length (format base n z) <= k)%nat.
Proof.
  intros Hb. revert z k. induction n as [|n IH]; intros z k Hz Hk; cbn [format]; [cbn; lia|].
  destruct (Z.ltb_spec z base); [cbn; lia|]. rewrite length_app. cbn [length].
  destruct k as [|[|k]]; [lia|cbn in Hz; lia|].
  assert (length (format base n (z / base)) <= S k)%nat; [|lia].
  apply IH; [|lia]. split; [apply Z.div_pos; lia|]. apply Z.div_lt_upper_bound; [lia|].
  rewrite (Nat2Z.inj_succ (S k)), Z.pow_succ_r in Hz by lia. lia.
Qed.

Lemma itoa_length z : 0 <= z < 2 ^ 63 -> (1 <= length (itoa z) <= 19)%nat.
Proof.
  intros Hz. split.
  - pose proof (itoa_nonempty z) as H. destruct (itoa z); [done|cbn; lia].
  - apply format_length; [lia| |lia]. change (10 ^ Z.of_nat 19) with 10000000000000000000. lia.
Qed.

Lemma itoa_bytes z : 0 <= z -> Forall (fun c => isDigit c = true) (itoa z).
Proof.
  intros Hz. eapply Forall_impl; [apply FormatUint_digits; lia|].
  intros c (d & Hd & ->). apply (Forall_Z_range (fun d => isDigit (digitChar d)) 10); [done|lia].
Qed.

Lemma digit_facts c : isDigit c = true -> laterNameByte c = true /\ c <> "."%char /\ lowerByte c = c.
Proof.
  intros Hc. pose proof (code_cases (fun c => negb (isDigit c)
    || (laterNameByte c && negb (Ascii.eqb c ".") && Ascii.eqb (lowerByte c) c)) eq_refl c) as H.
  cbn beta in H. rewrite Hc in H. cbn [negb orb] in H.
  rewrite !andb_true_iff, !negb_true_iff, Ascii.eqb_neq, Ascii.eqb_eq in H. naive_solver.
Qed.

Section Candidates.
Context (stem ext : gostring).
Context (Hstem : startsPlain stem) (Hbytes : nameBytes (stem ++ ext)) (Hlen : (length ext <= 32)%nat)
  (Hext : ext = [] \/ exists after, ext = "."%char :: after /\ after <> [])
  (Hdot : HasSuffix (stem ++ ext) (str ".") = false) (Hres : isReserved (stem ++ ext) = false).

(** Every candidate exists: it is a prefix of the stem, a number and the
    extension, within the limit. *)
Lemma uniqueCandidate_shape i :
  0 <= i < 2 ^ 63 -> exists n, (0 < n)%nat
    /\ uniqueCandidate stem ext i = Ok (take n stem ++ (str "-" ++ itoa i) ++ ext)
    /\ (length (take n stem ++ (str "-" ++ itoa i) ++ ext) <= 64)%nat.
Proof.
  intros Hi. pose proof (itoa_length i Hi) as Hl. unfold uniqueCandidate.
  change wsTLSFileNameMaxLen with 64%nat.
  assert (Hs : length (str "-" ++ itoa i) = S (length (itoa i))) by done.
  destruct (Nat.ltb_spec 64 (length stem + length (str "-" ++ itoa i) + length ext)) as [Hgt|Hle].
  - destruct (Z.ltb_spec (Z.of_nat 64 - Z.of_nat (length (str "-" ++ itoa i)) - Z.of_nat (length ext)) 0); [lia|].
    eexists. split; [|split; [reflexivity|]]; [lia|].
    rewrite !length_app, length_take in *. cbn [length str String.list_ascii_of_string] in *. lia.
  - exists (length stem). split; [by apply startsPlain_pos|].
    rewrite firstn_all. split; [done|]. rewrite !length_app in *. lia.
Qed.

Lemma uniqueCandidate_valid i name :
  0 <= i < 2 ^ 63 -> uniqueCandidate stem ext i = Ok name -> WSTLSFileNameIsValid name = true.
Proof.
  intros Hi E. destruct (uniqueCandidate_shape i Hi) as (n & Hn & E' & Hl).
  rewrite E' in E. apply Ok_inj in E as <-. apply Forall_app in Hbytes as [Hb1 Hb2].
  pose proof (itoa_bytes i ltac:(lia)) as Hdig.
  apply WSTLSFileNameIsValid_spec. split; [|split; [|split; [done|split]]].
  - apply Forall_app. split; [by apply Forall_take|]. apply Forall_app. split; [|done].
    apply Forall_app. split; [by repeat constructor|]. eapply Forall_impl; [exact Hdig|].
    intros c Hc. by apply digit_facts.
  - by apply startsPlain_app, startsPlain_take.
  - apply nodot_HasSuffix; [done|]. destruct Hext as [->|(after & -> & Ha)].
    + rewrite app_nil_r. apply nodot_HasSuffix; [apply itoa_nonempty|].
      apply HasSuffix_dot_last. intros Hl'%last_Some_elem_of. rewrite Forall_forall in Hdig.
      by apply Hdig, digit_facts in Hl' as (_ & ? & _).
    + apply nodot_HasSuffix; [done|]. rewrite HasSuffix_dot_last, last_app in Hdot.
      apply HasSuffix_dot_last. by destruct (last ("."%char :: after)).
  - destruct (decide ("."%char ∈ take n stem)) as [Hp|Hp].
    + eapply unreserved_same; [|exact Hres].
      rewrite <- (take_drop n stem), <- (assoc_L (++)). rewrite take_drop.
      by rewrite !firstPart_app_dot.
    + rewrite <- (assoc_L (++)), (assoc_L (++)). apply unreserved_start; [|left; set_solver].
      cbn. set_solver.
Qed.

(** Different numbers give names that differ in more than letter case. *)
Lemma uniqueCandidate_inj i j a b :
  0 <= i < 2 ^ 63 -> 0 <= j < 2 ^ 63 ->
  uniqueCandidate stem ext i = Ok a -> uniqueCandidate stem ext j = Ok b ->
  map lowerByte a = map lowerByte b -> i = j.
Proof.
  intros Hi Hj Ea Eb.
  destruct (uniqueCandidate_shape i Hi) as (n & _ & Ei & _). rewrite Ei in Ea. apply Ok_inj in Ea as <-.
  destruct (uniqueCandidate_shape j Hj) as (m & _ & Ej & _). rewrite Ej in Eb. apply Ok_inj in Eb as <-.
  rewrite !(assoc_L (++)), !(map_app _ _ ext). intros E%app_inv_tail. rewrite !map_app in E.
  assert (Hd : forall z, 0 <= z -> map lowerByte (itoa z) = itoa z).
  { intros z Hz. rewrite <- (map_id (itoa z)) at 2. apply map_ext_in. intros c Hc%list_elem_of_In.
    pose proof (itoa_bytes z Hz) as HF. rewrite Forall_forall in HF. by apply HF, digit_facts in Hc as (_ & _ & ?). }
  rewrite !Hd in E by lia. rewrite <- !(assoc_L (++)) in E.
  change (map lowerByte (str "-")) with ["-"%char] in E. cbn [app] in E.
  assert (Hno : forall z, 0 <= z -> "-"%char ∉ itoa z) by (intros z Hz; apply itoa_notin; [done|cbn; set_solver]).
  apply (f_equal (cut_last "-")) in E.
  rewrite !cut_last_app in E by (apply Hno; lia). assert (En : itoa i = itoa j) by congruence.
  apply (f_equal Atoi) in En. rewrite !Atoi_itoa in En by (unfold maxInt; lia). congruence.
Qed.

Context `{UnicodeTables}.

Lemma lower_candidate i name :
  0 <= i < 2 ^ 63 -> uniqueCandidate stem ext i = Ok name -> ToLower name = map lowerByte name.
Proof.
  intros Hi E. apply ToLower_ascii, nameBytes_ascii, valid_bytes. by eapply uniqueCandidate_valid.
Qed.

(** The loop returns a free candidate, or every candidate it tried is taken. *)
Lemma uniqueLoop_spec fuel taken i :
  0 <= i -> i + Z.of_nat fuel < 2 ^ 63 ->
  (exists j name, i <= j < i + Z.of_nat fuel /\ uniqueCandidate stem ext j = Ok name
     /\ ToLower name ∉ taken /\ uniqueLoop fuel stem ext taken i = Ok name)
  \/ (forall j name, i <= j < i + Z.of_nat fuel -> uniqueCandidate stem ext j = Ok name ->
        ToLower name ∈ taken).
Proof.
  revert i; induction fuel as [|fuel IH]; intros i Hi Hf; [right; lia|].
  cbn [uniqueLoop]. destruct (uniqueCandidate_shape i ltac:(lia)) as (n & _ & E & _).
  rewrite E. cbn [rbind]. case_bool_decide as Hin.
  - destruct (IH (i + 1) ltac:(lia) ltac:(lia)) as [(j & name & Hj & Hr)|Hall].
    + left. exists j, name. split; [lia|done].
    + right. intros j name Hj Ej. destruct (decide (j = i)) as [->|]; [congruence|].
      apply (Hall j); [lia|done].
  - left. exists i, (take n stem ++ (str "-" ++ itoa i) ++ ext). split; [lia|done].
Qed.

(** More candidates than taken names: one is free. *)
Lemma uniqueLoop_free taken :
  Z.of_nat (size taken) < 2 ^ 62 ->
  exists name, uniqueLoop (S (size taken)) stem ext taken 2 = Ok name
    /\ WSTLSFileNameIsValid name = true /\ ToLower name ∉ taken.
Proof.
  intros Hsz. destruct (uniqueLoop_spec (S (size taken)) taken 2) as [(j & name & Hj & Ej & Hn & E)|Hall];
    [lia|lia| |].
  { exists name. split; [done|]. split; [|done]. eapply uniqueCandidate_valid; [|exact Ej]. lia. }
  exfalso. set (cand i := default [] (match uniqueCandidate stem ext (Z.of_nat i) with Ok a => Some (ToLower a) | Err _ => None end)).
  assert (Hc : forall i, (2 <= i < 2 + S (size taken))%nat -> exists a,
             uniqueCandidate stem ext (Z.of_nat i) = Ok a /\ cand i = map lowerByte a /\ cand i ∈ taken).
  { intros i Hi. destruct (uniqueCandidate_shape (Z.of_nat i) ltac:(lia)) as (n & _ & E & _).
    eexists. split; [exact E|]. unfold cand. rewrite E. cbn [default].
    split; [eapply lower_candidate; [|exact E]; lia|]. eapply Hall; [|exact E]. lia. }
  assert (Hnd : NoDup (map cand (seq 2 (S (size taken))))).
  { apply NoDup_fmap_2_strong; [|apply NoDup_seq]. intros x y Hx%elem_of_seq Hy%elem_of_seq Exy.
    destruct (Hc x ltac:(lia)) as (a & Ea & Ca & _), (Hc y ltac:(lia)) as (b & Eb & Cb & _).
    apply Nat2Z.inj. eapply uniqueCandidate_inj; [..|exact Ea|exact Eb|]; [lia|lia|congruence]. }
  assert (Hsub : list_to_set (map cand (seq 2 (S (size taken)))) ⊆ taken).
  { intros x (i & -> & Hi%elem_of_seq)%elem_of_list_to_set%list_elem_of_fmap.
    destruct (Hc i ltac:(lia)) as (_ & _ & _ & ?). done. }
  apply subseteq_size in Hsub. rewrite size_list_to_set, length_map, length_seq in Hsub by done. lia.
Qed.
End Candidates.

(** From a valid name, uniqueWSTLSFileName ends with a valid name that is free. *)
Lemma unique_valid `{UnicodeTables} name taken :
  WSTLSFileNameIsValid name = true -> Z.of_nat (size taken) < 2 ^ 62 ->
  exists name', uniqueWSTLSFileName name taken = Ok name'
    /\ WSTLSFileNameIsValid name' = true /\ ToLower name' ∉ taken.
Proof.
  intros Hv Hsz. unfold uniqueWSTLSFileName. case_bool_decide as Hin; [by exists name|].
  apply WSTLSFileNameIsValid_spec in Hv as (Hb & Hs & Hl & Hd & Hr).
  destruct (keptExt_spec name Hb Hs Hd) as (stem & En & Hst & Hle & Hext & Ht). rewrite Ht.
  rewrite En in Hb, Hd, Hr. by apply uniqueLoop_free.
Qed.
