(* ===== verification/WSTLSCollect.v ===== *)
(** * Collecting TLS files yields what the store accepts *)

From S2P Require Import Prelude GoStrings GoNum Netip Config Name Paths WSTLS WSTLSNames.
Local Open Scope Z_scope.

(** ** Writing references back *)

Definition clearRefs (p : Peer) : Peer :=
  set_pr_WSTLSKey [] (set_pr_WSTLSCert [] (set_pr_WSTLSCA [] p)).

Abbreviation nonempty := (fun r : gostring => r <> []).

Lemma peerReferences_nonempty p : Forall nonempty (peerReferences p).
Proof.
  unfold peerReferences. apply Forall_forall. intros r [_ Hr]%list_elem_of_In%filter_In.
  by apply negb_true_iff, bool_decide_eq_false in Hr.
Qed.

Lemma wsTLSReferences_nonempty c : Forall nonempty (wsTLSReferences c).
Proof.
  unfold wsTLSReferences. induction (c_Peers c) as [|p ps IH]; cbn [map concat]; [constructor|].
  apply Forall_app. split; [apply peerReferences_nonempty|done].
Qed.

Ltac case_empty :=
  repeat match goal with |- context [bool_decide (?x = [])] => destruct (bool_decide_reflect (x = [])) end.

Lemma writePeerRefs_spec p l rest :
  length l = length (peerReferences p) -> Forall nonempty l ->
  exists p', writePeerRefs p (l ++ rest) = (p', rest) /\ peerReferences p' = l
    /\ clearRefs p' = clearRefs p.
Proof.
  intros Hl Hf. unfold writePeerRefs, writeRef, peerReferences in *. destruct p. cbn in *.
  revert Hl. case_empty; cbn [negb]; intros Hl;
    repeat (destruct l as [|? l]; cbn [length app] in *; [try (exfalso; lia)|try (exfalso; lia)]);
    rewrite ?Forall_cons in Hf; destruct_and?; eexists; (split; [reflexivity|]);
    cbn; subst; case_empty; try done.
Qed.

Lemma writeRefs_spec c refs :
  length refs = length (wsTLSReferences c) -> Forall nonempty refs ->
  wsTLSReferences (writeRefs refs c) = refs
  /\ Forall2 (fun p p' => clearRefs p' = clearRefs p) (c_Peers c) (c_Peers (writeRefs refs c)).
Proof.
  unfold writeRefs, wsTLSReferences. destruct c as [cn ci ps fs tr].
  cbn [set_c_Peers c_Peers]. clear cn ci fs tr. revert refs.
  induction ps as [|p ps IH]; intros refs Hl Hf; cbn [map concat writePeersRefs] in *.
  - destruct refs; [|done]. split; [done|constructor].
  - rewrite length_app in Hl.
    destruct (writePeerRefs_spec p (take (length (peerReferences p)) refs)
                (drop (length (peerReferences p)) refs)) as (p' & E & Er & Ec).
    { rewrite length_take. lia. }
    { by apply Forall_take. }
    rewrite take_drop in E. rewrite E. cbn [map concat].
    destruct (IH (drop (length (peerReferences p)) refs)) as [H1 H2].
    { rewrite length_drop. lia. }
    { by apply Forall_drop. }
    rewrite H1, Er, take_drop. split; [done|]. by constructor.
Qed.

(** Writing back the same references changes nothing. *)
Lemma writeRefs_id c : writeRefs (wsTLSReferences c) c = c.
Proof.
  unfold writeRefs, wsTLSReferences. destruct c as [cn ci ps fs tr]. unfold set_c_Peers. cbn.
  f_equal. clear. induction ps as [|p ps IH]; [done|]. cbn [map concat writePeersRefs].
  assert (Hp : forall rest, writePeerRefs p (peerReferences p ++ rest) = (p, rest)).
  { intros rest. unfold writePeerRefs, writeRef, peerReferences. destruct p.
    cbn. case_empty; subst; done. }
  by rewrite Hp, IH.
Qed.

(** ** The first loop *)

Section Claims.
Context `{UnicodeTables}.

(** Two references may share a stored file: they are one reference, or stored
    names that differ only in case. *)
Definition sharable (r r' : gostring) : Prop :=
  r = r' \/ (WSTLSFileNameIsValid r = true /\ WSTLSFileNameIsValid r' = true /\ ToLower r = ToLower r').

(** What has been claimed after the references [seen]: every stored name has a
    spelling among them, the same for all its case variants, and their lower
    cases are taken. *)
Record claimed (seen : list gostring) (cl : claims) : Prop := {
  cd_spelling : forall l n, cl_spellings cl !! l = Some n ->
    ToLower n = l /\ n ∈ seen /\ WSTLSFileNameIsValid n = true;
  cd_names : forall r n, cl_names cl !! r = Some n <->
    r ∈ seen /\ WSTLSFileNameIsValid r = true /\ cl_spellings cl !! ToLower r = Some n;
  cd_taken : forall l, l ∈ cl_taken cl <-> is_Some (cl_spellings cl !! l);
  cd_all : forall r, r ∈ seen -> WSTLSFileNameIsValid r = true -> is_Some (cl_spellings cl !! ToLower r);
  cd_size : (size (cl_taken cl) <= size (cl_names cl))%nat
}.

Lemma claimName_claimed seen cl r : claimed seen cl -> claimed (seen ++ [r]) (claimName cl r).
Proof.
  intros [Hs Hn Ht Ha Hz]. unfold claimName. destruct (WSTLSFileNameIsValid r) eqn:Hv.
  2:{ split; [|intros x n|done| |done].
      - intros l n Hl. apply Hs in Hl. set_solver.
      - rewrite Hn. split; [set_solver|]. intros (Hx & Hxv & Hl).
        apply elem_of_app in Hx as [Hx|Hx]; [done|]. apply list_elem_of_singleton in Hx. congruence.
      - intros x Hx Hxv. apply elem_of_app in Hx as [Hx|Hx]; [by apply Ha|].
        apply list_elem_of_singleton in Hx. congruence. }
  assert (exists n, cl_spellings cl !! ToLower r = Some n \/ (cl_spellings cl !! ToLower r = None /\ n = r))
    as (n & Hsp) by (destruct (cl_spellings cl !! ToLower r); eauto).
  set (sp := match cl_spellings cl !! ToLower r with Some _ => _ | None => _ end).
  assert (Esp : sp = <[ToLower r := n]> (cl_spellings cl)).
  { unfold sp. destruct Hsp as [E|[E ->]]; rewrite E; [by rewrite insert_id|done]. }
  clearbody sp. subst sp. rewrite lookup_insert_eq. cbn [default].
  assert (Hln : ToLower n = ToLower r /\ n ∈ seen ++ [r] /\ WSTLSFileNameIsValid n = true).
  { destruct Hsp as [E|[_ ->]]; [apply Hs in E; set_solver|set_solver]. }
  assert (Hkeep : forall l m, cl_spellings cl !! l = Some m ->
            <[ToLower r:=n]> (cl_spellings cl) !! l = Some m).
  { intros l m Hl. destruct (decide (l = ToLower r)) as [->|]; [|by rewrite lookup_insert_ne].
    rewrite lookup_insert_eq. destruct Hsp as [|[? _]]; congruence. }
  split; cbn [cl_spellings cl_names cl_taken].
  - intros l m. rewrite lookup_insert. case_decide; [intros [= <-]; subst; done|].
    intros Hl%Hs. set_solver.
  - intros x m. rewrite (lookup_insert (cl_names cl)). case_decide as Hx.
    + subst x. rewrite lookup_insert_eq. set_solver.
    + rewrite Hn, elem_of_app, list_elem_of_singleton. split.
      * intros (? & ? & E). split; [by left|]. split; [done|]. by apply Hkeep.
      * intros ([Hin|Hin] & Hxv & E); [|congruence]. split; [done|]. split; [done|].
        destruct (Ha x Hin Hxv) as [m' Hm']. rewrite (Hkeep _ _ Hm') in E. congruence.
  - intros l. rewrite elem_of_union, elem_of_singleton, Ht, lookup_insert. case_decide; [naive_solver eauto|].
    naive_solver.
  - intros x. rewrite elem_of_app, list_elem_of_singleton. intros [Hin | ->] Hxv; [|by (rewrite lookup_insert_eq; eauto)].
    destruct (Ha x Hin Hxv) as [m Hm]. rewrite (Hkeep _ _ Hm). eauto.
  - destruct (cl_names cl !! r) as [m|] eqn:Er.
    + assert (ToLower r ∈ cl_taken cl) as Hin by (apply Ht; apply Hn in Er as (_ & _ & ->); eauto).
      rewrite (proj1 (subseteq_union_L {[ToLower r]} (cl_taken cl))) by set_solver.
      rewrite map_size_insert_Some by eauto. done.
    + rewrite map_size_insert_None by done. pose proof (size_union_alt {[ToLower r]} (cl_taken cl)) as Hu.
      rewrite size_singleton in Hu. pose proof (subseteq_size (cl_taken cl ∖ {[ToLower r]}) (cl_taken cl) ltac:(set_solver)).
      lia.
Qed.

Lemma claimNames_claimed refs : claimed refs (claimNames refs).
Proof.
  unfold claimNames. induction refs as [|r refs IH] using rev_ind.
  - split; cbn [fold_left cl_spellings cl_names cl_taken].
    + intros l n. by rewrite lookup_empty.
    + intros r n. rewrite lookup_empty. split; [done|]. intros (Hr & _). by apply not_elem_of_nil in Hr.
    + intros l. rewrite lookup_empty, is_Some_alt. set_solver.
    + intros r Hr. by apply not_elem_of_nil in Hr.
    + done.
  - rewrite fold_left_app. cbn [fold_left]. by apply claimName_claimed.
Qed.
End Claims.

(** ** The second loop *)

Lemma readRef_Ok read r d : readRef read r = Ok d <-> read r = Ok d /\ Z.of_nat (length d) <= MaxWSTLSFileSize.
Proof.
  unfold readRef. destruct (read r) as [x|e]; [|naive_solver].
  destruct (Z.ltb_spec MaxWSTLSFileSize (Z.of_nat (length x))); split; intros; try naive_solver lia.
Qed.

Section Loop.
Context `{UnicodeTables} (read : gostring -> result gostring) (refs : list gostring).
Context (Hfew : Z.of_nat (length refs) < 2 ^ 62).

(** The state after the references [seen]. *)
Record collected (seen : list gostring) (st : collecting) : Prop := {
  ct_names : forall r n, co_names st !! r = Some n ->
    r ∈ refs /\ WSTLSFileNameIsValid n = true /\ ToLower n ∈ co_taken st;
  ct_inj : forall r r' n n', co_names st !! r = Some n -> co_names st !! r' = Some n' ->
    ToLower n = ToLower n' -> n = n' /\ sharable r r';
  ct_size : (size (co_taken st) <= size (co_names st))%nat;
  ct_stored : forall r n, co_stored st !! r = Some n <-> r ∈ seen /\ co_names st !! r = Some n;
  ct_files : forall n d, co_files st !! n = Some d -> Z.of_nat (length d) <= MaxWSTLSFileSize
    /\ exists r, r ∈ seen /\ co_names st !! r = Some n /\ read r = Ok d;
  ct_have : forall r, r ∈ seen -> exists n, co_names st !! r = Some n /\ is_Some (co_files st !! n);
  ct_few : (size (co_files st) <= length seen)%nat
}.

Lemma names_few seen st : collected seen st -> (size (co_names st) <= length refs)%nat.
Proof.
  intros Hc. rewrite <- (size_dom (D := gset gostring)).
  transitivity (size (list_to_set refs : gset gostring)).
  - apply subseteq_size. intros r (n & Hn)%elem_of_dom. apply elem_of_list_to_set.
    by apply (ct_names _ _ Hc) in Hn as (? & _).
  - clear. induction refs as [|r l IH]; cbn; [done|].
    rewrite size_union_alt, size_singleton.
    pose proof (subseteq_size (list_to_set l ∖ {[r]} : gset gostring) (list_to_set l) ltac:(set_solver)). lia.
Qed.

Lemma claimNames_collected :
  let cl := claimNames refs in collected [] (mkCollecting (cl_names cl) (cl_taken cl) ∅ ∅).
Proof.
  intros cl. destruct (claimNames_claimed refs) as [Hs Hn Ht Ha Hz]. fold cl in Hs, Hn, Ht, Ha, Hz.
  split; cbn [co_names co_taken co_stored co_files].
  - intros r n (Hr & Hv & Hl)%Hn. pose proof (Hs _ _ Hl) as (El & _ & Hvn).
    split; [done|]. split; [done|]. apply Ht. rewrite El. eauto.
  - intros r r' n n' (Hr & Hv & Hl)%Hn (Hr' & Hv' & Hl')%Hn E.
    pose proof (Hs _ _ Hl) as (El & _). pose proof (Hs _ _ Hl') as (El' & _).
    assert (ToLower r = ToLower r') as Er by congruence. split; [congruence|]. by right.
  - done.
  - intros r n. rewrite lookup_empty. split; [done|]. intros [Hr _]. by apply not_elem_of_nil in Hr.
  - intros n d. by rewrite lookup_empty.
  - intros r Hr. by apply not_elem_of_nil in Hr.
  - done.
Qed.

(** A name is always found; the other names stay. *)
Lemma nameFor_spec seen st r :
  collected seen st -> r ∈ refs ->
  exists n st', nameFor st r = Ok (n, st') /\ collected seen st' /\ co_names st' !! r = Some n
    /\ co_names st ⊆ co_names st' /\ co_stored st' = co_stored st /\ co_files st' = co_files st.
Proof.
  intros Hc Hr. pose proof (names_few _ _ Hc) as Hsz. destruct Hc as [Hn Hi Hz Hs Hf Hh Hw].
  unfold nameFor. destruct (co_names st !! r) as [n|] eqn:E.
  { exists n, st. split; [done|]. split; [by split|]. done. }
  destruct (unique_valid (sanitizeWSTLSFileName (Base r)) (co_taken st) (sanitize_valid _))
    as (n & En & Hv & Hfree); [lia|]. rewrite En. cbn [rbind]. eexists _, _. split; [reflexivity|].
  assert (Hsub : co_names st ⊆ <[r := n]> (co_names st)) by by apply insert_subseteq.
  assert (Hback : forall x, x ∈ seen -> x <> r).
  { intros x Hx ->. destruct (Hh r Hx) as (m & Hm & _). congruence. }
  split; [|split; [cbn; by rewrite lookup_insert_eq|done]].
  split; cbn [co_names co_taken co_stored co_files].
  - intros x m. rewrite lookup_insert. case_decide; [intros [= <-]; subst; set_solver|].
    intros Hm%Hn. set_solver.
  - intros x y m m'. rewrite !lookup_insert.
    repeat case_decide; intros; simplify_eq; [by split; [|left]| | |naive_solver].
    + exfalso. match goal with Hm : co_names st !! _ = Some _ |- _ => apply Hn in Hm as (_ & _ & Hm) end. congruence.
    + exfalso. match goal with Hm : co_names st !! _ = Some _ |- _ => apply Hn in Hm as (_ & _ & Hm) end. congruence.
  - rewrite map_size_insert_None by done. rewrite size_union by set_solver. rewrite size_singleton. lia.
  - intros x m. rewrite Hs. split; intros [Hx Hm]; (split; [done|]).
    + by rewrite lookup_insert_ne by (symmetry; by apply Hback).
    + by rewrite lookup_insert_ne in Hm by (symmetry; by apply Hback).
  - intros m d Hm. destruct (Hf m d Hm) as (Hd & x & Hx & Hxm & Hrd). split; [done|].
    exists x. split; [done|]. split; [|done]. by rewrite lookup_insert_ne by (symmetry; by apply Hback).
  - intros x Hx. destruct (Hh x Hx) as (m & Hm & Hfm). exists m.
    by rewrite lookup_insert_ne by (symmetry; by apply Hback).
  - done.
Qed.

(** Storing [d] for [r] under [n], when the file is not there yet. *)
Lemma collected_store seen st r n d :
  collected seen st -> co_names st !! r = Some n ->
  (is_Some (co_files st !! n) /\ d = None
   \/ exists x, d = Some x /\ read r = Ok x /\ Z.of_nat (length x) <= MaxWSTLSFileSize) ->
  collected (seen ++ [r])
    (mkCollecting (co_names st) (co_taken st) (<[r := n]> (co_stored st))
       (match d with Some x => <[n := x]> (co_files st) | None => co_files st end)).
Proof.
  intros [Hn Hi Hz Hs Hf Hh Hw] Hr Hd.
  assert (Hmono : forall m, is_Some (co_files st !! m) ->
    is_Some ((match d with Some x => <[n := x]> (co_files st) | None => co_files st end) !! m)).
  { intros m Hm. destruct d as [x|]; [|done]. rewrite lookup_insert. case_decide; eauto. }
  split; cbn [co_names co_taken co_stored co_files]; [done|done|done| | | |].
  - intros x m. rewrite lookup_insert, elem_of_app, list_elem_of_singleton.
    case_decide as Hx; [subst x; rewrite Hr; naive_solver|]. rewrite Hs. naive_solver.
  - intros m y Hm. assert (co_files st !! m = Some y \/ m = n /\ d = Some y) as [Ho|[-> Hy]].
    { destruct d as [x|]; [|by left]. rewrite lookup_insert in Hm. case_decide; [|by left].
      right. subst. by simplify_eq. }
    + destruct (Hf m y Ho) as (? & x & ? & ? & ?). split; [done|]. exists x. set_solver.
    + destruct Hd as [[_ ?]|(x & Ex & Hrd & Hl)]; [congruence|]. simplify_eq. split; [done|].
      exists r. set_solver.
  - intros x. rewrite elem_of_app, list_elem_of_singleton. intros [Hx | ->].
    + destruct (Hh x Hx) as (m & Hm & Hfm). eauto.
    + exists n. split; [done|]. destruct Hd as [[? _]|(x & -> & _)]; [by apply Hmono|].
      rewrite lookup_insert_eq. eauto.
  - rewrite length_app. cbn [length]. destruct d as [x|]; [|lia].
    destruct (co_files st !! n) eqn:En; [rewrite map_size_insert_Some by eauto; lia|].
    rewrite map_size_insert_None by done. lia.
Qed.

Lemma collectRef_spec seen st r n st' :
  collected seen st -> r ∈ refs -> collectRef read st r = Ok (n, st') ->
  collected (seen ++ [r]) st' /\ co_names st' !! r = Some n /\ co_names st ⊆ co_names st'.
Proof.
  intros Hc Hr E. destruct (nameFor_spec seen st r Hc Hr) as (m & s1 & En & Hc1 & Hm & Hsub & _ & _).
  unfold collectRef in E. rewrite En in E. cbn [rbind] in E.
  destruct (co_files s1 !! m) eqn:Ef.
  - simplify_eq. split; [|done]. apply (collected_store seen s1 r n None); eauto.
  - apply rbind_Ok in E as (d & Hd & E). apply readRef_Ok in Hd as [Hrd Hl]. simplify_eq.
    split; [|done]. apply (collected_store seen s1 r n (Some d)); eauto 6.
Qed.

Lemma collectLoop_spec seen st rest done st' :
  collected seen st -> (forall r, r ∈ rest -> r ∈ refs) ->
  collectLoop read st rest = (done, Ok st') ->
  collected (seen ++ rest) st' /\ Forall2 (fun r n => co_names st' !! r = Some n) rest done
  /\ co_names st ⊆ co_names st'.
Proof.
  revert seen st done; induction rest as [|r rest IH]; intros seen st done Hc Hin E; cbn [collectLoop] in E.
  - simplify_eq. rewrite app_nil_r. split; [done|]. split; [constructor|done].
  - destruct (collectRef read st r) as [[n s1]|e] eqn:Er; [|done].
    destruct (collectLoop read s1 rest) as [dn rr] eqn:El. simplify_eq.
    apply (collectRef_spec seen) in Er as (Hc1 & Hn & Hsub); [|done|set_solver].
    apply (IH (seen ++ [r])) in El as (Hc2 & Hf & Hsub2); [|done|set_solver].
    rewrite <- (assoc_L (++)) in Hc2. split; [done|]. split; [|by etrans].
    constructor; [|done]. by eapply lookup_weaken.
Qed.

(** When every file can be read and is small enough, the loop succeeds. *)
Lemma collectLoop_total seen st rest :
  collected seen st -> (forall r, r ∈ rest -> r ∈ refs) ->
  (forall r, r ∈ rest -> is_Ok (readRef read r) = true) ->
  exists done st', collectLoop read st rest = (done, Ok st').
Proof.
  revert seen st; induction rest as [|r rest IH]; intros seen st Hc Hin Hrd; cbn [collectLoop]; [eauto|].
  assert (exists n s1, collectRef read st r = Ok (n, s1)) as (n & s1 & E).
  { destruct (nameFor_spec seen st r Hc ltac:(set_solver)) as (m & s1 & En & _).
    unfold collectRef. rewrite En. cbn [rbind]. destruct (co_files s1 !! m); [eauto|].
    specialize (Hrd r ltac:(set_solver)). destruct (readRef read r); [cbn; eauto|done]. }
  rewrite E. apply (collectRef_spec seen) in E as (Hc1 & _); [|done|set_solver].
  destruct (IH _ s1 Hc1) as (dn & st' & ->); [set_solver..|]. eauto.
Qed.
End Loop.

(** ** Validating *)

Section ValidateTheorems.
Context `{UnicodeTables}.

Definition refOk (files : gmap gostring gostring) (r : gostring) : Prop :=
  if WSTLSFileNameIsValid r then is_Some (files !! r) else IsWSTLSLocalPath r = true.

Lemma validateRefs_spec files s refs t :
  rfold (validateRef files) s refs = Ok t <->
  Forall (refOk files) refs
  /\ t = list_to_set (List.filter WSTLSFileNameIsValid refs) ∪ s.
Proof.
  revert s; induction refs as [|r refs IH]; intros s; cbn [rfold List.filter].
  { change (list_to_set [] ∪ s) with (∅ ∪ s). rewrite (left_id_L ∅ (∪)).
    split; [intros [= ->]; by split; [constructor|]|]. by intros [_ ->]. }
  rewrite rbind_Ok, Forall_cons. unfold refOk at 1. unfold validateRef at 1. setoid_rewrite IH. clear IH.
  destruct (WSTLSFileNameIsValid r); [destruct (files !! r)|destruct (IsWSTLSLocalPath r)]; cbn [negb].
  - split; [intros (a & [= <-] & HF & ->)|intros [[_ HF] ->]; eexists; split; [done|]].
    + split; [eauto|]. cbn. set_solver.
    + split; [done|]. cbn. set_solver.
  - split; [naive_solver|]. intros [[[? ?] _] _]. done.
  - naive_solver.
  - naive_solver.
Qed.

Definition fileOk (referenced : gset gostring) (e : gostring * gostring) : Prop :=
  WSTLSFileNameIsValid e.1 = true /\ e.1 ∈ referenced /\ Z.of_nat (length e.2) <= MaxWSTLSFileSize.

Lemma validateFile_spec referenced l e t :
  validateFile referenced l e = Ok t <->
  ToLower e.1 ∉ l /\ fileOk referenced e /\ t = {[ToLower e.1]} ∪ l.
Proof.
  unfold validateFile, fileOk. destruct e as [n d]. cbn [fst snd].
  case_bool_decide; [naive_solver|]. destruct (WSTLSFileNameIsValid n); [|naive_solver].
  cbn [negb orb]. case_bool_decide; [naive_solver|].
  destruct (Z.ltb_spec MaxWSTLSFileSize (Z.of_nat (length d))); [naive_solver lia|].
  split; [intros [= <-]; done|]. by intros (_ & _ & ->).
Qed.

Lemma validateFiles_spec referenced l order :
  is_Ok (rfold (validateFile referenced) l order) = true <->
  Forall (fileOk referenced) order /\ NoDup (map (fun e => ToLower e.1) order)
  /\ Forall (fun e => ToLower e.1 ∉ l) order.
Proof.
  revert l; induction order as [|e order IH]; intros l; cbn [rfold map].
  { split; [|done]. intros _. split; [|split]; constructor. }
  rewrite !Forall_cons, NoDup_cons. destruct (validateFile referenced l e) as [t|x] eqn:E; cbn [rbind].
  - apply validateFile_spec in E as (Hl & Hok & ->). rewrite IH.
    assert (Forall (fun e0 : gostring * gostring => ToLower e0.1 ∉ {[ToLower e.1]} ∪ l) order
            <-> Forall (fun e0 => ToLower e0.1 ∉ l) order
                /\ ToLower e.1 ∉ map (fun e => ToLower e.1) order) as ->; [|naive_solver].
    rewrite !Forall_forall. setoid_rewrite list_elem_of_fmap. set_solver.
  - split; [done|]. intros ((Hok & _) & _ & Hl & _).
    assert (validateFile referenced l e = Ok ({[ToLower e.1]} ∪ l)); [|congruence].
    by apply validateFile_spec.
Qed.

(** What makes a configuration acceptable to the store. *)
Definition storable (c : Config) : Prop :=
  Forall (refOk (c_WSTLSFiles c)) (wsTLSReferences c)
  /\ (size (c_WSTLSFiles c) <= MaxWSTLSFiles)%nat
  /\ (forall n d, c_WSTLSFiles c !! n = Some d ->
        WSTLSFileNameIsValid n = true /\ n ∈ wsTLSReferences c /\ Z.of_nat (length d) <= MaxWSTLSFileSize)
  /\ (forall n n', n ∈ dom (c_WSTLSFiles c) -> n' ∈ dom (c_WSTLSFiles c) -> ToLower n = ToLower n' -> n = n').

Lemma fmap_NoDup_inj {A B} (f : A -> B) (l : list A) :
  NoDup l -> NoDup (map f l) <-> (forall x y, x ∈ l -> y ∈ l -> f x = f y -> x = y).
Proof.
  intros Hl. split.
  - intros Hnd x y Hx Hy E. apply list_elem_of_lookup in Hx as [i Hi], Hy as [j Hj].
    assert (i = j) as <-; [|congruence]. eapply NoDup_lookup; [exact Hnd|..].
    + rewrite list_lookup_fmap, Hi. reflexivity.
    + rewrite list_lookup_fmap, Hj. cbn. by rewrite E.
  - intros Hf. apply NoDup_fmap_2_strong; [|done]. auto.
Qed.

Lemma ValidateWSTLSFiles_iff order c :
  order ≡ₚ map_to_list (c_WSTLSFiles c) -> ValidateWSTLSFiles order c = Ok tt <-> storable c.
Proof.
  intros Hp. unfold ValidateWSTLSFiles, storable. rewrite rbind_Ok. setoid_rewrite validateRefs_spec.
  transitivity (Forall (refOk (c_WSTLSFiles c)) (wsTLSReferences c)
    /\ (size (c_WSTLSFiles c) <= MaxWSTLSFiles)%nat
    /\ is_Ok (rfold (validateFile (list_to_set (List.filter WSTLSFileNameIsValid (wsTLSReferences c)) ∪ ∅)) ∅ order) = true).
  { destruct (Nat.ltb_spec MaxWSTLSFiles (size (c_WSTLSFiles c))) as [Hlt|Hle].
    - split; [by intros (a & _ & ?)|]. intros (_ & ? & _). lia.
    - split.
      + intros (a & [HF ->] & Hr). apply rbind_Ok in Hr as (b & -> & _). done.
      + intros (HF & _ & Hr). eexists. split; [done|]. by destruct (rfold _ ∅ order). }
  rewrite validateFiles_spec. apply and_iff_compat_l, and_iff_compat_l.
  assert (HP : forall P : gostring * gostring -> Prop,
    Forall P order <-> Forall P (map_to_list (c_WSTLSFiles c))) by (intros P; by rewrite Hp).
  rewrite !HP, (NoDup_Permutation_proper _ _ (Permutation_map (fun e => ToLower e.1) Hp)). clear HP Hp.
  assert (Hno : Forall (fun e : gostring * gostring => ToLower e.1 ∉ (∅ : gset gostring)) (map_to_list (c_WSTLSFiles c)))
    by (apply Forall_forall; set_solver).
  assert (Hnd : NoDup (map (fun e : gostring * gostring => ToLower e.1) (map_to_list (c_WSTLSFiles c)))
    <-> (forall n n', n ∈ dom (c_WSTLSFiles c) -> n' ∈ dom (c_WSTLSFiles c) -> ToLower n = ToLower n' -> n = n')).
  { rewrite fmap_NoDup_inj by apply NoDup_map_to_list. split.
    - intros Hi n n' [d Hd]%elem_of_dom [d' Hd']%elem_of_dom E.
      apply elem_of_map_to_list in Hd, Hd'. by specialize (Hi (n, d) (n', d') Hd Hd' E) as [= ->].
    - intros Hi [n d] [n' d'] Hd%elem_of_map_to_list Hd'%elem_of_map_to_list E.
      assert (n = n') as <- by (apply Hi; [by eapply elem_of_dom_2..|done]). congruence. }
  rewrite Hnd. rewrite Forall_forall. unfold fileOk.
  setoid_rewrite elem_of_union. setoid_rewrite elem_of_list_to_set.
  split.
  - intros (HF & Hi & _). split; [|done]. intros n d Hd%elem_of_map_to_list.
    destruct (HF _ Hd) as (Hv & [[Hin _]%list_elem_of_In%filter_In|Hin] & Hl); [|set_solver].
    apply list_elem_of_In in Hin. done.
  - intros [HF Hi]. split; [|done]. intros [n d] (Hv & Hin & Hl)%elem_of_map_to_list%HF. cbn.
    split; [done|]. split; [|done]. left. apply list_elem_of_In, filter_In.
    split; [by apply list_elem_of_In|done].
Qed.
End ValidateTheorems.
