(* ===== verification/WSTLSTheorems.v ===== *)
(** * TLS files: importing, editing and reading are safe *)

From stdpp Require Import sorting.
From S2P Require Import Prelude GoStrings GoNum Netip Config Name Paths WSTLS WSTLSNames WSTLSCollect.
Local Open Scope Z_scope.

Section Theorems.
Context `{UnicodeTables}.

(** The name derived for a copy is a valid stored name whatever the file was
    called, the search for a free one ends, and its result is a valid name that
    differs from every taken one in more than letter case. *)
Theorem uniqueWSTLSFileName_fresh base taken :
  Z.of_nat (size taken) < 2 ^ 62 ->
  exists name, uniqueWSTLSFileName (sanitizeWSTLSFileName base) taken = Ok name
    /\ WSTLSFileNameIsValid name = true /\ ToLower name ∉ taken.
Proof. intros Hsz. apply unique_valid; [apply sanitize_valid|done]. Qed.

(** ValidateWSTLSFiles accepts exactly the configurations whose stored files are
    those it refers to, in whatever order the map is visited. *)
Theorem ValidateWSTLSFiles_spec order c :
  order ≡ₚ map_to_list (c_WSTLSFiles c) -> ValidateWSTLSFiles order c = Ok tt <-> storable c.
Proof. apply ValidateWSTLSFiles_iff. Qed.

(** ** Collecting *)

Lemma collect_result read c stored c' :
  Z.of_nat (length (wsTLSReferences c)) < 2 ^ 62 ->
  CollectWSTLSFiles read c = (Ok stored, c') ->
  exists st, collected read (wsTLSReferences c) (wsTLSReferences c) st /\ stored = co_stored st
    /\ c_WSTLSFiles c' = co_files st /\ (size (co_files st) <= MaxWSTLSFiles)%nat
    /\ Forall2 (fun r n => co_names st !! r = Some n) (wsTLSReferences c) (wsTLSReferences c')
    /\ Forall2 (fun p p' => clearRefs p' = clearRefs p) (c_Peers c) (c_Peers c')
    /\ set_c_WSTLSFiles (c_WSTLSFiles c) (set_c_Peers (c_Peers c) c') = c.
Proof.
  intros Hfew. unfold CollectWSTLSFiles.
  destruct (collectLoop _ _ _) as [refs' r] eqn:El. destruct r as [st|e]; [|done].
  destruct (Nat.ltb_spec MaxWSTLSFiles (size (co_files st))); [done|]. intros E.
  apply (f_equal fst) in E as E1. apply (f_equal snd) in E as E2. cbn [fst snd] in E1, E2.
  apply Ok_inj in E1. clear E. subst stored c'.
  apply (collectLoop_spec read _ Hfew []) in El as (Hc & HF & _);
    [|apply claimNames_collected|done]. cbn [app] in Hc.
  assert (Hne : Forall nonempty refs').
  { eapply Forall2_Forall_r; [exact HF|]. apply Forall_forall. intros r _ n Hn.
    apply (ct_names _ _ _ _ Hc) in Hn as (_ & Hv & _). by intros ->. }
  destruct (writeRefs_spec c refs' (eq_sym (Forall2_length _ _ _ HF)) Hne) as [Hw Hp].
  exists st. split; [done|]. split; [done|]. split; [done|]. split; [done|].
  change (wsTLSReferences (set_c_WSTLSFiles (co_files st) (writeRefs refs' c)))
    with (wsTLSReferences (writeRefs refs' c)). rewrite Hw.
  split; [done|]. split; [exact Hp|]. by destruct c.
Qed.

Lemma collect_storable read c stored c' :
  Z.of_nat (length (wsTLSReferences c)) < 2 ^ 62 ->
  CollectWSTLSFiles read c = (Ok stored, c') -> storable c'.
Proof.
  intros Hfew E. destruct (collect_result read c stored c' Hfew E)
    as (st & Hc & _ & Ef & Hsz & HF & _ & _). unfold storable. rewrite Ef.
  assert (Hnew : forall r n, r ∈ wsTLSReferences c -> co_names st !! r = Some n -> n ∈ wsTLSReferences c').
  { intros r n [i Hi]%list_elem_of_lookup Hn. destruct (Forall2_lookup_l _ _ _ _ _ HF Hi) as (n' & Hn' & En).
    assert (n = n') as -> by congruence. by eapply list_elem_of_lookup_2. }
  split; [|split; [done|split]].
  - eapply Forall2_Forall_r; [exact HF|]. apply Forall_forall. intros r Hr n Hn.
    destruct (ct_have _ _ _ _ Hc r Hr) as (m & Hm & Hf). assert (m = n) as -> by congruence.
    apply (ct_names _ _ _ _ Hc) in Hn as (_ & Hv & _). unfold refOk. by rewrite Hv.
  - intros n d Hn. apply (ct_files _ _ _ _ Hc) in Hn as (Hl & r & Hr & Hn & _).
    split; [by destruct (ct_names _ _ _ _ Hc _ _ Hn) as (_ & ? & _)|]. split; [by eapply Hnew|done].
  - intros n n' [d Hd]%elem_of_dom [d' Hd']%elem_of_dom El.
    apply (ct_files _ _ _ _ Hc) in Hd as (_ & r & _ & Hr & _), Hd' as (_ & r' & _ & Hr' & _).
    by destruct (ct_inj _ _ _ _ Hc r r' n n' Hr Hr' El).
Qed.

(** C31: What CollectWSTLSFiles imports is what the store accepts: every reference
    becomes the stored name reported for it, and that name holds the contents
    read from the reference itself, or for a stored name from a spelling of it;
    different files never share a name, and nothing else of the configuration
    changes. *)
Theorem CollectWSTLSFiles_imports read c stored c' order :
  Z.of_nat (length (wsTLSReferences c)) < 2 ^ 62 ->
  CollectWSTLSFiles read c = (Ok stored, c') ->
  order ≡ₚ map_to_list (c_WSTLSFiles c') ->
  ValidateWSTLSFiles order c' = Ok tt
  /\ Forall2 (fun r n => stored !! r = Some n) (wsTLSReferences c) (wsTLSReferences c')
  /\ (forall r n, stored !! r = Some n -> r ∈ wsTLSReferences c /\ WSTLSFileNameIsValid n = true
        /\ exists r' data, r' ∈ wsTLSReferences c /\ sharable r r'
             /\ read r' = Ok data /\ c_WSTLSFiles c' !! n = Some data)
  /\ (forall r r' n, stored !! r = Some n -> stored !! r' = Some n -> sharable r r')
  /\ Forall2 (fun p p' => clearRefs p' = clearRefs p) (c_Peers c) (c_Peers c')
  /\ set_c_WSTLSFiles (c_WSTLSFiles c) (set_c_Peers (c_Peers c) c') = c.
Proof.
  intros Hfew E Hp. split; [eapply ValidateWSTLSFiles_iff, collect_storable; done|].
  destruct (collect_result read c stored c' Hfew E) as (st & Hc & -> & Ef & _ & HF & Hpe & Hrest).
  assert (Hst : forall r n, co_stored st !! r = Some n <->
            r ∈ wsTLSReferences c /\ co_names st !! r = Some n) by apply (ct_stored _ _ _ _ Hc).
  split; [|split; [|split; [|done]]].
  - apply Forall2_same_length_lookup. split; [by eapply Forall2_length|].
    intros i r n Hr Hn. apply Hst. split; [by eapply list_elem_of_lookup_2|].
    exact (Forall2_lookup_lr _ _ _ _ _ _ HF Hr Hn).
  - intros r n [Hr Hn]%Hst. split; [done|]. split; [by destruct (ct_names _ _ _ _ Hc _ _ Hn) as (_ & ? & _)|].
    destruct (ct_have _ _ _ _ Hc r Hr) as (m & Hm & [d Hd]). assert (m = n) as -> by congruence.
    destruct (ct_files _ _ _ _ Hc n d Hd) as (_ & r' & Hr' & Hn' & Hrd).
    exists r', d. rewrite Ef. split; [done|]. split; [|done].
    by destruct (ct_inj _ _ _ _ Hc r r' n n Hn Hn').
  - intros r r' n [_ Hr]%Hst [_ Hr']%Hst. by destruct (ct_inj _ _ _ _ Hc r r' n n Hr Hr').
Qed.

(** Importing succeeds whenever every file can be read, none is too large and
    there are at most 64 references: the search for names never fails. *)
Theorem CollectWSTLSFiles_total read c :
  (length (wsTLSReferences c) <= MaxWSTLSFiles)%nat ->
  (forall r, r ∈ wsTLSReferences c -> exists data, read r = Ok data
     /\ Z.of_nat (length data) <= MaxWSTLSFileSize) ->
  exists stored c', CollectWSTLSFiles read c = (Ok stored, c').
Proof.
  intros Hl Hrd. unfold MaxWSTLSFiles in Hl.
  assert (Hfew : Z.of_nat (length (wsTLSReferences c)) < 2 ^ 62) by lia.
  destruct (collectLoop_total read (wsTLSReferences c) Hfew [] _ (wsTLSReferences c)
    (claimNames_collected read _)) as (dn & st & E); [done| |].
  { intros r Hr. destruct (Hrd r Hr) as (d & Hd). apply readRef_Ok in Hd. by rewrite Hd. }
  unfold CollectWSTLSFiles. rewrite E.
  apply (collectLoop_spec read _ Hfew []) in E as (Hc & _); [|apply claimNames_collected|done].
  apply ct_few in Hc. cbn [app] in Hc.
  destruct (Nat.ltb_spec MaxWSTLSFiles (size (co_files st))); [unfold MaxWSTLSFiles in *; lia|]. eauto.
Qed.

(** A configuration whose files are all stored is collected as it is, from a
    reader that gives them. *)
Lemma CollectWSTLSFiles_kept read c :
  Z.of_nat (length (wsTLSReferences c)) < 2 ^ 62 ->
  storable c -> Forall (fun r => WSTLSFileNameIsValid r = true) (wsTLSReferences c) ->
  (forall r d, r ∈ wsTLSReferences c -> c_WSTLSFiles c !! r = Some d -> read r = Ok d) ->
  exists stored, CollectWSTLSFiles read c = (Ok stored, c)
    /\ forall r, r ∈ wsTLSReferences c -> stored !! r = Some r.
Proof.
  intros Hfew (Href & Hsz & Hfile & Hcase) Hval Hreads.
  set (refs := wsTLSReferences c) in *.
  rewrite Forall_forall in Href, Hval.
  assert (Hhave : forall r, r ∈ refs -> exists d, c_WSTLSFiles c !! r = Some d /\ read r = Ok d
            /\ Z.of_nat (length d) <= MaxWSTLSFileSize).
  { intros r Hr. specialize (Href r Hr). unfold refOk in Href. rewrite (Hval r Hr) in Href.
    destruct Href as [d Hd]. exists d. split; [done|]. split; [by apply Hreads|by apply (Hfile r d Hd)]. }
  assert (Hnm : forall r, r ∈ refs -> cl_names (claimNames refs) !! r = Some r).
  { intros r Hr. destruct (claimNames_claimed refs) as [Hs Hn _ Ha _].
    destruct (Ha r Hr (Hval r Hr)) as [n Hl]. apply Hn. split; [done|]. split; [by apply Hval|].
    rewrite Hl. f_equal. apply Hs in Hl as (El & Hin & _).
    destruct (Hhave n Hin) as (d & Hd & _), (Hhave r Hr) as (d' & Hd' & _).
    apply Hcase; [by eapply elem_of_dom_2..|done]. }
  destruct (collectLoop_total read refs Hfew [] _ refs (claimNames_collected read _)) as (dn & st & E); [done| |].
  { intros r Hr. destruct (Hhave r Hr) as (d & _ & Hd). apply readRef_Ok in Hd. by rewrite Hd. }
  unfold CollectWSTLSFiles. fold refs. rewrite E.
  apply (collectLoop_spec read _ Hfew []) in E as (Hc & HF & Hsub); [|apply claimNames_collected|done].
  cbn [app co_names] in Hc, Hsub.
  assert (Hst : forall r n, r ∈ refs -> co_names st !! r = Some n -> n = r).
  { intros r n Hr Hn. pose proof (lookup_weaken _ _ _ _ (Hnm r Hr) Hsub). congruence. }
  assert (dn = refs) as ->.
  { apply list_eq_Forall2. apply Forall2_flip. apply Forall2_same_length_lookup.
    split; [by eapply Forall2_length|]. intros i r n Hr Hn. eapply Hst; [by eapply list_elem_of_lookup_2|].
    exact (Forall2_lookup_lr _ _ _ _ _ _ HF Hr Hn). }
  assert (Hfs : co_files st = c_WSTLSFiles c).
  { apply map_eq. intros n. destruct (c_WSTLSFiles c !! n) as [d|] eqn:Ed.
    - destruct (Hfile n d Ed) as (_ & Hin & _). destruct (ct_have _ _ _ _ Hc n Hin) as (m & Hm & [x Hx]).
      apply Hst in Hm; [|done]. subst m. rewrite Hx. apply (ct_files _ _ _ _ Hc) in Hx as (_ & r & Hr & Hn & Hrd).
      apply Hst in Hn; [|done]. subst n. destruct (Hhave r Hr) as (d' & Hd' & Hrd' & _). congruence.
    - destruct (co_files st !! n) as [x|] eqn:Hx; [|done].
      apply (ct_files _ _ _ _ Hc) in Hx as (_ & r & Hr & Hn & _). apply Hst in Hn; [|done]. subst n.
      destruct (Hhave r Hr) as (d' & Hd' & _). congruence. }
  rewrite Hfs. destruct (Nat.ltb_spec MaxWSTLSFiles (size (c_WSTLSFiles c))); [lia|].
  exists (co_stored st). split.
  - f_equal. unfold refs. rewrite writeRefs_id. by destruct c.
  - intros r Hr. apply (ct_stored _ _ _ _ Hc). split; [done|]. by eapply lookup_weaken; [apply Hnm|].
Qed.

(** Editing a stored tunnel: with the reader of its own files, collecting
    changes nothing. *)
Theorem CollectWSTLSFiles_stored `{Disk} c baseDir :
  Z.of_nat (length (wsTLSReferences c)) < 2 ^ 62 ->
  storable c -> Forall (fun r => WSTLSFileNameIsValid r = true) (wsTLSReferences c) ->
  exists stored, CollectWSTLSFiles (WSTLSFileReader (c_WSTLSFiles c) baseDir) c = (Ok stored, c)
    /\ forall r, r ∈ wsTLSReferences c -> stored !! r = Some r.
Proof.
  intros Hfew Hst Hval. apply CollectWSTLSFiles_kept; [done..|]. intros r d Hr Hd.
  unfold WSTLSFileReader. rewrite ToSlash_id, Hd; [done|]. apply nameBytes_nosep, valid_bytes.
  rewrite Forall_forall in Hval. by apply Hval.
Qed.
End Theorems.

(** ** Reading *)

Lemma IsWSTLSLocalPath_colon p : IsWSTLSLocalPath p = true -> exists a c q, p = a :: ":"%char :: c :: q.
Proof.
  destruct p as [|a [|b [|c q]]]; cbn; try done.
  intros [[_ E%Ascii.eqb_eq]%andb_prop _]%andb_prop. subst b. eauto.
Qed.

Lemma readZipFile_bounded f data :
  readZipFile f = Ok data -> Z.of_nat (length data) <= MaxWSTLSFileSize.
Proof.
  unfold readZipFile. case_match; [done|]. intros E.
  apply rbind_Ok in E as (u & _ & E). apply rbind_Ok in E as (d & _ & E).
  destruct (Z.ltb_spec MaxWSTLSFileSize (Z.of_nat (length d))); [done|]. by apply Ok_inj in E as <-.
Qed.

Lemma WSTLSFileReader_unc `{Disk} known baseDir a b p :
  isSeparator a = true -> isSeparator b = true -> known !! ToSlash (a :: b :: p) = None ->
  WSTLSFileReader known baseDir (a :: b :: p) = Err (ErrText "the path must be on a local drive").
Proof.
  intros Ha Hb Hk. unfold WSTLSFileReader. rewrite Hk, IsAbs_double by done.
  destruct (IsWSTLSLocalPath (a :: b :: p)) eqn:E; [|done].
  apply IsWSTLSLocalPath_colon in E as (a' & c & q & [= -> -> ->]). done.
Qed.

(** An imported configuration cannot make Windows open a remote or device path:
    without a base directory both readers touch only absolute paths on local
    drives, a UNC path is rejected with any base directory, and what comes out
    of an archive is within the limit whatever the archive declares. *)
Theorem WSTLSFileReaders_local (d1 d2 : Disk) known files confPath ref :
  (forall p, IsWSTLSLocalPath p = true ->
     disk_size (Disk := d1) p = disk_size (Disk := d2) p
     /\ disk_read (Disk := d1) p = disk_read (Disk := d2) p) ->
  WSTLSFileReader (H := d1) known [] ref = WSTLSFileReader (H := d2) known [] ref
  /\ WSTLSZipFileReader (H := d1) files confPath ref = WSTLSZipFileReader (H := d2) files confPath ref
  /\ (forall baseDir a b p, ref = a :: b :: p -> isSeparator a = true -> isSeparator b = true ->
        known !! ToSlash ref = None -> is_Ok (WSTLSFileReader (H := d1) known baseDir ref) = false)
  /\ (IsAbs ref = false -> forall data, WSTLSZipFileReader (H := d1) files confPath ref = Ok data ->
        Z.of_nat (length data) <= MaxWSTLSFileSize).
Proof.
  intros Hd. assert (Hr : forall known ref, WSTLSFileReader (H := d1) known [] ref
                                            = WSTLSFileReader (H := d2) known [] ref).
  { intros kn r. unfold WSTLSFileReader. destruct (kn !! ToSlash r); [done|].
    destruct (IsAbs r); cbn [negb andb]; [|done]. destruct (IsWSTLSLocalPath r) eqn:El; [|done].
    cbn [negb rbind]. destruct (Hd r El) as [-> ->]. done. }
  split; [apply Hr|]. split; [unfold WSTLSZipFileReader; destruct (IsAbs ref); [apply Hr|done]|].
  split; [intros baseDir a b p -> Ha Hb Hk; by rewrite (WSTLSFileReader_unc known baseDir a b p Ha Hb Hk)|].
  intros Ha data. unfold WSTLSZipFileReader. rewrite Ha.
  repeat case_match; try done; apply readZipFile_bounded.
Qed.

(** ** The names an export writes *)

#[local] Instance stringLe_total : Total stringLe.
Proof.
  intros s t. unfold stringLe. destruct (stringLess t s) eqn:E; [|by left]. right. by apply stringLess_asym.
Qed.

#[local] Instance stringLe_trans : Transitive stringLe.
Proof.
  intros s t u. unfold stringLe. intros H1 H2. apply not_true_iff_false. intros H3.
  destruct (stringLess_trichotomy s t) as [E|[->|E]]; [|congruence|congruence].
  rewrite (stringLess_trans u s t H3 E) in H2. done.
Qed.

Lemma storedNames_spec seen refs n :
  (n ∈ storedNames seen refs <-> n ∈ refs /\ WSTLSFileNameIsValid n = true /\ n ∉ seen).
Proof.
  revert seen; induction refs as [|r refs IH]; intros seen; cbn [storedNames]; [set_solver|].
  destruct (WSTLSFileNameIsValid r) eqn:Hv; cbn [andb].
  - case_bool_decide as Hs; rewrite ?elem_of_cons, IH.
    + destruct (decide (n = r)) as [->|]; set_solver.
    + set_solver.
  - rewrite IH, elem_of_cons. naive_solver congruence.
Qed.

Lemma storedNames_NoDup seen refs : NoDup (storedNames seen refs).
Proof.
  revert seen; induction refs as [|r refs IH]; intros seen; cbn [storedNames]; [constructor|].
  case_match; [|done]. apply NoDup_cons. split; [|done]. rewrite storedNames_spec. set_solver.
Qed.

(** WSTLSStoredFileNames lists the stored names a configuration refers to, each
    once and in order. *)
Theorem WSTLSStoredFileNames_spec c :
  StronglySorted stringLe (WSTLSStoredFileNames c) /\ NoDup (WSTLSStoredFileNames c)
  /\ forall n, n ∈ WSTLSStoredFileNames c <-> n ∈ wsTLSReferences c /\ WSTLSFileNameIsValid n = true.
Proof.
  unfold WSTLSStoredFileNames. split; [apply (StronglySorted_merge_sort _)|].
  pose proof (merge_sort_Permutation stringLe (storedNames ∅ (wsTLSReferences c))) as Hp.
  rewrite Hp. split; [apply storedNames_NoDup|]. intros n. rewrite Hp, storedNames_spec. set_solver.
Qed.

(** ** Witnesses

    Two peers: a copy of a CA from each of two drives, a stored key under two
    spellings, and a file without a usable name. *)

#[local] Existing Instance asciiTables.

Definition wsPeer (ca cert key : string) : Peer :=
  set_pr_WSTLSKey (str key) (set_pr_WSTLSCert (str cert) (set_pr_WSTLSCA (str ca) emptyPeer)).
Definition wsConfig : Config :=
  mkConfig (str "wg0") emptyInterface
    [wsPeer "C:\tls\ca.pem" "" "key.pem"; wsPeer "D:/CA.pem" "C:\con.pem" "KEY.pem"] ∅ [].
(** A reader that finds in every file its own name. *)
Definition echo (ref : gostring) : result gostring := Ok ref.

Example wsConfig_collected :
  map wsTLSReferences [wsConfig; (CollectWSTLSFiles echo wsConfig).2]
  = [map str ["C:\tls\ca.pem"; "key.pem"; "D:/CA.pem"; "C:\con.pem"; "KEY.pem"];
     map str ["ca.pem"; "key.pem"; "CA-2.pem"; "_con.pem"; "key.pem"]].
Proof. vm_compute. reflexivity. Qed.

Lemma uniqueWSTLSFileName_fresh_witness :
  exists name, uniqueWSTLSFileName (sanitizeWSTLSFileName (str "ca.pem")) {[str "ca.pem"; str "ca-2.pem"]} = Ok name
    /\ WSTLSFileNameIsValid name = true.
Proof.
  destruct (uniqueWSTLSFileName_fresh (str "ca.pem") {[str "ca.pem"; str "ca-2.pem"]})
    as (name & E & Hv & _); [vm_compute; reflexivity|]. exists name. exact (conj E Hv).
Defined.

Lemma CollectWSTLSFiles_imports_witness :
  exists stored c', CollectWSTLSFiles echo wsConfig = (Ok stored, c')
    /\ ValidateWSTLSFiles (map_to_list (c_WSTLSFiles c')) c' = Ok tt.
Proof.
  destruct (CollectWSTLSFiles echo wsConfig) as [[stored|e] c'] eqn:E.
  - exists stored, c'. split; [done|].
    apply (CollectWSTLSFiles_imports echo wsConfig stored c'); [vm_compute; reflexivity|done|done].
  - exfalso. assert (is_Ok (CollectWSTLSFiles echo wsConfig).1 = true) as Hk by (vm_compute; reflexivity).
    by rewrite E in Hk.
Defined.

Lemma CollectWSTLSFiles_total_witness :
  exists stored c', CollectWSTLSFiles echo wsConfig = (Ok stored, c').
Proof.
  apply CollectWSTLSFiles_total; [vm_compute; lia|].
  intros r Hr. exists r. split; [done|].
  assert (Hall : forallb (fun r => Z.of_nat (length r) <=? MaxWSTLSFileSize) (wsTLSReferences wsConfig) = true)
    by (vm_compute; reflexivity).
  rewrite forallb_forall in Hall. apply Z.leb_le, Hall. by apply list_elem_of_In.
Defined.

Definition noDisk : Disk :=
  {| disk_size := fun _ => Err (ErrCode 3); disk_read := fun _ => Err (ErrCode 3); disk_join := app |}.
Definition wsStored : Config :=
  mkConfig (str "wg0") emptyInterface [wsPeer "ca.pem" "" "key.pem"]
    {[str "ca.pem" := str "A"; str "key.pem" := str "K"]} [].

Lemma CollectWSTLSFiles_stored_witness :
  exists stored, CollectWSTLSFiles (WSTLSFileReader (H := noDisk) (c_WSTLSFiles wsStored) []) wsStored
                 = (Ok stored, wsStored).
Proof.
  destruct (CollectWSTLSFiles_stored (H0 := noDisk) wsStored []) as (stored & E & _).
  - vm_compute. reflexivity.
  - apply (ValidateWSTLSFiles_iff (map_to_list (c_WSTLSFiles wsStored))); [done|]. vm_compute. reflexivity.
  - change (wsTLSReferences wsStored) with (map str ["ca.pem"; "key.pem"]).
    repeat (apply Forall_cons; split; [reflexivity|]). apply Forall_nil. done.
  - exists stored. exact E.
Defined.

Lemma ValidateWSTLSFiles_spec_witness :
  ValidateWSTLSFiles (map_to_list (c_WSTLSFiles wsStored)) wsStored = Ok tt /\ storable wsStored.
Proof.
  assert (E : ValidateWSTLSFiles (map_to_list (c_WSTLSFiles wsStored)) wsStored = Ok tt) by (vm_compute; reflexivity).
  split; [exact E|]. exact (proj1 (ValidateWSTLSFiles_spec _ wsStored (Permutation_refl _)) E).
Defined.

(** A disk on which every remote path answers. *)
Definition remoteDisk : Disk :=
  {| disk_size := fun p => if IsWSTLSLocalPath p then Err (ErrCode 3) else Ok 1;
     disk_read := fun p => if IsWSTLSLocalPath p then Err (ErrCode 3) else Ok (str "x"); disk_join := app |}.

Lemma WSTLSFileReaders_local_witness :
  WSTLSFileReader (H := noDisk) ∅ [] (str "\\host\share\ca.pem")
  = WSTLSFileReader (H := remoteDisk) ∅ [] (str "\\host\share\ca.pem")
  /\ is_Ok (WSTLSFileReader (H := noDisk) ∅ (str "C:\") (str "\\host\share\ca.pem")) = false.
Proof.
  destruct (WSTLSFileReaders_local noDisk remoteDisk ∅ ∅ [] (str "\\host\share\ca.pem")) as (E & _ & Hu & _).
  - intros p Hp. cbn. by rewrite Hp.
  - split; [exact E|]. by eapply Hu.
Defined.
