(* ===== verification/Parser.v ===== *)
(** * conf/parser.go: wg-quick configurations as text

    [FromWgQuick] reads a file line by line. The variables its loop updates are
    the record [parser]; one line is one step, [parseLine]; the [switch key]
    statements are a lookup of the key in an enumeration of the keys of its
    section, whose cases are the cases of the statement.

    net/url's Parse, whose rules for hosts vary between Go releases, and the
    tables of package unicode are parameters; a message is its untranslated
    text, and [Err] of [nilDereference] stands for a panic. *)

From S2P Require Import Prelude GoStrings GoNum Netip Config Name.
Local Open Scope Z_scope.

(** The fields of url.URL the code reads; [u_User] is [u.User != nil]. *)
Record URL : Type := mkURL {
  u_Scheme : gostring;
  u_Opaque : gostring;
  u_User : bool;
  u_Host : gostring;
  u_Path : gostring;
  u_ForceQuery : bool;
  u_RawQuery : gostring;
  u_Fragment : gostring
}.

(** Parse rejects control characters, and percent-encoded ones in a host. *)
Class NetURL := {
  url_Parse : gostring -> option URL;
  url_Parse_host : forall s u, url_Parse s = Some u -> LF ∉ u_Host u
}.

(** url.URL.Hostname and Port. *)
Definition validOptionalPort (port : gostring) : bool :=
  match port with
  | [] => true
  | c :: digits => Ascii.eqb c ":" && forallb isDigit digits
  end.

Definition splitHostPort (hostPort : gostring) : gostring * gostring :=
  let '(host, port) :=
    match cut_last ":" hostPort with
    | Some (h, p) => if validOptionalPort (":"%char :: p) then (h, p) else (hostPort, [])
    | None => (hostPort, [])
    end in
  if HasPrefix host (str "[") && HasSuffix host (str "]")
  then (take (length host - 2) (drop 1 host), port) else (host, port).

(** ** Values *)

Definition parseIPCidr (s : gostring) : result Prefix :=
  match ParsePrefix s with
  | Some p => Ok p
  | None => match ParseAddr s with
            | Some addr => Ok (PrefixFrom addr (BitLen addr))
            | None => Err (ParseError "Invalid IP address: " s)
            end
  end.

Definition parsePort (s : gostring) : result Z :=
  let? m := Atoi s in
  if (m <? 0) || (65535 <? m) then Err (ParseError "Invalid port" s) else Ok m.

Definition startsWith (c : ascii) (s : gostring) : bool :=
  match s with d :: _ => Ascii.eqb c d | [] => false end.
Definition endsWith (c : ascii) (s : gostring) : bool :=
  match last s with Some d => Ascii.eqb c d | None => false end.

(** s[i:j] *)
Definition slice (s : gostring) (i j : Z) : gostring :=
  take (Z.to_nat (j - i)) (drop (Z.to_nat i) s).

Definition parseEndpoint (s : gostring) : result Endpoint :=
  match cut_last ":" s with
  | None => Err (ParseError "Missing port from endpoint" s)
  | Some (host, portStr) =>
      let len := Z.of_nat (length host) in
      if len <? 1 then Err (ParseError "Invalid endpoint host" host)
      else
        let? port := parsePort portStr in
        let hostColon := IndexByte host ":" in
        if startsWith "[" host || endsWith "]" host || (0 <=? hostColon) then
          let err := ParseError "Brackets must contain an IPv6 address" host in
          if (3 <? len) && startsWith "[" host && endsWith "]" host && (0 <? hostColon) then
            let i := LastIndexByte host "%" in
            let end_ := if 1 <? i then i else len - 1 in
            match ParseAddr (slice host 1 end_) with
            | Some maybeV6 =>
                if Is6 maybeV6 then Ok (mkEndpoint (slice host 1 (len - 1)) port) else Err err
            | None => Err err
            end
          else Err err
        else Ok (mkEndpoint host port)
  end.

Definition redactWSURL (s : gostring) : gostring :=
  match Cut s (str "://") with
  | (_, _, false) => str "xxxxx"
  | (scheme, rest, true) =>
      let afterUserinfo := match cut_last "@" rest with Some (_, a) => a | None => rest end in
      let slash := IndexByte afterUserinfo "/" in
      if 0 <=? slash then scheme ++ str "://xxxxx" ++ drop (Z.to_nat slash) afterUserinfo
      else scheme ++ str "://xxxxx"
  end.

Definition parseWSBool (s : gostring) : result bool :=
  if bool_decide (s = str "true") then Ok true
  else if bool_decide (s = str "false") then Ok false
  else Err (ParseError "Value must be true or false" s).

Definition parseWSMillis (s : gostring) : result Z :=
  with_err (ParseError "Invalid millisecond count" s) (ParseUint s 32).

Definition parseMTU (s : gostring) : result Z :=
  let? m := Atoi s in
  if (m <? 576) || (65535 <? m) then Err (ParseError "Invalid MTU" s) else Ok m.

Definition parsePersistentKeepalive (s : gostring) : result Z :=
  if bool_decide (s = str "off") then Ok 0
  else
    let? m := Atoi s in
    if (m <? 0) || (65535 <? m) then Err (ParseError "Invalid persistent keepalive" s) else Ok m.

Definition parseTableOff (s : gostring) : result bool :=
  if bool_decide (s = str "off") then Ok true
  else if bool_decide (s = str "auto") || bool_decide (s = str "main") then Ok false
  else let? _ := ParseUint s 32 in Ok false.

Definition parseKeyBase64 (s : gostring) : result Key :=
  match b64Decode s with
  | None => Err (ParseError "Invalid key: %v" s)
  | Some k => if (length k =? KeyLength)%nat then Ok k
              else Err (ParseError "Keys must decode to exactly 32 bytes" s)
  end.

Definition splitList (s : gostring) : result (list gostring) :=
  rmap (fun split =>
          let trim := TrimSpace split in
          if (length trim =? 0)%nat then Err (ParseError "Two commas in a row" s) else Ok trim)
       (Split "," s).

Section WebSocket.
Context `{UnicodeTables} `{NetURL}.

Definition isWSURL (s : gostring) : bool :=
  let lower := ToLower s in HasPrefix lower (str "ws://") || HasPrefix lower (str "wss://").

Definition parseWSURL (s : gostring) : result Endpoint :=
  let invalid := Err (ParseError "Invalid WebSocket endpoint URL" (redactWSURL s)) in
  match url_Parse s with
  | None => invalid
  | Some u =>
      if (negb (bool_decide (u_Scheme u = str "ws")) && negb (bool_decide (u_Scheme u = str "wss")))
         || negb (bool_decide (u_Opaque u = []))
      then invalid
      else if u_User u then
        Err (ParseError "WebSocket endpoint URL must not contain a user name or password"
               (redactWSURL s))
      else if bool_decide (u_Path u = [])
           && (negb (bool_decide (u_RawQuery u = [])) || u_ForceQuery u
               || negb (bool_decide (u_Fragment u = []))) then
        Err (ParseError "WebSocket endpoint URL query or fragment requires a path" (redactWSURL s))
      else
        let '(host, port) := splitHostPort (u_Host u) in
        if bool_decide (host = []) || bool_decide (port = []) then invalid
        else
          let host := if 0 <=? IndexByte host ":" then str "[" ++ host ++ str "]" else host in
          match parseEndpoint (host ++ str ":" ++ port) with
          | Ok e => Ok e
          | Err _ => invalid
          end
  end.

Definition parseWSMode (s : gostring) : result WSMode :=
  let mode := ToLower s in
  if bool_decide (mode = WSModeWebSocket) || bool_decide (mode = WSModeWSTunnel) then Ok mode
  else Err (ParseError "Invalid WebSocket mode" s).
End WebSocket.

Definition validateWebSocketPeer (p : Peer) (wsKeys : list gostring) : result unit :=
  let isNone := bool_decide (pr_WSMode p = WSModeNone) in
  let isWSTunnel := bool_decide (pr_WSMode p = WSModeWSTunnel) in
  let noURL := bool_decide (pr_WSURL p = []) in
  let noTarget := bool_decide (pr_WSTunnelTarget p = []) in
  if negb noURL && isNone then
    Err (ParseError "A WebSocket endpoint requires WSMode" (redactWSURL (pr_WSURL p)))
  else if noURL && negb isNone && negb (EndpointIsEmpty (pr_Endpoint p)) then
    Err (ParseError "WSMode requires a ws:// or wss:// endpoint" (EndpointString (pr_Endpoint p)))
  else if isWSTunnel && noURL then
    Err (ParseError "WSMode = wstunnel requires a ws:// or wss:// endpoint" (pr_WSMode p))
  else if isWSTunnel && noTarget then
    Err (ParseError "WSMode = wstunnel requires WSTunnelTarget" (pr_WSMode p))
  else if negb noTarget && negb isWSTunnel then
    Err (ParseError "WSTunnelTarget requires WSMode = wstunnel" (pr_WSTunnelTarget p))
  else match wsKeys with
       | k :: _ => if isNone then Err (ParseError "WebSocket settings require WSMode" k) else Ok tt
       | [] => Ok tt
       end.

(** ** Keys of the two sections *)

Inductive ikey : Type :=
  | PrivateKey | ListenPort | MTU | Address | DNS | PreUp | PostUp | PreDown | PostDown | Table.

Inductive pkey : Type :=
  | PublicKey | PresharedKey | AllowedIPs | PersistentKeepalive | EndpointKey | WSModeKey
  | WSTunnelTarget | WSBearer | WSMask | WSTLSCA | WSTLSCert | WSTLSKey | WSTLSInsecure
  | WSPingInterval | WSBackoffMin | WSBackoffMax.

#[global] Instance ikey_eq_dec : EqDecision ikey.
Proof. solve_decision. Defined.
#[global] Instance pkey_eq_dec : EqDecision pkey.
Proof. solve_decision. Defined.

Definition ikeys : list ikey :=
  [PrivateKey; ListenPort; MTU; Address; DNS; PreUp; PostUp; PreDown; PostDown; Table].
Definition pkeys : list pkey :=
  [PublicKey; PresharedKey; AllowedIPs; PersistentKeepalive; EndpointKey; WSModeKey;
   WSTunnelTarget; WSBearer; WSMask; WSTLSCA; WSTLSCert; WSTLSKey; WSTLSInsecure;
   WSPingInterval; WSBackoffMin; WSBackoffMax].

(** The names as the writer spells them; the parser compares in lower case. *)
Definition ikeyName (k : ikey) : gostring :=
  match k with
  | PrivateKey => str "PrivateKey" | ListenPort => str "ListenPort" | MTU => str "MTU"
  | Address => str "Address" | DNS => str "DNS" | PreUp => str "PreUp" | PostUp => str "PostUp"
  | PreDown => str "PreDown" | PostDown => str "PostDown" | Table => str "Table"
  end.

Definition pkeyName (k : pkey) : gostring :=
  match k with
  | PublicKey => str "PublicKey" | PresharedKey => str "PresharedKey"
  | AllowedIPs => str "AllowedIPs" | PersistentKeepalive => str "PersistentKeepalive"
  | EndpointKey => str "Endpoint" | WSModeKey => str "WSMode"
  | WSTunnelTarget => str "WSTunnelTarget" | WSBearer => str "WSBearer" | WSMask => str "WSMask"
  | WSTLSCA => str "WSTLSCA" | WSTLSCert => str "WSTLSCert" | WSTLSKey => str "WSTLSKey"
  | WSTLSInsecure => str "WSTLSInsecure" | WSPingInterval => str "WSPingInterval"
  | WSBackoffMin => str "WSBackoffMin" | WSBackoffMax => str "WSBackoffMax"
  end.

Definition lowerName (name : gostring) : gostring := map lowerByte name.

Definition ikeyOf (key : gostring) : option ikey :=
  find (fun k => bool_decide (key = lowerName (ikeyName k))) ikeys.
Definition pkeyOf (key : gostring) : option pkey :=
  find (fun k => bool_decide (key = lowerName (pkeyName k))) pkeys.

Definition scriptKeys : list gostring := map str ["preup"; "postup"; "predown"; "postdown"].

(** The keys whose case appends to peerWSKeys. *)
Definition isWSKey (k : pkey) : bool :=
  match k with
  | PublicKey | PresharedKey | AllowedIPs | PersistentKeepalive | EndpointKey | WSModeKey => false
  | _ => true
  end.

(** The cases of the [Interface] switch. *)
Definition setInterfaceKey (k : ikey) (val : gostring) (i : Interface) : result Interface :=
  match k with
  | PrivateKey => let? key := parseKeyBase64 val in Ok (set_i_PrivateKey key i)
  | ListenPort => let? p := parsePort val in Ok (set_i_ListenPort p i)
  | MTU => let? m := parseMTU val in Ok (set_i_MTU m i)
  | Address =>
      let? addresses := splitList val in
      rfold (fun i address => let? a := parseIPCidr address in
                              Ok (set_i_Addresses (i_Addresses i ++ [a]) i)) i addresses
  | DNS =>
      let? addresses := splitList val in
      Ok (fold_left (fun i address =>
            match ParseAddr address with
            | None => set_i_DNSSearch (i_DNSSearch i ++ [address]) i
            | Some a => set_i_DNS (i_DNS i ++ [a]) i
            end) addresses i)
  | PreUp => Ok (set_i_PreUp val i)
  | PostUp => Ok (set_i_PostUp val i)
  | PreDown => Ok (set_i_PreDown val i)
  | PostDown => Ok (set_i_PostDown val i)
  | Table => let? tableOff := parseTableOff val in Ok (set_i_TableOff tableOff i)
  end.

Section Parser.
Context `{UnicodeTables} `{NetURL}.

(** The cases of the [Peer] switch. *)
Definition setPeerKey (k : pkey) (val : gostring) (p : Peer) : result Peer :=
  match k with
  | PublicKey => let? key := parseKeyBase64 val in Ok (set_pr_PublicKey key p)
  | PresharedKey => let? key := parseKeyBase64 val in Ok (set_pr_PresharedKey key p)
  | AllowedIPs =>
      let? addresses := splitList val in
      rfold (fun p address => let? a := parseIPCidr address in
                              Ok (set_pr_AllowedIPs (pr_AllowedIPs p ++ [a]) p)) p addresses
  | PersistentKeepalive =>
      let? ka := parsePersistentKeepalive val in Ok (set_pr_PersistentKeepalive ka p)
  | EndpointKey =>
      if isWSURL val
      then let? e := parseWSURL val in Ok (set_pr_WSURL val (set_pr_Endpoint e p))
      else let? e := parseEndpoint val in Ok (set_pr_WSURL [] (set_pr_Endpoint e p))
  | WSModeKey => let? m := parseWSMode val in Ok (set_pr_WSMode m p)
  | WSTunnelTarget =>
      let? _ := with_err (ParseError "Invalid WSTunnelTarget" val) (parseEndpoint val) in
      Ok (set_pr_WSTunnelTarget val p)
  | WSBearer => Ok (set_pr_WSBearer val p)
  | WSMask => let? b := parseWSBool val in Ok (set_pr_WSMask b p)
  | WSTLSCA => Ok (set_pr_WSTLSCA val p)
  | WSTLSCert => Ok (set_pr_WSTLSCert val p)
  | WSTLSKey => Ok (set_pr_WSTLSKey val p)
  | WSTLSInsecure => let? b := parseWSBool val in Ok (set_pr_WSTLSInsecure b p)
  | WSPingInterval => let? m := parseWSMillis val in Ok (set_pr_WSPingInterval m p)
  | WSBackoffMin => let? m := parseWSMillis val in Ok (set_pr_WSBackoffMin m p)
  | WSBackoffMax => let? m := parseWSMillis val in Ok (set_pr_WSBackoffMax m p)
  end.
End Parser.

(** ** The loop *)

Inductive parserState : Type := inInterfaceSection | inPeerSection | notInASection.

#[global] Instance parserState_eq_dec : EqDecision parserState.
Proof. solve_decision. Defined.

Record parser : Type := mkParser {
  ps_state : parserState;
  ps_conf : Config;
  ps_sawPrivateKey : bool;
  ps_peer : option Peer;
  ps_peerWSKeys : list gostring;
  ps_pendingComments : list gostring
}.

Definition nilDereference : goerr := ErrText "invalid memory address or nil pointer dereference".

Definition maybeAddPeer (p : option Peer) (c : Config) : Config :=
  match p with Some p => set_c_Peers (c_Peers c ++ [p]) c | None => c end.

Definition finishPeer (st : parser) : result parser :=
  let? _ := match ps_peer st with
            | Some p => validateWebSocketPeer p (ps_peerWSKeys st)
            | None => Ok tt
            end in
  Ok (mkParser (ps_state st) (maybeAddPeer (ps_peer st) (ps_conf st)) (ps_sawPrivateKey st)
        None [] (ps_pendingComments st)).

(** The comments of a key or header with [before] and [comment] added. *)
Definition addComment (c : Comments) (before : list gostring) (comment : gostring) : Comments :=
  mkComments (cm_Before c ++ before)
    (if (length comment =? 0)%nat then cm_Suffix c
     else if (length (cm_Suffix c) =? 0)%nat then comment
     else cm_Suffix c ++ str " " ++ comment).

Definition addLineComment (s : SectionComments) (key : gostring) (before : list gostring)
    (comment : gostring) : SectionComments :=
  if negb (length before =? 0)%nat || negb (length comment =? 0)%nat then
    let c := default noComments (sc_Lines s !! key) in
    mkSectionComments (sc_Header s) (<[key := addComment c before comment]> (sc_Lines s))
  else s.

Definition interfaceHeader (st : parser) (comment : gostring) : parser :=
  let i := c_Interface (ps_conf st) in
  let s := i_Comments i in
  let h := addComment (sc_Header s) (ps_pendingComments st) comment in
  mkParser inInterfaceSection
    (set_c_Interface (set_i_Comments (mkSectionComments h (sc_Lines s)) i) (ps_conf st))
    (ps_sawPrivateKey st) (ps_peer st) (ps_peerWSKeys st) [].

Definition peerHeader (st : parser) (comment : gostring) : parser :=
  mkParser inPeerSection (ps_conf st) (ps_sawPrivateKey st)
    (Some (set_pr_Comments
             (mkSectionComments (mkComments (ps_pendingComments st) comment) ∅) emptyPeer))
    (ps_peerWSKeys st) [].

Definition addPending (st : parser) (comment : gostring) : parser :=
  mkParser (ps_state st) (ps_conf st) (ps_sawPrivateKey st) (ps_peer st) (ps_peerWSKeys st)
    (ps_pendingComments st ++ [comment]).

Definition interfaceField (st : parser) (key val comment : gostring) : result parser :=
  let i := c_Interface (ps_conf st) in
  let i := set_i_Comments (addLineComment (i_Comments i) key (ps_pendingComments st) comment) i in
  match ikeyOf key with
  | None => Err (ParseError "Invalid key for [Interface] section" key)
  | Some k =>
      let? i := setInterfaceKey k val i in
      Ok (mkParser (ps_state st) (set_c_Interface i (ps_conf st))
            (bool_decide (k = PrivateKey) || ps_sawPrivateKey st)
            (ps_peer st) (ps_peerWSKeys st) [])
  end.

Section Loop.
Context `{UnicodeTables} `{NetURL}.

Definition peerField (st : parser) (key val comment : gostring) : result parser :=
  match ps_peer st with
  | None => Err nilDereference
  | Some p =>
      let p := set_pr_Comments
                 (addLineComment (pr_Comments p) key (ps_pendingComments st) comment) p in
      match pkeyOf key with
      | None => Err (ParseError "Invalid key for [Peer] section" key)
      | Some k =>
          let? p := setPeerKey k val p in
          Ok (mkParser (ps_state st) (ps_conf st) (ps_sawPrivateKey st) (Some p)
                (if isWSKey k then ps_peerWSKeys st ++ [pkeyName k] else ps_peerWSKeys st) [])
      end
  end.

(** The comment of a line and the code before it. *)
Definition splitComment (line : gostring) : gostring * gostring :=
  let '(code, after, hasComment) := Cut line (str "#") in
  (code, if hasComment then str "#" ++ TrimRight after (str " " ++ [TAB; CR]) else []).

(** The body of the loop over the lines. *)
Definition parseLine (st : parser) (line : gostring) : result parser :=
  let '(code, comment) := splitComment line in
  let stripped := TrimSpace code in
  if (length stripped =? 0)%nat then
    Ok (addPending st (if negb (length comment =? 0)%nat then comment else []))
  else
    let '(key, val, hasValue) := Cut stripped (str "=") in
    let key := ToLower (TrimSpace key) in
    if bool_decide (key = str "[interface]") && negb hasValue then
      let? st := finishPeer st in Ok (interfaceHeader st comment)
    else if bool_decide (key = str "[peer]") && negb hasValue then
      let? st := finishPeer st in Ok (peerHeader st comment)
    else if bool_decide (ps_state st = notInASection) then
      Err (ParseError "Line must occur in a section" stripped)
    else if negb hasValue then
      Err (ParseError "Config key is missing an equals separator" stripped)
    else
      let '(val, comment) :=
        if bool_decide (key ∈ scriptKeys) then ((Cut line (str "=")).1.2, []) else (val, comment) in
      let val := TrimSpace val in
      if (length val =? 0)%nat then Err (ParseError "Key must have a value" stripped)
      else match ps_state st with
           | inInterfaceSection => interfaceField st key val comment
           | inPeerSection => peerField st key val comment
           | notInASection => Ok st
           end.
End Loop.

(** ** After the loop *)

Definition collapseBlank (out : list gostring) (line : gostring) : list gostring :=
  if bool_decide (line = []) && bool_decide (last out = Some []) then out else out ++ [line].

Definition pruneComments (run : list gostring) (dropLeading dropTrailing : bool) : list gostring :=
  let out := fold_left collapseBlank run [] in
  let out := if dropLeading && bool_decide (head out = Some []) then drop 1 out else out in
  let out := if dropTrailing && bool_decide (last out = Some []) then take (length out - 1) out
             else out in
  if bool_decide (out = []) || bool_decide (out = [[]]) then [] else out.

Definition pruneLine (c : Comments) : option Comments :=
  let before := pruneComments (cm_Before c) false false in
  if (length before =? 0)%nat && (length (cm_Suffix c) =? 0)%nat then None
  else Some (mkComments before (cm_Suffix c)).

Definition pruneSectionComments (s : SectionComments) : SectionComments :=
  mkSectionComments
    (mkComments (pruneComments (cm_Before (sc_Header s)) true false) (cm_Suffix (sc_Header s)))
    (omap pruneLine (sc_Lines s)).

Definition finishConfig (st : parser) : result Config :=
  let? st := finishPeer st in
  let conf := ps_conf st in
  let i := c_Interface conf in
  let conf :=
    mkConfig (c_Name conf)
      (set_i_Comments (pruneSectionComments (i_Comments i)) i)
      (map (fun p => set_pr_Comments (pruneSectionComments (pr_Comments p)) p) (c_Peers conf))
      (c_WSTLSFiles conf)
      (pruneComments (ps_pendingComments st) false true) in
  if negb (ps_sawPrivateKey st) then
    Err (ParseError "An interface must have a private key" (str "[none specified]"))
  else if existsb (fun p => KeyIsZero (pr_PublicKey p)) (c_Peers conf) then
    Err (ParseError "All peers must have public keys" (str "[none specified]"))
  else Ok conf.

Definition initialParser (name : gostring) : parser :=
  mkParser notInASection (mkConfig name emptyInterface [] ∅ []) false None [] [].

Section FromWgQuick.
Context `{UnicodeTables} `{NetURL}.

Definition FromWgQuick (s name : gostring) : result Config :=
  if negb (TunnelNameIsValid name) then Err (ParseError "Tunnel name is not valid" name)
  else
    let? st := rfold parseLine (initialParser name) (Split LF s) in
    finishConfig st.

(** [decoders] are the decoders of golang.org/x/text's unicode.All, in order. *)
Fixpoint tryDecoders (decoders : list (gostring -> option gostring)) (s name : gostring)
    (firstErr : goerr) : result Config :=
  match decoders with
  | [] => Err firstErr
  | decode :: rest =>
      match decode s with
      | Some decoded => match FromWgQuick decoded name with
                        | Ok c => Ok c
                        | Err _ => tryDecoders rest s name firstErr
                        end
      | None => tryDecoders rest s name firstErr
      end
  end.

Definition FromWgQuickWithUnknownEncoding (decoders : list (gostring -> option gostring))
    (s name : gostring) : result Config :=
  match FromWgQuick s name with
  | Ok c => Ok c
  | Err firstErr => tryDecoders decoders s name firstErr
  end.
End FromWgQuick.
