(* ===== verification/Writer.v ===== *)
(** * conf/writer.go: configurations as wg-quick text

    [ToWgQuick] writes the fields in a fixed order; the arguments of each call
    of writeField are a function of the key. *)

From S2P Require Import Prelude GoStrings GoNum Netip Config Parser.
Local Open Scope Z_scope.

Definition writeLine (c : Comments) (line : gostring) : gostring :=
  concat (map (fun before => before ++ [LF]) (cm_Before c))
  ++ line
  ++ (if negb (length (cm_Suffix c) =? 0)%nat then str " " ++ cm_Suffix c else [])
  ++ [LF].

Definition writeField (comments : SectionComments) (key : gostring) (present : bool)
    (value : gostring) : gostring :=
  let c := default noComments (sc_Lines comments !! lowerName key) in
  if negb present && (length (cm_Before c) =? 0)%nat && (length (cm_Suffix c) =? 0)%nat then []
  else writeLine c (key ++ str " = " ++ value).

(** fmt.Sprint of a bool. *)
Definition boolString (b : bool) : gostring := if b then str "true" else str "false".

(** The [value] and [present] arguments, and the fields whose call is inside an
    [if] on a list being nonempty. *)
Definition ivalue (i : Interface) (k : ikey) : gostring :=
  match k with
  | PrivateKey => KeyString (i_PrivateKey i)
  | ListenPort => itoa (i_ListenPort i)
  | MTU => itoa (i_MTU i)
  | Address => Join (map PrefixString (i_Addresses i)) (str ", ")
  | DNS => Join (map AddrString (i_DNS i) ++ i_DNSSearch i) (str ", ")
  | PreUp => i_PreUp i
  | PostUp => i_PostUp i
  | PreDown => i_PreDown i
  | PostDown => i_PostDown i
  | Table => if i_TableOff i then str "off" else str "auto"
  end.

Definition ipresent (i : Interface) (k : ikey) : bool :=
  match k with
  | PrivateKey => true
  | ListenPort => 0 <? i_ListenPort i
  | MTU => 0 <? i_MTU i
  | Address | DNS => true
  | PreUp => (0 <? length (i_PreUp i))%nat
  | PostUp => (0 <? length (i_PostUp i))%nat
  | PreDown => (0 <? length (i_PreDown i))%nat
  | PostDown => (0 <? length (i_PostDown i))%nat
  | Table => i_TableOff i
  end.

Definition iskipped (i : Interface) (k : ikey) : bool :=
  match k with
  | Address => negb (0 <? length (i_Addresses i))%nat
  | DNS => negb (0 <? length (i_DNS i) + length (i_DNSSearch i))%nat
  | _ => false
  end.

Definition pvalue (p : Peer) (k : pkey) : gostring :=
  match k with
  | PublicKey => KeyString (pr_PublicKey p)
  | PresharedKey => KeyString (pr_PresharedKey p)
  | AllowedIPs => Join (map PrefixString (pr_AllowedIPs p)) (str ", ")
  | EndpointKey => if negb (bool_decide (pr_WSURL p = [])) then pr_WSURL p
                   else EndpointString (pr_Endpoint p)
  | PersistentKeepalive => itoa (pr_PersistentKeepalive p)
  | WSModeKey => pr_WSMode p
  | WSTunnelTarget => pr_WSTunnelTarget p
  | WSMask => boolString (pr_WSMask p)
  | WSTLSCA => pr_WSTLSCA p
  | WSTLSCert => pr_WSTLSCert p
  | WSTLSKey => pr_WSTLSKey p
  | WSTLSInsecure => boolString (pr_WSTLSInsecure p)
  | WSPingInterval => itoa (pr_WSPingInterval p)
  | WSBackoffMin => itoa (pr_WSBackoffMin p)
  | WSBackoffMax => itoa (pr_WSBackoffMax p)
  | WSBearer => pr_WSBearer p
  end.

Definition ppresent (p : Peer) (k : pkey) : bool :=
  match k with
  | PublicKey => true
  | PresharedKey => negb (KeyIsZero (pr_PresharedKey p))
  | AllowedIPs => true
  | EndpointKey => negb (bool_decide (pr_WSURL p = [])) || negb (EndpointIsEmpty (pr_Endpoint p))
  | PersistentKeepalive => 0 <? pr_PersistentKeepalive p
  | WSModeKey => negb (bool_decide (pr_WSMode p = WSModeNone))
  | WSTunnelTarget => negb (bool_decide (pr_WSTunnelTarget p = []))
  | WSMask => pr_WSMask p
  | WSTLSCA => negb (bool_decide (pr_WSTLSCA p = []))
  | WSTLSCert => negb (bool_decide (pr_WSTLSCert p = []))
  | WSTLSKey => negb (bool_decide (pr_WSTLSKey p = []))
  | WSTLSInsecure => pr_WSTLSInsecure p
  | WSPingInterval => 0 <? pr_WSPingInterval p
  | WSBackoffMin => 0 <? pr_WSBackoffMin p
  | WSBackoffMax => 0 <? pr_WSBackoffMax p
  | WSBearer => negb (bool_decide (pr_WSBearer p = []))
  end.

Definition pskipped (p : Peer) (k : pkey) : bool :=
  match k with AllowedIPs => negb (0 <? length (pr_AllowedIPs p))%nat | _ => false end.

(** The order of the calls. *)
Definition iorder : list ikey :=
  [PrivateKey; ListenPort; Address; DNS; MTU; PreUp; PostUp; PreDown; PostDown; Table].
Definition porder : list pkey :=
  [PublicKey; PresharedKey; AllowedIPs; EndpointKey; PersistentKeepalive; WSModeKey;
   WSTunnelTarget; WSMask; WSTLSCA; WSTLSCert; WSTLSKey; WSTLSInsecure; WSPingInterval;
   WSBackoffMin; WSBackoffMax; WSBearer].

Definition writeInterfaceKey (i : Interface) (k : ikey) : gostring :=
  if iskipped i k then []
  else writeField (i_Comments i) (ikeyName k) (ipresent i k) (ivalue i k).

Definition writePeerKey (p : Peer) (k : pkey) : gostring :=
  if pskipped p k then []
  else writeField (pr_Comments p) (pkeyName k) (ppresent p k) (pvalue p k).

Definition writeInterface (i : Interface) : gostring :=
  writeLine (sc_Header (i_Comments i)) (str "[Interface]")
  ++ concat (map (writeInterfaceKey i) iorder).

Definition writePeer (p : Peer) : gostring :=
  [LF] ++ writeLine (sc_Header (pr_Comments p)) (str "[Peer]")
  ++ concat (map (writePeerKey p) porder).

Definition ToWgQuick (conf : Config) : gostring :=
  writeInterface (c_Interface conf)
  ++ concat (map writePeer (c_Peers conf))
  ++ concat (map (fun comment => comment ++ [LF]) (c_TrailingComments conf)).
