(* ===== verification/ConfLines.v ===== *)
(** * How the parser reads the lines the writer writes

    Comment lines, section headers and fields: for each, what one step of the
    parser does on the text of the line; then the clean-up of comments. *)

From S2P Require Import Prelude GoStrings GoNum Netip Config Name Parser Writer.
Local Open Scope Z_scope.

Definition commentCut : gostring := str " " ++ [TAB; CR].

(** A comment as the parser stores it. *)
Definition isComment (s : gostring) : Prop :=
  LF ∉ s /\ exists a, s = "#"%char :: a /\ rclean commentCut a.

(** An element of a Before list, and a Suffix. *)
Definition optComment (s : gostring) : Prop := s = [] \/ isComment s.

Definition commentsOk (c : Comments) : Prop :=
  Forall optComment (cm_Before c) /\ optComment (cm_Suffix c).

(** The text between a line's code and its end. *)
Definition suffixText (sfx : gostring) : gostring :=
  if negb (length sfx =? 0)%nat then str " " ++ sfx else [].

Lemma optComment_nil : optComment [].
Proof. by left. Qed.
#[export] Hint Resolve optComment_nil : go.

Lemma isComment_nonempty s : isComment s -> s <> [].
Proof. by intros (_ & a & -> & _). Qed.

Lemma suffixText_comment s : isComment s -> suffixText s = " "%char :: s.
Proof. by intros (_ & a & -> & _). Qed.

(** ** Comments as the parser reads them *)

Lemma splitComment_none x : "#"%char ∉ x -> splitComment x = (x, []).
Proof.
  intros Hx. unfold splitComment. change (str "#") with ["#"%char].
  by rewrite Cut_notin.
Qed.

Lemma splitComment_comment x c :
  "#"%char ∉ x -> isComment c -> splitComment (x ++ c) = (x, c).
Proof.
  intros Hx (_ & a & -> & Ha). unfold splitComment. change (str "#") with ["#"%char].
  rewrite Cut_app by done. by rewrite TrimRight_id.
Qed.

Lemma splitComment_ok line code comment :
  LF ∉ line -> splitComment line = (code, comment) ->
  optComment comment /\ LF ∉ code /\ "#"%char ∉ code.
Proof.
  intros Hlf. unfold splitComment. change (str "#") with ["#"%char].
  destruct (Cut line ["#"%char]) as [[b a] f] eqn:Ec. intros [= <- <-].
  apply Cut_spec in Ec as [Hb [[-> ->]|(-> & -> & ->)]].
  - split; [|set_solver]. right. split; [|exists (TrimRight a commentCut)].
    + cbn. intros [E|Hin]%elem_of_cons; [done|]. apply TrimRight_elem in Hin. set_solver.
    + split; [done | apply TrimRight_rclean].
  - split; [by left | done].
Qed.

Section Lines.
Context `{UnicodeTables} `{NetURL}.

Lemma parseLine_comment st s : optComment s -> parseLine st s = Ok (addPending st s).
Proof.
  intros [->|Hc]; [done|]. unfold parseLine.
  pose proof (splitComment_comment [] s ltac:(set_solver) Hc) as E. cbn [app] in E. rewrite E.
  cbn. by destruct Hc as (_ & a & -> & _).
Qed.

Definition addPendings (st : parser) (l : list gostring) : parser :=
  mkParser (ps_state st) (ps_conf st) (ps_sawPrivateKey st) (ps_peer st) (ps_peerWSKeys st)
    (ps_pendingComments st ++ l).

Lemma parseLine_comments st l :
  Forall optComment l -> rfold parseLine st l = Ok (addPendings st l).
Proof.
  intros Hl; revert st; induction Hl as [|s l Hs _ IH]; intros st; cbn.
  - unfold addPendings. rewrite app_nil_r. by destruct st.
  - rewrite parseLine_comment by done. cbn. rewrite IH. unfold addPendings, addPending. cbn.
    by rewrite <- (assoc_L (++)).
Qed.

(** ** Headers *)

Lemma splitComment_suffix x sfx :
  "#"%char ∉ x -> optComment sfx ->
  exists y, splitComment (x ++ suffixText sfx) = (y, sfx) /\ (y = x \/ y = x ++ str " ").
Proof.
  intros Hx [->|Hc].
  - exists x. cbn. rewrite app_nil_r, splitComment_none by done. auto.
  - exists (x ++ str " "). rewrite suffixText_comment by done.
    change (" "%char :: sfx) with (str " " ++ sfx). rewrite (assoc_L (++)).
    rewrite splitComment_comment; [auto | | done]. cbn. set_solver.
Qed.

Lemma parseLine_interface st sfx :
  optComment sfx ->
  parseLine st (str "[Interface]" ++ suffixText sfx)
  = (let? st := finishPeer st in Ok (interfaceHeader st sfx)).
Proof.
  intros Hs. destruct (splitComment_suffix (str "[Interface]") sfx) as (y & Hy & Ht);
    [cbn; set_solver | done|].
  unfold parseLine. rewrite Hy. destruct Ht as [-> | ->]; reflexivity.
Qed.

Lemma parseLine_peer st sfx :
  optComment sfx ->
  parseLine st (str "[Peer]" ++ suffixText sfx)
  = (let? st := finishPeer st in Ok (peerHeader st sfx)).
Proof.
  intros Hs. destruct (splitComment_suffix (str "[Peer]") sfx) as (y & Hy & Ht);
    [cbn; set_solver | done|].
  unfold parseLine. rewrite Hy. destruct Ht as [-> | ->]; reflexivity.
Qed.

(** ** Fields *)

(** What makes a text the name of a field: letters, digits and brackets aside. *)
Definition fieldName (name : gostring) : bool :=
  negb (length name =? 0)%nat
  && forallb (fun c => solid c && negb (has_byte c (str "=#[]"))) name.

Lemma fieldName_spec name :
  fieldName name = true ->
  exists c r, name = c :: r /\ solid c = true /\ "["%char <> c /\ "="%char ∉ name /\ "#"%char ∉ name
    /\ trimmed name /\ forallb isASCII name = true.
Proof.
  unfold fieldName. intros [Hl Hf]%andb_prop. destruct name as [|c r]; [done|].
  assert (Hall : forall d, d ∈ c :: r -> solid d = true /\ d ∉ str "=#[]").
  { intros d Hd. rewrite forallb_forall in Hf. apply list_elem_of_In in Hd.
    apply Hf, andb_prop in Hd as [Hs Hn]. split; [done|]. apply has_byte_false.
    by destruct (has_byte d _). }
  exists c, r. split; [done|]. split; [apply Hall; left|].
  split; [intros <-; apply (Hall "["%char); [left | cbn; set_solver]|].
  split; [intros Hd; apply (Hall "="%char Hd); cbn; set_solver|].
  split; [intros Hd; apply (Hall "#"%char Hd); cbn; set_solver|].
  split; [apply trimmed_solid, Forall_forall; intros d Hd; by apply Hall|].
  apply forallb_forall. intros d Hd%list_elem_of_In. apply Hall in Hd as [Hd _].
  unfold solid in Hd. by apply andb_prop in Hd as [? _].
Qed.

Lemma lowerByte_bracket c : lowerByte c = "["%char -> c = "["%char.
Proof. destruct c as [[][][][][][][][]]; vm_compute; done. Qed.

Lemma fieldName_not_header name h :
  fieldName name = true -> lowerName name <> "["%char :: h.
Proof.
  intros (c & r & -> & _ & Hc & _)%fieldName_spec E. apply Hc.
  injection E as E _. by apply lowerByte_bracket in E.
Qed.

(** The key and value of a field's code, whatever the comment cut off. *)
Lemma fieldName_cut name w :
  fieldName name = true ->
  Cut (name ++ " "%char :: "="%char :: w) (str "=") = (name ++ str " ", w, true).
Proof.
  intros (c & r & _ & _ & _ & He & _)%fieldName_spec. change (str "=") with ["="%char].
  change (name ++ " "%char :: "="%char :: w) with (name ++ (str " " ++ "="%char :: w)).
  rewrite (assoc_L (++)). rewrite Cut_app; [done | cbn; set_solver].
Qed.

Lemma fieldName_key name :
  fieldName name = true -> ToLower (TrimSpace (name ++ str " ")) = lowerName name.
Proof.
  intros (c & r & _ & _ & _ & _ & _ & Ht & Ha)%fieldName_spec.
  change (str " ") with [" "%char]. rewrite TrimSpace_snoc_space by done.
  by apply ToLower_ascii.
Qed.

(** The field dispatch of the loop, once key and value are known. *)
Definition fieldStep (st : parser) (key val comment : gostring) : result parser :=
  match ps_state st with
  | inInterfaceSection => interfaceField st key val comment
  | inPeerSection => peerField st key val comment
  | notInASection => Ok st
  end.

Lemma parseLine_field st name v sfx :
  fieldName name = true -> lowerName name ∉ scriptKeys -> ps_state st <> notInASection ->
  trimmed v -> v <> [] -> "#"%char ∉ v -> optComment sfx ->
  parseLine st ((name ++ str " = " ++ v) ++ suffixText sfx) = fieldStep st (lowerName name) v sfx.
Proof.
  intros Hn Hk Hst Ht Hv Hh Hs. destruct (fieldName_spec _ Hn) as (c & r & Er & Hc & Hb & He & Hhn & _ & _).
  destruct (splitComment_suffix (name ++ str " = " ++ v) sfx) as (y & Hy & Ey); [cbn; set_solver|done|].
  unfold parseLine. rewrite Hy.
  assert (Htr : TrimSpace y = name ++ " "%char :: "="%char :: " "%char :: v).
  { assert (Hf : trimmed (name ++ str " = " ++ v)).
    { rewrite Er. apply (trimmed_field c (r ++ str " =") " " v) in Hc; [|done..].
      rewrite <- (assoc_L (++)) in Hc. exact Hc. }
    destruct Ey as [-> | ->]; [by apply TrimSpace_id | by apply TrimSpace_snoc_space]. }
  rewrite Htr. rewrite length_app. cbn [length]. rewrite Nat.add_comm. cbn [Nat.add Nat.eqb].
  rewrite fieldName_cut, fieldName_key by done.
  rewrite !(bool_decide_eq_false_2 (lowerName name = _)) by (by apply fieldName_not_header).
  rewrite (bool_decide_eq_false_2 (ps_state st = _)) by done.
  rewrite (bool_decide_eq_false_2 (_ ∈ scriptKeys)) by done.
  cbn [negb andb]. rewrite TrimSpace_cons_space, TrimSpace_id by done.
  by destruct v as [|v0 v].
Qed.

(** A script's line is read past '#'. *)

Lemma strip_unsolid n s :
  exists p, s = p ++ strip rspaces n s /\ Forall (fun c => solid c = false) p.
Proof.
  revert s; induction n as [|n IH]; intros s; cbn [strip]; [by exists []|].
  destruct (lead rspaces s) as [|k] eqn:E; [by exists []|].
  destruct (lead_pos _ _ _ E) as (w & t & Hw & Hl & ->). rewrite <- Hl, drop_app_length.
  destruct (IH t) as (p & Hp & Hf). exists (w ++ p).
  rewrite <- (assoc_L (++)), <- Hp, Forall_app. repeat split; [|done].
  assert (Hall : Forall (Forall (fun c => solid c = false)) rspaces).
  { vm_compute. repeat constructor. }
  rewrite Forall_forall in Hall. by apply Hall.
Qed.

Lemma TrimSpace_keep c a d w :
  solid c = true -> solid d = true -> exists w', TrimSpace (c :: a ++ d :: w) = c :: a ++ d :: w'.
Proof.
  intros Hc Hd. unfold TrimSpace, TrimLeftSpace. rewrite strip_id by (by apply lead_solid).
  unfold TrimRightSpace. set (s := c :: a ++ d :: w).
  destruct (strip_unsolid (length s) (reverse s)) as (p & Hp & Hf).
  set (t := strip rspaces (length s) (reverse s)) in *. clearbody t.
  apply (f_equal reverse) in Hp. rewrite reverse_involutive, reverse_app in Hp. unfold s in Hp.
  change (c :: a ++ d :: w) with ((c :: a) ++ d :: w) in Hp.
  destruct (app_eq_inv _ _ _ _ Hp) as [(k & E1 & E2)|(k & E1 & E2)].
  - exfalso. assert (Hin : d ∈ reverse p) by (rewrite E2; set_solver).
    rewrite elem_of_reverse in Hin. rewrite Forall_forall in Hf. apply Hf in Hin. congruence.
  - destruct k as [|e k].
    + exfalso. assert (Hin : d ∈ reverse p) by (cbn in E2; rewrite <- E2; left).
      rewrite elem_of_reverse in Hin. rewrite Forall_forall in Hf. apply Hf in Hin. congruence.
    + injection E2 as <- _. exists k. by rewrite E1.
Qed.

Lemma splitComment_prefix line code comment :
  splitComment line = (code, comment) -> exists t, line = code ++ t /\ (t = [] \/ exists u, t = "#"%char :: u).
Proof.
  unfold splitComment. change (str "#") with ["#"%char].
  destruct (Cut line _) as [[b a] f] eqn:E. intros [= <- <-].
  apply Cut_spec in E as [_ [[-> ->]|(-> & -> & ->)]]; [|exists []; rewrite app_nil_r]; eauto.
Qed.

Lemma parseLine_script st name v :
  fieldName name = true -> lowerName name ∈ scriptKeys -> ps_state st <> notInASection ->
  trimmed v -> v <> [] ->
  parseLine st (name ++ str " = " ++ v) = fieldStep st (lowerName name) v [].
Proof.
  intros Hn Hk Hst Ht Hv. destruct (fieldName_spec _ Hn) as (c & r & Er & Hc & Hb & He & Hhn & _ & _).
  unfold parseLine. destruct (splitComment _) as [code comment] eqn:Es.
  assert (Hcode : exists w, code = name ++ " "%char :: "="%char :: w).
  { apply splitComment_prefix in Es as (t & Et & Hh).
    replace (name ++ str " = " ++ v) with ((name ++ str " =") ++ " "%char :: v) in Et
      by (by rewrite <- (assoc_L (++))).
    destruct (app_eq_inv _ _ _ _ Et) as [(k & E1 & E2)|(k & E1 & E2)].
    - destruct k as [|x k].
      + exists []. rewrite app_nil_r in E1. by rewrite <- E1.
      + exfalso. destruct Hh as [-> | (u & ->)]; [done|]. injection E2 as <- _.
        assert (Hx : "#"%char ∈ name ++ str " =") by (rewrite E1; set_solver).
        apply elem_of_app in Hx as [Hx|Hx]; [done|]. vm_compute in Hx. set_solver.
    - exists k. rewrite E1. by rewrite <- (assoc_L (++)). }
  destruct Hcode as (w & ->).
  assert (Htr : exists w', TrimSpace (name ++ " "%char :: "="%char :: w) = name ++ " "%char :: "="%char :: w').
  { rewrite Er. destruct (TrimSpace_keep c (r ++ str " ") "=" w Hc eq_refl) as (w' & Hw').
    exists w'. rewrite <- !(assoc_L (++)) in Hw'. exact Hw'. }
  destruct Htr as (w' & ->). rewrite length_app. cbn [length]. rewrite Nat.add_comm. cbn [Nat.add Nat.eqb].
  rewrite (fieldName_cut name w'), fieldName_key by done.
  rewrite !(bool_decide_eq_false_2 (lowerName name = _)) by (by apply fieldName_not_header).
  rewrite (bool_decide_eq_false_2 (ps_state st = _)) by done.
  rewrite (bool_decide_eq_true_2 (_ ∈ scriptKeys)) by done. cbn [negb andb].
  change (name ++ str " = " ++ v) with (name ++ " "%char :: "="%char :: " "%char :: v).
  rewrite fieldName_cut by done. cbn [fst snd]. rewrite TrimSpace_cons_space, TrimSpace_id by done.
  by destruct v as [|v0 v].
Qed.
End Lines.

(** ** The clean-up of comments *)

Fixpoint noDoubleBlank (l : list gostring) : Prop :=
  match l with
  | [] => True
  | x :: l' => (x = [] -> head l' <> Some []) /\ noDoubleBlank l'
  end.

(** What pruneComments guarantees of its result, for its two flags. *)
Definition pruned (dropLeading dropTrailing : bool) (l : list gostring) : Prop :=
  noDoubleBlank l /\ l <> [[]]
  /\ (dropLeading = true -> head l <> Some []) /\ (dropTrailing = true -> last l <> Some []).

Lemma pruned_nil dl dt : pruned dl dt [].
Proof. by repeat split. Qed.

Lemma noDoubleBlank_app a b :
  noDoubleBlank (a ++ b)
  <-> noDoubleBlank a /\ noDoubleBlank b /\ (last a = Some [] -> head b <> Some []).
Proof.
  induction a as [|x a IH]; cbn [app noDoubleBlank]; [cbn; naive_solver|].
  destruct a as [|y a]; [cbn; naive_solver|].
  rewrite IH. change ((y :: a) ++ b) with (y :: a ++ b). cbn [head].
  change (last (x :: y :: a)) with (last (y :: a)). tauto.
Qed.

Lemma collapse_id run acc :
  noDoubleBlank (acc ++ run) -> fold_left collapseBlank run acc = acc ++ run.
Proof.
  revert acc; induction run as [|x run IH]; intros acc Hn; cbn [fold_left]; [by rewrite app_nil_r|].
  unfold collapseBlank at 2. apply noDoubleBlank_app in Hn as Hn'. destruct Hn' as (_ & _ & Hl).
  case_bool_decide as Hx; [case_bool_decide as Hla|]; cbn [andb].
  - subst. by destruct (Hl Hla).
  - rewrite IH; rewrite <- (assoc_L (++)); done.
  - rewrite IH; rewrite <- (assoc_L (++)); done.
Qed.

Lemma collapse_spec run acc :
  noDoubleBlank acc ->
  noDoubleBlank (fold_left collapseBlank run acc)
  /\ forall x, x ∈ fold_left collapseBlank run acc -> x ∈ acc \/ x ∈ run.
Proof.
  revert acc; induction run as [|x run IH]; intros acc Ha; cbn [fold_left]; [set_solver|].
  destruct (IH (collapseBlank acc x)) as [H1 H2].
  - unfold collapseBlank. case_bool_decide; [case_bool_decide|]; cbn [andb]; [done|..];
      apply noDoubleBlank_app; cbn; naive_solver.
  - split; [done|]. intros y Hy. apply H2 in Hy as [Hy|Hy]; [|set_solver].
    revert Hy. unfold collapseBlank. case_match; set_solver.
Qed.

Lemma head_drop1 (l : list gostring) : noDoubleBlank l -> head l = Some [] -> head (drop 1 l) <> Some [].
Proof. destruct l as [|x l]; cbn; [done|]. intros [Hx _] [= ->]. by apply Hx. Qed.

Lemma last_take1 (l : list gostring) :
  noDoubleBlank l -> last l = Some [] -> last (take (length l - 1) l) <> Some [].
Proof.
  induction l as [|x l _] using rev_ind; [done|]. rewrite last_snoc. intros Hn [= ->].
  rewrite length_app, Nat.add_sub, take_app_length.
  apply noDoubleBlank_app in Hn as (_ & _ & Hn). intros E. by apply (Hn E).
Qed.

Lemma pruneComments_spec run dl dt :
  dl = false \/ dt = false ->
  pruned dl dt (pruneComments run dl dt) /\ forall x, x ∈ pruneComments run dl dt -> x ∈ run.
Proof.
  intros Hflags. unfold pruneComments.
  destruct (collapse_spec run [] I) as [Hn Hin]. revert Hn Hin.
  generalize (fold_left collapseBlank run []). intros out Hn Hin.
  assert (Hin' : forall x, x ∈ out -> x ∈ run) by (intros x Hx; destruct (Hin x Hx); [set_solver|done]).
  clear Hin.
  set (out1 := if dl && bool_decide (head out = Some []) then drop 1 out else out).
  assert (H1 : noDoubleBlank out1 /\ (dl = true -> head out1 <> Some []) /\ forall x, x ∈ out1 -> x ∈ run).
  { unfold out1. destruct dl; cbn [andb]; [|done]. case_bool_decide as Hh; [|done].
    split; [|split; [intros _; by apply head_drop1|]].
    - by destruct out as [|? ?]; [|destruct Hn].
    - intros x Hx. apply Hin'. destruct out; [set_solver|by right]. }
  clearbody out1. destruct H1 as (Hn1 & Hh1 & Hin1). clear out Hn Hin'.
  set (out2 := if dt && bool_decide (last out1 = Some []) then take (length out1 - 1) out1 else out1).
  assert (H2 : noDoubleBlank out2 /\ (dl = true -> head out2 <> Some [])
               /\ (dt = true -> last out2 <> Some []) /\ forall x, x ∈ out2 -> x ∈ run).
  { unfold out2. destruct dt; cbn [andb]; [|done]. case_bool_decide as Hh; [|done].
    destruct Hflags as [-> | ?]; [|done].
    assert (Hn1' : noDoubleBlank (take (length out1 - 1) out1 ++ drop (length out1 - 1) out1))
      by (by rewrite take_drop).
    split; [apply noDoubleBlank_app in Hn1'; tauto|].
    split; [done|]. split.
    - intros _. by apply last_take1.
    - intros x Hx. apply Hin1. rewrite <- (take_drop (length out1 - 1) out1). set_solver. }
  clearbody out2. destruct H2 as (Hn2 & Hh2 & Hl2 & Hin2).
  case_bool_decide; [split; [apply pruned_nil | set_solver]|].
  case_bool_decide; [split; [apply pruned_nil | set_solver]|]. done.
Qed.

Lemma pruneComments_id l : pruned false false l -> pruneComments l false false = l.
Proof.
  intros (Hn & Hne & _). unfold pruneComments. rewrite collapse_id by done. cbn [app andb].
  rewrite (bool_decide_eq_false_2 (l = [[]])) by done. case_bool_decide; by subst.
Qed.

Lemma pruneComments_header l : pruned true false l -> pruneComments l true false = l.
Proof.
  intros (Hn & Hne & Hh & _). unfold pruneComments. rewrite collapse_id by done. cbn [app andb].
  rewrite (bool_decide_eq_false_2 (head l = _)) by auto.
  rewrite (bool_decide_eq_false_2 (l = [[]])) by done. case_bool_decide; by subst.
Qed.

(** The blank line the writer puts before a peer disappears again. *)
Lemma pruneComments_blank_header l : pruned true false l -> pruneComments ([] :: l) true false = l.
Proof.
  intros (Hn & Hne & Hh & _). unfold pruneComments. rewrite collapse_id by (cbn; auto). cbn [app andb head].
  rewrite (bool_decide_eq_true_2 (Some [] = Some [])) by done. cbn [drop skipn].
  rewrite (bool_decide_eq_false_2 (l = [[]])) by done. case_bool_decide; by subst.
Qed.

(** So does the empty text after the last line break. *)
Lemma pruneComments_trailing l : pruned false true l -> pruneComments (l ++ [[]]) false true = l.
Proof.
  intros (Hn & Hne & _ & Hl). unfold pruneComments.
  rewrite collapse_id by (cbn [app]; apply noDoubleBlank_app; cbn; naive_solver). cbn [app andb].
  rewrite last_snoc, (bool_decide_eq_true_2 (Some [] = Some [])) by done.
  rewrite length_app, Nat.add_sub, take_app_length.
  rewrite (bool_decide_eq_false_2 (l = [[]])) by done. case_bool_decide; by subst.
Qed.

Lemma addComment_ok c before comment :
  commentsOk c -> Forall optComment before -> optComment comment ->
  commentsOk (addComment c before comment).
Proof.
  intros [Hb Hs] Hbe Hc. split; cbn; [by apply Forall_app|].
  destruct Hc as [->|Hc]; [done|].
  destruct Hc as (Hlf & a & -> & Ha). cbn [length Nat.eqb].
  destruct Hs as [->|(Hlf' & b & E & Hb')]; cbn [length Nat.eqb]; [right; split; eauto|].
  rewrite E. cbn [length Nat.eqb]. right. split.
  - rewrite <- E. rewrite not_elem_of_app, not_elem_of_cons.
    by split_and!.
  - exists (b ++ str " " ++ "#"%char :: a). split; [done|]. unfold rclean in *. intros d Hd.
    rewrite !last_app, last_cons in Hd. destruct (last a) as [x|] eqn:E'.
    + injection Hd as ->. by apply Ha.
    + injection Hd as <-. vm_compute. set_solver.
Qed.
