(* ===== verification/ConfWf.v ===== *)
(** * The configurations the parser returns

    [wfConfig] is the invariant of every configuration FromWgQuick returns:
    values in the ranges their parsers check, texts the line syntax can carry,
    comments only on keys that were set, and WebSocket settings that passed
    validation. *)

From S2P Require Import Prelude GoStrings GoNum Netip Config Name Parser Writer ConfLines.
Local Open Scope Z_scope.

(** ** Texts a line can carry *)

Definition cleanValue (v : gostring) : Prop := trimmed v /\ v <> [] /\ LF ∉ v.
Definition plainValue (v : gostring) : Prop := cleanValue v /\ "#"%char ∉ v.

Lemma cleanValue_trim v : LF ∉ v -> TrimSpace v <> [] -> cleanValue (TrimSpace v).
Proof.
  intros Hl Hn. split; [apply TrimSpace_trimmed|]. split; [done|].
  intros H. by apply TrimSpace_elem in H.
Qed.

Lemma solid_LF c : solid c = true -> c <> LF.
Proof. by intros Hs ->. Qed.

Lemma plainValue_solid v :
  v <> [] -> Forall (fun c => solid c = true /\ c <> "#"%char) v -> plainValue v.
Proof.
  intros Hn Hf. rewrite Forall_and in Hf. destruct Hf as [Hs Hh]. split; [split; [|split]|].
  - by apply trimmed_solid.
  - done.
  - eapply Forall_notin; [exact Hs | done].
  - eapply Forall_notin; [exact Hh | cbn; tauto].
Qed.

(** ** Lists *)

(** An element of a comma-separated list. *)
Definition listItem (x : gostring) : Prop := plainValue x /\ ","%char ∉ x.

Lemma splitList_spec v l :
  plainValue v -> splitList v = Ok l -> l <> [] /\ Forall listItem l.
Proof.
  intros ((_ & _ & Hlf) & Hh) Hs. unfold splitList in Hs. apply rmap_Ok in Hs.
  split.
  - intros ->. apply Forall2_nil_inv_r in Hs. by apply Split_nonempty in Hs.
  - assert (Hsp : forall p, p ∈ Split "," v -> ","%char ∉ p /\ forall x, x ∈ p -> x ∈ v)
      by (intros p Hp; by apply Split_elem).
    induction Hs as [|p x ps l Hx _ IH]; [constructor|]. constructor; [|apply IH; set_solver].
    destruct (Hsp p) as [Hc He]; [left|].
    destruct (length (TrimSpace p) =? 0)%nat eqn:E; [done|]. injection Hx as <-.
    apply Nat.eqb_neq in E. split; [split|].
    + apply cleanValue_trim; [set_solver|]. by intros E'; rewrite E' in E.
    + intros Hin. apply TrimSpace_elem in Hin. set_solver.
    + intros Hin. by apply TrimSpace_elem in Hin.
Qed.

Lemma splitList_nonempty v l : splitList v = Ok l -> l <> [].
Proof.
  unfold splitList. rewrite rmap_Ok. intros Hs ->. apply Forall2_nil_inv_r in Hs.
  by apply Split_nonempty in Hs.
Qed.

Lemma splitList_Join l :
  l <> [] -> Forall listItem l -> splitList (Join l (str ", ")) = Ok l.
Proof.
  intros Hn Hl. unfold splitList. generalize (Join l (str ", ")) at 1. intros s0. apply rmap_Ok.
  assert (Hstep : forall pre x, (pre = [] \/ pre = str " ") -> listItem x ->
    (if (length (TrimSpace (pre ++ x)) =? 0)%nat
     then Err (ParseError "Two commas in a row" s0) else Ok (TrimSpace (pre ++ x))) = Ok x
    /\ ","%char ∉ pre ++ x).
  { intros pre x Hpre [((Ht & Hne & _) & _) Hc].
    assert (TrimSpace (pre ++ x) = x) as ->.
    { destruct Hpre as [-> | ->]; cbn [str app String.list_ascii_of_string];
        rewrite ?TrimSpace_cons_space; by apply TrimSpace_id. }
    split; [by destruct x|]. destruct Hpre as [-> | ->]; cbn; set_solver. }
  assert (Hgen : forall pre, pre = [] \/ pre = str " " ->
    Forall2 (fun x y => (let trim := TrimSpace x in if (length trim =? 0)%nat
      then Err (ParseError "Two commas in a row" s0) else Ok trim) = Ok y)
      (Split "," (pre ++ Join l (str ", "))) l).
  { induction Hl as [|x l Hx Hl IH]; intros pre Hpre; [done|].
    destruct (Hstep pre x Hpre Hx) as [Hs Hc]. destruct l as [|y l].
    - cbn [Join]. rewrite Split_notin by done. constructor; [exact Hs | constructor].
    - rewrite Join_cons. change (str ", ") with (","%char :: str " ").
      cbn [app]. rewrite (assoc_L (++)), Split_cons by done. constructor; [exact Hs|].
      apply IH; auto. }
  apply (Hgen []). auto.
Qed.

(** ** Numbers, keys and addresses *)

Lemma Atoi_range_parse {lo hi why s m} :
  (let? m := Atoi s in if (m <? lo) || (hi <? m) then Err (ParseError why s) else Ok m) = Ok m ->
  lo <= m <= hi.
Proof. intros H. bind_ok H. case_match; [done|]. injection H as <-. lia. Qed.

Lemma parsePort_range s p : parsePort s = Ok p -> 0 <= p <= 65535.
Proof. apply Atoi_range_parse. Qed.

Lemma parseMTU_range s m : parseMTU s = Ok m -> 576 <= m <= 65535.
Proof. apply Atoi_range_parse. Qed.

Lemma parsePersistentKeepalive_range s m : parsePersistentKeepalive s = Ok m -> 0 <= m <= 65535.
Proof.
  unfold parsePersistentKeepalive. case_bool_decide; [intros [= <-]; lia | apply Atoi_range_parse].
Qed.

Lemma Atoi_itoa_small z : 0 <= z <= 65535 -> Atoi (itoa z) = Ok z.
Proof. intros Hz. apply Atoi_itoa. unfold maxInt. lia. Qed.

Lemma parsePort_itoa p : 0 <= p <= 65535 -> parsePort (itoa p) = Ok p.
Proof.
  intros Hp. unfold parsePort. rewrite Atoi_itoa_small by done. cbn [rbind].
  destruct (Z.ltb_spec p 0), (Z.ltb_spec 65535 p); lia || done.
Qed.

Lemma parseMTU_itoa p : 576 <= p <= 65535 -> parseMTU (itoa p) = Ok p.
Proof.
  intros Hp. unfold parseMTU. rewrite Atoi_itoa_small by lia. cbn [rbind].
  destruct (Z.ltb_spec p 576), (Z.ltb_spec 65535 p); lia || done.
Qed.

Lemma itoa_not_off p : 0 <= p -> itoa p <> str "off".
Proof.
  intros Hp E. assert (H : "o"%char ∈ itoa p) by (rewrite E; cbn; set_solver).
  pose proof (FormatUint_digits 10 ltac:(lia) p Hp) as Hd.
  unfold itoa in H. rewrite Forall_forall in Hd. apply Hd in H as (d & Hd' & E').
  assert (Hx : "o"%char = digitChar d -> False); [|auto].
  intros E''. apply (f_equal (digitVal 10)) in E''.
  rewrite digitVal_digitChar in E'' by lia. done.
Qed.

Lemma parsePersistentKeepalive_itoa p :
  0 <= p <= 65535 -> parsePersistentKeepalive (itoa p) = Ok p.
Proof.
  intros Hp. unfold parsePersistentKeepalive.
  rewrite bool_decide_eq_false_2 by (apply itoa_not_off; lia).
  rewrite Atoi_itoa_small by done. cbn [rbind].
  destruct (Z.ltb_spec p 0), (Z.ltb_spec 65535 p); lia || done.
Qed.

Lemma digitVal_nonneg base c d : digitVal base c = Some d -> 0 <= d.
Proof.
  unfold digitVal, isDigit, isLower, isUpper, in_range. repeat case_match; try done; intros [= <-]; lia.
Qed.

Lemma parseDigits_range fn s0 b hi acc s m :
  0 <= b -> 0 <= acc <= hi -> parseDigits fn s0 b hi acc s = Ok m -> 0 <= m <= hi.
Proof.
  intros Hb. revert acc; induction s as [|c s IH]; intros acc Hacc; cbn [parseDigits].
  - by intros [= <-].
  - destruct (digitVal b c) as [d|] eqn:Ed; [|done]. apply digitVal_nonneg in Ed.
    destruct (Z.ltb_spec hi (acc * b + d)); [done|]. apply IH. nia.
Qed.

Lemma parseWSMillis_range s m : parseWSMillis s = Ok m -> 0 <= m < 2 ^ 32.
Proof.
  unfold parseWSMillis, with_err. destruct (ParseUint s 32) as [n|] eqn:E; [|done].
  intros [= <-]. unfold ParseUint in E. destruct s; [done|].
  apply parseDigits_range in E; lia.
Qed.

Lemma parseWSMillis_itoa m : 0 <= m < 2 ^ 32 -> parseWSMillis (itoa m) = Ok m.
Proof. intros Hm. unfold parseWSMillis. by rewrite ParseUint_itoa. Qed.

Lemma parseWSBool_boolString b : parseWSBool (boolString b) = Ok b.
Proof. by destruct b. Qed.

Lemma parseKeyBase64_length s k : parseKeyBase64 s = Ok k -> length k = KeyLength.
Proof.
  unfold parseKeyBase64. destruct (b64Decode s); [|done]. case_match eqn:E; [|done].
  intros [= <-]. by apply Nat.eqb_eq.
Qed.

Lemma parseKeyBase64_KeyString k : length k = KeyLength -> parseKeyBase64 (KeyString k) = Ok k.
Proof.
  intros Hk. unfold parseKeyBase64, KeyString. rewrite b64Decode_b64Encode.
  by rewrite Hk, Nat.eqb_refl.
Qed.

Lemma parseIPCidr_valid s p : parseIPCidr s = Ok p -> validPrefix p.
Proof.
  unfold parseIPCidr. destruct (ParsePrefix s) eqn:E1.
  - intros [= <-]. by eapply ParsePrefix_valid.
  - destruct (ParseAddr s) as [a|] eqn:E2; [|done]. intros [= <-].
    apply PrefixFrom_Some; [by eapply ParseAddr_valid|].
    pose proof (BitLen_nonneg a). lia.
Qed.

Lemma parseIPCidr_PrefixString p : validPrefix p -> parseIPCidr (PrefixString p) = Ok p.
Proof. intros Hp. unfold parseIPCidr. by rewrite ParsePrefix_PrefixString. Qed.

(** ** Endpoints *)

Lemma endsWith_spec c s : endsWith c s = true <-> exists t, s = t ++ [c].
Proof.
  unfold endsWith. split.
  - destruct (last s) as [d|] eqn:E; [|done]. intros ->%Ascii.eqb_eq.
    apply last_Some in E as (t & ->). eauto.
  - intros (t & ->). rewrite last_snoc. by apply Ascii.eqb_eq.
Qed.

Lemma startsWith_spec c s : startsWith c s = true <-> exists t, s = c :: t.
Proof.
  destruct s as [|d t]; cbn; [split; [done | by intros (t & ?)]|].
  rewrite Ascii.eqb_eq. naive_solver.
Qed.

Lemma IndexByte_nonneg s c : (0 <=? IndexByte s c) = bool_decide (c ∈ s).
Proof.
  destruct (Z.leb_spec 0 (IndexByte s c)) as [Hl|Hl].
  - symmetry. apply bool_decide_eq_true. destruct (decide (c ∈ s)) as [|Hn]; [done|].
    apply IndexByte_neg in Hn. lia.
  - symmetry. apply bool_decide_eq_false. by apply IndexByte_neg.
Qed.

Lemma IndexByte_pos s c : s <> [] -> head s <> Some c -> (0 <? IndexByte s c) = bool_decide (c ∈ s).
Proof.
  intros Hs Hh. rewrite <- IndexByte_nonneg. destruct s as [|d s]; [done|].
  unfold IndexByte in *. cbn [cut_at prefixb] in *.
  destruct (Ascii.eqb_spec c d) as [->|Hne]; [done|]. cbn.
  destruct (cut_at [c] s) as [[b a]|]; cbn; [|done].
  destruct (Z.ltb_spec 0 (Z.pos (Pos.of_succ_nat (length b)))); [done | lia].
Qed.

(** A host in brackets, and what its brackets must hold. *)
Definition bracketed (h : gostring) : Prop :=
  ":"%char ∈ h /\ (1 < length h)%nat
  /\ exists a, ParseAddr (slice (str "[" ++ h ++ str "]") 1
       (let i := LastIndexByte (str "[" ++ h ++ str "]") "%" in
        if 1 <? i then i else Z.of_nat (length (str "[" ++ h ++ str "]")) - 1)) = Some a
     /\ Is6 a = true.

Definition bareHost (h : gostring) : Prop :=
  h <> [] /\ ":"%char ∉ h /\ startsWith "[" h = false /\ endsWith "]" h = false.

Definition hostOk (h : gostring) : Prop := bracketed h \/ bareHost h.

Lemma parseEndpoint_inv s e :
  parseEndpoint s = Ok e ->
  exists portStr, parsePort portStr = Ok (e_Port e)
    /\ (bracketed (e_Host e) /\ s = (str "[" ++ e_Host e ++ str "]") ++ ":"%char :: portStr
        \/ bareHost (e_Host e) /\ s = e_Host e ++ ":"%char :: portStr).
Proof.
  unfold parseEndpoint. destruct (cut_last ":" s) as [[host portStr]|] eqn:Ec; [|done].
  apply cut_last_Some in Ec as [-> _].
  destruct (Z.ltb_spec (Z.of_nat (length host)) 1); [done|]. intros Hs. bind_ok Hs.
  destruct (startsWith "[" host) eqn:E1; cbn [orb] in Hs; [|destruct (endsWith "]" host) eqn:E2; cbn [orb] in Hs;
    [by rewrite andb_false_r in Hs|]].
  - destruct (endsWith "]" host) eqn:E2; [|by rewrite andb_false_r in Hs].
    apply startsWith_spec in E1 as (t & ->). apply endsWith_spec in E2 as (h & Eh).
    destruct h as [|c h]; [discriminate Eh|]. injection Eh as <- ->.
    destruct (_ && _) eqn:Eg in Hs; [|done]. apply andb_prop in Eg as [Eg Ecol].
    apply andb_prop in Eg as [Eg _]. apply andb_prop in Eg as [Elen _].
    rewrite IndexByte_pos in Ecol by done. apply bool_decide_eq_true in Ecol.
    destruct (ParseAddr _) as [b|] eqn:Ea in Hs; [|done]. destruct (Is6 b) eqn:E6; [|done].
    assert (Hsl : slice ("["%char :: h ++ ["]"%char]) 1 (Z.of_nat (length ("["%char :: h ++ ["]"%char])) - 1) = h).
    { unfold slice. cbn [length]. rewrite length_app. cbn [length].
      replace (Z.to_nat _) with (length h) by lia. change (Z.to_nat 1) with 1%nat. cbn [drop skipn].
      apply take_app_length. }
    rewrite Hsl in Hs. injection Hs as <-. exists portStr. cbn [e_Host e_Port].
    split; [done|]. left. split; [|done].
    split; [set_solver|]. cbn [length] in Elen. rewrite length_app in Elen. cbn [length] in Elen.
    split; [apply Z.ltb_lt in Elen; lia|]. exists b. split; [exact Ea | done].
  - rewrite IndexByte_nonneg in Hs. case_bool_decide as Hc; [by rewrite andb_false_r in Hs|].
    injection Hs as <-. exists portStr. cbn [e_Host e_Port]. split; [done|]. right.
    split; [|done]. split; [by intros ->|]. done.
Qed.

Lemma EndpointString_eq e :
  EndpointString e = (if bool_decide (":"%char ∈ e_Host e) then str "[" ++ e_Host e ++ str "]" else e_Host e)
                     ++ ":"%char :: itoa (e_Port e).
Proof.
  unfold EndpointString. rewrite <- IndexByte_nonneg.
  assert (Hge : -1 <= IndexByte (e_Host e) ":").
  { unfold IndexByte. destruct (cut_at _ _) as [[b a]|]; lia. }
  destruct (Z.leb_spec 0 (IndexByte (e_Host e) ":")), (Z.eqb_spec (IndexByte (e_Host e) ":") (-1));
    cbn [negb]; try lia; rewrite <- ?(assoc_L (++)); done.
Qed.

Lemma parseEndpoint_EndpointString e :
  hostOk (e_Host e) -> 0 <= e_Port e <= 65535 -> parseEndpoint (EndpointString e) = Ok e.
Proof.
  intros Hh Hp. rewrite EndpointString_eq. unfold parseEndpoint.
  rewrite cut_last_app by (apply itoa_notin; [lia | cbn; set_solver]).
  destruct e as [h p]. cbn [e_Host e_Port] in *. destruct Hh as [(Hc & Hl & a & Ha & H6)|(Hne & Hc & Hs & He)].
  - rewrite bool_decide_eq_true_2 by done. set (host := str "[" ++ h ++ str "]") in *.
    assert (Hlen : Z.of_nat (length host) = Z.of_nat (length h) + 2).
    { unfold host. rewrite !length_app. cbn. lia. }
    destruct (Z.ltb_spec (Z.of_nat (length host)) 1); [lia|]. rewrite parsePort_itoa by done. cbn [rbind].
    assert (startsWith "[" host = true) as -> by done.
    assert (endsWith "]" host = true) as -> by (apply endsWith_spec; by exists ("["%char :: h)).
    rewrite IndexByte_pos by done. rewrite (bool_decide_eq_true_2 (_ ∈ host)) by (unfold host; set_solver).
    destruct (Z.ltb_spec 3 (Z.of_nat (length host))); [|lia]. cbn [orb andb].
    cbn zeta in Ha. rewrite Ha, H6. do 2 f_equal. unfold slice. rewrite Hlen.
    replace (Z.to_nat (Z.of_nat (length h) + 2 - 1 - 1)) with (length h) by lia.
    change (Z.to_nat 1) with 1%nat. cbn [drop skipn]. apply take_app_length.
  - rewrite bool_decide_eq_false_2 by done.
    destruct (Z.ltb_spec (Z.of_nat (length h)) 1); [destruct h; [done | cbn in *; lia]|].
    rewrite parsePort_itoa by done. cbn [rbind]. rewrite Hs, He, IndexByte_nonneg.
    by rewrite bool_decide_eq_false_2.
Qed.

Lemma itoa_ends p : 0 <= p -> exists t d, itoa p = t ++ [d] /\ solid d = true.
Proof.
  intros Hp. pose proof (itoa_clean p Hp) as Hc. pose proof (itoa_nonempty p) as Hn.
  induction (itoa p) as [|d t _] using rev_ind; [done|]. apply Forall_app in Hc as [_ [[Hd _] _]%Forall_cons].
  eauto.
Qed.

Lemma EndpointString_plain s e :
  plainValue s -> parseEndpoint s = Ok e -> plainValue (EndpointString e).
Proof.
  intros ((Ht & _ & Hlf) & Hh) He. apply parseEndpoint_inv in He as (ps & Hp & Hs).
  apply parsePort_range in Hp as Hr. rewrite EndpointString_eq.
  destruct (itoa_ends (e_Port e)) as (t & d & Et & Hd); [lia|].
  assert (Hport : forall c, c = LF \/ c = "#"%char -> c ∉ itoa (e_Port e)).
  { intros c Hc. eapply Forall_notin; [apply itoa_clean; lia|].
    intros [Hx Hy]. destruct Hc as [-> | ->]; [done|]. apply Hy. cbn. set_solver. }
  assert (Hhost : forall c, c ∈ e_Host e -> c ∈ s).
  { destruct Hs as [[_ ->]|[_ ->]]; set_solver. }
  set (host := if bool_decide (":"%char ∈ e_Host e) then str "[" ++ e_Host e ++ str "]" else e_Host e).
  assert (Hin : forall c, c ∈ host -> c = "["%char \/ c = "]"%char \/ c ∈ e_Host e).
  { unfold host. case_bool_decide; cbn; set_solver. }
  assert (Htr : trimmed (host ++ ":"%char :: itoa (e_Port e))).
  { rewrite Et. destruct Hs as [[(Hc & _) Es]|[(Hne & Hc & _) Es]]; unfold host.
    - rewrite bool_decide_eq_true_2 by done.
      replace ((_ ++ _ ++ _) ++ _) with ("["%char :: (e_Host e ++ str "]:" ++ t) ++ [d])
        by (cbn; by rewrite <- !(assoc_L (++))).
      by apply trimmed_solid_ends.
    - rewrite bool_decide_eq_false_2 by done. destruct Ht as [Hl _]. rewrite Es in Hl.
      split.
      + apply (lead_app_ascii spaces spaces_words); [|done..].
        by eapply lead_prefix; [apply spaces_words|].
      + rewrite app_comm_cons, (assoc_L (++)), reverse_app. cbn. by apply rlead_solid. }
  split; [split; [exact Htr|split]|].
  - by destruct host.
  - intros [Hx|Hx]%elem_of_app; [destruct (Hin _ Hx) as [?|[?|?]]; [done..|]; by apply Hlf, Hhost|].
    apply elem_of_cons in Hx as [?|Hx]; [done|]. by apply (Hport LF); [left|].
  - intros [Hx|Hx]%elem_of_app; [destruct (Hin _ Hx) as [?|[?|?]]; [done..|]; by apply Hh, Hhost|].
    apply elem_of_cons in Hx as [?|Hx]; [done|]. by apply (Hport "#"%char); [right|].
Qed.

(** A printed endpoint is never taken for a WebSocket URL. *)

Lemma prefixb_map {f : ascii -> ascii} p s :
  prefixb p (map f s) = true -> exists a t, s = a ++ t /\ map f a = p.
Proof.
  revert s; induction p as [|c p IH]; intros s; [by exists [], s|].
  destruct s as [|d s]; [done|]. cbn. intros [->%Ascii.eqb_eq Hp]%andb_prop.
  apply IH in Hp as (a & t & -> & <-). by exists (d :: a), t.
Qed.

Lemma lowerByte_special c :
  (lowerByte c = ":"%char -> c = ":"%char) /\ (lowerByte c = "/"%char -> c = "/"%char)
  /\ (lowerByte c = "w"%char -> c <> ":"%char /\ c <> "["%char) /\ (lowerByte c = "s"%char -> c <> ":"%char).
Proof. destruct c as [[][][][][][][][]]; vm_compute; split_and!; try done; intros; split; done. Qed.

Section WSURL.
Context `{UnicodeTables}.

Lemma isWSURL_shape s :
  isWSURL s = true ->
  exists a t, s = a ++ ":"%char :: "/"%char :: t /\ ":"%char ∉ a /\ startsWith "[" s = false /\ a <> [].
Proof.
  unfold isWSURL. intros [Hp|Hp]%orb_prop;
    (apply ToLower_prefix in Hp; [|repeat constructor; done]);
    unfold HasPrefix in Hp; apply prefixb_map in Hp as (a & t & -> & Ha).
  - destruct a as [|c0 [|c1 [|c2 [|c3 [|c4 [|]]]]]]; try discriminate Ha.
    injection Ha as H0 H1 H2 H3 H4. apply lowerByte_special in H2 as ->, H3 as ->, H0 as [H0 H0'], H1.
    exists [c0; c1], (c4 :: t). split; [done|]. split; [set_solver|]. split; [|done].
    cbn [app startsWith]. apply Ascii.eqb_neq. congruence.
  - destruct a as [|c0 [|c1 [|c2 [|c3 [|c4 [|c5 [|]]]]]]]; try discriminate Ha.
    injection Ha as H0 H1 H2 H3 H4 H5.
    apply lowerByte_special in H3 as ->, H4 as ->, H0 as [H0 H0'], H1, H2.
    exists [c0; c1; c2], (c5 :: t). split; [done|]. split; [set_solver|]. split; [|done].
    cbn [app startsWith]. apply Ascii.eqb_neq. congruence.
Qed.

Lemma isWSURL_EndpointString e :
  hostOk (e_Host e) -> 0 <= e_Port e -> isWSURL (EndpointString e) = false.
Proof.
  intros Hh Hp. destruct (isWSURL _) eqn:E; [|done]. exfalso.
  apply isWSURL_shape in E as (a & t & Es & Ha & Hb & _). rewrite EndpointString_eq in Es, Hb.
  destruct Hh as [(Hc & _)|(Hne & Hc & _)].
  - rewrite bool_decide_eq_true_2 in Hb by done. done.
  - rewrite bool_decide_eq_false_2 in Es by done.
    pose proof (cut_byte_app ":" (e_Host e) (itoa (e_Port e)) Hc) as E1.
    pose proof (cut_byte_app ":" a ("/"%char :: t) Ha) as E2. rewrite <- Es, E1 in E2.
    injection E2 as _ E2. pose proof (itoa_notin (e_Port e) "/" Hp) as Hn.
    rewrite E2 in Hn. apply Hn; [cbn|]; set_solver.
Qed.
End WSURL.

(** ** DNS servers *)

Definition dnsAddr (a : Addr) : Prop := validAddr a /\ listItem (AddrString a).
Definition dnsName (s : gostring) : Prop := listItem s /\ ParseAddr s = None.

Lemma addrByte_item s : s <> [] -> Forall addrByte s -> listItem s.
Proof.
  intros Hn Hs. split.
  - apply plainValue_solid; [done|]. eapply Forall_impl; [exact Hs|].
    intros c [H1 H2]. split; [done|]. intros ->. apply H2. cbn. set_solver.
  - eapply Forall_notin; [exact Hs|]. intros [_ H2]. apply H2. cbn. set_solver.
Qed.

Lemma body6_head v : exists c r, body6 v = c :: r /\ solid c = true.
Proof.
  pose proof (body6_addrByte v) as Hb. destruct (body6_colon v) as (p & q & E & _).
  destruct (body6 v) as [|c r]; [by destruct p|]. apply Forall_cons in Hb as [[Hc _] _]. eauto.
Qed.

Lemma trimmed_app_right c a d v :
  solid c = true -> isASCII d = true -> lead rspaces (reverse v) = 0%nat -> v <> [] ->
  trimmed (c :: a ++ d :: v).
Proof.
  intros Hc Hd Hv Hne. split; [by apply lead_solid|].
  rewrite reverse_cons, reverse_app, reverse_cons, <- !(assoc_L (++)).
  apply (lead_app_ascii rspaces rspaces_words); [done| |done].
  intros E. apply Hne. by rewrite <- (reverse_involutive v), E.
Qed.

Lemma ParseAddr_dnsAddr s a : listItem s -> ParseAddr s = Some a -> dnsAddr a.
Proof.
  intros [((Ht & _ & Hlf) & Hh) Hc] Ha. split; [by eapply ParseAddr_valid|].
  destruct a as [|v|v z].
  - by apply ParseAddr_valid in Ha.
  - apply addrByte_item; [|apply string4_addrByte]. intros E.
    pose proof (ParseAddr_AddrString (Addr4 v) (ParseAddr_valid _ _ Ha)) as E'. by rewrite E in E'.
  - rewrite AddrString6. destruct (body6_head v) as (c & r & Eb & Hsol).
    apply ParseAddr_zone in Ha as [->|(p & Es)]; cbn [zoneSuffix].
    { rewrite app_nil_r. apply addrByte_item; [by rewrite Eb | apply body6_addrByte]. }
    destruct z as [|z0 z]; cbn [zoneSuffix].
    { rewrite app_nil_r. apply addrByte_item; [by rewrite Eb | apply body6_addrByte]. }
    assert (Hbody : forall x, ~ addrByte x -> x ∉ body6 v) by (intros x; apply Forall_notin, body6_addrByte).
    change (str "%" ++ z0 :: z) with ("%"%char :: z0 :: z).
    split; [split; [split; [|split]|]|].
    + rewrite Eb. apply trimmed_app_right; [done..| |done].
      destruct Ht as [_ Ht]. rewrite Es, reverse_app, (reverse_cons (z0 :: z)), <- !(assoc_L (++)) in Ht.
      by eapply lead_prefix; [apply rspaces_words|].
    + by rewrite Eb.
    + intros [Hx|Hx]%elem_of_app; [|set_solver]. by apply Hbody in Hx; [|intros []].
    + intros [Hx|Hx]%elem_of_app; [|set_solver].
      apply Hbody in Hx; [done|]. intros [_ Hn]. apply Hn. cbn. set_solver.
    + intros [Hx|Hx]%elem_of_app; [|set_solver].
      apply Hbody in Hx; [done|]. intros [_ Hn]. apply Hn. cbn. set_solver.
Qed.

(** ** Fields *)

Definition optScript (v : gostring) : Prop := v = [] \/ cleanValue v.
Definition optValue (v : gostring) : Prop := v = [] \/ plainValue v.

Definition ifieldOk (i : Interface) (k : ikey) : Prop :=
  match k with
  | PrivateKey => length (i_PrivateKey i) = KeyLength
  | ListenPort => 0 <= i_ListenPort i <= 65535
  | MTU => i_MTU i = 0 \/ 576 <= i_MTU i <= 65535
  | Address => Forall validPrefix (i_Addresses i)
  | DNS => Forall dnsAddr (i_DNS i) /\ Forall dnsName (i_DNSSearch i)
  | PreUp => optScript (i_PreUp i)
  | PostUp => optScript (i_PostUp i)
  | PreDown => optScript (i_PreDown i)
  | PostDown => optScript (i_PostDown i)
  | Table => True
  end.

(** What is left of a key having been set: a value the writer can write. *)
Definition iset (i : Interface) (k : ikey) : Prop :=
  match k with
  | PrivateKey | ListenPort | Table => True
  | MTU => i_MTU i <> 0
  | Address => i_Addresses i <> []
  | DNS => i_DNS i <> [] \/ i_DNSSearch i <> []
  | PreUp => i_PreUp i <> []
  | PostUp => i_PostUp i <> []
  | PreDown => i_PreDown i <> []
  | PostDown => i_PostDown i <> []
  end.

Definition isScript (k : ikey) : bool :=
  match k with PreUp | PostUp | PreDown | PostDown => true | _ => false end.

Section PeerFields.
Context `{UnicodeTables} `{NetURL}.

(** The endpoint of a peer: unset, a host and port, or that of its URL. *)
Definition endpointOk (p : Peer) : Prop :=
  if bool_decide (pr_WSURL p = []) then
    pr_Endpoint p = emptyEndpoint
    \/ hostOk (e_Host (pr_Endpoint p)) /\ 0 <= e_Port (pr_Endpoint p) <= 65535
       /\ plainValue (EndpointString (pr_Endpoint p))
  else plainValue (pr_WSURL p) /\ isWSURL (pr_WSURL p) = true
       /\ parseWSURL (pr_WSURL p) = Ok (pr_Endpoint p).

Definition pfieldOk (p : Peer) (k : pkey) : Prop :=
  match k with
  | PublicKey => length (pr_PublicKey p) = KeyLength
  | PresharedKey => length (pr_PresharedKey p) = KeyLength
  | AllowedIPs => Forall validPrefix (pr_AllowedIPs p)
  | PersistentKeepalive => 0 <= pr_PersistentKeepalive p <= 65535
  | EndpointKey => endpointOk p
  | WSModeKey => pr_WSMode p = WSModeNone \/ pr_WSMode p = WSModeWebSocket
                 \/ pr_WSMode p = WSModeWSTunnel
  | WSTunnelTarget => pr_WSTunnelTarget p = []
      \/ plainValue (pr_WSTunnelTarget p) /\ is_Ok (parseEndpoint (pr_WSTunnelTarget p)) = true
  | WSBearer => optValue (pr_WSBearer p)
  | WSTLSCA => optValue (pr_WSTLSCA p)
  | WSTLSCert => optValue (pr_WSTLSCert p)
  | WSTLSKey => optValue (pr_WSTLSKey p)
  | WSMask | WSTLSInsecure => True
  | WSPingInterval => 0 <= pr_WSPingInterval p < 2 ^ 32
  | WSBackoffMin => 0 <= pr_WSBackoffMin p < 2 ^ 32
  | WSBackoffMax => 0 <= pr_WSBackoffMax p < 2 ^ 32
  end.

Definition pset (p : Peer) (k : pkey) : Prop :=
  match k with
  | AllowedIPs => pr_AllowedIPs p <> []
  | EndpointKey => pr_WSURL p <> [] \/ pr_Endpoint p <> emptyEndpoint
  | WSModeKey => pr_WSMode p <> WSModeNone
  | WSTunnelTarget => pr_WSTunnelTarget p <> []
  | WSBearer => pr_WSBearer p <> []
  | WSTLSCA => pr_WSTLSCA p <> []
  | WSTLSCert => pr_WSTLSCert p <> []
  | WSTLSKey => pr_WSTLSKey p <> []
  | _ => True
  end.

(** ** What one field does *)

Lemma addresses_spec {X} (get : X -> list Prefix) (put : list Prefix -> X -> X) x l x' :
  (forall a x, get (put a x) = a) -> (forall a b x, put a (put b x) = put a x) ->
  (forall x, put (get x) x = x) ->
  rfold (fun x address => let? a := parseIPCidr address in Ok (put (get x ++ [a]) x)) x l = Ok x' ->
  exists ps, x' = put (get x ++ ps) x /\ length ps = length l /\ Forall validPrefix ps.
Proof.
  intros Hgp Hpp Hpg. revert x; induction l as [|s l IH]; intros x; cbn [rfold].
  - intros [= <-]. exists []. rewrite app_nil_r, Hpg. done.
  - intros Hf. bind_ok Hf. apply rbind_Ok in Hb as (p & Hp & [= <-]).
    apply IH in Hf as (ps & -> & Hl & Hv). exists (p :: ps). rewrite Hgp, Hpp, <- (assoc_L (++)).
    split; [done|]. split; [cbn; lia|]. constructor; [by eapply parseIPCidr_valid | done].
Qed.

Lemma dns_spec l i :
  Forall listItem l ->
  exists as_ ns, fold_left (fun i address =>
      match ParseAddr address with
      | None => set_i_DNSSearch (i_DNSSearch i ++ [address]) i
      | Some a => set_i_DNS (i_DNS i ++ [a]) i
      end) l i = set_i_DNS (i_DNS i ++ as_) (set_i_DNSSearch (i_DNSSearch i ++ ns) i)
    /\ (length as_ + length ns)%nat = length l /\ Forall dnsAddr as_ /\ Forall dnsName ns.
Proof.
  intros Hl; revert i; induction Hl as [|s l Hs _ IH]; intros i; cbn [fold_left].
  - exists [], []. rewrite !app_nil_r. by destruct i.
  - destruct (ParseAddr s) as [a|] eqn:Ea.
    + destruct (IH (set_i_DNS (i_DNS i ++ [a]) i)) as (as_ & ns & -> & Hlen & Ha & Hn).
      exists (a :: as_), ns. split; [cbn; by rewrite <- (assoc_L (++))|].
      split; [cbn; lia|]. split; [|done]. constructor; [by eapply ParseAddr_dnsAddr | done].
    + destruct (IH (set_i_DNSSearch (i_DNSSearch i ++ [s]) i)) as (as_ & ns & -> & Hlen & Ha & Hn).
      exists as_, (s :: ns). split; [cbn; by rewrite <- (assoc_L (++))|].
      split; [cbn; lia|]. split; [done|]. constructor; [by split | done].
Qed.

(** [i'] is [i] with key [k] set to something acceptable. *)
Definition iupdated (k : ikey) (i i' : Interface) : Prop :=
  ifieldOk i' k /\ iset i' k /\ i_Comments i' = i_Comments i
  /\ forall k', k' <> k -> ifieldOk i' k' = ifieldOk i k' /\ iset i' k' = iset i k'.

Lemma setInterfaceKey_updated k v i i' :
  cleanValue v -> (isScript k = false -> "#"%char ∉ v) -> ifieldOk i k ->
  setInterfaceKey k v i = Ok i' -> iupdated k i i'.
Proof.
  intros Hv Hh Hi Hs. destruct k; cbn [setInterfaceKey] in Hs; bind_ok Hs; unfold iupdated;
    try (assert (Hpv : plainValue v) by (by split; [|apply Hh])).
  - injection Hs as <-. apply parseKeyBase64_length in Hb. split_and!; [done..|by intros []].
  - injection Hs as <-. apply parsePort_range in Hb. split_and!; [cbn; lia.. |done|done|by intros []].
  - injection Hs as <-. apply parseMTU_range in Hb. split_and!; [cbn; lia.. |done|by intros []].
  - apply splitList_nonempty in Hb as Hne.
    apply (addresses_spec i_Addresses set_i_Addresses) in Hs as (ps & -> & Hlen & Hps);
      [|done|done|by intros []].
    split_and!; [by apply Forall_app| |done|by intros []].
    cbn. destruct ps, a; cbn in *; try congruence. by destruct (i_Addresses i).
  - apply splitList_spec in Hb as [Hne Hit]; [|done]. injection Hs as <-.
    destruct (dns_spec a i Hit) as (as_ & ns & -> & Hlen & Has & Hns). destruct Hi as [Hd1 Hd2].
    split_and!; [by split; apply Forall_app | |done|by intros []].
    cbn. rewrite !app_nil. destruct as_, ns, a; cbn in *; naive_solver.
  - injection Hs as <-. split_and!; [by right | apply Hv | done | by intros []].
  - injection Hs as <-. split_and!; [by right | apply Hv | done | by intros []].
  - injection Hs as <-. split_and!; [by right | apply Hv | done | by intros []].
  - injection Hs as <-. split_and!; [by right | apply Hv | done | by intros []].
  - injection Hs as <-. split_and!; [done.. | by intros []].
Qed.

(** A field keeps the invariants of the interface. *)
Lemma iupdated_ok k i i' :
  iupdated k i i' -> (forall k', ifieldOk i k') ->
  (forall k', ifieldOk i' k') /\ (forall k', k' = k \/ iset i k' -> iset i' k').
Proof.
  intros (Hf & Hs & _ & Hfr) Hi. split; intros k'; destruct (decide (k' = k)) as [->|Hne]; try done.
  - destruct (Hfr k' Hne) as [-> _]. apply Hi.
  - destruct (Hfr k' Hne) as [_ ->]. tauto.
Qed.

(** The same for peers. *)
Definition pupdated (k : pkey) (p p' : Peer) : Prop :=
  pfieldOk p' k /\ pset p' k /\ pr_Comments p' = pr_Comments p
  /\ (pr_RxBytes p', pr_TxBytes p', pr_LastHandshakeTime p')
     = (pr_RxBytes p, pr_TxBytes p, pr_LastHandshakeTime p)
  /\ forall k', k' <> k -> pfieldOk p' k' = pfieldOk p k' /\ pset p' k' = pset p k'
                         /\ ppresent p' k' = ppresent p k'.

Lemma hostOk_nonempty h : hostOk h -> h <> [].
Proof. intros [(_ & Hl & _)|(Hn & _)]; [|done]. by destruct h; cbn in Hl; [lia|]. Qed.

Lemma parseEndpoint_hostOk s e :
  parseEndpoint s = Ok e -> hostOk (e_Host e) /\ 0 <= e_Port e <= 65535.
Proof.
  intros (ps & Hp & Hs)%parseEndpoint_inv. apply parsePort_range in Hp. split; [|done].
  destruct Hs as [[? _]|[? _]]; [by left | by right].
Qed.

Lemma setPeerKey_endpoint v p p' :
  plainValue v -> setPeerKey EndpointKey v p = Ok p' -> pupdated EndpointKey p p'.
Proof.
  intros Hv. pose proof Hv as [(_ & Hne & _) _]. cbn [setPeerKey].
  destruct (isWSURL v) eqn:Ew; intros Hs; bind_ok Hs; injection Hs as <-.
  - split_and!; [|by left|done|done|by intros []].
    cbn. unfold endpointOk. cbn. by rewrite bool_decide_eq_false_2.
  - destruct (parseEndpoint_hostOk _ _ Hb) as [Hh Hp].
    split_and!; [| |done|done|by intros []]; cbn; unfold endpointOk; cbn.
    + right. split; [done|]. split; [done|]. by eapply EndpointString_plain.
    + right. intros ->. by apply hostOk_nonempty in Hh.
Qed.

Lemma parseWSMode_spec v m :
  parseWSMode v = Ok m -> m = WSModeWebSocket \/ m = WSModeWSTunnel.
Proof.
  unfold parseWSMode. repeat case_bool_decide; cbn [orb]; try done; intros [= <-]; auto.
Qed.

Lemma setPeerKey_updated k v p p' :
  plainValue v -> pfieldOk p k -> setPeerKey k v p = Ok p' -> pupdated k p p'.
Proof.
  intros Hv Hp Hs. pose proof Hv as [(_ & Hne & _) _].
  destruct (decide (k = EndpointKey)) as [->|Hk]; [by eapply setPeerKey_endpoint|].
  destruct k; try done; cbn [setPeerKey] in Hs; bind_ok Hs; try (injection Hs as <-); unfold pupdated.
  - apply parseKeyBase64_length in Hb. split_and!; [done..|by intros []].
  - apply parseKeyBase64_length in Hb. split_and!; [done..|by intros []].
  - apply splitList_nonempty in Hb as Hne'.
    apply (addresses_spec pr_AllowedIPs set_pr_AllowedIPs) in Hs as (ps & -> & Hlen & Hps);
      [|done|done|by intros []].
    split_and!; [by apply Forall_app| |done|done|by intros []].
    cbn. destruct ps, a; cbn in *; try congruence. by destruct (pr_AllowedIPs p).
  - apply parsePersistentKeepalive_range in Hb. split_and!; [cbn; lia|done..|by intros []].
  - apply parseWSMode_spec in Hb as Hm.
    split_and!; [by right| |done|done|by intros []]. cbn. by destruct Hm as [-> | ->].
  - split_and!; [|done..|by intros []]. right. split; [done|]. cbn.
    by destruct (parseEndpoint v).
  - split_and!; [by right|done..|by intros []].
  - split_and!; [done..|by intros []].
  - split_and!; [by right|done..|by intros []].
  - split_and!; [by right|done..|by intros []].
  - split_and!; [by right|done..|by intros []].
  - split_and!; [done..|by intros []].
  - apply parseWSMillis_range in Hb. split_and!; [cbn; lia|done..|by intros []].
  - apply parseWSMillis_range in Hb. split_and!; [cbn; lia|done..|by intros []].
  - apply parseWSMillis_range in Hb. split_and!; [cbn; lia|done..|by intros []].
Qed.

Lemma pupdated_ok k p p' :
  pupdated k p p' -> (forall k', pfieldOk p k') ->
  (forall k', pfieldOk p' k') /\ (forall k', k' = k \/ pset p k' -> pset p' k').
Proof.
  intros (Hf & Hs & _ & _ & Hfr) Hp. split; intros k'; destruct (decide (k' = k)) as [->|Hne]; try done.
  - destruct (Hfr k' Hne) as [-> _]. apply Hp.
  - destruct (Hfr k' Hne) as (_ & -> & _). tauto.
Qed.
End PeerFields.

(** ** Sections *)

(** The comments of a section before the clean-up: on keys [set] holds of. *)
Definition sectionOk (scripts : list gostring) (set : gostring -> Prop) (s : SectionComments) : Prop :=
  commentsOk (sc_Header s)
  /\ forall key c, sc_Lines s !! key = Some c ->
       set key /\ commentsOk c /\ (key ∈ scripts -> cm_Suffix c = []).

(** And after it. *)
Definition wfSection (scripts : list gostring) (set : gostring -> Prop) (s : SectionComments) : Prop :=
  sectionOk scripts set s /\ pruned true false (cm_Before (sc_Header s))
  /\ forall key c, sc_Lines s !! key = Some c ->
       pruned false false (cm_Before c) /\ (cm_Before c <> [] \/ cm_Suffix c <> []).

Definition isetKey (i : Interface) (key : gostring) : Prop :=
  exists k, key = lowerName (ikeyName k) /\ iset i k.
Definition psetKey (p : Peer) (key : gostring) : Prop :=
  exists k, key = lowerName (pkeyName k) /\ pset p k.

Lemma ikeyOf_spec key k : ikeyOf key = Some k -> key = lowerName (ikeyName k).
Proof. unfold ikeyOf. intros [_ E]%find_some. by apply bool_decide_eq_true in E. Qed.

Lemma pkeyOf_spec key k : pkeyOf key = Some k -> key = lowerName (pkeyName k).
Proof. unfold pkeyOf. intros [_ E]%find_some. by apply bool_decide_eq_true in E. Qed.

Lemma ikeyOf_name k : ikeyOf (lowerName (ikeyName k)) = Some k.
Proof. by destruct k. Qed.

Lemma pkeyOf_name k : pkeyOf (lowerName (pkeyName k)) = Some k.
Proof. by destruct k. Qed.

Lemma ikey_script k : lowerName (ikeyName k) ∈ scriptKeys <-> isScript k = true.
Proof.
  rewrite <- (bool_decide_eq_true (_ ∈ scriptKeys)). by destruct k.
Qed.

Lemma pkey_script k : lowerName (pkeyName k) ∉ scriptKeys.
Proof. apply (bool_decide_eq_false (_ ∈ scriptKeys)). by destruct k. Qed.

Lemma addLineComment_ok scripts (set set' : gostring -> Prop) s key before comment :
  sectionOk scripts set s -> Forall optComment before -> optComment comment ->
  (key ∈ scripts -> comment = []) -> set' key -> (forall k, set k -> set' k) ->
  sectionOk scripts set' (addLineComment s key before comment).
Proof.
  intros [Hh Hl] Hb Hc Hscr Hk Hset. unfold addLineComment. destruct (_ || _).
  - split; [done|]. cbn [sc_Lines]. intros key' c.
    destruct (decide (key' = key)) as [->|Hne].
    + rewrite lookup_insert_eq. intros [= <-].
      destruct (sc_Lines s !! key) as [c0|] eqn:E; cbn [default from_option].
      * apply Hl in E as (Hs & Hc0 & Hs0). split; [done|]. split; [by apply addComment_ok|].
        intros Hin. cbn. rewrite Hscr by done. cbn. by apply Hs0.
      * split; [done|]. split; [by apply addComment_ok; [split|..]; auto with go|].
        intros Hin. cbn. by rewrite Hscr.
    + rewrite lookup_insert_ne by done. intros Hlk. apply Hl in Hlk as (? & ? & ?). eauto.
  - split; [done|]. intros key' c Hlk. apply Hl in Hlk as (? & ? & ?). eauto.
Qed.

Lemma sectionOk_impl scripts (set set' : gostring -> Prop) s :
  sectionOk scripts set s -> (forall k, set k -> set' k) -> sectionOk scripts set' s.
Proof. intros [Hh Hl] Hi. split; [done|]. intros key c Hc. apply Hl in Hc as (? & ? & ?). eauto. Qed.

Lemma prune_comments_ok b dl dt :
  dl = false \/ dt = false -> Forall optComment b -> Forall optComment (pruneComments b dl dt).
Proof.
  intros Hf Hb. apply Forall_forall. intros x Hx.
  apply (pruneComments_spec b dl dt Hf) in Hx. rewrite Forall_forall in Hb. by apply Hb.
Qed.

Lemma pruneSection_wf scripts set s :
  sectionOk scripts set s -> wfSection scripts set (pruneSectionComments s).
Proof.
  intros [[Hb Hs] Hl].
  assert (Hlk : forall key c, sc_Lines (pruneSectionComments s) !! key = Some c ->
    exists c0, sc_Lines s !! key = Some c0 /\ pruneLine c0 = Some c).
  { intros key c. cbn [pruneSectionComments sc_Lines]. rewrite lookup_omap.
    destruct (sc_Lines s !! key); cbn; [eauto | done]. }
  assert (Hpl : forall c0 c, pruneLine c0 = Some c -> cm_Suffix c = cm_Suffix c0
    /\ cm_Before c = pruneComments (cm_Before c0) false false /\ (cm_Before c <> [] \/ cm_Suffix c <> [])).
  { intros c0 c. unfold pruneLine. destruct (_ && _) eqn:E; [done|]. intros [= <-]. cbn.
    split; [done|]. split; [done|]. apply andb_false_iff in E as [E|E]; apply Nat.eqb_neq in E;
      [left|right]; intros E'; by rewrite E' in E. }
  split; [split|split].
  - split; cbn; [by apply prune_comments_ok; [right|] | done].
  - intros key c (c0 & H0 & Hp)%Hlk. apply Hl in H0 as (Hset & [Hb0 Hs0] & Hscr).
    destruct (Hpl _ _ Hp) as (Es & Eb & _). rewrite Es. split; [done|]. split; [|done].
    split; rewrite ?Es, ?Eb; [by apply prune_comments_ok; [left|] | done].
  - cbn. apply pruneComments_spec. by right.
  - intros key c (c0 & H0 & Hp)%Hlk. destruct (Hpl _ _ Hp) as (Es & Eb & Hne).
    split; [|done]. rewrite Eb. apply pruneComments_spec. by left.
Qed.

(** ** Configurations *)

Section WfConfig.
Context `{UnicodeTables} `{NetURL}.

(** No WebSocket key but WSMode was set. *)
Definition noWSKeys (p : Peer) : Prop :=
  forall k, isWSKey k = true ->
    ppresent p k = false /\ sc_Lines (pr_Comments p) !! lowerName (pkeyName k) = None.

Definition interfaceOk (i : Interface) : Prop :=
  (forall k, ifieldOk i k) /\ sectionOk scriptKeys (isetKey i) (i_Comments i).

(** A peer being read, with the WS keys seen so far, and one that is done. *)
Definition peerReading (p : Peer) (wsKeys : list gostring) : Prop :=
  (forall k, pfieldOk p k) /\ sectionOk [] (psetKey p) (pr_Comments p)
  /\ (pr_RxBytes p, pr_TxBytes p, pr_LastHandshakeTime p) = (0, 0, 0)
  /\ (wsKeys = [] -> noWSKeys p).

Definition peerDone (p : Peer) : Prop :=
  peerReading p [WSModeWebSocket] /\ validateWebSocketPeer p [] = Ok tt
  /\ (pr_WSMode p = WSModeNone -> noWSKeys p).

Definition parserOk (name : gostring) (st : parser) : Prop :=
  c_Name (ps_conf st) = name /\ c_WSTLSFiles (ps_conf st) = ∅
  /\ c_TrailingComments (ps_conf st) = []
  /\ interfaceOk (c_Interface (ps_conf st))
  /\ Forall peerDone (c_Peers (ps_conf st))
  /\ match ps_peer st with Some p => peerReading p (ps_peerWSKeys st) | None => ps_peerWSKeys st = [] end
  /\ (ps_state st = inPeerSection -> ps_peer st <> None)
  /\ Forall optComment (ps_pendingComments st).

Definition wfInterface (i : Interface) : Prop :=
  (forall k, ifieldOk i k) /\ wfSection scriptKeys (isetKey i) (i_Comments i).

Definition wfPeer (p : Peer) : Prop :=
  (forall k, pfieldOk p k) /\ wfSection [] (psetKey p) (pr_Comments p)
  /\ (pr_RxBytes p, pr_TxBytes p, pr_LastHandshakeTime p) = (0, 0, 0)
  /\ validateWebSocketPeer p [] = Ok tt
  /\ (pr_WSMode p = WSModeNone -> noWSKeys p)
  /\ KeyIsZero (pr_PublicKey p) = false.

Definition wfConfig (c : Config) : Prop :=
  TunnelNameIsValid (c_Name c) = true /\ c_WSTLSFiles c = ∅
  /\ wfInterface (c_Interface c) /\ Forall wfPeer (c_Peers c)
  /\ pruned false true (c_TrailingComments c) /\ Forall optComment (c_TrailingComments c).

(** ** The loop keeps the invariant *)

Lemma validate_nil p ks : validateWebSocketPeer p ks = Ok tt ->
  validateWebSocketPeer p [] = Ok tt /\ (pr_WSMode p = WSModeNone -> ks = []).
Proof.
  unfold validateWebSocketPeer. repeat (case_match; try done). intros _. split; [done|].
  intros E. rewrite bool_decide_eq_true_2 in * by done. done.
Qed.

Lemma finishPeer_ok name st st' :
  parserOk name st -> finishPeer st = Ok st' ->
  parserOk name (mkParser notInASection (ps_conf st') (ps_sawPrivateKey st') (ps_peer st')
                   (ps_peerWSKeys st') (ps_pendingComments st'))
  /\ ps_peer st' = None /\ ps_peerWSKeys st' = [] /\ ps_pendingComments st' = ps_pendingComments st.
Proof.
  intros (Hn & Hf & Ht & Hi & Hp & Hcur & _ & Hpend) Hfin. unfold finishPeer in Hfin. bind_ok Hfin.
  injection Hfin as <-. cbn. split; [|done]. unfold parserOk. cbn. split_and!; try done.
  all: destruct (ps_peer st) as [p|]; cbn; try done.
  apply Forall_app. split; [done|]. apply Forall_singleton. destruct a.
  apply validate_nil in Hb as [Hv Hnone]. destruct Hcur as (Hpf & Hs & Hz & Hws).
  split; [split_and!; done|]. split; [done|]. intros E. by apply Hws, Hnone.
Qed.

Lemma emptyInterface_ok : interfaceOk emptyInterface.
Proof.
  split; [|split; [split; cbn; auto with go | done]].
  intros []; cbn; try lia; try done; try (by left); split; constructor.
Qed.

Lemma emptyPeer_reading h : commentsOk h -> peerReading (set_pr_Comments (mkSectionComments h ∅) emptyPeer) [].
Proof.
  intros Hh. split_and!; [|split; [done|done]|done|].
  - intros []; cbn; try lia; try done; try (by left).
  - intros _ k Hk. cbn. split; [|done]. by destruct k.
Qed.

Lemma initialParser_ok name : parserOk name (initialParser name).
Proof. unfold parserOk. cbn. split_and!; auto using emptyInterface_ok. Qed.

Lemma interfaceField_ok name st key v comment st' :
  parserOk name st -> ps_state st = inInterfaceSection ->
  cleanValue v -> (key ∉ scriptKeys -> "#"%char ∉ v) -> optComment comment ->
  (key ∈ scriptKeys -> comment = []) ->
  interfaceField st key v comment = Ok st' -> parserOk name st'.
Proof.
  intros (Hn & Hf & Ht & [Hi Hsec] & Hp & Hcur & Hst & Hpend) Est Hv Hh Hc Hscr Hfld.
  unfold interfaceField in Hfld. destruct (ikeyOf key) as [k|] eqn:Ek; [|done].
  apply ikeyOf_spec in Ek as ->. bind_ok Hfld. injection Hfld as <-.
  apply setInterfaceKey_updated in Hb as Hup; [|done| |exact (Hi k)].
  2:{ intros Hk. apply Hh. rewrite ikey_script. by rewrite Hk. }
  destruct (iupdated_ok _ _ _ Hup) as [Hok Hset]; [exact Hi|].
  unfold parserOk. cbn. split_and!; try done; try (rewrite Est; done).
  split; [done|]. destruct Hup as (_ & _ & -> & _). cbn [i_Comments set_i_Comments].
  apply (addLineComment_ok _ (isetKey (c_Interface (ps_conf st)))); try done.
  - exists k. split; [done|]. apply Hset. by left.
  - intros key (k' & -> & Hk'). exists k'. split; [done|]. apply Hset. right. by destruct k'.
Qed.

Lemma addLineComment_other s key before comment key' :
  key' <> key -> sc_Lines (addLineComment s key before comment) !! key' = sc_Lines s !! key'.
Proof. intros Hne. unfold addLineComment. case_match; [|done]. by apply lookup_insert_ne. Qed.

Lemma pkeyName_inj k k' : lowerName (pkeyName k) = lowerName (pkeyName k') -> k = k'.
Proof. intros E. apply (f_equal pkeyOf) in E. rewrite !pkeyOf_name in E. congruence. Qed.

Lemma peerField_ok name st key v comment st' :
  parserOk name st -> ps_state st = inPeerSection -> plainValue v -> optComment comment ->
  peerField st key v comment = Ok st' -> parserOk name st'.
Proof.
  intros (Hn & Hf & Ht & Hi & Hp & Hcur & Hst & Hpend) Est Hv Hc Hfld.
  unfold peerField in Hfld. destruct (ps_peer st) as [p|] eqn:Ep; [|done].
  destruct Hcur as (Hpf & Hsec & Hz & Hws).
  destruct (pkeyOf key) as [k|] eqn:Ek; [|done]. apply pkeyOf_spec in Ek as ->.
  bind_ok Hfld. injection Hfld as <-.
  apply setPeerKey_updated in Hb as Hup; [|done|exact (Hpf k)].
  destruct (pupdated_ok _ _ _ Hup) as [Hok Hset]; [exact Hpf|].
  unfold parserOk. cbn. split_and!; try done.
  destruct Hup as (_ & _ & Ecom & Ez & Hfr). split_and!; [done| |by rewrite Ez|].
  - rewrite Ecom. apply (addLineComment_ok _ (psetKey p)); try done.
    + by intros ?%elem_of_nil.
    + exists k. split; [done|]. apply Hset. by left.
    + intros key (k' & -> & Hk'). exists k'. split; [done|]. apply Hset. right. by destruct k'.
  - destruct (isWSKey k) eqn:Ewk; [by destruct (ps_peerWSKeys st)|]. intros Hnil.
    specialize (Hws Hnil). intros k' Hk'. assert (Hne : k' <> k) by congruence.
    destruct (Hfr k' Hne) as (_ & _ & ->). rewrite Ecom. cbn [pr_Comments set_pr_Comments].
    rewrite addLineComment_other by (intros E; by apply pkeyName_inj in E).
    destruct (Hws k' Hk') as [Hpres Hlk]. split; [|done]. by destruct k'.
Qed.

Lemma addPending_ok name st c : optComment c -> parserOk name st -> parserOk name (addPending st c).
Proof.
  intros Hc (Hn & Hf & Ht & Hi & Hp & Hcur & Hst & Hpend). unfold parserOk. cbn. split_and!; try done.
  apply Forall_app. split; [done | by apply Forall_singleton].
Qed.

Lemma interfaceHeader_ok name st st1 comment :
  optComment comment -> parserOk name st -> finishPeer st = Ok st1 ->
  parserOk name (interfaceHeader st1 comment).
Proof.
  intros Hc Hst Hfin. destruct (finishPeer_ok _ _ _ Hst Hfin) as (H1 & Hp & Hk & _).
  destruct H1 as (Hn & Hf & Ht & [Hi [Hh Hl]] & Hps & Hcur & _ & Hpend). cbn in *.
  unfold parserOk. cbn. split_and!; try done. split; [exact Hi|].
  split; [by apply addComment_ok | exact Hl].
Qed.

Lemma peerHeader_ok name st st1 comment :
  optComment comment -> parserOk name st -> finishPeer st = Ok st1 ->
  parserOk name (peerHeader st1 comment).
Proof.
  intros Hc Hst Hfin. destruct (finishPeer_ok _ _ _ Hst Hfin) as (H1 & Hp & Hk & _).
  destruct H1 as (Hn & Hf & Ht & Hi & Hps & Hcur & _ & Hpend). cbn in *.
  unfold parserOk. cbn. split_and!; try done. rewrite Hk. by apply emptyPeer_reading.
Qed.

Lemma parseLine_ok name st line st' :
  LF ∉ line -> parserOk name st -> parseLine st line = Ok st' -> parserOk name st'.
Proof.
  intros Hlf Hst. unfold parseLine. destruct (splitComment line) as [code comment] eqn:Es.
  apply splitComment_ok in Es as (Hc & Hcl & Hch); [|done].
  destruct (length (TrimSpace code) =? 0)%nat eqn:E0.
  { intros [= <-]. apply addPending_ok; [|done]. by case_match; auto with go. }
  destruct (Cut (TrimSpace code) (str "=")) as [[key val] hasValue] eqn:Ecut.
  set (k := ToLower (TrimSpace key)).
  destruct (bool_decide (k = str "[interface]") && negb hasValue).
  { intros Hr. bind_ok Hr. injection Hr as <-. by eapply interfaceHeader_ok. }
  destruct (bool_decide (k = str "[peer]") && negb hasValue).
  { intros Hr. bind_ok Hr. injection Hr as <-. by eapply peerHeader_ok. }
  destruct (bool_decide (ps_state st = notInASection)); [done|]. destruct (negb hasValue); [done|].
  destruct (if bool_decide (k ∈ scriptKeys) then _ else _) as [val' comment'] eqn:Ev.
  assert (Hval : LF ∉ val' /\ (k ∉ scriptKeys -> "#"%char ∉ val') /\ optComment comment'
                 /\ (k ∈ scriptKeys -> comment' = [])).
  { case_bool_decide as Hscr; injection Ev as <- <-; [|change (str "=") with ["="%char] in Ecut].
    - split; [|split; [done | split; [by left | done]]].
      change (str "=") with ["="%char]. destruct (Cut line _) as [[b a] f] eqn:Ecl. cbn.
      apply Cut_spec in Ecl as [_ [[_ ->]|(_ & _ & ->)]]; set_solver.
    - assert (Hsub : forall x, x ∈ val -> x ∈ code).
      { apply Cut_spec in Ecut as [_ [[_ Et]|(_ & _ & ->)]]; [|set_solver].
        intros x Hx. apply TrimSpace_elem. rewrite Et. set_solver. }
      split; [|split; [|done]]; set_solver. }
  destruct Hval as (H1 & H2 & H3 & H4).
  destruct (length (TrimSpace val') =? 0)%nat eqn:E1; [done|].
  assert (Hclean : cleanValue (TrimSpace val')).
  { apply cleanValue_trim; [done|]. intros E. by rewrite E in E1. }
  assert (Hhash : k ∉ scriptKeys -> "#"%char ∉ TrimSpace val').
  { intros Hk Hin. apply TrimSpace_elem in Hin. by apply (H2 Hk). }
  destruct (ps_state st) eqn:Est; [| |by intros [= <-]].
  - intros Hf. by eapply interfaceField_ok.
  - destruct (decide (k ∈ scriptKeys)) as [Hk|Hk].
    + unfold peerField. destruct (ps_peer st); [|done].
      destruct (pkeyOf k) as [pk|] eqn:Epk; [|done]. apply pkeyOf_spec in Epk. rewrite Epk in Hk.
      by apply pkey_script in Hk.
    + intros Hf. eapply peerField_ok; try done. split; auto.
Qed.

Lemma parseLines_ok name s st :
  rfold parseLine (initialParser name) (Split LF s) = Ok st -> parserOk name st.
Proof.
  apply (rfold_inv (parserOk name)); [|apply initialParser_ok].
  intros st1 line st2 Hl. apply parseLine_ok. exact (proj1 (Split_elem _ _ _ Hl)).
Qed.

Lemma finishConfig_wf name st c :
  TunnelNameIsValid name = true -> parserOk name st -> finishConfig st = Ok c -> wfConfig c /\ c_Name c = name.
Proof.
  intros Hname Hst Hfin. unfold finishConfig in Hfin. bind_ok Hfin.
  destruct (finishPeer_ok _ _ _ Hst Hb) as (H1 & _).
  destruct H1 as (Hn & Hf & Ht & [Hi Hsec] & Hps & _ & _ & Hpend). cbn in *.
  destruct (negb _); [done|]. destruct (existsb _ _) eqn:Ez; [done|]. injection Hfin as <-. cbn.
  split; [|done]. unfold wfConfig. cbn. split_and!; [by rewrite Hn | done | | | |].
  - split; [exact Hi|]. by apply pruneSection_wf.
  - apply Forall_fmap, Forall_forall. intros p Hin. rewrite Forall_forall in Hps.
    destruct (Hps p Hin) as ((Hpf & Hpsec & Hz & _) & Hv & Hno). unfold compose.
    split_and!; [exact Hpf| |exact Hz|exact Hv| |].
    + by apply pruneSection_wf.
    + intros E k Hk. destruct (Hno E k Hk) as [Hpres Hlk]. split; [by destruct k|].
      cbn. rewrite lookup_omap. by rewrite Hlk.
    + rewrite <- not_true_iff_false in Ez |- *. intros Hz'. apply Ez, existsb_exists.
      eexists. split; [by apply in_map, list_elem_of_In | exact Hz'].
  - apply pruneComments_spec. by left.
  - apply prune_comments_ok; [by left | done].
Qed.

Lemma FromWgQuick_wf s name c : FromWgQuick s name = Ok c -> wfConfig c /\ c_Name c = name.
Proof.
  unfold FromWgQuick. destruct (TunnelNameIsValid name) eqn:Hn; [|done]. cbn [negb]. intros Hf.
  bind_ok Hf. eapply finishConfig_wf; [done | by eapply parseLines_ok | done].
Qed.
End WfConfig.
