(* ===== verification/ParserTheorems.v ===== *)
(** * Theorems on conf/parser.go

    What a caller of FromWgQuick relies on: the ranges and shapes of what it
    returns, the WebSocket rules, which errors there are, and what error
    messages reveal of a URL. *)

From S2P Require Import Prelude GoStrings GoNum Netip Config Name Parser Writer ConfLines ConfWf.
Local Open Scope Z_scope.

(** ** Instances the examples run with *)

(** A URL parser for scheme://host:port/path, enough for concrete inputs. *)
Definition exampleParse (s : gostring) : option URL :=
  match Cut s (str "://") with
  | (_, _, false) => None
  | (scheme, rest, true) =>
      let '(host, path, hasPath) := Cut rest (str "/") in
      if has_byte LF host then None
      else Some (mkURL (map lowerByte scheme) [] (has_byte "@" host) host
                   (if hasPath then "/"%char :: path else []) false [] [])
  end.

#[refine] Definition exampleURL : NetURL := {| url_Parse := exampleParse |}.
Proof.
  intros s u. unfold exampleParse. destruct (Cut s (str "://")) as [[scheme rest] []]; [|done].
  destruct (Cut rest (str "/")) as [[host path] hasPath].
  destruct (has_byte LF host) eqn:E; [done|]. intros [= <-]. by apply has_byte_false.
Defined.

Definition keyA : gostring := str "yAnz5TF+lXXJte14tji3zlMNq+hd2rYUIgJBgB3fBmk=".
Definition keyB : gostring := str "xTIBA5rboUvnH4htodjb6e697QjLERt1NAB4mZqp8Dg=".

Definition exampleText : gostring :=
  Join [str "# laptop"; str "[Interface] # main"; str "PrivateKey=" ++ keyA; []; [];
        str "# addresses"; str "address = 10.192.122.1/24,fd00::1 # both"; str "MTU=1400";
        str "DNS = 1.1.1.1, corp.example"; str "PostUp = run # not a comment"; str "Table = off";
        []; str "[Peer]"; str "PublicKey = " ++ keyB; str "AllowedIPs = 0.0.0.0/0, ::/0";
        str "Endpoint = WSS://vpn.example:0443/wg # edge"; str "WSMode = WSTunnel";
        str "WSTunnelTarget = 127.0.0.1:51820"; str "WSBearer = s3cret"; str "WSMask = true"; [];
        str "# end"] [LF].

(** Follows the cases of a switch none of whose branches was taken. *)
Ltac branches H :=
  repeat match type of H with
  | (if ?b then Err _ else _) = Ok _ => destruct b eqn:?; [discriminate H|]
  end.

(** ** Ranges and shapes *)

Section Theorems.
Context `{UnicodeTables} `{NetURL}.

(** What FromWgQuick returns is in range: keys of 32 bytes and no zero
    public key, ports, keepalives and milliseconds in their machine widths, an
    MTU that is unset or at least 576, and prefixes whose bits fit their
    address; the statistics of a peer and the TLS files are unset. *)
Theorem FromWgQuick_in_range s name c :
  FromWgQuick s name = Ok c ->
  c_Name c = name /\ TunnelNameIsValid name = true /\ c_WSTLSFiles c = ∅
  /\ length (i_PrivateKey (c_Interface c)) = KeyLength
  /\ 0 <= i_ListenPort (c_Interface c) <= 65535
  /\ (i_MTU (c_Interface c) = 0 \/ 576 <= i_MTU (c_Interface c) <= 65535)
  /\ Forall validPrefix (i_Addresses (c_Interface c))
  /\ Forall validAddr (i_DNS (c_Interface c))
  /\ Forall (fun p =>
       length (pr_PublicKey p) = KeyLength /\ pr_PublicKey p <> zeroKey
       /\ length (pr_PresharedKey p) = KeyLength
       /\ Forall validPrefix (pr_AllowedIPs p)
       /\ 0 <= pr_PersistentKeepalive p <= 65535
       /\ 0 <= pr_WSPingInterval p < 2 ^ 32 /\ 0 <= pr_WSBackoffMin p < 2 ^ 32
       /\ 0 <= pr_WSBackoffMax p < 2 ^ 32
       /\ pr_RxBytes p = 0 /\ pr_TxBytes p = 0 /\ pr_LastHandshakeTime p = 0) (c_Peers c).
Proof.
  intros [(Hn & Hf & [Hi _] & Hps & _) Hname]%FromWgQuick_wf. subst name.
  do 7 (split; [first [done | exact (Hi PrivateKey) | exact (Hi ListenPort) | exact (Hi MTU) | exact (Hi Address)]|]).
  split; [destruct (Hi DNS) as [Ha _]; eapply Forall_impl; [exact Ha | by intros a [? _]]|].
  eapply Forall_impl; [exact Hps|]. intros p (Hp & _ & Hz & _ & _ & Hk). injection Hz as Hr Ht Hl.
  split; [exact (Hp PublicKey)|]. split.
  { unfold KeyIsZero in Hk. apply bool_decide_eq_false in Hk. congruence. }
  do 6 (split; [first [exact (Hp PresharedKey) | exact (Hp AllowedIPs) | exact (Hp PersistentKeepalive)
    | exact (Hp WSPingInterval) | exact (Hp WSBackoffMin) | exact (Hp WSBackoffMax)]|]).
  done.
Qed.

(** C3: The WebSocket rules hold of every peer FromWgQuick returns: a URL needs
    a mode; a mode with an endpoint needs a URL, and the endpoint is the one
    of that URL; wstunnel needs URL and target and alone may have a target;
    without a mode no WebSocket setting is left on. *)
Theorem FromWgQuick_websocket_rules s name c p :
  FromWgQuick s name = Ok c -> p ∈ c_Peers c ->
  (pr_WSMode p = WSModeNone \/ pr_WSMode p = WSModeWebSocket \/ pr_WSMode p = WSModeWSTunnel)
  /\ (pr_WSURL p <> [] -> pr_WSMode p <> WSModeNone /\ isWSURL (pr_WSURL p) = true
                        /\ parseWSURL (pr_WSURL p) = Ok (pr_Endpoint p))
  /\ (pr_WSMode p <> WSModeNone -> pr_WSURL p = [] -> EndpointIsEmpty (pr_Endpoint p) = true)
  /\ (pr_WSMode p = WSModeWSTunnel <-> pr_WSTunnelTarget p <> [])
  /\ (pr_WSMode p = WSModeWSTunnel -> pr_WSURL p <> [])
  /\ (pr_WSMode p = WSModeNone ->
      pr_WSTunnelTarget p = [] /\ pr_WSBearer p = [] /\ pr_WSMask p = false /\ pr_WSTLSCA p = []
      /\ pr_WSTLSCert p = [] /\ pr_WSTLSKey p = [] /\ pr_WSTLSInsecure p = false
      /\ pr_WSPingInterval p = 0 /\ pr_WSBackoffMin p = 0 /\ pr_WSBackoffMax p = 0).
Proof.
  intros [(_ & _ & _ & Hps & _) _]%FromWgQuick_wf Hin. rewrite Forall_forall in Hps.
  destruct (Hps p Hin) as (Hp & _ & _ & Hv & Hno & _).
  assert (Hmode := Hp WSModeKey). assert (Hend := Hp EndpointKey). cbn in Hmode, Hend.
  unfold endpointOk in Hend. unfold validateWebSocketPeer in Hv.
  split; [exact Hmode|].
  split_and!.
  - intros Hu. rewrite (bool_decide_eq_false_2 (pr_WSURL p = [])) in Hend, Hv by done.
    split; [|tauto]. intros E. rewrite (bool_decide_eq_true_2 (pr_WSMode p = _)) in Hv by done. done.
  - intros Hm Hu. rewrite (bool_decide_eq_true_2 (pr_WSURL p = [])) in Hv by done.
    rewrite (bool_decide_eq_false_2 (pr_WSMode p = WSModeNone)) in Hv by done. cbn in Hv.
    by destruct (EndpointIsEmpty (pr_Endpoint p)).
  - split.
    + intros Hm Ht. rewrite (bool_decide_eq_true_2 (pr_WSMode p = WSModeWSTunnel)) in Hv by done.
      rewrite (bool_decide_eq_true_2 (pr_WSTunnelTarget p = [])) in Hv by done.
      by branches Hv.
    + intros Ht. destruct (decide (pr_WSMode p = WSModeWSTunnel)) as [|Hm]; [done|].
      rewrite (bool_decide_eq_false_2 (pr_WSMode p = WSModeWSTunnel)) in Hv by done.
      rewrite (bool_decide_eq_false_2 (pr_WSTunnelTarget p = [])) in Hv by done.
      by branches Hv.
  - intros Hm Hu. rewrite (bool_decide_eq_true_2 (pr_WSMode p = WSModeWSTunnel)) in Hv by done.
    rewrite (bool_decide_eq_true_2 (pr_WSURL p = [])) in Hv by done.
    by branches Hv.
  - intros Hm. assert (Hws := fun k Hk => proj1 (Hno Hm k Hk)).
    assert (Hneg : forall b, negb b = false -> b = true) by (by intros []).
    split_and!;
      [apply (bool_decide_unpack _), Is_true_true, Hneg, (Hws WSTunnelTarget eq_refl)
      |apply (bool_decide_unpack _), Is_true_true, Hneg, (Hws WSBearer eq_refl)
      |exact (Hws WSMask eq_refl)
      |apply (bool_decide_unpack _), Is_true_true, Hneg, (Hws WSTLSCA eq_refl)
      |apply (bool_decide_unpack _), Is_true_true, Hneg, (Hws WSTLSCert eq_refl)
      |apply (bool_decide_unpack _), Is_true_true, Hneg, (Hws WSTLSKey eq_refl)
      |exact (Hws WSTLSInsecure eq_refl)|..].
    + specialize (Hws WSPingInterval eq_refl). specialize (Hp WSPingInterval). cbn in *. lia.
    + specialize (Hws WSBackoffMin eq_refl). specialize (Hp WSBackoffMin). cbn in *. lia.
    + specialize (Hws WSBackoffMax eq_refl). specialize (Hp WSBackoffMax). cbn in *. lia.
Qed.
End Theorems.

(** ** Errors *)

(** The errors the parser reports: its own and strconv's. *)
Definition parseErr (e : goerr) : bool :=
  match e with ParseError _ _ | NumError _ _ _ => true | _ => false end.

Definition errsOk {A} (r : result A) : Prop :=
  match r with Ok _ => True | Err e => parseErr e = true end.

Lemma errsOk_bind {A B} (r : result A) (f : A -> result B) :
  errsOk r -> (forall a, r = Ok a -> errsOk (f a)) -> errsOk (rbind r f).
Proof. destruct r; cbn; auto. Qed.

Lemma errsOk_rmap {A B} (f : A -> result B) l : (forall x, errsOk (f x)) -> errsOk (rmap f l).
Proof.
  intros Hf. induction l as [|x l IH]; cbn; [done|].
  apply errsOk_bind; [apply Hf|]. intros y _. by apply errsOk_bind.
Qed.

Lemma errsOk_rfold {A S} (f : S -> A -> result S) l s : (forall s x, errsOk (f s x)) -> errsOk (rfold f s l).
Proof.
  intros Hf. revert s; induction l as [|x l IH]; intros s; cbn; [done|].
  by apply errsOk_bind; [apply Hf|].
Qed.

Lemma errsOk_with {A} e (r : result A) : parseErr e = true -> errsOk (with_err e r).
Proof. by destruct r. Qed.

Lemma errsOk_parseDigits fn num base maxv acc s : errsOk (parseDigits fn num base maxv acc s).
Proof.
  revert acc; induction s as [|c s IH]; intros acc; cbn; [done|]. destruct (digitVal base c); [|done].
  case_match; [done | apply IH].
Qed.

Lemma errsOk_ParseUint s bits : errsOk (ParseUint s bits).
Proof. unfold ParseUint. destruct s; [done | apply errsOk_parseDigits]. Qed.

Lemma errsOk_atoiSigned neg s digits : errsOk (atoiSigned neg s digits).
Proof.
  unfold atoiSigned. destruct digits; [done|]. apply errsOk_bind; [apply errsOk_parseDigits|].
  intros n _. by repeat case_match.
Qed.

Lemma errsOk_Atoi s : errsOk (Atoi s).
Proof. unfold Atoi. repeat case_match; apply errsOk_atoiSigned || done. Qed.

Create HintDb errs.
#[export] Hint Resolve errsOk_Atoi errsOk_ParseUint : errs.

(** Walks a definition: binds, folds and case distinctions. *)
Ltac errs :=
  repeat first
    [ exact I | reflexivity
    | solve [auto with errs]
    | apply errsOk_bind; [|intros ? _]
    | apply errsOk_rmap; intros ?
    | apply errsOk_rfold; intros ? ?
    | apply errsOk_with
    | match goal with
      | |- errsOk (if ?b then _ else _) => destruct b
      | |- errsOk (match ?x with _ => _ end) => destruct x
      end ].

Lemma errsOk_parsePort s : errsOk (parsePort s).
Proof. unfold parsePort. errs. Qed.
#[export] Hint Resolve errsOk_parsePort : errs.
Lemma errsOk_parseEndpoint s : errsOk (parseEndpoint s).
Proof. unfold parseEndpoint. cbv zeta. errs. Qed.
Lemma errsOk_parseKeyBase64 s : errsOk (parseKeyBase64 s).
Proof. unfold parseKeyBase64. errs. Qed.
Lemma errsOk_splitList s : errsOk (splitList s).
Proof. unfold splitList. cbv zeta. errs. Qed.
Lemma errsOk_parseIPCidr s : errsOk (parseIPCidr s).
Proof. unfold parseIPCidr. errs. Qed.
#[export] Hint Resolve errsOk_parseEndpoint errsOk_parseKeyBase64 errsOk_splitList errsOk_parseIPCidr : errs.

Lemma errsOk_setInterfaceKey k v i : errsOk (setInterfaceKey k v i).
Proof. destruct k; cbn [setInterfaceKey]; unfold parseMTU, parseTableOff; errs. Qed.

Lemma errsOk_validate p ws : errsOk (validateWebSocketPeer p ws).
Proof. unfold validateWebSocketPeer. cbv zeta. errs. Qed.

Lemma errsOk_finishPeer st : errsOk (finishPeer st).
Proof.
  unfold finishPeer. apply errsOk_bind; [|done]. destruct (ps_peer st); [apply errsOk_validate | done].
Qed.
#[export] Hint Resolve errsOk_setInterfaceKey errsOk_finishPeer : errs.

Section Errors.
Context `{UnicodeTables} `{NetURL}.

Lemma errsOk_parseWSURL s : errsOk (parseWSURL s).
Proof. unfold parseWSURL. cbv zeta. errs. Qed.

Lemma errsOk_setPeerKey k v p : errsOk (setPeerKey k v p).
Proof.
  pose proof errsOk_parseWSURL. destruct k; cbn [setPeerKey];
    unfold parsePersistentKeepalive, parseWSMode, parseWSBool, parseWSMillis; errs.
Qed.

Lemma errsOk_parseLine st line :
  (ps_state st = inPeerSection -> ps_peer st <> None) -> errsOk (parseLine st line).
Proof.
  intros Hst. unfold parseLine. destruct (splitComment line) as [code comment].
  destruct (length (TrimSpace code) =? 0)%nat; [done|].
  destruct (Cut (TrimSpace code) (str "=")) as [[key val] hasValue].
  do 2 (case_match; [errs|]). do 2 (case_match; [done|]).
  match goal with |- errsOk (match ?x with _ => _ end) => destruct x as [val' comment'] end.
  case_match; [done|].
  destruct (ps_state st); [| |done].
  - unfold interfaceField. errs.
  - unfold peerField. destruct (ps_peer st) as [p|]; [|by destruct Hst].
    destruct (pkeyOf _); [|done]. apply errsOk_bind; [apply errsOk_setPeerKey | done].
Qed.

Lemma errsOk_finishConfig st : errsOk (finishConfig st).
Proof. unfold finishConfig. cbv zeta. errs. Qed.

Lemma parseLines_errs name lines st :
  Forall (fun l => LF ∉ l) lines -> parserOk name st -> errsOk (rfold parseLine st lines).
Proof.
  intros Hl; revert st; induction Hl as [|line lines Hline _ IH]; intros st Hst; cbn [rfold]; [done|].
  apply errsOk_bind.
  - apply errsOk_parseLine. apply Hst.
  - intros st' Hst'. apply IH. by eapply parseLine_ok.
Qed.

(** Whatever the text, FromWgQuick returns a configuration or an error of
    its own or of strconv; it never dereferences a nil peer. *)
Theorem FromWgQuick_total s name :
  (exists c, FromWgQuick s name = Ok c)
  \/ exists e, FromWgQuick s name = Err e /\ parseErr e = true /\ e <> nilDereference.
Proof.
  assert (Herr : errsOk (FromWgQuick s name)).
  { unfold FromWgQuick. case_match; [done|]. apply errsOk_bind; [|intros st _; apply errsOk_finishConfig].
    apply (parseLines_errs name); [|apply initialParser_ok].
    apply Forall_forall. intros l Hl. by apply Split_elem in Hl as [? _]. }
  destruct (FromWgQuick s name) as [c|e]; [eauto|]. right. exists e. split; [done|].
  split; [done|]. by intros ->.
Qed.
End Errors.

(** ** What messages reveal of a URL *)

Lemma cut_at_scheme scheme rest :
  ":"%char ∉ scheme -> cut_at (str "://") (scheme ++ str "://" ++ rest) = Some (scheme, rest).
Proof.
  induction scheme as [|c scheme IH]; intros Hs; [done|]. apply not_elem_of_cons in Hs as [Hc Hs].
  cbn [app cut_at]. assert (prefixb (str "://") (c :: scheme ++ str "://" ++ rest) = false) as ->.
  { cbn [str String.list_ascii_of_string prefixb]. destruct (Ascii.eqb_spec ":" c); [congruence | done]. }
  by rewrite IH.
Qed.

Lemma IndexByte_app b c a : c ∉ b -> IndexByte (b ++ c :: a) c = Z.of_nat (length b).
Proof. intros Hb. unfold IndexByte. by rewrite cut_byte_app. Qed.

(** The messages about a WebSocket URL show its scheme and path, and neither
    its host nor its user name and password, even when the password has '/',
    '?', '#' or '@' in it. *)
Theorem redactWSURL_hides scheme userinfo host path :
  ":"%char ∉ scheme -> "/"%char ∉ host -> "@"%char ∉ host -> "@"%char ∉ path ->
  (path = [] \/ exists p, path = "/"%char :: p) ->
  redactWSURL (scheme ++ str "://" ++ host ++ path) = scheme ++ str "://xxxxx" ++ path
  /\ redactWSURL (scheme ++ str "://" ++ userinfo ++ str "@" ++ host ++ path)
     = scheme ++ str "://xxxxx" ++ path.
Proof.
  intros Hs Hh1 Hh2 Hp Hpath.
  assert (Hafter : let a := host ++ path in
    (if 0 <=? IndexByte a "/" then scheme ++ str "://xxxxx" ++ drop (Z.to_nat (IndexByte a "/")) a
     else scheme ++ str "://xxxxx") = scheme ++ str "://xxxxx" ++ path).
  { cbn zeta. destruct Hpath as [->|(p & ->)].
    - rewrite IndexByte_nonneg, app_nil_r. by rewrite bool_decide_eq_false_2.
    - rewrite IndexByte_app by done. destruct (Z.leb_spec 0 (Z.of_nat (length host))); [|lia].
      by rewrite Nat2Z.id, drop_app_length. }
  unfold redactWSURL, Cut. rewrite !cut_at_scheme by done. split.
  - assert (cut_last "@" (host ++ path) = None) as -> by (apply cut_last_None; set_solver). exact Hafter.
  - change (userinfo ++ str "@" ++ host ++ path) with (userinfo ++ "@"%char :: (host ++ path)).
    rewrite cut_last_app by set_solver. exact Hafter.
Qed.

(** ** Examples *)

(** A prefix length after an IPv6 zone is taken for part of the zone and
    dropped with it: whatever the length, the address is accepted with all its
    128 bits. *)
Theorem parseIPCidr_zone_length v z zone bits :
  0 <= v < 2 ^ 128 -> "/"%char ∉ bits ->
  parseIPCidr (AddrString (Addr6 v (z :: zone)) ++ str "/" ++ bits) = Ok (mkPrefix (Addr6 v []) 128).
Proof.
  intros Hv Hb. unfold parseIPCidr, ParsePrefix.
  change (AddrString (Addr6 v (z :: zone)) ++ str "/" ++ bits)
    with (AddrString (Addr6 v (z :: zone)) ++ "/"%char :: bits).
  rewrite cut_last_app by done. rewrite ParseAddr_AddrString by done. cbn [mbind option_bind hasZone].
  assert (AddrString (Addr6 v (z :: zone)) ++ "/"%char :: bits
    = AddrString (Addr6 v (z :: zone ++ "/"%char :: bits))) as ->.
  { rewrite !AddrString6. cbn [zoneSuffix]. by rewrite <- !(assoc_L (++)). }
  by rewrite ParseAddr_AddrString.
Qed.

Lemma parseIPCidr_zone_length_witness :
  parseIPCidr (str "fe80::1%eth0/64") = parseIPCidr (str "fe80::1").
Proof. apply (parseIPCidr_zone_length (254 * 2 ^ 120 + 128 * 2 ^ 112 + 1) "e" (str "th0") (str "64")); [lia | apply has_byte_false; reflexivity]. Defined.

Definition exampleConfig : Config :=
  match @FromWgQuick asciiTables exampleURL exampleText (str "office") with
  | Ok c => c
  | Err _ => mkConfig [] emptyInterface [] ∅ []
  end.

Lemma exampleConfig_ok : @FromWgQuick asciiTables exampleURL exampleText (str "office") = Ok exampleConfig.
Proof. vm_compute. reflexivity. Qed.

Lemma FromWgQuick_in_range_witness :
  i_MTU (c_Interface exampleConfig) = 1400
  /\ (i_MTU (c_Interface exampleConfig) = 0 \/ 576 <= i_MTU (c_Interface exampleConfig) <= 65535).
Proof.
  split; [vm_compute; reflexivity|].
  destruct (FromWgQuick_in_range _ _ _ exampleConfig_ok) as (_ & _ & _ & _ & _ & Hm & _). exact Hm.
Defined.

Definition examplePeer : Peer := default emptyPeer (head (c_Peers exampleConfig)).

Lemma FromWgQuick_websocket_rules_witness :
  pr_WSMode examplePeer = WSModeWSTunnel /\ pr_WSURL examplePeer <> [].
Proof.
  assert (Hm : pr_WSMode examplePeer = WSModeWSTunnel) by (vm_compute; reflexivity).
  split; [exact Hm|].
  destruct (FromWgQuick_websocket_rules _ _ _ examplePeer exampleConfig_ok) as (_ & _ & _ & _ & Hu & _).
  - vm_compute. left.
  - exact (Hu Hm).
Defined.

Lemma redactWSURL_hides_witness :
  redactWSURL (str "wss://user:p/w@vpn.example:443/wg") = str "wss://xxxxx/wg".
Proof.
  apply (redactWSURL_hides (str "wss") (str "user:p/w") (str "vpn.example:443") (str "/wg"));
    try (apply has_byte_false; reflexivity). right. by exists (str "wg").
Defined.
