(* ===== verification/RoundTrip.v ===== *)
(** * conf: what is written is read back

    A configuration FromWgQuick returned is written by ToWgQuick to a text
    FromWgQuick reads as the same configuration, comments and all; in
    particular writing what was read is idempotent from the first write on. *)

From S2P Require Import Prelude GoStrings GoNum Netip Config Name Parser Writer ConfLines ConfWf ParserTheorems.
Local Open Scope Z_scope.

(** ** The text as lines *)

Definition unlines (ls : list gostring) : gostring := concat (map (fun l => l ++ [LF]) ls).

Definition commentLines (c : Comments) (line : gostring) : list gostring :=
  cm_Before c ++ [line ++ suffixText (cm_Suffix c)].

Definition fieldLines (sc : SectionComments) (name : gostring) (present : bool) (value : gostring)
    : list gostring :=
  let c := default noComments (sc_Lines sc !! lowerName name) in
  if negb present && (length (cm_Before c) =? 0)%nat && (length (cm_Suffix c) =? 0)%nat then []
  else commentLines c (name ++ str " = " ++ value).

Definition interfaceKeyLines (i : Interface) (k : ikey) : list gostring :=
  if iskipped i k then [] else fieldLines (i_Comments i) (ikeyName k) (ipresent i k) (ivalue i k).
Definition peerKeyLines (p : Peer) (k : pkey) : list gostring :=
  if pskipped p k then [] else fieldLines (pr_Comments p) (pkeyName k) (ppresent p k) (pvalue p k).

Definition interfaceLines (i : Interface) : list gostring :=
  commentLines (sc_Header (i_Comments i)) (str "[Interface]")
  ++ concat (map (interfaceKeyLines i) iorder).
Definition peerLines (p : Peer) : list gostring :=
  [[]] ++ commentLines (sc_Header (pr_Comments p)) (str "[Peer]")
  ++ concat (map (peerKeyLines p) porder).
Definition configLines (c : Config) : list gostring :=
  interfaceLines (c_Interface c) ++ concat (map peerLines (c_Peers c)) ++ c_TrailingComments c.

Lemma unlines_app a b : unlines (a ++ b) = unlines a ++ unlines b.
Proof. unfold unlines. by rewrite map_app, concat_app. Qed.

Lemma unlines_concat {A} (f : A -> list gostring) (g : A -> gostring) l :
  (forall x, unlines (f x) = g x) -> unlines (concat (map f l)) = concat (map g l).
Proof.
  intros Hfg. induction l as [|x l IH]; [done|]. cbn [map concat]. by rewrite unlines_app, Hfg, IH.
Qed.

Lemma unlines_commentLines c line : unlines (commentLines c line) = writeLine c line.
Proof.
  unfold commentLines. rewrite unlines_app. unfold writeLine. f_equal. unfold unlines. cbn.
  rewrite app_nil_r, <- (assoc_L (++)). done.
Qed.

Lemma unlines_fieldLines sc name present value :
  unlines (fieldLines sc name present value) = writeField sc name present value.
Proof.
  unfold fieldLines, writeField. destruct (_ && _ && _); [done|]. apply unlines_commentLines.
Qed.

Lemma unlines_configLines c : unlines (configLines c) = ToWgQuick c.
Proof.
  unfold configLines, ToWgQuick. rewrite !unlines_app. f_equal; [|f_equal].
  - unfold interfaceLines, writeInterface. rewrite unlines_app, unlines_commentLines. f_equal.
    apply unlines_concat. intros k. unfold interfaceKeyLines, writeInterfaceKey.
    destruct (iskipped _ _); [done | apply unlines_fieldLines].
  - apply unlines_concat. intros p. unfold peerLines, writePeer. rewrite !unlines_app, unlines_commentLines.
    cbn [unlines map concat app]. do 2 f_equal. apply unlines_concat. intros k.
    unfold peerKeyLines, writePeerKey. destruct (pskipped _ _); [done | apply unlines_fieldLines].
Qed.

(** ** Comments on fields *)

(** The part of a section's comments on the keys in [names]. *)
Definition restrictLines (names : list gostring) (m : gmap gostring Comments) : gmap gostring Comments :=
  filter (fun kc => kc.1 ∈ names) m.

Definition commentedOnly (m : gmap gostring Comments) : Prop :=
  forall key c, m !! key = Some c -> cm_Before c <> [] \/ cm_Suffix c <> [].

Lemma restrictLines_lookup names m key :
  restrictLines names m !! key = if decide (key ∈ names) then m !! key else None.
Proof.
  unfold restrictLines. apply option_eq. intros c. rewrite map_lookup_filter_Some. cbn [fst].
  case_decide; naive_solver.
Qed.

Lemma restrictLines_none names m key :
  m !! key = None -> restrictLines (key :: names) m = restrictLines names m.
Proof.
  intros Hn. apply map_eq. intros key'. rewrite !restrictLines_lookup.
  destruct (decide (key' = key)) as [->|Hne].
  - rewrite Hn. by repeat case_decide.
  - repeat case_decide; set_solver.
Qed.

Lemma addLineComment_restrict h names m key :
  key ∉ names -> commentedOnly m ->
  let c := default noComments (m !! key) in
  addLineComment (mkSectionComments h (restrictLines names m)) key (cm_Before c) (cm_Suffix c)
  = mkSectionComments h (restrictLines (key :: names) m).
Proof.
  intros Hk Hm. cbn zeta. unfold addLineComment. cbn [sc_Lines sc_Header].
  rewrite restrictLines_lookup, decide_False by done. cbn [default from_option id].
  destruct (m !! key) as [c|] eqn:E; cbn [default from_option id].
  - assert (negb (length (cm_Before c) =? 0)%nat || negb (length (cm_Suffix c) =? 0)%nat = true) as ->.
    { destruct (Hm _ _ E) as [Hx|Hx]; [destruct (cm_Before c) | destruct (cm_Suffix c)]; cbn;
        rewrite ?orb_true_r; done. }
    f_equal. apply map_eq. intros key'. destruct (decide (key' = key)) as [->|Hne].
    + rewrite lookup_insert_eq, restrictLines_lookup, decide_True by set_solver. rewrite E. f_equal.
      unfold addComment. destruct c as [b s]. cbn. by destruct s.
    + rewrite lookup_insert_ne by done. rewrite !restrictLines_lookup. repeat case_decide; set_solver.
  - cbn. by rewrite restrictLines_none.
Qed.

Lemma default_ok scripts set s key :
  wfSection scripts set s -> commentsOk (default noComments (sc_Lines s !! key))
  /\ (key ∈ scripts -> cm_Suffix (default noComments (sc_Lines s !! key)) = []).
Proof.
  intros [[_ Hl] _]. destruct (sc_Lines s !! key) as [c|] eqn:E; cbn [default from_option id].
  - apply Hl in E as (_ & ? & ?). done.
  - split; [split; auto with go | done].
Qed.

Lemma wfSection_commentedOnly scripts set s : wfSection scripts set s -> commentedOnly (sc_Lines s).
Proof. intros (_ & _ & Hl) key c Hc. by apply Hl in Hc as [_ ?]. Qed.

(** A field the writer leaves out has no comments. *)
Lemma fieldLines_nil scripts set s name present value :
  wfSection scripts set s -> fieldLines s name present value = [] ->
  present = false /\ sc_Lines s !! lowerName name = None.
Proof.
  intros Hw. unfold fieldLines. destruct (_ && _ && _) eqn:E.
  - apply andb_prop in E as [E Es]. apply andb_prop in E as [Ep Eb]. intros _.
    split; [by destruct present|]. destruct (sc_Lines s !! lowerName name) as [c|] eqn:El; [|done].
    cbn in Eb, Es. apply (wfSection_commentedOnly _ _ _ Hw) in El as [Hx|Hx];
      [destruct (cm_Before c) | destruct (cm_Suffix c)]; done.
  - unfold commentLines. intros Hn%(f_equal length). rewrite length_app in Hn. cbn in Hn. lia.
Qed.

(** A field it writes was set, or has comments and was set. *)
Lemma fieldLines_cons scripts set s name present value :
  wfSection scripts set s -> fieldLines s name present value <> [] ->
  fieldLines s name present value
  = commentLines (default noComments (sc_Lines s !! lowerName name)) (name ++ str " = " ++ value)
  /\ (present = true \/ set (lowerName name)).
Proof.
  intros Hw. unfold fieldLines. destruct (_ && _ && _) eqn:E; [done|]. intros _. split; [done|].
  destruct present; [by left|]. right. cbn in E.
  destruct (sc_Lines s !! lowerName name) as [c|] eqn:El; cbn in E; [|done].
  destruct Hw as [[_ Hl] _]. by apply Hl in El as [? _].
Qed.

Section Fields.
Context `{UnicodeTables} `{NetURL}.

(** The lines of a field: the comments, then the field itself. *)
Lemma parse_commentLines st c line :
  commentsOk c ->
  rfold parseLine st (commentLines c line)
  = parseLine (addPendings st (cm_Before c)) (line ++ suffixText (cm_Suffix c)).
Proof.
  intros [Hb _]. unfold commentLines. rewrite rfold_app, parseLine_comments by done. cbn [rbind rfold].
  by destruct (parseLine _ _).
Qed.

Lemma parse_fieldLines st scripts set s name value :
  wfSection scripts set s -> fieldName name = true -> ps_state st <> notInASection ->
  cleanValue value -> (lowerName name ∉ scriptKeys -> "#"%char ∉ value) ->
  (lowerName name ∈ scriptKeys -> lowerName name ∈ scripts) ->
  let c := default noComments (sc_Lines s !! lowerName name) in
  rfold parseLine st (commentLines c (name ++ str " = " ++ value))
  = fieldStep (addPendings st (cm_Before c)) (lowerName name) value (cm_Suffix c).
Proof.
  intros Hw Hn Hst (Ht & Hne & _) Hh Hscr c. destruct (default_ok _ _ _ (lowerName name) Hw) as [Hc Hsx].
  fold c in Hc, Hsx. rewrite parse_commentLines by done. destruct Hc as [_ Hs].
  destruct (decide (lowerName name ∈ scriptKeys)) as [Hk|Hk].
  - rewrite Hsx by auto. unfold suffixText. cbn [length Nat.eqb negb]. rewrite app_nil_r.
    by apply parseLine_script.
  - apply parseLine_field; auto.
Qed.
End Fields.

(** ** The interface, key by key *)

Definition iin (k : ikey) (ks : list ikey) : bool := existsb (fun k' => bool_decide (k = k')) ks.
Definition pin (k : pkey) (ks : list pkey) : bool := existsb (fun k' => bool_decide (k = k')) ks.

(** [i] with the fields of the keys outside [ks] unset, and comments [s]. *)
Definition restrictI (ks : list ikey) (i : Interface) (s : SectionComments) : Interface :=
  mkInterface
    (if iin PrivateKey ks then i_PrivateKey i else zeroKey)
    (if iin Address ks then i_Addresses i else [])
    (if iin ListenPort ks then i_ListenPort i else 0)
    (if iin MTU ks then i_MTU i else 0)
    (if iin DNS ks then i_DNS i else [])
    (if iin DNS ks then i_DNSSearch i else [])
    (if iin PreUp ks then i_PreUp i else [])
    (if iin PostUp ks then i_PostUp i else [])
    (if iin PreDown ks then i_PreDown i else [])
    (if iin PostDown ks then i_PostDown i else [])
    (if iin Table ks then i_TableOff i else false)
    s.

Lemma Join_chars l c :
  Forall listItem l -> c ∈ Join l (str ", ") -> c = ","%char \/ c = " "%char \/ c <> LF /\ c <> "#"%char.
Proof.
  intros Hl Hc. apply Join_elem in Hc as [Hc|(s & Hs & Hc)].
  - vm_compute in Hc. set_solver.
  - rewrite Forall_forall in Hl. destruct (Hl s Hs) as [((_ & _ & Hlf) & Hh) _].
    right. right. split; intros ->; done.
Qed.

Lemma Join_right l : l <> [] -> Forall listItem l -> lead rspaces (reverse (Join l (str ", "))) = 0%nat.
Proof.
  intros Hn Hl. induction Hl as [|x l [((Hx & Hne & _) & _) _] Hl IH]; [done|].
  destruct l as [|y l]; [apply Hx|]. rewrite Join_cons. specialize (IH ltac:(done)).
  assert (Hj : Join (y :: l) (str ", ") <> []).
  { apply Forall_cons in Hl as [[((_ & Hy & _) & _) _] _]. destruct l; [done|].
    rewrite Join_cons. by destruct y. }
  revert IH Hj. generalize (Join (y :: l) (str ", ")). intros j IH Hj.
  change (x ++ str ", " ++ j) with (x ++ (","%char :: [" "%char] ++ j)).
  rewrite reverse_app. cbn [app]. rewrite !reverse_cons, <- !(assoc_L (++)).
  apply (lead_app_ascii rspaces rspaces_words); [done| |done].
  intros E. apply Hj. by rewrite <- (reverse_involutive j), E.
Qed.

Lemma Join_listItem l : l <> [] -> Forall listItem l -> plainValue (Join l (str ", ")).
Proof.
  intros Hn Hl. pose proof (Join_right l Hn Hl) as Hr.
  assert (Hch := fun c => Join_chars l c Hl).
  split; [split; [split; [|done]|split]|].
  - destruct Hl as [|x l [((Hx & Hne & _) & _) _] Hl]; [done|]. destruct l as [|y l]; [apply Hx|].
    rewrite Join_cons. apply (lead_app_ascii spaces spaces_words); [apply Hx | done | done].
  - destruct Hl as [|x l [((_ & Hne & _) & _) _] _]; [done|]. destruct l; [done|].
    rewrite Join_cons. by destruct x.
  - intros Hc. apply Hch in Hc as [E|[E|[E _]]]; done.
  - intros Hc. apply Hch in Hc as [E|[E|[_ E]]]; done.
Qed.

Lemma PrefixString_item p : validPrefix p -> listItem (PrefixString p).
Proof.
  intros Hp. apply addrByte_item; [|by apply PrefixString_addrByte].
  intros E. pose proof (ParsePrefix_PrefixString p Hp) as E'. by rewrite E in E'.
Qed.

Lemma prefixes_items l : Forall validPrefix l -> Forall listItem (map PrefixString l).
Proof. intros Hl. apply Forall_map. eapply Forall_impl; [exact Hl | apply PrefixString_item]. Qed.

Lemma dns_items i : ifieldOk i DNS -> Forall listItem (map AddrString (i_DNS i) ++ i_DNSSearch i).
Proof.
  intros [Ha Hn]. apply Forall_app. split.
  - apply Forall_map. eapply Forall_impl; [exact Ha | by intros a [_ ?]].
  - eapply Forall_impl; [exact Hn | by intros s [? _]].
Qed.

Lemma dns_nonempty i : iset i DNS -> map AddrString (i_DNS i) ++ i_DNSSearch i <> [].
Proof. cbn. destruct (i_DNS i), (i_DNSSearch i); cbn; try done. by intros []. Qed.

Lemma itoa_plain z : 0 <= z -> plainValue (itoa z).
Proof.
  intros Hz. apply plainValue_solid; [apply itoa_nonempty|].
  eapply Forall_impl; [by apply itoa_clean|]. intros c [? Hc]. split; [done|].
  intros ->. apply Hc. cbn. set_solver.
Qed.

Lemma KeyString_plain k : length k = KeyLength -> plainValue (KeyString k).
Proof.
  intros Hk. apply plainValue_solid; [apply b64Encode_nonempty; by intros ->|].
  eapply Forall_impl; [apply b64Encode_clean|]. intros c [? Hc]. split; [done|].
  intros ->. apply Hc. cbn. set_solver.
Qed.

Lemma lit_plain s : negb (length s =? 0)%nat && forallb (fun c => solid c && negb (Ascii.eqb c "#")) s = true ->
  plainValue s.
Proof.
  intros [Hn Hf]%andb_prop. apply plainValue_solid; [by intros ->|].
  rewrite forallb_forall in Hf. apply Forall_forall. intros c Hc%list_elem_of_In.
  apply Hf, andb_prop in Hc as [Hs Hh]. split; [done|]. intros ->. done.
Qed.

Lemma ivalue_clean i k :
  ifieldOk i k -> iset i k -> cleanValue (ivalue i k) /\ (isScript k = false -> "#"%char ∉ ivalue i k).
Proof.
  intros Hok Hset.
  assert (Hpl : plainValue (ivalue i k) -> cleanValue (ivalue i k) /\ (isScript k = false -> "#"%char ∉ ivalue i k))
    by (intros [? ?]; done).
  destruct k; cbn in Hok, Hset;
    try (destruct Hok as [?|Hok]; [done | by split]); apply Hpl; cbn [ivalue].
  - by apply KeyString_plain.
  - apply itoa_plain. lia.
  - apply itoa_plain. lia.
  - apply Join_listItem; [by destruct (i_Addresses i) | by apply prefixes_items].
  - apply Join_listItem; [by apply dns_nonempty | by apply (dns_items i)].
  - destruct (i_TableOff i); by apply lit_plain.
Qed.

Lemma rfold_addresses {X} (get : X -> list Prefix) (put : list Prefix -> X -> X) x l :
  (forall a x, get (put a x) = a) -> (forall a b x, put a (put b x) = put a x) ->
  (forall x, put (get x) x = x) -> Forall validPrefix l ->
  rfold (fun x address => let? a := parseIPCidr address in Ok (put (get x ++ [a]) x)) x (map PrefixString l)
  = Ok (put (get x ++ l) x).
Proof.
  intros Hgp Hpp Hpg Hl. revert x; induction Hl as [|p l Hp _ IH]; intros x; cbn [map rfold].
  - by rewrite app_nil_r, Hpg.
  - rewrite parseIPCidr_PrefixString by done. cbn [rbind]. rewrite IH, Hgp, Hpp. by rewrite <- (assoc_L (++)).
Qed.

Lemma fold_dns as_ ns i :
  Forall dnsAddr as_ -> Forall dnsName ns ->
  fold_left (fun i address =>
        match ParseAddr address with
        | None => set_i_DNSSearch (i_DNSSearch i ++ [address]) i
        | Some a => set_i_DNS (i_DNS i ++ [a]) i
        end) (map AddrString as_ ++ ns) i
  = set_i_DNS (i_DNS i ++ as_) (set_i_DNSSearch (i_DNSSearch i ++ ns) i).
Proof.
  intros Ha Hn. revert i; induction Ha as [|a as_ [Hv _] _ IH]; intros i; cbn [map app fold_left].
  - rewrite app_nil_r. revert i; induction Hn as [|s ns [_ Hs] _ IHn]; intros i; cbn [fold_left].
    + rewrite app_nil_r. by destruct i.
    + rewrite Hs, IHn. cbn. by rewrite <- (assoc_L (++)).
  - rewrite ParseAddr_AddrString, IH by done. cbn. by rewrite <- (assoc_L (++)).
Qed.

Lemma setInterfaceKey_restrict i s ks k :
  ifieldOk i k -> iset i k -> iin k ks = false ->
  setInterfaceKey k (ivalue i k) (restrictI ks i s) = Ok (restrictI (k :: ks) i s).
Proof.
  intros Hok Hset Hk. destruct k; cbn [setInterfaceKey ivalue]; cbn in Hok, Hset.
  - rewrite parseKeyBase64_KeyString by done. done.
  - rewrite parsePort_itoa by done. done.
  - rewrite parseMTU_itoa by lia. done.
  - rewrite splitList_Join; [|by destruct (i_Addresses i) | by apply prefixes_items]. cbn [rbind].
    rewrite (rfold_addresses i_Addresses set_i_Addresses) by (done || by intros []).
    cbn [restrictI i_Addresses]. rewrite Hk. done.
  - rewrite splitList_Join; [|by apply dns_nonempty | by apply (dns_items i)].
    cbn [rbind]. rewrite fold_dns by apply Hok. cbn [restrictI i_DNS i_DNSSearch]. rewrite Hk. done.
  - done.
  - done.
  - done.
  - done.
  - unfold restrictI. cbn. by destruct (i_TableOff i).
Qed.

Lemma restrictI_unset i s ks k :
  (forall k, ifieldOk i k) -> (iskipped i k = true \/ ipresent i k = false) ->
  restrictI (k :: ks) i s = restrictI ks i s.
Proof.
  intros Hok Hw. specialize (Hok k). unfold restrictI.
  destruct k; cbn in Hw, Hok |- *; destruct Hw as [Hw|Hw]; try done; f_equal;
    repeat match goal with |- context [if ?b then _ else _] => destruct b end; try done; try lia;
    try (by destruct (i_PreUp i)); try (by destruct (i_PostUp i)); try (by destruct (i_PreDown i));
    try (by destruct (i_PostDown i)); try (by destruct (i_Addresses i));
    try (by destruct (i_DNS i), (i_DNSSearch i)).
Qed.

(** ** Peers, key by key *)

Definition restrictP (ks : list pkey) (p : Peer) (s : SectionComments) : Peer :=
  mkPeer
    (if pin PublicKey ks then pr_PublicKey p else zeroKey)
    (if pin PresharedKey ks then pr_PresharedKey p else zeroKey)
    (if pin AllowedIPs ks then pr_AllowedIPs p else [])
    (if pin EndpointKey ks then pr_Endpoint p else emptyEndpoint)
    (if pin PersistentKeepalive ks then pr_PersistentKeepalive p else 0)
    (if pin WSModeKey ks then pr_WSMode p else WSModeNone)
    (if pin EndpointKey ks then pr_WSURL p else [])
    (if pin WSTunnelTarget ks then pr_WSTunnelTarget p else [])
    (if pin WSBearer ks then pr_WSBearer p else [])
    (if pin WSMask ks then pr_WSMask p else false)
    (if pin WSTLSCA ks then pr_WSTLSCA p else [])
    (if pin WSTLSCert ks then pr_WSTLSCert p else [])
    (if pin WSTLSKey ks then pr_WSTLSKey p else [])
    (if pin WSTLSInsecure ks then pr_WSTLSInsecure p else false)
    (if pin WSPingInterval ks then pr_WSPingInterval p else 0)
    (if pin WSBackoffMin ks then pr_WSBackoffMin p else 0)
    (if pin WSBackoffMax ks then pr_WSBackoffMax p else 0)
    0 0 0 s.

Section Peers.
Context `{UnicodeTables} `{NetURL}.

Lemma endpoint_value p :
  endpointOk p -> pset p EndpointKey ->
  plainValue (pvalue p EndpointKey)
  /\ forall q, setPeerKey EndpointKey (pvalue p EndpointKey) q
               = Ok (set_pr_WSURL (pr_WSURL p) (set_pr_Endpoint (pr_Endpoint p) q)).
Proof.
  unfold endpointOk. cbn [pset pvalue]. case_bool_decide as Hu; cbn [negb].
  - intros [->|(Hh & Hp & Hv)] Hs; [by destruct Hs|]. split; [done|]. intros q. cbn [setPeerKey].
    rewrite isWSURL_EndpointString by (done || lia). rewrite parseEndpoint_EndpointString by done.
    by rewrite Hu.
  - intros (Hv & Hw & Hpar) _. split; [done|]. intros q. cbn [setPeerKey]. rewrite Hw, Hpar. done.
Qed.

Lemma pvalue_plain p k : pfieldOk p k -> pset p k -> plainValue (pvalue p k).
Proof.
  intros Hok Hset. destruct (decide (k = EndpointKey)) as [->|Hne]; [by apply endpoint_value|].
  destruct k; try done; cbn in Hok, Hset; cbn [pvalue];
    try (destruct Hok as [?|Hok]; [done | exact Hok]).
  - by apply KeyString_plain.
  - by apply KeyString_plain.
  - apply Join_listItem; [by destruct (pr_AllowedIPs p) | by apply prefixes_items].
  - apply itoa_plain. lia.
  - destruct Hok as [?|[-> | ->]]; [done | by apply lit_plain..].
  - destruct Hok as [?|[Hok _]]; done.
  - destruct (pr_WSMask p); by apply lit_plain.
  - destruct (pr_WSTLSInsecure p); by apply lit_plain.
  - apply itoa_plain. lia.
  - apply itoa_plain. lia.
  - apply itoa_plain. lia.
Qed.

Lemma parseWSMode_id m : m = WSModeWebSocket \/ m = WSModeWSTunnel -> parseWSMode m = Ok m.
Proof. by intros [-> | ->]. Qed.

Lemma setPeerKey_restrict p s ks k :
  pfieldOk p k -> pset p k -> pin k ks = false ->
  setPeerKey k (pvalue p k) (restrictP ks p s) = Ok (restrictP (k :: ks) p s).
Proof.
  intros Hok Hset Hk. destruct (decide (k = EndpointKey)) as [->|Hne].
  { destruct (endpoint_value p) as [_ ->]; done. }
  destruct k; try done; cbn [setPeerKey pvalue]; cbn in Hok, Hset.
  - by rewrite parseKeyBase64_KeyString.
  - by rewrite parseKeyBase64_KeyString.
  - rewrite splitList_Join; [|by destruct (pr_AllowedIPs p) | by apply prefixes_items]. cbn [rbind].
    rewrite (rfold_addresses pr_AllowedIPs set_pr_AllowedIPs) by (done || by intros []).
    cbn [restrictP pr_AllowedIPs]. by rewrite Hk.
  - by rewrite parsePersistentKeepalive_itoa.
  - rewrite parseWSMode_id by (by destruct Hok as [?|?]). done.
  - destruct Hok as [?|[_ Hok]]; [done|]. by destruct (parseEndpoint _).
  - by rewrite parseWSBool_boolString.
  - by rewrite parseWSBool_boolString.
  - by rewrite parseWSMillis_itoa.
  - by rewrite parseWSMillis_itoa.
  - by rewrite parseWSMillis_itoa.
Qed.

Lemma restrictP_unset p s ks k :
  (forall k, pfieldOk p k) -> (pskipped p k = true \/ ppresent p k = false) ->
  restrictP (k :: ks) p s = restrictP ks p s.
Proof.
  intros Hok Hw. specialize (Hok k).
  assert (Hneg : forall b, negb b = false -> b = true) by (by intros []).
  destruct (decide (k = EndpointKey)) as [->|Hne].
  - destruct Hw as [Hw|Hw]; [done|]. cbn in Hw, Hok. apply orb_false_elim in Hw as [Hu He].
    apply Hneg, bool_decide_eq_true in Hu. unfold endpointOk in Hok.
    rewrite bool_decide_eq_true_2 in Hok by done.
    assert (Hee : pr_Endpoint p = emptyEndpoint).
    { destruct Hok as [?|(Hh & _)]; [done|]. apply hostOk_nonempty in Hh.
      unfold EndpointIsEmpty in He. by destruct (e_Host (pr_Endpoint p)). }
    unfold restrictP. rewrite Hu, Hee. cbn. by destruct (pin EndpointKey ks).
  - unfold restrictP. destruct k; try done; cbn in Hw, Hok |- *; destruct Hw as [Hw|Hw]; try done; f_equal;
      try (apply Hneg, bool_decide_eq_true in Hw; rewrite ?Hw);
      repeat match goal with |- context [if ?b then _ else _] => destruct b end; try done; try lia.
    all: by destruct (pr_AllowedIPs p).
Qed.
End Peers.

(** ** Reading a section back *)

Lemma iin_spec k ks : iin k ks = bool_decide (k ∈ ks).
Proof.
  unfold iin. apply eq_true_iff_eq. rewrite bool_decide_eq_true, existsb_exists.
  setoid_rewrite bool_decide_eq_true. setoid_rewrite <- list_elem_of_In. naive_solver.
Qed.

Lemma pin_spec k ks : pin k ks = bool_decide (k ∈ ks).
Proof.
  unfold pin. apply eq_true_iff_eq. rewrite bool_decide_eq_true, existsb_exists.
  setoid_rewrite bool_decide_eq_true. setoid_rewrite <- list_elem_of_In. naive_solver.
Qed.

Definition inames (ks : list ikey) : list gostring := map (fun k => lowerName (ikeyName k)) ks.
Definition pnames (ks : list pkey) : list gostring := map (fun k => lowerName (pkeyName k)) ks.

Lemma inames_notin k ks : k ∉ ks -> lowerName (ikeyName k) ∉ inames ks.
Proof.
  intros Hk (k' & E & Hk')%list_elem_of_fmap. apply (f_equal ikeyOf) in E.
  rewrite !ikeyOf_name in E. congruence.
Qed.

Lemma pnames_notin k ks : k ∉ ks -> lowerName (pkeyName k) ∉ pnames ks.
Proof. intros Hk (k' & E & Hk')%list_elem_of_fmap. apply pkeyName_inj in E. congruence. Qed.

Lemma ikeyName_field k : fieldName (ikeyName k) = true.
Proof. by destruct k. Qed.
Lemma pkeyName_field k : fieldName (pkeyName k) = true.
Proof. by destruct k. Qed.

Section Sections.
Context `{UnicodeTables} `{NetURL}.

(** The parser after the fields of [ks]; [h] is the header read before. *)
Definition iparser (conf : Config) (saw : bool) (i : Interface) (h : Comments) (ks : list ikey) : parser :=
  mkParser inInterfaceSection
    (set_c_Interface
       (restrictI ks i (mkSectionComments h (restrictLines (inames ks) (sc_Lines (i_Comments i))))) conf)
    saw None [] [].

Lemma interfaceKey_step conf saw i h ks k :
  wfInterface i -> k ∉ ks ->
  rfold parseLine (iparser conf saw i h ks) (interfaceKeyLines i k)
  = Ok (iparser conf (bool_decide (k = PrivateKey) || saw) i h (k :: ks)).
Proof.
  intros [Hok Hw] Hk. unfold interfaceKeyLines.
  assert (Hskip : iskipped i k = true \/ ipresent i k = false ->
    sc_Lines (i_Comments i) !! lowerName (ikeyName k) = None ->
    Ok (iparser conf saw i h ks) = Ok (iparser conf (bool_decide (k = PrivateKey) || saw) i h (k :: ks))).
  { intros Hs Hl. unfold iparser. cbn [inames map]. rewrite restrictLines_none, restrictI_unset by done.
    rewrite bool_decide_eq_false_2; [done|]. intros ->. by destruct Hs. }
  destruct (iskipped i k) eqn:Esk.
  { apply Hskip; [by left|]. destruct (_ !! _) eqn:El; [|done]. exfalso.
    destruct Hw as [[_ Hl] _]. apply Hl in El as ((k' & Ek & Hset) & _).
    apply (f_equal ikeyOf) in Ek. rewrite !ikeyOf_name in Ek. injection Ek as <-.
    destruct k; cbn in Esk, Hset; try done; [by destruct (i_Addresses i)|].
    destruct (i_DNS i), (i_DNSSearch i); cbn in Esk; naive_solver. }
  destruct (decide (fieldLines (i_Comments i) (ikeyName k) (ipresent i k) (ivalue i k) = [])) as [En|Hne].
  { rewrite En. eapply fieldLines_nil in En as [Ep El]; [|exact Hw]. apply Hskip; auto. }
  destruct (fieldLines_cons _ _ _ _ _ _ Hw Hne) as [-> Hset'].
  assert (Hset : iset i k).
  { destruct Hset' as [Hp|(k' & Ek & Hs)].
    - destruct k; cbn in Hp, Esk |- *; try done; try lia.
      all: try (by destruct (i_Addresses i)); try (by destruct (i_PreUp i)); try (by destruct (i_PostUp i));
        try (by destruct (i_PreDown i)); try (by destruct (i_PostDown i)).
      destruct (i_DNS i); [right; by destruct (i_DNSSearch i) | by left].
    - apply (f_equal ikeyOf) in Ek. rewrite !ikeyOf_name in Ek. congruence. }
  destruct (ivalue_clean i k (Hok k) Hset) as [Hv Hh].
  rewrite (parse_fieldLines _ _ _ _ _ _ Hw); [|apply ikeyName_field | done | done | | done].
  2:{ rewrite ikey_script. intros Hns. apply Hh. by destruct (isScript k). }
  unfold fieldStep. cbn [addPendings ps_state iparser]. unfold interfaceField. rewrite ikeyOf_name.
  cbn [addPendings iparser ps_state ps_conf ps_sawPrivateKey ps_peer ps_peerWSKeys ps_pendingComments
    c_Interface set_c_Interface app i_Comments restrictI].
  rewrite addLineComment_restrict; [|by apply inames_notin | by eapply wfSection_commentedOnly].
  change (set_i_Comments ?s (restrictI ks i ?t)) with (restrictI ks i s).
  rewrite setInterfaceKey_restrict by (done || by rewrite iin_spec, bool_decide_eq_false_2). done.
Qed.

Lemma interfaceKeys_step conf i h l ks saw :
  wfInterface i -> NoDup (l ++ ks) ->
  rfold parseLine (iparser conf saw i h ks) (concat (map (interfaceKeyLines i) l))
  = Ok (iparser conf (iin PrivateKey l || saw) i h (reverse l ++ ks)).
Proof.
  intros Hw. revert ks saw; induction l as [|k l IH]; intros ks saw Hnd; [done|].
  cbn [map concat]. rewrite rfold_app.
  apply NoDup_cons in Hnd as [Hk Hnd]. rewrite interfaceKey_step by (done || set_solver). cbn [rbind].
  rewrite IH.
  - rewrite reverse_cons, <- (assoc_L (++)). cbn [app].
    change (iin PrivateKey (k :: l)) with (bool_decide (PrivateKey = k) || iin PrivateKey l).
    rewrite (bool_decide_ext (PrivateKey = k) (k = PrivateKey)) by naive_solver.
    by destruct (bool_decide (k = PrivateKey)), (iin PrivateKey l), saw.
  - apply NoDup_app. apply NoDup_app in Hnd as (H1 & H2 & H3). split; [done|]. split.
    + intros x Hx [->|Hx']%elem_of_cons; [set_solver | by apply (H2 x)].
    + apply NoDup_cons. set_solver.
Qed.

(** The same for a peer. *)
Definition pparser (conf : Config) (saw : bool) (wsKeys : list gostring) (p : Peer) (h : Comments)
    (ks : list pkey) : parser :=
  mkParser inPeerSection conf saw
    (Some (restrictP ks p (mkSectionComments h (restrictLines (pnames ks) (sc_Lines (pr_Comments p))))))
    wsKeys [].

Lemma peerKey_step conf saw wsKeys p h ks k :
  wfPeer p -> k ∉ ks -> (noWSKeys p -> wsKeys = []) ->
  exists wsKeys', rfold parseLine (pparser conf saw wsKeys p h ks) (peerKeyLines p k)
    = Ok (pparser conf saw wsKeys' p h (k :: ks)) /\ (noWSKeys p -> wsKeys' = []).
Proof.
  intros (Hok & Hw & _) Hk Hno. unfold peerKeyLines.
  assert (Hskip : pskipped p k = true \/ ppresent p k = false ->
    sc_Lines (pr_Comments p) !! lowerName (pkeyName k) = None ->
    exists wsKeys', Ok (pparser conf saw wsKeys p h ks) = Ok (pparser conf saw wsKeys' p h (k :: ks))
      /\ (noWSKeys p -> wsKeys' = [])).
  { intros Hs Hl. exists wsKeys. split; [|done]. unfold pparser. cbn [pnames map].
    by rewrite restrictLines_none, restrictP_unset. }
  assert (Hkey : forall k', lowerName (pkeyName k) = lowerName (pkeyName k') -> k = k') by apply pkeyName_inj.
  destruct (pskipped p k) eqn:Esk.
  { apply Hskip; [by left|]. destruct (_ !! _) eqn:El; [|done]. exfalso.
    destruct Hw as [[_ Hl] _]. apply Hl in El as ((k' & <-%Hkey & Hset) & _).
    destruct k; cbn in Esk, Hset; try done. by destruct (pr_AllowedIPs p). }
  destruct (decide (fieldLines (pr_Comments p) (pkeyName k) (ppresent p k) (pvalue p k) = [])) as [En|Hne].
  { rewrite En. eapply fieldLines_nil in En as [Ep El]; [|exact Hw]. apply Hskip; auto. }
  assert (Hws : noWSKeys p -> isWSKey k = false).
  { intros Hnws. destruct (isWSKey k) eqn:Ews; [|done]. destruct (Hnws k Ews) as [Ep El].
    exfalso. apply Hne. unfold fieldLines. by rewrite El, Ep. }
  destruct (fieldLines_cons _ _ _ _ _ _ Hw Hne) as [-> Hset'].
  assert (Hset : pset p k).
  { destruct Hset' as [Hp|(k' & <-%Hkey & Hs)]; [|done].
    destruct k; cbn in Hp, Esk |- *; try done; try (by apply negb_true_iff, bool_decide_eq_false in Hp).
    - by destruct (pr_AllowedIPs p).
    - apply orb_prop in Hp as [Hp|Hp]; [left; by apply negb_true_iff, bool_decide_eq_false in Hp|].
      right. intros E. by rewrite E in Hp. }
  pose proof (pvalue_plain p k (Hok k) Hset) as [Hv Hh].
  rewrite (parse_fieldLines _ _ _ _ _ _ Hw); [|apply pkeyName_field | done | done | done |].
  2:{ intros Hs. by apply pkey_script in Hs. }
  unfold fieldStep. cbn [addPendings ps_state pparser]. unfold peerField. rewrite pkeyOf_name.
  cbn [addPendings pparser ps_state ps_conf ps_sawPrivateKey ps_peer ps_peerWSKeys ps_pendingComments
    app pr_Comments restrictP].
  rewrite addLineComment_restrict; [|by apply pnames_notin | by eapply wfSection_commentedOnly].
  change (set_pr_Comments ?s (restrictP ks p ?t)) with (restrictP ks p s).
  rewrite setPeerKey_restrict by (done || by rewrite pin_spec, bool_decide_eq_false_2).
  eexists. split; [reflexivity|]. cbn. intros Hnws. rewrite (Hws Hnws). by apply Hno.
Qed.

Lemma peerKeys_step conf saw p h l ks wsKeys :
  wfPeer p -> NoDup (l ++ ks) -> (noWSKeys p -> wsKeys = []) ->
  exists wsKeys', rfold parseLine (pparser conf saw wsKeys p h ks) (concat (map (peerKeyLines p) l))
    = Ok (pparser conf saw wsKeys' p h (reverse l ++ ks)) /\ (noWSKeys p -> wsKeys' = []).
Proof.
  intros Hw. revert ks wsKeys; induction l as [|k l IH]; intros ks wsKeys Hnd Hno; [by exists wsKeys|].
  cbn [map concat]. rewrite rfold_app. apply NoDup_cons in Hnd as [Hk Hnd].
  destruct (peerKey_step conf saw wsKeys p h ks k) as (ws1 & -> & H1); [done | set_solver | done|].
  cbn [rbind]. destruct (IH (k :: ks) ws1) as (ws2 & -> & H2); [|done|].
  - apply NoDup_app. apply NoDup_app in Hnd as (Ha & Hb & Hc). split; [done|]. split.
    + intros x Hx [->|Hx']%elem_of_cons; [set_solver | by apply (Hb x)].
    + apply NoDup_cons. set_solver.
  - exists ws2. by rewrite reverse_cons, <- (assoc_L (++)).
Qed.
End Sections.

(** ** No line break inside a line *)

Lemma optComment_LF s : optComment s -> LF ∉ s.
Proof. intros [->|[? _]]; [set_solver | done]. Qed.

Lemma commentLines_LF c line : commentsOk c -> LF ∉ line -> Forall (fun l => LF ∉ l) (commentLines c line).
Proof.
  intros [Hb Hs] Hl. unfold commentLines. apply Forall_app. split.
  - eapply Forall_impl; [exact Hb | apply optComment_LF].
  - apply Forall_singleton. apply not_elem_of_app. split; [done|].
    apply optComment_LF in Hs. unfold suffixText. destruct (negb _); [|set_solver].
    intros [Hx|Hx]%elem_of_app; [vm_compute in Hx; set_solver | done].
Qed.

Lemma fieldName_LF name value : fieldName name = true -> LF ∉ value -> LF ∉ name ++ str " = " ++ value.
Proof.
  intros Hn Hv [Hx|Hx]%elem_of_app.
  - unfold fieldName in Hn. apply andb_prop in Hn as [_ Hn]. rewrite forallb_forall in Hn.
    apply list_elem_of_In, Hn in Hx. done.
  - apply elem_of_app in Hx as [Hx|Hx]; [vm_compute in Hx; set_solver | done].
Qed.

Lemma Forall_concat_map {A B} (P : B -> Prop) (f : A -> list B) l :
  (forall x, Forall P (f x)) -> Forall P (concat (map f l)).
Proof. intros Hf. induction l; cbn; [constructor | by apply Forall_app]. Qed.

(** ** The theorem *)

Lemma restrictLines_all names m :
  (forall key c, m !! key = Some c -> key ∈ names) -> restrictLines names m = m.
Proof.
  intros Hall. apply map_eq. intros key. rewrite restrictLines_lookup. case_decide as Hk; [done|].
  destruct (m !! key) eqn:E; [|done]. by apply Hall in E.
Qed.

Lemma restrictLines_nil m : restrictLines [] m = ∅.
Proof. apply map_eq. intros key. rewrite restrictLines_lookup, decide_False by apply not_elem_of_nil. done. Qed.

Lemma pruneSection_id scripts set s before :
  wfSection scripts set s -> before = cm_Before (sc_Header s) \/ before = [] :: cm_Before (sc_Header s) ->
  pruneSectionComments (mkSectionComments (mkComments before (cm_Suffix (sc_Header s))) (sc_Lines s)) = s.
Proof.
  intros (_ & Hh & Hl) Hb. unfold pruneSectionComments. cbn [sc_Header sc_Lines cm_Before cm_Suffix].
  assert (pruneComments before true false = cm_Before (sc_Header s)) as ->.
  { destruct Hb as [-> | ->]; [by apply pruneComments_header | by apply pruneComments_blank_header]. }
  assert (omap pruneLine (sc_Lines s) = sc_Lines s) as ->.
  { apply map_eq. intros key. rewrite lookup_omap. destruct (sc_Lines s !! key) as [c|] eqn:E; [|done].
    apply Hl in E as [Hp Hne]. cbn. unfold pruneLine. rewrite pruneComments_id by done.
    destruct c as [b x]. cbn in *. destruct b; [|done]. destruct x; [|done]. by destruct Hne. }
  by destruct s as [[b x] m].
Qed.

Lemma plainValue_LF v : plainValue v -> LF ∉ v.
Proof. by intros [(_ & _ & ?) _]. Qed.

Lemma optScript_LF v : optScript v -> LF ∉ v.
Proof. intros [->|(_ & _ & ?)]; [set_solver | done]. Qed.

Lemma optValue_LF v : optValue v -> LF ∉ v.
Proof. intros [->|?]; [set_solver | by apply plainValue_LF]. Qed.

Lemma Join_LF l : Forall listItem l -> LF ∉ Join l (str ", ").
Proof. intros Hl Hc. by apply (Join_chars _ _ Hl) in Hc as [?|[?|[? _]]]. Qed.

Lemma ivalue_LF i k : ifieldOk i k -> LF ∉ ivalue i k.
Proof.
  intros Hok. destruct k; cbn in Hok; cbn [ivalue]; try (by apply optScript_LF).
  - by apply plainValue_LF, KeyString_plain.
  - apply plainValue_LF, itoa_plain. lia.
  - apply plainValue_LF, itoa_plain. lia.
  - by apply Join_LF, prefixes_items.
  - by apply Join_LF, (dns_items i).
  - destruct (i_TableOff i); vm_compute; set_solver.
Qed.

Section RoundTrip.
Context `{UnicodeTables} `{NetURL}.

Lemma pvalue_LF p k : pfieldOk p k -> LF ∉ pvalue p k.
Proof.
  intros Hok. destruct k; cbn in Hok; cbn [pvalue]; try (by apply optValue_LF);
    try (by apply plainValue_LF, KeyString_plain); try (apply plainValue_LF, itoa_plain; lia).
  - by apply Join_LF, prefixes_items.
  - unfold endpointOk in Hok. case_bool_decide as Hu; cbn [negb].
    + destruct Hok as [->|(_ & _ & Hv)]; [vm_compute; set_solver | by apply plainValue_LF].
    + destruct Hok as (Hv & _ & _). by apply plainValue_LF.
  - destruct Hok as [->|[-> | ->]]; vm_compute; set_solver.
  - destruct Hok as [->|[? _]]; [set_solver | by apply plainValue_LF].
  - destruct (pr_WSMask p); vm_compute; set_solver.
  - destruct (pr_WSTLSInsecure p); vm_compute; set_solver.
Qed.

Lemma fieldLines_LF scripts set s name present value :
  wfSection scripts set s -> fieldName name = true -> LF ∉ value ->
  Forall (fun l => LF ∉ l) (fieldLines s name present value).
Proof.
  intros Hs Hn Hv. unfold fieldLines. destruct (_ && _ && _); [constructor|].
  apply commentLines_LF; [by eapply default_ok | by apply fieldName_LF].
Qed.

Lemma configLines_LF c : wfConfig c -> Forall (fun l => LF ∉ l) (configLines c).
Proof.
  intros (_ & _ & [Hi Hs] & Hps & _ & Ht). unfold configLines. rewrite !Forall_app. split_and!.
  - unfold interfaceLines. apply Forall_app. split.
    { apply commentLines_LF; [apply Hs | vm_compute; set_solver]. }
    apply Forall_concat_map. intros k. unfold interfaceKeyLines. destruct (iskipped _ _); [constructor|].
    eapply fieldLines_LF; [exact Hs | apply ikeyName_field | by apply ivalue_LF].
  - induction Hps as [|p ps (Hp & Hw & _) _ IH]; cbn [map concat]; [constructor|].
    apply Forall_app. split; [|exact IH]. unfold peerLines. rewrite !Forall_app. split_and!.
    + apply Forall_singleton. set_solver.
    + apply commentLines_LF; [apply Hw | vm_compute; set_solver].
    + apply Forall_concat_map. intros k. unfold peerKeyLines. destruct (pskipped _ _); [constructor|].
      eapply fieldLines_LF; [exact Hw | apply pkeyName_field | by apply pvalue_LF].
  - eapply Forall_impl; [exact Ht | apply optComment_LF].
Qed.

(** A peer as the loop leaves it: the blank line before it still a comment. *)
Definition readPeer (p : Peer) : Peer :=
  let h := sc_Header (pr_Comments p) in
  set_pr_Comments (mkSectionComments (mkComments ([] :: cm_Before h) (cm_Suffix h))
                     (sc_Lines (pr_Comments p))) p.

Lemma restrictP_all p h :
  wfPeer p ->
  restrictP (reverse porder) p
    (mkSectionComments h (restrictLines (pnames (reverse porder)) (sc_Lines (pr_Comments p))))
  = set_pr_Comments (mkSectionComments h (sc_Lines (pr_Comments p))) p.
Proof.
  intros (_ & [[_ Hl] _] & Hz & _). rewrite restrictLines_all.
  - destruct p. cbn in Hz. injection Hz as -> -> ->. reflexivity.
  - intros key c Hc. apply Hl in Hc as ((k & -> & _) & _). destruct k; by apply (bool_decide_unpack _).
Qed.

Lemma validate_ok p ws :
  validateWebSocketPeer p [] = Ok tt -> (pr_WSMode p = WSModeNone -> ws = []) ->
  validateWebSocketPeer p ws = Ok tt.
Proof.
  intros Hv Hws. destruct ws as [|w ws]; [done|]. revert Hv. unfold validateWebSocketPeer.
  rewrite (bool_decide_eq_false_2 (pr_WSMode p = WSModeNone)) by (intros E; by specialize (Hws E)).
  cbn [negb]. by repeat match goal with |- (if ?b then _ else _) = _ -> _ => destruct b; [done|] end.
Qed.

(** The parser once the peer being read is closed, with nothing pending. *)
Definition closedAs (st : parser) (conf : Config) : Prop :=
  ps_pendingComments st = []
  /\ finishPeer st = Ok (mkParser (ps_state st) conf true None [] []).

Lemma finishPeer_pendings st conf l :
  closedAs st conf -> finishPeer (addPendings st l) = Ok (mkParser (ps_state st) conf true None [] l).
Proof.
  intros [Hp Hf]. unfold finishPeer in *. cbn [addPendings ps_peer ps_peerWSKeys ps_conf ps_sawPrivateKey
    ps_pendingComments ps_state]. bind_ok Hf. cbn [rbind]. injection Hf as -> -> _. by rewrite Hp.
Qed.

Lemma peer_step st conf p :
  closedAs st conf -> wfPeer p ->
  exists st', rfold parseLine st (peerLines p) = Ok st'
    /\ closedAs st' (set_c_Peers (c_Peers conf ++ [readPeer p]) conf).
Proof.
  intros Hst Hp. pose proof Hp as (_ & Hw & _ & Hv & Hno & _).
  unfold peerLines. rewrite rfold_app, parseLine_comments by (apply Forall_singleton; auto with go).
  cbn [rbind]. rewrite rfold_app, parse_commentLines by apply Hw.
  rewrite parseLine_peer by apply Hw.
  change (addPendings (addPendings st [[]]) ?l) with
    (mkParser (ps_state st) (ps_conf st) (ps_sawPrivateKey st) (ps_peer st) (ps_peerWSKeys st)
       ((ps_pendingComments st ++ [[]]) ++ l)).
  rewrite <- (assoc_L (++)). cbn [app].
  pose proof (finishPeer_pendings st conf ([] :: cm_Before (sc_Header (pr_Comments p))) Hst) as Hf.
  unfold addPendings in Hf. rewrite Hf. cbn [rbind].
  set (h := mkComments ([] :: cm_Before (sc_Header (pr_Comments p))) (cm_Suffix (sc_Header (pr_Comments p)))).
  assert (Hhdr : peerHeader (mkParser (ps_state st) conf true None []
      ([] :: cm_Before (sc_Header (pr_Comments p)))) (cm_Suffix (sc_Header (pr_Comments p)))
    = pparser conf true [] p h []).
  { unfold pparser, peerHeader. cbn [pnames map]. rewrite restrictLines_nil. reflexivity. }
  rewrite Hhdr.
  destruct (peerKeys_step conf true p h porder [] []) as (ws & -> & Hws); [done | | done|].
  { rewrite app_nil_r. by apply (bool_decide_unpack _). }
  eexists. split; [reflexivity|]. rewrite app_nil_r. unfold pparser. rewrite restrictP_all by done.
  split; [done|]. unfold finishPeer. cbn [ps_peer ps_peerWSKeys ps_conf ps_sawPrivateKey ps_pendingComments ps_state].
  change (validateWebSocketPeer (set_pr_Comments _ p) ws) with (validateWebSocketPeer p ws).
  rewrite validate_ok by auto. done.
Qed.

Lemma peers_step st conf ps :
  closedAs st conf -> Forall wfPeer ps ->
  exists st', rfold parseLine st (concat (map peerLines ps)) = Ok st'
    /\ closedAs st' (set_c_Peers (c_Peers conf ++ map readPeer ps) conf).
Proof.
  intros Hst Hps. revert st conf Hst; induction Hps as [|p ps Hp _ IH]; intros st conf Hst; cbn [map concat].
  - exists st. split; [done|]. rewrite app_nil_r. by destruct conf.
  - rewrite rfold_app. destruct (peer_step st conf p Hst Hp) as (st1 & -> & H1). cbn [rbind].
    destruct (IH _ _ H1) as (st2 & -> & H2). exists st2. split; [done|].
    cbn in H2. by rewrite <- (assoc_L (++)) in H2.
Qed.

Lemma restrictI_all i :
  wfInterface i ->
  restrictI (reverse iorder) i
    (mkSectionComments (sc_Header (i_Comments i))
       (restrictLines (inames (reverse iorder)) (sc_Lines (i_Comments i)))) = i.
Proof.
  intros (_ & [[_ Hl] _]). rewrite restrictLines_all.
  - destruct i as [? ? ? ? ? ? ? ? ? ? ? [? ?]]. reflexivity.
  - intros key c Hc. apply Hl in Hc as ((k & -> & _) & _). destruct k; by apply (bool_decide_unpack _).
Qed.

Lemma interface_step name i :
  wfInterface i ->
  exists st, rfold parseLine (initialParser name) (interfaceLines i) = Ok st
    /\ closedAs st (mkConfig name i [] ∅ []).
Proof.
  intros Hi. pose proof Hi as [_ Hw]. unfold interfaceLines. rewrite rfold_app.
  rewrite parse_commentLines, parseLine_interface by apply Hw.
  assert (Hhdr : (let? st := finishPeer (addPendings (initialParser name) (cm_Before (sc_Header (i_Comments i)))) in
      Ok (interfaceHeader st (cm_Suffix (sc_Header (i_Comments i)))))
    = Ok (iparser (mkConfig name emptyInterface [] ∅ []) false i (sc_Header (i_Comments i)) [])).
  { unfold iparser. cbn [inames map]. rewrite restrictLines_nil. unfold interfaceHeader. cbn.
    destruct (sc_Header (i_Comments i)) as [b s]. cbn. destruct s; reflexivity. }
  rewrite Hhdr. cbn [rbind]. rewrite interfaceKeys_step; [|done|].
  2:{ rewrite app_nil_r. by apply (bool_decide_unpack _). }
  eexists. split; [reflexivity|]. rewrite app_nil_r. unfold iparser. rewrite restrictI_all by done. done.
Qed.

Lemma readPeer_prune p :
  wfPeer p -> set_pr_Comments (pruneSectionComments (pr_Comments (readPeer p))) (readPeer p) = p.
Proof.
  intros (_ & Hw & _). unfold readPeer. cbn [pr_Comments set_pr_Comments].
  rewrite (pruneSection_id _ _ _ _ Hw) by auto. by destruct p.
Qed.

(** Every well-formed configuration is read back from its text. *)
Lemma FromWgQuick_ToWgQuick c : wfConfig c -> FromWgQuick (ToWgQuick c) (c_Name c) = Ok c.
Proof.
  intros Hc. pose proof Hc as (Hn & Hf & Hi & Hps & Ht & Htc). unfold FromWgQuick. rewrite Hn. cbn [negb].
  rewrite <- unlines_configLines. unfold unlines. rewrite Split_lines by (by apply configLines_LF).
  unfold configLines. rewrite <- !(assoc_L (++)), rfold_app.
  destruct (interface_step (c_Name c) (c_Interface c) Hi) as (st1 & -> & H1). cbn [rbind].
  rewrite rfold_app. destruct (peers_step _ _ _ H1 Hps) as (st2 & -> & H2). cbn [rbind].
  rewrite parseLine_comments by (apply Forall_app; split; [done | apply Forall_singleton; auto with go]).
  cbn [rbind]. unfold finishConfig. rewrite (finishPeer_pendings _ _ _ H2).
  cbn [rbind ps_conf ps_pendingComments ps_sawPrivateKey negb c_Name c_Interface c_Peers c_WSTLSFiles set_c_Peers app].
  rewrite pruneComments_trailing by done. rewrite map_map.
  assert (Hmap : map (fun p => set_pr_Comments (pruneSectionComments (pr_Comments (readPeer p))) (readPeer p)) (c_Peers c)
    = c_Peers c).
  { clear -Hps. induction Hps as [|p ps Hp _ IH]; cbn [map]; [done|]. by rewrite readPeer_prune, IH. }
  rewrite Hmap.
  assert (existsb (fun p => KeyIsZero (pr_PublicKey p)) (c_Peers c) = false) as ->.
  { clear -Hps. induction Hps as [|p ps (_ & _ & _ & _ & _ & Hz) _ IH]; cbn; [done|]. by rewrite Hz, IH. }
  destruct Hi as [_ Hw]. f_equal. destruct c as [n i ps fs tc]. cbn [c_Interface] in *. cbn in Hf. subst fs.
  f_equal. pose proof (pruneSection_id _ _ _ _ Hw (or_introl eq_refl)) as Hpr.
  destruct i as [? ? ? ? ? ? ? ? ? ? ? [[? ?] ?]]. cbn in *. by rewrite Hpr.
Qed.

(** C1: A configuration the parser returned is written to a text that parses,
    under the same name, to the same configuration: no field, comment or
    WebSocket setting is lost or changed by a save and a load. *)
Theorem wgquick_round_trip s name c :
  FromWgQuick s name = Ok c -> FromWgQuick (ToWgQuick c) name = Ok c.
Proof. intros [Hw <-]%FromWgQuick_wf. by apply FromWgQuick_ToWgQuick. Qed.
End RoundTrip.

Lemma wgquick_round_trip_witness :
  @FromWgQuick asciiTables exampleURL (ToWgQuick exampleConfig) (str "office") = Ok exampleConfig.
Proof. apply (@wgquick_round_trip asciiTables exampleURL exampleText). exact exampleConfig_ok. Defined.

(** The text written for the example: fields in the writer's order, values and
    host names as they were, comments where they were. *)
Example exampleConfig_text :
  ToWgQuick exampleConfig
  = Join [str "# laptop"; str "[Interface] # main"; str "PrivateKey = " ++ keyA; []; str "# addresses";
          str "Address = 10.192.122.1/24, fd00::1/128 # both";
          str "DNS = 1.1.1.1, corp.example"; str "MTU = 1400"; str "PostUp = run # not a comment"; str "Table = off";
          []; str "[Peer]"; str "PublicKey = " ++ keyB; str "AllowedIPs = 0.0.0.0/0, ::/0";
          str "Endpoint = WSS://vpn.example:0443/wg # edge"; str "WSMode = wstunnel";
          str "WSTunnelTarget = 127.0.0.1:51820"; str "WSMask = true"; str "WSBearer = s3cret"; [];
          str "# end"; []] [LF].
Proof. vm_compute. reflexivity. Qed.
