(* ===== verification/UAPI.v ===== *)
(** * conf/uapi.go: the userspace backend's configuration protocol

    [ToUAPI] is the text of a set operation, [FromUAPI] reads the answer to a
    get operation, given as the bytes the reader yields before end of file. *)

From stdpp Require Import sorting.
From S2P Require Import Prelude GoStrings GoNum Netip Config Name Parser Writer ConfLines ConfWf ParserTheorems RoundTrip.
Local Open Scope Z_scope.

(** ** Writing *)

(** fmt.Fprintf(&output, "key=%s\n", value) *)
Definition uapiLine (key : string) (value : gostring) : gostring := str key ++ str "=" ++ value ++ [LF].

Definition writeWSUAPI (peer : Peer) : gostring :=
  (if negb (bool_decide (pr_WSURL peer = [])) then uapiLine "ws_url" (pr_WSURL peer) else [])
  ++ (if negb (bool_decide (pr_WSTunnelTarget peer = [])) then uapiLine "wstunnel_target" (pr_WSTunnelTarget peer) else [])
  ++ (if negb (bool_decide (pr_WSBearer peer = [])) then uapiLine "ws_bearer" (pr_WSBearer peer) else [])
  ++ (if pr_WSMask peer then str "ws_mask=true" ++ [LF] else [])
  ++ (if negb (bool_decide (pr_WSTLSCA peer = [])) then uapiLine "ws_tls_ca" (pr_WSTLSCA peer) else [])
  ++ (if negb (bool_decide (pr_WSTLSCert peer = [])) then uapiLine "ws_tls_cert" (pr_WSTLSCert peer) else [])
  ++ (if negb (bool_decide (pr_WSTLSKey peer = [])) then uapiLine "ws_tls_key" (pr_WSTLSKey peer) else [])
  ++ (if pr_WSTLSInsecure peer then str "ws_tls_insecure=true" ++ [LF] else [])
  ++ (if 0 <? pr_WSPingInterval peer then uapiLine "ws_ping_interval" (itoa (pr_WSPingInterval peer)) else [])
  ++ (if 0 <? pr_WSBackoffMin peer then uapiLine "ws_backoff_min" (itoa (pr_WSBackoffMin peer)) else [])
  ++ (if 0 <? pr_WSBackoffMax peer then uapiLine "ws_backoff_max" (itoa (pr_WSBackoffMax peer)) else []).

Definition peerUAPI (peer : Peer) : gostring :=
  uapiLine "public_key" (hexEncode (pr_PublicKey peer))
  ++ (let transport := if negb (bool_decide (pr_WSMode peer = WSModeNone)) then pr_WSMode peer else str "udp" in
      uapiLine "transport" transport)
  ++ (if negb (KeyIsZero (pr_PresharedKey peer)) then uapiLine "preshared_key" (hexEncode (pr_PresharedKey peer)) else [])
  ++ (if negb (EndpointIsEmpty (pr_Endpoint peer)) then uapiLine "endpoint" (EndpointString (pr_Endpoint peer)) else [])
  ++ (if negb (bool_decide (pr_WSMode peer = WSModeNone)) then writeWSUAPI peer else [])
  ++ uapiLine "persistent_keepalive_interval" (itoa (pr_PersistentKeepalive peer))
  ++ str "replace_allowed_ips=true" ++ [LF]
  ++ concat (map (fun address => uapiLine "allowed_ip" (PrefixString address)) (pr_AllowedIPs peer)).

Definition ToUAPI (conf : Config) : gostring :=
  uapiLine "private_key" (hexEncode (i_PrivateKey (c_Interface conf)))
  ++ (if 0 <? i_ListenPort (c_Interface conf) then uapiLine "listen_port" (itoa (i_ListenPort (c_Interface conf))) else [])
  ++ str "replace_peers=true" ++ [LF]
  ++ concat (map peerUAPI (c_Peers conf)).

(** ** Reading *)

Definition parseKeyHex (s : gostring) : result Key :=
  match hexDecode s with
  | None => Err (ParseError "Invalid key: %v" s)
  | Some k => if (length k =? KeyLength)%nat then Ok k
              else Err (ParseError "Keys must decode to exactly 32 bytes" s)
  end.

Definition parseBytesOrStamp (s : gostring) : result Z :=
  with_err (ParseError "Number must be a number between 0 and 2^64-1: %v" s) (ParseUint s 64).

(** The int64 arithmetic of time.Duration. *)
Definition wrap64 (z : Z) : Z := (z + 2 ^ 63) mod 2 ^ 64 - 2 ^ 63.

Definition addDuration (t stamp unit_ : Z) : Z := wrap64 (t + wrap64 (wrap64 stamp * unit_)).

Record uapiParser : Type := mkUapi {
  ua_peerSection : bool;
  ua_conf : Config;
  ua_peer : option Peer
}.

(** The settings addPeer copies from the stored peer. *)
Definition copyWS (existing peer : Peer) : Peer :=
  mkPeer (pr_PublicKey peer) (pr_PresharedKey peer) (pr_AllowedIPs peer) (pr_Endpoint peer)
    (pr_PersistentKeepalive peer) (pr_WSMode existing) (pr_WSURL existing) (pr_WSTunnelTarget existing)
    (pr_WSBearer existing) (pr_WSMask existing) (pr_WSTLSCA existing) (pr_WSTLSCert existing)
    (pr_WSTLSKey existing) (pr_WSTLSInsecure existing) (pr_WSPingInterval existing)
    (pr_WSBackoffMin existing) (pr_WSBackoffMax existing) (pr_RxBytes peer) (pr_TxBytes peer)
    (pr_LastHandshakeTime peer) (pr_Comments peer).

Section Reading.
Context (existingConfig : Config).

Definition withStored (peer : Peer) : Peer :=
  match find (fun existing => bool_decide (pr_PublicKey existing = pr_PublicKey peer))
             (c_Peers existingConfig) with
  | Some existing => copyWS existing peer
  | None => peer
  end.

Definition addPeer (st : uapiParser) : uapiParser :=
  match ua_peer st with
  | None => st
  | Some peer =>
      mkUapi (ua_peerSection st)
        (set_c_Peers (c_Peers (ua_conf st) ++ [withStored peer]) (ua_conf st)) None
  end.

Definition interfaceIgnored : list gostring :=
  map str ["fwmark"; "ws_listen"; "ws_server_tls_cert"; "ws_server_tls_key"; "ws_server_bearer";
           "ws_trusted_proxies"].
Definition peerIgnored : list gostring :=
  map str ["transport"; "ws_url"; "wstunnel_target"; "ws_bearer"; "ws_mask"; "ws_tls_ca";
           "ws_tls_cert"; "ws_tls_key"; "ws_tls_insecure"; "ws_ping_interval"; "ws_backoff_min";
           "ws_backoff_max"].

Definition interfaceUAPI (key val : gostring) (i : Interface) : result Interface :=
  if bool_decide (key = str "private_key") then let? k := parseKeyHex val in Ok (set_i_PrivateKey k i)
  else if bool_decide (key = str "listen_port") then let? p := parsePort val in Ok (set_i_ListenPort p i)
  else if bool_decide (key ∈ interfaceIgnored) then Ok i
  else Err (ParseError "Invalid key for interface section" key).

Definition peerFieldUAPI (key val : gostring) (p : Peer) : result Peer :=
  if bool_decide (key = str "public_key") then let? k := parseKeyHex val in Ok (set_pr_PublicKey k p)
  else if bool_decide (key = str "preshared_key") then let? k := parseKeyHex val in Ok (set_pr_PresharedKey k p)
  else if bool_decide (key = str "protocol_version") then
    if negb (bool_decide (val = str "1")) then Err (ParseError "Protocol version must be 1" val) else Ok p
  else if bool_decide (key = str "allowed_ip") then
    let? a := parseIPCidr val in Ok (set_pr_AllowedIPs (pr_AllowedIPs p ++ [a]) p)
  else if bool_decide (key = str "persistent_keepalive_interval") then
    let? k := parsePersistentKeepalive val in Ok (set_pr_PersistentKeepalive k p)
  else if bool_decide (key = str "endpoint") then
    let? e := parseEndpoint val in Ok (set_pr_Endpoint e p)
  else if bool_decide (key = str "tx_bytes") then let? b := parseBytesOrStamp val in Ok (set_pr_TxBytes b p)
  else if bool_decide (key = str "rx_bytes") then let? b := parseBytesOrStamp val in Ok (set_pr_RxBytes b p)
  else if bool_decide (key = str "last_handshake_time_sec") then
    let? t := parseBytesOrStamp val in
    Ok (set_pr_LastHandshakeTime (addDuration (pr_LastHandshakeTime p) t 1000000000) p)
  else if bool_decide (key = str "last_handshake_time_nsec") then
    let? t := parseBytesOrStamp val in
    Ok (set_pr_LastHandshakeTime (addDuration (pr_LastHandshakeTime p) t 1) p)
  else if bool_decide (key ∈ peerIgnored) then Ok p
  else Err (ParseError "Invalid key for peer section" key).

(** The body of the loop on a line that is not empty. *)
Definition uapiStep (st : uapiParser) (line : gostring) : result uapiParser :=
  match Cut line (str "=") with
  | (_, _, false) => Err (ParseError "Config key is missing an equals separator" line)
  | (key, val, true) =>
      if bool_decide (key = str "errno") then
        if negb (bool_decide (val = str "0")) then Err (ParseError "Error in getting configuration" val)
        else Ok st
      else
        let st := if bool_decide (key = str "public_key")
                  then mkUapi true (ua_conf (addPeer st)) (Some emptyPeer) else st in
        if negb (ua_peerSection st) then
          let? i := interfaceUAPI key val (c_Interface (ua_conf st)) in
          Ok (mkUapi false (set_c_Interface i (ua_conf st)) (ua_peer st))
        else match ua_peer st with
             | None => Err nilDereference
             | Some p => let? p := peerFieldUAPI key val p in
                         Ok (mkUapi true (ua_conf st) (Some p))
             end
  end.

(** The loop over the pieces between line breaks; the last piece is not
    terminated, so reading it is the end of file. *)
Fixpoint uapiLoop (st : uapiParser) (lines : list gostring) : result uapiParser :=
  match lines with
  | [] | [_] => Err (ErrText "EOF")
  | line :: rest =>
      if (length line =? 0)%nat then Ok st
      else let? st := uapiStep st line in uapiLoop st rest
  end.

(** position: the last index of a key wins. *)
Fixpoint positionFrom (i : nat) (ps : list Peer) (key : Key) : option nat :=
  match ps with
  | [] => None
  | p :: ps' =>
      match positionFrom (S i) ps' key with
      | Some j => Some j
      | None => if bool_decide (pr_PublicKey p = key) then Some i else None
      end
  end.

Definition position (p : Peer) : nat :=
  default (length (c_Peers existingConfig)) (positionFrom 0 (c_Peers existingConfig) (pr_PublicKey p)).

(** sort.SliceStable by position. *)
Fixpoint insertPeer (p : Peer) (l : list Peer) : list Peer :=
  match l with
  | [] => [p]
  | q :: l' => if (position p <=? position q)%nat then p :: l else q :: insertPeer p l'
  end.

Definition sortPeers (l : list Peer) : list Peer := fold_right insertPeer [] l.

Definition initialUAPI : uapiParser :=
  let i := c_Interface existingConfig in
  mkUapi false
    (mkConfig (c_Name existingConfig)
       (mkInterface zeroKey (i_Addresses i) 0 (i_MTU i) (i_DNS i) (i_DNSSearch i) (i_PreUp i)
          (i_PostUp i) (i_PreDown i) (i_PostDown i) (i_TableOff i) noSectionComments)
       [] ∅ []) None.

Definition FromUAPI (s : gostring) : result Config :=
  let? st := uapiLoop initialUAPI (Split LF s) in
  let conf := ua_conf (addPeer st) in
  Ok (set_c_Peers (sortPeers (c_Peers conf)) conf).
End Reading.

(** ** The set operation is exactly its directives *)

Definition when {A} (b : bool) (x : A) : list A := if b then [x] else [].

(** The directives a peer and a configuration amount to. *)
Definition wsDirectives (p : Peer) : list (gostring * gostring) :=
  when (negb (bool_decide (pr_WSURL p = []))) (str "ws_url", pr_WSURL p)
  ++ when (negb (bool_decide (pr_WSTunnelTarget p = []))) (str "wstunnel_target", pr_WSTunnelTarget p)
  ++ when (negb (bool_decide (pr_WSBearer p = []))) (str "ws_bearer", pr_WSBearer p)
  ++ when (pr_WSMask p) (str "ws_mask", str "true")
  ++ when (negb (bool_decide (pr_WSTLSCA p = []))) (str "ws_tls_ca", pr_WSTLSCA p)
  ++ when (negb (bool_decide (pr_WSTLSCert p = []))) (str "ws_tls_cert", pr_WSTLSCert p)
  ++ when (negb (bool_decide (pr_WSTLSKey p = []))) (str "ws_tls_key", pr_WSTLSKey p)
  ++ when (pr_WSTLSInsecure p) (str "ws_tls_insecure", str "true")
  ++ when (0 <? pr_WSPingInterval p) (str "ws_ping_interval", itoa (pr_WSPingInterval p))
  ++ when (0 <? pr_WSBackoffMin p) (str "ws_backoff_min", itoa (pr_WSBackoffMin p))
  ++ when (0 <? pr_WSBackoffMax p) (str "ws_backoff_max", itoa (pr_WSBackoffMax p)).

Definition peerDirectives (p : Peer) : list (gostring * gostring) :=
  [(str "public_key", hexEncode (pr_PublicKey p));
   (str "transport", if bool_decide (pr_WSMode p = WSModeNone) then str "udp" else pr_WSMode p)]
  ++ when (negb (KeyIsZero (pr_PresharedKey p))) (str "preshared_key", hexEncode (pr_PresharedKey p))
  ++ when (negb (EndpointIsEmpty (pr_Endpoint p))) (str "endpoint", EndpointString (pr_Endpoint p))
  ++ (if bool_decide (pr_WSMode p = WSModeNone) then [] else wsDirectives p)
  ++ [(str "persistent_keepalive_interval", itoa (pr_PersistentKeepalive p));
      (str "replace_allowed_ips", str "true")]
  ++ map (fun a => (str "allowed_ip", PrefixString a)) (pr_AllowedIPs p).

Definition directives (c : Config) : list (gostring * gostring) :=
  [(str "private_key", hexEncode (i_PrivateKey (c_Interface c)))]
  ++ when (0 <? i_ListenPort (c_Interface c)) (str "listen_port", itoa (i_ListenPort (c_Interface c)))
  ++ [(str "replace_peers", str "true")]
  ++ concat (map peerDirectives (c_Peers c)).

Definition directiveText (d : gostring * gostring) : gostring := d.1 ++ str "=" ++ d.2 ++ [LF].
Definition directivesText (ds : list (gostring * gostring)) : gostring := concat (map directiveText ds).

Lemma directivesText_app a b : directivesText (a ++ b) = directivesText a ++ directivesText b.
Proof. unfold directivesText. by rewrite map_app, concat_app. Qed.

Lemma directivesText_when b k v : directivesText (when b (str k, v)) = if b then uapiLine k v else [].
Proof. destruct b; [|done]. cbn. by rewrite app_nil_r. Qed.

Lemma directivesText_one k v : directivesText [(str k, v)] = uapiLine k v.
Proof. cbn. by rewrite app_nil_r. Qed.

Lemma wsDirectives_text p : directivesText (wsDirectives p) = writeWSUAPI p.
Proof. unfold wsDirectives, writeWSUAPI. rewrite !directivesText_app, !directivesText_when. reflexivity. Qed.

Lemma peerDirectives_text p : directivesText (peerDirectives p) = peerUAPI p.
Proof.
  unfold peerDirectives, peerUAPI.
  change [(str "public_key", ?a); (str "transport", ?b)] with ([(str "public_key", a)] ++ [(str "transport", b)]).
  change [(str "persistent_keepalive_interval", ?a); (str "replace_allowed_ips", ?b)]
    with ([(str "persistent_keepalive_interval", a)] ++ [(str "replace_allowed_ips", b)]).
  rewrite <- !(assoc_L (++)), !directivesText_app, !directivesText_when, !directivesText_one.
  assert (directivesText (map (fun a => (str "allowed_ip", PrefixString a)) (pr_AllowedIPs p))
    = concat (map (fun a => uapiLine "allowed_ip" (PrefixString a)) (pr_AllowedIPs p))) as ->
    by (unfold directivesText; by rewrite map_map).
  case_bool_decide; cbn [negb]; rewrite ?wsDirectives_text; reflexivity.
Qed.

Lemma directives_text c : directivesText (directives c) = ToUAPI c.
Proof.
  unfold directives, ToUAPI. rewrite !directivesText_app, directivesText_when, !directivesText_one.
  assert (directivesText (concat (map peerDirectives (c_Peers c))) = concat (map peerUAPI (c_Peers c))) as ->.
  { induction (c_Peers c) as [|p ps IH]; [done|]. cbn [map concat].
    by rewrite directivesText_app, peerDirectives_text, IH. }
  reflexivity.
Qed.

(** A directive a line can carry. *)
Definition directiveOk (d : gostring * gostring) : Prop :=
  "="%char ∉ d.1 /\ LF ∉ d.1 /\ LF ∉ d.2.

Lemma directives_read ds :
  Forall directiveOk ds ->
  map (fun l => Cut l (str "=")) (Split LF (directivesText ds))
  = map (fun d => (d.1, d.2, true)) ds ++ [([], [], false)].
Proof.
  intros Hds. unfold directivesText.
  assert (E : map directiveText ds = map (fun l => l ++ [LF]) (map (fun d => d.1 ++ str "=" ++ d.2) ds)).
  { rewrite map_map. apply map_ext. intros d. unfold directiveText. by rewrite <- !(assoc_L (++)). }
  rewrite E, Split_lines.
  - rewrite map_app, map_map. f_equal. apply map_ext_in. intros d Hd%list_elem_of_In.
    rewrite Forall_forall in Hds. destruct (Hds d Hd) as (He & _).
    change (str "=") with ["="%char]. cbn [app]. by rewrite Cut_app.
  - apply Forall_map. eapply Forall_impl; [exact Hds|]. intros d (_ & H1 & H2).
    rewrite !not_elem_of_app. split_and!; [done | vm_compute; set_solver | done].
Qed.

Lemma directiveOk_lit k v : LF ∉ v -> negb (has_byte "=" (str k)) && negb (has_byte LF (str k)) = true ->
  directiveOk (str k, v).
Proof.
  intros Hv [H1 H2]%andb_prop. apply negb_true_iff, has_byte_false in H1, H2. by split_and!.
Qed.

Lemma Forall_when {A} (P : A -> Prop) b x : (b = true -> P x) -> Forall P (when b x).
Proof. destruct b; cbn; intros Hx; [apply Forall_singleton; auto | constructor]. Qed.

Lemma digitChar_LF d : 0 <= d < 16 -> LF <> digitChar d.
Proof. intros Hd E. pose proof (digitChar_solid d Hd) as Hs. by rewrite <- E in Hs. Qed.

Lemma hexEncode_LF k : LF ∉ hexEncode k.
Proof.
  induction k as [|c k IH]; cbn [hexEncode]; [apply not_elem_of_nil|].
  pose proof (code_range c). rewrite !not_elem_of_cons. split_and!; [..|done]; apply digitChar_LF;
    Z.to_euclidean_division_equations; lia.
Qed.

Section SetOperation.
Context `{UnicodeTables} `{NetURL}.

Lemma wsDirectives_ok p : (forall k, pfieldOk p k) -> Forall directiveOk (wsDirectives p).
Proof.
  intros Hp. unfold wsDirectives.
  assert (Hurl : pr_WSURL p <> [] -> LF ∉ pr_WSURL p).
  { intros Hu. pose proof (Hp EndpointKey) as He. cbn in He. unfold endpointOk in He.
    rewrite bool_decide_eq_false_2 in He by done. destruct He as [He _]. by apply plainValue_LF. }
  rewrite !Forall_app. split_and!; apply Forall_when; intros Hb; apply directiveOk_lit; try reflexivity.
  - apply Hurl. intros E. by rewrite E in Hb.
  - exact (pvalue_LF p WSTunnelTarget (Hp _)).
  - exact (pvalue_LF p WSBearer (Hp _)).
  - vm_compute. set_solver.
  - exact (pvalue_LF p WSTLSCA (Hp _)).
  - exact (pvalue_LF p WSTLSCert (Hp _)).
  - exact (pvalue_LF p WSTLSKey (Hp _)).
  - vm_compute. set_solver.
  - exact (pvalue_LF p WSPingInterval (Hp _)).
  - exact (pvalue_LF p WSBackoffMin (Hp _)).
  - exact (pvalue_LF p WSBackoffMax (Hp _)).
Qed.

Lemma splitHostPort_elem h host port c :
  splitHostPort h = (host, port) -> c ∈ host ++ port -> c ∈ h.
Proof.
  unfold splitHostPort.
  match goal with |- context [match ?x with (_, _) => _ end] => destruct x as [h1 p1] eqn:E1 end.
  assert (Hsub : forall x, x ∈ h1 ++ p1 -> x ∈ h).
  { destruct (cut_last ":" h) as [[a b]|] eqn:E.
    - apply cut_last_Some in E as [-> _]. destruct (validOptionalPort _); injection E1 as <- <-; set_solver.
    - injection E1 as <- <-. intros x. by rewrite app_nil_r. }
  destruct (HasPrefix h1 _ && HasSuffix h1 _); intros E Hc; injection E as <- <-; apply Hsub; [|done].
  apply elem_of_app in Hc as [Hc|Hc]; [|set_solver]. apply elem_of_app. left.
  apply elem_of_take in Hc as (i & Hc & _). rewrite lookup_drop in Hc. by eapply list_elem_of_lookup_2.
Qed.

Lemma parseWSURL_host s e :
  parseWSURL s = Ok e -> hostOk (e_Host e) /\ 0 <= e_Port e <= 65535 /\ LF ∉ e_Host e.
Proof.
  unfold parseWSURL. destruct (url_Parse s) as [u|] eqn:Eu; [|done]. apply url_Parse_host in Eu.
  destruct (_ || _); [done|]. destruct (u_User u); [done|]. destruct (_ && _); [done|].
  destruct (splitHostPort (u_Host u)) as [host port] eqn:Eh. destruct (_ || _); [done|]. cbv zeta.
  set (h := if 0 <=? IndexByte host ":" then str "[" ++ host ++ str "]" else host).
  destruct (parseEndpoint (h ++ str ":" ++ port)) as [e'|] eqn:Ee; [|done]. intros [= ->].
  destruct (parseEndpoint_hostOk _ _ Ee) as [Hh Hp]. split; [done|]. split; [done|]. intros Hin.
  assert (Hsub : LF ∈ h ++ str ":" ++ port).
  { apply parseEndpoint_inv in Ee as (ps & _ & [[_ ->]|[_ ->]]); set_solver. }
  apply Eu. apply (splitHostPort_elem _ _ _ _ Eh).
  apply elem_of_app in Hsub as [Hs|Hs]; [|vm_compute in Hs; set_solver].
  unfold h in Hs. destruct (0 <=? _); [|set_solver].
  apply elem_of_app in Hs as [Hs|Hs]; [vm_compute in Hs; set_solver|].
  apply elem_of_app in Hs as [Hs|Hs]; [set_solver | vm_compute in Hs; set_solver].
Qed.

Lemma EndpointString_LF h p : LF ∉ h -> 0 <= p -> LF ∉ EndpointString (mkEndpoint h p).
Proof.
  intros Hh Hp. rewrite EndpointString_eq. cbn [e_Host e_Port].
  assert (Hi : LF ∉ itoa p).
  { eapply Forall_notin; [by apply itoa_clean|]. by intros [? _]. }
  case_bool_decide; rewrite ?not_elem_of_app, ?not_elem_of_cons; split_and!; try done; vm_compute; set_solver.
Qed.

Lemma endpoint_LF p :
  endpointOk p -> EndpointIsEmpty (pr_Endpoint p) = false -> LF ∉ EndpointString (pr_Endpoint p).
Proof.
  unfold endpointOk. case_bool_decide.
  - intros [->|(_ & _ & Hv)] He; [done | by apply plainValue_LF].
  - intros (_ & _ & Hp) _. apply parseWSURL_host in Hp as (_ & Hp & Hl).
    destruct (pr_Endpoint p) as [h q]. apply EndpointString_LF; [done | cbn in Hp; lia].
Qed.

Lemma peerDirectives_ok p : (forall k, pfieldOk p k) -> Forall directiveOk (peerDirectives p).
Proof.
  intros Hp. unfold peerDirectives. rewrite !Forall_app. split_and!.
  - constructor; [|apply Forall_singleton]; apply directiveOk_lit; try reflexivity; [apply hexEncode_LF|].
    destruct (Hp WSModeKey) as [->|[-> | ->]]; vm_compute; set_solver.
  - apply Forall_when. intros _. apply directiveOk_lit; [apply hexEncode_LF | reflexivity].
  - apply Forall_when. intros He. apply directiveOk_lit; [|reflexivity].
    apply endpoint_LF; [exact (Hp EndpointKey)|]. by destruct (EndpointIsEmpty _).
  - case_bool_decide; [constructor | by apply wsDirectives_ok].
  - constructor; [|apply Forall_singleton]; apply directiveOk_lit; try reflexivity.
    + exact (pvalue_LF p PersistentKeepalive (Hp _)).
    + vm_compute. set_solver.
  - apply Forall_map. eapply Forall_impl; [exact (Hp AllowedIPs)|]. intros a Ha.
    apply directiveOk_lit; [|reflexivity]. apply plainValue_LF. by destruct (PrefixString_item a Ha).
Qed.

(** The text sent to the userspace device for a configuration read from a
    file is exactly its directives, one per line: no value (a bearer token, a
    URL, a file path, a host name) can end its line early and smuggle in a
    directive of its own. *)
Theorem ToUAPI_directives s name c :
  FromWgQuick s name = Ok c ->
  map (fun l => Cut l (str "=")) (Split LF (ToUAPI c))
  = map (fun d => (d.1, d.2, true)) (directives c) ++ [([], [], false)].
Proof.
  intros [(_ & _ & [Hi _] & Hps & _) _]%FromWgQuick_wf. rewrite <- directives_text.
  apply directives_read. unfold directives. rewrite !Forall_app. split_and!.
  - apply Forall_singleton, directiveOk_lit; [apply hexEncode_LF | reflexivity].
  - apply Forall_when. intros _. apply directiveOk_lit; [exact (ivalue_LF _ ListenPort (Hi _)) | reflexivity].
  - apply Forall_singleton, directiveOk_lit; [vm_compute; set_solver | reflexivity].
  - induction Hps as [|p ps (Hp & _) _ IH]; cbn [map concat]; [constructor|].
    apply Forall_app. split; [by apply peerDirectives_ok | done].
Qed.
End SetOperation.

(** ** The order of the peers *)

Lemma map_inj_on {A B} (f : A -> B) (d l1 l2 : list A) :
  (forall a b, a ∈ d -> b ∈ d -> f a = f b -> a = b) -> (forall a, a ∈ l1 -> a ∈ d) ->
  (forall a, a ∈ l2 -> a ∈ d) -> map f l1 = map f l2 -> l1 = l2.
Proof.
  intros Hinj. revert l2; induction l1 as [|a l1 IH]; intros [|b l2] H1 H2 E; try done.
  injection E as Ef E. f_equal; [apply Hinj; set_solver | apply IH; set_solver].
Qed.

Section Order.
Context (existing : Config).

Abbreviation pos := (position existing).

Lemma insertPeer_perm p l : Permutation (insertPeer existing p l) (p :: l).
Proof.
  induction l as [|q l IH]; cbn; [done|]. case_match; [done|].
  rewrite IH. apply Permutation_swap.
Qed.

Lemma sortPeers_perm l : Permutation (sortPeers existing l) l.
Proof.
  induction l as [|p l IH]; [done|]. unfold sortPeers in *. cbn [fold_right].
  by rewrite insertPeer_perm, IH.
Qed.

Definition posLe (p q : Peer) : Prop := (pos p <= pos q)%nat.

Lemma insertPeer_sorted p l : StronglySorted posLe l -> StronglySorted posLe (insertPeer existing p l).
Proof.
  induction 1 as [|q l Hl IH Hq]; cbn; [repeat constructor|].
  destruct (Nat.leb_spec (pos p) (pos q)) as [Hle|Hlt].
  - constructor; [by constructor|]. constructor; [exact Hle|].
    eapply Forall_impl; [exact Hq|]. unfold posLe. intros r Hr. lia.
  - constructor; [done|]. rewrite insertPeer_perm. constructor; [unfold posLe; lia | done].
Qed.

Lemma sortPeers_sorted l : StronglySorted posLe (sortPeers existing l).
Proof. induction l as [|p l IH]; [constructor|]. by apply insertPeer_sorted. Qed.

(** Peers of equal position keep their order. *)
Lemma insertPeer_stable n p l :
  filter (fun q => pos q = n) (insertPeer existing p l)
  = filter (fun q => pos q = n) (p :: l).
Proof.
  induction l as [|q l IH]; [done|]. cbn [insertPeer].
  destruct (Nat.leb_spec (pos p) (pos q)) as [Hle|Hlt]; [done|].
  rewrite filter_cons, IH, !filter_cons. repeat case_decide; try done; lia.
Qed.

Lemma sortPeers_stable n l :
  filter (fun q => pos q = n) (sortPeers existing l) = filter (fun q => pos q = n) l.
Proof.
  induction l as [|p l IH]; [done|]. unfold sortPeers in *. cbn [fold_right].
  rewrite insertPeer_stable, !filter_cons, IH. done.
Qed.

Definition posKey (key : Key) : nat :=
  default (length (c_Peers existing)) (positionFrom 0 (c_Peers existing) key).

Lemma positionFrom_none i ps key : key ∉ map pr_PublicKey ps -> positionFrom i ps key = None.
Proof.
  revert i; induction ps as [|p ps IH]; intros i Hk; cbn; [done|]. cbn in Hk.
  apply not_elem_of_cons in Hk as [Hne Hk]. rewrite IH by done. by rewrite bool_decide_eq_false_2.
Qed.

Lemma positionFrom_nth i ps j p :
  NoDup (map pr_PublicKey ps) -> ps !! j = Some p -> positionFrom i ps (pr_PublicKey p) = Some (i + j)%nat.
Proof.
  revert i j; induction ps as [|q ps IH]; intros i j Hnd Hj; [done|]. cbn [map] in Hnd.
  apply NoDup_cons in Hnd as [Hq Hnd]. destruct j as [|j]; cbn in Hj |- *.
  - injection Hj as ->. rewrite positionFrom_none by done. rewrite bool_decide_eq_true_2 by done.
    f_equal. lia.
  - rewrite (IH (S i) j) by done. f_equal. lia.
Qed.

Lemma posKey_stored :
  NoDup (map pr_PublicKey (c_Peers existing)) ->
  map posKey (map pr_PublicKey (c_Peers existing)) = seq 0 (length (c_Peers existing)).
Proof.
  intros Hnd. rewrite map_map. apply list_eq. intros j. rewrite list_lookup_fmap.
  destruct (c_Peers existing !! j) as [p|] eqn:E; cbn.
  - unfold posKey. rewrite (positionFrom_nth 0 _ j p) by done. cbn. symmetry.
    apply lookup_seq. split; [lia|]. by apply lookup_lt_Some in E.
  - symmetry. apply lookup_seq_ge. by apply lookup_ge_None.
Qed.

Lemma sorted_seq l n : StronglySorted le l -> Permutation l (seq 0 n) -> l = seq 0 n.
Proof.
  intros Hs Hp. apply (StronglySorted_unique le); [done| |done].
  clear. generalize 0%nat. induction n as [|n IH]; intros k; cbn; constructor; [apply IH|].
  apply Forall_forall. intros x [? ?]%elem_of_seq. lia.
Qed.

Lemma sortPeers_stored l :
  NoDup (map pr_PublicKey (c_Peers existing)) ->
  Permutation (map pr_PublicKey l) (map pr_PublicKey (c_Peers existing)) ->
  map pr_PublicKey (sortPeers existing l) = map pr_PublicKey (c_Peers existing).
Proof.
  intros Hnd Hp. set (keys := map pr_PublicKey (c_Peers existing)) in *.
  set (l' := map pr_PublicKey (sortPeers existing l)).
  assert (Hp' : Permutation l' keys) by (unfold l'; by rewrite (sortPeers_perm l)).
  assert (E : map posKey l' = map posKey keys).
  { unfold keys at 1. rewrite posKey_stored by done. apply sorted_seq.
    - unfold l'. rewrite map_map. pose proof (sortPeers_sorted l) as Hs. clear -Hs.
      induction Hs as [|p l0 _ IH Hf]; cbn; constructor; [done|].
      apply Forall_map. exact Hf.
    - rewrite <- posKey_stored by done. by apply Permutation_map. }
  apply (map_inj_on posKey keys); [|intros a; by rewrite Hp'|done|exact E].
  intros a b Ha Hb Hab. apply list_elem_of_fmap in Ha as (p & -> & [i Hi]%list_elem_of_lookup),
    Hb as (q & -> & [j Hj]%list_elem_of_lookup).
  unfold posKey in Hab. rewrite (positionFrom_nth 0 _ i p), (positionFrom_nth 0 _ j q) in Hab by done.
  cbn in Hab. subst j. rewrite Hi in Hj. by injection Hj as ->.
Qed.
End Order.

(** ** The get operation *)

Section GetOperation.
Context (existing : Config).

(** The settings of a peer that the device does not report. *)
Definition wsSettings (p : Peer) :=
  (pr_WSMode p, pr_WSURL p, pr_WSTunnelTarget p, pr_WSBearer p, pr_WSMask p,
   pr_WSTLSCA p, pr_WSTLSCert p, pr_WSTLSKey p, pr_WSTLSInsecure p,
   (pr_WSPingInterval p, pr_WSBackoffMin p, pr_WSBackoffMax p)).

Definition wsUnset (p : Peer) : Prop := wsSettings p = wsSettings emptyPeer.

Definition wsStored (p : Peer) : Prop :=
  match find (fun q => bool_decide (pr_PublicKey q = pr_PublicKey p)) (c_Peers existing) with
  | Some q => wsSettings p = wsSettings q
  | None => wsUnset p
  end.

Definition uapiOk (st : uapiParser) : Prop :=
  let i := c_Interface existing in let j := c_Interface (ua_conf st) in
  c_Name (ua_conf st) = c_Name existing
  /\ (i_Addresses j, i_MTU j, i_DNS j, i_DNSSearch j) = (i_Addresses i, i_MTU i, i_DNS i, i_DNSSearch i)
  /\ (i_PreUp j, i_PostUp j, i_PreDown j, i_PostDown j, i_TableOff j)
     = (i_PreUp i, i_PostUp i, i_PreDown i, i_PostDown i, i_TableOff i)
  /\ Forall wsStored (c_Peers (ua_conf st))
  /\ (match ua_peer st with Some p => wsUnset p | None => True end)
  /\ (ua_peerSection st = true -> ua_peer st <> None).

Lemma withStored_ok p : wsUnset p -> wsStored (withStored existing p).
Proof.
  unfold withStored. intros Hp.
  destruct (find _ (c_Peers existing)) as [q|] eqn:E; unfold wsStored;
    cbn [pr_PublicKey copyWS]; by rewrite E.
Qed.

Lemma addPeer_ok st :
  uapiOk st -> uapiOk (mkUapi false (ua_conf (addPeer existing st)) None).
Proof.
  intros (Hn & H1 & H2 & Hps & Hp & _). unfold addPeer. destruct (ua_peer st) as [p|]; cbn.
  - unfold uapiOk. cbn. split_and!; try done. apply Forall_app. split; [done|].
    apply Forall_singleton. by apply withStored_ok.
  - by split_and!.
Qed.

Lemma peerFieldUAPI_unset key val p p' : peerFieldUAPI key val p = Ok p' -> wsUnset p -> wsUnset p'.
Proof.
  unfold peerFieldUAPI, wsUnset. intros Hf Hp.
  repeat match type of Hf with
  | (if ?b then _ else _) = Ok _ =>
      destruct b; [first [bind_ok Hf; injection Hf as <-; exact Hp | destruct (negb _); [done|]; injection Hf as <-; exact Hp]|]
  end. done.
Qed.

Lemma uapiStep_ok st line st' : uapiOk st -> uapiStep existing st line = Ok st' -> uapiOk st'.
Proof.
  intros Hst. unfold uapiStep. destruct (Cut line _) as [[key val] []]; [|done].
  destruct (bool_decide (key = str "errno")); [case_match; [done|]; by intros [= <-]|].
  set (st1 := if bool_decide (key = str "public_key") then _ else st).
  assert (H1 : uapiOk st1).
  { unfold st1. case_match; [|done]. pose proof (addPeer_ok st Hst) as (? & ? & ? & ? & _).
    unfold uapiOk. cbn. split_and!; done. }
  clearbody st1. destruct H1 as (Hn & Hi1 & Hi2 & Hps & Hp & Hsec).
  destruct (ua_peerSection st1) eqn:Es; cbn [negb].
  - destruct (ua_peer st1) as [p|] eqn:Ep; [|done]. intros Hf. bind_ok Hf. injection Hf as <-.
    unfold uapiOk. cbn. split_and!; try done. by eapply peerFieldUAPI_unset.
  - intros Hf. bind_ok Hf. injection Hf as <-. unfold uapiOk. cbn.
    assert (Hfr : exists k port, a = set_i_PrivateKey k (set_i_ListenPort port (c_Interface (ua_conf st1)))).
    { unfold interfaceUAPI in Hb. destruct (c_Interface (ua_conf st1)).
      repeat (case_match; [bind_ok Hb; injection Hb as <-; eexists _, _; unfold set_i_PrivateKey, set_i_ListenPort; cbn; reflexivity|]). done. }
    destruct Hfr as (k & port & ->). cbn. by split_and!.
Qed.

Lemma uapiLoop_ok lines st st' : uapiOk st -> uapiLoop existing st lines = Ok st' -> uapiOk st'.
Proof.
  revert st; induction lines as [|line [|next rest] IH]; intros st Hst Hl; [done..|].
  cbn [uapiLoop] in Hl. destruct (length line =? 0)%nat; [by injection Hl as <-|].
  bind_ok Hl. eapply IH; [|exact Hl]. by eapply uapiStep_ok.
Qed.

(** The runtime view of a userspace tunnel keeps the stored name and
    interface settings, takes each peer's WebSocket settings from the stored
    peer of the same key (and leaves them unset for a peer that is not
    stored), and lists the peers in stored order, unknown peers last and
    otherwise in the device's order. *)
Theorem FromUAPI_view s c :
  FromUAPI existing s = Ok c ->
  c_Name c = c_Name existing
  /\ (i_Addresses (c_Interface c), i_MTU (c_Interface c), i_DNS (c_Interface c), i_DNSSearch (c_Interface c))
     = (i_Addresses (c_Interface existing), i_MTU (c_Interface existing), i_DNS (c_Interface existing),
        i_DNSSearch (c_Interface existing))
  /\ Forall wsStored (c_Peers c)
  /\ StronglySorted (posLe existing) (c_Peers c)
  /\ exists reported, Permutation (c_Peers c) reported
     /\ forall n, filter (fun q => position existing q = n) (c_Peers c)
                 = filter (fun q => position existing q = n) reported.
Proof.
  unfold FromUAPI. intros Hf. bind_ok Hf. injection Hf as <-.
  assert (Hst : uapiOk a).
  { eapply uapiLoop_ok; [|exact Hb]. unfold uapiOk. cbn. split_and!; done. }
  apply addPeer_ok in Hst as (Hn & Hi & _ & Hps & _). cbn in *. split_and!; try done.
  - by rewrite sortPeers_perm.
  - apply sortPeers_sorted.
  - eexists. split; [apply sortPeers_perm | intros n; apply sortPeers_stable].
Qed.

(** C4: When the device has the stored peers, in whatever order it reports
    them, the runtime view lists them at their stored positions, which is what
    makes the positions Redact shows mean the same peers. *)
Theorem FromUAPI_positions s c :
  FromUAPI existing s = Ok c ->
  NoDup (map pr_PublicKey (c_Peers existing)) ->
  Permutation (map pr_PublicKey (c_Peers c)) (map pr_PublicKey (c_Peers existing)) ->
  map pr_PublicKey (c_Peers c) = map pr_PublicKey (c_Peers existing).
Proof.
  unfold FromUAPI. intros Hf Hnd Hp. bind_ok Hf. injection Hf as <-. cbn [c_Peers set_c_Peers] in *.
  apply sortPeers_stored; [done|]. etrans; [|exact Hp].
  apply Permutation_map. symmetry. apply sortPeers_perm.
Qed.
End GetOperation.

(** ** An answer is read in full

    The answer of a device that has [key] and the peers [ps], line by line, as
    the cross-platform userspace protocol lays it out. *)

Definition report (k : string) (v : gostring) : gostring := str k ++ "="%char :: v.

Definition reportPeer (p : Peer) : list gostring :=
  [report "public_key" (hexEncode (pr_PublicKey p));
   report "preshared_key" (hexEncode (pr_PresharedKey p));
   report "protocol_version" (str "1")]
  ++ when (negb (EndpointIsEmpty (pr_Endpoint p))) (report "endpoint" (EndpointString (pr_Endpoint p)))
  ++ [report "last_handshake_time_sec" (itoa (pr_LastHandshakeTime p / 1000000000));
      report "last_handshake_time_nsec" (itoa (pr_LastHandshakeTime p mod 1000000000));
      report "tx_bytes" (itoa (pr_TxBytes p)); report "rx_bytes" (itoa (pr_RxBytes p));
      report "persistent_keepalive_interval" (itoa (pr_PersistentKeepalive p))]
  ++ map (fun a => report "allowed_ip" (PrefixString a)) (pr_AllowedIPs p).

Definition reportLines (key : Key) (port : Z) (ps : list Peer) : list gostring :=
  [report "private_key" (hexEncode key); report "listen_port" (itoa port)]
  ++ concat (map reportPeer ps) ++ [report "errno" (str "0")].

(** A peer a device can have: only what it reports is set. *)
Definition devicePeer (p : Peer) : Prop :=
  length (pr_PublicKey p) = KeyLength /\ length (pr_PresharedKey p) = KeyLength
  /\ (pr_Endpoint p = emptyEndpoint
      \/ hostOk (e_Host (pr_Endpoint p)) /\ 0 <= e_Port (pr_Endpoint p) <= 65535
         /\ LF ∉ e_Host (pr_Endpoint p))
  /\ 0 <= pr_LastHandshakeTime p < 2 ^ 63 /\ 0 <= pr_TxBytes p < 2 ^ 64 /\ 0 <= pr_RxBytes p < 2 ^ 64
  /\ 0 <= pr_PersistentKeepalive p <= 65535 /\ Forall validPrefix (pr_AllowedIPs p)
  /\ wsUnset p /\ pr_Comments p = noSectionComments.

Section Report.
Context (existing : Config).

Lemma uapiStep_peer conf p k v p' :
  negb (has_byte "=" (str k)) && negb (bool_decide (str k = str "errno"))
    && negb (bool_decide (str k = str "public_key")) = true ->
  peerFieldUAPI (str k) v p = Ok p' ->
  uapiStep existing (mkUapi true conf (Some p)) (report k v) = Ok (mkUapi true conf (Some p')).
Proof.
  intros [[He Hk1]%andb_prop Hk2]%andb_prop Hf. unfold uapiStep, report.
  change (str "=") with ["="%char]. apply negb_true_iff, has_byte_false in He. rewrite Cut_app by done.
  apply negb_true_iff in Hk1, Hk2. rewrite Hk1, Hk2. cbn [negb ua_peerSection ua_peer ua_conf].
  by rewrite Hf.
Qed.

Lemma uapiStep_interface st k v i' :
  ua_peerSection st = false ->
  negb (has_byte "=" (str k)) && negb (bool_decide (str k = str "errno"))
    && negb (bool_decide (str k = str "public_key")) = true ->
  interfaceUAPI (str k) v (c_Interface (ua_conf st)) = Ok i' ->
  uapiStep existing st (report k v) = Ok (mkUapi false (set_c_Interface i' (ua_conf st)) (ua_peer st)).
Proof.
  intros Hst [[He Hk1]%andb_prop Hk2]%andb_prop Hf. unfold uapiStep, report.
  change (str "=") with ["="%char]. apply negb_true_iff, has_byte_false in He. rewrite Cut_app by done.
  apply negb_true_iff in Hk1, Hk2. rewrite Hk1, Hk2, Hst. cbn [negb]. by rewrite Hf.
Qed.

Lemma parseKeyHex_hexEncode k : length k = KeyLength -> parseKeyHex (hexEncode k) = Ok k.
Proof. intros Hk. unfold parseKeyHex. rewrite hexDecode_hexEncode, Hk. done. Qed.

Lemma parseBytesOrStamp_itoa z : 0 <= z < 2 ^ 64 -> parseBytesOrStamp (itoa z) = Ok z.
Proof. intros Hz. unfold parseBytesOrStamp. by rewrite ParseUint_itoa. Qed.

Lemma wrap64_id z : - 2 ^ 63 <= z < 2 ^ 63 -> wrap64 z = z.
Proof. intros Hz. unfold wrap64. rewrite Z.mod_small; lia. Qed.

(** Seconds and nanoseconds add up to the time stamp, without overflow. *)
Lemma addDuration_split t :
  0 <= t < 2 ^ 63 ->
  addDuration (addDuration 0 (t / 1000000000) 1000000000) (t mod 1000000000) 1 = t.
Proof.
  intros Ht. unfold addDuration.
  assert (0 <= t / 1000000000 * 1000000000 <= t) by (Z.to_euclidean_division_equations; lia).
  assert (0 <= t / 1000000000 <= t) by (Z.to_euclidean_division_equations; lia).
  assert (0 <= t mod 1000000000 < 1000000000) by (apply Z.mod_pos_bound; lia).
  assert (t / 1000000000 * 1000000000 + t mod 1000000000 = t)
    by (rewrite Z.mul_comm; symmetry; apply Z.div_mod; lia).
  rewrite (wrap64_id (t / _)), (wrap64_id (t / _ * _)), Z.add_0_l, (wrap64_id (t / _ * _)) by lia.
  rewrite (wrap64_id (t mod _)), Z.mul_1_r, (wrap64_id (t mod _)), wrap64_id; lia.
Qed.

Lemma uapi_allowed_ips conf p as_ :
  Forall validPrefix as_ ->
  rfold (uapiStep existing) (mkUapi true conf (Some p)) (map (fun a => report "allowed_ip" (PrefixString a)) as_)
  = Ok (mkUapi true conf (Some (set_pr_AllowedIPs (pr_AllowedIPs p ++ as_) p))).
Proof.
  intros Ha; revert p; induction Ha as [|a as_ Hv _ IH]; intros p; cbn [map rfold].
  - rewrite app_nil_r. by destruct p.
  - erewrite uapiStep_peer; [|reflexivity|].
    2:{ unfold peerFieldUAPI. cbn. rewrite parseIPCidr_PrefixString by done. reflexivity. }
    cbn [rbind]. rewrite IH. cbn. by rewrite <- (assoc_L (++)).
Qed.

(** The lines of a peer close the one before and read as the peer itself. *)
Lemma uapi_peer st p :
  devicePeer p ->
  rfold (uapiStep existing) st (reportPeer p)
  = Ok (mkUapi true (ua_conf (addPeer existing st)) (Some p)).
Proof.
  intros (Hpk & Hpsk & Hep & Hhs & Htx & Hrx & Hka & Has & Hws & Hcom). unfold reportPeer.
  set (conf := ua_conf (addPeer existing st)).
  rewrite rfold_app. cbn [rfold].
  assert (E1 : uapiStep existing st (report "public_key" (hexEncode (pr_PublicKey p)))
    = Ok (mkUapi true conf (Some (set_pr_PublicKey (pr_PublicKey p) emptyPeer)))).
  { unfold uapiStep, report. change (str "=") with ["="%char].
    rewrite Cut_app by (apply has_byte_false; reflexivity). cbn.
    unfold peerFieldUAPI. cbn. by rewrite parseKeyHex_hexEncode. }
  rewrite E1. cbn [rbind].
  erewrite uapiStep_peer; [|reflexivity|].
  2:{ unfold peerFieldUAPI. cbn. rewrite parseKeyHex_hexEncode by done. reflexivity. }
  cbn [rbind]. erewrite uapiStep_peer; [|reflexivity | reflexivity]. cbn [rbind].
  set (p1 := set_pr_PresharedKey _ _).
  assert (E2 : rfold (uapiStep existing) (mkUapi true conf (Some p1))
      (when (negb (EndpointIsEmpty (pr_Endpoint p))) (report "endpoint" (EndpointString (pr_Endpoint p))))
    = Ok (mkUapi true conf (Some (set_pr_Endpoint (pr_Endpoint p) p1)))).
  { destruct Hep as [->|(Hh & Hp & _)]; [done|].
    assert (EndpointIsEmpty (pr_Endpoint p) = false) as ->.
    { unfold EndpointIsEmpty. apply hostOk_nonempty in Hh. by destruct (e_Host (pr_Endpoint p)). }
    cbn [negb when rfold]. erewrite uapiStep_peer; [|reflexivity|].
    2:{ unfold peerFieldUAPI. cbn. rewrite parseEndpoint_EndpointString by done. reflexivity. }
    done. }
  rewrite rfold_app, E2. cbn [rbind]. rewrite rfold_app. cbn [rfold].
  assert (Hs : 0 <= pr_LastHandshakeTime p / 1000000000 < 2 ^ 64) by (Z.to_euclidean_division_equations; lia).
  assert (Hns : 0 <= pr_LastHandshakeTime p mod 1000000000 < 2 ^ 64) by (Z.to_euclidean_division_equations; lia).
  do 4 (erewrite uapiStep_peer; [cbn [rbind] | reflexivity
    | unfold peerFieldUAPI; cbn -[Z.div Z.modulo parseBytesOrStamp itoa addDuration]; rewrite parseBytesOrStamp_itoa by done; reflexivity]).
  erewrite uapiStep_peer; [cbn [rbind] | reflexivity
    | unfold peerFieldUAPI; cbn -[parsePersistentKeepalive itoa]; rewrite parsePersistentKeepalive_itoa by done; reflexivity].
  rewrite uapi_allowed_ips by done. do 3 f_equal. subst p1. cbn -[Z.div Z.modulo addDuration].
  rewrite addDuration_split by done. destruct p. cbn in *. unfold wsUnset, wsSettings in Hws. cbn in Hws.
  injection Hws as -> -> -> -> -> -> -> -> -> -> -> ->. by rewrite Hcom.
Qed.

Lemma uapi_peers st ps :
  Forall devicePeer ps ->
  exists st', rfold (uapiStep existing) st (concat (map reportPeer ps)) = Ok st'
    /\ ua_conf (addPeer existing st')
       = set_c_Peers (c_Peers (ua_conf (addPeer existing st)) ++ map (withStored existing) ps)
           (ua_conf (addPeer existing st)).
Proof.
  intros Hps; revert st; induction Hps as [|p ps Hp _ IH]; intros st; cbn [map concat].
  - exists st. split; [done|]. rewrite app_nil_r. by destruct (ua_conf (addPeer existing st)).
  - rewrite rfold_app, uapi_peer by done. cbn [rbind].
    destruct (IH (mkUapi true (ua_conf (addPeer existing st)) (Some p))) as (st' & -> & E).
    exists st'. split; [done|]. rewrite E. cbn. by rewrite <- (assoc_L (++)).
Qed.

Lemma uapiLoop_lines st lines :
  Forall (fun l => l <> []) lines ->
  uapiLoop existing st (lines ++ [[]; []]) = rfold (uapiStep existing) st lines.
Proof.
  intros Hl; revert st; induction Hl as [|l lines Hne _ IH]; intros st; [done|].
  cbn [app rfold]. destruct l as [|c l]; [done|].
  destruct lines as [|l2 lines]; cbn [app uapiLoop length Nat.eqb];
    (destruct (uapiStep existing st (c :: l)); cbn [rbind]; [apply IH | done]).
Qed.

Lemma report_ok k v : negb (has_byte LF (str k)) = true -> LF ∉ v -> LF ∉ report k v /\ report k v <> [].
Proof.
  intros Hk%negb_true_iff%has_byte_false Hv. unfold report. split; [|by destruct (str k)].
  rewrite not_elem_of_app, not_elem_of_cons. by split_and!.
Qed.

Lemma itoa_LF z : 0 <= z -> LF ∉ itoa z.
Proof. intros Hz. apply plainValue_LF. by apply itoa_plain. Qed.

Lemma reportPeer_ok p : devicePeer p -> Forall (fun l => LF ∉ l /\ l <> []) (reportPeer p).
Proof.
  intros (Hpk & Hpsk & Hep & Hhs & Htx & Hrx & Hka & Has & _). unfold reportPeer. rewrite !Forall_app.
  assert (Hd : 0 <= pr_LastHandshakeTime p / 1000000000) by (apply Z.div_pos; lia).
  assert (Hm : 0 <= pr_LastHandshakeTime p mod 1000000000) by (apply Z.mod_pos_bound; lia).
  split_and!.
  - repeat apply Forall_cons_2; try apply Forall_nil_2; apply report_ok; try reflexivity;
      try apply hexEncode_LF. vm_compute. set_solver.
  - apply Forall_when. intros He. apply report_ok; [reflexivity|].
    destruct Hep as [E|(_ & Hp & Hl)]; [by rewrite E in He|]. destruct (pr_Endpoint p) as [h q].
    apply EndpointString_LF; [done | cbn in Hp; lia].
  - repeat apply Forall_cons_2; try apply Forall_nil_2; apply report_ok; try reflexivity;
      apply itoa_LF; lia.
  - apply Forall_map. eapply Forall_impl; [exact Has|]. intros a Ha. apply report_ok; [reflexivity|].
    apply plainValue_LF. by destruct (PrefixString_item a Ha).
Qed.

(** The answer of a device is read in full: FromUAPI returns the device's
    key and port and every peer with its keys, endpoint, counters, keepalive,
    allowed IPs and the exact time of its last handshake, completed from the
    stored peers and put in stored order. *)
Theorem FromUAPI_report key port ps :
  length key = KeyLength -> 0 <= port <= 65535 -> Forall devicePeer ps ->
  FromUAPI existing (concat (map (fun l => l ++ [LF]) (reportLines key port ps ++ [[]])))
  = Ok (set_c_Peers (sortPeers existing (map (withStored existing) ps))
          (set_c_Interface (set_i_ListenPort port (set_i_PrivateKey key
                              (c_Interface (ua_conf (initialUAPI existing)))))
             (ua_conf (initialUAPI existing)))).
Proof.
  intros Hkey Hport Hps.
  assert (Hlines : Forall (fun l => LF ∉ l /\ l <> []) (reportLines key port ps)).
  { unfold reportLines. rewrite !Forall_app. split_and!.
    - repeat apply Forall_cons_2; try apply Forall_nil_2; apply report_ok; try reflexivity;
        [apply hexEncode_LF | apply itoa_LF; lia].
    - clear -Hps. induction Hps as [|p ps Hp _ IH]; cbn [map concat]; [constructor|].
      apply Forall_app. split; [by apply reportPeer_ok | done].
    - apply Forall_singleton, report_ok; [reflexivity | vm_compute; set_solver]. }
  apply Forall_and in Hlines as [H1 H2]. unfold FromUAPI.
  rewrite Split_lines by (apply Forall_app; split; [done | apply Forall_singleton; set_solver]).
  rewrite <- (assoc_L (++)). cbn [app]. rewrite uapiLoop_lines by done.
  unfold reportLines. rewrite rfold_app. cbn [rfold].
  erewrite uapiStep_interface; [|reflexivity|reflexivity|].
  2:{ unfold interfaceUAPI. rewrite bool_decide_eq_true_2 by done.
      rewrite parseKeyHex_hexEncode by done. reflexivity. }
  cbn [rbind]. erewrite uapiStep_interface; [|reflexivity|reflexivity|].
  2:{ unfold interfaceUAPI. rewrite bool_decide_eq_false_2, bool_decide_eq_true_2 by done.
      rewrite parsePort_itoa by done. reflexivity. }
  cbn [rbind]. rewrite rfold_app.
  match goal with |- context [rfold _ ?st (concat (map reportPeer ps))] =>
    destruct (uapi_peers st ps Hps) as (st' & -> & E) end.
  cbn [rbind rfold].
  assert (uapiStep existing st' (report "errno" (str "0")) = Ok st') as -> by reflexivity.
  cbn [rbind]. rewrite E. reflexivity.
Qed.
End Report.

(** ** Examples *)

Definition reportKey (n : Z) : Key := chr n :: replicate 31 "007"%char.
Definition reportedPeer (n : Z) : Peer :=
  mkPeer (reportKey n) zeroKey [mkPrefix (Addr4 (n * 16777216)) 8] (mkEndpoint (str "192.0.2.1") (51820 + n)) 25
    [] [] [] [] false [] [] [] false 0 0 0 (1000 * n) (2000 * n) (1600000000123456789 + n) noSectionComments.
Definition storedConfig : Config :=
  mkConfig (str "wg0") emptyInterface
    [set_pr_WSBearer (str "one") (set_pr_WSMode WSModeWebSocket (reportedPeer 1)); reportedPeer 2; reportedPeer 3] ∅ [].
Definition reportText : gostring :=
  concat (map (fun l => l ++ [LF]) (reportLines zeroKey 51820 [reportedPeer 3; reportedPeer 1; reportedPeer 2] ++ [[]])).
Definition reportResult : Config :=
  match FromUAPI storedConfig reportText with Ok c => c | Err _ => storedConfig end.

Lemma reportResult_ok : FromUAPI storedConfig reportText = Ok reportResult.
Proof. vm_compute. reflexivity. Qed.

Lemma ToUAPI_directives_witness :
  map (fun l => Cut l (str "=")) (Split LF (ToUAPI exampleConfig))
  = map (fun d => (d.1, d.2, true)) (directives exampleConfig) ++ [([], [], false)].
Proof. exact (@ToUAPI_directives asciiTables exampleURL _ _ _ exampleConfig_ok). Defined.

Lemma FromUAPI_view_witness :
  Forall (wsStored storedConfig) (c_Peers reportResult)
  /\ (pr_WSBearer <$> c_Peers reportResult) = [str "one"; []; []].
Proof.
  split; [|vm_compute; reflexivity].
  destruct (FromUAPI_view storedConfig reportText reportResult reportResult_ok) as (_ & _ & H & _). exact H.
Defined.

Lemma FromUAPI_positions_witness :
  map pr_PublicKey (c_Peers reportResult) = map reportKey [1; 2; 3].
Proof.
  rewrite (FromUAPI_positions storedConfig reportText reportResult reportResult_ok).
  - reflexivity.
  - apply (bool_decide_unpack _). vm_compute. exact I.
  - vm_compute. reflexivity.
Defined.

Lemma FromUAPI_report_witness :
  exists c, FromUAPI storedConfig reportText = Ok c /\ length (c_Peers c) = 3%nat.
Proof.
  eexists. split; [apply (FromUAPI_report storedConfig zeroKey 51820)|].
  - reflexivity.
  - lia.
  - repeat apply Forall_cons_2; try apply Forall_nil_2; unfold devicePeer; cbn [reportedPeer pr_PublicKey pr_PresharedKey
      pr_Endpoint pr_LastHandshakeTime pr_TxBytes pr_RxBytes pr_PersistentKeepalive pr_AllowedIPs pr_Comments e_Host e_Port];
      (split; [reflexivity|]); (split; [reflexivity|]); (split; [|split; [lia|split; [lia|split; [lia|split; [lia|split; [|done]]]]]]);
      try (right; split; [right; split_and!; [done | apply has_byte_false; reflexivity | done | done]
           | split; [lia | apply has_byte_false; reflexivity]]);
      apply Forall_singleton; vm_compute; repeat split; discriminate.
  - vm_compute. reflexivity.
Defined.
