(* ===== verification/Driver.v ===== *)
(** * driver/configuration_windows.go and its users in conf

    The kernel driver takes and returns a configuration as one block of memory:
    an Interface, then for each peer a Peer and its AllowedIPs. The model keeps
    the block as bytes, with the layout of the structs (little-endian fields,
    explicit padding); a pointer into it is the rest of the block from there,
    and reading past its end is [None]. *)

From S2P Require Import Prelude GoStrings GoNum Netip Config Name Parser ConfWf.
Local Open Scope Z_scope.

(** ** Fields of structs *)

Fixpoint leValue (bs : gostring) : Z :=
  match bs with [] => 0 | b :: bs' => code b + 256 * leValue bs' end.

Definition bytesAt (off n : nat) (bs : gostring) : gostring := take n (drop off bs).
Definition fieldAt (off n : nat) (bs : gostring) : Z := leValue (bytesAt off n bs).

Definition zeroes (n : nat) : gostring := replicate n "000"%char.

(** Big-endian bytes, as addresses and ports are kept. *)
Definition beBytes (n : nat) (v : Z) : gostring := reverse (leBytes n v).
Definition beValue (bs : gostring) : Z := leValue (reverse bs).

(** ** winipcfg.RawSockaddrInet: 28 bytes, read as one of two structs *)

Definition AF_INET : Z := 2.
Definition AF_INET6 : Z := 23.

Definition sockaddrSize : nat := 28.

(** SetAddrPort on [addr]; an invalid address leaves it as it is. *)
Definition SetAddrPort (addr : gostring) (a : Addr) (port : Z) : gostring :=
  match a with
  | Addr4 v =>
      leBytes 2 AF_INET ++ beBytes 2 port ++ beBytes 4 v ++ zeroes 8 ++ drop 16 addr
  | Addr6 v zone =>
      let scopeId := match zone with
                     | [] => 0
                     | _ => match ParseUint zone 32 with Ok s => s | Err _ => 0 end
                     end in
      leBytes 2 AF_INET6 ++ beBytes 2 port ++ leBytes 4 0 ++ beBytes 16 v ++ leBytes 4 scopeId
  | AddrZero => addr
  end.

Definition sockaddrAddr (addr : gostring) : Addr :=
  let family := fieldAt 0 2 addr in
  if family =? AF_INET then Addr4 (beValue (bytesAt 4 4 addr))
  else if family =? AF_INET6 then
    let scope := fieldAt 24 4 addr in
    Addr6 (beValue (bytesAt 8 16 addr)) (if negb (scope =? 0) then FormatUint 10 scope else [])
  else AddrZero.

Definition sockaddrPort (addr : gostring) : Z :=
  let family := fieldAt 0 2 addr in
  if (family =? AF_INET) || (family =? AF_INET6) then beValue (bytesAt 2 2 addr) else 0.

(** ** The structs of the block *)

Record rawAllowedIP : Type := mkRawAllowedIP {
  ra_Address : gostring; ra_AddressFamily : Z; ra_Cidr : Z; ra_Flags : Z
}.

Record rawPeer : Type := mkRawPeer {
  rp_Flags : Z; rp_PublicKey : gostring; rp_PresharedKey : gostring; rp_PersistentKeepalive : Z;
  rp_Endpoint : gostring; rp_TxBytes : Z; rp_RxBytes : Z; rp_LastHandshake : Z; rp_AllowedIPsCount : Z
}.

Record rawInterface : Type := mkRawInterface {
  ri_Flags : Z; ri_ListenPort : Z; ri_PrivateKey : gostring; ri_PublicKey : gostring; ri_PeerCount : Z
}.

Definition sizeofAllowedIP : nat := 24.
Definition sizeofPeer : nat := 136.
Definition sizeofInterface : nat := 80.

Definition PeerHasPublicKey : Z := 1.
Definition PeerHasPresharedKey : Z := 2.
Definition PeerHasPersistentKeepalive : Z := 4.
Definition PeerHasEndpoint : Z := 8.
Definition InterfaceHasPublicKey : Z := 1.
Definition InterfaceHasPrivateKey : Z := 2.
Definition InterfaceHasListenPort : Z := 4.

(** The memory of a struct. *)
Definition encodeAllowedIP (a : rawAllowedIP) : gostring :=
  ra_Address a ++ leBytes 2 (ra_AddressFamily a) ++ leBytes 1 (ra_Cidr a) ++ zeroes 1 ++ leBytes 4 (ra_Flags a).

Definition encodePeer (p : rawPeer) : gostring :=
  leBytes 4 (rp_Flags p) ++ zeroes 4 ++ rp_PublicKey p ++ rp_PresharedKey p
  ++ leBytes 2 (rp_PersistentKeepalive p) ++ zeroes 2 ++ rp_Endpoint p
  ++ leBytes 8 (rp_TxBytes p) ++ leBytes 8 (rp_RxBytes p) ++ leBytes 8 (rp_LastHandshake p)
  ++ leBytes 4 (rp_AllowedIPsCount p) ++ zeroes 4.

Definition encodeInterface (i : rawInterface) : gostring :=
  leBytes 4 (ri_Flags i) ++ leBytes 2 (ri_ListenPort i) ++ ri_PrivateKey i ++ ri_PublicKey i ++ zeroes 2
  ++ leBytes 4 (ri_PeerCount i) ++ zeroes 4.

(** What a pointer to a struct points at. *)
Definition derefAllowedIP (b : gostring) : option rawAllowedIP :=
  if (length b <? sizeofAllowedIP)%nat then None
  else Some (mkRawAllowedIP (bytesAt 0 16 b) (fieldAt 16 2 b) (fieldAt 18 1 b) (fieldAt 20 4 b)).

Definition derefPeer (b : gostring) : option rawPeer :=
  if (length b <? sizeofPeer)%nat then None
  else Some (mkRawPeer (fieldAt 0 4 b) (bytesAt 8 32 b) (bytesAt 40 32 b) (fieldAt 72 2 b)
               (bytesAt 76 28 b) (fieldAt 104 8 b) (fieldAt 112 8 b) (fieldAt 120 8 b) (fieldAt 128 4 b)).

Definition derefInterface (b : gostring) : option rawInterface :=
  if (length b <? sizeofInterface)%nat then None
  else Some (mkRawInterface (fieldAt 0 4 b) (fieldAt 4 2 b) (bytesAt 6 32 b) (bytesAt 38 32 b) (fieldAt 72 4 b)).

(** The pointer arithmetic. *)
Definition FirstPeer (interfaze : gostring) : gostring := drop sizeofInterface interfaze.
Definition FirstAllowedIP (peer : gostring) : gostring := drop sizeofPeer peer.
Definition NextAllowedIP (allowedIP : gostring) : gostring := drop sizeofAllowedIP allowedIP.
Definition NextPeer (peer : gostring) (p : rawPeer) : gostring :=
  drop (sizeofPeer + Z.to_nat (rp_AllowedIPsCount p) * sizeofAllowedIP) peer.

(** ConfigBuilder: its buffer. *)
Definition AppendInterface (buffer : gostring) (i : rawInterface) : gostring := buffer ++ encodeInterface i.
Definition AppendPeer (buffer : gostring) (p : rawPeer) : gostring := buffer ++ encodePeer p.
Definition AppendAllowedIP (buffer : gostring) (a : rawAllowedIP) : gostring := buffer ++ encodeAllowedIP a.

(** ** conf/writer.go: ToDriverConfiguration *)

(** Addr().AsSlice() copied into the 16 bytes of the field. *)
Definition addressBytes (a : Addr) : gostring :=
  match a with
  | AddrZero => zeroes 16
  | Addr4 v => beBytes 4 v ++ zeroes 12
  | Addr6 v _ => beBytes 16 v
  end.

Definition driverAllowedIP (a : Prefix) : rawAllowedIP :=
  mkRawAllowedIP (addressBytes (p_addr a))
    (if Is4 (p_addr a) then AF_INET else if Is6 (p_addr a) then AF_INET6 else 0)
    (p_bits a mod 256) 0.

Definition driverPeer (p : Peer) : rawPeer :=
  let flags := Z.lor PeerHasPublicKey PeerHasPersistentKeepalive in
  let flags := if negb (KeyIsZero (pr_PresharedKey p)) then Z.lor flags PeerHasPresharedKey else flags in
  let '(flags, endpoint) :=
    if negb (EndpointIsEmpty (pr_Endpoint p)) then
      match ParseAddr (e_Host (pr_Endpoint p)) with
      | Some addr => (Z.lor flags PeerHasEndpoint,
                      SetAddrPort (zeroes sockaddrSize) addr (e_Port (pr_Endpoint p)))
      | None => (flags, zeroes sockaddrSize)
      end
    else (flags, zeroes sockaddrSize) in
  mkRawPeer flags (pr_PublicKey p) (pr_PresharedKey p) (pr_PersistentKeepalive p) endpoint 0 0 0
    (Z.of_nat (length (pr_AllowedIPs p)) mod 2 ^ 32).

Definition ToDriverConfiguration (config : Config) : gostring :=
  let c := AppendInterface []
             (mkRawInterface (Z.lor InterfaceHasPrivateKey InterfaceHasListenPort)
                (i_ListenPort (c_Interface config)) (i_PrivateKey (c_Interface config)) zeroKey
                (Z.of_nat (length (c_Peers config)) mod 2 ^ 32)) in
  fold_left (fun c p =>
    fold_left (fun c a => AppendAllowedIP c (driverAllowedIP a)) (pr_AllowedIPs p)
      (AppendPeer c (driverPeer p))) (c_Peers config) c.

(** ** conf/parser.go: FromDriverConfiguration *)

Definition allowedIPPrefix (a : rawAllowedIP) : Prefix :=
  let ip := if ra_AddressFamily a =? AF_INET then Addr4 (beValue (take 4 (ra_Address a)))
            else if ra_AddressFamily a =? AF_INET6 then Addr6 (beValue (take 16 (ra_Address a))) []
            else AddrZero in
  PrefixFrom ip (ra_Cidr a).

(** The loop over the allowed IPs of a peer, at pointer [b]. *)
Fixpoint readAllowedIPs (n : nat) (b : gostring) : option (list Prefix) :=
  match n with
  | O => Some []
  | S n' =>
      match derefAllowedIP b with
      | None => None
      | Some a => match readAllowedIPs n' (NextAllowedIP b) with
                  | None => None
                  | Some ps => Some (allowedIPPrefix a :: ps)
                  end
      end
  end.

Definition hasFlag (flags flag : Z) : bool := negb (Z.land flags flag =? 0).

(** uint64 arithmetic, then the conversion to a signed duration. *)
Definition handshakeTime (t : Z) : Z :=
  if negb (t =? 0)
  then let n := ((t - 116444736000000000) * 100) mod 2 ^ 64 in (n + 2 ^ 63) mod 2 ^ 64 - 2 ^ 63
  else 0.

Definition confPeer (p : rawPeer) (ips : list Prefix) : Peer :=
  let peer := emptyPeer in
  let peer := if hasFlag (rp_Flags p) PeerHasPublicKey then set_pr_PublicKey (rp_PublicKey p) peer else peer in
  let peer := if hasFlag (rp_Flags p) PeerHasPresharedKey then set_pr_PresharedKey (rp_PresharedKey p) peer else peer in
  let peer := if hasFlag (rp_Flags p) PeerHasEndpoint
              then set_pr_Endpoint (mkEndpoint (AddrString (sockaddrAddr (rp_Endpoint p)))
                                      (sockaddrPort (rp_Endpoint p))) peer
              else peer in
  let peer := if hasFlag (rp_Flags p) PeerHasPersistentKeepalive
              then set_pr_PersistentKeepalive (rp_PersistentKeepalive p) peer else peer in
  set_pr_AllowedIPs ips
    (set_pr_LastHandshakeTime (handshakeTime (rp_LastHandshake p))
       (set_pr_RxBytes (rp_RxBytes p) (set_pr_TxBytes (rp_TxBytes p) peer))).

(** The loop over the peers, at pointer [b]. *)
Fixpoint readPeers (n : nat) (b : gostring) : option (list Peer) :=
  match n with
  | O => Some []
  | S n' =>
      match derefPeer b with
      | None => None
      | Some p =>
          match readAllowedIPs (Z.to_nat (rp_AllowedIPsCount p)) (FirstAllowedIP b) with
          | None => None
          | Some ips => match readPeers n' (NextPeer b p) with
                        | None => None
                        | Some ps => Some (confPeer p ips :: ps)
                        end
          end
      end
  end.

Definition FromDriverConfiguration (interfaze : gostring) (existingConfig : Config) : option Config :=
  match derefInterface interfaze with
  | None => None
  | Some i =>
      let e := c_Interface existingConfig in
      let conf := mkInterface zeroKey (i_Addresses e) 0 (i_MTU e) (i_DNS e) (i_DNSSearch e) (i_PreUp e)
                    (i_PostUp e) (i_PreDown e) (i_PostDown e) (i_TableOff e) noSectionComments in
      let conf := if hasFlag (ri_Flags i) InterfaceHasPrivateKey then set_i_PrivateKey (ri_PrivateKey i) conf else conf in
      let conf := if hasFlag (ri_Flags i) InterfaceHasListenPort then set_i_ListenPort (ri_ListenPort i) conf else conf in
      match readPeers (Z.to_nat (ri_PeerCount i)) (FirstPeer interfaze) with
      | None => None
      | Some ps => Some (mkConfig (c_Name existingConfig) conf ps ∅ [])
      end
  end.

(** ** Lemmas: fields *)

Lemma leValue_leBytes n v : 0 <= v < 256 ^ Z.of_nat n -> leValue (leBytes n v) = v.
Proof.
  revert v; induction n as [|n IH]; intros v Hv; cbn [leBytes leValue]; [cbn in Hv; lia|].
  rewrite Nat2Z.inj_succ, Z.pow_succ_r in Hv by lia.
  assert (Hd : 0 <= v / 256 < 256 ^ Z.of_nat n)
    by (split; [apply Z.div_pos; lia | apply Z.div_lt_upper_bound; lia]).
  rewrite code_chr, Z.mod_mod, IH by (exact Hd || lia).
  pose proof (Z.div_mod v 256 ltac:(lia)). lia.
Qed.

Lemma beValue_beBytes n v : 0 <= v < 256 ^ Z.of_nat n -> beValue (beBytes n v) = v.
Proof. intros Hv. unfold beValue, beBytes. rewrite reverse_involutive. by apply leValue_leBytes. Qed.

Lemma length_beBytes n v : length (beBytes n v) = n.
Proof. unfold beBytes. by rewrite length_reverse, leBytes_length. Qed.

Lemma length_zeroes n : length (zeroes n) = n.
Proof. apply length_replicate. Qed.

Lemma bytesAt_skip a b off n : (length a <= off)%nat -> bytesAt off n (a ++ b) = bytesAt (off - length a) n b.
Proof. intros Hl. unfold bytesAt. by rewrite drop_app_ge. Qed.

Lemma bytesAt_here a b n : length a = n -> bytesAt 0 n (a ++ b) = a.
Proof. intros Hl. unfold bytesAt. cbn [drop skipn]. rewrite <- Hl. apply take_app_length. Qed.

Lemma bytesAt_end a n : length a = n -> bytesAt 0 n a = a.
Proof. intros Hl. rewrite <- (app_nil_r a) at 1. by apply bytesAt_here. Qed.

Create HintDb layout.
#[export] Hint Rewrite leBytes_length length_beBytes length_zeroes length_app : layout.

(** Solves [length segment = n] for a segment of a struct. *)
Ltac seglen := autorewrite with layout; first [reflexivity | eassumption | lia].

(** Reads a field out of the segments of a struct, one after the other. *)
Ltac readfield :=
  unfold fieldAt; rewrite <- ?(assoc_L (++));
  repeat (rewrite bytesAt_skip by (autorewrite with layout; lia); autorewrite with layout;
          repeat match goal with H : length _ = _ |- _ => rewrite H end; cbn [Nat.sub]);
  first [rewrite bytesAt_here by seglen | rewrite bytesAt_end by seglen];
  try (rewrite leValue_leBytes by (cbn; lia)); try reflexivity.

Lemma derefAllowedIP_encode a rest :
  length (ra_Address a) = 16%nat -> 0 <= ra_AddressFamily a < 2 ^ 16 -> 0 <= ra_Cidr a < 2 ^ 8 ->
  0 <= ra_Flags a < 2 ^ 32 -> derefAllowedIP (encodeAllowedIP a ++ rest) = Some a.
Proof.
  destruct a as [addr fam cidr flags]. cbn [ra_Address ra_AddressFamily ra_Cidr ra_Flags]. intros Ha Hf Hc Hfl.
  unfold derefAllowedIP, encodeAllowedIP. cbn [ra_Address ra_AddressFamily ra_Cidr ra_Flags].
  destruct (Nat.ltb_spec (length ((addr ++ leBytes 2 fam ++ leBytes 1 cidr ++ zeroes 1 ++ leBytes 4 flags) ++ rest))
    sizeofAllowedIP) as [Hlt|_].
  { exfalso. revert Hlt. autorewrite with layout. rewrite Ha. unfold sizeofAllowedIP. lia. }
  f_equal. f_equal; readfield.
Qed.

Definition rawPeerOk (p : rawPeer) : Prop :=
  0 <= rp_Flags p < 2 ^ 32 /\ length (rp_PublicKey p) = 32%nat /\ length (rp_PresharedKey p) = 32%nat
  /\ 0 <= rp_PersistentKeepalive p < 2 ^ 16 /\ length (rp_Endpoint p) = 28%nat
  /\ 0 <= rp_TxBytes p < 2 ^ 64 /\ 0 <= rp_RxBytes p < 2 ^ 64 /\ 0 <= rp_LastHandshake p < 2 ^ 64
  /\ 0 <= rp_AllowedIPsCount p < 2 ^ 32.

Lemma length_encodePeer p : rawPeerOk p -> length (encodePeer p) = sizeofPeer.
Proof.
  intros (_ & H1 & H2 & _ & H3 & _). unfold encodePeer. autorewrite with layout. rewrite H1, H2, H3. done.
Qed.

Lemma length_encodeAllowedIP a : length (ra_Address a) = 16%nat -> length (encodeAllowedIP a) = sizeofAllowedIP.
Proof. intros Ha. unfold encodeAllowedIP. autorewrite with layout. by rewrite Ha. Qed.

Lemma derefPeer_encode p rest : rawPeerOk p -> derefPeer (encodePeer p ++ rest) = Some p.
Proof.
  intros Hp. unfold derefPeer. pose proof (length_encodePeer p Hp) as Hl.
  destruct (Nat.ltb_spec (length (encodePeer p ++ rest)) sizeofPeer) as [Hlt|_].
  { rewrite length_app in Hlt. lia. }
  clear Hl. destruct p as [fl pk psk ka ep tx rx hs cnt]. unfold rawPeerOk in Hp.
  cbn [rp_Flags rp_PublicKey rp_PresharedKey rp_PersistentKeepalive rp_Endpoint rp_TxBytes rp_RxBytes
    rp_LastHandshake rp_AllowedIPsCount] in Hp. destruct Hp as (Hfl & Hpk & Hpsk & Hka & Hep & Htx & Hrx & Hhs & Hcnt).
  unfold encodePeer. cbn [rp_Flags rp_PublicKey rp_PresharedKey rp_PersistentKeepalive rp_Endpoint rp_TxBytes rp_RxBytes
    rp_LastHandshake rp_AllowedIPsCount]. f_equal. f_equal; readfield.
Qed.

Lemma derefInterface_encode i rest :
  0 <= ri_Flags i < 2 ^ 32 -> 0 <= ri_ListenPort i < 2 ^ 16 -> length (ri_PrivateKey i) = 32%nat ->
  length (ri_PublicKey i) = 32%nat -> 0 <= ri_PeerCount i < 2 ^ 32 ->
  derefInterface (encodeInterface i ++ rest) = Some i /\ length (encodeInterface i) = sizeofInterface.
Proof.
  destruct i as [fl port k pk n]. cbn [ri_Flags ri_ListenPort ri_PrivateKey ri_PublicKey ri_PeerCount].
  intros Hfl Hport Hk Hpk Hn.
  assert (Hl : length (encodeInterface (mkRawInterface fl port k pk n)) = sizeofInterface).
  { unfold encodeInterface. cbn [ri_Flags ri_ListenPort ri_PrivateKey ri_PublicKey ri_PeerCount].
    autorewrite with layout. by rewrite Hk, Hpk. }
  split; [|exact Hl]. unfold derefInterface.
  destruct (Nat.ltb_spec (length (encodeInterface (mkRawInterface fl port k pk n) ++ rest)) sizeofInterface) as [Hlt|_].
  { rewrite length_app in Hlt. lia. }
  clear Hl. unfold encodeInterface. cbn [ri_Flags ri_ListenPort ri_PrivateKey ri_PublicKey ri_PeerCount].
  f_equal. f_equal; readfield.
Qed.

(** ** Addresses *)

(** The zone the driver can keep: a scope number. *)
Definition scopeZone (a : Addr) : Addr :=
  match a with
  | Addr6 v zone =>
      Addr6 v (match ParseUint zone 32 with Ok s => if s =? 0 then [] else FormatUint 10 s | Err _ => [] end)
  | _ => a
  end.

Lemma ParseUint_range s m : ParseUint s 32 = Ok m -> 0 <= m < 2 ^ 32.
Proof. unfold ParseUint. destruct s; [done|]. intros Hm. apply parseDigits_range in Hm; lia. Qed.

Lemma sockaddr_round_trip a port :
  validAddr a -> 0 <= port < 2 ^ 16 ->
  let s := SetAddrPort (zeroes sockaddrSize) a port in
  length s = 28%nat /\ sockaddrAddr s = scopeZone a /\ sockaddrPort s = port.
Proof.
  intros Ha Hp. destruct a as [|v|v zone]; [done|..]; cbn in Ha; cbn [SetAddrPort scopeZone].
  - change (drop 16 (zeroes sockaddrSize)) with (zeroes 12). split; [by autorewrite with layout|].
    assert (Hfam : fieldAt 0 2 (leBytes 2 AF_INET ++ beBytes 2 port ++ beBytes 4 v ++ zeroes 8 ++ zeroes 12) = AF_INET)
      by (unfold AF_INET; readfield).
    unfold sockaddrAddr, sockaddrPort. rewrite Hfam. cbn [Z.eqb AF_INET Pos.eqb orb].
    split; [f_equal|].
    + rewrite <- (beValue_beBytes 4 v) at 2 by (cbn; lia). f_equal; readfield.
    + rewrite <- (beValue_beBytes 2 port) at 2 by (cbn; lia). f_equal; readfield.
  - set (scope := match zone with [] => 0 | _ => match ParseUint zone 32 with Ok s => s | Err _ => 0 end end).
    assert (Hs : 0 <= scope < 2 ^ 32).
    { unfold scope. destruct zone; [lia|]. destruct (ParseUint _ 32) eqn:E; [by apply ParseUint_range in E | lia]. }
    split; [by autorewrite with layout|].
    assert (Hfam : fieldAt 0 2 (leBytes 2 AF_INET6 ++ beBytes 2 port ++ leBytes 4 0 ++ beBytes 16 v ++ leBytes 4 scope)
      = AF_INET6) by (unfold AF_INET6; readfield).
    unfold sockaddrAddr, sockaddrPort. rewrite Hfam. cbn [Z.eqb AF_INET AF_INET6 Pos.eqb orb].
    assert (Hsc : fieldAt 24 4 (leBytes 2 AF_INET6 ++ beBytes 2 port ++ leBytes 4 0 ++ beBytes 16 v ++ leBytes 4 scope)
      = scope) by readfield.
    rewrite Hsc. split; [f_equal|].
    + rewrite <- (beValue_beBytes 16 v) at 2 by (cbn; lia). f_equal; readfield.
    + unfold scope. destruct zone; [done|]. destruct (ParseUint _ 32) as [s|]; [|done].
      by destruct (s =? 0).
    + rewrite <- (beValue_beBytes 2 port) at 2 by (cbn; lia). f_equal; readfield.
Qed.

Lemma driverAllowedIP_ok a :
  validPrefix a -> length (ra_Address (driverAllowedIP a)) = 16%nat
    /\ 0 <= ra_AddressFamily (driverAllowedIP a) < 2 ^ 16 /\ 0 <= ra_Cidr (driverAllowedIP a) < 2 ^ 8
    /\ 0 <= ra_Flags (driverAllowedIP a) < 2 ^ 32
    /\ allowedIPPrefix (driverAllowedIP a) = a.
Proof.
  intros Hv. pose proof Hv as (Ha & Hz & Hb). destruct a as [[|v|v zone] bits]; [done|..]; cbn in Ha, Hz, Hb;
    unfold driverAllowedIP; cbn [ra_Address ra_AddressFamily ra_Cidr ra_Flags p_addr p_bits Is4 Is6 addressBytes].
  - rewrite Z.mod_small by lia. split_and!; try (unfold AF_INET; lia); [by autorewrite with layout|].
    unfold allowedIPPrefix. cbn [ra_Address ra_AddressFamily ra_Cidr Z.eqb AF_INET Pos.eqb].
    rewrite take_app_length' by (by rewrite length_beBytes). rewrite beValue_beBytes by (cbn; lia).
    by apply PrefixFrom_valid in Hv.
  - injection Hz as <-. rewrite Z.mod_small by lia.
    split_and!; try (unfold AF_INET6; lia); [by autorewrite with layout|].
    unfold allowedIPPrefix. cbn [ra_Address ra_AddressFamily ra_Cidr Z.eqb AF_INET AF_INET6 Pos.eqb].
    rewrite take_ge by (by rewrite length_beBytes). rewrite beValue_beBytes by (cbn; lia).
    by apply PrefixFrom_valid in Hv.
Qed.

(** ** The block is read back *)

(** What the driver can be told of a peer, and hence returns. *)
Definition driverView (p : Peer) : Peer :=
  mkPeer (pr_PublicKey p) (pr_PresharedKey p) (pr_AllowedIPs p)
    (if EndpointIsEmpty (pr_Endpoint p) then emptyEndpoint
     else match ParseAddr (e_Host (pr_Endpoint p)) with
          | Some a => mkEndpoint (AddrString (scopeZone a)) (e_Port (pr_Endpoint p))
          | None => emptyEndpoint
          end)
    (pr_PersistentKeepalive p) [] [] [] [] false [] [] [] false 0 0 0 0 0 0 noSectionComments.

Definition driverPeerOk (p : Peer) : Prop :=
  length (pr_PublicKey p) = KeyLength /\ length (pr_PresharedKey p) = KeyLength
  /\ 0 <= e_Port (pr_Endpoint p) <= 65535 /\ 0 <= pr_PersistentKeepalive p <= 65535
  /\ Forall validPrefix (pr_AllowedIPs p) /\ Z.of_nat (length (pr_AllowedIPs p)) < 2 ^ 32.

Definition peerBlock (p : Peer) : gostring :=
  encodePeer (driverPeer p) ++ concat (map (fun a => encodeAllowedIP (driverAllowedIP a)) (pr_AllowedIPs p)).

Lemma fold_append {A} (f : A -> gostring) l b :
  fold_left (fun b x => b ++ f x) l b = b ++ concat (map f l).
Proof.
  revert b; induction l as [|x l IH]; intros b; cbn; [by rewrite app_nil_r|].
  by rewrite IH, <- (assoc_L (++)).
Qed.

Lemma ToDriverConfiguration_eq c :
  ToDriverConfiguration c
  = encodeInterface (mkRawInterface 6 (i_ListenPort (c_Interface c)) (i_PrivateKey (c_Interface c)) zeroKey
                       (Z.of_nat (length (c_Peers c)) mod 2 ^ 32))
    ++ concat (map peerBlock (c_Peers c)).
Proof.
  unfold ToDriverConfiguration, AppendInterface. cbn [app].
  change (Z.lor InterfaceHasPrivateKey InterfaceHasListenPort) with 6.
  generalize (encodeInterface (mkRawInterface 6 (i_ListenPort (c_Interface c)) (i_PrivateKey (c_Interface c)) zeroKey
                       (Z.of_nat (length (c_Peers c)) mod 2 ^ 32))).
  intros b. rewrite <- (fold_append peerBlock). revert b. induction (c_Peers c) as [|p ps IH]; intros b; cbn [fold_left]; [done|].
  rewrite IH. f_equal. unfold AppendAllowedIP, AppendPeer.
  rewrite (fold_append (fun a => encodeAllowedIP (driverAllowedIP a))). unfold peerBlock.
  by rewrite (assoc_L (++)).
Qed.

Lemma driverPeer_ok p : driverPeerOk p -> rawPeerOk (driverPeer p).
Proof.
  intros (H1 & H2 & H3 & H4 & H5 & H6). unfold driverPeer.
  assert (Hlen : forall a, ParseAddr (e_Host (pr_Endpoint p)) = Some a ->
    length (SetAddrPort (zeroes sockaddrSize) a (e_Port (pr_Endpoint p))) = 28%nat).
  { intros a Ha. apply ParseAddr_valid in Ha. apply sockaddr_round_trip; [done | lia]. }
  unfold rawPeerOk, KeyLength in *. rewrite Z.mod_small by lia.
  destruct (KeyIsZero _), (EndpointIsEmpty _); cbn [negb];
    try (destruct (ParseAddr (e_Host (pr_Endpoint p))) as [a|] eqn:Ea; [specialize (Hlen a eq_refl)|]);
    cbn [rp_Flags rp_PublicKey rp_PresharedKey rp_PersistentKeepalive rp_Endpoint rp_TxBytes rp_RxBytes
         rp_LastHandshake rp_AllowedIPsCount]; split_and!; first [done | lia | vm_compute; discriminate].
Qed.

Lemma confPeer_driverPeer p :
  driverPeerOk p -> confPeer (driverPeer p) (pr_AllowedIPs p) = driverView p.
Proof.
  intros (H1 & H2 & H3 & H4 & H5 & H6). unfold driverPeer, driverView.
  destruct (KeyIsZero (pr_PresharedKey p)) eqn:Ek; [apply bool_decide_eq_true in Ek; symmetry in Ek | clear Ek];
    destruct (EndpointIsEmpty (pr_Endpoint p)); cbn [negb];
    try (destruct (ParseAddr (e_Host (pr_Endpoint p))) as [a|] eqn:Ea;
         [apply ParseAddr_valid in Ea;
          destruct (sockaddr_round_trip a (e_Port (pr_Endpoint p)) Ea ltac:(lia)) as (_ & E1 & E2)|]);
    unfold confPeer;
    cbn [rp_Flags rp_PublicKey rp_PresharedKey rp_PersistentKeepalive rp_Endpoint rp_TxBytes rp_RxBytes
         rp_LastHandshake rp_AllowedIPsCount]; rewrite ?E1, ?E2, ?Ek; reflexivity.
Qed.

Lemma readAllowedIPs_blocks as_ rest :
  Forall validPrefix as_ ->
  readAllowedIPs (length as_) (concat (map (fun a => encodeAllowedIP (driverAllowedIP a)) as_) ++ rest) = Some as_
  /\ length (concat (map (fun a => encodeAllowedIP (driverAllowedIP a)) as_)) = (length as_ * sizeofAllowedIP)%nat.
Proof.
  induction 1 as [|a as_ Hv _ [IH1 IH2]]; [done|].
  destruct (driverAllowedIP_ok a Hv) as (Hl & Hf & Hc & Hfl & Hp).
  pose proof (length_encodeAllowedIP _ Hl) as Hlen.
  cbn [map concat length readAllowedIPs]. rewrite <- (assoc_L (++)), derefAllowedIP_encode by done.
  unfold NextAllowedIP. rewrite <- Hlen at 1. rewrite drop_app_length, IH1, Hp. split; [done|].
  rewrite length_app, IH2, Hlen. lia.
Qed.

Lemma readPeers_blocks ps rest :
  Forall driverPeerOk ps ->
  readPeers (length ps) (concat (map peerBlock ps) ++ rest) = Some (map driverView ps).
Proof.
  induction 1 as [|p ps Hp _ IH]; [done|]. pose proof Hp as (_ & _ & _ & _ & Hips & Hcnt).
  pose proof (driverPeer_ok p Hp) as Hraw. pose proof (length_encodePeer _ Hraw) as Hlen.
  assert (Hcount : Z.to_nat (rp_AllowedIPsCount (driverPeer p)) = length (pr_AllowedIPs p)).
  { unfold driverPeer. destruct (if negb _ then _ else _) as [fl ep]. cbn [rp_AllowedIPsCount].
    rewrite Z.mod_small by lia. lia. }
  set (ips := concat (map (fun a => encodeAllowedIP (driverAllowedIP a)) (pr_AllowedIPs p))).
  set (tail := concat (map peerBlock ps) ++ rest).
  assert (Hb : concat (map peerBlock (p :: ps)) ++ rest = encodePeer (driverPeer p) ++ ips ++ tail).
  { cbn [map concat]. unfold peerBlock at 1. by rewrite <- !(assoc_L (++)). }
  rewrite Hb. cbn [map length readPeers]. rewrite derefPeer_encode, Hcount by done.
  destruct (readAllowedIPs_blocks (pr_AllowedIPs p) tail Hips) as [E1 E2]. fold ips in E1, E2.
  assert (Hfirst : FirstAllowedIP (encodePeer (driverPeer p) ++ ips ++ tail) = ips ++ tail).
  { unfold FirstAllowedIP. rewrite <- Hlen. apply drop_app_length. }
  assert (Hnext : NextPeer (encodePeer (driverPeer p) ++ ips ++ tail) (driverPeer p) = tail).
  { unfold NextPeer. rewrite Hcount, <- Hlen, <- E2, <- length_app, (assoc_L (++)). apply drop_app_length. }
  rewrite Hfirst, E1, Hnext. unfold tail. rewrite IH. by rewrite confPeer_driverPeer.
Qed.

(** C8: The block of memory built for the kernel driver has the layout the
    accessors walk: reading it back stays inside it and returns the same keys,
    port, keepalives and allowed IPs, and the endpoints whose host is an IP
    address, with only a numeric zone kept. *)
Theorem driver_configuration_round_trip c existing :
  length (i_PrivateKey (c_Interface c)) = KeyLength -> 0 <= i_ListenPort (c_Interface c) <= 65535 ->
  Z.of_nat (length (c_Peers c)) < 2 ^ 32 -> Forall driverPeerOk (c_Peers c) ->
  exists conf, FromDriverConfiguration (ToDriverConfiguration c) existing = Some conf
    /\ c_Name conf = c_Name existing
    /\ c_Interface conf
       = set_i_Comments noSectionComments
           (set_i_ListenPort (i_ListenPort (c_Interface c))
              (set_i_PrivateKey (i_PrivateKey (c_Interface c)) (c_Interface existing)))
    /\ c_Peers conf = map driverView (c_Peers c).
Proof.
  intros Hk Hport Hn Hps. rewrite ToDriverConfiguration_eq. unfold FromDriverConfiguration.
  set (raw := mkRawInterface 6 _ _ _ _).
  destruct (derefInterface_encode raw (concat (map peerBlock (c_Peers c)))) as [E1 E2];
    unfold raw; cbn [ri_Flags ri_ListenPort ri_PrivateKey ri_PublicKey ri_PeerCount];
    [lia | lia | done | done | rewrite Z.mod_small; lia |].
  fold raw. rewrite E1. unfold FirstPeer. rewrite <- E2, drop_app_length.
  assert (Z.to_nat (ri_PeerCount raw) = length (c_Peers c)) as ->
    by (unfold raw; cbn [ri_PeerCount]; rewrite Z.mod_small; lia).
  pose proof (readPeers_blocks (c_Peers c) [] Hps) as Hr. rewrite app_nil_r in Hr. rewrite Hr.
  eexists. split; [reflexivity|]. split; [done|]. split; [|done].
  destruct (c_Interface existing). reflexivity.
Qed.

Definition driverExample : Config :=
  mkConfig (str "wg0") (set_i_ListenPort 51820 emptyInterface)
    [set_pr_Endpoint (mkEndpoint (str "fe80::1%7") 443)
       (set_pr_AllowedIPs [mkPrefix (Addr4 167772160) 8; mkPrefix (Addr6 0 []) 0]
          (set_pr_PublicKey onesKey emptyPeer)); emptyPeer] ∅ [].

Lemma driver_configuration_round_trip_witness :
  exists conf, FromDriverConfiguration (ToDriverConfiguration driverExample) driverExample = Some conf
    /\ pr_Endpoint <$> c_Peers conf = [mkEndpoint (str "fe80::1%7") 443; emptyEndpoint].
Proof.
  destruct (driver_configuration_round_trip driverExample driverExample) as (conf & H1 & _ & _ & H2).
  - reflexivity.
  - cbn. lia.
  - cbn. lia.
  - repeat apply Forall_cons_2; try apply Forall_nil_2; unfold driverPeerOk;
      (split; [reflexivity|]); (split; [reflexivity|]); (split; [cbn; lia|]); (split; [cbn; lia|]); (split; [|cbn; lia]);
      cbn; repeat apply Forall_cons_2; try apply Forall_nil_2; vm_compute; repeat split; discriminate.
  - exists conf. split; [exact H1|]. rewrite H2. vm_compute. reflexivity.
Defined.
