(* ===== verification/Highlighter.v ===== *)
(** * ui/syntax/highlighter.go: the editor's syntax highlighter

    The source is C translated to Go: it reads bytes through unchecked pointer
    arithmetic into a buffer [b] that holds the text and a final zero byte. The
    model keeps the buffer and gives every read the chance to fail: [at_] is
    [None] outside the buffer, and so is any computation with such a read. A
    span is an offset into the buffer and a length; pointers are offsets. *)

From S2P Require Import Prelude GoStrings GoNum Netip.
Local Open Scope Z_scope.

Module Highlighter.

(** A read that may fail, and the rest of the function. *)
Local Notation "x ← y ; z" :=
  (match y with Some x => z | None => None end) (at level 20, y at level 100, z at level 200).

Inductive highlight : Type :=
  | highlightSection | highlightField | highlightPrivateKey | highlightPublicKey
  | highlightPresharedKey | highlightIP | highlightCidr | highlightHost | highlightPort
  | highlightMTU | highlightKeepalive | highlightComment | highlightDelimiter | highlightTable
  | highlightCmd | highlightError.

Definition validateHighlight (isValid : bool) (t : highlight) : highlight :=
  if isValid then t else highlightError.

Record highlightSpan : Type := mkHighlight { h_t : highlight; h_s : nat; h_len : nat }.

#[global] Instance highlight_eq_dec : EqDecision highlight.
Proof. solve_decision. Defined.

Definition isDecimal (c : ascii) : bool := (48 <=? code c) && (code c <=? 57).
Definition isHexadecimal (c : ascii) : bool :=
  isDecimal c || (97 <=? Z.lor (code c) 32) && (Z.lor (code c) 32 <=? 102).
Definition isAlphabet (c : ascii) : bool := (97 <=? Z.lor (code c) 32) && (Z.lor (code c) 32 <=? 122).

Record stringSpan : Type := mkSpan { sp_s : nat; sp_len : nat }.

(** The upper case of a byte as isCaselessSame computes it, in byte arithmetic. *)
Definition upper95 (c : ascii) : Z :=
  if (code c - 97) mod 256 <? 26 then Z.land (code c) 95 else code c.

(** A loop [for i := i; n more times; i++] whose body may return early. *)
Fixpoint forLoop {S R : Type} (n i : nat) (body : nat -> S -> option (S + R)) (st : S) : option (S + R) :=
  match n with
  | O => Some (inl st)
  | S n' => r ← body i st;
            match r with
            | inl st' => forLoop n' (Datatypes.S i) body st'
            | inr x => Some (inr x)
            end
  end.

(** The value a loop returned early, or [d] of its last state. *)
Definition finish {S R} (d : S -> R) (r : option (S + R)) : option R :=
  x ← r; Some (match x with inl st => d st | inr y => y end).

Section Spans.
Context (b : gostring).

Definition at_ (s : stringSpan) (i : nat) : option ascii := b !! (sp_s s + i)%nat.

(** The span of length [len] that starts at byte [i] of [s]. *)
Definition sub (s : stringSpan) (i len : nat) : stringSpan := mkSpan (sp_s s + i) len.

Definition charIs (s : stringSpan) (i : nat) (c : ascii) : option bool :=
  x ← at_ s i; Some (Ascii.eqb x c).

Definition isSame (s : stringSpan) (c : gostring) : option bool :=
  if negb (sp_len s =? length c)%nat then Some false
  else finish (fun _ => true)
         (forLoop (sp_len s) 0 (fun i _ =>
            a ← at_ s i; cb ← c !! i;
            Some (if negb (Ascii.eqb a cb) then inr false else inl tt)) tt).

Definition isCaselessSame (s : stringSpan) (c : gostring) : option bool :=
  if negb (sp_len s =? length c)%nat then Some false
  else finish (fun _ => true)
         (forLoop (sp_len s) 0 (fun i _ =>
            a ← at_ s i; cb ← c !! i;
            Some (if negb (upper95 a =? upper95 cb) then inr false else inl tt)) tt).

Definition keyEnds : gostring := str "AEIMQUYcgkosw480".

Definition isValidKey (s : stringSpan) : option bool :=
  if negb (sp_len s =? 44)%nat then Some false
  else
    e ← charIs s 43 "=";
    if negb e then Some false
    else
      r ← forLoop 42 0 (fun i (_ : unit) =>
            c ← at_ s i;
            Some (if negb (isDecimal c) && negb (isAlphabet c) && negb (Ascii.eqb c "/") && negb (Ascii.eqb c "+")
                  then inr false else inl tt)) tt;
      match r with
      | inr x => Some x
      | inl _ => c ← at_ s 42; Some (has_byte c keyEnds)
      end.

Definition isValidHostname (s : stringSpan) : option bool :=
  if (63 <? sp_len s)%nat || (sp_len s =? 0)%nat then Some false
  else
    d0 ← charIs s 0 "-"; d1 ← charIs s (sp_len s - 1) "-";
    if d0 || d1 then Some false
    else
      p0 ← charIs s 0 "."; p1 ← charIs s (sp_len s - 1) ".";
      if p0 || p1 then Some false
      else
        finish (fun '(numDigit, numEntity) => negb (numDigit =? numEntity))
          (forLoop (sp_len s) 0 (fun i '(numDigit, numEntity) =>
             c ← at_ s i;
             if isDecimal c then Some (inl (numDigit + 1, numEntity))
             else if Ascii.eqb c "." then Some (inl (numDigit, numEntity - 1))
             else if negb (isAlphabet c) && negb (Ascii.eqb c "-") then Some (inr false)
             else if negb (i =? 0)%nat && Ascii.eqb c "." then
               prev ← at_ s (i - 1);
               Some (if Ascii.eqb prev "." then inr false else inl (numDigit, numEntity))
             else Some (inl (numDigit, numEntity))) (0, Z.of_nat (sp_len s))).

(** The digits of an octet from [pos]: how many (at most [n]) and their value. *)
Fixpoint decRun (s : stringSpan) (n pos j : nat) (val : Z) : option (nat * Z) :=
  match n with
  | O => Some (j, val)
  | S n' =>
      if (pos + j <? sp_len s)%nat then
        c ← at_ s (pos + j);
        if isDecimal c then decRun s n' pos (S j) (10 * val + (code c - 48)) else Some (j, val)
      else Some (j, val)
  end.

Fixpoint ipv4Loop (s : stringSpan) (n i pos : nat) : option bool :=
  match n with
  | O => Some false
  | S n' =>
      if (pos <? sp_len s)%nat then
        jv ← decRun s 3 pos 0 0;
        let '(j, val) := jv in
        lead0 ← (if (1 <? j)%nat then charIs s pos "0" else Some false);
        if (j =? 0)%nat || lead0 || (255 <? val) then Some false
        else if (pos + j =? sp_len s)%nat && (i =? 3)%nat then Some true
        else
          dot ← charIs s (pos + j) ".";
          if negb dot then Some false else ipv4Loop s n' (S i) (pos + j + 1)
      else Some false
  end.

Definition isValidIPv4 (s : stringSpan) : option bool := ipv4Loop s 4 0 0.

(** The number of hexadecimal digits from [pos], at most [n]. *)
Fixpoint hexRun (s : stringSpan) (n pos j : nat) : option nat :=
  match n with
  | O => Some j
  | S n' =>
      if (pos + j <? sp_len s)%nat then
        c ← at_ s (pos + j);
        if isHexadecimal c then hexRun s n' pos (S j) else Some j
      else Some j
  end.

(** [n] bounds the rounds: each moves [pos] on. *)
Fixpoint ipv6Loop (s : stringSpan) (n i pos : nat) (seenColon : bool) : option bool :=
  match n with
  | O => None
  | S n' =>
      if (pos <? sp_len s)%nat then
        colon ← charIs s pos ":";
        if colon && negb seenColon then
          if (S pos =? sp_len s)%nat then Some true
          else if (i =? 7)%nat then Some false
          else ipv6Loop s n' (S i) (S pos) true
        else
          j ← hexRun s 4 pos 0;
          if (j =? 0)%nat then Some false
          else if (pos + j =? sp_len s)%nat && (seenColon || (i =? 7)%nat) then Some true
          else if (i =? 7)%nat then Some false
          else
            c ← at_ s (pos + j);
            if negb (Ascii.eqb c ":") then
              if negb (Ascii.eqb c ".") || ((i <? 6)%nat && negb seenColon) then Some false
              else isValidIPv4 (sub s pos (sp_len s - pos))
            else ipv6Loop s n' (S i) (pos + j + 1) seenColon
      else Some true
  end.

Definition isValidIPv6 (s : stringSpan) : option bool :=
  if (sp_len s <? 2)%nat then Some false
  else
    c0 ← charIs s 0 ":";
    c1 ← (if c0 then charIs s 1 ":" else Some true);
    if negb c1 then Some false
    else
      e1 ← charIs s (sp_len s - 1) ":";
      e2 ← (if e1 then charIs s (sp_len s - 2) ":" else Some true);
      if negb e2 then Some false
      else ipv6Loop s (S (sp_len s)) 0 (if c0 then 1%nat else 0%nat) false.

(** One digit in hexadecimal, in byte arithmetic ([-] and [|] have one
    precedence in Go). *)
Definition hexStep (s : stringSpan) (i : nat) (val : Z) : option (Z + bool) :=
  c ← at_ s i;
  Some (if (code c - 48) mod 256 <? 10 then inl ((16 * val + (code c - 48) mod 256) mod 2 ^ 64)
        else if (Z.lor (code c) 32 - 97) mod 256 <? 6
        then inl ((16 * val + (Z.lor (code c) 32 - 97 + 10) mod 256) mod 2 ^ 64)
        else inr false).

Definition decStep (s : stringSpan) (i : nat) (val : Z) : option (Z + bool) :=
  c ← at_ s i;
  Some (if negb (isDecimal c) then inr false else inl ((10 * val + (code c - 48)) mod 2 ^ 64)).

Definition isValidUint (s : stringSpan) (supportHex : bool) (min max : Z) : option bool :=
  if (10 <? sp_len s)%nat || (sp_len s =? 0)%nat then Some false
  else
    hex ← (if supportHex && (2 <? sp_len s)%nat then
             z ← charIs s 0 "0"; if z then charIs s 1 "x" else Some false
           else Some false);
    finish (fun val => (val <=? max) && (min <=? val))
      (if hex then forLoop (sp_len s - 2) 2 (hexStep s) 0
       else forLoop (sp_len s) 0 (decStep s) 0).

Definition isValidPort (s : stringSpan) : option bool := isValidUint s false 0 65535.
Definition isValidMTU (s : stringSpan) : option bool := isValidUint s false 576 65535.

Definition orElse (x y : option bool) : option bool := v ← x; if v then Some true else y.

Definition isValidTable (s : stringSpan) : option bool :=
  orElse (isSame s (str "off"))
    (orElse (isSame s (str "auto")) (orElse (isSame s (str "main")) (isValidUint s false 0 (2 ^ 32 - 1)))).
Definition isValidPersistentKeepAlive (s : stringSpan) : option bool :=
  orElse (isSame s (str "off")) (isValidUint s false 0 65535).
Definition isValidPrePostUpDown (s : stringSpan) : bool := negb (sp_len s =? 0)%nat.

Definition isValidScope (s : stringSpan) : option bool :=
  if (64 <? sp_len s)%nat || (sp_len s =? 0)%nat then Some false
  else
    finish (fun _ => true)
      (forLoop (sp_len s) 0 (fun i (_ : unit) =>
         c ← at_ s i;
         Some (if negb (isAlphabet c) && negb (isDecimal c) && negb (has_byte c (str "_=+.-"))
               then inr false else inl tt)) tt).

(** The loop over a host in brackets: its state is seenScope and hostspan. *)
Definition bracketStep (s : stringSpan) (i : nat) (st : bool * stringSpan) : option (bool * stringSpan + bool) :=
  let '(seenScope, hostspan) := st in
  c ← at_ s i;
  if Ascii.eqb c "%" then
    if seenScope then Some (inr false)
    else
      ok ← isValidIPv6 hostspan;
      Some (if negb ok then inr false else inl (true, sub s (i + 1) 0))
  else if Ascii.eqb c "]" then
    ok ← (if seenScope then isValidScope hostspan else isValidIPv6 hostspan);
    if negb ok then Some (inr false)
    else if (i =? sp_len s - 1)%nat then Some (inr false)
    else
      colon ← charIs s (i + 1) ":";
      if negb colon then Some (inr false)
      else r ← isValidPort (sub s (i + 2) (sp_len s - i - 2)); Some (inr r)
  else Some (inl (seenScope, mkSpan (sp_s hostspan) (S (sp_len hostspan)))).

Definition hostPortStep (s : stringSpan) (i : nat) (st : unit) : option (unit + bool) :=
  c ← at_ s i;
  if Ascii.eqb c ":" then
    let host := sub s 0 i in
    let port := sub s (i + 1) (sp_len s - i - 1) in
    p ← isValidPort port;
    if p then r ← orElse (isValidIPv4 host) (isValidHostname host); Some (inr r)
    else Some (inr false)
  else Some (inl tt).

Definition isValidEndpoint (s : stringSpan) : option bool :=
  if (sp_len s =? 0)%nat then Some false
  else
    br ← charIs s 0 "[";
    if br then
      finish (fun _ => false) (forLoop (sp_len s - 1) 1 (bracketStep s) (false, sub s 1 0))
    else finish (fun _ => false) (forLoop (sp_len s) 0 (hostPortStep s) tt).

Definition isValidWSMode (s : stringSpan) : option bool :=
  orElse (isCaselessSame s (str "websocket")) (isCaselessSame s (str "wstunnel")).
Definition isValidWSBool (s : stringSpan) : option bool :=
  orElse (isSame s (str "true")) (isSame s (str "false")).
Definition isValidWSMillis (s : stringSpan) : option bool := isValidUint s false 0 (2 ^ 32 - 1).

(** The number of bytes from [start] before a '/' or the end. *)
Fixpoint authorityLen (s : stringSpan) (n start k : nat) : option nat :=
  match n with
  | O => Some k
  | S n' =>
      if (start + k <? sp_len s)%nat then
        c ← at_ s (start + k);
        if negb (Ascii.eqb c "/") then authorityLen s n' start (S k) else Some k
      else Some k
  end.

Definition isValidWSURL (s : stringSpan) : option bool :=
  ws ← (if (5 <? sp_len s)%nat then isCaselessSame (sub s 0 5) (str "ws://") else Some false);
  wss ← (if ws then Some false
         else if (6 <? sp_len s)%nat then isCaselessSame (sub s 0 6) (str "wss://") else Some false);
  if negb ws && negb wss then Some false
  else
    let start := if ws then 5%nat else 6%nat in
    k ← authorityLen s (sp_len s) start 0;
    isValidEndpoint (sub s start k).

Definition networkStep (s : stringSpan) (i : nat) (st : unit) : option (unit + bool) :=
  c ← at_ s i;
  if Ascii.eqb c "/" then
    let ip := sub s 0 i in
    let cidr := sub s (i + 1) (sp_len s - i - 1) in
    if (3 <? sp_len cidr)%nat || (sp_len cidr =? 0)%nat then Some (inr false)
    else
      r ← forLoop (sp_len cidr) 0 (fun j cidrval =>
            d ← at_ cidr j;
            Some (if negb (isDecimal d) then inr false
                  else inl ((10 * cidrval + (code d - 48)) mod 65536))) 0;
      match r with
      | inr x => Some (inr x)
      | inl cidrval =>
          v4 ← isValidIPv4 ip;
          if v4 then Some (inr (cidrval <=? 32))
          else v6 ← isValidIPv6 ip; Some (inr (if v6 then cidrval <=? 128 else false))
      end
  else Some (inl tt).

Definition isValidNetwork (s : stringSpan) : option bool :=
  r ← forLoop (sp_len s) 0 (networkStep s) tt;
  match r with
  | inr x => Some x
  | inl _ => orElse (isValidIPv4 s) (isValidIPv6 s)
  end.

Inductive field : Type :=
  | fieldInterfaceSection | fieldPrivateKey | fieldListenPort | fieldAddress | fieldDNS | fieldMTU
  | fieldTable | fieldPreUp | fieldPostUp | fieldPreDown | fieldPostDown | fieldPeerSection
  | fieldPublicKey | fieldPresharedKey | fieldAllowedIPs | fieldEndpoint | fieldPersistentKeepalive
  | fieldWSMode | fieldWSTunnelTarget | fieldWSBearer | fieldWSMask | fieldWSTLSCA | fieldWSTLSCert
  | fieldWSTLSKey | fieldWSTLSInsecure | fieldWSPingInterval | fieldWSBackoffMin | fieldWSBackoffMax
  | fieldInvalid.

#[global] Instance field_eq_dec : EqDecision field.
Proof. solve_decision. Defined.

(** The fields between the two section constants, and those after the second. *)
Definition sectionForField (t : field) : field :=
  match t with
  | fieldInterfaceSection | fieldPeerSection | fieldInvalid => fieldInvalid
  | fieldPrivateKey | fieldListenPort | fieldAddress | fieldDNS | fieldMTU | fieldTable
  | fieldPreUp | fieldPostUp | fieldPreDown | fieldPostDown => fieldInterfaceSection
  | _ => fieldPeerSection
  end.

Definition fieldNames : list (string * field) :=
  [("PrivateKey", fieldPrivateKey); ("ListenPort", fieldListenPort); ("Address", fieldAddress);
   ("DNS", fieldDNS); ("MTU", fieldMTU); ("Table", fieldTable); ("PublicKey", fieldPublicKey);
   ("PresharedKey", fieldPresharedKey); ("AllowedIPs", fieldAllowedIPs); ("Endpoint", fieldEndpoint);
   ("PersistentKeepalive", fieldPersistentKeepalive); ("PreUp", fieldPreUp); ("PostUp", fieldPostUp);
   ("PreDown", fieldPreDown); ("PostDown", fieldPostDown); ("WSMode", fieldWSMode);
   ("WSTunnelTarget", fieldWSTunnelTarget); ("WSBearer", fieldWSBearer); ("WSMask", fieldWSMask);
   ("WSTLSCA", fieldWSTLSCA); ("WSTLSCert", fieldWSTLSCert); ("WSTLSKey", fieldWSTLSKey);
   ("WSTLSInsecure", fieldWSTLSInsecure); ("WSPingInterval", fieldWSPingInterval);
   ("WSBackoffMin", fieldWSBackoffMin); ("WSBackoffMax", fieldWSBackoffMax)]%string.

(** A switch on isCaselessSame: the first name of the list that matches. *)
Fixpoint caselessSwitch (s : stringSpan) (names : list (string * field)) : option field :=
  match names with
  | [] => Some fieldInvalid
  | (name, f) :: rest => m ← isCaselessSame s (str name); if m then Some f else caselessSwitch s rest
  end.

Definition field_of (s : stringSpan) : option field := caselessSwitch s fieldNames.

Definition sectionType (s : stringSpan) : option field :=
  caselessSwitch s [("[Peer]", fieldPeerSection); ("[Interface]", fieldInterfaceSection)]%string.

(** The parent span of every call is the whole text, so that the offset of a
    span in the parent is its offset in the buffer. *)
Definition append (hsa : list highlightSpan) (s : stringSpan) (t : highlight) : list highlightSpan :=
  if (sp_len s =? 0)%nat then hsa else hsa ++ [mkHighlight t (sp_s s) (sp_len s)].

(** The offset of the first '/' of [s], or its length. *)
Fixpoint slashAt (s : stringSpan) (n slash : nat) : option nat :=
  match n with
  | O => Some slash
  | S n' => c ← at_ s slash; if Ascii.eqb c "/" then Some slash else slashAt s n' (S slash)
  end.

Definition highlightMultivalueValue (hsa : list highlightSpan) (s : stringSpan) (section : field)
  : option (list highlightSpan) :=
  match section with
  | fieldDNS =>
      ip ← orElse (isValidIPv4 s) (isValidIPv6 s);
      if ip then Some (append hsa s highlightIP)
      else
        host ← isValidHostname s;
        Some (append hsa s (if host then highlightHost else highlightError))
  | fieldAddress | fieldAllowedIPs =>
      ok ← isValidNetwork s;
      if negb ok then Some (append hsa s highlightError)
      else
        slash ← slashAt s (sp_len s) 0;
        if (slash =? sp_len s)%nat then Some (append hsa s highlightIP)
        else
          Some (append (append (append hsa (sub s 0 slash) highlightIP)
                          (sub s slash 1) highlightDelimiter)
                  (sub s (slash + 1) (sp_len s - slash - 1)) highlightCidr)
  | _ => Some (append hsa s highlightError)
  end.

Record multiState : Type := mkMulti { mv_hsa : list highlightSpan; mv_span : stringSpan; mv_last : nat }.

Definition isBlank (c : ascii) : bool := Ascii.eqb c " " || Ascii.eqb c "009".

(** The span after a blank at [i] (an offset of the whole text): one that has
    not begun moves on, another one grows. *)
Definition skipBlank (cur : stringSpan) (i : nat) : stringSpan :=
  if (i =? sp_s cur)%nat && (sp_len cur =? 0)%nat then mkSpan (sp_s cur + 1) (sp_len cur)
  else mkSpan (sp_s cur) (S (sp_len cur)).

Definition multivalueStep (s : stringSpan) (section : field) (i : nat) (st : multiState)
  : option (multiState + Empty_set) :=
  let '(mkMulti hsa cur last) := st in
  c ← at_ s i;
  if Ascii.eqb c "," then
    hsa1 ← highlightMultivalueValue hsa (mkSpan (sp_s cur) last) section;
    Some (inl (mkMulti (append hsa1 (sub s i 1) highlightDelimiter) (sub s (i + 1) 0) 0))
  else if isBlank c then Some (inl (mkMulti hsa (skipBlank cur (sp_s s + i)) last))
  else Some (inl (mkMulti hsa (mkSpan (sp_s cur) (S (sp_len cur))) (S (sp_len cur)))).

(** The last span of [hsa] read with an index, and made an error if it is a
    delimiter: [None] where the slice is empty, which panics. *)
Definition trailingDelimiter (hsa : list highlightSpan) : option (list highlightSpan) :=
  x ← hsa !! (length hsa - 1)%nat;
  Some (if decide (h_t x = highlightDelimiter)
        then <[(length hsa - 1)%nat := mkHighlight highlightError (h_s x) (h_len x)]> hsa
        else hsa).

Definition highlightMultivalue (hsa : list highlightSpan) (s : stringSpan) (section : field)
  : option (list highlightSpan) :=
  r ← forLoop (sp_len s) 0 (multivalueStep s section) (mkMulti hsa (sub s 0 0) 0);
  match r with
  | inr x => match x with end
  | inl st =>
      if negb (mv_last st =? 0)%nat
      then highlightMultivalueValue (mv_hsa st) (mkSpan (sp_s (mv_span st)) (mv_last st)) section
      else trailingDelimiter (mv_hsa st)
  end.

(** The offset the backward search for ':' stops at. *)
Fixpoint colonAt (s : stringSpan) (colon : nat) : option nat :=
  match colon with
  | O => Some O
  | S k => c ← at_ s k; if Ascii.eqb c ":" then Some k else colonAt s k
  end.

Definition highlightEndpoint (hsa : list highlightSpan) (s : stringSpan) : option (list highlightSpan) :=
  ws ← isValidWSURL s;
  if ws then Some (append hsa s highlightHost)
  else
    ok ← isValidEndpoint s;
    if negb ok then Some (append hsa s highlightError)
    else
      colon ← colonAt s (sp_len s);
      Some (append (append (append hsa (sub s 0 colon) highlightHost)
                      (sub s colon 1) highlightDelimiter)
              (sub s (colon + 1) (sp_len s - colon - 1)) highlightPort).

Definition highlightValue (hsa : list highlightSpan) (s : stringSpan) (section : field)
  : option (list highlightSpan) :=
  let validated (valid : option bool) (t : highlight) :=
    v ← valid; Some (append hsa s (validateHighlight v t)) in
  match section with
  | fieldPrivateKey => validated (isValidKey s) highlightPrivateKey
  | fieldPublicKey => validated (isValidKey s) highlightPublicKey
  | fieldPresharedKey => validated (isValidKey s) highlightPresharedKey
  | fieldMTU => validated (isValidMTU s) highlightMTU
  | fieldTable => validated (isValidTable s) highlightTable
  | fieldPreUp | fieldPostUp | fieldPreDown | fieldPostDown =>
      validated (Some (isValidPrePostUpDown s)) highlightCmd
  | fieldListenPort => validated (isValidPort s) highlightPort
  | fieldPersistentKeepalive => validated (isValidPersistentKeepAlive s) highlightKeepalive
  | fieldEndpoint => highlightEndpoint hsa s
  | fieldAddress | fieldDNS | fieldAllowedIPs => highlightMultivalue hsa s section
  | fieldWSMode => validated (isValidWSMode s) highlightHost
  | fieldWSTunnelTarget => validated (isValidEndpoint s) highlightHost
  | fieldWSBearer | fieldWSTLSCA | fieldWSTLSCert | fieldWSTLSKey =>
      validated (Some (negb (sp_len s =? 0)%nat)) highlightHost
  | fieldWSMask | fieldWSTLSInsecure => validated (isValidWSBool s) highlightHost
  | fieldWSPingInterval | fieldWSBackoffMin | fieldWSBackoffMax =>
      validated (isValidWSMillis s) highlightKeepalive
  | _ => Some (append hsa s highlightError)
  end.

Inductive scanState : Type := onNone | onKey | onValue | onComment | onSection.

#[global] Instance scanState_eq_dec : EqDecision scanState.
Proof. solve_decision. Defined.

Record scan : Type := mkScan {
  sc_ret : list highlightSpan;
  sc_span : stringSpan;
  sc_section : field;
  sc_field : field;
  sc_state : scanState;
  sc_last : nat;
  sc_equals : nat;
}.

(** What ends with the line, with the comment's beginning or with the text:
    the spans of the item being read and the section it opens. *)
Definition endItem (st : scan) : option (list highlightSpan * field) :=
  let '(mkScan ret cur section fld state last eq) := st in
  match state with
  | onKey => Some (append ret (mkSpan (sp_s cur) last) highlightError, section)
  | onValue =>
      if negb (sp_len cur =? 0)%nat then
        ret1 ← highlightValue (append ret (mkSpan eq 1) highlightDelimiter) (mkSpan (sp_s cur) last) fld;
        Some (ret1, section)
      else Some (append ret (mkSpan eq 1) highlightError, section)
  | onSection =>
      section1 ← sectionType (mkSpan (sp_s cur) last);
      Some (append ret (mkSpan (sp_s cur) last)
              (validateHighlight (bool_decide (section1 <> fieldInvalid)) highlightSection), section1)
  | onComment => Some (append ret cur highlightComment, section)
  | onNone => Some (ret, section)
  end.

Definition scanStep (i : nat) (st : scan) : option (scan + Empty_set) :=
  let '(mkScan ret cur section fld state last eq) := st in
  c ← b !! i;
  if Ascii.eqb c LF || (negb (bool_decide (state = onComment)) && Ascii.eqb c "#") then
    r ← endItem st;
    let '(ret1, section1) := r in
    Some (inl (if Ascii.eqb c "#"
               then mkScan ret1 (mkSpan i 1) section1 fieldInvalid onComment 0 eq
               else mkScan ret1 (mkSpan (i + 1) 0) section1 fieldInvalid onNone 0 eq))
  else if bool_decide (state = onComment) then
    Some (inl (mkScan ret (mkSpan (sp_s cur) (S (sp_len cur))) section fld state last eq))
  else if isBlank c then Some (inl (mkScan ret (skipBlank cur i) section fld state last eq))
  else if Ascii.eqb c "=" && bool_decide (state = onKey) then
    let key := mkSpan (sp_s cur) last in
    fld1 ← field_of key;
    let section1 := sectionForField fld1 in
    let bad := bool_decide (section1 = fieldInvalid) || bool_decide (fld1 = fieldInvalid)
               || negb (bool_decide (section1 = section)) in
    Some (inl (mkScan (append ret key (if bad then highlightError else highlightField))
                 (mkSpan (i + 1) 0) section fld1 onValue last i))
  else
    let state1 := if bool_decide (state = onNone)
                  then if Ascii.eqb c "[" then onSection else onKey
                  else state in
    Some (inl (mkScan ret (mkSpan (sp_s cur) (S (sp_len cur))) section fld state1 (S (sp_len cur)) eq)).

End Spans.

(** The loop runs over the bytes of the text; its last round, at the text's
    length, ends the last item and leaves the loop. *)
Definition highlightConfig (config : gostring) : option (list highlightSpan) :=
  let b := config ++ ["000"%char] in
  r ← forLoop (length config) 0 (scanStep b)
        (mkScan [] (mkSpan 0 0) fieldInvalid fieldInvalid onNone 0 0);
  match r with
  | inr x => match x with end
  | inl st => e ← endItem b st; Some (fst e)
  end.

End Highlighter.
