(* ===== verification/HighlighterTheorems.v ===== *)
(** * What the highlighter promises the editor

    Every read of the highlighter is inside its buffer and its loops end, on
    any text; the spans it returns are in order, non-empty and disjoint, and
    leave out only blanks and line ends. *)

From S2P Require Import Prelude GoStrings GoNum Netip Config Name Parser Highlighter.
Import Highlighter.
Local Open Scope nat_scope.
#[local] Arguments append : simpl never.

(** ** Loops *)

(** A loop whose body keeps [P] (indexed by the counter) and fails nowhere. *)
Lemma forLoop_inv {S R} (P : nat -> S -> Prop) (Q : R -> Prop) (body : nat -> S -> option (S + R)) n :
  forall i st, P i st ->
  (forall j st', i <= j < i + n -> P j st' ->
     exists r, body j st' = Some r
               /\ match r with inl st'' => P (Datatypes.S j) st'' | inr x => Q x end) ->
  exists r, forLoop n i body st = Some r
            /\ match r with inl st' => P (i + n) st' | inr x => Q x end.
Proof.
  induction n as [|n IH]; intros i st HP Hb; cbn.
  - exists (inl st). by rewrite Nat.add_0_r.
  - destruct (Hb i st ltac:(lia) HP) as (r & -> & Hr). destruct r as [st'|x].
    + replace (i + Datatypes.S n) with (Datatypes.S i + n) by lia. apply IH; [done|].
      intros j st'' Hj. apply Hb. lia.
    + by exists (inr x).
Qed.

Section Safety.
Context (b : gostring).

(** A span that ends before the last byte of the buffer: the code reads at most
    one byte beyond it. *)
Definition inBuffer (s : stringSpan) : Prop := sp_s s + sp_len s < length b.

Lemma at_ok s i : inBuffer s -> i <= sp_len s -> exists c, at_ b s i = Some c.
Proof. intros H Hi. apply lookup_lt_is_Some_2. unfold inBuffer in H. lia. Qed.

Lemma charIs_ok s i c : inBuffer s -> i <= sp_len s -> exists v, charIs b s i c = Some v.
Proof. intros H Hi. unfold charIs. destruct (at_ok s i H Hi) as [x ->]. by eexists. Qed.

Lemma inBuffer_sub s i n : inBuffer s -> i + n <= sp_len s -> inBuffer (sub s i n).
Proof. unfold inBuffer, sub. cbn. lia. Qed.

Lemma loop_some {S} (body : nat -> S -> option (S + bool)) n i st :
  (forall j st', i <= j < i + n -> exists r, body j st' = Some r) ->
  exists r, forLoop n i body st = Some r.
Proof.
  intros Hb. destruct (forLoop_inv (fun _ _ => True) (fun _ => True) body n i st I) as (r & -> & _).
  - intros j st' Hj _. destruct (Hb j st' Hj) as [r ->]. exists r. by destruct r.
  - by eexists.
Qed.

Lemma finish_some {S} (d : S -> bool) (body : nat -> S -> option (S + bool)) n i st :
  (forall j st', i <= j < i + n -> exists r, body j st' = Some r) ->
  exists v, finish d (forLoop n i body st) = Some v.
Proof. intros Hb. destruct (loop_some body n i st Hb) as [r ->]. by eexists. Qed.

Lemma orElse_some x y : (exists v, x = Some v) -> (exists v, y = Some v) -> exists v, orElse x y = Some v.
Proof. intros [[] ->] [w ->]; by eexists. Qed.

(** Evaluates the next read of the goal, which is inside the buffer, or splits
    on its next condition. *)
Ltac read_step :=
  match goal with
  | |- exists _, Some _ = Some _ => by eexists
  | |- exists _, finish _ _ = Some _ => apply finish_some; intros; cbv beta
  | |- context [at_ b ?s ?i] =>
      let E := fresh in destruct (at_ok s i) as [? E]; [done | cbn in *; lia | rewrite E; clear E]
  | |- context [charIs b ?s ?i ?c] =>
      let E := fresh in destruct (charIs_ok s i c) as [? E]; [done | cbn in *; lia | rewrite E; clear E]
  end.
Ltac reads := repeat (read_step || case_match; try lia).

Lemma isSame_some s c : inBuffer s -> exists v, isSame b s c = Some v.
Proof.
  intros H. unfold isSame. case_match; [by eexists|]. apply finish_some. intros j st' Hj.
  apply negb_false_iff, Nat.eqb_eq in H0.
  destruct (at_ok s j) as [? ->]; [done | lia |].
  destruct (lookup_lt_is_Some_2 c j) as [? ->]; [lia | by eexists].
Qed.

Lemma isCaselessSame_some s c : inBuffer s -> exists v, isCaselessSame b s c = Some v.
Proof.
  intros H. unfold isCaselessSame. case_match; [by eexists|]. apply finish_some. intros j st' Hj.
  apply negb_false_iff, Nat.eqb_eq in H0.
  destruct (at_ok s j) as [? ->]; [done | lia |].
  destruct (lookup_lt_is_Some_2 c j) as [? ->]; [lia | by eexists].
Qed.

Lemma isValidKey_some s : inBuffer s -> exists v, isValidKey b s = Some v.
Proof.
  intros H. unfold isValidKey. destruct (sp_len s =? 44) eqn:E; cbn [negb]; [|by eexists].
  apply Nat.eqb_eq in E. repeat read_step. match goal with |- context [negb ?v] => destruct v end; cbn [negb]; [|by eexists].
  edestruct (loop_some (S:=unit)) as [r Hr]; [|rewrite Hr; reads].
  intros j ? Hj. cbv beta. reads.
Qed.

Lemma isValidHostname_some s : inBuffer s -> exists v, isValidHostname b s = Some v.
Proof.
  intros H. unfold isValidHostname. case_match; [by eexists|].
  apply orb_false_iff in H0 as [_ H0%Nat.eqb_neq]. reads.
Qed.

Lemma decRun_some s n pos j val :
  inBuffer s -> pos + j <= sp_len s ->
  exists k v, decRun b s n pos j val = Some (k, v) /\ pos + k <= sp_len s /\ j <= k.
Proof.
  intros H. revert j val. induction n as [|n IH]; intros j val Hj; cbn; [by do 2 eexists|].
  case_match eqn:E; [|by do 2 eexists]. apply Nat.ltb_lt in E. read_step.
  case_match; [|by do 2 eexists].
  destruct (IH (S j) (10 * val + (code x - 48))%Z) as (k & v & -> & ? & ?); [lia|].
  do 2 eexists. split; [done | lia].
Qed.

Lemma ipv4Loop_some s n i pos : inBuffer s -> exists v, ipv4Loop b s n i pos = Some v.
Proof.
  intros H. revert i pos. induction n as [|n IH]; intros i pos; cbn; [by eexists|].
  case_match eqn:E; [|by eexists]. apply Nat.ltb_lt in E.
  destruct (decRun_some s 3 pos 0 0 H) as (k & v & Hd & Hk & _); [lia|].
  cbn in Hd. rewrite Hd. clear Hd. destruct (1 <? k); repeat read_step; repeat case_match; auto; by eexists.
Qed.

Lemma isValidIPv4_some s : inBuffer s -> exists v, isValidIPv4 b s = Some v.
Proof. apply ipv4Loop_some. Qed.

Lemma hexRun_some s n pos j :
  inBuffer s -> pos + j <= sp_len s ->
  exists k, hexRun b s n pos j = Some k /\ pos + k <= sp_len s /\ j <= k.
Proof.
  intros H. revert j. induction n as [|n IH]; intros j Hj; cbn; [by eexists|].
  case_match eqn:E; [|by eexists]. apply Nat.ltb_lt in E. read_step.
  case_match; [|by eexists].
  destruct (IH (S j)) as (k & -> & ? & ?); [lia|]. eexists. split; [done | lia].
Qed.

Lemma ipv6Loop_some s n i pos seen :
  inBuffer s -> 0 < n -> sp_len s < n + pos -> exists v, ipv6Loop b s n i pos seen = Some v.
Proof.
  intros H. revert i pos seen. induction n as [|n IH]; intros i pos seen Hn0 Hn; cbn [ipv6Loop].
  - lia.
  - case_match eqn:E; [|by eexists]. apply Nat.ltb_lt in E. read_step.
    case_match; [repeat case_match; try (by eexists); apply IH; lia|].
    destruct (hexRun_some s 4 pos 0 H) as (k & -> & Hk & _); [lia|].
    destruct (k =? 0) eqn:Ek; [by eexists|]. apply Nat.eqb_neq in Ek.
    repeat read_step. repeat case_match; try (by eexists); try (apply IH; lia).
    apply isValidIPv4_some, inBuffer_sub; [done | lia].
Qed.

Lemma isValidIPv6_some s : inBuffer s -> exists v, isValidIPv6 b s = Some v.
Proof.
  intros H. unfold isValidIPv6. case_match eqn:E; [by eexists|]. apply Nat.ltb_ge in E.
  repeat read_step. repeat case_match; simplify_eq; try (by eexists); apply ipv6Loop_some; try done; lia.
Qed.

Lemma isValidUint_some s h lo hi : inBuffer s -> exists v, isValidUint b s h lo hi = Some v.
Proof.
  intros H. unfold isValidUint. case_match eqn:E; [by eexists|].
  apply orb_false_iff in E as [_ E%Nat.eqb_neq]. unfold hexStep, decStep.
  destruct h, (2 <? sp_len s) eqn:E2; cbn [andb]; [|reads..].
  apply Nat.ltb_lt in E2. repeat read_step. repeat case_match; simplify_eq; repeat read_step.
Qed.

Lemma isValidScope_some s : inBuffer s -> exists v, isValidScope b s = Some v.
Proof. intros H. unfold isValidScope. reads. Qed.

Lemma bracketLoop_some s : inBuffer s -> 0 < sp_len s ->
  exists r, forLoop (sp_len s - 1) 1 (bracketStep b s) (false, sub s 1 0) = Some r.
Proof.
  intros H H0.
  destruct (forLoop_inv (fun j st => sp_s st.2 + sp_len st.2 <= sp_s s + j) (fun _ => True)
              (bracketStep b s) (sp_len s - 1) 1 (false, sub s 1 0)) as (r & -> & _); [cbn; lia | | by eexists].
  intros j [seen host] Hj Hh. cbn in Hh. unfold bracketStep.
  assert (Hb : inBuffer host) by (unfold inBuffer in *; lia).
  destruct (isValidIPv6_some host Hb) as [v6 ->], (isValidScope_some host Hb) as [sc Hs].
  rewrite Hs. destruct (at_ok s j H) as [c ->]; [lia|].
  destruct (Ascii.eqb c "%"); [destruct seen, v6; first [by eexists (inr _) | eexists (inl _); cbn; split; [done | cbn; lia]]|].
  destruct (Ascii.eqb c "]"); [|eexists (inl _); cbn; split; [done | cbn; lia]].
  destruct (charIs_ok s (j + 1) ":" H) as [col Hc]; [lia|].
  destruct (j =? sp_len s - 1) eqn:Ej; [destruct seen; [destruct sc | destruct v6]; by eexists (inr _)|].
  apply Nat.eqb_neq in Ej.
  destruct (isValidUint_some (sub s (j + 2) (sp_len s - j - 2)) false 0 65535) as [p Hp];
    [apply inBuffer_sub; [done | lia]|].
  unfold isValidPort. rewrite Hc, Hp.
  destruct seen; [destruct sc | destruct v6]; destruct col; by eexists (inr _).
Qed.

Lemma isValidEndpoint_some s : inBuffer s -> exists v, isValidEndpoint b s = Some v.
Proof.
  intros H. unfold isValidEndpoint. destruct (sp_len s =? 0) eqn:E; [by eexists|].
  apply Nat.eqb_neq in E. read_step.
  match goal with |- context [if ?v then finish _ _ else _] => destruct v end.
  { destruct (bracketLoop_some s H) as [r ->]; [lia | by eexists]. }
  apply finish_some. intros j st' Hj. unfold hostPortStep. read_step.
  destruct (Ascii.eqb x ":"); [|by eexists].
  assert (Hb : inBuffer (sub s 0 j)) by (apply inBuffer_sub; [done | lia]).
  destruct (isValidUint_some (sub s (j + 1) (sp_len s - j - 1)) false 0 65535) as [p Hp];
    [apply inBuffer_sub; [done | lia]|].
  unfold isValidPort. rewrite Hp. destruct p; [|by eexists].
  destruct (orElse_some _ _ (isValidIPv4_some _ Hb) (isValidHostname_some _ Hb)) as [v ->].
  by eexists.
Qed.

Lemma authorityLen_some s n start k : inBuffer s -> start + k <= sp_len s ->
  exists m, authorityLen b s n start k = Some m /\ start + m <= sp_len s.
Proof.
  intros H. revert k. induction n as [|n IH]; intros k Hk; cbn; [by eexists|].
  case_match eqn:E; [|by eexists]. apply Nat.ltb_lt in E. read_step.
  case_match; [apply IH; lia | by eexists].
Qed.

Lemma isValidWSURL_some s : inBuffer s -> exists v, isValidWSURL b s = Some v.
Proof.
  intros H. unfold isValidWSURL.
  assert (Hs : forall n c, n < sp_len s -> exists v, isCaselessSame b (sub s 0 n) c = Some v).
  { intros n c Hn. apply isCaselessSame_some, inBuffer_sub; [done | lia]. }
  assert (Ha : forall start, start <= sp_len s -> exists v,
            match authorityLen b s (sp_len s) start 0 with
            | Some k => isValidEndpoint b (sub s start k) | None => None end = Some v).
  { intros start Hst. destruct (authorityLen_some s (sp_len s) start 0 H) as (m & -> & Hm); [lia|].
    apply isValidEndpoint_some, inBuffer_sub; [done | lia]. }
  destruct (Nat.ltb_spec 5 (sp_len s)) as [E5|], (Nat.ltb_spec 6 (sp_len s)) as [E6|]; try lia.
  - destruct (Hs 5 (str "ws://") E5) as [[] ->]; [apply Ha; lia|].
    destruct (Hs 6 (str "wss://") E6) as [[] ->]; [apply Ha; lia | by eexists].
  - destruct (Hs 5 (str "ws://") E5) as [[] ->]; [apply Ha; lia | by eexists].
  - by eexists.
Qed.

Lemma isValidNetwork_some s : inBuffer s -> exists v, isValidNetwork b s = Some v.
Proof.
  intros H. unfold isValidNetwork.
  destruct (loop_some (networkStep b s) (sp_len s) 0 tt) as [r ->].
  - intros j st' Hj. unfold networkStep. read_step. destruct (Ascii.eqb x "/"); [|by eexists].
    case_match eqn:E; [by eexists|].
    set (cidr := sub s (j + 1) (sp_len s - j - 1)).
    assert (Hb : inBuffer (sub s 0 j)) by (apply inBuffer_sub; [done | lia]).
    assert (Hc : inBuffer cidr) by (apply inBuffer_sub; [done | lia]).
    edestruct (loop_some (S:=Z)) as [r Hr]; [|rewrite Hr].
    { intros i val Hi. cbv beta.
      destruct (at_ok cidr i Hc) as [d ->]; [lia | by eexists]. }
    destruct (isValidIPv4_some _ Hb) as [v4 ->], (isValidIPv6_some _ Hb) as [v6 ->].
    destruct r, v4; by eexists.
  - destruct r; [|by eexists]. apply orElse_some; [by apply isValidIPv4_some | by apply isValidIPv6_some].
Qed.

Lemma caselessSwitch_some s names : inBuffer s -> exists f, caselessSwitch b s names = Some f.
Proof.
  intros H. induction names as [|[n f] names IH]; cbn [caselessSwitch]; [by eexists|].
  destruct (isCaselessSame_some s (str n) H) as [[] ->]; [by eexists | done].
Qed.

(** ** Spans *)

(** The bytes from [lo] to [hi] are spaces, tabs and line ends. *)
Definition blanks (lo hi : nat) : Prop :=
  lo <= hi /\ forall p, lo <= p < hi -> exists c, b !! p = Some c /\ (isBlank c = true \/ c = LF).

(** The spans of [l] are non-empty, in order and disjoint from [lo] to [hi],
    and what is between them is blank. *)
Fixpoint tiles (lo : nat) (l : list highlightSpan) (hi : nat) : Prop :=
  match l with
  | [] => blanks lo hi
  | h :: l' => blanks lo (h_s h) /\ 0 < h_len h /\ tiles (h_s h + h_len h) l' hi
  end.

Lemma blanks_refl p : blanks p p.
Proof. split; [done | lia]. Qed.

Lemma blanks_trans x y z : blanks x y -> blanks y z -> blanks x z.
Proof.
  intros [H1 B1] [H2 B2]. split; [lia|]. intros p Hp.
  destruct (decide (p < y)); [apply B1 | apply B2]; lia.
Qed.

Lemma blanks_one p c : b !! p = Some c -> isBlank c = true \/ c = LF -> blanks p (p + 1).
Proof. intros Hc H. split; [lia|]. intros q Hq. replace q with p by lia. by exists c. Qed.

Lemma tiles_blanks lo l hi hi' : tiles lo l hi -> blanks hi hi' -> tiles lo l hi'.
Proof.
  revert lo. induction l as [|h l IH]; intros lo; cbn; [apply blanks_trans|].
  intros (? & ? & ?) ?. split_and!; auto.
Qed.

Lemma tiles_append lo l s t :
  tiles lo l (sp_s s) -> tiles lo (append l s t) (sp_s s + sp_len s).
Proof.
  unfold append. destruct (Nat.eqb_spec (sp_len s) 0) as [->|Hn]; [by rewrite Nat.add_0_r|].
  revert lo. induction l as [|h l IH]; intros lo; cbn.
  - intros ?. split_and!; [done | lia | apply blanks_refl].
  - intros (? & ? & ?). auto.
Qed.

Lemma append_nonempty l s t : l <> [] -> append l s t <> [].
Proof. unfold append. case_match; [done|]. by destruct l. Qed.

(** A span that ends where the next begins, appended after it. *)
Lemma tiles_append_at lo l s t hi hi' :
  tiles lo l hi -> blanks hi (sp_s s) -> hi' = sp_s s + sp_len s -> tiles lo (append l s t) hi'.
Proof. intros Hl Hb ->. apply tiles_append. by eapply tiles_blanks. Qed.

(** What an operation that highlights [s] does: it returns, the new spans end
    with [s], and the list does not become empty. *)
Definition extends (hsa : list highlightSpan) (s : stringSpan) (r : option (list highlightSpan)) : Prop :=
  exists hsa', r = Some hsa' /\ tiles 0 hsa' (sp_s s + sp_len s) /\ (hsa <> [] -> hsa' <> []).

Lemma extends_append hsa s t : tiles 0 hsa (sp_s s) -> extends hsa s (Some (append hsa s t)).
Proof.
  intros H. eexists. split_and!; [done | by apply tiles_append | apply append_nonempty].
Qed.

(** Three spans that split [s] at its byte [k]. *)
Lemma extends_split hsa s k t0 t1 t2 :
  tiles 0 hsa (sp_s s) -> k < sp_len s ->
  extends hsa s (Some (append (append (append hsa (sub s 0 k) t0) (sub s k 1) t1)
                         (sub s (k + 1) (sp_len s - k - 1)) t2)).
Proof.
  intros H Hk. eexists. split_and!; [done | | intros ?; by repeat apply append_nonempty].
  eapply tiles_append_at; [|apply blanks_refl | cbn; lia].
  eapply tiles_append_at; [|apply blanks_refl | cbn; lia].
  eapply tiles_append_at; [done | cbn; rewrite Nat.add_0_r; apply blanks_refl | cbn; lia].
Qed.

Lemma slashAt_some s n k : inBuffer s -> n + k = sp_len s ->
  exists m, slashAt b s n k = Some m /\ m <= sp_len s.
Proof.
  intros H. revert k. induction n as [|n IH]; intros k Hk; cbn; [eexists; split; [done | lia]|].
  read_step. case_match; [eexists; split; [done | lia] | apply IH; lia].
Qed.

Lemma colonAt_some s k : inBuffer s -> k <= sp_len s -> exists m, colonAt b s k = Some m /\ (m < k \/ k = 0 /\ m = 0).
Proof.
  intros H. induction k as [|k IH]; intros Hk; cbn; [eexists; split; [done | lia]|].
  read_step. case_match; [eexists; split; [done | lia]|].
  destruct IH as (m & -> & ?); [lia|]. eexists. split; [done | lia].
Qed.

Lemma highlightMultivalueValue_extends hsa s f :
  inBuffer s -> tiles 0 hsa (sp_s s) -> extends hsa s (highlightMultivalueValue b hsa s f).
Proof.
  intros H Ht. unfold highlightMultivalueValue.
  destruct (isValidNetwork_some s H) as [net Hn], (isValidHostname_some s H) as [host Hh].
  destruct (orElse_some _ _ (isValidIPv4_some s H) (isValidIPv6_some s H)) as [ip Hi].
  assert (Hnet : extends hsa s (match isValidNetwork b s with
    | Some ok => if negb ok then Some (append hsa s highlightError)
                 else match slashAt b s (sp_len s) 0 with
                      | Some slash => if slash =? sp_len s then Some (append hsa s highlightIP)
                          else Some (append (append (append hsa (sub s 0 slash) highlightIP)
                                 (sub s slash 1) highlightDelimiter)
                                 (sub s (slash + 1) (sp_len s - slash - 1)) highlightCidr)
                      | None => None end
    | None => None end)).
  { rewrite Hn. destruct net; cbn [negb]; [|by apply extends_append].
    destruct (slashAt_some s (sp_len s) 0 H) as (m & -> & Hm); [lia|].
    destruct (Nat.eqb_spec m (sp_len s)); [by apply extends_append|].
    apply extends_split; [done | lia]. }
  destruct f; try exact Hnet; try (by apply extends_append).
  rewrite Hi, Hh. destruct ip; by apply extends_append.
Qed.

(** Where a scan of the text up to [i] is: the spans so far end where the
    current one begins, which is at [i] or has [last] bytes, then blanks up to [i]. *)
Definition reading (hsa : list highlightSpan) (cur : stringSpan) (last i : nat) : Prop :=
  tiles 0 hsa (sp_s cur)
  /\ ((sp_len cur = 0 /\ sp_s cur = i)
      \/ (0 < last <= sp_len cur /\ sp_s cur + sp_len cur = i /\ blanks (sp_s cur + last) i)).

Lemma reading_start hsa last i : tiles 0 hsa i -> reading hsa (mkSpan i 0) last i.
Proof. intros H. split; [done|]. left. cbn. lia. Qed.

Lemma reading_blank hsa cur last i c :
  b !! i = Some c -> isBlank c = true -> reading hsa cur last i ->
  reading hsa (skipBlank cur i) last (S i).
Proof.
  intros Hc Hb [Ht [[H1 H2]|(H1 & H2 & H3)]]; unfold skipBlank.
  - rewrite H1, H2, !Nat.eqb_refl. cbn [andb]. rewrite Nat.add_1_r. apply reading_start.
    eapply tiles_blanks; [exact Ht|]. rewrite H2, <- Nat.add_1_r. eapply blanks_one; eauto.
  - replace (sp_len cur =? 0) with false by (symmetry; apply Nat.eqb_neq; lia).
    rewrite andb_false_r. split; [done|]. right. cbn. split_and!; [lia.. |].
    eapply blanks_trans; [exact H3|]. rewrite <- Nat.add_1_r. eapply blanks_one; eauto.
Qed.

Lemma reading_byte hsa cur last i :
  reading hsa cur last i -> reading hsa (mkSpan (sp_s cur) (S (sp_len cur))) (S (sp_len cur)) (S i).
Proof.
  intros [Ht Hg]. split; [done|]. right. cbn.
  assert (sp_s cur + sp_len cur = i) by (destruct Hg; lia).
  split_and!; [lia.. |]. replace (S i) with (sp_s cur + S (sp_len cur)) by lia. apply blanks_refl.
Qed.

(** The end of the finished span is followed by blanks. *)
Lemma reading_end hsa cur last i :
  reading hsa cur last i -> (sp_len cur = 0 -> last = 0) -> blanks (sp_s cur + last) i.
Proof.
  intros [_ [[H1 H2]|(_ & _ & H)]] H0; [|done]. rewrite H0, Nat.add_0_r, H2 by done. apply blanks_refl.
Qed.

Lemma reading_inBuffer hsa cur last i :
  reading hsa cur last i -> (sp_len cur = 0 -> last = 0) -> i < length b -> inBuffer (mkSpan (sp_s cur) last).
Proof. intros Hr H0 Hi. destruct (reading_end _ _ _ _ Hr H0). unfold inBuffer. cbn. lia. Qed.

Lemma skipBlank_len cur i : sp_len cur = 0 -> sp_s cur = i -> sp_len (skipBlank cur i) = 0.
Proof. intros H1 H2. unfold skipBlank. by rewrite H1, H2, !Nat.eqb_refl. Qed.

Lemma skipBlank_pos cur i : 0 < sp_len cur -> 0 < sp_len (skipBlank cur i).
Proof. intros H. unfold skipBlank. case_match; cbn; lia. Qed.

Lemma skipBlank_last cur last i :
  (sp_len cur = 0 -> last = 0) -> sp_len (skipBlank cur i) = 0 -> last = 0.
Proof.
  intros H0 H. apply H0. unfold skipBlank in H. case_match; cbn in H; [done | lia].
Qed.

Lemma multivalueLoop hsa s f :
  inBuffer s -> hsa <> [] -> tiles 0 hsa (sp_s s) ->
  exists st, forLoop (sp_len s) 0 (multivalueStep b s f) (mkMulti hsa (sub s 0 0) 0) = Some (inl st)
    /\ reading (mv_hsa st) (mv_span st) (mv_last st) (sp_s s + sp_len s) /\ mv_hsa st <> []
    /\ (sp_len (mv_span st) = 0 -> mv_last st = 0).
Proof.
  intros H Hne Ht.
  destruct (forLoop_inv (fun j st => reading (mv_hsa st) (mv_span st) (mv_last st) (sp_s s + j)
                /\ mv_hsa st <> [] /\ (sp_len (mv_span st) = 0 -> mv_last st = 0)) (fun _ => True)
              (multivalueStep b s f) (sp_len s) 0 (mkMulti hsa (sub s 0 0) 0)) as ([st|[]] & -> & Hr).
  - unfold sub. cbn [mv_hsa mv_span mv_last]. rewrite !Nat.add_0_r. split_and!; [by apply reading_start | done | done].
  - intros j [hs cur last] Hj (H1 & H2 & H4). cbn in H1, H2, H4. unfold multivalueStep.
    destruct (at_ok s j) as [c Hc]; [done | lia |]. rewrite Hc. unfold at_ in Hc.
    replace (sp_s s + S j) with (S (sp_s s + j)) by lia. destruct (Ascii.eqb_spec c ",") as [->|].
    + pose proof (reading_end _ _ _ _ H1 H4) as Hb.
      destruct (highlightMultivalueValue_extends hs (mkSpan (sp_s cur) last) f) as (h' & -> & Ht' & Hn').
      { eapply reading_inBuffer; [done | done | unfold inBuffer in H; lia]. }
      { apply H1. }
      eexists (inl _). split; [done|]. cbn [mv_hsa mv_span mv_last]. split_and!; [|by apply append_nonempty, Hn' | done].
      replace (sub s (j + 1) 0) with (mkSpan (S (sp_s s + j)) 0) by (unfold sub; f_equal; lia). apply reading_start.
      eapply tiles_append_at; [done | exact Hb | cbn; lia].
    + destruct (isBlank c) eqn:Eb; eexists (inl _); (split; [done|]); cbn [mv_hsa mv_span mv_last]; split_and!; try done.
      * by eapply reading_blank.
      * by eapply skipBlank_last.
      * by eapply reading_byte.
  - by exists st.
Qed.

Lemma tiles_insert lo l hi k x t :
  l !! k = Some x -> tiles lo l hi -> tiles lo (<[k := mkHighlight t (h_s x) (h_len x)]> l) hi.
Proof.
  revert lo k. induction l as [|h l IH]; intros lo k Hk; [done|].
  destruct k as [|k]; cbn in *; [by simplify_eq|]. intros (? & ? & ?). auto.
Qed.

Lemma highlightMultivalue_extends hsa s f :
  inBuffer s -> hsa <> [] -> tiles 0 hsa (sp_s s) -> extends hsa s (highlightMultivalue b hsa s f).
Proof.
  intros H Hne Ht. unfold highlightMultivalue.
  destruct (multivalueLoop hsa s f H Hne Ht) as (st & -> & Hr & Hn & H0).
  pose proof (reading_end _ _ _ _ Hr H0) as Hb.
  destruct (Nat.eqb_spec (mv_last st) 0) as [E|E]; cbn [negb].
  - unfold trailingDelimiter.
    destruct (lookup_lt_is_Some_2 (mv_hsa st) (length (mv_hsa st) - 1)) as [x Hx].
    { destruct (mv_hsa st); [done | cbn; lia]. }
    assert (Htl : tiles 0 (mv_hsa st) (sp_s s + sp_len s)).
    { eapply tiles_blanks; [apply Hr|]. by rewrite E, Nat.add_0_r in Hb. }
    rewrite Hx. eexists. split_and!; [done|..].
    + case_decide; [by apply tiles_insert | done].
    + intros _. case_decide; [|done]. intros Hl. apply (f_equal length) in Hl.
      rewrite length_insert in Hl. by destruct (mv_hsa st).
  - destruct (highlightMultivalueValue_extends (mv_hsa st) (mkSpan (sp_s (mv_span st)) (mv_last st)) f)
      as (h' & -> & Ht' & Hn').
    { eapply reading_inBuffer; [done | done | exact H]. }
    { apply Hr. }
    eexists. split_and!; [done | by eapply tiles_blanks | auto].
Qed.

Lemma highlightEndpoint_extends hsa s :
  inBuffer s -> tiles 0 hsa (sp_s s) -> extends hsa s (highlightEndpoint b hsa s).
Proof.
  intros H Ht. unfold highlightEndpoint.
  destruct (isValidWSURL_some s H) as [[] ->]; [by apply extends_append|].
  destruct (isValidEndpoint_some s H) as [v Hv]. rewrite Hv.
  destruct v; cbn [negb]; [|by apply extends_append].
  destruct (colonAt_some s (sp_len s) H) as (m & -> & Hm); [done|].
  apply extends_split; [done|]. destruct Hm as [|[Hm _]]; [done|].
  unfold isValidEndpoint in Hv. by rewrite Hm in Hv.
Qed.

Lemma highlightValue_extends hsa s f :
  inBuffer s -> hsa <> [] -> tiles 0 hsa (sp_s s) -> extends hsa s (highlightValue b hsa s f).
Proof.
  intros H Hne Ht.
  assert (Hv : forall valid t, (exists v, valid = Some v) -> extends hsa s
            (match valid with Some v => Some (append hsa s (validateHighlight v t)) | None => None end)).
  { intros valid t [v ->]. by apply extends_append. }
  destruct f; cbn [highlightValue]; try (by apply extends_append);
    try (by apply highlightMultivalue_extends); try (by apply highlightEndpoint_extends);
    apply Hv; try (by eexists);
    unfold isValidPort, isValidMTU, isValidWSMillis, isValidTable, isValidPersistentKeepAlive, isValidWSMode,
      isValidWSBool;
    eauto 10 using isValidKey_some, isValidUint_some, isSame_some, isCaselessSame_some, orElse_some,
      isValidEndpoint_some.
Qed.

(** ** The scan of the text *)

(** The invariant of the loop of highlightConfig before byte [i]. *)
Definition scanning (i : nat) (st : scan) : Prop :=
  match sc_state st with
  | onNone => reading (sc_ret st) (sc_span st) (sc_last st) i /\ sp_len (sc_span st) = 0 /\ sc_last st = 0
  | onKey | onSection => reading (sc_ret st) (sc_span st) (sc_last st) i /\ 0 < sp_len (sc_span st)
  | onValue => forall t, reading (append (sc_ret st) (mkSpan (sc_equals st) 1) t) (sc_span st) (sc_last st) i
  | onComment => tiles 0 (sc_ret st) (sp_s (sc_span st)) /\ sp_s (sc_span st) + sp_len (sc_span st) = i
  end.

Lemma endItem_tiles i st :
  i < length b -> scanning i st -> exists ret section, endItem b st = Some (ret, section) /\ tiles 0 ret i.
Proof.
  destruct st as [ret cur section fld state last eq]. unfold scanning, endItem. cbn [sc_ret sc_span sc_state sc_last sc_equals]. intros Hi.
  destruct state.
  - intros ([Ht [[_ <-]|?]] & E & _); [|lia]. by do 2 eexists.
  - intros [Hr Hn]. do 2 eexists. split; [done|].
    eapply tiles_blanks; [apply tiles_append, Hr | apply (reading_end _ _ _ _ Hr); lia].
  - intros Hr. destruct (Nat.eqb_spec (sp_len cur) 0) as [E|E]; cbn [negb].
    + do 2 eexists. split; [done|]. destruct (Hr highlightError) as [Ht [[_ <-]|?]]; [done | lia].
    + destruct (highlightValue_extends (append ret (mkSpan eq 1) highlightDelimiter) (mkSpan (sp_s cur) last) fld)
        as (h' & -> & Ht & _).
      * eapply reading_inBuffer; [apply (Hr highlightError) | lia | done].
      * unfold append. cbn. by destruct ret.
      * apply Hr.
      * do 2 eexists. split; [done|]. eapply tiles_blanks; [exact Ht|].
        apply (reading_end _ _ _ _ (Hr highlightError)); lia.
  - intros [Ht <-]. do 2 eexists. split; [done|]. by apply tiles_append.
  - intros [Hr Hn].
    destruct (caselessSwitch_some (mkSpan (sp_s cur) last)
                [("[Peer]", fieldPeerSection); ("[Interface]", fieldInterfaceSection)]%string) as [f Hf].
    { eapply reading_inBuffer; [done | lia | done]. }
    unfold sectionType. rewrite Hf. do 2 eexists. split; [done|].
    eapply tiles_blanks; [apply tiles_append, Hr | apply (reading_end _ _ _ _ Hr); lia].
Qed.

Lemma scanStep_scanning i st :
  S i < length b -> scanning i st -> exists st', scanStep b i st = Some (inl st') /\ scanning (S i) st'.
Proof.
  intros Hi Hs. pose proof (endItem_tiles i st ltac:(lia) Hs) as (ret' & section' & He & Ht).
  destruct st as [ret cur section fld state last eq]. unfold scanStep.
  destruct (lookup_lt_is_Some_2 b i) as [c Hc]; [lia|]. rewrite Hc, He.
  destruct (Ascii.eqb c LF || _) eqn:E1.
  { destruct (Ascii.eqb_spec c "#") as [->|Hn]; eexists; (split; [done|]); cbn.
    - split; [done | lia].
    - assert (Hlf : c = LF).
      { apply orb_true_iff in E1 as [E1|[_ E1]%andb_true_iff]; [by apply Ascii.eqb_eq in E1 | done]. }
      split_and!; [|done..]. rewrite Nat.add_1_r. apply reading_start.
      eapply tiles_blanks; [exact Ht|]. rewrite <- Nat.add_1_r. eapply blanks_one; eauto. }
  destruct (decide (state = onComment)) as [->|Hnc].
  { rewrite bool_decide_eq_true_2 by done. eexists. split; [done|]. destruct Hs as [? <-]. cbn. split; [done | lia]. }
  rewrite (bool_decide_eq_false_2 (state = onComment)) by done.
  destruct (isBlank c) eqn:Eb.
  { eexists. split; [done|]. unfold scanning in *. destruct state; cbn [sc_ret sc_span sc_state sc_last sc_equals] in *; try done.
    - destruct Hs as (Hr & Hl & Hz). split_and!; [by eapply reading_blank | | done].
      destruct Hr as [_ [[_ E]|?]]; [|lia]. by apply skipBlank_len.
    - destruct Hs as [Hr Hl]. split; [by eapply reading_blank | by apply skipBlank_pos].
    - intros t. eapply reading_blank; eauto.
    - destruct Hs as [Hr Hl]. split; [by eapply reading_blank | by apply skipBlank_pos]. }
  destruct (Ascii.eqb c "=" && bool_decide (state = onKey)) eqn:Ek.
  { apply andb_true_iff in Ek as [_ Ek%bool_decide_eq_true]. subst state.
    destruct Hs as [Hr Hl]. cbn [sc_ret sc_span sc_state sc_last sc_equals] in Hr, Hl.
    destruct (caselessSwitch_some (mkSpan (sp_s cur) last) fieldNames) as [f Hf].
    { eapply reading_inBuffer; [done | lia | lia]. }
    unfold field_of. rewrite Hf. eexists. split; [done|]. intros t.
    cbn [sc_ret sc_span sc_state sc_last sc_equals]. rewrite Nat.add_1_r. apply reading_start.
    eapply tiles_append_at; [apply tiles_append, Hr | | cbn; lia].
    apply (reading_end _ _ _ _ Hr); lia. }
  eexists. split; [done|]. unfold scanning in *.
  destruct state; cbn [sc_ret sc_span sc_state sc_last sc_equals] in *; try done.
  - rewrite bool_decide_eq_true_2 by done.
    destruct Hs as [Hr _]. destruct (Ascii.eqb c "["); (split; [by apply reading_byte with last | cbn; lia]).
  - destruct Hs as [Hr _]. split; [by apply reading_byte with last | cbn; lia].
  - intros t. by apply reading_byte with last.
  - destruct Hs as [Hr _]. split; [by apply reading_byte with last | cbn; lia].
Qed.

End Safety.

Section Spans.
Context (config : gostring).

Lemma tiles_text lo l hi :
  hi <= length config -> tiles (config ++ ["000"%char]) lo l hi -> tiles config lo l hi.
Proof.
  intros Hhi. assert (Hb : forall x y, y <= length config -> blanks (config ++ ["000"%char]) x y -> blanks config x y).
  { intros x y Hy [Hxy H]. split; [done|]. intros p Hp. destruct (H p Hp) as (c & Hc & ?).
    exists c. rewrite lookup_app_l in Hc by lia. done. }
  revert lo. induction l as [|h l IH]; intros lo; cbn; [by apply Hb|].
  intros (H1 & H2 & H3). split_and!; [|done | auto]. apply Hb; [|done].
  assert (Hle : forall l lo, tiles (config ++ ["000"%char]) lo l hi -> lo <= hi).
  { clear. induction l as [|h l IH]; intros lo; cbn; [by intros []|].
    intros ([? _] & ? & ?%IH). lia. }
  apply Hle in H3. lia.
Qed.

(** C39: On every text the highlighter returns, with every read inside its buffer
    and no index out of range, and its spans are non-empty, in order, disjoint
    and inside the text, and leave out only spaces, tabs and line ends. *)
Theorem highlightConfig_spans :
  exists spans, highlightConfig config = Some spans /\ tiles config 0 spans (length config).
Proof.
  unfold highlightConfig. set (b := config ++ ["000"%char]).
  assert (Hb : length b = S (length config)) by (unfold b; rewrite length_app; cbn; lia).
  set (st0 := mkScan _ _ _ _ _ _ _).
  destruct (forLoop_inv (scanning b) (fun _ => True) (scanStep b) (length config) 0 st0) as ([st|[]] & -> & Hs).
  - unfold st0, scanning. cbn [sc_ret sc_span sc_state sc_last]. split_and!; [|done..].
    apply reading_start. apply blanks_refl.
  - intros j st Hj Hs. destruct (scanStep_scanning b j st) as (st' & -> & ?); [lia | done |]. by eexists (inl _).
  - destruct (endItem_tiles b (length config) st) as (ret & section & -> & Ht); [lia | done |].
    eexists. split; [done|]. by apply tiles_text.
Qed.
End Spans.
