(* ===== verification/HighlighterParser.v ===== *)
(** * The highlighter agrees with the parser

    A key the editor colours as a field is a key of the parser, and a value it
    colours as valid, for the fields with one scalar value, is one that
    FromWgQuick accepts. *)

From S2P Require Import Prelude GoStrings GoNum Netip Config Name Parser ParserTheorems Highlighter HighlighterTheorems.
Import Highlighter.
Local Open Scope Z_scope.

(** A loop that reads the bytes of [l] in turn, as a function of [l]. *)
Fixpoint scanList {S R} (f : ascii -> S -> S + R) (st : S) (l : gostring) : S + R :=
  match l with
  | [] => inl st
  | c :: l' => match f c st with inl st' => scanList f st' l' | inr x => inr x end
  end.

Lemma forLoop_scanList {S R} (f : ascii -> S -> S + R) body l i (st : S) :
  (forall j c st', l !! j = Some c -> body (i + j)%nat st' = Some (f c st')) ->
  forLoop (length l) i body st = Some (scanList f st l).
Proof.
  revert i st. induction l as [|c l IH]; intros i st Hb; [done|]. cbn [length forLoop scanList].
  replace (body i st) with (body (i + 0)%nat st) by (f_equal; lia). rewrite (Hb 0%nat c) by done.
  destruct (f c st) as [st'|x]; [|done]. apply IH. intros j d st'' Hj.
  replace (Datatypes.S i + j)%nat with (i + Datatypes.S j)%nat by lia. by apply Hb.
Qed.

Section Text.
Context (b : gostring).

Definition text (s : stringSpan) : gostring := take (sp_len s) (drop (sp_s s) b).

Lemma text_length s : inBuffer b s -> length (text s) = sp_len s.
Proof. intros H. unfold text, inBuffer in *. rewrite length_take, length_drop. lia. Qed.

Lemma at_text s i c : text s !! i = Some c -> at_ b s i = Some c.
Proof.
  unfold text, at_. intros H. pose proof (lookup_lt_Some _ _ _ H) as Hl. rewrite length_take in Hl.
  rewrite lookup_take_lt, lookup_drop in H by lia. done.
Qed.

Lemma text_at s i c : (i < sp_len s)%nat -> at_ b s i = Some c -> text s !! i = Some c.
Proof. intros Hi. unfold text, at_. rewrite lookup_take_lt, lookup_drop by lia. done. Qed.

(** The loop of isSame and isCaselessSame: bytes compared one by one. *)
Lemma sameLoop {A} `{EqDecision A} (f : ascii -> A) (eqv : ascii -> ascii -> bool) s c l m k k' (R : unit) :
  (forall x y, eqv x y = bool_decide (f x = f y)) ->
  text s = k ++ l -> c = k' ++ m -> length k = length k' -> length l = length m ->
  finish (fun _ => true) (forLoop (length l) (length k) (fun i (_ : unit) =>
    match at_ b s i with
    | Some a => match c !! i with
                | Some cb => Some (if negb (eqv a cb) then inr false else inl tt)
                | None => None end
    | None => None end) R)
  = Some (bool_decide (map f l = map f m)).
Proof.
  intros Hf. revert k k' m R. induction l as [|x l IH]; intros k k' [|y m] R Ht Hc Hk Hlen; try done.
  cbn [length forLoop map]. rewrite (at_text s (length k) x) by (rewrite Ht; by apply list_lookup_middle).
  replace (c !! length k) with (Some y) by (rewrite Hc; symmetry; by apply list_lookup_middle).
  rewrite Hf. destruct (decide (f x = f y)) as [E|E].
  - rewrite (bool_decide_eq_true_2 (f x = f y)) by done. cbn [negb].
    replace (S (length k)) with (length (k ++ [x])) by (rewrite length_app; cbn; lia).
    rewrite (IH (k ++ [x]) (k' ++ [y]) m tt); rewrite <- ?app_assoc, ?length_app; [|done|done|cbn; lia|cbn in Hlen; lia].
    f_equal. apply bool_decide_ext. rewrite E. split; [by intros -> | by intros [= ->]].
  - rewrite bool_decide_eq_false_2 by done. cbn. f_equal. symmetry. apply bool_decide_eq_false_2. by intros [= ?].
Qed.

Lemma isSame_text s c : inBuffer b s -> isSame b s c = Some (bool_decide (text s = c)).
Proof.
  intros H. unfold isSame. pose proof (text_length s H) as Hl.
  destruct (Nat.eqb_spec (sp_len s) (length c)) as [E|E]; cbn [negb].
  - rewrite <- Hl at 1. rewrite (sameLoop id Ascii.eqb s c (text s) c [] []);
      [by rewrite !map_id | | done | done | done | lia].
    intros x y. destruct (Ascii.eqb_spec x y); symmetry; [by apply bool_decide_eq_true_2 | by apply bool_decide_eq_false_2].
  - symmetry. f_equal. apply bool_decide_eq_false_2. intros <-. lia.
Qed.

Lemma upper95_lower x y : upper95 x = upper95 y <-> lowerByte x = lowerByte y.
Proof.
  assert (H1 : forall c, lowerByte (chr (upper95 c)) = lowerByte c)
    by (intros [[][][][][][][][]]; vm_compute; reflexivity).
  assert (H2 : forall c, upper95 (lowerByte c) = upper95 c)
    by (intros [[][][][][][][][]]; vm_compute; reflexivity).
  split; intros E; [by rewrite <- H1, E, H1 | by rewrite <- H2, E, H2].
Qed.

Lemma isCaselessSame_text s c :
  inBuffer b s -> isCaselessSame b s c = Some (bool_decide (map lowerByte (text s) = map lowerByte c)).
Proof.
  intros H. unfold isCaselessSame. pose proof (text_length s H) as Hl.
  destruct (Nat.eqb_spec (sp_len s) (length c)) as [E|E]; cbn [negb].
  - rewrite <- Hl at 1. apply (sameLoop lowerByte (fun x y => upper95 x =? upper95 y) s c (text s) c [] []);
      [| done | done | done | lia].
    intros x y. destruct (Z.eqb_spec (upper95 x) (upper95 y)) as [E1|E1]; symmetry;
      [apply bool_decide_eq_true_2 | apply bool_decide_eq_false_2]; by rewrite <- upper95_lower.
  - symmetry. f_equal. apply bool_decide_eq_false_2. intros Hm.
    apply (f_equal length) in Hm. rewrite !length_map in Hm. lia.
Qed.

(** ** Keys *)

(** The key of the parser that a field stands for. *)
Definition fieldKey (f : field) : option (ikey + pkey) :=
  match f with
  | fieldPrivateKey => Some (inl PrivateKey) | fieldListenPort => Some (inl ListenPort)
  | fieldAddress => Some (inl Address) | fieldDNS => Some (inl DNS) | fieldMTU => Some (inl MTU)
  | fieldTable => Some (inl Table) | fieldPreUp => Some (inl PreUp) | fieldPostUp => Some (inl PostUp)
  | fieldPreDown => Some (inl PreDown) | fieldPostDown => Some (inl PostDown)
  | fieldPublicKey => Some (inr PublicKey) | fieldPresharedKey => Some (inr PresharedKey)
  | fieldAllowedIPs => Some (inr AllowedIPs) | fieldEndpoint => Some (inr EndpointKey)
  | fieldPersistentKeepalive => Some (inr PersistentKeepalive) | fieldWSMode => Some (inr WSModeKey)
  | fieldWSTunnelTarget => Some (inr WSTunnelTarget) | fieldWSBearer => Some (inr WSBearer)
  | fieldWSMask => Some (inr WSMask) | fieldWSTLSCA => Some (inr WSTLSCA)
  | fieldWSTLSCert => Some (inr WSTLSCert) | fieldWSTLSKey => Some (inr WSTLSKey)
  | fieldWSTLSInsecure => Some (inr WSTLSInsecure) | fieldWSPingInterval => Some (inr WSPingInterval)
  | fieldWSBackoffMin => Some (inr WSBackoffMin) | fieldWSBackoffMax => Some (inr WSBackoffMax)
  | fieldInterfaceSection | fieldPeerSection | fieldInvalid => None
  end.

(** The key the parser finds for [key], which it has put in lower case. *)
Definition parserKey (key : gostring) : option (ikey + pkey) :=
  match ikeyOf key with
  | Some k => Some (inl k)
  | None => match pkeyOf key with Some k => Some (inr k) | None => None end
  end.

Definition switchOn (l : gostring) : list (string * field) -> field :=
  fold_right (fun '(name, f) d => if bool_decide (l = map lowerByte (str name)) then f else d) fieldInvalid.

Lemma caselessSwitch_text s names :
  inBuffer b s -> caselessSwitch b s names = Some (switchOn (map lowerByte (text s)) names).
Proof.
  intros H. induction names as [|[n f] names IH]; cbn [caselessSwitch switchOn fold_right]; [done|].
  rewrite isCaselessSame_text by done. by destruct (bool_decide _).
Qed.

Lemma switchOn_none l names :
  Forall (fun x => l <> map lowerByte (str x.1)) names -> switchOn l names = fieldInvalid.
Proof.
  induction 1 as [|[n f] names Hn _ IH]; [done|]. cbn. rewrite bool_decide_eq_false_2; [apply IH | exact Hn].
Qed.

Lemma parserKey_named l k :
  parserKey l = Some k -> Exists (fun x => l = map lowerByte (str x.1)) fieldNames.
Proof.
  unfold parserKey, ikeyOf, pkeyOf. intros H.
  destruct (find _ ikeys) as [i|] eqn:Ei.
  - apply find_some in Ei as [_ E%bool_decide_eq_true]. rewrite E.
    apply (bool_decide_unpack _). clear. destruct i; vm_compute; exact I.
  - destruct (find _ pkeys) as [p|] eqn:Ep; [|done].
    apply find_some in Ep as [_ E%bool_decide_eq_true]. rewrite E.
    apply (bool_decide_unpack _). clear. destruct p; vm_compute; exact I.
Qed.

Lemma switchOn_parserKey l : fieldKey (switchOn l fieldNames) = parserKey l.
Proof.
  destruct (decide (Exists (fun x => l = map lowerByte (str x.1)) fieldNames)) as [He|He].
  - apply Exists_exists in He as ([n f] & Hn & ->).
    assert (Hall : Forall (fun x => fieldKey (switchOn (map lowerByte (str x.1)) fieldNames)
                                   = parserKey (map lowerByte (str x.1))) fieldNames)
      by (repeat (apply Forall_cons_2; [vm_compute; reflexivity|]); constructor).
    rewrite Forall_forall in Hall. exact (Hall _ Hn).
  - rewrite switchOn_none by (by apply not_Exists_Forall in He; [|intros ?; apply _]).
    destruct (parserKey l) as [k|] eqn:E; [|done]. by apply parserKey_named in E.
Qed.

(** A key of ASCII bytes is a field of the highlighter exactly when it is the
    corresponding key of the parser. *)
Theorem field_of_parserKey `{UnicodeTables} s :
  inBuffer b s -> forallb isASCII (text s) = true ->
  exists f, field_of b s = Some f /\ fieldKey f = parserKey (ToLower (text s)).
Proof.
  intros Hs Ha. eexists. split; [by apply caselessSwitch_text|].
  rewrite switchOn_parserKey, ToLower_ascii by done. done.
Qed.

(** ** Values *)

Lemma isDecimal_digit c : isDecimal c = true -> digitVal 10 c = Some (code c - 48) /\ 0 <= code c - 48 < 10.
Proof.
  unfold isDecimal, digitVal, isDigit, in_range. intros H. apply andb_true_iff in H as [H1 H2].
  rewrite Z.leb_le in *. rewrite (proj2 (Z.leb_le 48 (code c))), (proj2 (Z.leb_le (code c) 57)) by lia.
  cbn. rewrite (proj2 (Z.ltb_lt (code c - 48) 10)) by lia. split; [done | lia].
Qed.

Definition decScan (c : ascii) (val : Z) : Z + bool :=
  if negb (isDecimal c) then inr false else inl ((10 * val + (code c - 48)) mod 2 ^ 64).

Lemma decLoop_text s : inBuffer b s ->
  forLoop (sp_len s) 0 (decStep b s) 0 = Some (scanList decScan 0 (text s)).
Proof.
  intros H. rewrite <- (text_length s H). apply forLoop_scanList. intros j c st Hj.
  unfold decStep. by rewrite (at_text s (0 + j) c).
Qed.

(** Decimal digits that the loop of isValidUint reads are read by strconv with
    the same value, as long as it cannot overflow. *)
Lemma scanList_parseDigits fn num maxv k l acc v :
  0 <= acc < 10 ^ Z.of_nat k -> Z.of_nat (k + length l) <= 10 -> v <= maxv ->
  scanList decScan acc l = inl v -> parseDigits fn num 10 maxv acc l = Ok v /\ acc <= v.
Proof.
  revert k acc. induction l as [|c l IH]; intros k acc Hacc Hlen Hv; cbn [scanList parseDigits].
  { intros [= <-]. split; [done | lia]. }
  unfold decScan at 1. destruct (isDecimal c) eqn:Ec; cbn [negb]; [|done].
  apply isDecimal_digit in Ec as [-> Hd]. set (d := code c - 48) in *.
  assert (Hk : 0 <= 10 * acc + d < 10 ^ Z.of_nat (S k))
    by (rewrite Nat2Z.inj_succ, Z.pow_succ_r by lia; lia).
  assert (H10 : 10 ^ Z.of_nat (S k) <= 10 ^ 10) by (apply Z.pow_le_mono_r; cbn in Hlen; lia).
  rewrite Z.mod_small by lia. intros Hs.
  destruct (IH (S k) (10 * acc + d)) as [Hp Hle]; [done | cbn in *; lia | done | done |].
  replace (acc * 10 + d) with (10 * acc + d) by lia.
  destruct (Z.ltb_spec maxv (10 * acc + d)); [lia|]. split; [done | lia].
Qed.

Lemma isValidUint_value s lo hi :
  inBuffer b s -> isValidUint b s false lo hi = Some true ->
  exists v, lo <= v <= hi /\ 0 <= v /\ text s <> []
    /\ forall fn num maxv, v <= maxv -> parseDigits fn num 10 maxv 0 (text s) = Ok v.
Proof.
  intros H. unfold isValidUint. destruct ((10 <? sp_len s)%nat || _) eqn:E; [done|].
  apply orb_false_iff in E as [E1%Nat.ltb_ge E2%Nat.eqb_neq]. cbn [andb].
  rewrite decLoop_text by done. cbn [finish].
  destruct (scanList decScan 0 (text s)) as [v|r] eqn:Es.
  - intros [= Hr]. apply andb_true_iff in Hr as [Hr1%Z.leb_le Hr2%Z.leb_le].
    pose proof (text_length s H) as Hl.
    assert (Hp : forall fn num maxv, v <= maxv -> parseDigits fn num 10 maxv 0 (text s) = Ok v /\ 0 <= v).
    { intros. by apply (scanList_parseDigits _ _ _ 0); [lia | lia | |]. }
    exists v. destruct (Hp ""%string [] v ltac:(lia)) as [_ H0]. split_and!; [lia | done | done | |].
    + intros Ht. rewrite Ht in Hl. cbn in Hl. lia.
    + intros fn num maxv Hm. by apply Hp.
  - intros [= ->]. exfalso. clear -Es. revert Es. generalize 0. induction (text s) as [|c l IH]; intros acc; cbn; [done|].
    unfold decScan at 1. destruct (isDecimal c); cbn [negb]; [apply IH | done].
Qed.

Lemma isValidUint_Atoi s lo hi :
  inBuffer b s -> hi <= 65535 -> isValidUint b s false lo hi = Some true ->
  exists v, Atoi (text s) = Ok v /\ lo <= v <= hi /\ 0 <= v.
Proof.
  intros H Hhi Hv. destruct (isValidUint_value s lo hi H Hv) as (v & Hr & H0 & Hne & Hp). exists v.
  split; [|done]. assert (Ha : atoiSigned false (text s) (text s) = Ok v).
  { unfold atoiSigned. rewrite Hp by lia. destruct (text s); [done|]. cbn [rbind].
    unfold maxInt. destruct (Z.ltb_spec (2 ^ 63 - 1) v); [lia | done]. }
  unfold Atoi. specialize (Hp ""%string [] v ltac:(lia)). destruct (text s) as [|c l]; [done|].
  assert (Hd : digitVal 10 c <> None) by (cbn in Hp; by destruct (digitVal 10 c)).
  destruct c as [[][][][][][][][]]; try done; by exfalso; apply Hd.
Qed.

Lemma isValidUint_ParseUint s lo :
  inBuffer b s -> isValidUint b s false lo (2 ^ 32 - 1) = Some true -> exists v, ParseUint (text s) 32 = Ok v.
Proof.
  intros H Hv. destruct (isValidUint_value s lo _ H Hv) as (v & Hr & _ & Hne & Hp). exists v.
  unfold ParseUint. destruct (text s); [done|]. apply Hp. lia.
Qed.

Definition isB64 (c : ascii) : bool := isDecimal c || isAlphabet c || Ascii.eqb c "/" || Ascii.eqb c "+".

Lemma isB64_val c : isB64 c = true -> exists v, b64val c = Some v.
Proof. destruct c as [[][][][][][][][]]; cbn; intros; try done; by eexists. Qed.

Lemma keyEnds_val c : has_byte c keyEnds = true -> exists v, b64val c = Some v.
Proof. destruct c as [[][][][][][][][]]; cbn; intros; try done; by eexists. Qed.

(** Whole quanta at the front of a base64 text decode to three bytes each. *)
Lemma b64Loop_quanta k l rest bs :
  length l = (4 * k)%nat -> forallb isB64 l = true -> b64Loop [] rest = Some bs ->
  exists bs', b64Loop [] (l ++ rest) = Some bs' /\ length bs' = (3 * k + length bs)%nat.
Proof.
  revert l. induction k as [|k IH]; intros l Hl Hv Hr.
  - destruct l; [|cbn in Hl; lia]. by eexists.
  - do 4 (destruct l as [|? l]; [cbn in Hl; lia|]). cbn [forallb] in Hv.
    repeat match goal with H : (_ && _)%bool = true |- _ =>
      let E := fresh in apply andb_true_iff in H as [E H]; apply isB64_val in E as [? E] end.
    destruct (IH l) as (bs' & Hb & Hlen); [cbn in Hl; lia | done | done |].
    eexists. split; [|shelve]. cbn [app b64Loop]. do 3 match goal with E : b64val ?c = _ |- context [b64val ?c] =>
      rewrite E; cbn [app] end. match goal with E : b64val ?c = _ |- context [b64val ?c] => rewrite E end.
    rewrite Hb. reflexivity.
    Unshelve. rewrite length_app. unfold b64bytes. rewrite length_take. cbn [length]. lia.
Qed.

Lemma b64_tail c0 c1 c2 :
  isB64 c0 = true -> isB64 c1 = true -> has_byte c2 keyEnds = true ->
  exists bs, b64Loop [] [c0; c1; c2; "="%char] = Some bs /\ length bs = 2%nat.
Proof.
  intros H0 H1 H2. apply isB64_val in H0 as [v0 H0], H1 as [v1 H1]. apply keyEnds_val in H2 as [v2 H2].
  cbn [b64Loop]. rewrite H0. cbn [app]. rewrite H1. cbn [app]. rewrite H2. by eexists.
Qed.

Lemma keyLoop_text s : inBuffer b s -> sp_len s = 44%nat ->
  forLoop 42 0 (fun i (_ : unit) =>
    match at_ b s i with
    | Some c => Some (if negb (isDecimal c) && negb (isAlphabet c) && negb (Ascii.eqb c "/") && negb (Ascii.eqb c "+")
                      then inr false else inl tt)
    | None => None end) tt
  = Some (scanList (fun c _ => if isB64 c then inl tt else inr false) tt (take 42 (text s))).
Proof.
  intros H Hl. pose proof (text_length s H) as Ht.
  replace 42%nat with (length (take 42 (text s))) at 1 by (rewrite length_take; lia).
  apply forLoop_scanList. intros j c st Hj. rewrite (at_text s (0 + j) c).
  - unfold isB64. f_equal. by destruct (isDecimal c), (isAlphabet c), (Ascii.eqb c "/"), (Ascii.eqb c "+").
  - pose proof (lookup_lt_Some _ _ _ Hj) as Hlt. rewrite length_take in Hlt.
    by rewrite lookup_take_lt in Hj by lia.
Qed.

Lemma scanList_forallb l r :
  scanList (fun c (_ : unit) => if isB64 c then inl tt else inr false) tt l = inl r -> forallb isB64 l = true.
Proof. induction l as [|c l IH]; cbn; [done|]. by destruct (isB64 c). Qed.

Lemma isValidKey_parse s :
  inBuffer b s -> isValidKey b s = Some true -> exists k, parseKeyBase64 (text s) = Ok k.
Proof.
  intros H. unfold isValidKey. destruct (Nat.eqb_spec (sp_len s) 44) as [Hl|]; cbn [negb]; [|done].
  unfold charIs. destruct (at_ok b s 43 H) as [e He]; [lia|]. rewrite He.
  destruct (Ascii.eqb_spec e "=") as [->|]; cbn [negb]; [|done].
  rewrite keyLoop_text by done. destruct (scanList _ _ _) as [u|] eqn:Es; [|].
  2:{ intros [= ->]. exfalso. revert Es. clear. induction (take 42 (text s)) as [|c l IH]; cbn; [done|]. by destruct (isB64 c). }
  destruct (at_ok b s 42 H) as [c Hc]; [lia|]. rewrite Hc. intros [= Hk].
  apply scanList_forallb in Es. pose proof (text_length s H) as Ht.
  apply text_at in He, Hc; [|lia..].
  assert (Hd : text s = take 42 (text s) ++ [c; "="%char]).
  { rewrite <- (take_drop 42 (text s)) at 1. f_equal.
    by rewrite (drop_S _ c), (drop_S _ "="%char), drop_ge by (done || lia). }
  assert (Hp : length (take 42 (text s)) = 42%nat) by (rewrite length_take; lia).
  revert Hd Hp Es. generalize (take 42 (text s)) as p. intros p Hd Hp Es.
  rewrite <- (take_drop 40 p) in Hd, Es. rewrite forallb_app in Es. apply andb_true_iff in Es as [Es1 Es2].
  assert (Hp2 : length (drop 40 p) = 2%nat) by (rewrite length_drop; lia).
  destruct (drop 40 p) as [|c0 [|c1 [|]]]; try done.
  cbn [forallb] in Es2. apply andb_true_iff in Es2 as [Hc0 [Hc1 _]%andb_true_iff].
  destruct (b64_tail c0 c1 c Hc0 Hc1 Hk) as (bs & Hb & Hbl).
  destruct (b64Loop_quanta 10 (take 40 p) _ bs ltac:(rewrite length_take; lia) Es1 Hb) as (key & Hkey & Hlen).
  exists key. unfold parseKeyBase64, b64Decode. rewrite Hd, <- app_assoc. cbn [app]. rewrite Hkey, Hlen, Hbl. done.
Qed.
End Text.

(** ** Fields with one scalar value *)

Section Sound.
Context `{UnicodeTables} `{NetURL}.

(** FromWgQuick takes [v] as the value of the key [k]. *)
Definition accepts (k : ikey + pkey) (v : gostring) : Prop :=
  match k with
  | inl k => forall i, exists i', setInterfaceKey k v i = Ok i'
  | inr k => forall p, exists p', setPeerKey k v p = Ok p'
  end.

Definition scalarField (f : field) : bool :=
  match f with
  | fieldAddress | fieldDNS | fieldAllowedIPs | fieldEndpoint | fieldWSTunnelTarget => false
  | _ => true
  end.

Lemma lowered_ascii s c : map lowerByte s = c -> forallb isASCII c = true -> ToLower s = c.
Proof.
  intros Hm Hc. rewrite ToLower_ascii; [done|]. rewrite forallb_forall in *. intros x Hx.
  assert (Hl : isASCII (lowerByte x) = true) by (apply Hc; rewrite <- Hm; by apply in_map).
  revert Hl. clear. destruct x as [[][][][][][][][]]; done.
Qed.

Lemma isValidWSMode_parse b s :
  inBuffer b s -> isValidWSMode b s = Some true -> exists m, parseWSMode (text b s) = Ok m.
Proof.
  intros Hs. unfold isValidWSMode, orElse. rewrite !isCaselessSame_text by done.
  assert (Hm : forall c, forallb isASCII c = true -> map lowerByte c = c ->
            c = WSModeWebSocket \/ c = WSModeWSTunnel ->
            map lowerByte (text b s) = map lowerByte c -> exists m, parseWSMode (text b s) = Ok m).
  { intros c Ha Hl Hc Hm. unfold parseWSMode. rewrite (lowered_ascii (text b s) c) by congruence.
    destruct Hc as [->| ->]; by eexists. }
  destruct (bool_decide (map lowerByte (text b s) = map lowerByte (str "websocket"))) eqn:E1.
  - intros _. apply bool_decide_eq_true in E1. apply (Hm (str "websocket")); auto.
  - intros [= E2]. apply bool_decide_eq_true in E2. apply (Hm (str "wstunnel")); auto.
Qed.

Lemma isValidWSBool_parse b s :
  inBuffer b s -> isValidWSBool b s = Some true -> exists v, parseWSBool (text b s) = Ok v.
Proof.
  intros Hs. unfold isValidWSBool, orElse, parseWSBool. rewrite !isSame_text by done.
  destruct (bool_decide (text b s = str "true")); [by eexists|].
  destruct (bool_decide (text b s = str "false")); [by eexists | done].
Qed.

Lemma isValidTable_parse b s :
  inBuffer b s -> isValidTable b s = Some true -> exists v, parseTableOff (text b s) = Ok v.
Proof.
  intros Hs. unfold isValidTable, orElse, parseTableOff. rewrite !isSame_text by done.
  destruct (bool_decide (text b s = str "off")); [by eexists|].
  destruct (bool_decide (text b s = str "auto")); [by eexists|].
  destruct (bool_decide (text b s = str "main")); [by eexists|].
  intros Hv. destruct (isValidUint_ParseUint b s 0 Hs Hv) as [v ->]. by eexists.
Qed.

Lemma isValidPersistentKeepAlive_parse b s :
  inBuffer b s -> isValidPersistentKeepAlive b s = Some true ->
  exists v, parsePersistentKeepalive (text b s) = Ok v.
Proof.
  intros Hs. unfold isValidPersistentKeepAlive, orElse, parsePersistentKeepalive. rewrite isSame_text by done.
  destruct (bool_decide (text b s = str "off")); [by eexists|].
  intros Hv. destruct (isValidUint_Atoi b s 0 65535 Hs ltac:(lia) Hv) as (v & -> & Hr & _).
  exists v. cbn [rbind]. destruct (Z.ltb_spec v 0), (Z.ltb_spec 65535 v); done || lia.
Qed.

Lemma isValidUint_bounds b s lo (err : goerr) :
  inBuffer b s -> isValidUint b s false lo 65535 = Some true ->
  exists v, (let? m := Atoi (text b s) in
             if (m <? lo) || (65535 <? m) then Err err else Ok m) = Ok v.
Proof.
  intros Hs Hv. destruct (isValidUint_Atoi b s lo 65535 Hs ltac:(lia) Hv) as (v & -> & Hr & _).
  exists v. cbn [rbind]. destruct (Z.ltb_spec v lo), (Z.ltb_spec 65535 v); done || lia.
Qed.

Lemma isValidWSMillis_parse b s :
  inBuffer b s -> isValidWSMillis b s = Some true -> exists v, parseWSMillis (text b s) = Ok v.
Proof.
  intros Hs Hv. destruct (isValidUint_ParseUint b s 0 Hs Hv) as [v Hp].
  unfold parseWSMillis. rewrite Hp. by eexists.
Qed.

Lemma validated_true b hsa s (valid : option bool) t :
  match valid with Some v => Some (append hsa s (validateHighlight v t)) | None => None end
    = Some (append hsa s b) ->
  (0 < sp_len s)%nat -> b <> highlightError -> valid = Some true.
Proof.
  intros E Hl Hb. destruct valid as [[]|]; [done| |done]. cbn in E. injection E as E. exfalso. apply Hb.
  unfold append in E. destruct (Nat.eqb_spec (sp_len s) 0); [lia|]. apply app_inj_tail in E as [_ E]. congruence.
Qed.

(** A value of a scalar field that the editor does not mark as an error is
    accepted by the case of that key in FromWgQuick. *)
Theorem highlightValue_accepted b hsa s f k t :
  inBuffer b s -> (0 < sp_len s)%nat -> scalarField f = true -> fieldKey f = Some k ->
  highlightValue b hsa s f = Some (append hsa s t) -> t <> highlightError -> accepts k (text b s).
Proof.
  intros Hs Hl Hf Hk Hv Ht.
  destruct f; try done; cbn [fieldKey] in Hk; injection Hk as <-; cbn [highlightValue] in Hv;
    cbn [accepts setInterfaceKey setPeerKey]; intros x; try (by eexists); apply validated_true in Hv; try done;
    match type of Hv with
    | isValidKey _ _ = _ => apply isValidKey_parse in Hv as [? ->]; [by eexists | done]
    | isValidTable _ _ = _ => apply isValidTable_parse in Hv as [? ->]; [by eexists | done]
    | isValidWSMode _ _ = _ => apply isValidWSMode_parse in Hv as [? ->]; [by eexists | done]
    | isValidWSBool _ _ = _ => apply isValidWSBool_parse in Hv as [? ->]; [by eexists | done]
    | isValidWSMillis _ _ = _ => apply isValidWSMillis_parse in Hv as [? ->]; [by eexists | done]
    | isValidPersistentKeepAlive _ _ = _ =>
        apply isValidPersistentKeepAlive_parse in Hv as [? ->]; [by eexists | done]
    | _ => idtac
    end.
  - unfold parsePort. eapply isValidUint_bounds in Hv as [? ->]; [by eexists | done].
  - unfold parseMTU. eapply isValidUint_bounds in Hv as [? ->]; [by eexists | done].
Qed.
End Sound.

Lemma field_of_parserKey_witness :
  exists f, field_of (str "dns=1") (mkSpan 0 3) = Some f
    /\ fieldKey f = @parserKey (@ToLower asciiTables (str "dns")) /\ fieldKey f = Some (inl DNS).
Proof.
  destruct (@field_of_parserKey (str "dns=1") asciiTables (mkSpan 0 3)) as (f & H1 & H2);
    [unfold inBuffer; cbn; lia | reflexivity |].
  exists f. split_and!; [exact H1 | exact H2 |]. rewrite H2. vm_compute. reflexivity.
Defined.

Lemma highlightValue_accepted_witness :
  @accepts asciiTables exampleURL (inl MTU) (str "1420") /\ inBuffer (str "1420 ") (mkSpan 0 4).
Proof.
  split; [|unfold inBuffer; cbn; lia].
  apply (@highlightValue_accepted asciiTables exampleURL (str "1420 ") [] (mkSpan 0 4) fieldMTU (inl MTU) highlightMTU);
    [unfold inBuffer; cbn; lia | cbn; lia | reflexivity | reflexivity | vm_compute; reflexivity | discriminate].
Defined.
