(* ===== verification/Effects.v ===== *)
(** * Programs that call the system

    A Go function that calls Windows, with the state of the system as a value
    that is passed on: an error keeps the state the calls before it left. *)

From S2P Require Import Prelude.

Definition M (W A : Type) : Type := W -> result A * W.

Definition mret {W A} (a : A) : M W A := fun w => (Ok a, w).
Definition mfail {W A} (e : goerr) : M W A := fun w => (Err e, w).

Definition mthen {W A B} (m : M W A) (k : A -> M W B) : M W B :=
  fun w => match m w with
           | (Ok a, w') => k a w'
           | (Err e, w') => (Err e, w')
           end.

(** A computation that does not touch the state. *)
Definition mpure {W A} (r : result A) : M W A := fun w => (r, w).

Notation "'do!' x ':=' m 'in' k" := (mthen m (fun x => k))
  (at level 10, x pattern, m at level 100, k at level 200) : go_scope.

Definition mwhen {W} (c : bool) (m : M W unit) : M W unit := if c then m else mret tt.

Fixpoint mfor {W A} (l : list A) (f : A -> M W unit) : M W unit :=
  match l with
  | [] => mret tt
  | x :: l' => do! _ := f x in mfor l' f
  end.

(** A call whose error the code looks at or ignores; the state, read and
    changed; fmt.Errorf with a cause. *)
Definition try {W A} (m : M W A) : M W (result A) := fun w => let '(r, w') := m w in (Ok r, w').
Definition mget {S A} (f : S -> A) : M S A := fun s => (Ok (f s), s).
Definition mmod {S} (f : S -> S) : M S unit := fun s => (Ok tt, f s).
Definition mwrap {S A} (f : goerr -> goerr) (m : M S A) : M S A :=
  fun s => match m s with (Err e, s') => (Err (f e), s') | ok => ok end.

Lemma mthen_assoc {S A B C} (f : M S A) (g : A -> M S B) (h : B -> M S C) s :
  mthen (mthen f g) h s = mthen f (fun a => mthen (g a) h) s.
Proof. unfold mthen. by destruct (f s) as [[a|e] s']. Qed.

(** ** Hoare triples

    [triple P m Q E]: from a state with [P], [m] returns a value with [Q] or an
    error with [E]. *)
Definition triple {W A} (P : W -> Prop) (m : M W A) (Q : A -> W -> Prop) (E : W -> Prop) : Prop :=
  forall w r w', P w -> m w = (r, w') -> match r with Ok a => Q a w' | Err _ => E w' end.

Lemma triple_bind {W A B} (P : W -> Prop) (m : M W A) (k : A -> M W B) R Q E :
  triple P m R E -> (forall a, triple (R a) (k a) Q E) -> triple P (mthen m k) Q E.
Proof.
  intros Hm Hk w r w' HP. unfold mthen. destruct (m w) as [[a|e] w1] eqn:Em; intros H.
  - eapply Hk; [|exact H]. exact (Hm _ _ _ HP Em).
  - inv H. exact (Hm _ _ _ HP Em).
Qed.

Lemma triple_ret {W A} (P : W -> Prop) (a : A) (Q : A -> W -> Prop) E :
  (forall w, P w -> Q a w) -> triple P (mret a) Q E.
Proof. intros H w r w' HP [= <- <-]. auto. Qed.

Lemma triple_pure {W A} (P : W -> Prop) (r : result A) (E : W -> Prop) :
  (forall w, P w -> E w) -> triple P (mpure r) (fun a w => r = Ok a /\ P w) E.
Proof. intros H w r' w' HP [= <- <-]. destruct r; auto. Qed.

Lemma triple_fail {W A} (P : W -> Prop) e (Q : A -> W -> Prop) (E : W -> Prop) :
  (forall w, P w -> E w) -> triple P (mfail e) Q E.
Proof. intros H w r w' HP [= <- <-]. auto. Qed.

Lemma triple_conseq {W A} (P P' : W -> Prop) (m : M W A) (Q Q' : A -> W -> Prop) (E E' : W -> Prop) :
  triple P m Q E -> (forall w, P' w -> P w) -> (forall a w, Q a w -> Q' a w) -> (forall w, E w -> E' w) ->
  triple P' m Q' E'.
Proof. intros H HP HQ HE w r w' Hw Hm. specialize (H w r w' (HP w Hw) Hm). destruct r; auto. Qed.

(** Wrapping an error leaves the state as it is. *)
Lemma triple_wrap {W A} P (m : M W A) f Q E : triple P m Q E -> triple P (mwrap f m) Q E.
Proof. intros Hm w r w' Hw. unfold mwrap. destruct (m w) as [[a|e] w1] eqn:Em; intros [= <- <-]; exact (Hm _ _ _ Hw Em). Qed.

(** ** Programs that keep a relation between their states *)

Section Keeping.
Context {S : Type} (R : S -> S -> Prop).
Context (Hrefl : forall s, R s s) (Htrans : forall s1 s2 s3, R s1 s2 -> R s2 s3 -> R s1 s3).

Definition keeping {A} (f : M S A) : Prop := forall s r s', f s = (r, s') -> R s s'.

Lemma keeping_value {A} (r : result A) : keeping (mpure r).
Proof. intros s r' s' [= <- <-]. apply Hrefl. Qed.
Lemma keeping_get {A} (f : S -> A) : keeping (mget f).
Proof. intros s r s' [= <- <-]. apply Hrefl. Qed.
Lemma keeping_bind {A B} (m : M S A) (k : A -> M S B) : keeping m -> (forall a, keeping (k a)) -> keeping (mthen m k).
Proof.
  intros Hm Hk s r s'. unfold mthen. destruct (m s) as [[a|e] s1] eqn:E.
  - intros E2. eapply Htrans; [exact (Hm _ _ _ E)|exact (Hk a _ _ _ E2)].
  - intros [= <- <-]. exact (Hm _ _ _ E).
Qed.
Lemma keeping_try {A} (m : M S A) : keeping m -> keeping (try m).
Proof. intros Hm s r s'. unfold try. destruct (m s) as [r1 s1] eqn:E. intros [= <- <-]. exact (Hm _ _ _ E). Qed.
Lemma keeping_wrap {A} f (m : M S A) : keeping m -> keeping (mwrap f m).
Proof. intros Hm s r s'. unfold mwrap. destruct (m s) as [[a|e] s1] eqn:E; intros [= <- <-]; exact (Hm _ _ _ E). Qed.
End Keeping.
