(* ===== verification/Version.v ===== *)
(** * The version of the build and of Windows: version/official.go, os.go

    Whether the program is signed by its makers, from the names and policies of
    the certificates embedded in its file, and the name of the system it tells
    the update server. The certificate functions, the registry and
    RtlGetVersion are parameters. *)

From S2P Require Import Prelude GoStrings GoNum Effects.
Local Open Scope Z_scope.

(** windows.UTF16ToString: up to the first NUL, with what is not a pair of
    surrogates replaced. *)
Fixpoint utf16Runes (units : list Z) : list Z :=
  match units with
  | [] => []
  | u :: rest =>
      if (55296 <=? u) && (u <? 56320) then
        match rest with
        | v :: rest' =>
            if (56320 <=? v) && (v <? 57344) then (u - 55296) * 1024 + (v - 56320) + 65536 :: utf16Runes rest'
            else RuneError :: utf16Runes rest
        | [] => [RuneError]
        end
      else if (56320 <=? u) && (u <? 57344) then RuneError :: utf16Runes rest
      else u :: utf16Runes rest
  end.

Fixpoint upToNul (units : list Z) : list Z :=
  match units with
  | [] => []
  | u :: rest => if u =? 0 then [] else u :: upToNul rest
  end.

Definition UTF16ToString (units : list Z) : gostring := concat (map encodeRune (utf16Runes (upToNul units))).

Definition CRYPT_E_NOT_FOUND : goerr := ErrCode 2148081668.
Definition officialCommonName : gostring := str "WireGuard LLC".
Definition evPolicyOid : gostring := str "2.23.140.1.3".
Definition policyExtensionOid : gostring := str "2.5.29.32".

(** Certificates and their stores by handle. [cert_NameString c n] is what
    CertGetNameString writes into a buffer of [n] units and returns, and
    [ext_Decode e n] the identifiers in the structure CryptDecodeObject leaves
    in a buffer of [n] bytes. *)
Class CertSystem (W : Type) := {
  cs_Executable : W -> result gostring;
  win_CryptQueryObject : list Z -> M W Z;
  win_CertCloseStore : Z -> W -> W;
  win_CertEnumCertificatesInStore : Z -> option Z -> M W (option Z);
  cert_NameLength : Z -> Z;
  cert_NameString : Z -> Z -> list Z * Z;
  cert_FindExtension : gostring -> Z -> option Z;
  ext_DecodedLength : Z -> result Z;
  ext_Decode : Z -> Z -> result (list gostring)
}.

Section Official.
Context {W : Type} `{CertSystem W}.
Context (fuel : nat).

(** What a turn of the loop appends. *)
Definition nameOfCert (cert : Z) : list gostring :=
  let nameLen := cert_NameLength cert in
  if nameLen =? 0 then []
  else
    let '(name16, written) := cert_NameString cert nameLen in
    if negb (written =? nameLen) then []
    else if head name16 is Some 0 then []
    else [UTF16ToString name16].

(** An empty buffer has no first byte: the code panics. *)
Definition policiesOfCert (oid : gostring) (cert : Z) : result (list gostring) :=
  match cert_FindExtension oid cert with
  | None => Ok []
  | Some ext =>
      match ext_DecodedLength ext with
      | Err _ => Ok []
      | Ok decodedLen =>
          if decodedLen =? 0 then Err (ErrText "index out of range")
          else match ext_Decode ext decodedLen with
               | Err _ => Ok []
               | Ok ids => Ok ids
               end
      end
  end.

(** The loop over the certificates of a store. *)
Fixpoint certLoop (rounds : nat) (pick : Z -> result (list gostring)) (certStore : Z) (cert : option Z) (found : list gostring)
    : M W (list gostring) :=
  match rounds with
  | O => mfail (ErrText "out of fuel")
  | S rounds' =>
      do! next := try (win_CertEnumCertificatesInStore certStore cert) in
      match next with
      | Err e => if bool_decide (e = CRYPT_E_NOT_FOUND) then mret found else mfail e
      | Ok None => mret found
      | Ok (Some c) =>
          do! more := mpure (pick c) in
          certLoop rounds' pick certStore (Some c) (found ++ more)
      end
  end.

(** The store is closed by a deferred call. *)
Definition extractFrom (pick : Z -> result (list gostring)) (path16 : list Z) : M W (list gostring) :=
  do! certStore := win_CryptQueryObject path16 in
  fun w =>
  let '(r, w') := certLoop fuel pick certStore None [] w in
  (match r with
   | Ok [] => Err CRYPT_E_NOT_FOUND
   | other => other
   end, win_CertCloseStore certStore w').

Definition extractCertificateNames (path : gostring) : M W (list gostring) :=
  do! path16 := mpure (UTF16FromString path) in
  extractFrom (fun c => Ok (nameOfCert c)) path16.

Definition extractCertificatePolicies (path oid : gostring) : M W (list gostring) :=
  do! path16 := mpure (UTF16FromString path) in
  do! oid8 := mpure (if has_byte (chr 0) oid then Err (ErrCode 22) else Ok oid) in
  extractFrom (policiesOfCert oid8) path16.

Definition IsRunningOfficialVersion (w : W) : bool * W :=
  match cs_Executable w with
  | Err _ => (false, w)
  | Ok path =>
      match extractCertificateNames path w with
      | (Err _, w') => (false, w')
      | (Ok names, w') => (bool_decide (officialCommonName ∈ names), w')
      end
  end.

Definition IsRunningEVSigned (w : W) : bool * W :=
  match cs_Executable w with
  | Err _ => (false, w)
  | Ok path =>
      match extractCertificatePolicies path policyExtensionOid w with
      | (Err _, w') => (false, w')
      | (Ok policies, w') => (bool_decide (evPolicyOid ∈ policies), w')
      end
  end.

(** ** What is found *)

(** The certificate after another in a store. *)
Fixpoint after (c : Z) (l : list Z) : option Z :=
  match l with
  | [] => None
  | x :: l' => if x =? c then head l' else after c l'
  end.
Definition next (cert : option Z) (l : list Z) : option Z := match cert with None => head l | Some c => after c l end.

(** [stores w] are the open stores with their certificates, [signers path16]
    those embedded in a file. *)
Class CertLaws (stores : W -> gmap Z (list Z)) (signers : list Z -> result (list Z)) := {
  cl_Query : forall p w r w', win_CryptQueryObject p w = (r, w') -> match r with
    | Ok s => stores w !! s = None /\ exists l, signers p = Ok l /\ NoDup l /\ stores w' = <[s := l]> (stores w)
    | Err e => signers p = Err e /\ stores w' = stores w
    end;
  cl_Close : forall s w, stores (win_CertCloseStore s w) = delete s (stores w);
  cl_Enum : forall s l cert w r w', stores w !! s = Some l ->
    win_CertEnumCertificatesInStore s cert w = (r, w') ->
    stores w' = stores w /\ r = match next cert l with Some c => Ok (Some c) | None => Err CRYPT_E_NOT_FOUND end
}.

Context (stores : W -> gmap Z (list Z)) (signers : list Z -> result (list Z)) `{!CertLaws stores signers}.

Lemma after_mid pre c rest : NoDup (pre ++ c :: rest) -> after c (pre ++ c :: rest) = head rest.
Proof.
  induction pre as [|x pre IH]; cbn; intros [Hx Hnd]%NoDup_cons || intros Hnd; [by rewrite Z.eqb_refl|].
  assert (x <> c) by set_solver. destruct (Z.eqb_spec x c); [done|]. by apply IH.
Qed.

(** What is picked from certificates, up to one that makes the code fail. *)
Fixpoint picked (pick : Z -> result (list gostring)) (l : list Z) : result (list gostring) :=
  match l with
  | [] => Ok []
  | c :: l' => let? a := pick c in let? b := picked pick l' in Ok (a ++ b)
  end.

Lemma certLoop_spec pick s pre rest rounds found w r w' :
  stores w !! s = Some (pre ++ rest) -> NoDup (pre ++ rest) -> (length rest < rounds)%nat ->
  certLoop rounds pick s (last pre) found w = (r, w') ->
  stores w' = stores w /\ r = (let? more := picked pick rest in Ok (found ++ more)).
Proof.
  revert pre rest found w. induction rounds as [|rounds IH]; intros pre rest found w Hs Hnd Hr; [lia|].
  cbn [certLoop]. unfold mthen, try. destruct (win_CertEnumCertificatesInStore s (last pre) w) as [r1 w1] eqn:E.
  destruct (cl_Enum s _ _ _ _ _ Hs E) as [Hw1 ->].
  assert (Hn : next (last pre) (pre ++ rest) = head rest).
  { destruct pre as [|c pre _] using rev_ind; [done|]. rewrite last_snoc. cbn [next].
    rewrite <- app_assoc in *. by apply after_mid. }
  rewrite Hn. destruct rest as [|c rest]; cbn [head].
  - rewrite bool_decide_true by done. intros [= <- <-]. cbn. by rewrite app_nil_r.
  - cbn [picked]. unfold mpure. destruct (pick c) as [a|e]; [|by intros [= <- <-]].
    rewrite <- (last_snoc c pre) at 1. intros E2.
    destruct (IH (pre ++ [c]) rest (found ++ a) w1) as [Hw' ->]; [by rewrite <- app_assoc, Hw1|by rewrite <- app_assoc|cbn in Hr; lia|done|].
    rewrite Hw', Hw1. split; [done|]. cbn. destruct (picked pick rest); cbn; by rewrite ?app_assoc.
Qed.

Lemma extractFrom_spec pick p w r w' :
  (forall l, signers p = Ok l -> (length l < fuel)%nat) ->
  extractFrom pick p w = (r, w') ->
  stores w' = stores w
  /\ r = (let? l := signers p in let? found := picked pick l in match found with [] => Err CRYPT_E_NOT_FOUND | _ => Ok found end).
Proof.
  intros Hf. unfold extractFrom, mthen. destruct (win_CryptQueryObject p w) as [[s|e] w1] eqn:E.
  - destruct (cl_Query _ _ _ _ E) as (Hn & l & Hl & Hnd & Hw1). rewrite Hl.
    destruct (certLoop fuel pick s None [] w1) as [r1 w2] eqn:E1. intros [= <- <-].
    destruct (certLoop_spec pick s [] l fuel [] w1 r1 w2) as [Hw2 ->]; [rewrite Hw1; apply lookup_insert_eq|done|by apply Hf|done|].
    rewrite cl_Close, Hw2, Hw1, delete_insert_id by done. split; [done|].
    cbn. destruct (picked pick l) as [[|]|]; done.
  - destruct (cl_Query _ _ _ _ E) as [-> Hw1]. by intros [= <- <-].
Qed.

Lemma picked_names l : picked (fun c => Ok (nameOfCert c)) l = Ok (concat (map nameOfCert l)).
Proof. induction l as [|c l IH]; [done|]. cbn in *. by rewrite IH. Qed.

(** The program is official exactly when a certificate embedded in its file has
    the name; no store of certificates is left open. *)
Theorem official_iff_signed w b w' :
  (forall path p l, cs_Executable w = Ok path -> UTF16FromString path = Ok p -> signers p = Ok l -> (length l < fuel)%nat) ->
  IsRunningOfficialVersion w = (b, w') ->
  stores w' = stores w
  /\ (b = true <-> exists path p l c, cs_Executable w = Ok path /\ UTF16FromString path = Ok p /\ signers p = Ok l
        /\ c ∈ l /\ officialCommonName ∈ nameOfCert c).
Proof.
  intros Hf. unfold IsRunningOfficialVersion, extractCertificateNames.
  destruct (cs_Executable w) as [path|e] eqn:Ee; [|intros [= <- <-]; (split; [done|split; [done|]]); intros (? & ? & ? & ? & ? & ? & ? & ?); congruence].
  unfold mthen, mpure. destruct (UTF16FromString path) as [p|e] eqn:Ep; [|intros [= <- <-]; (split; [done|split; [done|]]); intros (? & ? & ? & ? & ? & ? & ? & ?); congruence].
  destruct (extractFrom _ p w) as [r w1] eqn:E.
  destruct (extractFrom_spec _ p w r w1 (fun l => Hf path p l eq_refl Ep) E) as [Hw ->].
  destruct (signers p) as [l|e] eqn:Es; [|intros [= <- <-]; (split; [done|split; [done|]]); intros (? & ? & ? & ? & ? & ? & ? & ?); congruence]. cbn. rewrite picked_names. cbn.
  assert (Hin : officialCommonName ∈ concat (map nameOfCert l) <-> exists c, c ∈ l /\ officialCommonName ∈ nameOfCert c).
  { rewrite list_elem_of_In, in_concat. setoid_rewrite in_map_iff. setoid_rewrite list_elem_of_In. naive_solver. }
  destruct (concat (map nameOfCert l)) as [|n names]; intros [= <- <-]; (split; [done|]).
  - split; [done|]. intros (path' & p' & l' & c' & E1 & E2 & E3 & Hc & Hm).
    injection E1 as <-. rewrite Ep in E2. injection E2 as <-. rewrite Es in E3. injection E3 as <-.
    assert (Hn : officialCommonName ∈ ([] : list gostring)) by (apply Hin; eauto). by apply not_elem_of_nil in Hn.
  - rewrite bool_decide_eq_true, Hin. split; [intros (c' & ? & ?); exists path, p, l, c'; by repeat split|].
    intros (path' & p' & l' & c' & E1 & E2 & E3 & Hc & Hm).
    injection E1 as <-. rewrite Ep in E2. injection E2 as <-. rewrite Es in E3. injection E3 as <-.
    exists c'. split; [exact Hc|exact Hm].
Qed.
End Official.

(** ** os.go *)

Definition PRODUCT_DATACENTER_SERVER_CORE : Z := 12.
Definition PRODUCT_STANDARD_SERVER_CORE : Z := 13.
Definition PRODUCT_ENTERPRISE_SERVER_CORE : Z := 14.
Definition PRODUCT_WEB_SERVER_CORE : Z := 29.
Definition PRODUCT_DATACENTER_SERVER_CORE_V : Z := 39.
Definition PRODUCT_STANDARD_SERVER_CORE_V : Z := 40.
Definition PRODUCT_ENTERPRISE_SERVER_CORE_V : Z := 41.
Definition PRODUCT_STORAGE_EXPRESS_SERVER_CORE : Z := 43.
Definition PRODUCT_STORAGE_STANDARD_SERVER_CORE : Z := 44.
Definition PRODUCT_STORAGE_WORKGROUP_SERVER_CORE : Z := 45.
Definition PRODUCT_STORAGE_ENTERPRISE_SERVER_CORE : Z := 46.
Definition PRODUCT_NANO_SERVER : Z := 109.
Definition PRODUCT_DATACENTER_NANO_SERVER : Z := 143.
Definition PRODUCT_STANDARD_NANO_SERVER : Z := 144.
Definition PRODUCT_DATACENTER_A_SERVER_CORE : Z := 145.
Definition PRODUCT_STANDARD_A_SERVER_CORE : Z := 146.
Definition PRODUCT_DATACENTER_WS_SERVER_CORE : Z := 147.
Definition PRODUCT_STANDARD_WS_SERVER_CORE : Z := 148.
Definition PRODUCT_DATACENTER_EVALUATION_SERVER_CORE : Z := 159.
Definition PRODUCT_STANDARD_EVALUATION_SERVER_CORE : Z := 160.
Definition PRODUCT_AZURE_SERVER_CORE : Z := 168.
Definition PRODUCT_AZURE_NANO_SERVER : Z := 169.

(** The cases of the switch. *)
Definition coreProducts : list Z :=
  [PRODUCT_DATACENTER_SERVER_CORE; PRODUCT_STANDARD_SERVER_CORE; PRODUCT_ENTERPRISE_SERVER_CORE; PRODUCT_WEB_SERVER_CORE;
   PRODUCT_DATACENTER_SERVER_CORE_V; PRODUCT_STANDARD_SERVER_CORE_V; PRODUCT_ENTERPRISE_SERVER_CORE_V;
   PRODUCT_STORAGE_EXPRESS_SERVER_CORE; PRODUCT_STORAGE_STANDARD_SERVER_CORE; PRODUCT_STORAGE_WORKGROUP_SERVER_CORE;
   PRODUCT_STORAGE_ENTERPRISE_SERVER_CORE; PRODUCT_DATACENTER_A_SERVER_CORE; PRODUCT_STANDARD_A_SERVER_CORE;
   PRODUCT_DATACENTER_WS_SERVER_CORE; PRODUCT_STANDARD_WS_SERVER_CORE; PRODUCT_DATACENTER_EVALUATION_SERVER_CORE;
   PRODUCT_STANDARD_EVALUATION_SERVER_CORE; PRODUCT_AZURE_SERVER_CORE; PRODUCT_NANO_SERVER; PRODUCT_DATACENTER_NANO_SERVER;
   PRODUCT_STANDARD_NANO_SERVER; PRODUCT_AZURE_NANO_SERVER].

(** What the code reads of RTL_OSVERSIONINFOEXW; ProductType is a byte. *)
Record versionInfo : Type := mkVersionInfo {
  vi_MajorVersion : Z;
  vi_MinorVersion : Z;
  vi_BuildNumber : Z;
  vi_ProductType : Z
}.

(** The values of a registry key that can be opened: an integer, or an error. *)
Definition serverLevelsPath : gostring := str "Software\Microsoft\Windows NT\CurrentVersion\Server\ServerLevels".

Section OS.
Context (RtlGetVersion : versionInfo) (OpenKey : gostring -> result (gostring -> result Z)).

Definition isOne (value : result Z) : bool := match value with Ok v => v =? 1 | Err _ => false end.

Definition OsIsCore : bool :=
  let v := RtlGetVersion in
  if (6 <? vi_MajorVersion v) || ((vi_MajorVersion v =? 6) && (2 <=? vi_MinorVersion v)) then
    match OpenKey serverLevelsPath with
    | Err _ => false
    | Ok k =>
        let nanoServer := isOne (k (str "NanoServer")) in
        let serverCore := isOne (k (str "ServerCore")) in
        let serverGui := isOne (k (str "Server-Gui-Shell")) in
        (nanoServer || serverCore) && negb serverGui
    end
  else bool_decide (vi_ProductType v ∈ coreProducts).

Definition OsName : gostring :=
  let v := RtlGetVersion in
  let winType := if vi_ProductType v =? 3 then str " Server" else if vi_ProductType v =? 2 then str " Controller" else [] in
  let winType := if OsIsCore then winType ++ str " Core" else winType in
  str "Windows" ++ winType ++ str " " ++ itoa (vi_MajorVersion v) ++ str "." ++ itoa (vi_MinorVersion v) ++ str "."
    ++ itoa (vi_BuildNumber v).

(** The product types the field can hold, VER_NT_WORKSTATION,
    VER_NT_DOMAIN_CONTROLLER and VER_NT_SERVER, are none of the cases: a system
    older than Windows 8 is never a core system to this function. *)
Lemma OsIsCore_old :
  vi_MajorVersion RtlGetVersion < 6 \/ (vi_MajorVersion RtlGetVersion = 6 /\ vi_MinorVersion RtlGetVersion < 2) ->
  vi_ProductType RtlGetVersion ∈ [1; 2; 3] -> OsIsCore = false.
Proof.
  intros Hv Hp. unfold OsIsCore.
  destruct (Z.ltb_spec 6 (vi_MajorVersion RtlGetVersion)); [lia|]. cbn [orb].
  replace ((vi_MajorVersion RtlGetVersion =? 6) && (2 <=? vi_MinorVersion RtlGetVersion)) with false
    by (symmetry; apply andb_false_iff; lia).
  apply bool_decide_eq_false. intros Hc. assert (Hall : forallb (fun p => 3 <? p) coreProducts = true) by reflexivity.
  rewrite forallb_forall in Hall. apply list_elem_of_In, Hall in Hc. rewrite !elem_of_cons, elem_of_nil in Hp. lia.
Qed.
End OS.

Example OsName_server :
  OsName (mkVersionInfo 10 0 20348 3) (fun _ => Ok (fun v => if bool_decide (v = str "ServerCore") then Ok 1 else Err (ErrText "none")))
  = str "Windows Server Core 10.0.20348".
Proof. reflexivity. Qed.
