(* ===== verification/ImportExport.v ===== *)
(** * Importing and exporting tunnels: importFiles and exportTunnels of ui/tunnelspage.go

    The user selects files and archives; every configuration in them becomes a
    tunnel of the manager, with the TLS files it refers to. An archive is the
    list of its entries in their order. The manager is reached through
    [TunnelClient]; what the user is shown are the [message]s. That the archives
    are closed again, and the order of the lines that list the copied TLS files,
    are left out. *)

From S2P Require Import Prelude GoStrings GoNum Netip Config Name Paths WSTLS WSTLSNames WSTLSCollect WSTLSTheorems Parser Writer ConfWf RoundTrip Effects.
Local Open Scope Z_scope.

Class TunnelClient (W : Type) := {
  tc_Tunnels : M W (list gostring);
  tc_NewTunnel : Config -> M W unit;
  tc_StoredConfig : gostring -> M W Config
}.

Record unparsedConfig : Type := mkUnparsed {
  un_Name : gostring;
  un_Config : gostring;
  un_ReadWSTLSFile : gostring -> result gostring
}.

Inductive message : Type :=
  | CouldNotImport (e : goerr)
  | CouldNotEnumerate (e : goerr)
  | UnableToImport (e : option goerr)
  | ImportedAll (m : nat)
  | ImportedOf (m n : nat)
  | TLSFilesCopied (l : list (gostring * gostring * gostring)).

Section Archives.
Context {W : Type} `{TunnelClient W} `{UnicodeTables} `{NetURL} `{Disk}.
Context (decoders : list (gostring -> option gostring)).
(** filepath.Dir and zip.OpenReader, the permutation sort.Slice leaves and the
    order in which a map is ranged over. *)
Context (filepath_Dir : gostring -> gostring) (zip_OpenReader : gostring -> result (list (gostring * zipFile))).
Context (sortSlice : list unparsedConfig -> list unparsedConfig)
  (storedOrder : gmap gostring gostring -> list (gostring * gostring)).

(** ** Reading what was selected *)

Definition hasExt (name ext : gostring) : bool := bool_decide (ToLower (Ext name) = ext).
Definition nameOfFile (p : gostring) : gostring := TrimSuffix (Base p) (Ext p).

(** The configurations so far, and the last error. *)
Definition gathered : Type := list unparsedConfig * option goerr.

Definition zipMap (files : list (gostring * zipFile)) : gmap gostring zipFile :=
  fold_left (fun m f => <[f.1 := f.2]> m) files ∅.

(** io.ReadAll of an entry that was opened. *)
Definition readEntry (f : zipFile) : result gostring :=
  let? _ := zf_Open f in
  match zf_error f with Some e => Err e | None => Ok (zf_data f) end.

Definition gatherEntry (zipFiles : gmap gostring zipFile) (g : gathered) (f : gostring * zipFile) : gathered :=
  if negb (hasExt f.1 (str ".conf")) then g
  else match readEntry f.2 with
       | Err e => (g.1, Some e)
       | Ok textConfig => (g.1 ++ [mkUnparsed (nameOfFile f.1) textConfig (WSTLSZipFileReader zipFiles f.1)], g.2)
       end.

Definition gatherPath (g : gathered) (path : gostring) : gathered :=
  if hasExt path (str ".conf") then
    match disk_read path with
    | Err e => (g.1, Some e)
    | Ok textConfig => (g.1 ++ [mkUnparsed (nameOfFile path) textConfig (WSTLSFileReader ∅ (filepath_Dir path))], g.2)
    end
  else if hasExt path (str ".zip") then
    match zip_OpenReader path with
    | Err e => (g.1, Some e)
    | Ok files => fold_left (gatherEntry (zipMap files)) files g
    end
  else g.

Definition gather (paths : list gostring) : gathered := fold_left gatherPath paths ([], None).

(** ** Creating the tunnels *)

Record importing : Type := mkImporting {
  im_existing : gset gostring;
  im_lastErr : option goerr;
  im_count : nat;
  im_copied : list (gostring * gostring * gostring)
}.

Definition failed (e : goerr) (i : importing) : importing :=
  mkImporting (im_existing i) (Some e) (im_count i) (im_copied i).
Definition succeeded (u : unparsedConfig) (stored : gmap gostring gostring) (i : importing) : importing :=
  mkImporting ({[ToLower (un_Name u)]} ∪ im_existing i) (im_lastErr i) (S (im_count i))
    (im_copied i ++ map (fun rn => (un_Name u, rn.1, rn.2)) (storedOrder stored)).

Definition importOne (u : unparsedConfig) (i : importing) : M W importing :=
  if bool_decide (ToLower (un_Name u) ∈ im_existing i)
  then mret (failed (ErrText "Another tunnel already exists with the name") i)
  else match FromWgQuickWithUnknownEncoding decoders (un_Config u) (un_Name u) with
       | Err e => mret (failed e i)
       | Ok config =>
           match CollectWSTLSFiles (un_ReadWSTLSFile u) config with
           | (Err e, _) => mret (failed e i)
           | (Ok stored, config') =>
               do! r := try (tc_NewTunnel config') in
               match r with
               | Err e => mret (failed e i)
               | Ok _ => mret (succeeded u stored i)
               end
           end
       end.

Fixpoint importEach (us : list unparsedConfig) (i : importing) : M W importing :=
  match us with
  | [] => mret i
  | u :: us' => do! i' := importOne u i in importEach us' i'
  end.

(** What the user is told at the end, of [m] tunnels out of [n]. *)
Definition importReport (m n : nat) (i : importing) : list message :=
  (if (n =? 1)%nat then if (m =? n)%nat then [] else [UnableToImport (im_lastErr i)]
   else if (m =? n)%nat then [ImportedAll m] else [ImportedOf m n])
  ++ match im_copied i with [] => [] | l => [TLSFilesCopied l] end.

Definition lowerNames (l : list gostring) : gset gostring := list_to_set (map ToLower l).

Definition importFiles (paths : list gostring) : M W (list message) :=
  let '(unparsedConfigs, lastErr) := gather paths in
  match unparsedConfigs, lastErr with
  | _, Some e => mret [CouldNotImport e]
  | [], None => mret [CouldNotImport (ErrText "no configuration files were found")]
  | us, None =>
      let us := sortSlice us in
      do! existing := try tc_Tunnels in
      match existing with
      | Err e => mret [CouldNotEnumerate e]
      | Ok names =>
          do! i := importEach us (mkImporting (lowerNames names) None 0 []) in
          mret (importReport (im_count i) (length us) i)
      end
  end.

(** ** Exporting *)

(** An archive that is written: the entries so far. A write to the file may
    fail; the number of the writes that succeed is [budget]. *)
Record archive : Type := mkArchive { ar_entries : list (gostring * gostring); ar_budget : nat }.

Abbreviation exporting := (archive * W)%type.

Definition writeEntry (name data : gostring) (why why' : string) : M exporting unit :=
  fun s => let '(a, w) := s in
  match ar_budget a with
  | S (S b) => (Ok tt, (mkArchive (ar_entries a ++ [(name, data)]) b, w))
  | S O => (Err (ErrWrap why' [] (ErrText "write")), (mkArchive (ar_entries a ++ [(name, [])]) 0, w))
  | O => (Err (ErrWrap why [] (ErrText "write")), (a, w))
  end.

Definition exportFile (tunnel : gostring) (cfg : Config) (name : gostring) : M exporting unit :=
  match c_WSTLSFiles cfg !! name with
  | None => mfail (ErrText "onExportTunnels: stored TLS file is missing")
  | Some data => writeEntry (tunnel ++ str "/" ++ name) data "onExportTunnels: writer.Create failed" "onExportTunnels: writing failed"
  end.

Definition exportTunnel (tunnel : gostring) : M exporting unit :=
  do! cfg := (fun s => let '(r, w) := tc_StoredConfig tunnel s.2 in
                       (match r with Ok c => Ok c | Err e => Err (ErrWrap "onExportTunnels: tunnel.StoredConfig failed" [] e) end, (s.1, w))) in
  do! _ := writeEntry (tunnel ++ str ".conf") (ToWgQuick cfg) "onExportTunnels: writer.Create failed" "onExportTunnels: cfg.ToWgQuick failed" in
  mfor (WSTLSStoredFileNames cfg) (exportFile tunnel cfg).

Definition exportTunnels (tunnels : list gostring) : M exporting unit :=
  do! _ := mfor tunnels exportTunnel in
  fun s => (if (ar_budget s.1 =? 0)%nat then Err (ErrText "write") else Ok tt, s).
End Archives.
