(* ===== verification/Store.v ===== *)
(** * The configuration store: conf/store.go, wstls_store.go, filewriter_windows.go,
      path_windows.go, migration_windows.go and conf/dpapi

    Tunnels are files encrypted with DPAPI in one directory, the TLS files of
    WebSocket peers in one directory per tunnel. A path is the list of its
    elements: the elements the code joins are plain names that it has checked,
    so filepath.Join appends them and [render] writes the path out. *)

From S2P Require Import Prelude GoStrings GoNum Netip Config Name Paths WSTLS Parser Writer Effects.
Local Open Scope Z_scope.

Abbreviation path := (list gostring).

Definition render (p : path) : gostring := Join p (str "\").

(** ** The system *)

Record gofile : Type := mkFile { f_name : gostring; f_data : gostring }.

(** An entry of os.ReadDir: its name, whether it is a regular file, and the
    permission bits file.Info reports. *)
Record dirEntry : Type := mkEntry { de_Name : gostring; de_IsRegular : bool; de_Info : result Z }.

Record fileAttributes : Type := mkAttributes { fa_directory : bool; fa_reparsePoint : bool }.

Definition ERROR_FILE_NOT_FOUND : Z := 2.
Definition ERROR_SHARING_VIOLATION : Z := 32.
Definition ERROR_FILE_EXISTS : Z := 80.
Definition ERROR_BUFFER_OVERFLOW : Z := 111.
Definition ERROR_DIR_NOT_EMPTY : Z := 145.
Definition ERROR_ALREADY_EXISTS : Z := 183.
Definition ERROR_IO_INCOMPLETE : Z := 996.
Definition MAX_PATH : Z := 260.

Class FileSystem (W handle : Type) `{Countable handle} := {
  (** The files, by the case-folded elements of their path. *)
  fs_fold : gostring -> gostring;
  fs_files : W -> gmap path gofile;
  (** The open handles: the file of each, and whether it goes when closed. *)
  fs_open : W -> gmap handle (path * bool);

  os_ReadFile : path -> M W gostring;
  os_ReadDir : path -> M W (list dirEntry);
  os_Remove : path -> M W unit;
  os_RemoveAll : path -> M W unit;
  os_Mkdir : path -> M W unit;
  os_MkdirAll : path -> M W unit;
  (** os.OpenFile for reading and writing, io.ReadAll and Close: the error of
      the first apart from that of the second. *)
  os_OpenAndRead : path -> M W (result gostring);
  rand_Read : nat -> M W gostring;

  win_CreateFile : path -> M W handle;
  win_Write : handle -> gostring -> M W Z;
  win_FlushFileBuffers : handle -> M W unit;
  win_Dispose : handle -> M W unit;
  win_Rename : handle -> path -> bool -> M W unit;
  win_CloseHandle : handle -> M W unit;

  win_KnownFolderPath : M W gostring;
  win_CreateDirectory : gostring -> option gostring -> M W unit;
  win_OpenDirectory : gostring -> M W handle;
  win_GetFileInformationByHandle : handle -> M W fileAttributes;
  win_GetFinalPathNameByHandle : handle -> Z -> M W (Z * gostring);
  win_SetKernelObjectSecurity : handle -> gostring -> M W unit;
  win_SecurityDescriptorFromString : gostring -> result gostring;
  strings_EqualFold : gostring -> gostring -> bool;

  (** DPAPI: a blob holds data and a description in UTF-16. *)
  win_CryptProtectData : gostring -> list Z -> M W gostring;
  win_CryptUnprotectData : gostring -> M W (gostring * option (list Z))
}.

(** The package variables. An empty directory is one that is not cached. *)
Record store (W : Type) : Type := mkStore {
  st_cachedConfigFileDir : path;
  st_cachedRootDir : gostring;
  st_encryptedFileSd : option gostring;
  st_sys : W
}.
Arguments mkStore {W}.
Arguments st_cachedConfigFileDir {W}.
Arguments st_cachedRootDir {W}.
Arguments st_encryptedFileSd {W}.
Arguments st_sys {W}.

Definition set_sys {W} (w : W) (s : store W) : store W :=
  mkStore (st_cachedConfigFileDir s) (st_cachedRootDir s) (st_encryptedFileSd s) w.

(** A system call. *)
Definition sys {W A} (m : M W A) : M (store W) A :=
  fun s => let '(r, w) := m (st_sys s) in (r, set_sys w s).

(** The open-coded strcmp of dpapi.Decrypt: whether the texts differ. Running
    past the end of the memory is an error of the model. *)
Fixpoint strcmpDiffers (a b : list Z) : result bool :=
  match a, b with
  | x :: a', y :: b' => if negb (x =? y) then Ok true
                        else if (x =? 0) || (y =? 0) then Ok false
                        else strcmpDiffers a' b'
  | _, _ => Err (ErrText "read past the end")
  end.

Section Store.
Context {W handle : Type} `{FileSystem W handle} `{UnicodeTables} `{NetURL}.

(** ** conf/dpapi *)

(** A blob of the low 32 bits of the length. *)
Definition bytesToBlob (data : gostring) : gostring :=
  take (Z.to_nat (Z.of_nat (length data) mod 2 ^ 32)) data.

(** windows.StringToUTF16Ptr panics where UTF16FromString fails. *)
Definition Encrypt (data name : gostring) : M W gostring :=
  do! name16 := mpure (UTF16FromString name) in
  mwrap (ErrWrap "unable to encrypt DPAPI protected data" []) (win_CryptProtectData (bytesToBlob data) name16).

Definition Decrypt (data name : gostring) : M W gostring :=
  do! utf16Name := mpure (UTF16FromString name) in
  do! (ret, outName) := mwrap (ErrWrap "unable to decrypt DPAPI protected data" []) (win_CryptUnprotectData (bytesToBlob data)) in
  match outName with
  | None => mfail (ErrText "decrypted data has no associated name")
  | Some outName =>
      do! different := mpure (strcmpDiffers outName utf16Name) in
      if different : bool then mfail (ErrText "input name does not match the stored name")
      else mret ret
  end.

(** ** Writing a file *)

Definition randomFileName : M W gostring :=
  do! randBytes := rand_Read 32 in
  mret (hexEncode randBytes ++ str ".tmp").

Definition lockedDownSd : gostring := str "O:SYG:SYD:PAI(A;;FA;;;SY)(A;;SD;;;BA)".

(** The calls between the creation of the temporary file and its closing. A
    failure marks the file for deletion first. *)
Definition orDelete {A} (h : handle) (m : M W A) : M W A :=
  fun w => match m w with
           | (Err e, w1) => let '(_, w2) := win_Dispose h w1 in (Err e, w2)
           | ok => ok
           end.

Definition writeAndRename (h : handle) (destination : path) (destination16 : list Z) (overwrite : bool)
    (contents : gostring) : M W unit :=
  do! n := orDelete h (win_Write h contents) in
  do! _ := orDelete h (if n =? Z.of_nat (length contents) then mret tt
                       else mfail (ErrCode ERROR_IO_INCOMPLETE)) in
  do! _ := orDelete h (win_FlushFileBuffers h) in
  do! _ := orDelete h (if MAX_PATH <? Z.of_nat (length destination16)
                       then mfail (ErrCode ERROR_BUFFER_OVERFLOW) else mret tt) in
  orDelete h (win_Rename h destination overwrite).

(** The deferred CloseHandle runs on every way out. *)
Definition withClose {A} (h : handle) (m : M W A) : M W A :=
  fun w => let '(r, w1) := m w in let '(_, w2) := win_CloseHandle h w1 in (r, w2).

(** [dir] is filepath.Dir of the destination and [name] its last element. *)
Definition writeFile (dir : path) (name : gostring) (overwrite : bool) (contents : gostring) : M W unit :=
  let destination := dir ++ [name] in
  do! destination16 := mpure (UTF16FromString (render destination)) in
  do! tmp := randomFileName in
  do! _ := mpure (UTF16FromString (render (dir ++ [tmp]))) in
  do! h := win_CreateFile (dir ++ [tmp]) in
  withClose h (writeAndRename h destination destination16 overwrite contents).

Definition writeLockedDownFile (dir : path) (name : gostring) (overwrite : bool) (contents : gostring)
    : M (store W) unit :=
  do! sd := mget st_encryptedFileSd in
  do! _ := match sd with
           | Some _ => mret tt
           | None =>
               do! sd := mpure (win_SecurityDescriptorFromString lockedDownSd) in
               mmod (fun s => mkStore (st_cachedConfigFileDir s) (st_cachedRootDir s) (Some sd) (st_sys s))
           end in
  sys (writeFile dir name overwrite contents).

(** ** Directories *)

Definition dataSd : gostring := str "O:SYG:SYD:PAI(A;OICI;FA;;;SY)(A;OICI;FA;;;BA)".

(** A call whose error is no failure when [f] holds of it. *)
Definition tolerate (f : goerr -> bool) (m : M W unit) : M W unit :=
  fun w => match m w with
           | (Err e, w') => if f e then (Ok tt, w') else (Err e, w')
           | ok => ok
           end.

Definition alreadyExists (e : goerr) : bool := bool_decide (e = ErrCode ERROR_ALREADY_EXISTS).

(** os.IsExist. *)
Definition osIsExist (e : goerr) : bool :=
  bool_decide (e ∈ map ErrCode [ERROR_ALREADY_EXISTS; ERROR_DIR_NOT_EMPTY; ERROR_FILE_EXISTS]).

(** The loop that creates the data directory and opens it, until both refer to
    one that exists. *)
Fixpoint openData (fuel : nat) (data sd : gostring) : M W handle :=
  match fuel with
  | O => mfail (ErrText "out of fuel")
  | S fuel' =>
      do! _ := tolerate alreadyExists (win_CreateDirectory data (Some sd)) in
      do! r := try (win_OpenDirectory data) in
      match r with
      | Ok h => mret h
      | Err e => if bool_decide (e = ErrCode ERROR_FILE_NOT_FOUND) then openData fuel' data sd
                 else mfail e
      end
  end.

(** The loop that grows the buffer until the path fits. *)
Fixpoint finalPath (fuel : nat) (h : handle) (size : Z) : M W gostring :=
  match fuel with
  | O => mfail (ErrText "out of fuel")
  | S fuel' =>
      do! (bufLen, text) := win_GetFinalPathNameByHandle h size in
      if bufLen <? size then mret text else finalPath fuel' h bufLen
  end.

(** What RootDirectory checks of the directory it has opened before it trusts
    it, and the security it sets on it. *)
Definition secureData (fuel : nat) (h : handle) (data sd : gostring) : M W unit :=
  do! info := win_GetFileInformationByHandle h in
  if negb (fa_directory info) then mfail (ErrText "Data directory is actually a file")
  else if fa_reparsePoint info then mfail (ErrText "Data directory is reparse point")
  else
    do! text := finalPath fuel h (MAX_PATH + 4) in
    if negb (strings_EqualFold (str "\\?\" ++ data) text)
    then mfail (ErrText "Data directory jumped to unexpected location")
    else win_SetKernelObjectSecurity h sd.

Definition createRoot (fuel : nat) (root : gostring) : M W gostring :=
  do! _ := mpure (UTF16FromString root) in
  do! _ := tolerate alreadyExists (win_CreateDirectory root None) in
  do! sd := mpure (win_SecurityDescriptorFromString dataSd) in
  let data := root ++ str "\Data" in
  do! _ := mpure (UTF16FromString data) in
  do! h := openData fuel data sd in
  do! _ := withClose h (secureData fuel h data sd) in
  mret data.

(** [fuel] bounds the rounds of the two loops against a system that changes
    under them. *)
Definition RootDirectory (fuel : nat) (create : bool) : M (store W) gostring :=
  do! cached := mget st_cachedRootDir in
  if negb (bool_decide (cached = [])) then mret cached
  else
    do! root := sys win_KnownFolderPath in
    let root := root ++ str "\WireGuard WS" in
    if negb create then mret (root ++ str "\Data")
    else
      do! data := sys (createRoot fuel root) in
      do! _ := mmod (fun s => mkStore (st_cachedConfigFileDir s) data (st_encryptedFileSd s) (st_sys s)) in
      mret data.

Definition PresetRootDirectory (root : gostring) : M (store W) unit :=
  mmod (fun s => mkStore (st_cachedConfigFileDir s) root (st_encryptedFileSd s) (st_sys s)).

Definition LogFile (fuel : nat) (createRoot : bool) : M (store W) path :=
  do! root := RootDirectory fuel createRoot in
  mret [root; str "log.bin"].

Definition tunnelConfigurationsDirectory (fuel : nat) : M (store W) path :=
  do! cached := mget st_cachedConfigFileDir in
  if negb (bool_decide (cached = [])) then mret cached
  else
    do! root := RootDirectory fuel true in
    let c := [root; str "Configurations"] in
    do! _ := sys (tolerate osIsExist (os_Mkdir c)) in
    do! _ := mmod (fun s => mkStore c (st_cachedRootDir s) (st_encryptedFileSd s) (st_sys s)) in
    mret c.

(** ** Tunnels *)

Definition configFileSuffix : gostring := str ".conf.dpapi".
Definition configFileUnencryptedSuffix : gostring := str ".conf".

Definition invalidName : goerr := ErrText "Tunnel name is not valid".

Definition endsWith (name suffix : gostring) : bool :=
  (length suffix <? length name)%nat && HasSuffix name suffix.

Definition NameFromPath (path : gostring) : result gostring :=
  let name := Base path in
  if negb (endsWith name configFileSuffix || endsWith name configFileUnencryptedSuffix)
  then Err (ErrText "Path must end in either .conf.dpapi or .conf")
  else
    let name := if HasSuffix path configFileSuffix then TrimSuffix name configFileSuffix
                else TrimSuffix name configFileUnencryptedSuffix in
    if negb (TunnelNameIsValid name) then Err invalidName else Ok name.

Definition PathIsEncrypted (path : gostring) : bool := HasSuffix (Base path) configFileSuffix.

(** The name of a tunnel that an entry of the directory holds, if any. *)
Definition listedName (e : dirEntry) : option gostring :=
  match NameFromPath (de_Name e) with
  | Err _ => None
  | Ok name => if negb (de_IsRegular e) then None
               else match de_Info e with
                    | Err _ => None
                    | Ok perm => if Z.land perm 292 =? 0 then None else Some name
                    end
  end.

Definition ListConfigNames (fuel : nat) : M (store W) (list gostring) :=
  do! dir := tunnelConfigurationsDirectory fuel in
  do! files := sys (os_ReadDir dir) in
  mret (omap listedName files).

Variable decoders : list (gostring -> option gostring).

Definition LoadFromPath (p : path) : M (store W) Config :=
  do! name := mpure (NameFromPath (render p)) in
  do! bytes := sys (os_ReadFile p) in
  do! bytes := if HasSuffix (render p) configFileSuffix then sys (Decrypt bytes name) else mret bytes in
  mpure (FromWgQuickWithUnknownEncoding decoders bytes name).

Definition LoadFromName (fuel : nat) (name : gostring) : M (store W) Config :=
  if negb (TunnelNameIsValid name) then mfail invalidName
  else
    do! dir := tunnelConfigurationsDirectory fuel in
    LoadFromPath (dir ++ [name ++ configFileSuffix]).

Definition Save (fuel : nat) (c : Config) (overwrite : bool) : M (store W) unit :=
  if negb (TunnelNameIsValid (c_Name c)) then mfail invalidName
  else
    do! dir := tunnelConfigurationsDirectory fuel in
    do! bytes := sys (Encrypt (ToWgQuick c) (c_Name c)) in
    writeLockedDownFile dir (c_Name c ++ configFileSuffix) overwrite bytes.

Definition Path (fuel : nat) (c : Config) : M (store W) path :=
  if negb (TunnelNameIsValid (c_Name c)) then mfail invalidName
  else
    do! dir := tunnelConfigurationsDirectory fuel in
    mret (dir ++ [c_Name c ++ configFileSuffix]).

(** ** TLS files *)

Definition wsTLSDirectoryName : gostring := str "WebSocketTLS".
Definition wsTLSRuntimeDirectoryName : gostring := str "$runtime".
Definition wsTLSEncryptedSuffix : gostring := str ".dpapi".

Definition wsTLSDirectory (fuel : nat) (create : bool) (elem : list gostring) : M (store W) path :=
  do! root := RootDirectory fuel true in
  let dir := root :: wsTLSDirectoryName :: elem in
  do! _ := mwhen create (sys (os_MkdirAll dir)) in
  mret dir.

Definition wsTLSDescription (tunnelName fileName : gostring) : gostring :=
  tunnelName ++ str "/" ++ fileName.

Definition removeWSTLSRuntimeFiles (fuel : nat) (tunnelName : gostring) : M (store W) unit :=
  do! dir := wsTLSDirectory fuel false [wsTLSRuntimeDirectoryName; tunnelName] in
  sys (os_RemoveAll dir).

Definition DeleteWSTLSFiles (fuel : nat) (tunnelName : gostring) : M (store W) unit :=
  if negb (TunnelNameIsValid tunnelName) then mfail invalidName
  else
    do! dir := wsTLSDirectory fuel false [tunnelName] in
    do! _ := sys (os_RemoveAll dir) in
    removeWSTLSRuntimeFiles fuel tunnelName.

Definition DeleteName (fuel : nat) (name : gostring) : M (store W) unit :=
  if negb (TunnelNameIsValid name) then mfail invalidName
  else
    do! dir := tunnelConfigurationsDirectory fuel in
    do! _ := sys (os_Remove (dir ++ [name ++ configFileSuffix])) in
    DeleteWSTLSFiles fuel name.

Definition Delete (fuel : nat) (c : Config) : M (store W) unit := DeleteName fuel (c_Name c).

(** The two loops of SaveWSTLSFiles: one file written, and one entry that is
    none of the files removed. *)
Definition saveFile (dir : path) (tunnelName : gostring) (file : gostring * gostring) : M (store W) unit :=
  let '(name, data) := file in
  if negb (WSTLSFileNameIsValid name) then mfail (ParseError "Unexpected stored TLS file" name)
  else
    do! encrypted := sys (Encrypt data (wsTLSDescription tunnelName name)) in
    writeLockedDownFile dir (name ++ wsTLSEncryptedSuffix) true encrypted.

Definition keepsEntry (files : gmap gostring gostring) (entryName : gostring) : bool :=
  HasSuffix entryName wsTLSEncryptedSuffix
  && bool_decide (TrimSuffix entryName wsTLSEncryptedSuffix ∈ dom files).

Definition dropEntry (dir : path) (files : gmap gostring gostring) (e : dirEntry) : M (store W) unit :=
  if keepsEntry files (de_Name e) then mret tt else sys (os_Remove (dir ++ [de_Name e])).

(** [order] is the order in which the map of files is ranged over. *)
Definition SaveWSTLSFiles (fuel : nat) (tunnelName : gostring) (files : gmap gostring gostring)
    (order : list (gostring * gostring)) : M (store W) unit :=
  if negb (TunnelNameIsValid tunnelName) then mfail invalidName
  else if (size files =? 0)%nat then DeleteWSTLSFiles fuel tunnelName
  else
    do! dir := wsTLSDirectory fuel true [tunnelName] in
    do! _ := mfor order (saveFile dir tunnelName) in
    do! entries := sys (os_ReadDir dir) in
    mfor entries (dropEntry dir files).

Definition loadWSTLSFile (fuel : nat) (tunnelName fileName : gostring) : M (store W) gostring :=
  if negb (TunnelNameIsValid tunnelName) || negb (WSTLSFileNameIsValid fileName)
  then mfail (ErrText "TLS file name is not valid")
  else
    do! dir := wsTLSDirectory fuel false [tunnelName] in
    do! encrypted := sys (os_ReadFile (dir ++ [fileName ++ wsTLSEncryptedSuffix])) in
    sys (Decrypt encrypted (wsTLSDescription tunnelName fileName)).

Fixpoint loadFiles (fuel : nat) (tunnelName : gostring) (names : list gostring)
    (files : gmap gostring gostring) : M (store W) (gmap gostring gostring) :=
  match names with
  | [] => mret files
  | name :: names' =>
      do! data := mwrap (ErrWrap "Unable to load stored TLS file %q" name)
                    (loadWSTLSFile fuel tunnelName name) in
      loadFiles fuel tunnelName names' (<[name := data]> files)
  end.

(** The configuration it leaves: with the files on success. *)
Definition LoadWSTLSFiles (fuel : nat) (c : Config) : M (store W) Config :=
  let names := WSTLSStoredFileNames c in
  match names with
  | [] => mret (set_c_WSTLSFiles ∅ c)
  | _ =>
      do! files := loadFiles fuel (c_Name c) names ∅ in
      mret (set_c_WSTLSFiles files c)
  end.

(** ** TLS files for the tunnel service *)

(** The variables of the loop of PrepareWSTLSFiles: an empty directory is one
    that has not been created, and then the cleanup does nothing. *)
Record preparing : Type := mkPreparing {
  pp_runtimeDir : path;
  pp_paths : gmap gostring gostring
}.

(** The cleanup function: the error of os.RemoveAll is logged. *)
Definition cleanupFiles (runtimeDir : path) : M (store W) unit :=
  match runtimeDir with
  | [] => mret tt
  | _ => do! _ := try (sys (os_RemoveAll runtimeDir)) in mret tt
  end.

Definition orCleanup {A} (runtimeDir : path) (m : M (store W) A) : M (store W) A :=
  fun s => match m s with
           | (Err e, s1) => let '(_, s2) := cleanupFiles runtimeDir s1 in (Err e, s2)
           | ok => ok
           end.

(** One reference: what it becomes, and the variables. *)
Definition prepareRef (fuel : nat) (name : gostring) (pp : preparing) (ref : gostring)
    : M (store W) (gostring * preparing) :=
  if IsWSTLSLocalPath ref then mret (ref, pp)
  else match pp_paths pp !! ref with
       | Some path => mret (path, pp)
       | None =>
           do! runtimeDir := if bool_decide (pp_runtimeDir pp = [])
                             then wsTLSDirectory fuel true [wsTLSRuntimeDirectoryName; name]
                             else mret (pp_runtimeDir pp) in
           do! data := orCleanup runtimeDir
             (mwrap (ErrWrap "Unable to load stored TLS file %q" ref) (loadWSTLSFile fuel name ref)) in
           let path := render (runtimeDir ++ [ref]) in
           do! _ := orCleanup runtimeDir (writeLockedDownFile runtimeDir ref true data) in
           mret (path, mkPreparing runtimeDir (<[ref := path]> (pp_paths pp)))
       end.

(** The references that have been rewritten when the loop ends, and its
    outcome. *)
Fixpoint prepareLoop (fuel : nat) (name : gostring) (pp : preparing) (refs : list gostring)
    (s : store W) : list gostring * result preparing * store W :=
  match refs with
  | [] => ([], Ok pp, s)
  | ref :: refs' =>
      match prepareRef fuel name pp ref s with
      | (Err e, s') => (refs, Err e, s')
      | (Ok (ref', pp'), s') =>
          let '(done, r, s'') := prepareLoop fuel name pp' refs' s' in (ref' :: done, r, s'')
      end
  end.

Definition prepareChecks (fromStore : bool) (ref : gostring) : bool :=
  negb (IsWSTLSLocalPath ref) && (negb fromStore || negb (WSTLSFileNameIsValid ref)).

(** The directory the cleanup function removes, and the configuration left. *)
Definition PrepareWSTLSFiles (fuel : nat) (fromStore : bool) (c : Config) (s : store W)
    : result path * Config * store W :=
  let refs := wsTLSReferences c in
  match find (prepareChecks fromStore) refs with
  | Some ref => (Err (ParseError "TLS file must be an absolute local path" ref), c, s)
  | None =>
      if negb fromStore then (Ok [], c, s)
      else match removeWSTLSRuntimeFiles fuel (c_Name c) s with
           | (Err e, s') => (Err e, c, s')
           | (Ok _, s') =>
               let '(done, r, s'') := prepareLoop fuel (c_Name c) (mkPreparing [] ∅) refs s' in
               (match r with Ok pp => Ok (pp_runtimeDir pp) | Err e => Err e end, writeRefs done c, s'')
           end
  end.

(** ** Migration *)

(** What a run reports: the calls of the callback, and the number of further
    attempts of the run it schedules for a file that is still being written. *)
Record migration : Type := mkMigration {
  mg_migrated : list (gostring * path * path);
  mg_retry : option nat
}.

(** Whether an entry is a file to migrate. *)
Definition migratable (e : dirEntry) : bool :=
  endsWith (Base (de_Name e)) configFileUnencryptedSuffix && de_IsRegular e
  && match de_Info e with Ok perm => negb (Z.land perm 292 =? 0) | Err _ => false end.

(** Reading, saving and removing one file. *)
Definition migrateFile (fuel : nat) (dir : path) (e : dirEntry) (read : result gostring)
    : M (store W) (gostring * path * path) :=
  let p := dir ++ [de_Name e] in
  do! bytes := mpure read in
  do! c := mpure (FromWgQuickWithUnknownEncoding decoders bytes
                    (TrimSuffix (Base (de_Name e)) configFileUnencryptedSuffix)) in
  do! _ := Save fuel c false in
  do! _ := sys (os_Remove p) in
  do! newPath := Path fuel c in
  mret (c_Name c, p, newPath).

(** One entry. An error is logged and the loop goes on; the first file in use
    schedules another run, later ones are skipped. *)
Definition migrateEntry (fuel : nat) (sharingBase : nat) (dir : path) (mg : migration) (e : dirEntry)
    : M (store W) migration :=
  if negb (migratable e) then mret mg
  else
    do! opened := try (sys (os_OpenAndRead (dir ++ [de_Name e]))) in
    match opened with
    | Err err =>
        mret (if bool_decide (err = ErrCode ERROR_SHARING_VIOLATION) then
                match mg_retry mg, sharingBase with
                | None, S base => mkMigration (mg_migrated mg) (Some base)
                | _, _ => mg
                end
              else mg)
    | Ok read =>
        do! r := try (migrateFile fuel dir e read) in
        mret (match r with
              | Ok call => mkMigration (mg_migrated mg ++ [call]) (mg_retry mg)
              | Err _ => mg
              end)
    end.

Fixpoint migrateLoop (fuel sharingBase : nat) (dir : path) (mg : migration) (files : list dirEntry)
    : M (store W) migration :=
  match files with
  | [] => mret mg
  | e :: files' =>
      do! mg' := migrateEntry fuel sharingBase dir mg e in
      migrateLoop fuel sharingBase dir mg' files'
  end.

(** An error of the directory ends the run silently. *)
Definition migrateUnencryptedConfigs (fuel sharingBase : nat) : M (store W) migration :=
  do! dir := try (tunnelConfigurationsDirectory fuel) in
  match dir with
  | Err _ => mret (mkMigration [] None)
  | Ok dir =>
      do! files := try (sys (os_ReadDir dir)) in
      match files with
      | Err _ => mret (mkMigration [] None)
      | Ok files => migrateLoop fuel sharingBase dir (mkMigration [] None) files
      end
  end.

Definition MigrateUnencryptedConfigs (fuel : nat) : M (store W) migration :=
  migrateUnencryptedConfigs fuel 3.

(** A run with those its timer starts after it, the first of [rounds] at most;
    [others] is what happens until the timer fires. *)
Fixpoint migrateRetries (others : store W -> store W) (rounds fuel sharingBase : nat) : M (store W) (list migration) :=
  match rounds with
  | O => mfail (ErrText "still running")
  | S rounds' =>
      do! mg := migrateUnencryptedConfigs fuel sharingBase in
      match mg_retry mg with
      | None => mret [mg]
      | Some base =>
          do! _ := mmod others in
          do! mgs := migrateRetries others rounds' fuel base in
          mret (mg :: mgs)
      end
  end.
End Store.
