(* ===== verification/StoreLaws.v ===== *)
(** * The file system the store relies on, and its atomic writes

    The laws state documented behaviour of Windows: names that differ only in
    the case of ASCII letters are the same file, a rename replaces the file at
    its destination in one step, a file marked for deletion is gone when its
    handle is closed, and DPAPI returns what was protected with its
    description. Any call may fail. *)

From S2P Require Import Prelude GoStrings GoNum Netip Config Name Paths WSTLS WSTLSNames Parser Writer Effects Store.
Local Open Scope Z_scope.

Section Laws.
Context {W handle : Type} `{FileSystem W handle}.

Definition key (p : path) : path := map fs_fold p.

(** What a state of the system holds, as far as the program can tell. *)
Definition view (F : gmap path gofile) (O : gmap handle (path * bool)) (w : W) : Prop :=
  fs_files w = F /\ fs_open w = O.

(** A call that changes neither files nor handles. *)
Definition keeps {A} (m : M W A) : Prop :=
  forall F O, triple (view F O) m (fun _ => view F O) (view F O).

Class FileLaws := {
  dp_blob : gostring -> option (gostring * list Z);

  fl_fold : forall s, forallb isASCII s = true -> fs_fold s = map lowerByte s;
  fl_ReadFile : forall F O p, triple (view F O) (os_ReadFile p)
    (fun d w => view F O w /\ exists f, F !! key p = Some f /\ f_data f = d) (view F O);
  fl_ReadDir : forall F O p, triple (view F O) (os_ReadDir p)
    (fun es w => view F O w
       /\ (forall k f, F !! (key p ++ [k]) = Some f -> exists e, e ∈ es /\ fs_fold (de_Name e) = k)
       /\ (forall e f, e ∈ es -> F !! key (p ++ [de_Name e]) = Some f -> de_Name e = f_name f)
       /\ (forall e, e ∈ es -> de_IsRegular e = true -> is_Some (F !! key (p ++ [de_Name e])))) (view F O);
  fl_Remove : forall F O p, triple (view F O) (os_Remove p)
    (fun _ => view (delete (key p) F) O) (view F O);
  fl_RemoveAll : forall F O p, triple (view F O) (os_RemoveAll p)
    (fun _ => view (filter (fun kf => ~ key p `prefix_of` kf.1) F) O)
    (fun w => fs_open w = O /\ fs_files w ⊆ F
              /\ forall k, ~ key p `prefix_of` k -> fs_files w !! k = F !! k);
  fl_OpenAndRead : forall F O p, triple (view F O) (os_OpenAndRead p)
    (fun r w => view F O w /\ forall d, r = Ok d -> exists f, F !! key p = Some f /\ f_data f = d) (view F O);
  fl_Mkdir : forall p, keeps (os_Mkdir p);
  fl_MkdirAll : forall p, keeps (os_MkdirAll p);
  fl_rand_Read : forall F O n, triple (view F O) (rand_Read n)
    (fun bs w => view F O w /\ length bs = n) (view F O);

  fl_CreateFile : forall F O d n, triple (view F O) (win_CreateFile (d ++ [n]))
    (fun h w => O !! h = None /\ exists f,
       view (<[key (d ++ [n]) := f]> F) (<[h := (key (d ++ [n]), false)]> O) w) (view F O);
  fl_Write : forall F O h k f c, O !! h = Some (k, false) -> F !! k = Some f ->
    triple (view F O) (win_Write h c)
      (fun n => view (<[k := mkFile (f_name f) (take (Z.to_nat n) c)]> F) O)
      (fun w => exists d, view (<[k := mkFile (f_name f) d]> F) O w);
  fl_FlushFileBuffers : forall h, keeps (win_FlushFileBuffers h);
  fl_Dispose : forall F O h k b, O !! h = Some (k, b) ->
    triple (view F O) (win_Dispose h) (fun _ => view F (<[h := (k, true)]> O)) (view F O);
  fl_Rename : forall F O h k f d n overwrite, O !! h = Some (k, false) -> F !! k = Some f ->
    triple (view F O) (win_Rename h (d ++ [n]) overwrite)
      (fun _ w => (overwrite = false -> F !! key (d ++ [n]) = None)
         /\ view (<[key (d ++ [n]) := mkFile n (f_data f)]> (delete k F))
                 (<[h := (key (d ++ [n]), false)]> O) w)
      (view F O);
  (** Closing an open handle closes it, whatever it reports. *)
  fl_CloseHandle : forall F O h k b w r w', O !! h = Some (k, b) -> view F O w ->
    win_CloseHandle h w = (r, w') -> view (if b : bool then delete k F else F) (delete h O) w';

  fl_KnownFolderPath : keeps win_KnownFolderPath;
  fl_CreateDirectory : forall p sd, keeps (win_CreateDirectory p sd);
  fl_OpenDirectory : forall F O p, triple (view F O) (win_OpenDirectory p)
    (fun h w => O !! h = None /\ exists k, view F (<[h := (k, false)]> O) w) (view F O);
  fl_GetFileInformationByHandle : forall h, keeps (win_GetFileInformationByHandle h);
  fl_GetFinalPathNameByHandle : forall h n, keeps (win_GetFinalPathNameByHandle h n);
  fl_SetKernelObjectSecurity : forall h sd, keeps (win_SetKernelObjectSecurity h sd);

  fl_CryptProtectData : forall F O d n, triple (view F O) (win_CryptProtectData d n)
    (fun b w => view F O w /\ dp_blob b = Some (d, n) /\ Z.of_nat (length b) < 2 ^ 32) (view F O);
  fl_CryptUnprotectData : forall F O b, triple (view F O) (win_CryptUnprotectData b)
    (fun dn w => view F O w /\ exists n, dp_blob b = Some (dn.1, n) /\ dn.2 = Some n) (view F O)
}.
End Laws.

(** ** Temporary files *)

(** The names randomFileName makes: 64 digits and .tmp. No file of the store
    has such a name. *)
Definition isTmpName (n : gostring) : bool := (length n =? 68)%nat && HasSuffix n (str ".tmp").

Definition isTmp (k : path) : bool :=
  match last k with Some n => isTmpName n | None => false end.

Definition visible (F : gmap path gofile) : gmap path gofile :=
  filter (fun kf => isTmp kf.1 = false) F.

Lemma visible_lookup F k : isTmp k = false -> visible F !! k = F !! k.
Proof.
  intros Hk. unfold visible. destruct (F !! k) as [f|] eqn:E.
  - by apply map_lookup_filter_Some.
  - apply map_lookup_filter_None. by left.
Qed.

Lemma visible_insert_tmp F k f : isTmp k = true -> visible (<[k := f]> F) = visible F.
Proof.
  intros Hk. apply map_eq. intros i. destruct (isTmp i) eqn:Hi.
  - unfold visible. rewrite (proj2 (map_lookup_filter_None _ _ _)), (proj2 (map_lookup_filter_None _ _ _)); [done|..];
      right; cbn; intros; congruence.
  - rewrite !visible_lookup by done. rewrite lookup_insert_ne; [done|]. intros ->. congruence.
Qed.

Lemma visible_delete_tmp F k : isTmp k = true -> visible (delete k F) = visible F.
Proof.
  intros Hk. apply map_eq. intros i. destruct (isTmp i) eqn:Hi.
  - unfold visible. rewrite (proj2 (map_lookup_filter_None _ _ _)), (proj2 (map_lookup_filter_None _ _ _)); [done|..];
      right; cbn; intros; congruence.
  - rewrite !visible_lookup by done. rewrite lookup_delete_ne; [done|]. intros ->. congruence.
Qed.

Lemma visible_insert F k f : isTmp k = false -> visible (<[k := f]> F) = <[k := f]> (visible F).
Proof. intros Hk. unfold visible. by rewrite map_filter_insert_True. Qed.

Lemma visible_delete F k : visible (delete k F) = delete k (visible F).
Proof. unfold visible. by rewrite map_filter_delete. Qed.

Lemma hexEncode_ascii bs : forallb isASCII (hexEncode bs) = true /\ map lowerByte (hexEncode bs) = hexEncode bs.
Proof.
  assert (Hd : forall d, 0 <= d < 16 -> isASCII (digitChar d) = true /\ lowerByte (digitChar d) = digitChar d).
  { intros d Hd. pose proof (Forall_Z_range (fun d => isASCII (digitChar d)
      && Ascii.eqb (lowerByte (digitChar d)) (digitChar d)) 16 eq_refl d ltac:(lia)) as Hx.
    cbn beta in Hx. by rewrite andb_true_iff, Ascii.eqb_eq in Hx. }
  induction bs as [|b bs [IH1 IH2]]; [done|]. cbn [hexEncode forallb map].
  destruct (code_div16 b) as [H1 H2]. destruct (Hd _ H1) as [-> ->], (Hd _ H2) as [-> ->].
  by rewrite IH1, IH2.
Qed.

Section AtomicWrite.
Context {W handle : Type} `{FileSystem W handle} `{!FileLaws}.

Lemma key_app p q : key (p ++ q) = key p ++ key q.
Proof. apply map_app. Qed.

Lemma isTmp_key_random d bs : length bs = 32%nat -> isTmp (key (d ++ [hexEncode bs ++ str ".tmp"])) = true.
Proof.
  intros Hl. rewrite key_app. unfold isTmp. cbn [key map]. rewrite last_snoc.
  destruct (hexEncode_ascii bs) as [Ha Hb].
  rewrite fl_fold by (rewrite forallb_app, Ha; done). rewrite map_app, Hb.
  unfold isTmpName. rewrite length_app, length_hexEncode, Hl. cbn [Nat.mul Nat.add length]. cbn [andb Nat.eqb].
  apply HasSuffix_spec. by exists (hexEncode bs).
Qed.

(** The visible files and the open handles. *)
Definition sees (V : gmap path gofile) (O : gmap handle (path * bool)) (w : W) : Prop :=
  visible (fs_files w) = V /\ fs_open w = O.

Lemma sees_view V O w : sees V O w <-> exists F, visible F = V /\ view F O w.
Proof. unfold sees, view. naive_solver. Qed.

Lemma sees_triple {A} V O (m : M W A) Q E :
  (forall F, visible F = V -> triple (view F O) m Q E) -> triple (sees V O) m Q E.
Proof. intros Ht w r w' (F & HV & Hv)%sees_view Em. by apply (Ht F HV w). Qed.

(** While the temporary file is open: [b] says whether it is marked. *)
Definition writing V O h k (d : option gostring) (b : bool) (w : W) : Prop :=
  exists F f, view F (<[h := (k, b)]> O) w /\ visible F = V /\ F !! k = Some f
    /\ forall c, d = Some c -> f_data f = c.

Section Writing.
Context (V : gmap path gofile) (O : gmap handle (path * bool)) (h : handle) (k : path).
Context (Htmp : isTmp k = true) (Hfresh : O !! h = None).

Definition failed (w : W) : Prop := exists F b, view F (<[h := (k, b)]> O) w /\ visible F = V.

Lemma orDelete_spec {A} P (m : M W A) Q :
  triple P m Q failed -> triple P (orDelete h m) Q failed.
Proof.
  intros Hm w r w' HP. unfold orDelete. destruct (m w) as [[a|e] w1] eqn:E.
  - intros [= <- <-]. exact (Hm _ _ _ HP E).
  - pose proof (Hm _ _ _ HP E) as (F & b & Hv & HV). cbn in Hv, HV.
    destruct (win_Dispose h w1) as [r2 w2] eqn:Ed. intros [= <- <-].
    pose proof (fl_Dispose F _ h k b (lookup_insert_eq O h (k, b)) w1 r2 w2 Hv Ed) as Hd.
    destruct r2; [|by exists F, b]. rewrite insert_insert_eq in Hd. by exists F, true.
Qed.

Lemma writing_failed d b w : writing V O h k d b w -> failed w.
Proof. intros (F & f & Hv & HV & _). by exists F, b. Qed.

Lemma triple_keeps {A} (m : M W A) d b :
  keeps m -> triple (writing V O h k d b) m (fun _ => writing V O h k d b) failed.
Proof.
  intros Hm w r w' (F & f & Hv & Hrest) E. pose proof (Hm F _ w r w' Hv E) as Hv'.
  destruct r; [by exists F, f|]. destruct Hrest as [HV _]. by exists F, b.
Qed.

Lemma win_Write_spec c :
  triple (writing V O h k None false) (win_Write h c)
    (fun n w => n = Z.of_nat (length c) -> writing V O h k (Some c) false w) failed
  /\ triple (writing V O h k None false) (win_Write h c)
    (fun n => writing V O h k None false) failed.
Proof.
  split; intros w r w' (F & f & Hv & HV & Hf & _) E;
    pose proof (fl_Write F _ h k f c (lookup_insert_eq O h (k, false)) Hf w r w' Hv E) as Hw;
    destruct r as [n|e].
  - intros ->. rewrite Nat2Z.id, firstn_all in Hw. eexists _, _. split; [exact Hw|].
    rewrite visible_insert_tmp, lookup_insert_eq by done. split; [done|]. split; [done|]. by intros c' [= <-].
  - destruct Hw as (d & Hw). eexists _, false. split; [exact Hw|]. by rewrite visible_insert_tmp.
  - eexists _, _. split; [exact Hw|]. rewrite visible_insert_tmp, lookup_insert_eq by done. done.
  - destruct Hw as (d & Hw). eexists _, false. split; [exact Hw|]. by rewrite visible_insert_tmp.
Qed.

(** On success the destination holds the contents and nothing else changed; on
    failure nothing changed. *)
Lemma writeAndRename_spec d n d16 overwrite contents :
  isTmp (key (d ++ [n])) = false ->
  triple (writing V O h k None false) (writeAndRename h (d ++ [n]) d16 overwrite contents)
    (fun _ w => (overwrite = false -> V !! key (d ++ [n]) = None)
       /\ exists F, view F (<[h := (key (d ++ [n]), false)]> O) w
            /\ visible F = <[key (d ++ [n]) := mkFile n contents]> V)
    failed.
Proof.
  intros Hd. unfold writeAndRename.
  eapply (triple_bind _ _ _ (fun m w => writing V O h k None false w
    /\ (m = Z.of_nat (length contents) -> writing V O h k (Some contents) false w))).
  { apply orDelete_spec. destruct (win_Write_spec contents) as [T1 T2].
    intros w r w' Hw E. specialize (T1 _ _ _ Hw E). specialize (T2 _ _ _ Hw E). by destruct r. }
  intros m. eapply (triple_bind _ _ _ (fun _ => writing V O h k (Some contents) false)).
  { apply orDelete_spec. destruct (Z.eqb_spec m (Z.of_nat (length contents))).
    - apply triple_ret. naive_solver.
    - apply triple_fail. intros w [Hw _]. by eapply writing_failed. }
  intros _. eapply (triple_bind _ _ _ (fun _ => writing V O h k (Some contents) false)).
  { apply orDelete_spec, triple_keeps, fl_FlushFileBuffers. }
  intros _. eapply (triple_bind _ _ _ (fun _ => writing V O h k (Some contents) false)).
  { apply orDelete_spec. destruct (MAX_PATH <? _); [apply triple_fail|apply triple_ret; done].
    intros w Hw. by eapply writing_failed. }
  intros _. apply orDelete_spec. intros w r w' (F & f & Hv & HV & Hf & Hc) E.
  pose proof (fl_Rename F _ h k f d n overwrite (lookup_insert_eq O h (k, false)) Hf w r w' Hv E) as Hr.
  destruct r; [|by exists F, false]. destruct Hr as [Hno Hv'].
  rewrite insert_insert_eq, (Hc contents eq_refl) in Hv'. split.
  - intros Ho. rewrite <- HV, visible_lookup by done. auto.
  - eexists. split; [exact Hv'|]. rewrite visible_insert by done.
    by rewrite visible_delete_tmp, HV.
Qed.
End Writing.

(** writeFile is atomic: the destination gets the contents, or no file but
    temporary ones has changed; the handle is closed. *)
Lemma writeFile_spec V O d n overwrite contents :
  isTmp (key (d ++ [n])) = false ->
  triple (sees V O) (writeFile d n overwrite contents)
    (fun _ w => (overwrite = false -> V !! key (d ++ [n]) = None)
       /\ sees (<[key (d ++ [n]) := mkFile n contents]> V) O w)
    (sees V O).
Proof.
  intros Hd. apply sees_triple. intros F HV. unfold writeFile.
  eapply (triple_bind _ _ _ (fun _ => view F O)).
  { intros w r w' Hv [= <- <-]. destruct (UTF16FromString _); [done|]. apply sees_view. eauto. }
  intros d16. eapply (triple_bind _ _ _ (fun tmp w => view F O w /\ isTmp (key (d ++ [tmp])) = true)).
  { unfold randomFileName. eapply triple_bind; [eapply triple_conseq; [apply fl_rand_Read|done|intros a u Hu; exact Hu|]|].
    - intros u Hu. apply sees_view. eauto.
    - intros bs. apply triple_ret. intros u [Hu Hl]. split; [done|]. by apply isTmp_key_random. }
  intros tmp. eapply (triple_bind _ _ _ (fun _ w => view F O w /\ isTmp (key (d ++ [tmp])) = true)).
  { intros u r w' Hv [= <- <-]. destruct (UTF16FromString _); [done|]. apply sees_view. naive_solver. }
  intros _. eapply (triple_bind _ _ _ (fun h w => isTmp (key (d ++ [tmp])) = true /\ O !! h = None
    /\ writing V O h (key (d ++ [tmp])) None false w)).
  { intros w r w' [Hv Ht] E. pose proof (fl_CreateFile F O d tmp w r w' Hv E) as Hc.
    destruct r as [h|]; [|apply sees_view; eauto]. destruct Hc as (Hh & f & Hc).
    split; [done|]. split; [done|]. exists (<[key (d ++ [tmp]) := f]> F), f. split; [done|].
    rewrite visible_insert_tmp, lookup_insert_eq by done. done. }
  intros h w r w' (Ht & Hh & Hw). unfold withClose.
  destruct (writeAndRename _ _ _ _ _ w) as [r1 w1] eqn:E1.
  destruct (win_CloseHandle h w1) as [r2 w2] eqn:E2. intros [= <- <-].
  pose proof (writeAndRename_spec V O h _ Ht d n d16 overwrite contents Hd w r1 w1 Hw E1) as Hr.
  destruct r1 as [u|e].
  - destruct Hr as (Hno & F' & Hv' & HV'). split; [done|]. apply sees_view. exists F'. split; [done|].
    pose proof (fl_CloseHandle F' _ h _ false w1 r2 w2 (lookup_insert_eq _ _ _) Hv' E2) as Hc.
    cbn in Hc. by rewrite delete_insert_id in Hc.
  - destruct Hr as (F' & b & Hv' & HV').
    pose proof (fl_CloseHandle F' _ h _ b w1 r2 w2 (lookup_insert_eq _ _ _) Hv' E2) as Hc.
    rewrite delete_insert_id in Hc by done. apply sees_view. eexists. split; [|exact Hc].
    destruct b; [by rewrite visible_delete_tmp|done].
Qed.
End AtomicWrite.
