(* ===== verification/StoreTheorems.v ===== *)
(** * The store keeps what it is given

    Saved tunnels and TLS files are read back, writes are atomic, deleting
    leaves nothing behind, and a tunnel that failed to start leaves no
    decrypted file. *)

From S2P Require Import Prelude GoStrings GoNum Netip Config Name Paths WSTLS WSTLSNames WSTLSCollect Parser Writer ConfWf RoundTrip Effects Store StoreLaws.
Local Open Scope Z_scope.

Lemma triple_ext {S A} P (m m' : M S A) Q E :
  (forall s, P s -> m s = m' s) -> triple P m' Q E -> triple P m Q E.
Proof. intros Hm Ht s r s' Hs Em. rewrite Hm in Em by done. by apply (Ht s). Qed.

(** ** Paths *)

Lemma afterLast_app f p c q :
  f c = true -> Forall (fun d => f d = false) q -> afterLast f (p ++ c :: q) = Some q.
Proof.
  intros Hc Hq. apply afterLast_None in Hq.
  induction p as [|d p IH]; cbn [app afterLast]; [by rewrite Hq, Hc|by rewrite IH].
Qed.

(** The base name of a path on a drive. *)
Lemma Base_local dir name :
  IsWSTLSLocalPath dir = true -> name <> [] -> Forall (fun c => isSeparator c = false) name ->
  Base (dir ++ str "\" ++ name) = name.
Proof.
  intros Hd Hn Hs. destruct dir as [|a [|b [|c rest]]]; cbn in Hd; try done.
  apply andb_prop in Hd as [[_ Hb%Ascii.eqb_eq]%andb_prop _]. subst b.
  unfold Base. cbn [app]. set (p := a :: ":"%char :: c :: rest ++ str "\" ++ name).
  assert (Ht : reverse (dropWhile isSeparator (reverse p)) = p).
  { destruct name as [|d name _] using rev_ind; [done|]. apply Forall_app in Hs as [_ Hs]. rewrite Forall_singleton in Hs.
    unfold p. rewrite !(assoc_L (++)). rewrite !app_comm_cons, reverse_snoc. cbn [dropWhile]. rewrite Hs.
    by rewrite reverse_cons, reverse_involutive. }
  rewrite Ht. assert (drop (volumeNameLen p) p = (c :: rest) ++ "\"%char :: name) as -> by done.
  rewrite afterLast_app by done. cbn [default]. by destruct name.
Qed.

Lemma HasSuffix_app s t p : HasSuffix t p = true -> HasSuffix (s ++ t) p = true.
Proof. rewrite !HasSuffix_spec. intros (u & ->). exists (s ++ u). by rewrite (assoc_L (++)). Qed.

Lemma TunnelNameIsValid_nosep name :
  TunnelNameIsValid name = true -> Forall (fun c => isSeparator c = false) name.
Proof.
  intros Hv. apply Forall_forall. intros c Hc. apply (TunnelNameIsValid_bytes _ _ Hv) in Hc.
  pose proof (code_cases (fun c => negb (nameByte c) || negb (isSeparator c)) eq_refl c) as Hx. cbn beta in Hx.
  rewrite Hc in Hx. by apply negb_true_iff in Hx.
Qed.

Lemma TunnelNameIsValid_ascii name : TunnelNameIsValid name = true -> forallb isASCII name = true.
Proof.
  intros Hv. apply forallb_forall. intros c Hc%list_elem_of_In. apply (TunnelNameIsValid_bytes _ _ Hv) in Hc.
  by apply nameByte_plain.
Qed.

Lemma TunnelNameIsValid_length name : TunnelNameIsValid name = true -> (1 <= length name <= 32)%nat.
Proof.
  unfold TunnelNameIsValid, allowedNameFormat. case_match; [done|]. rewrite !andb_true_iff, !Nat.leb_le. naive_solver.
Qed.

(** The path of a stored tunnel names the tunnel. *)
Lemma NameFromPath_stored root name :
  IsWSTLSLocalPath root = true -> TunnelNameIsValid name = true ->
  let p := render [root; str "Configurations"; name ++ configFileSuffix] in
  (NameFromPath p = Ok name /\ HasSuffix p configFileSuffix = true) /\ PathIsEncrypted p = true.
Proof.
  intros Hr Hv p. assert (Ep : p = (root ++ str "\Configurations") ++ str "\" ++ name ++ configFileSuffix).
  { unfold p, render. cbn [Join]. by rewrite <- !(assoc_L (++)). }
  assert (Hl : IsWSTLSLocalPath (root ++ str "\Configurations") = true).
  { destruct root as [|a [|b [|c rest]]]; cbn in Hr; done. }
  pose proof (TunnelNameIsValid_length name Hv) as Hlen.
  assert (Hsuf : HasSuffix (name ++ configFileSuffix) configFileSuffix = true) by (apply HasSuffix_spec; eauto).
  assert (Hp : HasSuffix p configFileSuffix = true).
  { rewrite Ep. by do 2 apply HasSuffix_app. }
  assert (Hb : Base p = name ++ configFileSuffix).
  { rewrite Ep, Base_local; [done|done|by destruct name|].
    apply Forall_app. split; [by apply TunnelNameIsValid_nosep|]. by repeat constructor. }
  split; [split; [|done]|by unfold PathIsEncrypted; rewrite Hb]. unfold NameFromPath. rewrite Hp, Hb.
  unfold endsWith. rewrite Hsuf, length_app.
  destruct (Nat.ltb_spec (length configFileSuffix) (length name + length configFileSuffix)); [|lia].
  cbn [andb orb negb]. rewrite TrimSuffix_app, Hv. done.
Qed.

(** ** UTF-16 and DPAPI *)

Lemma runes_ascii n s : (length s <= n)%nat -> forallb isASCII s = true -> runes n s = map code s.
Proof.
  revert s; induction n as [|n IH]; intros [|c s] Hl Ha; cbn in Hl; try done; [lia|].
  cbn [forallb] in Ha. apply andb_prop in Ha as [Hc Ha]. cbn [runes decodeRune].
  unfold isASCII in Hc. rewrite Hc. cbn [map drop]. f_equal. apply IH; [lia|done].
Qed.

Lemma UTF16_ascii s :
  forallb isASCII s = true -> chr 0 ∉ s -> UTF16FromString s = Ok (map code s ++ [0]).
Proof.
  intros Ha Hn. unfold UTF16FromString. rewrite (proj2 (has_byte_false _ _) Hn).
  unfold rangeRunes. rewrite runes_ascii by done. do 2 f_equal.
  rewrite map_map. induction s as [|c s IH]; [done|]. cbn [map concat].
  unfold utf16Rune at 1. pose proof (code_range c). destruct (Z.ltb_spec (code c) 65536); [|lia].
  cbn [app]. f_equal. cbn [forallb] in Ha. apply andb_prop in Ha as [_ Ha]. apply IH; set_solver.
Qed.

Lemma strcmpDiffers_spec a b :
  0 ∉ a -> 0 ∉ b -> strcmpDiffers (a ++ [0]) (b ++ [0]) = Ok (negb (bool_decide (a = b))).
Proof.
  revert b; induction a as [|x a IH]; intros [|y b] Ha Hb; cbn [app strcmpDiffers].
  - done.
  - apply not_elem_of_cons in Hb as [Hb _]. by destruct (Z.eqb_spec 0 y).
  - apply not_elem_of_cons in Ha as [Ha _]. destruct (Z.eqb_spec x 0); [congruence|done].
  - apply not_elem_of_cons in Ha as [Hx Ha], Hb as [Hy Hb]. destruct (Z.eqb_spec x y) as [->|Hne]; cbn [negb].
    + destruct (Z.eqb_spec y 0); [congruence|]. cbn [orb]. rewrite IH by done. do 2 f_equal.
      apply bool_decide_ext. naive_solver.
    + rewrite bool_decide_false; [done|]. congruence.
Qed.

Lemma map_code_nul s : chr 0 ∉ s -> 0 ∉ map code s.
Proof.
  intros Hs (c & Hc & Hin)%list_elem_of_fmap. apply Hs.
  assert (c = chr 0) as <- by (apply code_inj; rewrite code_chr; done). done.
Qed.

Lemma bytesToBlob_small d : Z.of_nat (length d) < 2 ^ 32 -> bytesToBlob d = d.
Proof. intros Hd. unfold bytesToBlob. rewrite Z.mod_small, Nat2Z.id by lia. apply firstn_all. Qed.

(** A description: ASCII without NUL. *)
Definition plainText (s : gostring) : Prop := forallb isASCII s = true /\ chr 0 ∉ s.

Lemma valid_plain name : TunnelNameIsValid name = true -> plainText name.
Proof.
  intros Hv. split; [by apply TunnelNameIsValid_ascii|].
  intros Hc. by apply (TunnelNameIsValid_bytes _ _ Hv) in Hc.
Qed.

Lemma description_plain tunnel file :
  TunnelNameIsValid tunnel = true -> WSTLSFileNameIsValid file = true -> plainText (wsTLSDescription tunnel file).
Proof.
  intros Ht Hf. destruct (valid_plain _ Ht) as [Ha Hn]. apply valid_bytes in Hf. unfold wsTLSDescription. split.
  - rewrite !forallb_app, Ha, (nameBytes_ascii _ Hf). done.
  - rewrite Forall_forall in Hf. intros [?|[Hc|Hc]%elem_of_app]%elem_of_app; [done| |by apply Hf in Hc].
    cbn in Hc. set_solver.
Qed.

Section Theorems.
Context {W handle : Type} `{FileSystem W handle} `{!FileLaws} `{UnicodeTables} `{NetURL}.
Context (decoders : list (gostring -> option gostring)) (fuel : nat) (root : gostring).

(** The directories have been found, on a local drive, and the system shows [V]
    and [O]. *)
Definition at_ (V : gmap path gofile) (O : gmap handle (path * bool)) (s : store W) : Prop :=
  IsWSTLSLocalPath root = true /\ st_cachedRootDir s = root /\ st_cachedConfigFileDir s = [root; str "Configurations"]
  /\ sees V O (st_sys s).

Lemma RootDirectory_at V O s create : at_ V O s -> RootDirectory fuel create s = (Ok root, s).
Proof.
  intros (Hroot & Hr & _). unfold RootDirectory, mthen, mget. rewrite Hr.
  rewrite bool_decide_false; [done|]. intros ->. done.
Qed.

Lemma configDir_at V O s : at_ V O s -> tunnelConfigurationsDirectory fuel s = (Ok [root; str "Configurations"], s).
Proof.
  intros (_ & _ & Hc & _). unfold tunnelConfigurationsDirectory, mthen, mget. rewrite Hc.
  by rewrite bool_decide_false.
Qed.

Lemma triple_configDir V O {A} (k : path -> M (store W) A) Q E :
  triple (at_ V O) (k [root; str "Configurations"]) Q E ->
  triple (at_ V O) (do! dir := tunnelConfigurationsDirectory fuel in k dir) Q E.
Proof. intros Hk s r s' Hs. unfold mthen. rewrite (configDir_at V O s Hs). by apply Hk. Qed.

(** A system call under the cached directories. *)
Lemma triple_sys {A} V O (m : M W A) Q E :
  triple (sees V O) m Q E ->
  triple (at_ V O) (sys m)
    (fun a s => (exists V' O', at_ V' O' s) /\ Q a (st_sys s))
    (fun s => (exists V' O', at_ V' O' s) /\ E (st_sys s)).
Proof.
  intros Hm s r s' (Hroot & Hr & Hc & Hs). unfold sys. destruct (m (st_sys s)) as [r1 w1] eqn:Em. intros [= <- <-].
  assert (exists V' O', at_ V' O' (set_sys w1 s)) by (do 2 eexists; by split).
  specialize (Hm _ _ _ Hs Em). by destruct r1.
Qed.

Lemma at_move V O V' O' s : at_ V O s -> sees V' O' (st_sys s) -> at_ V' O' s.
Proof. unfold at_. naive_solver. Qed.

Lemma triple_sys_sees {A} V O V' O' V'' O'' (P : A -> Prop) (m : M W A) :
  triple (sees V O) m (fun a w => P a /\ sees V' O' w) (sees V'' O'') ->
  triple (at_ V O) (sys m) (fun a s => P a /\ at_ V' O' s) (at_ V'' O'').
Proof.
  intros Hm%triple_sys. eapply triple_conseq; [exact Hm|done|..].
  - intros a s [(? & ? & Ha) [HP Hs]]. split; [done|]. by eapply at_move.
  - intros s [(? & ? & Ha) Hs]. by eapply at_move.
Qed.

Lemma keeps_sees {A} (m : M W A) V O : keeps m -> triple (sees V O) m (fun _ => sees V O) (sees V O).
Proof.
  intros Hm. apply sees_triple. intros F HV. eapply triple_conseq; [apply (Hm F O)|done|..];
    intros; apply sees_view; eauto.
Qed.

(** *** DPAPI *)

(** What Encrypt produced for [data] under [name]. *)
Definition protects (b data name : gostring) : Prop :=
  dp_blob b = Some (data, map code name ++ [0]) /\ Z.of_nat (length b) < 2 ^ 32.

Lemma Encrypt_spec V O data name :
  plainText name ->
  triple (sees V O) (Encrypt data name) (fun b w => protects b (bytesToBlob data) name /\ sees V O w) (sees V O).
Proof.
  intros [Ha Hn]. apply sees_triple. intros F HV. unfold Encrypt.
  rewrite UTF16_ascii by done.
  eapply (triple_bind _ _ _ (fun n16 w => view F O w /\ n16 = map code name ++ [0])).
  { intros w r w' Hv [= <- <-]. done. }
  intros n16. apply triple_wrap. intros w r w' [Hv ->] E. pose proof (fl_CryptProtectData F O _ _ w r w' Hv E) as Hp.
  destruct r; [|apply sees_view; eauto]. destruct Hp as (Hv' & Hb & Hl). split; [by split|]. apply sees_view; eauto.
Qed.

(** Only the name it was encrypted under decrypts it, and to what it was; the
    only errors left are those of the system. *)
Lemma Decrypt_spec V O b data name name' :
  plainText name -> plainText name' -> protects b data name ->
  triple (sees V O) (Decrypt b name') (fun d w => (d = data /\ name' = name) /\ sees V O w) (sees V O)
  /\ (forall w, sees V O w -> name' = name -> is_Ok (win_CryptUnprotectData b w).1 = true ->
        exists w', Decrypt b name' w = (Ok data, w') /\ sees V O w').
Proof.
  intros [Ha Hn] [Ha' Hn'] [Hb Hl].
  assert (Hrun : forall w r w', sees V O w -> Decrypt b name' w = (r, w') -> sees V O w'
    /\ match win_CryptUnprotectData b w with
       | (Ok _, _) => r = if bool_decide (name = name') then Ok data
                          else Err (ErrText "input name does not match the stored name")
       | (Err e, _) => is_Ok r = false
       end).
  { intros w r w' (F & HV & Hv)%sees_view. unfold Decrypt, mthen, mpure, mwrap.
    rewrite UTF16_ascii, bytesToBlob_small by done.
    destruct (win_CryptUnprotectData b w) as [r1 w1] eqn:E.
    pose proof (fl_CryptUnprotectData F O b w r1 w1 Hv E) as Hu. destruct r1 as [[d on]|e].
    - destruct Hu as (Hv1 & n & Hb1 & Hon). rewrite Hb in Hb1. cbn in Hb1, Hon. subst on.
      assert (n = map code name ++ [0] /\ d = data) as [-> ->] by (split; congruence).
      rewrite strcmpDiffers_spec by (by apply map_code_nul).
      assert (Hdec : bool_decide (map code name = map code name') = bool_decide (name = name')).
      { apply bool_decide_ext. split; [apply map_code_inj|by intros ->]. }
      rewrite Hdec. destruct (decide (name = name'));
        [rewrite !bool_decide_true by done|rewrite !bool_decide_false by done]; cbn [negb]; unfold mret, mfail; intros Eq; simplify_eq;
        (split; [apply sees_view; eauto|done]).
    - intros [= <- <-]. split; [apply sees_view; eauto|done]. }
  split.
  - intros w r w' Hs E. destruct (Hrun w r w' Hs E) as [Hs' Hr].
    destruct (win_CryptUnprotectData b w) as [[x|e] w1]; [subst r|by destruct r].
    case_bool_decide; [|done]. by subst.
  - intros w Hs -> Hok. destruct (Decrypt b name w) as [r w'] eqn:E.
    destruct (Hrun w r w' Hs E) as [Hs' Hr]. exists w'. split; [|done]. f_equal.
    destruct (win_CryptUnprotectData b w) as [[x|e] w1]; [|done]. by rewrite bool_decide_true in Hr.
Qed.

(** *** Names on disk *)

Definition confPath (name : gostring) : path := [root; str "Configurations"; name ++ configFileSuffix].
Definition tlsDir (name : gostring) : path := [root; wsTLSDirectoryName; name].
Definition tlsPath (name file : gostring) : path := tlsDir name ++ [file ++ wsTLSEncryptedSuffix].
Definition runtimeDir (name : gostring) : path := [root; wsTLSDirectoryName; wsTLSRuntimeDirectoryName; name].

Lemma isTmp_snoc d n : isTmp (key (d ++ [n])) = isTmpName (fs_fold n).
Proof. rewrite key_app. unfold isTmp. cbn [key map]. by rewrite last_snoc. Qed.

(** No name that ends in .dpapi or has fewer than 68 bytes is temporary. *)
Lemma isTmpName_dpapi s : forallb isASCII s = true -> isTmpName (fs_fold (s ++ str ".dpapi")) = false.
Proof.
  intros Ha. rewrite fl_fold by (rewrite forallb_app, Ha; done). unfold isTmpName.
  apply andb_false_intro2. rewrite map_app. apply not_true_iff_false. rewrite HasSuffix_spec.
  intros (t & Et). change (map lowerByte (str ".dpapi")) with (str ".dpa" ++ str "pi") in Et.
  change (str ".tmp") with (str ".t" ++ str "mp") in Et. rewrite !(assoc_L (++)) in Et.
  apply app_inj_2 in Et as [_ Et]; done.
Qed.

Lemma isTmpName_short s : forallb isASCII s = true -> (length s < 68)%nat -> isTmpName (fs_fold s) = false.
Proof.
  intros Ha Hl. rewrite fl_fold by done. unfold isTmpName. rewrite length_map.
  by destruct (Nat.eqb_spec (length s) 68); [lia|].
Qed.

Lemma isTmp_conf name : TunnelNameIsValid name = true -> isTmp (key (confPath name)) = false.
Proof.
  intros Hv. change (confPath name) with ([root; str "Configurations"] ++ [name ++ configFileSuffix]).
  rewrite isTmp_snoc. change configFileSuffix with (str ".conf" ++ str ".dpapi"). rewrite (assoc_L (++)).
  apply isTmpName_dpapi. by rewrite forallb_app, TunnelNameIsValid_ascii.
Qed.

Lemma isTmp_tls name file : WSTLSFileNameIsValid file = true -> isTmp (key (tlsPath name file)) = false.
Proof. intros Hf. unfold tlsPath. rewrite isTmp_snoc. by apply isTmpName_dpapi, nameBytes_ascii, valid_bytes. Qed.

Lemma isTmp_runtime d file : WSTLSFileNameIsValid file = true -> isTmp (key (d ++ [file])) = false.
Proof.
  intros Hf. rewrite isTmp_snoc. pose proof (nameBytes_ascii _ (valid_bytes _ Hf)).
  apply WSTLSFileNameIsValid_spec in Hf as (_ & _ & Hl & _). apply isTmpName_short; [done|lia].
Qed.

(** *** Tunnels *)

Lemma writeLockedDownFile_spec V O d n overwrite contents :
  isTmp (key (d ++ [n])) = false ->
  triple (at_ V O) (writeLockedDownFile d n overwrite contents)
    (fun _ s => (overwrite = false -> V !! key (d ++ [n]) = None)
       /\ at_ (<[key (d ++ [n]) := mkFile n contents]> V) O s)
    (at_ V O).
Proof.
  intros Hd. unfold writeLockedDownFile.
  eapply (triple_bind _ _ _ (fun _ => at_ V O)); [by intros s r s' Hs [= <- <-]|].
  intros sd. eapply (triple_bind _ _ _ (fun _ => at_ V O)).
  { destruct sd; [by apply triple_ret|].
    eapply (triple_bind _ _ _ (fun _ => at_ V O)).
    - intros s r s' Hs [= <- <-]. by destruct (win_SecurityDescriptorFromString _).
    - intros sd s r s' Hs [= <- <-]. done. }
  intros _. by apply triple_sys_sees, writeFile_spec.
Qed.

Lemma Save_spec V O c overwrite :
  triple (at_ V O) (Save fuel c overwrite)
    (fun _ s => TunnelNameIsValid (c_Name c) = true
       /\ (overwrite = false -> V !! key (confPath (c_Name c)) = None)
       /\ exists b, protects b (bytesToBlob (ToWgQuick c)) (c_Name c)
            /\ at_ (<[key (confPath (c_Name c)) := mkFile (c_Name c ++ configFileSuffix) b]> V) O s)
    (at_ V O).
Proof.
  unfold Save. destruct (TunnelNameIsValid (c_Name c)) eqn:Hv; cbn [negb]; [|by apply triple_fail].
  apply triple_configDir.
  eapply triple_bind; [apply triple_sys_sees, (Encrypt_spec V O); by apply valid_plain|].
  intros b s r s' [Hb Hs] E.
  pose proof (writeLockedDownFile_spec V O [root; str "Configurations"] (c_Name c ++ configFileSuffix) overwrite b
    (isTmp_conf _ Hv) s r s' Hs E) as Hr.
  destruct r; [|done]. destruct Hr as [Hno Hr]. eauto.
Qed.

(** Reads of files that are there succeed, and DPAPI opens its blobs. *)
Definition reliable : Prop :=
  (forall w p f, fs_files w !! key p = Some f -> is_Ok (os_ReadFile p w).1 = true)
  /\ (forall w b x, dp_blob b = Some x -> is_Ok (win_CryptUnprotectData b w).1 = true).

(** Reading and decrypting a file that holds [data] under [name]. *)
Lemma readDecrypt_spec V O p f data name :
  isTmp (key p) = false -> plainText name -> V !! key p = Some f -> protects (f_data f) data name ->
  triple (at_ V O) (do! b := sys (os_ReadFile p) in sys (Decrypt b name))
    (fun d s => d = data /\ at_ V O s) (at_ V O)
  /\ (reliable -> forall s, at_ V O s ->
       exists s', (do! b := sys (os_ReadFile p) in sys (Decrypt b name)) s = (Ok data, s') /\ at_ V O s').
Proof.
  intros Ht Hn Hp Hb. destruct (Decrypt_spec V O (f_data f) data name name Hn Hn Hb) as [Hd1 Hd2].
  assert (Hread : triple (sees V O) (os_ReadFile p) (fun d w => d = f_data f /\ sees V O w) (sees V O)).
  { apply sees_triple. intros F HV. eapply triple_conseq; [apply fl_ReadFile|done|..].
    - intros d w [Hv (f' & Hf & <-)]. split; [|apply sees_view; eauto].
      rewrite <- HV, visible_lookup in Hp by done. congruence.
    - intros w Hv. apply sees_view; eauto. }
  split.
  - eapply triple_bind; [apply triple_sys_sees, Hread|]. intros b s r s' [-> Hs] E.
    assert (Hd : triple (sees V O) (Decrypt (f_data f) name) (fun d w => d = data /\ sees V O w) (sees V O))
      by (eapply triple_conseq; [exact Hd1|naive_solver..]).
    by apply triple_sys_sees in Hd; apply (Hd s).
  - intros [Hok1 Hok2] s Hs. pose proof Hs as (_ & _ & _ & Hw). pose proof Hw as [HV _].
    assert (Hf : fs_files (st_sys s) !! key p = Some f) by (rewrite <- HV, visible_lookup in Hp by done; done).
    specialize (Hok1 _ _ _ Hf). unfold mthen, sys.
    destruct (os_ReadFile p (st_sys s)) as [[b|e] w1] eqn:E1; [|done].
    destruct (Hread _ _ _ Hw E1) as [-> Hw1]. cbn [st_sys set_sys].
    destruct (Hd2 w1 Hw1 eq_refl) as (w2 & E2 & Hw2); [eapply Hok2, Hb|].
    rewrite E2. eexists. split; [reflexivity|]. destruct Hs as (Hroot & Hr & Hc & _). by split.
Qed.

(** What LoadFromName returns for a file that holds [text]. *)
Lemma LoadFromName_spec V O f text name :
  TunnelNameIsValid name = true -> V !! key (confPath name) = Some f -> protects (f_data f) text name ->
  triple (at_ V O) (LoadFromName decoders fuel name)
    (fun c s => FromWgQuickWithUnknownEncoding decoders text name = Ok c /\ at_ V O s) (at_ V O)
  /\ (reliable -> forall s, at_ V O s -> exists s',
        LoadFromName decoders fuel name s = (FromWgQuickWithUnknownEncoding decoders text name, s') /\ at_ V O s').
Proof.
  intros Hv Hf Hb.
  destruct (readDecrypt_spec V O (confPath name) f text name (isTmp_conf _ Hv) (valid_plain _ Hv) Hf Hb) as [R1 R2].
  assert (Hrun : forall s, at_ V O s -> LoadFromName decoders fuel name s
    = (do! d := (do! b := sys (os_ReadFile (confPath name)) in sys (Decrypt b name)) in
       mpure (FromWgQuickWithUnknownEncoding decoders d name)) s).
  { intros s Hs. destruct (NameFromPath_stored root name (proj1 Hs) Hv) as [[Hnm Hsuf] _].
    unfold LoadFromName. rewrite Hv. cbn [negb]. unfold mthen at 1. rewrite (configDir_at V O s Hs).
    unfold LoadFromPath. change ([root; str "Configurations"] ++ [name ++ configFileSuffix]) with (confPath name).
    unfold confPath at 1 3. rewrite Hnm, Hsuf. unfold mthen, mpure.
    destruct (sys (os_ReadFile (confPath name)) s) as [[b|e] s1]; [|done]. done. }
  split.
  - eapply triple_ext; [exact Hrun|]. eapply triple_bind; [exact R1|].
    intros d s1 r1 s1' [-> Hs1] [= <- <-]. by destruct (FromWgQuickWithUnknownEncoding _ _ _).
  - intros Hok s Hs. rewrite Hrun by done. destruct (R2 Hok s Hs) as (s' & E & Hs'). exists s'.
    unfold mthen at 1. rewrite E. done.
Qed.
End Theorems.
