(* ===== verification/StoreTLS.v ===== *)
(** * The TLS files of a tunnel in the store *)

From S2P Require Import Prelude GoStrings GoNum Netip Config Name Paths WSTLS WSTLSNames WSTLSCollect WSTLSTheorems Parser Writer ConfWf RoundTrip Effects Store StoreLaws StoreTheorems.
Local Open Scope Z_scope.

Section TLS.
Context {W handle : Type} `{FileSystem W handle} `{!FileLaws} `{UnicodeTables} `{NetURL}.
Context (decoders : list (gostring -> option gostring)) (fuel : nat) (root : gostring).

Abbreviation at_ := (at_ root).
Abbreviation tlsDir := (tlsDir root).
Abbreviation tlsPath := (tlsPath root).
Abbreviation runtimeDir := (runtimeDir root).
Abbreviation confPath := (confPath root).

(** [k] is [p] or below it. *)
Definition below (p : path) (k : path) : Prop := key p `prefix_of` k.

#[global] Instance below_dec p k : Decision (below p k).
Proof. unfold below. apply _. Defined.

(** Removing a directory, and what is left of the visible files. *)
Definition without (p : path) (V : gmap path gofile) : gmap path gofile :=
  filter (fun kf => ~ below p kf.1) V.

Lemma without_lookup p V k : ~ below p k -> without p V !! k = V !! k.
Proof.
  intros Hk. unfold without. destruct (V !! k) as [f|] eqn:E.
  - by apply map_lookup_filter_Some.
  - apply map_lookup_filter_None. by left.
Qed.

Lemma without_below p V k : below p k -> without p V !! k = None.
Proof. intros Hk. apply map_lookup_filter_None. right. intros f _ Hn. by apply Hn. Qed.

(** The visible files agree outside [p]. *)
Definition agree (p : path) (V V' : gmap path gofile) : Prop := forall k, ~ below p k -> V' !! k = V !! k.

Lemma triple_dir V O create elem {A} (k : path -> M (store W) A) Q (E : store W -> Prop) :
  (forall s, at_ V O s -> E s) ->
  triple (at_ V O) (k (root :: wsTLSDirectoryName :: elem)) Q E ->
  triple (at_ V O) (do! dir := wsTLSDirectory fuel create elem in k dir) Q E.
Proof.
  intros HE Hk. unfold wsTLSDirectory. eapply (triple_bind _ _ _ (fun dir s => dir = root :: wsTLSDirectoryName :: elem /\ at_ V O s)).
  - eapply (triple_bind _ _ _ (fun r s => r = root /\ at_ V O s)).
    { intros s r s' Hs. rewrite (RootDirectory_at fuel root V O s true Hs). by intros [= <- <-]. }
    intros r. eapply (triple_bind _ _ _ (fun _ s => r = root /\ at_ V O s)).
    + destruct create; cbn [mwhen]; [|by apply triple_ret].
      intros s r' s' [-> Hs] Em.
      pose proof (triple_sys_sees root V O V O V O (fun _ => True) (os_MkdirAll (root :: wsTLSDirectoryName :: elem))) as Hm.
      specialize (Hm ltac:(eapply triple_conseq; [apply keeps_sees, fl_MkdirAll|done|intros; done|done]) s r' s' Hs Em).
      destruct r'; [by destruct Hm|by apply HE].
    + intros _. apply triple_ret. intros s [-> Hs]. done.
  - intros dir s r s' [-> Hs]. by apply Hk.
Qed.

Lemma RemoveAll_spec V O p :
  triple (at_ V O) (sys (os_RemoveAll p)) (fun _ s => at_ (without p V) O s)
    (fun s => exists V', agree p V V' /\ at_ V' O s).
Proof.
  assert (Hr : triple (sees V O) (os_RemoveAll p) (fun _ => sees (without p V) O)
                 (fun w => exists V', agree p V V' /\ sees V' O w)).
  { apply sees_triple. intros F HV. eapply triple_conseq; [apply fl_RemoveAll|done|..].
    - intros _ w [HF HO]. split; [|done]. rewrite HF, <- HV. unfold visible, without, below.
      apply map_filter_comm.
    - intros w (HO & _ & Hk). exists (visible (fs_files w)). split; [|by split].
      intros k Hb. rewrite <- HV. destruct (isTmp k) eqn:Ht; [|rewrite !visible_lookup by done; by apply Hk].
      unfold visible. rewrite !(proj2 (map_lookup_filter_None _ _ _)); [done|..]; right; cbn; intros; congruence. }
  eapply triple_conseq; [apply triple_sys, Hr|done|..].
  - intros _ s [(? & ? & Ha) Hs]. by eapply at_move.
  - intros s [(? & ? & Ha) (V' & Hag & Hs)]. exists V'. split; [done|]. by eapply at_move.
Qed.

(** *** Saving *)

(** The files of tunnel [t] in [V] are [files], each encrypted under its own
    description. *)
Definition tlsHolds (V : gmap path gofile) (t : gostring) (files : gmap gostring gostring) : Prop :=
  forall n d, files !! n = Some d -> exists b,
    V !! key (tlsPath t n) = Some (mkFile (n ++ wsTLSEncryptedSuffix) b)
    /\ protects b d (wsTLSDescription t n).

Definition tlsExactly (V : gmap path gofile) (t : gostring) (files : gmap gostring gostring) : Prop :=
  tlsHolds V t files
  /\ forall k f, V !! (key (tlsDir t) ++ [k]) = Some f ->
       exists n, n ∈ dom files /\ k = fs_fold (n ++ wsTLSEncryptedSuffix).

Lemma fold_dpapi n :
  WSTLSFileNameIsValid n = true ->
  fs_fold (n ++ wsTLSEncryptedSuffix) = ToLower n ++ wsTLSEncryptedSuffix.
Proof.
  intros Hv. pose proof (nameBytes_ascii _ (valid_bytes _ Hv)) as Ha.
  rewrite fl_fold by (rewrite forallb_app, Ha; done). by rewrite map_app, ToLower_ascii.
Qed.

Lemma key_tlsPath_inj t n n' :
  WSTLSFileNameIsValid n = true -> WSTLSFileNameIsValid n' = true ->
  key (tlsPath t n) = key (tlsPath t n') -> ToLower n = ToLower n'.
Proof.
  intros Hv Hv'. unfold StoreTheorems.tlsPath. rewrite !key_app. intros E%app_inv_head.
  cbn [key map] in E. rewrite !fold_dpapi in E by done. injection E as E. by apply app_inv_tail in E.
Qed.

Lemma key_tlsPath t n : key (tlsPath t n) = key (tlsDir t) ++ [fs_fold (n ++ wsTLSEncryptedSuffix)].
Proof. unfold StoreTheorems.tlsPath. by rewrite key_app. Qed.

Lemma below_tlsPath t n : below (tlsDir t) (key (tlsPath t n)).
Proof. rewrite key_tlsPath. by exists [fs_fold (n ++ wsTLSEncryptedSuffix)]. Qed.

Section SaveFiles.
Context (t : gostring) (Ht : TunnelNameIsValid t = true).

(** After writing [l]: its files are there, the rest is as it was. *)
Definition written (V : gmap path gofile) (l : list (gostring * gostring)) (V' : gmap path gofile) : Prop :=
  (forall n d, (n, d) ∈ l -> exists b, V' !! key (tlsPath t n) = Some (mkFile (n ++ wsTLSEncryptedSuffix) b)
      /\ protects b d (wsTLSDescription t n))
  /\ forall k, (forall n d, (n, d) ∈ l -> k <> key (tlsPath t n)) -> V' !! k = V !! k.

Definition fileFits (e : gostring * gostring) : Prop :=
  WSTLSFileNameIsValid e.1 = true /\ Z.of_nat (length e.2) < 2 ^ 32.

Lemma saveFile_spec V O n d :
  fileFits (n, d) ->
  triple (at_ V O) (saveFile (tlsDir t) t (n, d))
    (fun _ s => exists b, protects b d (wsTLSDescription t n)
       /\ at_ (<[key (tlsPath t n) := mkFile (n ++ wsTLSEncryptedSuffix) b]> V) O s)
    (at_ V O).
Proof.
  intros [Hv Hl]. cbn in Hv, Hl. unfold saveFile. rewrite Hv. cbn [negb].
  eapply triple_bind; [apply triple_sys_sees, Encrypt_spec; by apply description_plain|].
  rewrite bytesToBlob_small by done. intros b s r s' [Hb Hs] E.
  pose proof (writeLockedDownFile_spec root V O (tlsDir t) (n ++ wsTLSEncryptedSuffix) true b
    (isTmp_tls root t n Hv) s r s' Hs E) as Hr.
  destruct r; [|done]. destruct Hr as [_ Hr]. eauto.
Qed.

Lemma saveFiles_spec V O l :
  Forall fileFits l -> NoDup (map (fun e => ToLower e.1) l) ->
  triple (at_ V O) (mfor l (saveFile (tlsDir t) t))
    (fun _ s => exists V', written V l V' /\ at_ V' O s)
    (fun s => exists V', agree (tlsDir t) V V' /\ at_ V' O s).
Proof.
  revert V; induction l as [|[n d] l IH]; intros V Hf Hnd; cbn [mfor map] in *.
  - apply triple_ret. intros s Hs. exists V. split; [|done]. split; [set_solver|done].
  - apply Forall_cons in Hf as [Hn Hf]. apply NoDup_cons in Hnd as [Hnew Hnd].
    eapply triple_bind.
    { eapply triple_conseq; [apply saveFile_spec, Hn|done|intros a s Hs; exact Hs|].
      intros s Hs. exists V. split; [|done]. by intros k. }
    intros u0 s r s' (b & Hb & Hs) E.
    pose proof (IH _ Hf Hnd s r s' Hs E) as Hr. destruct r as [u|e].
    + destruct Hr as (V' & [H1' H2'] & Hs'). exists V'. split; [|done]. split.
      * intros m x [[= -> ->]|Hin]%elem_of_cons; [|by apply H1'].
        exists b. split; [|done]. rewrite H2', lookup_insert_eq; [done|].
        intros m' x' Hin Ek. apply Hnew. apply key_tlsPath_inj in Ek; [|apply Hn|].
        -- cbn [fst]. rewrite Ek. apply (list_elem_of_fmap_2 (fun e : gostring * gostring => ToLower e.1) l (m', x') Hin).
        -- rewrite Forall_forall in Hf. by apply (Hf (m', x')).
      * intros k Hk. rewrite H2' by set_solver. rewrite lookup_insert_ne; [done|].
        intros <-. apply (Hk n d); set_solver.
    + destruct Hr as (V' & Hag & Hs'). exists V'. split; [|done]. intros k Hk. rewrite (Hag k Hk).
      rewrite lookup_insert_ne; [done|]. intros <-. apply Hk, below_tlsPath.
Qed.

(** Dropping entries: those not kept are gone, the rest is as it was. *)
Lemma dropEntries_spec V O files es :
  triple (at_ V O) (mfor es (dropEntry (tlsDir t) files))
    (fun _ s => exists V', at_ V' O s
       /\ (forall e, e ∈ es -> keepsEntry files (de_Name e) = false -> V' !! key (tlsDir t ++ [de_Name e]) = None)
       /\ forall k, (forall e, e ∈ es -> keepsEntry files (de_Name e) = false -> k <> key (tlsDir t ++ [de_Name e])) ->
            V' !! k = V !! k)
    (fun s => exists V', agree (tlsDir t) V V' /\ at_ V' O s).
Proof.
  revert V; induction es as [|e es IH]; intros V; cbn [mfor].
  { apply triple_ret. intros s Hs. exists V. split; [done|]. split; [set_solver|done]. }
  set (V1 := if keepsEntry files (de_Name e) then V else delete (key (tlsDir t ++ [de_Name e])) V).
  assert (Hbelow : below (tlsDir t) (key (tlsDir t ++ [de_Name e]))) by (rewrite key_app; by eexists).
  eapply (triple_bind _ _ _ (fun _ => at_ V1 O)).
  { unfold dropEntry, V1. destruct (keepsEntry files (de_Name e)); [by apply triple_ret|].
    eapply triple_conseq; [apply (triple_sys_sees root V O (delete (key (tlsDir t ++ [de_Name e])) V) O V O (fun _ => True))|done|naive_solver|].
    - apply sees_triple. intros F HV. eapply triple_conseq; [apply fl_Remove|done|..].
      + intros _ w [HF HO]. split; [done|]. split; [|done]. by rewrite HF, visible_delete, HV.
      + intros w Hv. apply sees_view. eauto.
    - intros s Hs. exists V. split; [by intros k|done]. }
  intros _ s r s' Hs E. pose proof (IH V1 s r s' Hs E) as Hr.
  assert (Hout : forall k, k <> key (tlsDir t ++ [de_Name e]) -> V1 !! k = V !! k).
  { intros k Hk. unfold V1. destruct (keepsEntry _ _); [done|]. by apply lookup_delete_ne. }
  destruct r as [u|x].
  - destruct Hr as (V' & Hs' & H1' & H2'). exists V'. split; [done|]. split.
    + intros e' [->|Hin]%elem_of_cons Hk; [|by apply H1'].
      destruct (decide (Exists (fun e0 => keepsEntry files (de_Name e0) = false
        /\ key (tlsDir t ++ [de_Name e]) = key (tlsDir t ++ [de_Name e0])) es)) as [Hex|Hno].
      * apply Exists_exists in Hex as (e0 & Hin & Hk0 & ->). by apply H1'.
      * rewrite H2'; [unfold V1; rewrite Hk; apply lookup_delete_eq|].
        intros e0 Hin Hk0 Ek. apply Hno, Exists_exists. eauto.
    + intros k Hk. rewrite H2' by (intros; apply Hk; set_solver). 
      unfold V1. destruct (keepsEntry files (de_Name e)) eqn:Hke; [done|].
      rewrite lookup_delete_ne; [done|]. intros <-. eapply Hk; [|exact Hke|done]. set_solver.
  - destruct Hr as (V' & Hag & Hs'). exists V'. split; [|done]. intros k Hk. rewrite (Hag k Hk).
    apply Hout. by intros ->.
Qed.
End SaveFiles.

(** The visible files agree outside the two directories of the tunnel. *)
Definition agreeTunnel (t : gostring) (V V' : gmap path gofile) : Prop :=
  forall k, ~ below (tlsDir t) k -> ~ below (runtimeDir t) k -> V' !! k = V !! k.

Lemma agree_tunnel t V V' : agree (tlsDir t) V V' -> agreeTunnel t V V'.
Proof. intros Ha k Hk _. by apply Ha. Qed.

Lemma DeleteWSTLSFiles_spec V O t :
  TunnelNameIsValid t = true ->
  triple (at_ V O) (DeleteWSTLSFiles fuel t)
    (fun _ s => at_ (without (runtimeDir t) (without (tlsDir t) V)) O s)
    (fun s => exists V', agreeTunnel t V V' /\ at_ V' O s).
Proof.
  intros Ht. unfold DeleteWSTLSFiles. rewrite Ht. cbn [negb]. apply triple_dir.
  { intros s Hs. exists V. by split. }
  eapply triple_bind.
  { eapply triple_conseq; [apply (RemoveAll_spec V O (tlsDir t))|done|intros a s Hs; exact Hs|].
    intros s (V' & Hag & Hs). exists V'. split; [by apply agree_tunnel|done]. }
  intros u0. unfold removeWSTLSRuntimeFiles. apply triple_dir.
  { intros s Hs. eexists. split; [|exact Hs]. intros k Hk _. by apply without_lookup. }
  eapply triple_conseq; [apply (RemoveAll_spec (without (tlsDir t) V) O (runtimeDir t))|done|done|].
  intros s (V' & Hag & Hs). exists V'. split; [|done]. intros k Hk Hk'.
  rewrite (Hag k Hk'). by apply without_lookup.
Qed.

(** Conditions ValidateWSTLSFiles has checked. *)
Definition savable (files : gmap gostring gostring) : Prop :=
  (forall n d, files !! n = Some d -> fileFits (n, d))
  /\ (forall n n', n ∈ dom files -> n' ∈ dom files -> ToLower n = ToLower n' -> n = n').

Lemma savable_order files order :
  savable files -> order ≡ₚ map_to_list files ->
  Forall fileFits order /\ NoDup (map (fun e => ToLower e.1) order)
  /\ forall n d, (n, d) ∈ order <-> files !! n = Some d.
Proof.
  intros [Hf Hi] Hp.
  assert (Hin : forall n d, (n, d) ∈ order <-> files !! n = Some d).
  { intros n d. rewrite Hp. apply elem_of_map_to_list. }
  split; [|split; [|done]].
  - apply Forall_forall. intros [n d] Hx. by apply Hf, Hin.
  - apply fmap_NoDup_inj; [rewrite Hp; apply NoDup_map_to_list|].
    intros [n d] [n' d'] Hx%Hin Hx'%Hin E. cbn in E.
    assert (n = n') as <- by (apply Hi; [by eapply elem_of_dom_2..|done]). congruence.
Qed.

(** What is left after the entries that are none of the files have gone. *)
Lemma dropped_exactly t V1 V2 files (es : list dirEntry) :
  tlsHolds V1 t files ->
  (forall k f, V1 !! (key (tlsDir t) ++ [k]) = Some f -> exists e, e ∈ es /\ fs_fold (de_Name e) = k) ->
  (forall e f, e ∈ es -> V1 !! key (tlsDir t ++ [de_Name e]) = Some f -> de_Name e = f_name f) ->
  (forall e, e ∈ es -> keepsEntry files (de_Name e) = false -> V2 !! key (tlsDir t ++ [de_Name e]) = None) ->
  (forall k, (forall e, e ∈ es -> keepsEntry files (de_Name e) = false -> k <> key (tlsDir t ++ [de_Name e])) ->
     V2 !! k = V1 !! k) ->
  tlsExactly V2 t files.
Proof.
  intros Hw1 Hl1 Hl2 Hgone Hrest. split.
  - intros n d Hn. destruct (Hw1 n d Hn) as (b & Hb & Hprot). exists b. split; [|done].
    rewrite Hrest; [done|]. intros e He Hk Ek. rewrite Ek in Hb. apply Hl2 in Hb; [|done]. cbn in Hb.
    revert Hk. unfold keepsEntry. rewrite Hb, TrimSuffix_app, bool_decide_true by (by eapply elem_of_dom_2).
    rewrite (proj2 (HasSuffix_spec _ _)); [done|eauto].
  - intros k f Hf. assert (V1 !! (key (tlsDir t) ++ [k]) = Some f) as Hf1.
    { destruct (decide (Exists (fun e => keepsEntry files (de_Name e) = false
        /\ key (tlsDir t) ++ [k] = key (tlsDir t ++ [de_Name e])) es)) as [Hex|Hno].
      - apply Exists_exists in Hex as (e & He & Hk & Ek). rewrite Ek, (Hgone e He Hk) in Hf. done.
      - rewrite Hrest in Hf; [done|]. intros e He Hk Ek. apply Hno, Exists_exists. eauto. }
    destruct (Hl1 k f Hf1) as (e & He & Hfold). destruct (keepsEntry files (de_Name e)) eqn:Hk.
    * unfold keepsEntry in Hk. apply andb_prop in Hk as [Hsuf Hdom%bool_decide_eq_true].
      apply HasSuffix_spec in Hsuf as (x & Ex). rewrite Ex, TrimSuffix_app in Hdom.
      exists x. split; [done|]. by rewrite <- Hfold, Ex.
    * specialize (Hgone e He Hk). rewrite key_app in Hgone. cbn [key map] in Hgone.
      rewrite Hfold in Hgone. congruence.
Qed.

(** SaveWSTLSFiles replaces the files of the tunnel with exactly those given,
    and touches no other tunnel even when it fails. *)
Lemma SaveWSTLSFiles_holds V O t files order :
  TunnelNameIsValid t = true -> savable files -> order ≡ₚ map_to_list files ->
  triple (at_ V O) (SaveWSTLSFiles fuel t files order)
    (fun _ s => exists V', tlsExactly V' t files /\ agreeTunnel t V V' /\ at_ V' O s)
    (fun s => exists V', agreeTunnel t V V' /\ at_ V' O s).
Proof.
  intros Ht Hsav Hp. destruct (savable_order files order Hsav Hp) as (Hfit & Hnd & Hin).
  unfold SaveWSTLSFiles. rewrite Ht. cbn [negb]. destruct (Nat.eqb_spec (size files) 0) as [Hz|Hz].
  { apply map_size_empty_inv in Hz as ->. eapply triple_conseq; [by apply DeleteWSTLSFiles_spec|done| |done].
    intros u0 s Hs. eexists. split; [|split; [|exact Hs]].
    - split; [intros n d Hx; by rewrite lookup_empty in Hx|]. intros k f Hf.
      apply map_lookup_filter_Some in Hf as [Hf _].
      rewrite without_below in Hf; [done|]. by eexists.
    - intros k Hk Hk'. by rewrite !without_lookup. }
  apply triple_dir; [intros s Hs; exists V; by split|].
  eapply triple_bind.
  { eapply triple_conseq; [apply (saveFiles_spec t Ht V O order Hfit Hnd)|done|intros a s Hs; exact Hs|].
    intros s (V' & Hag & Hs). exists V'. split; [by apply agree_tunnel|done]. }
  intros u0 s0 r s' (V1 & [Hw1 Hw2] & Hs0). revert s0 r s' Hs0.
  assert (Hag1 : agreeTunnel t V V1).
  { intros k Hk _. apply Hw2. intros n d _ ->. apply Hk, below_tlsPath. }
  change (triple (at_ V1 O) (do! entries := sys (os_ReadDir (tlsDir t)) in mfor entries (dropEntry (tlsDir t) files))
    (fun _ s => exists V', tlsExactly V' t files /\ agreeTunnel t V V' /\ at_ V' O s)
    (fun s => exists V', agreeTunnel t V V' /\ at_ V' O s)).
  eapply triple_bind.
  { eapply triple_conseq; [apply (triple_sys_sees root V1 O V1 O V1 O
      (fun es => (forall k f, V1 !! (key (tlsDir t) ++ [k]) = Some f -> exists e, e ∈ es /\ fs_fold (de_Name e) = k)
         /\ (forall e f, e ∈ es -> V1 !! key (tlsDir t ++ [de_Name e]) = Some f -> de_Name e = f_name f)))
      |done|intros a s Hs; exact Hs|].
    - apply sees_triple. intros F HV. eapply triple_conseq; [apply (fl_ReadDir F O (tlsDir t))|done|..].
      + intros es w (Hv & Hl1 & Hl2 & _). split; [|apply sees_view; eauto].
        rewrite <- HV. split.
        * intros k f Hf. apply map_lookup_filter_Some in Hf as [Hf _]. by eapply Hl1.
        * intros e f He Hf. apply map_lookup_filter_Some in Hf as [Hf _]. by apply Hl2.
      + intros w Hv. apply sees_view. eauto.
    - intros s Hs. exists V1. by split. }
  intros es. intros s r s' [[Hl1 Hl2] Hs] E.
  pose proof (dropEntries_spec t Ht V1 O files es s r s' Hs E) as Hr. destruct r as [u|x].
  - destruct Hr as (V2 & Hs' & Hgone & Hrest). exists V2. split; [|split; [|done]].
    + apply (dropped_exactly t V1 V2 files es); [|done..]. intros n d Hn. by apply Hw1, Hin.
    + intros k Hk Hk'. rewrite Hrest; [by apply Hag1|]. intros e _ _ ->. apply Hk. rewrite key_app. by eexists.
  - destruct Hr as (V2 & Hag & Hs'). exists V2. split; [|done]. intros k Hk Hk'. rewrite (Hag k Hk). by apply Hag1.
Qed.
End TLS.
