(* ===== verification/StoreTunnels.v ===== *)
(** * Tunnels in the store: what is saved is loaded, deleted and migrated *)

From S2P Require Import Prelude GoStrings GoNum Netip Config Name Paths WSTLS WSTLSNames WSTLSCollect WSTLSTheorems Parser Writer ConfWf RoundTrip Effects Store StoreLaws StoreTheorems StoreTLS.
Local Open Scope Z_scope.

Section Tunnels.
Context {W handle : Type} `{FileSystem W handle} `{!FileLaws} `{UnicodeTables} `{NetURL}.
Context (decoders : list (gostring -> option gostring)) (fuel : nat) (root : gostring).

Abbreviation at_ := (at_ root).
Abbreviation tlsDir := (tlsDir root).
Abbreviation tlsPath := (tlsPath root).
Abbreviation runtimeDir := (runtimeDir root).
Abbreviation confPath := (confPath root).

(** *** Reading

    [m] leaves the files alone, returns nothing but [a], and returns it when the
    system is reliable. *)
Definition reads {A} V O (m : M (store W) A) (a : A) : Prop :=
  triple (at_ V O) m (fun x s => x = a /\ at_ V O s) (at_ V O)
  /\ (reliable -> forall s, at_ V O s -> exists s', m s = (Ok a, s') /\ at_ V O s').

Lemma reads_ret {A} V O (a : A) : reads V O (mret a) a.
Proof. split; [by apply triple_ret|]. intros _ s Hs. by exists s. Qed.

Lemma reads_bind {A B} V O (m : M (store W) A) (k : A -> M (store W) B) a b :
  reads V O m a -> reads V O (k a) b -> reads V O (mthen m k) b.
Proof.
  intros [Hm Hm'] [Hk Hk']. split.
  - eapply triple_bind; [exact Hm|]. intros x s r s' [-> Hs]. by apply Hk.
  - intros Hok s Hs. destruct (Hm' Hok s Hs) as (s1 & E1 & Hs1). destruct (Hk' Hok s1 Hs1) as (s2 & E2 & Hs2).
    exists s2. unfold mthen. by rewrite E1.
Qed.

Lemma reads_wrap {A} V O f (m : M (store W) A) a : reads V O m a -> reads V O (mwrap f m) a.
Proof.
  intros [Hm Hm']. split.
  - intros s r s' Hs. unfold mwrap. destruct (m s) as [[x|e] s1] eqn:E; intros [= <- <-]; exact (Hm _ _ _ Hs E).
  - intros Hok s Hs. destruct (Hm' Hok s Hs) as (s1 & E1 & Hs1). exists s1. unfold mwrap. by rewrite E1.
Qed.

Lemma reads_ext {A} V O (m m' : M (store W) A) a :
  (forall s, at_ V O s -> m s = m' s) -> reads V O m' a -> reads V O m a.
Proof.
  intros He [Hm Hm']. split; [by eapply triple_ext|]. intros Hok s Hs. rewrite He by done. by apply Hm'.
Qed.

Lemma LoadFromName_reads V O f c :
  wfConfig c -> V !! key (confPath (c_Name c)) = Some f ->
  protects (f_data f) (ToWgQuick c) (c_Name c) ->
  reads V O (LoadFromName decoders fuel (c_Name c)) c.
Proof.
  intros Hw Hf Hb. pose proof Hw as (Hv & _).
  destruct (LoadFromName_spec decoders fuel root V O f (ToWgQuick c) (c_Name c) Hv Hf Hb) as [L1 L2].
  assert (E : FromWgQuickWithUnknownEncoding decoders (ToWgQuick c) (c_Name c) = Ok c).
  { unfold FromWgQuickWithUnknownEncoding. by rewrite FromWgQuick_ToWgQuick. }
  rewrite E in L1, L2. split; [|done].
  eapply triple_conseq; [exact L1|done| |done]. intros x s [Hx Hs]. split; [congruence|done].
Qed.

Lemma loadWSTLSFile_reads V O t n d files :
  TunnelNameIsValid t = true -> WSTLSFileNameIsValid n = true ->
  tlsHolds root V t files -> files !! n = Some d -> reads V O (loadWSTLSFile fuel t n) d.
Proof.
  intros Ht Hn Hh Hd. destruct (Hh n d Hd) as (b & Hf & Hb).
  eapply reads_ext; [|apply (readDecrypt_spec root V O (tlsPath t n) _ d (wsTLSDescription t n)
    (isTmp_tls root t n Hn) (description_plain t n Ht Hn) Hf Hb)].
  intros s Hs. unfold loadWSTLSFile. rewrite Ht, Hn. cbn [negb orb]. unfold wsTLSDirectory, mthen at 1 2.
  by rewrite (RootDirectory_at fuel root V O s true Hs).
Qed.

Lemma loadFiles_reads V O t files names acc :
  TunnelNameIsValid t = true -> tlsHolds root V t files ->
  (forall n, n ∈ names -> WSTLSFileNameIsValid n = true /\ n ∈ dom files) ->
  reads V O (loadFiles fuel t names acc)
    (foldl (fun m n => <[n := default [] (files !! n)]> m) acc names).
Proof.
  intros Ht Hh. revert acc. induction names as [|n names IH]; intros acc Hn; cbn [loadFiles foldl];
    [apply reads_ret|].
  destruct (Hn n ltac:(set_solver)) as [Hv [d Hd]%elem_of_dom].
  eapply (reads_bind V O _ _ d).
  - apply reads_wrap. by eapply loadWSTLSFile_reads.
  - rewrite Hd. cbn [default]. apply IH. set_solver.
Qed.

Lemma foldl_insert_lookup {A} (f : gostring -> A) (names : list gostring) (acc : gmap gostring A) (n : gostring) :
  foldl (fun m n => <[n := f n]> m) acc names !! n = if decide (n ∈ names) then Some (f n) else acc !! n.
Proof.
  revert acc; induction names as [|x names IH]; intros acc; cbn [foldl]; [by rewrite decide_False by set_solver|].
  rewrite IH, lookup_insert. repeat case_decide; subst; set_solver.
Qed.

Lemma LoadWSTLSFiles_reads V O c files :
  TunnelNameIsValid (c_Name c) = true -> tlsHolds root V (c_Name c) files ->
  (forall n, n ∈ dom files <-> n ∈ wsTLSReferences c /\ WSTLSFileNameIsValid n = true) ->
  reads V O (LoadWSTLSFiles fuel c) (set_c_WSTLSFiles files c).
Proof.
  intros Ht Hh Hdom. destruct (WSTLSStoredFileNames_spec c) as (_ & _ & Hnames).
  unfold LoadWSTLSFiles. set (names := WSTLSStoredFileNames c) in *.
  assert (Hall : foldl (fun m n => <[n := default [] (files !! n)]> m) ∅ names = files).
  { apply map_eq. intros n. rewrite foldl_insert_lookup. case_decide as Hin.
    - apply Hnames, Hdom, elem_of_dom in Hin as [d ->]. done.
    - rewrite lookup_empty. symmetry. apply not_elem_of_dom. by rewrite Hdom, <- Hnames. }
  assert (Hr : reads V O (do! fs := loadFiles fuel (c_Name c) names ∅ in mret (set_c_WSTLSFiles fs c))
                 (set_c_WSTLSFiles files c)).
  { eapply reads_bind; [apply (loadFiles_reads V O _ files names ∅ Ht Hh)|rewrite Hall; apply reads_ret].
    intros n Hn%Hnames. rewrite Hdom. naive_solver. }
  destruct names as [|n names']; [|exact Hr]. cbn in Hall. rewrite <- Hall. apply reads_ret.
Qed.

(** *** Saving a tunnel and its files

    As the manager creates a tunnel: the files, then the configuration. *)
Definition createTunnel (order : list (gostring * gostring)) (c : Config) : M (store W) unit :=
  do! _ := mpure (ValidateWSTLSFiles order c) in
  do! _ := SaveWSTLSFiles fuel (c_Name c) (c_WSTLSFiles c) order in
  Save fuel c true.

Lemma conf_not_below name t : TunnelNameIsValid name = true ->
  ~ below (tlsDir t) (key (confPath name)) /\ ~ below (runtimeDir t) (key (confPath name)).
Proof.
  intros Hv. assert (Hne : fs_fold (str "Configurations") <> fs_fold wsTLSDirectoryName).
  { rewrite !fl_fold by done. done. }
  split; intros [k Hk];
    assert (Some (fs_fold (str "Configurations")) = Some (fs_fold wsTLSDirectoryName)) as E
      by exact (f_equal (fun l : path => l !! 1%nat) Hk); congruence.
Qed.

Lemma storable_savable c : storable c -> savable (c_WSTLSFiles c).
Proof.
  intros (_ & _ & Hf & Hi). split; [|done]. intros n d Hn. destruct (Hf n d Hn) as (Hv & _ & Hl).
  split; [done|]. cbn. change MaxWSTLSFileSize with 1048576 in Hl. lia.
Qed.

Lemma storable_dom c n :
  storable c -> n ∈ dom (c_WSTLSFiles c) <-> n ∈ wsTLSReferences c /\ WSTLSFileNameIsValid n = true.
Proof.
  intros (Hr & _ & Hf & _). rewrite elem_of_dom. split.
  - intros [d Hd]. destruct (Hf n d Hd) as (? & ? & _). done.
  - intros [Hin Hv]. rewrite Forall_forall in Hr. specialize (Hr n Hin). unfold refOk in Hr. by rewrite Hv in Hr.
Qed.

(** The state after a tunnel has been created. *)
Lemma createTunnel_spec V O order c :
  wfConfig (set_c_WSTLSFiles ∅ c) -> Z.of_nat (length (ToWgQuick c)) < 2 ^ 32 ->
  order ≡ₚ map_to_list (c_WSTLSFiles c) ->
  triple (at_ V O) (createTunnel order c)
    (fun _ s => exists V' f, storable c /\ tlsExactly root V' (c_Name c) (c_WSTLSFiles c)
       /\ V' !! key (confPath (c_Name c)) = Some f /\ protects (f_data f) (ToWgQuick c) (c_Name c)
       /\ at_ V' O s)
    (fun s => exists V', (forall name, TunnelNameIsValid name = true ->
        V' !! key (confPath name) = V !! key (confPath name)) /\ at_ V' O s).
Proof.
  intros Hw Hl Hp. pose proof Hw as (Hv & _). cbn in Hv. unfold createTunnel.
  assert (Hsame : forall V', agreeTunnel root (c_Name c) V V' -> forall name, TunnelNameIsValid name = true ->
            V' !! key (confPath name) = V !! key (confPath name)).
  { intros V' Hag name Hn. destruct (conf_not_below name (c_Name c) Hn). by apply Hag. }
  eapply (triple_bind _ _ _ (fun _ s => storable c /\ at_ V O s)).
  { intros s r s' Hs [= <- <-]. destruct (ValidateWSTLSFiles order c) as [[]|e] eqn:E.
    - split; [by apply (ValidateWSTLSFiles_iff order c Hp)|done].
    - exists V. by split. }
  intros u0 s r s' [Hst Hs]. revert s r s' Hs.
  eapply triple_bind; [eapply triple_conseq; [apply (SaveWSTLSFiles_holds fuel root V O (c_Name c) _ order Hv
    (storable_savable c Hst) Hp)|done|intros a s Hs; exact Hs|]|].
  { intros s (V' & Hag & Hs). exists V'. split; [by apply Hsame|done]. }
  intros u1 s r s' (V1 & Hex & Hag & Hs) E.
  pose proof (Save_spec fuel root V1 O c true s r s' Hs E) as Hr. destruct r as [u|e].
  - destruct Hr as (_ & _ & b & Hb & Hs'). rewrite bytesToBlob_small in Hb by done.
    exists (<[key (confPath (c_Name c)) := mkFile (c_Name c ++ configFileSuffix) b]> V1),
      (mkFile (c_Name c ++ configFileSuffix) b).
    split; [done|]. split; [|split; [apply lookup_insert_eq|by split]].
    assert (Hout : forall k, below (tlsDir (c_Name c)) k -> k <> key (confPath (c_Name c))).
    { intros k Hk ->. by apply (proj1 (conf_not_below (c_Name c) (c_Name c) Hv)). }
    destruct Hex as [Hex1 Hex2]. split.
    + intros n d Hn. destruct (Hex1 n d Hn) as (b' & Hb' & ?). exists b'. split; [|done].
      rewrite lookup_insert_ne; [done|]. intros Ek. by apply (Hout _ (below_tlsPath root (c_Name c) n)).
    + intros k f. rewrite lookup_insert_ne; [apply Hex2|]. intros Ek. eapply Hout; [|by symmetry]. by eexists.
  - exists V1. split; [by apply Hsame|done].
Qed.

Lemma ToWgQuick_files fs c : ToWgQuick (set_c_WSTLSFiles fs c) = ToWgQuick c.
Proof. by destruct c. Qed.

(** Reading a tunnel that is stored, and then its TLS files. *)
Lemma stored_reads V O f c :
  wfConfig (set_c_WSTLSFiles ∅ c) -> storable c -> tlsHolds root V (c_Name c) (c_WSTLSFiles c) ->
  V !! key (confPath (c_Name c)) = Some f -> protects (f_data f) (ToWgQuick c) (c_Name c) ->
  reads V O (LoadFromName decoders fuel (c_Name c)) (set_c_WSTLSFiles ∅ c)
  /\ reads V O (LoadWSTLSFiles fuel (set_c_WSTLSFiles ∅ c)) c.
Proof.
  intros Hw Hst Hh Hf Hb. pose proof Hw as (Hv & _). cbn in Hv. split.
  - apply (LoadFromName_reads V O f (set_c_WSTLSFiles ∅ c)); [done|done|]. by rewrite ToWgQuick_files.
  - assert (c = set_c_WSTLSFiles (c_WSTLSFiles c) (set_c_WSTLSFiles ∅ c)) as Ec by by destruct c.
    rewrite Ec at 2. apply LoadWSTLSFiles_reads; [done|done|].
    change (wsTLSReferences (set_c_WSTLSFiles ∅ c)) with (wsTLSReferences c). intros n. by apply storable_dom.
Qed.

(** A tunnel that is not stored is not loaded. *)
Lemma LoadFromName_absent V O name s :
  at_ V O s -> V !! key (confPath name) = None ->
  exists e s', LoadFromName decoders fuel name s = (Err e, s') /\ at_ V O s'.
Proof.
  intros Hs Hno. unfold LoadFromName. destruct (TunnelNameIsValid name) eqn:Hv; cbn [negb]; [|do 2 eexists; split; [reflexivity|exact Hs]].
  unfold mthen at 1. rewrite (configDir_at fuel root V O s Hs). unfold LoadFromPath, mthen, mpure, sys.
  destruct (NameFromPath _) as [n|e]; [|do 2 eexists; split; [reflexivity|exact Hs]].
  destruct (os_ReadFile _ (st_sys s)) as [[b|e] w'] eqn:E.
  - destruct Hs as (Hroot & Hr & Hc & Hw). pose proof Hw as [HV HO].
    destruct (fl_ReadFile _ _ _ _ _ _ (conj eq_refl eq_refl) E) as (_ & f & Hf & _).
    change ([root; str "Configurations"] ++ [name ++ configFileSuffix]) with (confPath name) in Hf.
    rewrite <- HV, visible_lookup in Hno by by apply isTmp_conf. congruence.
  - destruct Hs as (Hroot & Hr & Hc & HV & HO).
    destruct (fl_ReadFile _ _ _ _ _ _ (conj eq_refl eq_refl) E) as [HF' HO']. do 2 eexists. split; [reflexivity|].
    split; [done|]. split; [done|]. split; [done|]. split; cbn; congruence.
Qed.

(** *** Deleting *)

(** A key that belongs to the tunnel: its configuration, or a file in one of its
    directories. *)
Definition ofTunnel (name : gostring) (k : path) : Prop :=
  k = key (confPath name) \/ below (tlsDir name) k \/ below (runtimeDir name) k.

(** C32: DeleteName leaves no file of the tunnel and touches no other; when it fails
    it has touched no other either. *)
Theorem DeleteName_removes V O name :
  TunnelNameIsValid name = true ->
  triple (at_ V O) (DeleteName fuel name)
    (fun _ s => exists V', at_ V' O s /\ forall k,
       (ofTunnel name k -> V' !! k = None) /\ (~ ofTunnel name k -> V' !! k = V !! k))
    (fun s => exists V', at_ V' O s /\ forall k, ~ ofTunnel name k -> V' !! k = V !! k).
Proof.
  intros Hv. unfold DeleteName. rewrite Hv. cbn [negb]. apply triple_configDir.
  eapply (triple_bind _ _ _ (fun _ => at_ (delete (key (confPath name)) V) O)).
  { eapply triple_conseq; [apply (triple_sys_sees root V O (delete (key (confPath name)) V) O V O (fun _ => True))|done|naive_solver|].
    - apply sees_triple. intros F HV. eapply triple_conseq; [apply (fl_Remove F O (confPath name))|done|..].
      + intros u w [HF HO]. split; [done|]. split; [|done]. by rewrite HF, visible_delete, HV.
      + intros w Hw. apply sees_view. eauto.
    - intros s Hs. exists V. by split. }
  intros u0. eapply triple_conseq; [by apply DeleteWSTLSFiles_spec|done|..].
  - intros u s Hs. eexists. split; [exact Hs|]. intros k. unfold ofTunnel.
    destruct (decide (below (runtimeDir name) k)) as [Hr|Hr]; [rewrite without_below by done; naive_solver|].
    rewrite without_lookup by done.
    destruct (decide (below (tlsDir name) k)) as [Ht|Ht]; [rewrite without_below by done; naive_solver|].
    rewrite without_lookup by done.
    destruct (decide (k = key (confPath name))) as [->|Hk]; [rewrite lookup_delete_eq|rewrite lookup_delete_ne by done];
      naive_solver.
  - intros s (V' & Hag & Hs). exists V'. split; [done|]. unfold ofTunnel. intros k Hk.
    rewrite Hag by naive_solver. apply lookup_delete_ne. naive_solver.
Qed.

(** *** Decrypted copies for the tunnel service *)

Lemma fold_runtime t : TunnelNameIsValid t = true -> fs_fold wsTLSRuntimeDirectoryName <> fs_fold t.
Proof.
  intros Ht. rewrite !fl_fold by (done || by apply TunnelNameIsValid_ascii). intros E.
  destruct t as [|c t]; [done|]. injection E as E _.
  assert (Hc : nameByte c = true) by (apply (TunnelNameIsValid_bytes _ _ Ht); set_solver).
  pose proof (code_cases (fun c => negb (nameByte c) || negb (Ascii.eqb (lowerByte c) "$")) eq_refl c) as Hall.
  cbn beta in Hall. rewrite Hc, <- E in Hall. done.
Qed.

Lemma tls_not_runtime t u k :
  TunnelNameIsValid t = true -> below (tlsDir t) k -> ~ below (runtimeDir u) k.
Proof.
  intros Ht [k1 ->] [k2 Hk].
  assert (Some (fs_fold t) = Some (fs_fold wsTLSRuntimeDirectoryName)) as E
    by exact (f_equal (fun l : path => l !! 2%nat) Hk).
  apply (fold_runtime t Ht). congruence.
Qed.

Lemma tlsExactly_agree t u files V V' :
  TunnelNameIsValid t = true -> agree (runtimeDir u) V V' -> tlsExactly root V t files -> tlsExactly root V' t files.
Proof.
  intros Ht Hag [H1' H2']. split.
  - intros n d Hn. destruct (H1' n d Hn) as (b & Hb & ?). exists b. split; [|done].
    rewrite Hag; [done|]. apply (tls_not_runtime t); [done|apply below_tlsPath].
  - intros k f Hf. rewrite Hag in Hf; [by apply (H2' k f)|]. apply (tls_not_runtime t); [done|by eexists].
Qed.

(** A stored file is loaded only under the name it was stored with. *)
Lemma loadWSTLSFile_spec V O t files n :
  TunnelNameIsValid t = true -> savable files -> tlsExactly root V t files ->
  triple (at_ V O) (loadWSTLSFile fuel t n)
    (fun d s => (files !! n = Some d /\ WSTLSFileNameIsValid n = true) /\ at_ V O s) (at_ V O).
Proof.
  intros Ht Hsav [Hh Hx]. unfold loadWSTLSFile. rewrite Ht. cbn [negb orb].
  destruct (WSTLSFileNameIsValid n) eqn:Hn; cbn [negb]; [|by apply triple_fail].
  apply triple_dir; [done|].
  eapply (triple_bind _ _ _ (fun b s => (exists f, V !! key (tlsPath t n) = Some f /\ f_data f = b) /\ at_ V O s)).
  { apply triple_sys_sees, sees_triple. intros F HV.
    eapply triple_conseq; [apply (fl_ReadFile F O (tlsPath t n))|done|..].
    - intros b w [Hw (f & Hf & Hb)]. split; [|apply sees_view; eauto]. exists f. split; [|done].
      by rewrite <- HV, visible_lookup by (by apply isTmp_tls).
    - intros w Hw. apply sees_view; eauto. }
  intros b s r s' [(f & Hf & <-) Hs]. revert s r s' Hs. pose proof Hf as Hf0.
  rewrite key_tlsPath in Hf. destruct (Hx _ _ Hf) as (m & [d Hm]%elem_of_dom & Efold).
  destruct (Hh m d Hm) as (b & Hb & Hprot). rewrite key_tlsPath, <- Efold, Hf in Hb.
  injection Hb as ->. cbn [f_data].
  assert (Hvm : WSTLSFileNameIsValid m = true) by (apply (proj1 Hsav m d Hm)).
  destruct (Decrypt_spec V O b d (wsTLSDescription t m) (wsTLSDescription t n)
    (description_plain t m Ht Hvm) (description_plain t n Ht Hn) Hprot) as [Hd _].
  apply triple_sys_sees. eapply triple_conseq; [exact Hd|done| |done].
  intros x w [[-> En] Hw]. split; [|done]. split; [|done].
  unfold wsTLSDescription in En. apply app_inv_head, app_inv_head in En. by subst.
Qed.

(** The state of the loop: every path is that of a copy of a stored file under its
    own name. *)
Record prepared (t : gostring) (files : gmap gostring gostring) (V V1 : gmap path gofile) (pp : preparing) : Prop := {
  pd_agree : agree (runtimeDir t) V V1;
  pd_dir : pp_runtimeDir pp = [] \/ pp_runtimeDir pp = runtimeDir t;
  pd_paths : forall ref p, pp_paths pp !! ref = Some p ->
    p = render (runtimeDir t ++ [ref]) /\ exists d, files !! ref = Some d
      /\ V1 !! key (runtimeDir t ++ [ref]) = Some (mkFile ref d)
}.

(** No file at all is below the runtime directory, a temporary one neither. *)
Definition gone (t : gostring) (s : store W) : Prop :=
  forall k, below (runtimeDir t) k -> fs_files (st_sys s) !! k = None.

(** The files are as an os.RemoveAll of that directory left them that failed. *)
Definition unremoved (t : gostring) (s : store W) : Prop :=
  exists w e, os_RemoveAll (runtimeDir t) w = (Err e, st_sys s).

Definition swept (t : gostring) (s : store W) : Prop := gone t s \/ unremoved t s.

(** Before the directory is created nothing is in it. *)
Definition uncreated (t : gostring) (pp : preparing) (s : store W) : Prop := pp_runtimeDir pp = [] -> gone t s.

(** After a failure: other files are as they were, and nothing is left in the
    directory unless it could not be removed. *)
Definition cleaned (t : gostring) (V : gmap path gofile) (O : gmap handle (path * bool)) (s : store W) : Prop :=
  exists V1, at_ V1 O s /\ agree (runtimeDir t) V V1 /\ swept t s.

Lemma RemoveAll_swept t s r s' :
  sys (os_RemoveAll (runtimeDir t)) s = (r, s') -> match r with Ok _ => gone t s' | Err _ => unremoved t s' end.
Proof.
  unfold sys. destruct (os_RemoveAll (runtimeDir t) (st_sys s)) as [x w] eqn:E. intros [= <- <-].
  destruct x as [u|e]; [|by exists (st_sys s), e].
  pose proof (fl_RemoveAll (fs_files (st_sys s)) (fs_open (st_sys s)) (runtimeDir t) (st_sys s) _ w (conj eq_refl eq_refl) E) as [HF _].
  intros k Hk. cbn [set_sys st_sys]. rewrite HF. apply map_lookup_filter_None. right. intros f _ Hn. by apply Hn.
Qed.

Lemma swept_result t s {A} (r : result A) :
  match r with Ok _ => gone t s | Err _ => unremoved t s end -> swept t s.
Proof. destruct r; [by left|by right]. Qed.

Lemma orCleanup_spec {A} t V O V1 (m : M (store W) A) Q :
  agree (runtimeDir t) V V1 -> triple (at_ V1 O) m Q (at_ V1 O) ->
  triple (at_ V1 O) (orCleanup (runtimeDir t) m) Q (cleaned t V O).
Proof.
  intros Hag Hm s r s' Hs. unfold orCleanup. destruct (m s) as [[a|e] s1] eqn:E.
  - intros [= <- <-]. exact (Hm _ _ _ Hs E).
  - pose proof (Hm _ _ _ Hs E) as Hs1. cbn in Hs1. cbn [cleanupFiles StoreTheorems.runtimeDir].
    unfold mthen, try. destruct (sys (os_RemoveAll _) s1) as [r2 s2] eqn:E2. intros [= <- <-].
    pose proof (swept_result _ _ _ (RemoveAll_swept t s1 r2 s2 E2)) as Hsw.
    pose proof (RemoveAll_spec root V1 O (runtimeDir t) s1 r2 s2 Hs1 E2) as Hr. destruct r2 as [u|e2].
    + eexists. split; [exact Hr|]. split; [|done].
      intros k Hk. rewrite without_lookup by done. by apply Hag.
    + destruct Hr as (V2 & Hag2 & Hs2). exists V2. split; [done|]. split; [|done].
      intros k Hk. rewrite (Hag2 k Hk). by apply Hag.
Qed.

Lemma key_runtime_inj t n n' :
  WSTLSFileNameIsValid n = true -> WSTLSFileNameIsValid n' = true ->
  key (runtimeDir t ++ [n]) = key (runtimeDir t ++ [n']) -> ToLower n = ToLower n'.
Proof.
  intros Hv Hv'. rewrite !key_app. intros E%app_inv_head.
  assert (fs_fold n = fs_fold n') as En by (cbn [key map] in E; congruence). revert En.
  pose proof (nameBytes_ascii _ (valid_bytes _ Hv)). pose proof (nameBytes_ascii _ (valid_bytes _ Hv')).
  rewrite !fl_fold, !ToLower_ascii by done. done.
Qed.

(** Adding the copy of one file. *)
Lemma prepared_add t files V V1 pp ref d :
  savable files -> prepared t files V V1 pp -> files !! ref = Some d ->
  prepared t files V (<[key (runtimeDir t ++ [ref]) := mkFile ref d]> V1)
    (mkPreparing (runtimeDir t) (<[ref := render (runtimeDir t ++ [ref])]> (pp_paths pp))).
Proof.
  intros [Hfit Hcase] [Hag _ Hp] Hd. split; cbn [pp_runtimeDir pp_paths].
  - intros k Hk. rewrite lookup_insert_ne; [by apply Hag|]. intros <-. apply Hk. rewrite key_app. by eexists.
  - by right.
  - intros x p. rewrite lookup_insert. case_decide as Hx.
    + intros [= <-]. subst x. split; [done|]. exists d. by rewrite lookup_insert_eq.
    + intros (-> & d' & Hd' & HV)%Hp. split; [done|]. exists d'. split; [done|].
      rewrite lookup_insert_ne; [done|]. intros Ek. apply key_runtime_inj in Ek.
      * apply Hcase in Ek; [done|by eapply elem_of_dom_2..].
      * apply (Hfit ref d Hd).
      * apply (Hfit x d' Hd').
Qed.

(** What a reference has become. *)
Definition refDone (pp : preparing) (ref ref' : gostring) : Prop :=
  if IsWSTLSLocalPath ref then ref' = ref else pp_paths pp !! ref = Some ref'.

(** Creating the directory creates no file. *)
Lemma wsTLSDirectory_files V O create elem s r s' :
  at_ V O s -> wsTLSDirectory fuel create elem s = (r, s') -> fs_files (st_sys s') = fs_files (st_sys s).
Proof.
  intros Hs. unfold wsTLSDirectory, mthen at 1. rewrite (RootDirectory_at fuel root V O s true Hs). cbv zeta.
  destruct create; cbn [mwhen]; unfold mthen; [|by intros [= <- <-]]. unfold sys.
  destruct (os_MkdirAll _ (st_sys s)) as [x w] eqn:E.
  pose proof (fl_MkdirAll _ (fs_files (st_sys s)) (fs_open (st_sys s)) (st_sys s) x w (conj eq_refl eq_refl) E) as Hk.
  destruct x as [u|e]; destruct Hk as [Hk _]; intros [= <- <-]; exact Hk.
Qed.

Lemma runtimeDir_spec t V O V1 files pp :
  prepared t files V V1 pp ->
  triple (fun s => at_ V1 O s /\ uncreated t pp s)
    (if bool_decide (pp_runtimeDir pp = [])
     then wsTLSDirectory fuel true [wsTLSRuntimeDirectoryName; t] else mret (pp_runtimeDir pp))
    (fun dir s => dir = runtimeDir t /\ at_ V1 O s) (cleaned t V O).
Proof.
  intros [Hag Hdir _] s r s' [Hs Hfr]. case_bool_decide as Hd; [|destruct Hdir as [?|Hx]; [done|]; intros [= <- <-]; by rewrite Hx].
  intros E. pose proof (wsTLSDirectory_files V1 O _ _ s r s' Hs E) as Hfs.
  assert (Hr : match r with Ok dir => dir = runtimeDir t | Err _ => True end /\ at_ V1 O s').
  { pose proof (triple_dir fuel root V1 O true [wsTLSRuntimeDirectoryName; t] mret
      (fun dir s => dir = runtimeDir t /\ at_ V1 O s) (at_ V1 O) (fun s Hs => Hs)
      (fun z rz zs Hz Ez => ltac:(by injection Ez as <- <-)) s r s' Hs) as Ht.
    unfold mthen in Ht. rewrite E in Ht. destruct r as [dir|e]; [exact (Ht eq_refl)|split; [done|exact (Ht eq_refl)]]. }
  destruct r as [dir|e]; [exact Hr|]. exists V1. split; [apply Hr|]. split; [done|]. left. intros k Hk. rewrite Hfs. by apply Hfr.
Qed.

Lemma prepareRef_spec t V O V1 files pp ref :
  TunnelNameIsValid t = true -> savable files -> tlsExactly root V t files ->
  prepared t files V V1 pp ->
  triple (fun s => at_ V1 O s /\ uncreated t pp s) (prepareRef fuel t pp ref)
    (fun rp s => exists V2, (at_ V2 O s /\ uncreated t rp.2 s) /\ prepared t files V V2 rp.2 /\ refDone rp.2 ref rp.1
       /\ pp_paths pp ⊆ pp_paths rp.2)
    (cleaned t V O).
Proof.
  intros Ht Hsav Hex Hp. pose proof Hp as [Hag _ _]. unfold prepareRef.
  destruct (IsWSTLSLocalPath ref) eqn:El.
  { apply triple_ret. intros s Hs. exists V1. unfold refDone. cbn. rewrite El. done. }
  destruct (pp_paths pp !! ref) as [p|] eqn:Er.
  { apply triple_ret. intros s Hs. exists V1. unfold refDone. cbn. rewrite El. done. }
  eapply triple_bind; [by apply (runtimeDir_spec t V O V1 files)|]. intros dir s0 r0 s0' [-> Hs0]. revert s0 r0 s0' Hs0.
  eapply triple_bind.
  { apply (orCleanup_spec t V O V1 _ (fun d s => (files !! ref = Some d /\ WSTLSFileNameIsValid ref = true) /\ at_ V1 O s) Hag).
    intros s r s' Hs. unfold mwrap. destruct (loadWSTLSFile fuel t ref s) as [[d|e] s1] eqn:E; intros [= <- <-];
      exact (loadWSTLSFile_spec V1 O t files ref Ht Hsav (tlsExactly_agree t t files V V1 Ht Hag Hex) s _ s1 Hs E). }
  intros d s0 r0 s0' [[Hd Hv] Hs0]. revert s0 r0 s0' Hs0.
  eapply triple_bind.
  { apply (orCleanup_spec t V O V1 _ (fun _ s => at_ (<[key (runtimeDir t ++ [ref]) := mkFile ref d]> V1) O s) Hag).
    eapply triple_conseq; [by apply writeLockedDownFile_spec, isTmp_runtime|done|naive_solver|done]. }
  intros u. apply triple_ret. intros s Hs. eexists. split; [split; [exact Hs|done]|]. cbn [fst snd].
  split; [by apply prepared_add|]. unfold refDone. rewrite El. cbn [pp_paths].
  split; [apply lookup_insert_eq|by apply insert_subseteq].
Qed.

Lemma prepareLoop_spec t V O files refs :
  TunnelNameIsValid t = true -> savable files -> tlsExactly root V t files ->
  forall V1 pp s done r s', prepared t files V V1 pp -> at_ V1 O s /\ uncreated t pp s ->
  prepareLoop fuel t pp refs s = (done, r, s') ->
  match r with
  | Ok pp' => exists V2, (at_ V2 O s' /\ uncreated t pp' s') /\ prepared t files V V2 pp' /\ Forall2 (refDone pp') refs done
                /\ pp_paths pp ⊆ pp_paths pp'
  | Err _ => cleaned t V O s'
  end.
Proof.
  intros Ht Hsav Hex. induction refs as [|ref refs IH]; intros V1 pp s done r s' Hp Hs; cbn [prepareLoop].
  { intros [= <- <- <-]. exists V1. split; [done|]. split; [done|]. split; [constructor|done]. }
  destruct (prepareRef fuel t pp ref s) as [[[ref' pp1]|e] s1] eqn:E.
  - pose proof (prepareRef_spec t V O V1 files pp ref Ht Hsav Hex Hp s _ s1 Hs E) as (V2 & Hs2 & Hp2 & Hr2 & Hm2).
    cbn [fst snd] in Hp2, Hr2, Hm2.
    destruct (prepareLoop fuel t pp1 refs s1) as [[dn r1] s2] eqn:El. intros [= <- <- <-].
    specialize (IH V2 pp1 s1 dn r1 s2 Hp2 Hs2 El). destruct r1 as [pp'|e]; [|done].
    destruct IH as (V3 & Hs3 & Hp3 & Hf & Hm). exists V3. split; [done|]. split; [done|]. split; [|by etrans].
    constructor; [|done]. unfold refDone in *. destruct (IsWSTLSLocalPath ref); [done|]. by eapply lookup_weaken.
  - intros [= <- <- <-].
    exact (prepareRef_spec t V O V1 files pp ref Ht Hsav Hex Hp s _ s1 Hs E).
Qed.

Lemma render_local p : IsWSTLSLocalPath root = true -> IsWSTLSLocalPath (render (root :: p)) = true.
Proof.
  intros Hr. unfold render. destruct p as [|x p]; [done|]. cbn [Join].
  destruct root as [|a [|b [|c rest]]]; done.
Qed.

(** What the service sees of one reference of a stored tunnel: a local path,
    the one it was or that of the decrypted copy. *)
Definition usable (t : gostring) (files : gmap gostring gostring) (V1 : gmap path gofile) (ref ref' : gostring) : Prop :=
  IsWSTLSLocalPath ref' = true
  /\ if IsWSTLSLocalPath ref then ref' = ref
     else ref' = render (runtimeDir t ++ [ref]) /\ exists d, files !! ref = Some d
          /\ V1 !! key (runtimeDir t ++ [ref]) = Some (mkFile ref d).

Lemma refDone_usable t files V V1 pp ref ref' :
  IsWSTLSLocalPath root = true -> prepared t files V V1 pp -> refDone pp ref ref' -> usable t files V1 ref ref'.
Proof.
  intros Hr Hp. unfold refDone, usable. destruct (IsWSTLSLocalPath ref) eqn:El; [by intros ->|].
  intros Hl. destruct (pd_paths _ _ _ _ _ Hp _ _ Hl) as (-> & d & Hd & HV).
  split; [by apply (render_local (_ :: _))|eauto].
Qed.

Lemma cleanupFiles_swept t V O s V1 files pp u s' :
  at_ V1 O s -> uncreated t pp s -> prepared t files V V1 pp -> cleanupFiles (pp_runtimeDir pp) s = (u, s') -> cleaned t V O s'.
Proof.
  intros Hs Hfr [Hag Hdir _]. destruct Hdir as [Hd|Hd]; rewrite Hd.
  - cbn. intros [= <- <-]. exists V1. split; [done|]. split; [done|]. left. by apply Hfr.
  - intros E. apply (orCleanup_spec t V O V1 (mfail (A := unit) (ErrText "")) (fun _ _ => True) Hag
      ltac:(by intros z rz zs Hz [= <- <-]) s (Err (ErrText "")) s' Hs). unfold orCleanup, mfail. by rewrite E.
Qed.

(** Starting a tunnel from the store: on success every TLS reference is a local
    path, that of a stored name holds the decrypted contents it was saved with, and
    no other file changed; nothing is left in the runtime directory after a failure
    or after the cleanup function, unless it could not be removed. *)
Theorem PrepareWSTLSFiles_safe V O c files s r c' s' :
  TunnelNameIsValid (c_Name c) = true -> savable files -> tlsExactly root V (c_Name c) files ->
  at_ V O s -> PrepareWSTLSFiles fuel true c s = (r, c', s') ->
  match r with
  | Ok dir =>
      exists V1, at_ V1 O s' /\ agree (runtimeDir (c_Name c)) V V1
      /\ Forall2 (usable (c_Name c) files V1) (wsTLSReferences c) (wsTLSReferences c')
      /\ forall u s'', cleanupFiles dir s' = (u, s'') -> cleaned (c_Name c) V O s''
  | Err _ =>
      (find (prepareChecks true) (wsTLSReferences c) <> None /\ s' = s)
      \/ cleaned (c_Name c) V O s'
  end.
Proof.
  intros Hv Hsav Hex Hs. unfold PrepareWSTLSFiles. set (t := c_Name c) in *.
  destruct (find _ _) as [bad|] eqn:Ef; [intros [= <- <- <-]; by left|]. cbn [negb].
  destruct (removeWSTLSRuntimeFiles fuel t s) as [r0 s0] eqn:E0.
  unfold removeWSTLSRuntimeFiles, wsTLSDirectory, mthen in E0.
  rewrite (RootDirectory_at fuel root V O s true Hs) in E0. cbn [mwhen] in E0. unfold mret in E0.
  change (root :: wsTLSDirectoryName :: [wsTLSRuntimeDirectoryName; t]) with (runtimeDir t) in E0.
  pose proof (RemoveAll_swept t s r0 s0 E0) as Hsw. pose proof (RemoveAll_spec root V O (runtimeDir t) s r0 s0 Hs E0) as Hrem.
  destruct r0 as [u|e].
  2:{ intros [= <- <- <-]. right. destruct Hrem as (V1 & Hag & Hs0). exists V1. split; [done|]. split; [done|by right]. }
  assert (Hp0 : prepared t files V (without (runtimeDir t) V) (mkPreparing [] ∅)).
  { split; [intros k Hk; by apply without_lookup|by left|].
    intros ref p Hx. cbn [pp_paths] in Hx. by rewrite lookup_empty in Hx. }
  destruct (prepareLoop fuel t (mkPreparing [] ∅) (wsTLSReferences c) s0) as [[dn r1] s1] eqn:El.
  pose proof (prepareLoop_spec t V O files _ Hv Hsav Hex _ _ s0 dn r1 s1 Hp0 (conj Hrem (fun _ => Hsw)) El) as Hl.
  destruct r1 as [pp|e]; intros [= <- <- <-]; [|by right].
  destruct Hl as (V1 & [Hs1 Hfr1] & Hp1 & HF & _). exists V1. split; [done|]. split; [apply Hp1|].
  assert (HU : Forall2 (usable t files V1) (wsTLSReferences c) dn).
  { eapply Forall2_impl; [exact HF|]. intros x y. apply (refDone_usable t files V V1 pp x y (proj1 Hs) Hp1). }
  destruct (writeRefs_spec c dn) as [-> _]; [by symmetry; eapply Forall2_length| |].
  { eapply Forall2_Forall_r; [exact HU|]. apply Forall_forall. by intros x _ y [Hy _] ->. }
  split; [done|]. intros u2 s2 Hc. by eapply cleanupFiles_swept.
Qed.
End Tunnels.
