(* ===== verification/StoreMigration.v ===== *)
(** * Migrating unencrypted configurations loses none *)

From S2P Require Import Prelude GoStrings GoNum Netip Config Name Paths WSTLS WSTLSNames WSTLSCollect WSTLSTheorems Parser Writer ConfWf RoundTrip Effects Store StoreLaws StoreTheorems StoreTLS StoreTunnels.
Local Open Scope Z_scope.

Section Migration.
Context {W handle : Type} `{FileSystem W handle} `{!FileLaws} `{UnicodeTables} `{NetURL}.
Context (decoders : list (gostring -> option gostring)) (fuel : nat) (root : gostring).
Context (V0 : gmap path gofile) (O : gmap handle (path * bool)).

Abbreviation at_ := (at_ root).
Abbreviation confPath := (confPath root).
Abbreviation confDir := [root; str "Configurations"].

(** The files at the paths of tunnels are spelled in ASCII, and what is in the
    files is of a size DPAPI takes. *)
Definition spelled : Prop := forall name f, TunnelNameIsValid name = true ->
  V0 !! key (confPath name) = Some f -> map lowerByte (f_name f) = map lowerByte (name ++ configFileSuffix).

Definition small : Prop := forall k f name c, V0 !! k = Some f ->
  FromWgQuickWithUnknownEncoding decoders (f_data f) name = Ok c -> Z.of_nat (length (ToWgQuick c)) < 2 ^ 32.

(** [V0] has no temporary file. *)
Definition tidy : Prop := forall k f, V0 !! k = Some f -> isTmp k = false.

(** The configuration in [f] is in the store of [V], under its name. *)
Definition migratedTo (V : gmap path gofile) (f : gofile) : Prop :=
  exists c b, FromWgQuickWithUnknownEncoding decoders (f_data f)
                (TrimSuffix (Base (f_name f)) configFileUnencryptedSuffix) = Ok c
    /\ TunnelNameIsValid (c_Name c) = true
    /\ V !! key (confPath (c_Name c)) = Some (mkFile (c_Name c ++ configFileSuffix) b)
    /\ protects b (ToWgQuick c) (c_Name c).

(** Nothing is lost between [V0] and [V]: a file is as it was or migrated, the
    tunnels that were there are as they were, and nothing is new but tunnels. *)
Record kept (V : gmap path gofile) : Prop := {
  kp_files : forall k f, V0 !! k = Some f -> V !! k = Some f \/ (V !! k = None /\ migratedTo V f);
  kp_confs : forall name f, TunnelNameIsValid name = true ->
    V0 !! key (confPath name) = Some f -> V !! key (confPath name) = Some f;
  kp_new : forall k f, V !! k = Some f -> V0 !! k = Some f
    \/ exists name, TunnelNameIsValid name = true /\ k = key (confPath name) /\ f_name f = name ++ configFileSuffix
}.

(** What the listing of the directory says of an entry when the files are [V],
    and what follows of those to migrate. *)
Definition listedIn (V : gmap path gofile) (e : dirEntry) : Prop :=
  (forall f, V !! key (confDir ++ [de_Name e]) = Some f -> de_Name e = f_name f)
  /\ (de_IsRegular e = true -> isTmp (key (confDir ++ [de_Name e])) = false ->
      is_Some (V !! key (confDir ++ [de_Name e]))).
Definition listed (e : dirEntry) : Prop :=
  migratable e = true ->
  (forall f, V0 !! key (confDir ++ [de_Name e]) = Some f -> de_Name e = f_name f)
  /\ (isTmp (key (confDir ++ [de_Name e])) = false -> is_Some (V0 !! key (confDir ++ [de_Name e]))).

Lemma Base_plain n :
  n <> [] -> Forall (fun c => isSeparator c = false /\ c <> ":"%char) n -> Base n = n.
Proof.
  intros Hn Hf. assert (Hs : Forall (fun c => isSeparator c = false) n) by (eapply Forall_impl; [exact Hf|naive_solver]).
  assert (Ht : reverse (dropWhile isSeparator (reverse n)) = n).
  { destruct n as [|c n _] using rev_ind; [done|]. rewrite Forall_app, Forall_singleton in Hs.
    rewrite reverse_snoc. cbn [dropWhile]. destruct Hs as [_ ->]. by rewrite reverse_cons, reverse_involutive. }
  unfold Base. destruct n as [|a n]; [done|]. rewrite Ht.
  assert (volumeNameLen (a :: n) = 0%nat) as ->.
  { apply Forall_cons in Hf as [[Ha _] Hf]. unfold volumeNameLen. rewrite Ha. cbn [negb].
    destruct n as [|b n]; [done|]. apply Forall_cons in Hf as [[_ Hb] _].
    destruct b as [[] [] [] [] [] [] [] []]; done. }
  cbn [drop]. by rewrite (proj2 (afterLast_None _ _) Hs).
Qed.

(** A file to migrate is not spelled like a tunnel. *)
Lemma migratable_spelling e name :
  migratable e = true -> TunnelNameIsValid name = true -> map lowerByte (de_Name e) <> map lowerByte (name ++ configFileSuffix).
Proof.
  intros Hm Hv Ef. unfold migratable in Hm. apply andb_prop in Hm as [[Hm Hreg]%andb_prop _].
  set (n := de_Name e) in *. clearbody n.
  assert (Hm' : Forall (fun c => nameByte c = true) (name ++ configFileSuffix)).
  { apply Forall_app. split; [|by repeat constructor]. apply Forall_forall. intros c. by apply TunnelNameIsValid_bytes. }
  assert (Hplain : Forall (fun c => isSeparator c = false /\ c <> ":"%char) n).
  { apply Forall_forall. intros c Hc.
    assert (lowerByte c ∈ map lowerByte (name ++ configFileSuffix)) as (d & Ed & Hd)%list_elem_of_fmap
      by (rewrite <- Ef; by apply list_elem_of_fmap_2).
    rewrite Forall_forall in Hm'. specialize (Hm' d Hd).
    pose proof (code_cases (fun d => negb (nameByte d)
      || negb (isSeparator (lowerByte d) || Ascii.eqb (lowerByte d) ":")) eq_refl d) as Hall. cbn beta in Hall.
    rewrite Hm', <- Ed in Hall. cbn [negb orb] in Hall. apply negb_true_iff, orb_false_iff in Hall as [Hs Hcol].
    pose proof (code_cases (fun c => Bool.eqb (isSeparator (lowerByte c)) (isSeparator c)) eq_refl c) as Hsc.
    cbn beta in Hsc. apply Bool.eqb_prop in Hsc. split; [congruence|]. intros ->. done. }
  assert (Hne : n <> []) by (intros ->; destruct name; done).
  rewrite Base_plain in Hm by done. unfold endsWith in Hm. apply andb_prop in Hm as [_ (t & ->)%HasSuffix_spec].
  change configFileUnencryptedSuffix with (str ".con" ++ ["f"%char]) in Ef.
  change configFileSuffix with (str ".conf.dpap" ++ ["i"%char]) in Ef.
  rewrite !(assoc_L (++)), !map_app in Ef. cbn [map] in Ef. apply app_inj_tail in Ef as [_ Ef]. done.
Qed.

(** No file to migrate is at the path of a tunnel. *)
Lemma migratable_apart e name :
  spelled -> listed e -> migratable e = true -> TunnelNameIsValid name = true ->
  key (confDir ++ [de_Name e]) <> key (confPath name).
Proof.
  intros Hsp Hl Hm Hv Ek. destruct (Hl Hm) as [Hl1 Hl2]. rewrite Ek in Hl1, Hl2. destruct (Hl2 (isTmp_conf root name Hv)) as [f Hf].
  apply (migratable_spelling e name Hm Hv). rewrite (Hl1 f Hf). by apply Hsp.
Qed.

(** The entries of a later run are those of the first or tunnels. *)
Lemma listedIn_listed V e : tidy -> kept V -> listedIn V e -> listed e.
Proof.
  intros Hti Hk [Hl1 Hl2] Hm. set (ke := key (confDir ++ [de_Name e])) in *.
  assert (Hreg : de_IsRegular e = true) by (unfold migratable in Hm; by apply andb_prop in Hm as [[_ ?]%andb_prop _]).
  assert (Hold : isTmp ke = false -> exists f, V0 !! ke = Some f /\ de_Name e = f_name f).
  { intros Ht. destruct (Hl2 Hreg Ht) as [f Hf]. pose proof (Hl1 f Hf) as En.
    destruct (kp_new _ Hk _ _ Hf) as [?|(name & Hv & _ & Ef)]; [eauto|]. exfalso.
    apply (migratable_spelling e name Hm Hv). congruence. }
  split; [|intros Ht; destruct (Hold Ht) as (f & Hf & _); eauto].
  intros f Hf. destruct (Hold (Hti _ _ Hf)) as (f' & Hf' & E). congruence.
Qed.

(** Adding a tunnel that was not there keeps everything. *)
Lemma kept_save V c b :
  TunnelNameIsValid (c_Name c) = true -> kept V -> V !! key (confPath (c_Name c)) = None ->
  kept (<[key (confPath (c_Name c)) := mkFile (c_Name c ++ configFileSuffix) b]> V).
Proof.
  intros Hv [Hf Hc Hnew] Hno.
  assert (Hmig : forall f, migratedTo V f ->
    migratedTo (<[key (confPath (c_Name c)) := mkFile (c_Name c ++ configFileSuffix) b]> V) f).
  { intros f (c' & b' & Ep & Hv' & Hl & Hp). exists c', b'. split; [done|]. split; [done|]. split; [|done].
    rewrite lookup_insert_ne; [done|]. intros E. rewrite <- E in Hl. congruence. }
  split.
  - intros k f Hk. rewrite lookup_insert. case_decide as Ek.
    + subst k. pose proof (Hc _ _ Hv Hk). congruence.
    + destruct (Hf k f Hk) as [?|[? ?]]; auto.
  - intros name f Hn Hk. rewrite lookup_insert_ne; [by apply Hc|]. intros E.
    pose proof (Hc _ _ Hn Hk) as Hx. rewrite <- E in Hx. congruence.
  - intros k f. rewrite lookup_insert_Some. intros [[<- <-]|[_ Hk]]; [right; by exists (c_Name c)|by apply Hnew].
Qed.

(** Removing a file once its contents are stored keeps everything. *)
Lemma kept_remove V e :
  spelled -> listed e -> migratable e = true -> kept V ->
  (forall f, V0 !! key (confDir ++ [de_Name e]) = Some f -> migratedTo V f) ->
  kept (delete (key (confDir ++ [de_Name e])) V).
Proof.
  intros Hsp Hl Hm [Hf Hc Hnew] Hdone. set (ke := key (confDir ++ [de_Name e])) in *.
  assert (Hapart : forall name, TunnelNameIsValid name = true -> ke <> key (confPath name))
    by (intros name Hn; by apply migratable_apart).
  assert (Hmig : forall f, migratedTo V f -> migratedTo (delete ke V) f).
  { intros f (c' & b' & Ep & Hv' & Hlk & Hp). exists c', b'. split; [done|]. split; [done|]. split; [|done].
    rewrite lookup_delete_ne; [done|by apply Hapart]. }
  split.
  - intros k f Hk. destruct (decide (k = ke)) as [->|Hne].
    + right. rewrite lookup_delete_eq. auto.
    + rewrite lookup_delete_ne by done. destruct (Hf k f Hk) as [?|[? ?]]; auto.
  - intros name f Hn Hk. rewrite lookup_delete_ne; [by apply Hc|by apply Hapart].
  - intros k f [_ Hk]%lookup_delete_Some. by apply Hnew.
Qed.

(** One file: whatever happens, nothing is lost. *)
Lemma migrateFile_kept V e (read : result gostring) :
  spelled -> small -> listed e -> migratable e = true -> kept V ->
  (forall d f, read = Ok d -> V0 !! key (confDir ++ [de_Name e]) = Some f -> f_data f = d) ->
  triple (at_ V O) (migrateFile decoders fuel confDir e read)
    (fun call s => exists V', kept V' /\ at_ V' O s) (fun s => exists V', kept V' /\ at_ V' O s).
Proof.
  intros Hsp Hsm Hl Hm Hk Hread. unfold migrateFile.
  eapply (triple_bind _ _ _ (fun d s => read = Ok d /\ at_ V O s)).
  { intros s r s' Hs [= <- <-]. destruct read; [done|eauto]. }
  intros d. eapply (triple_bind _ _ _ (fun c s => (read = Ok d /\ FromWgQuickWithUnknownEncoding decoders d
    (TrimSuffix (Base (de_Name e)) configFileUnencryptedSuffix) = Ok c) /\ at_ V O s)).
  { intros s r s' [Hd Hs] [= <- <-]. destruct (FromWgQuickWithUnknownEncoding _ _ _); [done|eauto]. }
  intros c s0 r0 s0' [[Hd Hc] Hs0]. revert s0 r0 s0' Hs0.
  eapply triple_bind.
  { eapply triple_conseq; [apply (Save_spec fuel root V O c false)|done|intros a s Hs; exact Hs|].
    intros s Hs. eauto. }
  intros u0 s0 r0 s0' (Hv & Hno & b & Hb & Hs0). specialize (Hno eq_refl).
  set (V1 := <[key (confPath (c_Name c)) := mkFile (c_Name c ++ configFileSuffix) b]> V) in *.
  assert (Hk1 : kept V1) by (by apply kept_save).
  assert (Hdone : forall f, V0 !! key (confDir ++ [de_Name e]) = Some f -> migratedTo V1 f).
  { intros f Hf. exists c, b. rewrite (Hread d f Hd Hf), <- (proj1 (Hl Hm) f Hf). split; [done|]. split; [done|].
    split; [apply lookup_insert_eq|]. rewrite bytesToBlob_small in Hb; [done|].
    eapply Hsm; [exact Hf|]. rewrite (Hread d f Hd Hf). exact Hc. }
  revert s0 r0 s0' Hs0. eapply (triple_bind _ _ _ (fun _ => at_ (delete (key (confDir ++ [de_Name e])) V1) O)).
  { eapply triple_conseq; [apply (triple_sys_sees root V1 O (delete (key (confDir ++ [de_Name e])) V1) O V1 O (fun _ => True))|done|naive_solver|].
    - apply sees_triple. intros F HV. eapply triple_conseq; [apply fl_Remove|done|..].
      + intros u w [HF HO]. split; [done|]. split; [|done]. by rewrite HF, visible_delete, HV.
      + intros w Hw. apply sees_view. eauto.
    - intros s Hs. eauto. }
  intros u1. eapply (triple_bind _ _ _ (fun _ => at_ (delete (key (confDir ++ [de_Name e])) V1) O)).
  { unfold Path. rewrite Hv. cbn [negb]. apply triple_configDir. by apply triple_ret. }
  intros p. apply triple_ret. intros s Hs. eexists. split; [|exact Hs]. by apply kept_remove.
Qed.

Lemma kept_init : kept V0.
Proof. split; auto. Qed.

(** A run that is scheduled has one attempt less. *)
Definition fewer (sharingBase : nat) (mg : migration) : Prop := forall base, mg_retry mg = Some base -> sharingBase = S base.

(** One entry, and the loop: they return, and nothing is lost. *)
Lemma migrateEntry_kept V sharingBase mg e s :
  spelled -> small -> tidy -> listed e -> kept V -> at_ V O s ->
  exists mg' V' s', migrateEntry decoders fuel sharingBase confDir mg e s = (Ok mg', s') /\ kept V' /\ at_ V' O s'
    /\ (fewer sharingBase mg -> fewer sharingBase mg').
Proof.
  intros Hsp Hsm Htidy Hl Hk Hs. unfold migrateEntry. destruct (migratable e) eqn:Hm; cbn [negb]; [|eexists _, V, s; done].
  assert (Hopen : triple (at_ V O) (sys (os_OpenAndRead (confDir ++ [de_Name e])))
    (fun r s => (forall d, r = Ok d -> exists f, f_data f = d /\
        (isTmp (key (confDir ++ [de_Name e])) = false -> V !! key (confDir ++ [de_Name e]) = Some f)) /\ at_ V O s)
    (at_ V O)).
  { apply triple_sys_sees, sees_triple. intros F HV. eapply triple_conseq; [apply fl_OpenAndRead|done|..].
    - intros r w [Hw Hr]. split; [|apply sees_view; eauto]. intros d Hd. destruct (Hr d Hd) as (f & Hf & Hfd).
      exists f. split; [done|]. intros Ht. by rewrite <- HV, visible_lookup.
    - intros w Hw. apply sees_view. eauto. }
  unfold mthen, try. destruct (sys (os_OpenAndRead _) s) as [opened s1] eqn:Eo.
  pose proof (Hopen s opened s1 Hs Eo) as Ho. destruct opened as [read|err].
  2: { eexists _, V, s1. split; [reflexivity|]. split; [done|]. split; [done|]. intros Hfw. case_bool_decide; [|done].
       destruct (mg_retry mg) eqn:Er, sharingBase as [|base]; try done. by intros b [= <-]. }
  destruct Ho as [Hr Hs1].
  destruct (migrateFile decoders fuel confDir e read s1) as [r s2] eqn:Em.
  assert (Hread : forall d f, read = Ok d -> V0 !! key (confDir ++ [de_Name e]) = Some f -> f_data f = d).
  { intros d f Hd Hf. destruct (Hr d Hd) as (f' & <- & HV). pose proof (HV (Htidy _ _ Hf)) as Hf'.
    destruct (kp_files _ Hk _ f Hf) as [E|[E _]]; congruence. }
  pose proof (migrateFile_kept V e read Hsp Hsm Hl Hm Hk Hread s1 r s2 Hs1 Em) as Hmf.
  destruct r as [call|e']; destruct Hmf as (V' & Hk' & Hs'); eexists _, V', s2; (split; [reflexivity|by split_and!]).
Qed.

Lemma migrateLoop_kept sharingBase es :
  spelled -> small -> tidy -> Forall listed es ->
  forall V mg s, kept V -> at_ V O s ->
  exists mg' V' s', migrateLoop decoders fuel sharingBase confDir mg es s = (Ok mg', s') /\ kept V' /\ at_ V' O s'
    /\ (fewer sharingBase mg -> fewer sharingBase mg').
Proof.
  intros Hsp Hsm Hti Hes. induction Hes as [|e es He _ IH]; intros V mg s Hk Hs; cbn [migrateLoop].
  - eexists _, V, s. done.
  - destruct (migrateEntry_kept V sharingBase mg e s Hsp Hsm Hti He Hk Hs) as (mg1 & V1 & s1 & E1 & Hk1 & Hs1 & Hf1).
    unfold mthen. rewrite E1. destruct (IH V1 mg1 s1 Hk1 Hs1) as (mg2 & V2 & s2 & E2 & Hk2 & Hs2 & Hf2).
    exists mg2, V2, s2. split_and!; auto.
Qed.

Lemma at_tidy V s : at_ V O s -> forall k f, V !! k = Some f -> isTmp k = false.
Proof.
  intros (_ & _ & _ & HV & _) k f Hf. rewrite <- HV in Hf. by apply map_lookup_filter_Some in Hf as [_ ?].
Qed.

(** One run, the first or a later one. *)
Lemma migrateRun_kept V sharingBase s :
  spelled -> small -> tidy -> kept V -> at_ V O s ->
  exists mg V' s', migrateUnencryptedConfigs decoders fuel sharingBase s = (Ok mg, s')
    /\ kept V' /\ at_ V' O s' /\ fewer sharingBase mg.
Proof.
  intros Hsp Hsm Hti Hk Hs. unfold migrateUnencryptedConfigs, mthen at 1, try at 1. rewrite (configDir_at fuel root V O s Hs).
  assert (Hdir : triple (at_ V O) (sys (os_ReadDir confDir)) (fun es s => Forall (listedIn V) es /\ at_ V O s) (at_ V O)).
  { apply triple_sys_sees, sees_triple. intros F HV. eapply triple_conseq; [apply fl_ReadDir|done|..].
    - intros es w (Hw & _ & Hl2 & Hl3). split; [|apply sees_view; eauto].
      apply Forall_forall. intros e He. split.
      + intros f Hf. rewrite <- HV in Hf. apply map_lookup_filter_Some in Hf as [Hf _]. by apply Hl2.
      + intros Hreg Ht. rewrite <- HV, visible_lookup by done. by apply Hl3.
    - intros w Hw. apply sees_view. eauto. }
  unfold mthen, try. destruct (sys (os_ReadDir confDir) s) as [r s1] eqn:E.
  pose proof (Hdir s r s1 Hs E) as Hd. destruct r as [es|e]; [|by eexists _, V, s1].
  destruct Hd as [Hes Hs1].
  assert (Hes' : Forall listed es) by (eapply Forall_impl; [exact Hes|]; intros e; by apply listedIn_listed).
  destruct (migrateLoop_kept sharingBase es Hsp Hsm Hti Hes' V (mkMigration [] None) s1 Hk Hs1) as (mg & V' & s' & El & Hk' & Hs' & Hf).
  exists mg, V', s'. split_and!; try done. by apply Hf.
Qed.

Lemma migrateRetries_step others rounds sharingBase :
  migrateRetries decoders others (S rounds) fuel sharingBase
  = do! mg := migrateUnencryptedConfigs decoders fuel sharingBase in
    match mg_retry mg with
    | None => mret [mg]
    | Some base => do! _ := mmod others in do! mgs := migrateRetries decoders others rounds fuel base in mret (mg :: mgs)
    end.
Proof. done. Qed.

(** C33: A migration comes to an end with the runs its timer starts: each of them has
    one attempt less than the one before, so that with [sharingBase] attempts
    there are at most one more runs (four for MigrateUnencryptedConfigs). And
    it loses nothing: every file is still there or its configuration is in the
    store under its name, encrypted, no tunnel that was in the store has been
    replaced, and nothing is new but tunnels. This holds where what happens until
    the timer fires leaves the files alone ([others]), the files that stand at
    the path of a tunnel are spelled like it but for ASCII case ([spelled]), and
    configurations are shorter than four gigabytes, which DPAPI needs ([small]). *)
Theorem migrateUnencryptedConfigs_keeps sharingBase others s :
  spelled -> small -> (forall V s, at_ V O s -> at_ V O (others s)) -> at_ V0 O s ->
  exists mgs V' s', migrateRetries decoders others (S sharingBase) fuel sharingBase s = (Ok mgs, s')
    /\ (length mgs <= S sharingBase)%nat /\ kept V' /\ at_ V' O s'.
Proof.
  intros Hsp Hsm Hoth Hs. assert (Hti : tidy) by exact (at_tidy V0 s Hs).
  enough (Hall : forall base V s, kept V -> at_ V O s ->
    exists mgs V' s', migrateRetries decoders others (S base) fuel base s = (Ok mgs, s')
      /\ (length mgs <= S base)%nat /\ kept V' /\ at_ V' O s') by exact (Hall sharingBase V0 s kept_init Hs).
  clear s Hs sharingBase. induction base as [|base IH]; intros V s Hk Hs; rewrite migrateRetries_step; unfold mthen at 1.
  - destruct (migrateRun_kept V 0%nat s Hsp Hsm Hti Hk Hs) as (mg & V1 & s1 & -> & Hk1 & Hs1 & Hf).
    destruct (mg_retry mg) as [b|] eqn:Er; [by pose proof (Hf b Er)|]. by exists [mg], V1, s1.
  - destruct (migrateRun_kept V (S base) s Hsp Hsm Hti Hk Hs) as (mg & V1 & s1 & -> & Hk1 & Hs1 & Hf).
    destruct (mg_retry mg) as [b|] eqn:Er; [|exists [mg], V1, s1; split_and!; (done || cbn; lia)].
    injection (Hf b Er) as <-. unfold mthen at 1, mmod.
    destruct (IH V1 (others s1) Hk1 (Hoth _ _ Hs1)) as (mgs & V2 & s2 & E2 & Hl & Hk2 & Hs2).
    unfold mthen. rewrite E2. exists (mg :: mgs), V2, s2. split_and!; (done || cbn; lia).
Qed.
End Migration.
