(* ===== verification/ImportTheorems.v ===== *)
(** * What is exported can be imported

    An archive that exportTunnels wrote gives back the tunnels it was made from,
    with their TLS files. *)

From S2P Require Import Prelude GoStrings GoNum Netip Config Name Paths WSTLS WSTLSNames WSTLSCollect WSTLSTheorems Parser Writer ConfWf RoundTrip Effects ImportExport Store StoreLaws StoreTheorems StoreMigration.
Local Open Scope Z_scope.

(** ** Names of entries *)

(** A name that is one element of a path: not empty, with no separator or colon,
    and not starting with a dot. *)
Definition plainName (p : gostring) : Prop :=
  startsPlain p /\ Forall (fun c => isSeparator c = false /\ c <> ":"%char) p.

Lemma plainName_nosep p : plainName p -> Forall (fun c => isSeparator c = false) p.
Proof. intros [_ H]. eapply Forall_impl; [exact H|naive_solver]. Qed.

Lemma plainName_noslash p : plainName p -> Forall (fun c => SlashPath.isSlash c = false) p.
Proof.
  intros H%plainName_nosep. eapply Forall_impl; [exact H|]. intros c. unfold isSeparator, SlashPath.isSlash.
  by intros [_ ?]%orb_false_iff.
Qed.

Lemma plainName_notin p : plainName p -> "/"%char ∉ p.
Proof. intros H%plainName_noslash Hin. rewrite Forall_forall in H. by apply H in Hin. Qed.

Lemma plainName_app p q : plainName p -> Forall (fun c => isSeparator c = false /\ c <> ":"%char) q -> plainName (p ++ q).
Proof. intros [H1 H2] Hq. split; [by apply startsPlain_app|by apply Forall_app]. Qed.

Lemma nonempty_plain p : plainName p -> p <> [].
Proof. by intros [H _] ->. Qed.

Lemma tunnel_plain t : TunnelNameIsValid t = true -> plainName t.
Proof.
  intros Hv. pose proof (TunnelNameIsValid_nosep t Hv) as Hs. split.
  - apply TunnelNameIsValid_spec in Hv as ([Hl _] & _ & Hp & _). destruct t as [|c t]; [cbn in Hl; lia|].
    cbn. intros ->. done.
  - apply Forall_forall. intros c Hc. rewrite Forall_forall in Hs. split; [by apply Hs|].
    intros ->. apply (TunnelNameIsValid_bytes _ _ Hv) in Hc. done.
Qed.

Lemma stored_plain n : WSTLSFileNameIsValid n = true -> plainName n.
Proof.
  intros (Hb & Hs & _)%WSTLSFileNameIsValid_spec. split; [done|]. apply Forall_forall. intros c Hc.
  rewrite Forall_forall in Hb. pose proof (Hb c Hc) as Hl. split; [exact (proj2 (laterNameByte_facts c Hl))|].
  intros ->. done.
Qed.

Lemma Ext_conf t : plainName t -> Ext (t ++ str ".conf") = str ".conf".
Proof.
  intros Ht. unfold Ext.
  rewrite (proj2 (afterLast_None isSeparator (t ++ str ".conf"))) by (apply Forall_app; split; [by apply plainName_nosep|by repeat constructor]).
  cbn [default]. change (str ".conf") with ("."%char :: str "conf"). rewrite cut_last_app; [done|].
  vm_compute. set_solver.
Qed.

Lemma Ext_entry t n : plainName n -> Ext (t ++ str "/" ++ n) = Ext n.
Proof.
  intros Hn%plainName_nosep. unfold Ext. rewrite (proj2 (afterLast_None isSeparator n)) by done.
  change (t ++ str "/" ++ n) with (t ++ "/"%char :: n). by rewrite afterLast_app.
Qed.

Lemma plain_conf t : plainName t -> plainName (t ++ str ".conf").
Proof. intros Ht. apply plainName_app; [done|]. by repeat constructor. Qed.

Lemma nameOfFile_conf t : plainName t -> nameOfFile (t ++ str ".conf") = t.
Proof.
  intros Ht. unfold nameOfFile. rewrite Ext_conf by done. pose proof (plain_conf t Ht) as Hc.
  rewrite Base_plain; [apply TrimSuffix_app|by apply nonempty_plain|apply Hc].
Qed.

(** What WSTLSZipFileReader makes of the name of a configuration. *)
Lemma slash_conf t : plainName t ->
  SlashPath.Dir (t ++ str ".conf") = str "."
  /\ TrimSuffix (SlashPath.SlashBase (t ++ str ".conf")) (SlashPath.SlashExt (t ++ str ".conf")) = t.
Proof.
  intros Ht. pose proof (plain_conf t Ht) as Hc. pose proof (plainName_noslash _ Hc) as Hs.
  pose proof (proj2 (afterLast_None SlashPath.isSlash _) Hs) as Hl. split.
  - unfold SlashPath.Dir. rewrite Hl. reflexivity.
  - assert (Hb : SlashPath.SlashBase (t ++ str ".conf") = t ++ str ".conf").
    { unfold SlashPath.SlashBase. destruct (t ++ str ".conf") as [|c p] eqn:E; [by apply nonempty_plain in Hc|].
      assert (Hr : reverse (dropWhile SlashPath.isSlash (reverse (c :: p))) = c :: p).
      { destruct (c :: p) as [|d q _] using rev_ind; [done|]. rewrite Forall_app, Forall_singleton in Hs.
        rewrite reverse_snoc. cbn [dropWhile]. destruct Hs as [_ ->]. by rewrite reverse_cons, reverse_involutive. }
      by rewrite Hr, Hl. }
    rewrite Hb. unfold SlashPath.SlashExt. rewrite Hl. cbn [default].
    change (str ".conf") with ("."%char :: str "conf"). rewrite cut_last_app by (vm_compute; set_solver).
    apply TrimSuffix_app.
Qed.

Lemma cleanStep_plain rooted out p : plainName p -> SlashPath.cleanStep rooted out p = p :: out.
Proof.
  intros [H _]. unfold SlashPath.cleanStep. destruct p as [|c p]; [done|]. cbn in H.
  rewrite !bool_decide_false by (vm_compute; congruence). done.
Qed.

Lemma JoinPath_entry t n : plainName t -> plainName n -> SlashPath.JoinPath [str "."; t; n] = t ++ str "/" ++ n.
Proof.
  intros Ht Hn. unfold SlashPath.JoinPath. cbn [List.filter].
  rewrite !bool_decide_false by (try done; by apply nonempty_plain). cbn [negb].
  unfold SlashPath.Clean. rewrite !Join_cons. cbn [Join].
  change (str "." ++ str "/" ++ t ++ str "/" ++ n) with (str "." ++ "/"%char :: (t ++ "/"%char :: n)).
  rewrite Split_cons by (vm_compute; set_solver). rewrite Split_cons by (by apply plainName_notin).
  rewrite Split_notin by (by apply plainName_notin). cbn [fold_left].
  assert (Hdot : SlashPath.cleanStep (HasPrefix (str "." ++ "/"%char :: t ++ "/"%char :: n) (str "/")) [] (str ".") = []) by done.
  rewrite Hdot, !cleanStep_plain by done. rewrite reverse_cons, reverse_singleton. cbn [app].
  assert (HasPrefix (str "." ++ "/"%char :: t ++ "/"%char :: n) (str "/") = false) as -> by done.
  cbn [app]. rewrite Join_cons. cbn [Join]. destruct t; [by apply nonempty_plain in Ht|done].
Qed.

Lemma IsAbs_plain n : plainName n -> IsAbs n = false.
Proof.
  intros [Hs Hf]. destruct n as [|a n]; [done|]. unfold IsAbs.
  assert (volumeNameLen (a :: n) = 0%nat) as ->; [|done].
  apply Forall_cons in Hf as [[Ha _] Hf]. unfold volumeNameLen. rewrite Ha. cbn [negb].
  destruct n as [|b n]; [done|]. apply Forall_cons in Hf as [[_ Hb] _].
  destruct b as [[] [] [] [] [] [] [] []]; done.
Qed.

(** ** The archive *)

Section RoundTrip.
Context {W : Type} `{TunnelClient W} `{UnicodeTables} `{NetURL} `{Disk}.
Context (decoders : list (gostring -> option gostring)).
Context (filepath_Dir : gostring -> gostring) (zip_OpenReader : gostring -> result (list (gostring * zipFile))).
Context (sortSlice : list unparsedConfig -> list unparsedConfig)
  (storedOrder : gmap gostring gostring -> list (gostring * gostring)).

(** A configuration of the store all of whose TLS files are stored with it, none
    of them under a name with the extension of a configuration. *)
Record exportable (t : gostring) (c : Config) : Prop := {
  ex_wf : wfConfig (set_c_WSTLSFiles ∅ c);
  ex_name : c_Name c = t;
  ex_storable : storable c;
  ex_stored : Forall (fun r => WSTLSFileNameIsValid r = true) (wsTLSReferences c);
  ex_few : Z.of_nat (length (wsTLSReferences c)) < 2 ^ 62;
  ex_ext : Forall (fun r => hasExt r (str ".conf") = false) (wsTLSReferences c)
}.

Lemma exportable_valid t c : exportable t c -> TunnelNameIsValid t = true.
Proof. intros [(Hv & _) Hn _ _ _ _]. by rewrite <- Hn. Qed.

Definition fileEntry (t : gostring) (c : Config) (n : gostring) : gostring * gostring :=
  (t ++ str "/" ++ n, default [] (c_WSTLSFiles c !! n)).
Definition entriesOf (t : gostring) (c : Config) : list (gostring * gostring) :=
  (t ++ str ".conf", ToWgQuick c) :: map (fileEntry t c) (WSTLSStoredFileNames c).

Lemma writeEntry_Ok name data why why' (a : archive) (w : W) s :
  writeEntry name data why why' (a, w) = (Ok tt, s) -> ar_entries s.1 = ar_entries a ++ [(name, data)] /\ s.2 = w.
Proof. unfold writeEntry. destruct (ar_budget a) as [|[|b]]; try done. by intros [= <-]. Qed.

Lemma exportFiles_Ok t c names (a : archive) (w : W) s :
  mfor names (exportFile t c) (a, w) = (Ok tt, s) -> ar_entries s.1 = ar_entries a ++ map (fileEntry t c) names /\ s.2 = w.
Proof.
  revert a w. induction names as [|n names IH]; intros a w; cbn [mfor map]; [intros [= <-]; cbn; by rewrite app_nil_r|].
  unfold mthen. destruct (exportFile t c n (a, w)) as [[[]|e] [a1 w1]] eqn:E; [|done]. intros [Ha Hw]%IH.
  unfold exportFile in E. unfold fileEntry at 1. destruct (c_WSTLSFiles c !! n) as [d|]; [|done].
  apply writeEntry_Ok in E as [E1 E2]. cbn in E1, E2. subst w1. rewrite Ha, E1, <- app_assoc. done.
Qed.

Context (conf : gostring -> Config).

Lemma exportTunnel_Ok t (a : archive) (w : W) s :
  (forall w, exists w', tc_StoredConfig t w = (Ok (conf t), w')) ->
  exportTunnel t (a, w) = (Ok tt, s) -> ar_entries s.1 = ar_entries a ++ entriesOf t (conf t).
Proof.
  intros Hc. unfold exportTunnel, mthen at 1. cbn [fst snd]. destruct (Hc w) as [w1 ->].
  unfold mthen. destruct (writeEntry _ _ _ _ (a, w1)) as [[[]|e] [a2 w2]] eqn:E; [|done].
  apply writeEntry_Ok in E as [E1 E2]. cbn in E1, E2. intros [-> _]%exportFiles_Ok. by rewrite E1, <- app_assoc.
Qed.

Lemma exportTunnels_Ok ts (a : archive) (w : W) s :
  (forall t w, t ∈ ts -> exists w', tc_StoredConfig t w = (Ok (conf t), w')) ->
  exportTunnels ts (a, w) = (Ok tt, s) ->
  ar_entries s.1 = ar_entries a ++ concat (map (fun t => entriesOf t (conf t)) ts).
Proof.
  intros Hc. unfold exportTunnels, mthen at 1.
  destruct (mfor ts exportTunnel (a, w)) as [[[]|e] s1] eqn:E; [|done].
  intros E2. assert (s1 = s) as -> by (destruct (_ =? _)%nat; congruence). clear E2.
  revert a w E. induction ts as [|t ts IH]; intros a w; cbn [mfor map concat]; [intros [= <-]; cbn; by rewrite app_nil_r|].
  unfold mthen. destruct (exportTunnel t (a, w)) as [[[]|e] [a1 w1]] eqn:E; [|done].
  intros E2%IH; [|set_solver]. apply exportTunnel_Ok in E; [|set_solver]. cbn in E. by rewrite E2, E, <- app_assoc.
Qed.

(** ** Reading it *)

(** What archive/zip reads back of an entry that was written. *)
Definition asRead (e : gostring * gostring) : gostring * zipFile :=
  (e.1, mkZipFile (Z.of_nat (length e.2)) (Ok tt) e.2 None).

Lemma zipMap_lookup (files : list (gostring * zipFile)) k f :
  (k, f) ∈ files -> (forall f', (k, f') ∈ files -> f' = f) -> zipMap files !! k = Some f.
Proof.
  unfold zipMap. induction files as [|[k' f'] files IH] using rev_ind; [by intros ?%not_elem_of_nil|].
  rewrite fold_left_app. cbn [fold_left fst snd]. intros Hin Hall. destruct (decide (k' = k)) as [->|Hne].
  - rewrite lookup_insert_eq. f_equal. apply Hall. set_solver.
  - rewrite lookup_insert_ne by done. apply IH; [set_solver|]. intros f'' Hf. apply Hall. set_solver.
Qed.

Section Read.
Context (ts : list gostring) (Hex : forall t, t ∈ ts -> exportable t (conf t)).

Definition written : list (gostring * zipFile) := map asRead (concat (map (fun t => entriesOf t (conf t)) ts)).

Lemma written_elem k f :
  (k, f) ∈ written <-> exists t e, t ∈ ts /\ e ∈ entriesOf t (conf t) /\ (k, f) = asRead e.
Proof.
  unfold written. rewrite list_elem_of_fmap. setoid_rewrite list_elem_of_In at 1. setoid_rewrite in_concat. setoid_rewrite in_map_iff.
  split.
  - intros (e & -> & l & (t & <- & Ht) & He). exists t, e. rewrite !list_elem_of_In. done.
  - intros (t & e & Ht & He & ->). exists e. split; [done|]. exists (entriesOf t (conf t)).
    rewrite <- !list_elem_of_In. split; [by exists t; rewrite <- list_elem_of_In|done].
Qed.

Lemma entry_stored t n : exportable t (conf t) -> n ∈ WSTLSStoredFileNames (conf t) ->
  WSTLSFileNameIsValid n = true /\ n ∈ wsTLSReferences (conf t) /\ is_Some (c_WSTLSFiles (conf t) !! n).
Proof.
  intros [_ _ (Href & _) _ _ _] Hn. apply WSTLSStoredFileNames_spec in Hn as [Hr Hv]. split; [done|]. split; [done|].
  rewrite Forall_forall in Href. specialize (Href n Hr). unfold refOk in Href. by rewrite Hv in Href.
Qed.

(** The entry of a TLS file is found under its path. *)
Lemma written_file t n : t ∈ ts -> n ∈ WSTLSStoredFileNames (conf t) ->
  zipMap written !! (t ++ str "/" ++ n) = Some (asRead (fileEntry t (conf t) n)).2.
Proof.
  intros Ht Hn. pose proof (tunnel_plain t (exportable_valid _ _ (Hex t Ht))) as Hpt.
  destruct (entry_stored t n (Hex t Ht) Hn) as (Hv & _). pose proof (stored_plain n Hv) as Hpn.
  apply zipMap_lookup.
  - apply written_elem. exists t, (fileEntry t (conf t) n). split; [done|]. split; [|done].
    right. by apply list_elem_of_fmap_2.
  - intros f (t' & e & Ht' & He & E)%written_elem. pose proof (tunnel_plain t' (exportable_valid _ _ (Hex t' Ht'))) as Hpt'.
    apply elem_of_cons in He as [->|(n' & -> & Hn')%list_elem_of_fmap].
    + assert (E1 : t ++ str "/" ++ n = t' ++ str ".conf") by exact (f_equal fst E).
      apply plain_conf, plainName_notin in Hpt'. destruct Hpt'. rewrite <- E1. set_solver.
    + destruct (entry_stored t' n' (Hex t' Ht') Hn') as (Hv' & _). pose proof (stored_plain n' Hv') as Hpn'.
      assert (E1 : t ++ str "/" ++ n = t' ++ str "/" ++ n') by exact (f_equal fst E).
      assert (E2 : f = (asRead (fileEntry t' (conf t') n')).2) by exact (f_equal snd E).
      assert (Hs : Split "/" (t ++ "/"%char :: n) = Split "/" (t' ++ "/"%char :: n')) by (f_equal; exact E1).
      rewrite !Split_cons, !Split_notin in Hs by (by apply plainName_notin). by injection Hs as -> ->; rewrite E2.
Qed.

Lemma readZipFile_asRead e : Z.of_nat (length e.2) <= MaxWSTLSFileSize -> readZipFile (asRead e).2 = Ok e.2.
Proof.
  intros Hl. unfold readZipFile, asRead. cbn [snd zf_UncompressedSize64 zf_Open].
  destruct (Z.ltb_spec MaxWSTLSFileSize (Z.of_nat (length e.2))); [lia|].
  unfold readLimited, rbind. cbn [zf_data zf_error].
  destruct (Nat.leb_spec (Z.to_nat (MaxWSTLSFileSize + 1)) (length e.2)); [lia|].
  destruct (Z.ltb_spec MaxWSTLSFileSize (Z.of_nat (length e.2))); [lia|done].
Qed.

Lemma reader_gives t n d : t ∈ ts -> n ∈ wsTLSReferences (conf t) -> c_WSTLSFiles (conf t) !! n = Some d ->
  WSTLSZipFileReader (zipMap written) (t ++ str ".conf") n = Ok d.
Proof.
  intros Ht Hn Hd. pose proof (Hex t Ht) as He. pose proof (tunnel_plain t (exportable_valid _ _ He)) as Hpt.
  pose proof (ex_stored _ _ He) as Hv. rewrite Forall_forall in Hv. pose proof (stored_plain n (Hv n Hn)) as Hpn.
  assert (Hs : n ∈ WSTLSStoredFileNames (conf t)) by (apply WSTLSStoredFileNames_spec; auto).
  unfold WSTLSZipFileReader. rewrite IsAbs_plain by done. rewrite (proj1 (slash_conf t Hpt)), (proj2 (slash_conf t Hpt)).
  rewrite ToSlash_id by (by apply plainName_nosep). rewrite JoinPath_entry, written_file by done.
  assert (Ed : (fileEntry t (conf t) n).2 = d) by (cbn; by rewrite Hd). rewrite <- Ed.
  apply readZipFile_asRead. rewrite Ed. by apply (ex_storable _ _ He) in Hd as (_ & _ & ?).
Qed.

Definition unparsedOf (zm : gmap gostring zipFile) (t : gostring) : unparsedConfig :=
  mkUnparsed t (ToWgQuick (conf t)) (WSTLSZipFileReader zm (t ++ str ".conf")).

Lemma gather_tunnel zm t g : t ∈ ts ->
  fold_left (gatherEntry zm) (map asRead (entriesOf t (conf t))) g = (g.1 ++ [unparsedOf zm t], g.2).
Proof.
  intros Ht. pose proof (Hex t Ht) as He. pose proof (tunnel_plain t (exportable_valid _ _ He)) as Hpt.
  unfold entriesOf. cbn [map fold_left]. unfold gatherEntry at 2, asRead at 2 3 4 5. cbn [fst snd].
  unfold hasExt. rewrite Ext_conf, bool_decide_true by done. cbn [negb readEntry rbind zf_Open zf_error zf_data fst].
  rewrite nameOfFile_conf by done. fold (unparsedOf zm t). generalize (g.1 ++ [unparsedOf zm t], g.2). clear g. intros g.
  assert (Hall : forall n, n ∈ WSTLSStoredFileNames (conf t) -> hasExt (t ++ str "/" ++ n) (str ".conf") = false).
  { intros n Hn. destruct (entry_stored t n He Hn) as (Hv & Hr & _). unfold hasExt. rewrite Ext_entry by (by apply stored_plain).
    pose proof (ex_ext _ _ He) as Hx. rewrite Forall_forall in Hx. by apply Hx. }
  induction (WSTLSStoredFileNames (conf t)) as [|n names IH]; cbn [map fold_left]; [by destruct g|].
  unfold gatherEntry at 2. cbn [asRead fileEntry fst]. rewrite Hall by set_solver. cbn [negb]. apply IH. set_solver.
Qed.

Lemma gather_written zm l g : l ⊆ ts ->
  fold_left (gatherEntry zm) (map asRead (concat (map (fun t => entriesOf t (conf t)) l))) g
  = (g.1 ++ map (unparsedOf zm) l, g.2).
Proof.
  revert g. induction l as [|t l IH]; intros g Hl; cbn [map concat]; [cbn; rewrite app_nil_r; by destruct g|].
  rewrite map_app, fold_left_app, gather_tunnel by set_solver. rewrite IH by set_solver. cbn [fst snd]. by rewrite <- app_assoc.
Qed.

(** ** Creating the tunnels *)

Lemma CollectWSTLSFiles_without read c stored c' :
  CollectWSTLSFiles read c = (Ok stored, c') -> CollectWSTLSFiles read (set_c_WSTLSFiles ∅ c) = (Ok stored, c').
Proof.
  destruct c as [cn ci cps cfs ctc]. unfold CollectWSTLSFiles, wsTLSReferences. cbn [c_Peers set_c_WSTLSFiles].
  destruct (collectLoop _ _ _) as [refs' [st|e]]; [|done]. destruct (_ <? _)%nat; [done|]. intros [= <- <-]. done.
Qed.

Lemma parsed_back t : t ∈ ts ->
  FromWgQuickWithUnknownEncoding decoders (ToWgQuick (conf t)) t = Ok (set_c_WSTLSFiles ∅ (conf t)).
Proof.
  intros Ht. pose proof (Hex t Ht) as [Hw Hn _ _ _ _]. unfold FromWgQuickWithUnknownEncoding.
  pose proof (FromWgQuick_ToWgQuick _ Hw) as E.
  replace (ToWgQuick (set_c_WSTLSFiles ∅ (conf t))) with (ToWgQuick (conf t)) in E by (by destruct (conf t)).
  replace (c_Name (set_c_WSTLSFiles ∅ (conf t))) with t in E by exact (eq_sym Hn). by rewrite E.
Qed.

Context (created : W -> list Config).
Context (Hnew : forall c w, exists w', tc_NewTunnel c w = (Ok tt, w') /\ created w' = created w ++ [c]).

Lemma importOne_written t i w : t ∈ ts -> ToLower t ∉ im_existing i ->
  exists stored w', importOne decoders storedOrder (unparsedOf (zipMap written) t) i w
      = (Ok (succeeded storedOrder (unparsedOf (zipMap written) t) stored i), w')
    /\ created w' = created w ++ [conf t].
Proof.
  intros Ht Hi. pose proof (Hex t Ht) as He. unfold importOne. cbn [unparsedOf un_Name un_Config un_ReadWSTLSFile].
  rewrite bool_decide_false, parsed_back by done.
  destruct (CollectWSTLSFiles_kept (WSTLSZipFileReader (zipMap written) (t ++ str ".conf")) (conf t)) as (stored & E & _).
  { apply (ex_few _ _ He). } { apply (ex_storable _ _ He). } { apply (ex_stored _ _ He). } { intros r d. by apply reader_gives. }
  rewrite (CollectWSTLSFiles_without _ _ _ _ E). destruct (Hnew (conf t) w) as (w' & Ew & Hc).
  exists stored, w'. unfold mthen, try. by rewrite Ew.
Qed.

Lemma importEach_written l i w : l ⊆ ts -> NoDup (map ToLower l) -> (forall t, t ∈ l -> ToLower t ∉ im_existing i) ->
  exists i' w', importEach decoders storedOrder (map (unparsedOf (zipMap written)) l) i w = (Ok i', w')
    /\ created w' = created w ++ map conf l /\ im_count i' = (im_count i + length l)%nat /\ im_lastErr i' = im_lastErr i.
Proof.
  revert i w. induction l as [|t l IH]; intros i w Hl Hnd Hi; cbn [map importEach].
  { exists i, w. rewrite app_nil_r. cbn. by rewrite Nat.add_0_r. }
  destruct (importOne_written t i w) as (stored & w1 & E & Hc); [set_solver|set_solver|]. unfold mthen. rewrite E.
  cbn [map] in Hnd. apply NoDup_cons in Hnd as [Hn Hnd].
  destruct (IH (succeeded storedOrder (unparsedOf (zipMap written) t) stored i) w1) as (i' & w' & E' & Hc' & Hk & He); [set_solver|done| |].
  { intros t' Ht'. cbn [succeeded im_existing unparsedOf un_Name]. intros [Ht%elem_of_singleton|Hin]%elem_of_union.
    - apply Hn. rewrite <- Ht. by apply list_elem_of_fmap_2.
    - apply (Hi t'); [set_solver|done]. }
  exists i', w'. split; [done|]. rewrite Hc', Hc, <- app_assoc. split; [done|].
  cbn [succeeded im_count im_lastErr length] in *. split; [lia|done].
Qed.
End Read.

(** C18: Exporting tunnels whose TLS files are all stored with them, none named
    like a configuration, and importing the archive where no tunnel has one of
    their names creates the same tunnels, each with its configuration and its
    TLS files, and the user is told of no failure. *)
Theorem export_import (created : W -> list Config) ts b w a w1 zipPath w2 names w3 :
  ts <> [] -> NoDup (map ToLower ts) ->
  (forall t, t ∈ ts -> exportable t (conf t)) ->
  (forall t w, t ∈ ts -> exists w', tc_StoredConfig t w = (Ok (conf t), w')) ->
  exportTunnels ts (mkArchive [] b, w) = (Ok tt, (a, w1)) ->
  ToLower (Ext zipPath) = str ".zip" -> zip_OpenReader zipPath = Ok (map asRead (ar_entries a)) ->
  (forall l, sortSlice l ≡ₚ l) ->
  (forall c w, exists w', tc_NewTunnel c w = (Ok tt, w') /\ created w' = created w ++ [c]) ->
  tc_Tunnels w2 = (Ok names, w3) -> created w3 = created w2 ->
  (forall t, t ∈ ts -> ToLower t ∉ lowerNames names) ->
  exists msgs w4, importFiles decoders filepath_Dir zip_OpenReader sortSlice storedOrder [zipPath] w2 = (Ok msgs, w4)
    /\ created w4 ≡ₚ created w2 ++ map conf ts
    /\ forall m, m ∈ msgs -> m = ImportedAll (length ts) \/ exists l, m = TLSFilesCopied l.
Proof.
  intros Hne Hnd Hex Hst Ha Hz Hread Hsort Hnew Hnames Hw3 Hdis.
  apply exportTunnels_Ok in Ha; [|done]. cbn [fst ar_entries app] in Ha. rewrite Ha in Hread. fold (written ts) in Hread.
  unfold importFiles, gather. cbn [fold_left]. unfold gatherPath, hasExt. rewrite Hz, bool_decide_false by done.
  rewrite bool_decide_true, Hread by done. unfold written at 2. rewrite (gather_written ts Hex) by done. cbn [fst snd app].
  set (zm := zipMap (written ts)).
  destruct (Permutation_map_inv (unparsedOf zm) ts (Hsort (map (unparsedOf zm) ts))) as (l & El & Hl).
  assert (Hlen : length l = length ts) by (by rewrite Hl).
  destruct (map (unparsedOf zm) ts) as [|u us] eqn:Eu; [by destruct ts|]. rewrite El. unfold mthen at 1, try. rewrite Hnames.
  destruct (importEach_written ts Hex created Hnew l (mkImporting (lowerNames names) None 0 []) w3) as (i & w4 & Ei & Hc & Hk & He).
  { intros t. by rewrite Hl. }
  { by rewrite <- Hl. }
  { intros t Ht. apply Hdis. by rewrite Hl. }
  fold zm in Ei. unfold mthen. rewrite Ei. eexists _, w4. split; [done|]. split; [by rewrite Hc, Hw3, <- Hl|].
  intros m. rewrite length_map, Hk. cbn [im_count plus]. rewrite Hlen. unfold importReport. rewrite Nat.eqb_refl.
  intros [Hm|Hm]%elem_of_app.
  - left. destruct (length ts =? 1)%nat; set_solver.
  - right. destruct (im_copied i); set_solver.
Qed.
End RoundTrip.
