(* ===== verification/ImportExample.v ===== *)
(** * Exporting and importing tunnels of a client in memory *)

From S2P Require Import Prelude GoStrings GoNum Netip Config Name Paths WSTLS WSTLSNames WSTLSCollect WSTLSTheorems Parser Writer ConfWf ParserTheorems RoundTrip Effects ImportExport ImportTheorems.
Local Open Scope Z_scope.

#[local] Existing Instance asciiTables.
#[local] Existing Instance exampleURL.
#[local] Existing Instance noDisk.

(** A tunnel with a certificate stored under a name. *)
Definition officeText (ca : gostring) : gostring :=
  Join [str "[Interface]"; str "PrivateKey = " ++ keyA; str "Address = 10.0.0.2/32"; str "[Peer]"; str "PublicKey = " ++ keyB;
        str "AllowedIPs = 0.0.0.0/0"; str "Endpoint = wss://vpn.example:443/wg"; str "WSMode = wstunnel";
        str "WSTunnelTarget = 127.0.0.1:51820"; str "WSTLSCA = " ++ ca] [LF].
Definition officeConf (ca : gostring) : Config :=
  match FromWgQuick (officeText ca) (str "office") with
  | Ok c => set_c_WSTLSFiles {[ca := str "CERT"]} c
  | Err _ => mkConfig [] emptyInterface [] ∅ []
  end.
Definition office : Config := Eval vm_compute in officeConf (str "ca.pem").

(** The client: the tunnels that were created, one stored. *)
Definition exClient (c : Config) : TunnelClient (list Config) := {|
  tc_Tunnels := mret [str "home"];
  tc_NewTunnel c' w := (Ok tt, w ++ [c']);
  tc_StoredConfig _ := mret c
|}.

Definition exported (c : Config) : list (gostring * gostring) :=
  ar_entries (exportTunnels (H := exClient c) [str "office"] (mkArchive [] 9, [])).2.1.

Lemma office_exportable : exportable (str "office") office.
Proof.
  assert (Hr : wsTLSReferences office = [str "ca.pem"]) by (vm_compute; reflexivity).
  split; rewrite ?Hr.
  - apply (FromWgQuick_wf (officeText (str "ca.pem")) (str "office")). vm_compute. reflexivity.
  - reflexivity.
  - apply (ValidateWSTLSFiles_iff (map_to_list (c_WSTLSFiles office)) office); [done|vm_compute; reflexivity].
  - by repeat constructor.
  - done.
  - by repeat constructor.
Qed.

Definition inArchive (c : Config) (p : gostring) : result (list (gostring * zipFile)) := Ok (map asRead (exported c)).

Lemma export_import_witness :
  exists msgs w', importFiles (H := exClient office) [] id (inArchive office) id map_to_list [str "C:\tunnels.zip"] [] = (Ok msgs, w')
    /\ w' ≡ₚ [office].
Proof.
  destruct (exportTunnels (H := exClient office) [str "office"] (mkArchive [] 9, [])) as [r [a w1]] eqn:E.
  assert (Hr : r = Ok tt) by (apply (f_equal fst) in E; vm_compute in E; by symmetry). subst r.
  assert (Ha : exported office = ar_entries a) by (unfold exported; by rewrite E).
  destruct (export_import (H := exClient office) [] id (inArchive office) id map_to_list (fun _ => office) id [str "office"] 9 [] a w1
    (str "C:\tunnels.zip") [] [str "home"] []) as (msgs & w4 & E4 & Hp & _); [done|apply NoDup_singleton|..].
  - intros t ->%list_elem_of_singleton. exact office_exportable.
  - intros t w _. by exists w.
  - exact E.
  - reflexivity.
  - unfold inArchive. by rewrite Ha.
  - done.
  - intros c w. by exists (w ++ [c]).
  - done.
  - done.
  - intros t ->%list_elem_of_singleton. vm_compute. discriminate.
  - exists msgs, w4. exact (conj E4 Hp).
Defined.

(** A TLS file may be stored under a name that ends in .conf. Exported, it is
    taken for the configuration of another tunnel, and the import of a good
    archive reports a failure. *)
Definition misnamed : Config := Eval vm_compute in officeConf (str "ca.conf").

Example exported_tls_conf :
  ValidateWSTLSFiles (map_to_list (c_WSTLSFiles misnamed)) misnamed = Ok tt
  /\ exists w', importFiles (H := exClient misnamed) [] id (inArchive misnamed) id map_to_list [str "C:\tunnels.zip"] []
     = (Ok [ImportedOf 1 2; TLSFilesCopied [(str "office", str "ca.conf", str "ca.conf")]], w').
Proof. split; [vm_compute; reflexivity|]. eexists. vm_compute. reflexivity. Qed.
