(* ===== verification/StoreExample.v ===== *)
(** * A file system in memory, and the store on it

    It meets every law and always succeeds when it can, so that the theorems on
    the store are applied to it. *)

From S2P Require Import Prelude GoStrings GoNum Netip Config Name Paths WSTLS Parser Writer Effects Store StoreLaws StoreTheorems StoreTLS StoreTunnels.
Local Open Scope Z_scope.

Record memory : Type := mkMemory {
  m_files : gmap path gofile;
  m_open : gmap nat (path * bool)
}.

Definition memFold (s : gostring) : gostring := map lowerByte s.
Definition memKey (p : path) : path := map memFold p.

(** A blob: the length of the description, the description, the data. *)
Definition memBlob (b : gostring) : option (gostring * list Z) :=
  match b with
  | [] => None
  | c :: rest => Some (drop (Z.to_nat (code c)) rest, map code (take (Z.to_nat (code c)) rest))
  end.

Definition memProtect (d : gostring) (n : list Z) : result gostring :=
  let b := chr (Z.of_nat (length n)) :: map chr n ++ d in
  if bool_decide (memBlob b = Some (d, n)) && (Z.of_nat (length b) <? 2 ^ 32) then Ok b
  else Err (ErrText "too long").

Definition inDir (p : path) (kf : path * gofile) : bool :=
  bool_decide (kf.1 = memKey p ++ [memFold (f_name kf.2)]).

Definition misplaced (p : path) (kf : path * gofile) : bool :=
  bool_decide (removelast kf.1 = memKey p) && negb (inDir p kf).

Definition memList (p : path) (F : gmap path gofile) : result (list dirEntry) :=
  if existsb (misplaced p) (map_to_list F) then Err (ErrText "damaged directory")
  else Ok (map (fun kf => mkEntry (f_name kf.2) true (Ok 438)) (List.filter (inDir p) (map_to_list F))).

Definition memRead (p : path) (w : memory) : result gostring :=
  match m_files w !! memKey p with Some f => Ok (f_data f) | None => Err (ErrCode ERROR_FILE_NOT_FOUND) end.

Definition dataText : gostring := str "\\?\C:\Program Files\WireGuard WS\Data".

#[export] Instance memSystem : FileSystem memory nat := {|
  fs_fold := memFold;
  fs_files := m_files;
  fs_open := m_open;
  os_ReadFile p := fun w => (memRead p w, w);
  os_ReadDir p := fun w => (memList p (m_files w), w);
  os_Remove p := fun w => match m_files w !! memKey p with
                          | Some _ => (Ok tt, mkMemory (delete (memKey p) (m_files w)) (m_open w))
                          | None => (Err (ErrCode ERROR_FILE_NOT_FOUND), w)
                          end;
  os_RemoveAll p := fun w =>
    (Ok tt, mkMemory (filter (fun kf => ~ memKey p `prefix_of` kf.1) (m_files w)) (m_open w));
  os_Mkdir p := mret tt;
  os_MkdirAll p := mret tt;
  os_OpenAndRead p := fun w => match m_files w !! memKey p with
                               | Some f => (Ok (Ok (f_data f)), w)
                               | None => (Err (ErrCode ERROR_FILE_NOT_FOUND), w)
                               end;
  rand_Read n := mret (replicate n "042"%char);
  win_CreateFile p := fun w =>
    let h := fresh (dom (m_open w)) in
    (Ok h, mkMemory (<[memKey p := mkFile (List.last p []) []]> (m_files w)) (<[h := (memKey p, false)]> (m_open w)));
  win_Write h c := fun w =>
    match m_open w !! h with
    | Some (k, _) => match m_files w !! k with
                     | Some f => (Ok (Z.of_nat (length c)), mkMemory (<[k := mkFile (f_name f) c]> (m_files w)) (m_open w))
                     | None => (Err (ErrCode 6), w)
                     end
    | None => (Err (ErrCode 6), w)
    end;
  win_FlushFileBuffers h := mret tt;
  win_Dispose h := fun w => match m_open w !! h with
                            | Some (k, _) => (Ok tt, mkMemory (m_files w) (<[h := (k, true)]> (m_open w)))
                            | None => (Err (ErrCode 6), w)
                            end;
  win_Rename h p overwrite := fun w =>
    match m_open w !! h with
    | Some (k, _) =>
        match m_files w !! k with
        | Some f => if overwrite || bool_decide (m_files w !! memKey p = None)
                    then (Ok tt, mkMemory (<[memKey p := mkFile (List.last p []) (f_data f)]> (delete k (m_files w)))
                                          (<[h := (memKey p, false)]> (m_open w)))
                    else (Err (ErrCode ERROR_ALREADY_EXISTS), w)
        | None => (Err (ErrCode 6), w)
        end
    | None => (Err (ErrCode 6), w)
    end;
  win_CloseHandle h := fun w =>
    match m_open w !! h with
    | Some (k, b) => (Ok tt, mkMemory (if b : bool then delete k (m_files w) else m_files w) (delete h (m_open w)))
    | None => (Err (ErrCode 6), w)
    end;
  win_KnownFolderPath := mret (str "C:\Program Files");
  win_CreateDirectory p sd := mret tt;
  win_OpenDirectory p := fun w =>
    let h := fresh (dom (m_open w)) in (Ok h, mkMemory (m_files w) (<[h := ([], false)]> (m_open w)));
  win_GetFileInformationByHandle h := mret (mkAttributes true false);
  win_GetFinalPathNameByHandle h n := mret (Z.of_nat (length dataText), dataText);
  win_SetKernelObjectSecurity h sd := mret tt;
  win_SecurityDescriptorFromString s := Ok s;
  strings_EqualFold s t := bool_decide (map lowerByte s = map lowerByte t);
  win_CryptProtectData d n := mpure (memProtect d n);
  win_CryptUnprotectData b := mpure (match memBlob b with
                                     | Some (d, n) => Ok (d, Some n)
                                     | None => Err (ErrCode 13)
                                     end)
|}.

Lemma mret_keeps {A} (a : A) : keeps (mret (W := memory) a).
Proof. intros F O. by apply triple_ret. Qed.

Lemma memList_spec p F es :
  memList p F = Ok es ->
  (forall k f, F !! (memKey p ++ [k]) = Some f -> exists e, e ∈ es /\ memFold (de_Name e) = k)
  /\ (forall e, e ∈ es -> exists f, F !! memKey (p ++ [de_Name e]) = Some f /\ de_Name e = f_name f).
Proof.
  unfold memList. destruct (existsb _ _) eqn:Ex; [done|]. intros [= <-]. split.
  - intros k f Hf. assert (Hin : inDir p (memKey p ++ [k], f) = true).
    { apply not_false_iff_true. intros Hno. apply not_true_iff_false in Ex. apply Ex, existsb_exists.
      exists (memKey p ++ [k], f). split; [by apply list_elem_of_In, elem_of_map_to_list|].
      unfold misplaced. cbn [fst]. rewrite removelast_last, bool_decide_true, Hno by done. done. }
    exists (mkEntry (f_name f) true (Ok 438)). split.
    + apply list_elem_of_fmap. exists (memKey p ++ [k], f). split; [done|].
      apply list_elem_of_In, filter_In. split; [by apply list_elem_of_In, elem_of_map_to_list|done].
    + unfold inDir in Hin. apply bool_decide_eq_true in Hin. cbn in Hin. by apply app_inj_tail in Hin as [_ ->].
  - intros e ([k f] & -> & [Hin Hd]%list_elem_of_In%filter_In)%list_elem_of_fmap. cbn [de_Name snd].
    exists f. split; [|done]. unfold inDir in Hd. apply bool_decide_eq_true in Hd. cbn in Hd.
    apply list_elem_of_In, elem_of_map_to_list in Hin. unfold memKey in *. rewrite map_app. cbn [map]. by rewrite <- Hd.
Qed.

Lemma last_key (d : path) (n : gostring) : List.last (d ++ [n]) [] = n.
Proof. apply last_last. Qed.

Ltac mem_step := intros w r w' [HF HO]; cbn in HF, HO |- *; rewrite ?HF, ?HO.

#[refine, export] Instance memLaws : FileLaws := {| dp_blob := memBlob |}.
Proof.
  - done.
  - intros F O p. mem_step. unfold memRead. rewrite HF. intros [= <- <-].
    destruct (F !! memKey p) as [f|] eqn:E; [|by split]. split; [by split|]. by exists f.
  - intros F O p. mem_step. intros [= <- <-]. destruct (memList p F) as [es|e] eqn:E; [|by split].
    apply memList_spec in E as [H1 H2]. split; [by split|]. split; [done|]. split.
    + intros e f He Hf. destruct (H2 e He) as (f' & Hf' & ->). unfold key, memKey in *. cbn in Hf. congruence.
    + intros e He _. destruct (H2 e He) as (f' & Hf' & _). by exists f'.
  - intros F O p. mem_step. destruct (F !! memKey p) eqn:E; intros [= <- <-]; by split.
  - intros F O p. mem_step. intros [= <- <-]. by split.
  - intros F O p. mem_step. destruct (F !! memKey p) as [f|] eqn:E; intros [= <- <-]; [|by split].
    split; [by split|]. intros d [= <-]. by exists f.
  - intros p. apply mret_keeps.
  - intros p. apply mret_keeps.
  - intros F O n. mem_step. intros [= <- <-]. split; [by split|]. apply length_replicate.
  - intros F O d n. mem_step. intros [= <- <-]. split.
    + apply not_elem_of_dom, is_fresh.
    + eexists. split; reflexivity.
  - intros F O h k f c Hh Hk. mem_step. rewrite Hh, Hk. intros [= <- <-]. split; cbn; [|done].
    by rewrite Nat2Z.id, firstn_all.
  - intros h. apply mret_keeps.
  - intros F O h k b Hh. mem_step. rewrite Hh. intros [= <- <-]. by split.
  - intros F O h k f d n overwrite Hh Hk. mem_step. rewrite Hh, Hk, last_key.
    case_bool_decide as Hno; [rewrite orb_true_r|destruct overwrite; cbn [orb]]; intros [= <- <-]; by split.
  - intros F O h k b w r w' Hh [HF HO]. cbn in HF, HO |- *. rewrite HO, Hh, HF. intros [= <- <-]. by split.
  - apply mret_keeps.
  - intros p sd. apply mret_keeps.
  - intros F O p. mem_step. intros [= <- <-]. split; [apply not_elem_of_dom, is_fresh|]. eexists. by split.
  - intros h. apply mret_keeps.
  - intros h n. apply mret_keeps.
  - intros h sd. apply mret_keeps.
  - intros F O d n. mem_step. unfold mpure, memProtect. intros [= <- <-].
    destruct (andb _ _) eqn:Eb; [|by split]. apply andb_prop in Eb as [Hb%bool_decide_eq_true Hl%Z.ltb_lt].
    split; [by split|]. split; [exact Hb|exact Hl].
  - intros F O b. mem_step. unfold mpure. intros [= <- <-]. destruct (memBlob b) as [[d n]|] eqn:E; [|by split].
    split; [by split|]. by exists n.
Defined.

Lemma memory_reliable : reliable.
Proof.
  split.
  - intros w p f Hf. cbn. unfold memRead. cbn in Hf. unfold key in Hf. cbn in Hf. unfold memKey. by rewrite Hf.
  - intros w b [d n] Hb. cbn. by rewrite (Hb : memBlob b = _).
Qed.
