(* ===== verification/StoreWatcher.v ===== *)
(** * Watching the configuration directory: conf/storewatcher.go, storewatcher_windows.go

    Callbacks are registered in a map that a lock guards, and one thread waits
    for changes of the directory and calls them. The map is the set
    [wt_callbacks] of the callbacks' pointers; registering is two steps, the
    first call of the callback and its entry into the map; the thread and the
    others interleave as they like. Two sets say what the code does not know:
    [wt_stale] are the callbacks that have not been called since the directory
    last changed, and [wt_missed] those of them that will not be called for that
    change, because it came before they were in the map or while no handle was
    open, or because the handle that had noticed it was given up. *)

From S2P Require Import Prelude.

(** A change notification handle, as Windows documents it: a change signals it,
    and further ones are recorded for FindNextChangeNotification. *)
Record changeHandle : Type := mkChangeHandle {
  ch_id : nat;
  ch_signalled : bool;
  ch_recorded : bool
}.

Definition changed (h : changeHandle) : changeHandle :=
  if ch_signalled h then mkChangeHandle (ch_id h) true true else mkChangeHandle (ch_id h) true (ch_recorded h).
Definition rearmed (h : changeHandle) : changeHandle := mkChangeHandle (ch_id h) (ch_recorded h) false.

(** Where the thread of startWatchingConfigDir stands. *)
Inductive wthread : Type :=
  | WtNone
  | WtStartover
  | WtWaiting
  | WtCalling (rest : list nat)
  | WtRearming.

Record watching : Type := mkWatching {
  wt_thread : wthread;
  (** The variable h, None for InvalidHandle. *)
  wt_handle : option changeHandle;
  wt_open : gset nat;
  wt_opened : nat;
  wt_callbacks : gset nat;
  wt_registering : gset nat;
  wt_known : gset nat;
  wt_stale : gset nat;
  wt_missed : gset nat;
  wt_calls : list nat
}.

Definition set_wt_thread (t : wthread) (w : watching) : watching :=
  mkWatching t (wt_handle w) (wt_open w) (wt_opened w) (wt_callbacks w) (wt_registering w) (wt_known w)
    (wt_stale w) (wt_missed w) (wt_calls w).
Definition set_wt_handle (h : option changeHandle) (o : gset nat) (n : nat) (w : watching) : watching :=
  mkWatching (wt_thread w) h o n (wt_callbacks w) (wt_registering w) (wt_known w)
    (wt_stale w) (wt_missed w) (wt_calls w).
Definition set_wt_callbacks (c r k : gset nat) (w : watching) : watching :=
  mkWatching (wt_thread w) (wt_handle w) (wt_open w) (wt_opened w) c r k (wt_stale w) (wt_missed w) (wt_calls w).
Definition set_wt_stale (s m : gset nat) (w : watching) : watching :=
  mkWatching (wt_thread w) (wt_handle w) (wt_open w) (wt_opened w) (wt_callbacks w) (wt_registering w) (wt_known w)
    s m (wt_calls w).

(** A callback runs and reads the directory as it is. *)
Definition runCallback (cb : nat) (w : watching) : watching :=
  mkWatching (wt_thread w) (wt_handle w) (wt_open w) (wt_opened w) (wt_callbacks w) (wt_registering w) (wt_known w)
    (wt_stale w ∖ {[cb]}) (wt_missed w ∖ {[cb]}) (wt_calls w ++ [cb]).

(** A change of the directory. *)
Definition dirChanges (w : watching) : watching :=
  let live := wt_callbacks w ∪ wt_registering w in
  match wt_handle w with
  | Some h => set_wt_stale live (wt_missed w ∪ wt_registering w) (set_wt_handle (Some (changed h)) (wt_open w) (wt_opened w) w)
  | None => set_wt_stale live live w
  end.

(** watchConfigDirOnce.Do(startWatchingConfigDir). *)
Definition watchConfigDirOnce (w : watching) : watching :=
  match wt_thread w with WtNone => set_wt_thread WtStartover w | _ => w end.

(** RegisterStoreChangeCallback up to the lock, for a new pointer, and the
    critical section. *)
Definition registerCall (cb : nat) (w : watching) : option watching :=
  if bool_decide (cb ∈ wt_known w) then None
  else
    let w1 := watchConfigDirOnce w in
    Some (runCallback cb (set_wt_callbacks (wt_callbacks w1) ({[cb]} ∪ wt_registering w1) ({[cb]} ∪ wt_known w1) w1)).

(** Whether the thread holds the lock for reading. *)
Definition readLocked (w : watching) : bool := match wt_thread w with WtCalling _ => true | _ => false end.

Definition registerStore (cb : nat) (w : watching) : option watching :=
  if readLocked w || negb (bool_decide (cb ∈ wt_registering w)) then None
  else Some (set_wt_callbacks ({[cb]} ∪ wt_callbacks w) (wt_registering w ∖ {[cb]}) (wt_known w) w).

Definition Unregister (cb : nat) (w : watching) : option watching :=
  if readLocked w || bool_decide (cb ∈ wt_registering w) then None
  else Some (set_wt_stale (wt_stale w ∖ {[cb]}) (wt_missed w ∖ {[cb]})
               (set_wt_callbacks (wt_callbacks w ∖ {[cb]}) (wt_registering w) (wt_known w) w)).

(** FindCloseChangeNotification(h); h = InvalidHandle; goto startover. *)
Definition startover (w : watching) : watching :=
  set_wt_stale (wt_stale w) (wt_missed w ∪ wt_stale w) (set_wt_thread WtStartover
    (set_wt_handle None (match wt_handle w with Some h => wt_open w ∖ {[ch_id h]} | None => wt_open w end) (wt_opened w) w)).

Section Thread.
(** The order in which the map is ranged over. *)
Context (mapOrder : gset nat -> list nat).

(** A step of the thread; [ok] tells whether the system call it makes succeeds,
    the first two, which lead to the same place, being one. *)
Definition watchThread (ok : bool) (w : watching) : option watching :=
  match wt_thread w with
  | WtNone => None
  | WtStartover =>
      if ok then
        let h := mkChangeHandle (wt_opened w) false false in
        Some (set_wt_thread WtWaiting (set_wt_handle (Some h) ({[ch_id h]} ∪ wt_open w) (S (wt_opened w)) w))
      else Some w
  | WtWaiting =>
      if negb ok then Some (startover w)
      else match wt_handle w with
           | Some h => if ch_signalled h then Some (set_wt_thread (WtCalling (mapOrder (wt_callbacks w))) w) else None
           | None => None
           end
  | WtCalling [] => Some (set_wt_thread WtRearming w)
  | WtCalling (cb :: rest) => Some (set_wt_thread (WtCalling rest) (runCallback cb w))
  | WtRearming =>
      if negb ok then Some (startover w)
      else Some (set_wt_thread WtWaiting (set_wt_handle (option_map rearmed (wt_handle w)) (wt_open w) (wt_opened w) w))
  end.

Inductive wact : Type :=
  | WaChange
  | WaRegister (cb : nat)
  | WaEnter (cb : nat)
  | WaUnregister (cb : nat)
  | WaThread (ok : bool).

Definition wstep (a : wact) (w : watching) : option watching :=
  match a with
  | WaChange => Some (dirChanges w)
  | WaRegister cb => registerCall cb w
  | WaEnter cb => registerStore cb w
  | WaUnregister cb => Unregister cb w
  | WaThread ok => watchThread ok w
  end.

Definition wt_initial : watching := mkWatching WtNone None ∅ 0 ∅ ∅ ∅ ∅ ∅ [].

Inductive wreach : watching -> Prop :=
  | wreach_initial : wreach wt_initial
  | wreach_step a w w' : wreach w -> wstep a w = Some w' -> wreach w'.

(** Steps of the thread with no failure. *)
Fixpoint watchRuns (n : nat) (w : watching) : watching :=
  match n with
  | O => w
  | S n' => match watchThread true w with Some w' => watchRuns n' w' | None => w end
  end.
End Thread.

(** ** What holds in every interleaving *)

Section Theorems.
Context (mapOrder : gset nat -> list nat) (Horder : forall s, mapOrder s ≡ₚ elements s).

(** The thread has still to call the callback for the last change. *)
Definition owed (w : watching) (cb : nat) : Prop :=
  match wt_thread w, wt_handle w with
  | WtWaiting, Some h => ch_signalled h = true
  | WtCalling rest, Some h => cb ∈ rest \/ ch_recorded h = true
  | WtRearming, Some h => ch_recorded h = true
  | _, _ => False
  end.

(** Where the thread has a handle, and what it is about to call. *)
Definition placed (w : watching) : Prop :=
  match wt_thread w, wt_handle w with
  | WtNone, None | WtStartover, None | WtWaiting, Some _ => True
  | WtCalling rest, Some h => ch_signalled h = true /\ NoDup rest /\ list_to_set rest ⊆ wt_callbacks w
  | WtRearming, Some h => ch_signalled h = true
  | _, _ => False
  end.

Record wt_inv (w : watching) : Prop := {
  wi_open : wt_open w = match wt_handle w with Some h => {[ch_id h]} | None => ∅ end;
  wi_placed : placed w;
  wi_known : wt_callbacks w ∪ wt_registering w ⊆ wt_known w;
  wi_apart : wt_callbacks w ## wt_registering w;
  wi_stale : wt_stale w ⊆ wt_callbacks w ∪ wt_registering w;
  wi_registering : wt_stale w ∩ wt_registering w ⊆ wt_missed w;
  wi_owed : forall cb, cb ∈ wt_stale w -> cb ∉ wt_missed w -> owed w cb
}.

Lemma wt_inv_initial : wt_inv wt_initial.
Proof. split; try done; set_solver. Qed.

Lemma dirChanges_inv w : wt_inv w -> wt_inv (dirChanges w).
Proof.
  intros [Ho Hp Hk Ha Hs Hr Hw]. unfold dirChanges. destruct (wt_handle w) as [h|] eqn:Eh.
  - assert (Hc : ch_id (changed h) = ch_id h /\ ch_signalled (changed h) = true
      /\ (ch_signalled h = true -> ch_recorded (changed h) = true)) by (unfold changed; destruct (ch_signalled h) eqn:E; naive_solver).
    destruct Hc as (Hid & Hsig & Hrec).
    split; cbn; try done; [by rewrite Ho, Hid| |set_solver|].
    + unfold placed in *. cbn. rewrite Eh in Hp. destruct (wt_thread w); naive_solver.
    + intros cb Hcb Hm. unfold placed in Hp. unfold owed. cbn. rewrite Eh in Hp. destruct (wt_thread w); naive_solver.
  - split; cbn; rewrite ?Eh; try done; set_solver.
Qed.

Lemma registerCall_inv cb w w' : wt_inv w -> registerCall cb w = Some w' -> wt_inv w'.
Proof.
  intros [Ho Hp Hk Ha Hs Hr Hw]. unfold registerCall. case_bool_decide as Hn; [done|]. intros [= <-].
  assert (Hnr : cb ∉ wt_callbacks w /\ cb ∉ wt_registering w) by set_solver.
  unfold watchConfigDirOnce, placed, owed in *. destruct (wt_thread w) eqn:Et;
    (split; unfold placed, owed; cbn; rewrite ?Et; [done|done|set_solver|set_solver|set_solver|set_solver|]);
    intros cb' Hcb' Hm; (apply (Hw cb'); [set_solver|set_solver]).
Qed.

Lemma registerStore_inv cb w w' : wt_inv w -> registerStore cb w = Some w' -> wt_inv w'.
Proof.
  intros [Ho Hp Hk Ha Hs Hr Hw]. unfold registerStore, readLocked. destruct (wt_thread w) eqn:Et; cbn [orb];
    (case_bool_decide as Hn; [|done]) || done; cbn; intros [= <-]; unfold placed, owed in *; rewrite Et in *;
    (split; unfold placed, owed; cbn; rewrite ?Et; [done|done|set_solver|set_solver| |set_solver|done]);
    (intros x Hx%Hs; destruct (decide (x = cb)); set_solver).
Qed.

Lemma Unregister_inv cb w w' : wt_inv w -> Unregister cb w = Some w' -> wt_inv w'.
Proof.
  intros [Ho Hp Hk Ha Hs Hr Hw]. unfold Unregister, readLocked. destruct (wt_thread w) eqn:Et; cbn [orb];
    (case_bool_decide as Hn; [done|]) || done; intros [= <-]; unfold placed, owed in *; rewrite Et in *;
    (split; unfold placed, owed; cbn; rewrite ?Et; [done|done|set_solver|set_solver|set_solver|set_solver|]);
    intros cb' Hcb' Hm; (apply (Hw cb'); [set_solver|set_solver]).
Qed.

Lemma startover_inv w : wt_inv w -> wt_inv (startover w).
Proof.
  intros [Ho Hp Hk Ha Hs Hr Hw]. clear Hw Hp. split; cbn; try done.
  - rewrite Ho. clear. destruct (wt_handle w); set_solver.
  - clear -Hr. set_solver.
  - intros cb Hcb Hm. set_solver.
Qed.

Lemma watchThread_inv ok w w' : wt_inv w -> watchThread mapOrder ok w = Some w' -> wt_inv w'.
Proof.
  intros HI. pose proof HI as [Ho Hp Hk Ha Hs Hr Hw]. unfold watchThread.
  unfold placed, owed in Hp, Hw. destruct (wt_thread w) as [| | |[|cb rest]|] eqn:Et; destruct (wt_handle w) as [h|] eqn:Eh; try done.
  - destruct ok; intros [= <-]; [|exact HI]. split; cbn; try done; [rewrite Ho; set_solver|].
    intros cb Hcb Hm. destruct (Hw cb Hcb Hm).
  - destruct ok; cbn [negb]; [|intros [= <-]; by apply startover_inv].
    destruct (ch_signalled h) eqn:Es; [|done]. intros [= <-].
    split; unfold placed, owed; cbn; rewrite ?Eh; try done.
    + split; [done|]. rewrite (Horder (wt_callbacks w)). split; [apply NoDup_elements|set_solver].
    + intros cb Hcb Hm. left. rewrite (Horder (wt_callbacks w)). set_solver.
  - intros [= <-]. split; unfold placed, owed; cbn; rewrite ?Eh; try done; [naive_solver|].
    intros cb Hcb Hm. destruct (Hw cb Hcb Hm) as [Hin|]; [by apply not_elem_of_nil in Hin|done].
  - intros [= <-]. destruct Hp as (Hsig & Hnd & Hsub). apply NoDup_cons in Hnd as [Hni Hnd].
    split; unfold placed, owed; cbn; rewrite ?Eh; try done;
      lazymatch goal with |- forall _, _ => idtac | _ => clear Hw; set_solver end.
    intros cb' Hcb' Hm. destruct (Hw cb') as [Hin|]; [set_solver|set_solver| |by right].
    apply elem_of_cons in Hin as [->|]; [set_solver|by left].
  - destruct ok; cbn [negb]; [|intros [= <-]; by apply startover_inv]. intros [= <-].
    split; unfold placed, owed; cbn; rewrite ?Eh; done.
Qed.

Lemma wreach_inv w : wreach mapOrder w -> wt_inv w.
Proof.
  induction 1 as [|[] w w' _ IH E]; cbn [wstep] in *; [exact wt_inv_initial|injection E as <-; by apply dirChanges_inv|..];
    eauto using registerCall_inv, registerStore_inv, Unregister_inv, watchThread_inv.
Qed.

(** ** The thread on its own *)

Lemma watchRuns_stale n w cb : cb ∉ wt_stale w -> cb ∉ wt_stale (watchRuns mapOrder n w).
Proof.
  revert w. induction n as [|n IH]; intros w Hw; cbn [watchRuns]; [done|].
  destruct (watchThread mapOrder true w) as [w'|] eqn:E; [|done]. apply IH. revert E. unfold watchThread.
  destruct (wt_thread w) as [| | |[|]|]; cbn [negb]; try done; repeat case_match; intros [= <-]; cbn; set_solver.
Qed.

(** The callbacks left are called, and the handle is armed again. *)
Lemma watchRuns_calls rest n w h :
  wt_thread w = WtCalling rest -> wt_handle w = Some h ->
  exists w', watchRuns mapOrder (length rest + 2 + n) w = watchRuns mapOrder n w'
    /\ wt_thread w' = WtWaiting /\ wt_handle w' = Some (rearmed h) /\ wt_callbacks w' = wt_callbacks w
    /\ wt_stale w' = wt_stale w ∖ list_to_set rest.
Proof.
  revert w. induction rest as [|cb rest IH]; intros w Et Eh; cbn [length plus watchRuns]; unfold watchThread at 1; rewrite Et.
  - cbn [negb watchThread watchRuns wt_thread set_wt_thread]. eexists. split; [done|]. cbn. rewrite Eh. do 3 (split; [done|]). set_solver.
  - destruct (IH (set_wt_thread (WtCalling rest) (runCallback cb w)) eq_refl Eh) as (w' & -> & Hw').
    exists w'. split; [done|]. cbn in Hw'. destruct Hw' as (? & ? & ? & ->). do 3 (split; [done|]). set_solver.
Qed.

(** Once the handle is signalled, every callback is called. *)
Lemma watchRuns_signalled n w h cb :
  wt_thread w = WtWaiting -> wt_handle w = Some h -> ch_signalled h = true -> cb ∈ wt_callbacks w ->
  size (wt_callbacks w) + 3 <= n -> cb ∉ wt_stale (watchRuns mapOrder n w).
Proof.
  intros Et Eh Es Hcb Hn. set (order := mapOrder (wt_callbacks w)).
  assert (Hlen : length order = size (wt_callbacks w)) by (unfold order; by rewrite (Horder (wt_callbacks w))).
  replace n with (S (length order + 2 + (n - size (wt_callbacks w) - 3))) by lia.
  cbn [watchRuns]. unfold watchThread at 1. rewrite Et, Eh, Es. cbn [negb]. fold order.
  destruct (watchRuns_calls order (n - size (wt_callbacks w) - 3) (set_wt_thread (WtCalling order) w) h eq_refl Eh)
    as (w' & -> & _ & _ & _ & Hs).
  apply watchRuns_stale. rewrite Hs. assert (cb ∈ order) by (unfold order; rewrite (Horder (wt_callbacks w)); set_solver). set_solver.
Qed.

Lemma rest_short w rest : wt_inv w -> wt_thread w = WtCalling rest -> length rest <= size (wt_callbacks w).
Proof.
  intros HI Et. pose proof (wi_placed w HI) as Hp. unfold placed in Hp. rewrite Et in Hp.
  destruct (wt_handle w); [|done]. destruct Hp as (_ & Hnd & Hsub).
  rewrite <- (size_list_to_set (C := gset nat) rest Hnd). by apply subseteq_size.
Qed.

Lemma owed_called w cb :
  wt_inv w -> owed w cb -> cb ∈ wt_callbacks w ->
  cb ∉ wt_stale (watchRuns mapOrder (2 * size (wt_callbacks w) + 5) w).
Proof.
  intros HI Ho Hcb. pose proof (rest_short w) as Hshort. pose proof (wi_placed w HI) as Hp. unfold owed, placed in Ho, Hp.
  destruct (wt_thread w) as [| | |rest|] eqn:Et; destruct (wt_handle w) as [h|] eqn:Eh; try done.
  - apply (watchRuns_signalled _ _ h); [done..|lia].
  - specialize (Hshort rest HI eq_refl).
    replace (2 * size (wt_callbacks w) + 5) with (length rest + 2 + (2 * size (wt_callbacks w) + 3 - length rest)) by lia.
    destruct (watchRuns_calls rest (2 * size (wt_callbacks w) + 3 - length rest) w h Et Eh) as (w' & -> & Et' & Eh' & Ec & Es).
    destruct Ho as [Hin|Hrec].
    + apply watchRuns_stale. rewrite Es. set_solver.
    + apply (watchRuns_signalled _ _ (rearmed h)); rewrite ?Ec; [done..|lia].
  - replace (2 * size (wt_callbacks w) + 5) with (S (2 * size (wt_callbacks w) + 4)) by lia.
    cbn [watchRuns]. unfold watchThread at 1. rewrite Et. cbn [negb].
    apply (watchRuns_signalled _ _ (rearmed h)); cbn; [done|by rewrite Eh|done|done|lia].
Qed.

(** C26: However registrations, changes of the directory and the thread
    interleave, the thread holds the one handle that is open, or none is open;
    it calls only callbacks that are registered, and a callback that has not
    seen the last change either missed it or is registered, and then the thread,
    undisturbed, calls it within boundedly many steps. *)
Theorem store_watched w :
  wreach mapOrder w ->
  wt_open w = match wt_handle w with Some h => {[ch_id h]} | None => ∅ end
  /\ (forall rest, wt_thread w = WtCalling rest -> list_to_set rest ⊆ wt_callbacks w)
  /\ (forall cb, cb ∈ wt_stale w -> cb ∉ wt_missed w ->
        cb ∈ wt_callbacks w /\ cb ∉ wt_stale (watchRuns mapOrder (2 * size (wt_callbacks w) + 5) w)).
Proof.
  intros HI%wreach_inv. split; [apply (wi_open w HI)|]. split.
  - intros rest Et. pose proof (wi_placed w HI) as Hp. unfold placed in Hp. rewrite Et in Hp. destruct (wt_handle w); naive_solver.
  - intros cb Hs Hm. assert (Hcb : cb ∈ wt_callbacks w).
    { pose proof (wi_stale w HI cb Hs) as [Hcb|Hr]%elem_of_union; [done|].
      destruct Hm. apply (wi_registering w HI). set_solver. }
    split; [done|]. apply owed_called; [done|by apply wi_owed|done].
Qed.
End Theorems.

(** ** Runs *)

Fixpoint wrun (acts : list wact) (w : watching) : option watching :=
  match acts with
  | [] => Some w
  | a :: acts' => match wstep elements a w with Some w' => wrun acts' w' | None => None end
  end.

Lemma wrun_reach acts w w' : wreach elements w -> wrun acts w = Some w' -> wreach elements w'.
Proof.
  revert w. induction acts as [|a acts IH]; cbn [wrun]; intros w Hw; [by intros [= <-]|].
  destruct (wstep elements a w) as [w1|] eqn:E; [|done]. apply IH. by eapply wreach_step.
Qed.

Definition wt_after (acts : list wact) : watching := default wt_initial (wrun acts wt_initial).

(** A callback is registered and the thread waits when the directory changes. *)
Definition wt_usual : list wact := [WaRegister 1; WaEnter 1; WaThread true; WaChange].

Lemma store_watched_witness :
  1 ∈ wt_stale (wt_after wt_usual) /\ 1 ∉ wt_stale (watchRuns elements 7 (wt_after wt_usual)).
Proof.
  assert (Hr : wreach elements (wt_after wt_usual))
    by (eapply (wrun_reach wt_usual wt_initial); [apply wreach_initial|vm_compute; reflexivity]).
  assert (Hs : 1 ∈ wt_stale (wt_after wt_usual)) by (vm_compute; reflexivity).
  split; [exact Hs|].
  refine (proj2 (proj2 (proj2 (store_watched elements (fun s => Permutation_refl _) _ Hr)) 1 Hs _)).
  vm_compute. discriminate.
Defined.

(** A change between the first call of a callback and its entry into the map is
    not told to it: the thread handles the change, and waits for another. *)
Example registration_gap :
  let w := wt_after [WaRegister 1; WaEnter 1; WaThread true; WaRegister 2; WaChange; WaThread true; WaThread true; WaThread true;
                     WaThread true; WaEnter 2] in
  elements (wt_stale w) = [2] /\ wt_calls w = [1; 2; 1] /\ wt_thread w = WtWaiting /\ watchThread elements true w = None.
Proof. vm_compute. done. Qed.

(** A change while the thread has no handle, as before its first one, is told
    to nobody. *)
Example restart_gap :
  let w := wt_after [WaRegister 1; WaEnter 1; WaChange; WaThread true] in
  elements (wt_stale w) = [1] /\ wt_calls w = [1] /\ watchThread elements true w = None.
Proof. vm_compute. done. Qed.
