(* ===== verification/Services.v ===== *)
(** * Services and endpoints: services/errors.go, services/boot.go, conf/dnsresolver_windows.go, conf/admin_windows.go

    The codes a service ends with, whether it was started at boot, the names of
    endpoints, and the values an administrator sets in the registry. *)

From S2P Require Import Prelude GoStrings GoNum Netip Config Effects Store.
Local Open Scope Z_scope.

(** ** errors.go *)

Definition ErrorSuccess : Z := 0.
Definition ErrorRingloggerOpen : Z := 1.
Definition ErrorLoadConfiguration : Z := 2.
Definition ErrorCreateNetworkAdapter : Z := 3.
Definition ErrorDNSLookup : Z := 4.
Definition ErrorFirewall : Z := 5.
Definition ErrorDeviceSetConfig : Z := 6.
Definition ErrorDeviceBringUp : Z := 7.
Definition ErrorBindSocketsToDefaultRoutes : Z := 8.
Definition ErrorMonitorMTUChanges : Z := 9.
Definition ErrorSetNetConfig : Z := 10.
Definition ErrorDetermineExecutablePath : Z := 11.
Definition ErrorTrackTunnels : Z := 12.
Definition ErrorEnumerateSessions : Z := 13.
Definition ErrorDropPrivileges : Z := 14.
Definition ErrorRunScript : Z := 15.
Definition ErrorWin32 : Z := 16.
Definition ErrorUAPIListen : Z := 17.

(** Error.Error *)
Definition ErrorText (e : Z) : string :=
  if e =? ErrorSuccess then "No error"
  else if e =? ErrorRingloggerOpen then "Unable to open log file"
  else if e =? ErrorDetermineExecutablePath then "Unable to determine path of running executable"
  else if e =? ErrorLoadConfiguration then "Unable to load configuration from path"
  else if e =? ErrorCreateNetworkAdapter then "Unable to create network adapter"
  else if e =? ErrorDNSLookup then "Unable to resolve one or more DNS hostname endpoints"
  else if e =? ErrorFirewall then "Unable to enable firewall rules"
  else if e =? ErrorDeviceSetConfig then "Unable to set device configuration"
  else if e =? ErrorDeviceBringUp then "Unable to bring up adapter"
  else if e =? ErrorBindSocketsToDefaultRoutes then "Unable to bind sockets to default route"
  else if e =? ErrorMonitorMTUChanges then "Unable to monitor default route MTU for changes"
  else if e =? ErrorSetNetConfig then "Unable to configure adapter network settings"
  else if e =? ErrorTrackTunnels then "Unable to track existing tunnels"
  else if e =? ErrorEnumerateSessions then "Unable to enumerate current sessions"
  else if e =? ErrorDropPrivileges then "Unable to drop privileges"
  else if e =? ErrorRunScript then "An error occurred while running a configuration script command"
  else if e =? ErrorWin32 then "An internal Windows error has occurred"
  else if e =? ErrorUAPIListen then "Unable to listen on named pipe"
  else "An unknown error has occurred".

(** errors.As with a windows.Errno: the first code in the chain of causes. *)
Fixpoint asErrno (e : goerr) : option Z :=
  match e with
  | ErrCode code => Some code
  | ErrWrap _ _ cause => asErrno cause
  | _ => None
  end.

Definition NO_ERROR : Z := 0.

(** Whether the code is one of the service's own, and the code. *)
Definition DetermineErrorCode (err : option goerr) (serviceError : Z) : bool * Z :=
  match err with
  | Some e => match asErrno e with
              | Some syserr => (false, syserr)
              | None => if negb (serviceError =? ErrorSuccess) then (true, serviceError) else (false, NO_ERROR)
              end
  | None => if negb (serviceError =? ErrorSuccess) then (true, serviceError) else (false, NO_ERROR)
  end.

Definition CombineErrors (err : option goerr) (serviceError : Z) : option goerr :=
  if negb (serviceError =? ErrorSuccess) then
    match err with
    | Some e => Some (ErrWrap (ErrorText serviceError) [] e)
    | None => Some (ErrText (ErrorText serviceError))
    end
  else err.

(** ** boot.go *)

Definition StartReasonAuto : Z := 2.
Definition StartReasonDelayedAuto : Z := 16.

Class BootSystem (W : Type) := {
  svc_IsWindowsService : W -> result bool;
  svc_DynamicStartReason : W -> result Z
}.

(** What the function of the sync.Once stores. *)
Definition determineStartedAtBoot {W} `{BootSystem W} (w : W) : bool :=
  match svc_IsWindowsService w with
  | Ok false => false
  | _ => match svc_DynamicStartReason w with
         | Ok reason => negb (Z.land reason StartReasonAuto =? 0) || negb (Z.land reason StartReasonDelayedAuto =? 0)
         | Err _ => false
         end
  end.

(** [once] is the value once it has been stored. *)
Definition servicesStartedAtBoot {W} `{BootSystem W} (once : option bool) (w : W) : bool * option bool :=
  match once with
  | Some b => (b, once)
  | None => let b := determineStartedAtBoot w in (b, Some b)
  end.

(** ** admin_windows.go *)

Class Registry (W : Type) := {
  reg_OpenKey : gostring -> M W unit;
  reg_GetIntegerValue : gostring -> M W Z
}.

Definition adminRegKey : gostring := str "Software\WireGuard WS".

(** The key is opened once; [key] is what that gave. *)
Definition openAdminKey {W} `{Registry W} (key : option (result unit)) : W -> result unit * option (result unit) * W :=
  fun w => match key with
           | Some r => (r, key, w)
           | None => let '(r, w') := reg_OpenKey adminRegKey w in (r, Some r, w')
           end.

Definition AdminBool {W} `{Registry W} (key : option (result unit)) (name : gostring)
    : W -> bool * option (result unit) * W :=
  fun w =>
    let '(r, key', w1) := openAdminKey key w in
    match r with
    | Err _ => (false, key', w1)
    | Ok _ => match reg_GetIntegerValue name w1 with
              | (Ok val, w2) => (negb (val =? 0), key', w2)
              | (Err _, w2) => (false, key', w2)
              end
    end.

(** ** dnsresolver_windows.go *)

Definition AF_UNSPEC : Z := 0.
Definition AF_INET_CODE : Z := 2.
Definition AF_INET6_CODE : Z := 23.
Definition WSAHOST_NOT_FOUND : Z := 11001.
Definition WSATRY_AGAIN : Z := 11002.

(** One node of the list GetAddrInfoW returns, with the address of its
    sockaddr. *)
Record AddrinfoW : Type := mkAddrinfo { ai_Family : Z; ai_Addr : Addr }.

Class ResolverSystem (W : Type) := {
  GetAddrInfoW : list Z -> M W (list AddrinfoW);
  resolverAtBoot : bool
}.

(** The loop over the nodes: the first IPv4 address, else the first IPv6 one. *)
Fixpoint resolveNodes (v6 : option Addr) (nodes : list AddrinfoW) : result gostring :=
  match nodes with
  | [] => match v6 with Some a => Ok (AddrString a) | None => Err (ErrCode WSAHOST_NOT_FOUND) end
  | n :: rest =>
      if negb (ai_Family n =? AF_INET_CODE) && negb (ai_Family n =? AF_INET6_CODE) then resolveNodes v6 rest
      else if Is4 (ai_Addr n) then Ok (AddrString (ai_Addr n))
      else match v6 with
           | None => resolveNodes (if Is6 (ai_Addr n) then Some (ai_Addr n) else None) rest
           | Some _ => resolveNodes v6 rest
           end
  end.

Section Resolver.
Context {W : Type} `{ResolverSystem W}.

(** No list at all is reported as an empty one is. *)
Definition resolveHostnameOnce (name : gostring) : M W gostring :=
  do! name16 := mpure (UTF16FromString name) in
  do! nodes := GetAddrInfoW name16 in
  mpure (resolveNodes None nodes).

Definition maxTries : nat := if resolverAtBoot then 30%nat else 10%nat.

(** The error after which it sleeps and tries again. *)
Definition retryResolve (e : goerr) : bool :=
  bool_decide (e = ErrCode WSATRY_AGAIN) || (bool_decide (e = ErrCode WSAHOST_NOT_FOUND) && resolverAtBoot).

(** [last] is the error of the last try. *)
Fixpoint resolveTries (tries : nat) (last : goerr) (name : gostring) : M W gostring :=
  match tries with
  | O => mfail last
  | S tries' => fun w =>
      match resolveHostnameOnce name w with
      | (Ok s, w') => (Ok s, w')
      | (Err e, w') => if retryResolve e then resolveTries tries' e name w' else (Err e, w')
      end
  end.

Definition resolveHostname (name : gostring) : M W gostring :=
  resolveTries maxTries (ErrText "no try") name.

(** The peers are changed in place: when a name cannot be resolved its host is
    left empty, and the peers after it as they were. *)
Fixpoint resolvePeers (peers : list Peer) (w : W) : result unit * list Peer * W :=
  match peers with
  | [] => (Ok tt, [], w)
  | p :: rest =>
      if EndpointIsEmpty (pr_Endpoint p) then
        let '(r, rest', w') := resolvePeers rest w in (r, p :: rest', w')
      else
        match resolveHostname (e_Host (pr_Endpoint p)) w with
        | (Ok host, w1) =>
            let '(r, rest', w') := resolvePeers rest w1 in
            (r, set_pr_Endpoint (mkEndpoint host (e_Port (pr_Endpoint p))) p :: rest', w')
        | (Err e, w1) => (Err e, set_pr_Endpoint (mkEndpoint [] (e_Port (pr_Endpoint p))) p :: rest, w1)
        end
  end.

Definition ResolveEndpoints (config : Config) (w : W) : result unit * Config * W :=
  let '(r, peers, w') := resolvePeers (c_Peers config) w in
  (r, set_c_Peers peers config, w').
End Resolver.

(** ** What resolution gives *)

Section Resolved.
Context {W : Type} `{ResolverSystem W}.

(** The addresses Windows returns are addresses. *)
Class ResolverLaws := {
  gai_valid : forall name w nodes w', GetAddrInfoW name w = (Ok nodes, w') ->
    Forall (fun n => Is4 (ai_Addr n) = true \/ Is6 (ai_Addr n) = true -> validAddr (ai_Addr n)) nodes
}.
Context `{!ResolverLaws}.

(** The nodes that count. *)
Definition usableNode (n : AddrinfoW) : bool :=
  ((ai_Family n =? AF_INET_CODE) || (ai_Family n =? AF_INET6_CODE)) && (Is4 (ai_Addr n) || Is6 (ai_Addr n)).

(** IPv4 first, then the order of the answer. *)
Definition preferred (nodes : list AddrinfoW) : option Addr :=
  let l := map ai_Addr (List.filter usableNode nodes) in
  match find Is4 l with Some a => Some a | None => head l end.

Lemma resolveNodes_preferred v6 nodes :
  (forall a, v6 = Some a -> Is4 a = false) ->
  resolveNodes v6 nodes
  = match find Is4 (map ai_Addr (List.filter usableNode nodes)), v6, head (map ai_Addr (List.filter usableNode nodes)) with
    | Some a, _, _ => Ok (AddrString a)
    | None, Some a, _ => Ok (AddrString a)
    | None, None, Some a => Ok (AddrString a)
    | None, None, None => Err (ErrCode WSAHOST_NOT_FOUND)
    end.
Proof.
  revert v6; induction nodes as [|n nodes IH]; intros v6 Hv6; cbn [resolveNodes List.filter map find head].
  - by destruct v6.
  - pose proof (eq_refl (usableNode n)) as Hu. unfold usableNode at 2 in Hu. rewrite Hu, <- negb_orb. clear Hu.
    destruct ((ai_Family n =? AF_INET_CODE) || (ai_Family n =? AF_INET6_CODE)); cbn [negb andb]; [|by apply IH].
    destruct (Is4 (ai_Addr n)) eqn:E4; cbn [orb map find head]; [by rewrite E4|].
    destruct (Is6 (ai_Addr n)) eqn:E6; cbn [map find head].
    + rewrite E4. destruct v6 as [a|].
      * rewrite IH by done. by destruct (find _ _).
      * rewrite IH by (intros a [= <-]; done). by destruct (find _ _).
    + destruct v6 as [a|]; rewrite IH by done; [by destruct (find _ _)|done].
Qed.

Lemma resolveHostnameOnce_spec name w s w' :
  resolveHostnameOnce name w = (Ok s, w') -> exists a, validAddr a /\ s = AddrString a.
Proof.
  unfold resolveHostnameOnce, mthen, mpure. destruct (UTF16FromString name) as [n16|e]; [|done].
  destruct (GetAddrInfoW n16 w) as [[nodes|e] w1] eqn:E; [|done]. pose proof (gai_valid _ _ _ _ E) as Hv.
  rewrite resolveNodes_preferred by done. set (l := map ai_Addr (List.filter usableNode nodes)).
  assert (Hl : forall a, a ∈ l -> validAddr a).
  { intros a (n & -> & [Hin Hu]%list_elem_of_In%filter_In)%list_elem_of_fmap.
    rewrite Forall_forall in Hv. apply Hv; [by apply list_elem_of_In|].
    unfold usableNode in Hu. apply andb_prop in Hu as [_ Hu]. by apply orb_prop. }
  destruct (find Is4 l) as [a|] eqn:Ef; [apply find_some in Ef as [Hin _]|destruct l as [|a l'] eqn:El; [done|]];
    intros [= <- <-]; exists a; (split; [apply Hl|done]); [by apply list_elem_of_In|by left].
Qed.

Lemma resolveTries_spec tries last name w s w' :
  resolveTries tries last name w = (Ok s, w') -> exists a, validAddr a /\ s = AddrString a.
Proof.
  revert last w; induction tries as [|tries IH]; intros last w; cbn [resolveTries]; [done|].
  destruct (resolveHostnameOnce name w) as [[x|e] w1] eqn:E.
  - intros [= <- <-]. by eapply resolveHostnameOnce_spec.
  - destruct (retryResolve e); [apply IH|done].
Qed.

(** A peer and what it becomes. *)
Definition resolvedPeer (p p' : Peer) : Prop :=
  if EndpointIsEmpty (pr_Endpoint p) then p' = p
  else exists a, ParseAddr (AddrString a) = Some a
       /\ p' = set_pr_Endpoint (mkEndpoint (AddrString a) (e_Port (pr_Endpoint p))) p.

Definition resolvedPeers (r : result unit) (peers peers' : list Peer) : Prop :=
  match r with
  | Ok _ => Forall2 resolvedPeer peers peers'
  | Err _ => exists before p after before', peers = before ++ p :: after
      /\ EndpointIsEmpty (pr_Endpoint p) = false /\ Forall2 resolvedPeer before before'
      /\ peers' = before' ++ set_pr_Endpoint (mkEndpoint [] (e_Port (pr_Endpoint p))) p :: after
  end.

Lemma resolvedPeers_cons r p p' peers peers' :
  resolvedPeer p p' -> resolvedPeers r peers peers' -> resolvedPeers r (p :: peers) (p' :: peers').
Proof.
  intros Hp. destruct r as [u|e]; [by constructor|].
  intros (before & q & after & before' & -> & Hq & HF & ->).
  exists (p :: before), q, after, (p' :: before'). repeat split; [done|by constructor].
Qed.

(** When the endpoints of a configuration have been resolved, every peer with
    an endpoint has the text of an address as its host, which parses back to
    that address, with the same port, and nothing else has changed. When it
    fails, the peers before the one at fault are resolved, that one has no host,
    and those after it are as they were. *)
Theorem ResolveEndpoints_addresses config w r config' w' :
  ResolveEndpoints config w = (r, config', w') ->
  config' = set_c_Peers (c_Peers config') config /\ resolvedPeers r (c_Peers config) (c_Peers config').
Proof.
  unfold ResolveEndpoints. destruct (resolvePeers (c_Peers config) w) as [[r1 peers] w1] eqn:E.
  intros [= <- <- <-]. split; [by destruct config|]. cbn [c_Peers set_c_Peers].
  revert w r1 peers w1 E; induction (c_Peers config) as [|p rest IH]; intros w r1 peers w1; cbn [resolvePeers].
  { intros [= <- <- <-]. constructor. }
  destruct (EndpointIsEmpty (pr_Endpoint p)) eqn:Ee.
  - destruct (resolvePeers rest w) as [[r2 rest'] w2] eqn:E2. intros [= <- <- <-].
    apply resolvedPeers_cons; [unfold resolvedPeer; by rewrite Ee|by eapply IH].
  - destruct (resolveHostname (e_Host (pr_Endpoint p)) w) as [[host|e] w2] eqn:E2.
    + destruct (resolvePeers rest w2) as [[r3 rest'] w3] eqn:E3. intros [= <- <- <-].
      apply resolvedPeers_cons; [|by eapply IH]. apply resolveTries_spec in E2 as (a & Ha & ->).
      unfold resolvedPeer. rewrite Ee. exists a. split; [by apply ParseAddr_AddrString|done].
    + intros [= <- <- <-]. exists [], p, rest, []. repeat split; [done|constructor].
Qed.
End Resolved.

(** ** An answer with an IPv6 and an IPv4 address *)

#[local] Instance dualResolver : ResolverSystem unit := {|
  GetAddrInfoW _ := mret [mkAddrinfo AF_INET6_CODE (Addr6 1 []); mkAddrinfo AF_INET_CODE (Addr4 3232235777)];
  resolverAtBoot := false
|}.

#[local] Instance dualResolverLaws : ResolverLaws.
Proof.
  split. intros name [] nodes [] [= <-]. apply Forall_cons. split; [intros _; cbn; lia|].
  apply Forall_cons. split; [intros _; cbn; lia|]. apply Forall_nil. done.
Defined.

Definition namedPeer : Peer := set_pr_Endpoint (mkEndpoint (str "vpn.example") 51820) emptyPeer.
Definition namedConfig : Config := mkConfig (str "lab") emptyInterface [namedPeer] ∅ [].

Lemma ResolveEndpoints_addresses_witness :
  exists config', ResolveEndpoints namedConfig tt = (Ok tt, config', tt)
    /\ map (fun p => e_Host (pr_Endpoint p)) (c_Peers config') = [str "192.168.1.1"]
    /\ resolvedPeers (Ok tt) (c_Peers namedConfig) (c_Peers config').
Proof.
  eexists. split; [vm_compute; reflexivity|]. split; [vm_compute; reflexivity|].
  apply (ResolveEndpoints_addresses namedConfig tt (Ok tt) _ tt). vm_compute. reflexivity.
Defined.
