(* ===== verification/Firewall.v ===== *)
(** * tunnel/firewall: the kill switch

    The filters the service installs in the Windows Filtering Platform, and the
    session that keeps them. The platform, and the calls that describe the
    process, are parameters (class [WFP]); what the code relies on in them is
    the class [WFPLaws]. A GUID is its 128-bit number; a union of a type tag
    and a value or pointer is an inductive type of the values the code uses;
    a filter holds the conditions its pointer and count denote. wrapErr adds a
    source location to the text of an error and keeps its cause: the model has
    the cause. *)

From S2P Require Import Prelude GoStrings Netip Effects.
Local Open Scope Z_scope.

Module Firewall.

(** ** types_windows.go *)

Abbreviation guid := Z.
Abbreviation handle := Z.

Definition cFWPM_CONDITION_IP_LOCAL_INTERFACE : guid := 0x4cd62a4959c34969b7f3bda5d32890a4.
Definition cFWPM_CONDITION_IP_REMOTE_ADDRESS : guid := 0xb235ae9a1d6449b8a44c5ff3d9095045.
Definition cFWPM_CONDITION_IP_PROTOCOL : guid := 0x3971ef2b623e4f9a8cb16e79b806b9a7.
Definition cFWPM_CONDITION_IP_LOCAL_PORT : guid := 0x0c1ba1af5765453faf22a8f791ac775b.
Definition cFWPM_CONDITION_IP_REMOTE_PORT : guid := 0xc35a604dd22b4e1a91b468f674ee674b.
Definition cFWPM_CONDITION_ALE_APP_ID : guid := 0xd78e1e8786444ea59437d809ecefc971.
Definition cFWPM_CONDITION_ALE_USER_ID : guid := 0xaf043a0ab34d4f86979cc90371af6e66.
Definition cFWPM_CONDITION_IP_LOCAL_ADDRESS : guid := 0xd9ee00dec1ef4617bfe3ffd8f5a08957.
Definition cFWPM_CONDITION_L2_FLAGS : guid := 0x7bc43cbf37ba45f1b74a82ff518eeb10.
Definition cFWPM_CONDITION_FLAGS : guid := 0x632ce23b5167435c86d7e903684aa80c.
Definition cFWPM_LAYER_ALE_AUTH_CONNECT_V4 : guid := 0xc38d57d105a74c33904f7fbceee60e82.
Definition cFWPM_LAYER_ALE_AUTH_RECV_ACCEPT_V4 : guid := 0xe1cd9fe7f4b5427396c0592e487b8650.
Definition cFWPM_LAYER_ALE_AUTH_CONNECT_V6 : guid := 0x4a72393b319f44bc84c3ba54dcb3b6b4.
Definition cFWPM_LAYER_ALE_AUTH_RECV_ACCEPT_V6 : guid := 0xa3b42c979f044672b87ecee9c483257f.
Definition cFWPM_LAYER_OUTBOUND_MAC_FRAME_NATIVE : guid := 0x94c449129d6f4ebfb99505ab8a088d1b.
Definition cFWPM_LAYER_INBOUND_MAC_FRAME_NATIVE : guid := 0xd4220bd362ce4f08ae88b56e8526df50.
Definition cFWPM_CONDITION_ICMP_TYPE : guid := cFWPM_CONDITION_IP_LOCAL_PORT.
Definition cFWPM_CONDITION_ICMP_CODE : guid := cFWPM_CONDITION_IP_REMOTE_PORT.

Definition cFWP_CONDITION_L2_IS_VM2VM : Z := 16.
Definition cFWP_CONDITION_FLAG_IS_LOOPBACK : Z := 1.
Definition cFWPM_FILTER_FLAG_NONE : Z := 0.
Definition cFWPM_FILTER_FLAG_CLEAR_ACTION_RIGHT : Z := 8.
Definition cFWPM_SESSION_FLAG_DYNAMIC : Z := 1.
Definition cIPPROTO_ICMPV6 : Z := 58.
Definition cIPPROTO_TCP : Z := 6.
Definition cIPPROTO_UDP : Z := 17.
Definition cFWP_ACTRL_MATCH_FILTER : Z := 1.
Definition INFINITE : Z := 2 ^ 32 - 1.

(** wtFwpConditionValue0: the type tag and what the value holds or points to. *)
Inductive conditionValue : Type :=
  | cFWP_UINT8 (v : Z)
  | cFWP_UINT16 (v : Z)
  | cFWP_UINT32 (v : Z)
  | cFWP_UINT64 (v : Z)
  | cFWP_BYTE_ARRAY16_TYPE (addr : Z)
  | cFWP_V6_ADDR_MASK (addr prefixLength : Z)
  | cFWP_BYTE_BLOB_TYPE (blob : gostring)
  | cFWP_SECURITY_DESCRIPTOR_TYPE (sd : gostring).

Inductive wtFwpMatchType : Type := cFWP_MATCH_EQUAL | cFWP_MATCH_FLAGS_ALL_SET.

Inductive wtFwpActionType : Type := cFWP_ACTION_BLOCK | cFWP_ACTION_PERMIT.

Record wtFwpmFilterCondition0 : Type := mkCondition {
  fieldKey : guid;
  matchType : wtFwpMatchType;
  conditionValue0 : conditionValue
}.

#[global] Instance conditionValue_eq_dec : EqDecision conditionValue.
Proof. solve_decision. Defined.
#[global] Instance wtFwpMatchType_eq_dec : EqDecision wtFwpMatchType.
Proof. solve_decision. Defined.
#[global] Instance wtFwpActionType_eq_dec : EqDecision wtFwpActionType.
Proof. solve_decision. Defined.
#[global] Instance condition_eq_dec : EqDecision wtFwpmFilterCondition0.
Proof. solve_decision. Defined.

(** Two strings of UTF-16 code units. *)
Record wtFwpmDisplayData0 : Type := mkDisplayData { dd_name : list Z; dd_description : list Z }.

Record wtFwpmFilter0 : Type := mkFilter {
  f_displayData : wtFwpmDisplayData0;
  f_flags : Z;
  f_providerKey : guid;
  f_layerKey : guid;
  f_subLayerKey : guid;
  f_weight : Z;
  f_conditions : list wtFwpmFilterCondition0;
  f_action : wtFwpActionType
}.

Record wtFwpmSession0 : Type := mkSession {
  s_displayData : wtFwpmDisplayData0;
  s_flags : Z;
  s_txnWaitTimeoutInMSec : Z
}.

Record wtFwpmProvider0 : Type := mkProvider { pv_providerKey : guid; pv_displayData : wtFwpmDisplayData0 }.

Record wtFwpmSublayer0 : Type := mkSublayer {
  sl_subLayerKey : guid;
  sl_displayData : wtFwpmDisplayData0;
  sl_providerKey : guid;
  sl_weight : Z
}.

(** What the accessors of windows.SID return, and a group of a token. *)
Record SID : Type := mkSID { sid_IsValid : bool; sid_IdentifierAuthority : Z; sid_SubAuthorities : list Z }.
Record SIDAndAttributes : Type := mkGroup { g_Sid : SID; g_Attributes : Z }.
Record EXPLICIT_ACCESS : Type := mkAccess { ea_AccessPermissions : Z; ea_Trustee : SID }.

(** ** The platform *)

Class WFP (W : Type) := {
  UTF16PtrFromString : gostring -> result (list Z);
  os_Executable : result gostring;
  fwpmGetAppIdFromFileName0 : list Z -> result gostring;
  OpenProcessToken : result handle;
  GetTokenGroups : handle -> result (list SIDAndAttributes);
  ACLFromEntries : list EXPLICIT_ACCESS -> result gostring;
  NewSecurityDescriptor : result gostring;
  SetDACL : gostring -> gostring -> result gostring;
  ToSelfRelative : gostring -> result gostring;
  GenerateGUID : M W guid;
  fwpmEngineOpen0 : wtFwpmSession0 -> M W handle;
  fwpmEngineClose0 : handle -> W -> W;
  fwpmTransactionBegin0 : handle -> M W unit;
  fwpmTransactionCommit0 : handle -> M W unit;
  fwpmTransactionAbort0 : handle -> W -> W;
  fwpmProviderAdd0 : handle -> wtFwpmProvider0 -> M W unit;
  fwpmSubLayerAdd0 : handle -> wtFwpmSublayer0 -> M W unit;
  fwpmFilterAdd0 : handle -> wtFwpmFilter0 -> M W unit
}.

(** A session: whether it is dynamic, its filters in force, and the filters of
    its transaction if one is in progress. *)
Record sessionState : Type := mkSessionState {
  ss_dynamic : bool;
  ss_filters : list wtFwpmFilter0;
  ss_txn : option (list wtFwpmFilter0)
}.

(** [engine'] is [engine] except at [h]. *)
Definition updated (engine engine' : handle -> sessionState) (h : handle) (s : sessionState) : Prop :=
  engine' h = s /\ forall h', h' <> h -> engine' h' = engine h'.

(** Documented behaviour of the engine: changes made in a transaction take
    effect together when it is committed, a failed call changes nothing, and
    the objects of a dynamic session go with it. *)
Class WFPLaws (W : Type) `{WFP W} := {
  engine : W -> handle -> sessionState;
  engine_guid : forall w r w', GenerateGUID w = (r, w') -> forall h, engine w' h = engine w h;
  engine_provider : forall h p w r w', fwpmProviderAdd0 h p w = (r, w') -> forall h', engine w' h' = engine w h';
  engine_sublayer : forall h p w r w', fwpmSubLayerAdd0 h p w = (r, w') -> forall h', engine w' h' = engine w h';
  engine_open : forall s w h w', fwpmEngineOpen0 s w = (Ok h, w') ->
    h <> 0 /\ updated (engine w) (engine w') h (mkSessionState (s_flags s =? cFWPM_SESSION_FLAG_DYNAMIC) [] None);
  engine_open_err : forall s w e w', fwpmEngineOpen0 s w = (Err e, w') -> forall h, engine w' h = engine w h;
  engine_close : forall h w, ss_dynamic (engine w h) = true ->
    updated (engine w) (engine (fwpmEngineClose0 h w)) h (mkSessionState true [] None);
  engine_begin : forall h w w', fwpmTransactionBegin0 h w = (Ok tt, w') ->
    updated (engine w) (engine w') h (mkSessionState (ss_dynamic (engine w h)) (ss_filters (engine w h)) (Some []));
  engine_begin_err : forall h w e w', fwpmTransactionBegin0 h w = (Err e, w') -> forall h', engine w' h' = engine w h';
  engine_filter : forall h f w w' l, ss_txn (engine w h) = Some l -> fwpmFilterAdd0 h f w = (Ok tt, w') ->
    updated (engine w) (engine w') h
      (mkSessionState (ss_dynamic (engine w h)) (ss_filters (engine w h)) (Some (l ++ [f])));
  engine_filter_err : forall h f w e w', fwpmFilterAdd0 h f w = (Err e, w') -> forall h', engine w' h' = engine w h';
  engine_commit : forall h w w' l, ss_txn (engine w h) = Some l -> fwpmTransactionCommit0 h w = (Ok tt, w') ->
    updated (engine w) (engine w') h (mkSessionState (ss_dynamic (engine w h)) (ss_filters (engine w h) ++ l) None);
  engine_commit_err : forall h w e w', fwpmTransactionCommit0 h w = (Err e, w') -> forall h', engine w' h' = engine w h';
  engine_abort : forall h w,
    updated (engine w) (engine (fwpmTransactionAbort0 h w)) h
      (mkSessionState (ss_dynamic (engine w h)) (ss_filters (engine w h)) None)
}.

Section Rules.
Context {W : Type} `{WFP W}.

(** ** helpers.go *)

Definition runTransaction (session : handle) (operation : handle -> M W unit) : M W unit :=
  fun w =>
  match fwpmTransactionBegin0 session w with
  | (Err e, w1) => (Err e, w1)
  | (Ok _, w1) =>
      match operation session w1 with
      | (Err e, w2) => (Err e, fwpmTransactionAbort0 session w2)
      | (Ok _, w2) =>
          match fwpmTransactionCommit0 session w2 with
          | (Err e, w3) => (Err e, fwpmTransactionAbort0 session w3)
          | (Ok _, w3) => (Ok tt, w3)
          end
      end
  end.

Definition createWtFwpmDisplayData0 (name description : string) : M W wtFwpmDisplayData0 :=
  do! namePtr := mpure (UTF16PtrFromString (str name)) in
  do! descriptionPtr := mpure (UTF16PtrFromString (str description)) in
  mret (mkDisplayData namePtr descriptionPtr).

(** A weight of type FWP_UINT8. *)
Definition filterWeight (weight : Z) : Z := weight.

Definition SE_GROUP_OWNER_ENABLED : Z := 14. (* SE_GROUP_ENABLED | SE_GROUP_ENABLED_BY_DEFAULT | SE_GROUP_OWNER *)
Definition SECURITY_NT_AUTHORITY : Z := 5.

Definition isServiceGroup (g : SIDAndAttributes) : bool :=
  (g_Attributes g =? SE_GROUP_OWNER_ENABLED)
  && (sid_IsValid (g_Sid g) && (sid_IdentifierAuthority (g_Sid g) =? SECURITY_NT_AUTHORITY)
      && negb (length (sid_SubAuthorities (g_Sid g)) <? 6)%nat
      && bool_decide (sid_SubAuthorities (g_Sid g) !! 0%nat = Some 80)).

Definition ERROR_NO_SUCH_GROUP : goerr := ErrCode 1319.

Definition getCurrentProcessSecurityDescriptor : M W gostring :=
  do! processToken := mpure OpenProcessToken in
  do! gs := mpure (GetTokenGroups processToken) in
  match find isServiceGroup gs with
  | None => mfail ERROR_NO_SUCH_GROUP
  | Some g =>
      do! dacl := mpure (ACLFromEntries [mkAccess cFWP_ACTRL_MATCH_FILTER (g_Sid g)]) in
      do! sd := mpure NewSecurityDescriptor in
      do! sd := mpure (SetDACL sd dacl) in
      mpure (ToSelfRelative sd)
  end.

Definition getCurrentProcessAppID : M W gostring :=
  do! currentFile := mpure os_Executable in
  do! curFilePtr := mpure (UTF16PtrFromString currentFile) in
  mpure (fwpmGetAppIdFromFileName0 curFilePtr).

Record baseObjects : Type := mkBaseObjects { provider : guid; filters : guid }.

(** ** rules.go *)

Definition linkLocal : conditionValue := cFWP_V6_ADDR_MASK (0xfe80 * 2 ^ 112) 10.
Definition linkLocalDHCPMulticast : conditionValue := cFWP_BYTE_ARRAY16_TYPE 0xff020000000000000000000000010002.
Definition siteLocalDHCPMulticast : conditionValue := cFWP_BYTE_ARRAY16_TYPE 0xff050000000000000000000000010003.
Definition linkLocalRouterMulticast : conditionValue := cFWP_BYTE_ARRAY16_TYPE 0xff020000000000000000000000000002.

Definition equals (key : guid) (v : conditionValue) : wtFwpmFilterCondition0 :=
  mkCondition key cFWP_MATCH_EQUAL v.

(** A filter of the sublayer without its name and layer. *)
Definition newFilter (bo : baseObjects) (weight flags : Z) (conditions : list wtFwpmFilterCondition0)
    (action : wtFwpActionType) : wtFwpmFilter0 :=
  mkFilter (mkDisplayData [] []) flags (provider bo) 0 (filters bo) (filterWeight weight) conditions action.

Definition withLayer (f : wtFwpmFilter0) (dd : wtFwpmDisplayData0) (layer : guid) : wtFwpmFilter0 :=
  mkFilter dd (f_flags f) (f_providerKey f) layer (f_subLayerKey f) (f_weight f) (f_conditions f) (f_action f).

(** One block of a rule: the name and layer of the filter, and its addition. *)
Definition addFilter (session : handle) (filter : wtFwpmFilter0) (name : string) (layer : guid) : M W unit :=
  do! displayData := createWtFwpmDisplayData0 name "" in
  fwpmFilterAdd0 session (withLayer filter displayData layer).

Definition permitTunInterface (session : handle) (bo : baseObjects) (weight ifLUID : Z) : M W unit :=
  let ifaceCondition := equals cFWPM_CONDITION_IP_LOCAL_INTERFACE (cFWP_UINT64 ifLUID) in
  let filter := newFilter bo weight cFWPM_FILTER_FLAG_NONE [ifaceCondition] cFWP_ACTION_PERMIT in
  do! _ := addFilter session filter "Permit outbound IPv4 traffic on TUN" cFWPM_LAYER_ALE_AUTH_CONNECT_V4 in
  do! _ := addFilter session filter "Permit inbound IPv4 traffic on TUN" cFWPM_LAYER_ALE_AUTH_RECV_ACCEPT_V4 in
  do! _ := addFilter session filter "Permit outbound IPv6 traffic on TUN" cFWPM_LAYER_ALE_AUTH_CONNECT_V6 in
  do! _ := addFilter session filter "Permit inbound IPv6 traffic on TUN" cFWPM_LAYER_ALE_AUTH_RECV_ACCEPT_V6 in
  mret tt.

Definition permitWireGuardService (session : handle) (bo : baseObjects) (weight : Z) : M W unit :=
  do! appID := getCurrentProcessAppID in
  do! sd := getCurrentProcessSecurityDescriptor in
  let conditions := [equals cFWPM_CONDITION_ALE_APP_ID (cFWP_BYTE_BLOB_TYPE appID);
                     equals cFWPM_CONDITION_ALE_USER_ID (cFWP_SECURITY_DESCRIPTOR_TYPE sd)] in
  let filter := newFilter bo weight cFWPM_FILTER_FLAG_CLEAR_ACTION_RIGHT conditions cFWP_ACTION_PERMIT in
  do! _ := addFilter session filter "Permit unrestricted outbound traffic for WireGuard service (IPv4)" cFWPM_LAYER_ALE_AUTH_CONNECT_V4 in
  do! _ := addFilter session filter "Permit unrestricted inbound traffic for WireGuard service (IPv4)" cFWPM_LAYER_ALE_AUTH_RECV_ACCEPT_V4 in
  do! _ := addFilter session filter "Permit unrestricted outbound traffic for WireGuard service (IPv6)" cFWPM_LAYER_ALE_AUTH_CONNECT_V6 in
  do! _ := addFilter session filter "Permit unrestricted inbound traffic for WireGuard service (IPv6)" cFWPM_LAYER_ALE_AUTH_RECV_ACCEPT_V6 in
  mret tt.

Definition permitLoopback (session : handle) (bo : baseObjects) (weight : Z) : M W unit :=
  let condition := mkCondition cFWPM_CONDITION_FLAGS cFWP_MATCH_FLAGS_ALL_SET
                     (cFWP_UINT32 cFWP_CONDITION_FLAG_IS_LOOPBACK) in
  let filter := newFilter bo weight cFWPM_FILTER_FLAG_NONE [condition] cFWP_ACTION_PERMIT in
  do! _ := addFilter session filter "Permit outbound on loopback (IPv4)" cFWPM_LAYER_ALE_AUTH_CONNECT_V4 in
  do! _ := addFilter session filter "Permit inbound on loopback (IPv4)" cFWPM_LAYER_ALE_AUTH_RECV_ACCEPT_V4 in
  do! _ := addFilter session filter "Permit outbound on loopback (IPv6)" cFWPM_LAYER_ALE_AUTH_CONNECT_V6 in
  do! _ := addFilter session filter "Permit inbound on loopback (IPv6)" cFWPM_LAYER_ALE_AUTH_RECV_ACCEPT_V6 in
  mret tt.

Definition permitDHCPIPv4 (session : handle) (bo : baseObjects) (weight : Z) : M W unit :=
  let request := [equals cFWPM_CONDITION_IP_PROTOCOL (cFWP_UINT8 cIPPROTO_UDP);
                  equals cFWPM_CONDITION_IP_LOCAL_PORT (cFWP_UINT16 68);
                  equals cFWPM_CONDITION_IP_REMOTE_PORT (cFWP_UINT16 67);
                  equals cFWPM_CONDITION_IP_REMOTE_ADDRESS (cFWP_UINT32 0xffffffff)] in
  do! _ := addFilter session (newFilter bo weight cFWPM_FILTER_FLAG_NONE request cFWP_ACTION_PERMIT)
             "Permit outbound DHCP request (IPv4)" cFWPM_LAYER_ALE_AUTH_CONNECT_V4 in
  let response := [equals cFWPM_CONDITION_IP_PROTOCOL (cFWP_UINT8 cIPPROTO_UDP);
                   equals cFWPM_CONDITION_IP_LOCAL_PORT (cFWP_UINT16 68);
                   equals cFWPM_CONDITION_IP_REMOTE_PORT (cFWP_UINT16 67)] in
  do! _ := addFilter session (newFilter bo weight cFWPM_FILTER_FLAG_NONE response cFWP_ACTION_PERMIT)
             "Permit inbound DHCP response (IPv4)" cFWPM_LAYER_ALE_AUTH_RECV_ACCEPT_V4 in
  mret tt.

Definition permitDHCPIPv6 (session : handle) (bo : baseObjects) (weight : Z) : M W unit :=
  let request := [equals cFWPM_CONDITION_IP_PROTOCOL (cFWP_UINT8 cIPPROTO_UDP);
                  equals cFWPM_CONDITION_IP_REMOTE_ADDRESS linkLocalDHCPMulticast;
                  equals cFWPM_CONDITION_IP_REMOTE_ADDRESS siteLocalDHCPMulticast;
                  equals cFWPM_CONDITION_IP_REMOTE_PORT (cFWP_UINT16 547);
                  equals cFWPM_CONDITION_IP_LOCAL_ADDRESS linkLocal;
                  equals cFWPM_CONDITION_IP_LOCAL_PORT (cFWP_UINT16 546)] in
  do! _ := addFilter session (newFilter bo weight cFWPM_FILTER_FLAG_NONE request cFWP_ACTION_PERMIT)
             "Permit outbound DHCP request (IPv6)" cFWPM_LAYER_ALE_AUTH_CONNECT_V6 in
  let response := [equals cFWPM_CONDITION_IP_PROTOCOL (cFWP_UINT8 cIPPROTO_UDP);
                   equals cFWPM_CONDITION_IP_REMOTE_ADDRESS linkLocal;
                   equals cFWPM_CONDITION_IP_REMOTE_PORT (cFWP_UINT16 547);
                   equals cFWPM_CONDITION_IP_LOCAL_ADDRESS linkLocal;
                   equals cFWPM_CONDITION_IP_LOCAL_PORT (cFWP_UINT16 546)] in
  do! _ := addFilter session (newFilter bo weight cFWPM_FILTER_FLAG_NONE response cFWP_ACTION_PERMIT)
             "Permit inbound DHCP response (IPv6)" cFWPM_LAYER_ALE_AUTH_RECV_ACCEPT_V6 in
  mret tt.

Record filterDefinition : Type := mkDefinition {
  fd_displayData : wtFwpmDisplayData0;
  fd_conditions : list wtFwpmFilterCondition0;
  fd_layer : guid
}.

(** The conditions of an ICMPv6 message of a type, with code 0. *)
Definition icmp6 (type : Z) : list wtFwpmFilterCondition0 :=
  [equals cFWPM_CONDITION_IP_PROTOCOL (cFWP_UINT8 cIPPROTO_ICMPV6);
   equals cFWPM_CONDITION_ICMP_TYPE (cFWP_UINT16 type);
   equals cFWPM_CONDITION_ICMP_CODE (cFWP_UINT16 0)].

Definition ndpSolicitation : M W (list filterDefinition) :=
  do! displayData := createWtFwpmDisplayData0 "Permit NDP type 133" "" in
  mret [mkDefinition displayData
          (icmp6 133 ++ [equals cFWPM_CONDITION_IP_REMOTE_ADDRESS linkLocalRouterMulticast])
          cFWPM_LAYER_ALE_AUTH_CONNECT_V6].

Definition ndpAdvertisement : M W (list filterDefinition) :=
  do! displayData := createWtFwpmDisplayData0 "Permit NDP type 134" "" in
  mret [mkDefinition displayData (icmp6 134 ++ [equals cFWPM_CONDITION_IP_REMOTE_ADDRESS linkLocal])
          cFWPM_LAYER_ALE_AUTH_RECV_ACCEPT_V6].

Definition ndpNeighbor (type : Z) (name : string) : M W (list filterDefinition) :=
  do! displayData := createWtFwpmDisplayData0 name "" in
  mret [mkDefinition displayData (icmp6 type) cFWPM_LAYER_ALE_AUTH_CONNECT_V6;
        mkDefinition displayData (icmp6 type) cFWPM_LAYER_ALE_AUTH_RECV_ACCEPT_V6].

Definition ndpRedirect : M W (list filterDefinition) :=
  do! displayData := createWtFwpmDisplayData0 "Permit NDP type 137" "" in
  mret [mkDefinition displayData (icmp6 137 ++ [equals cFWPM_CONDITION_IP_REMOTE_ADDRESS linkLocal])
          cFWPM_LAYER_ALE_AUTH_RECV_ACCEPT_V6].

Definition permitNdp (session : handle) (bo : baseObjects) (weight : Z) : M W unit :=
  do! defs133 := ndpSolicitation in
  do! defs134 := ndpAdvertisement in
  do! defs135 := ndpNeighbor 135 "Permit NDP type 135" in
  do! defs136 := ndpNeighbor 136 "Permit NDP type 136" in
  do! defs137 := ndpRedirect in
  let defs := defs133 ++ defs134 ++ defs135 ++ defs136 ++ defs137 in
  mfor defs (fun definition =>
    fwpmFilterAdd0 session
      (withLayer (newFilter bo weight cFWPM_FILTER_FLAG_NONE (fd_conditions definition) cFWP_ACTION_PERMIT)
         (fd_displayData definition) (fd_layer definition))).

(** Not called: the blocker leaves it out. *)
Definition permitHyperV (session : handle) (bo : baseObjects) (weight : Z) : M W unit :=
  let condition := equals cFWPM_CONDITION_L2_FLAGS (cFWP_UINT32 cFWP_CONDITION_L2_IS_VM2VM) in
  let filter := newFilter bo weight cFWPM_FILTER_FLAG_NONE [condition] cFWP_ACTION_PERMIT in
  do! _ := addFilter session filter "Permit Hyper-V => Hyper-V outbound" cFWPM_LAYER_OUTBOUND_MAC_FRAME_NATIVE in
  do! _ := addFilter session filter "Permit Hyper-V => Hyper-V inbound" cFWPM_LAYER_INBOUND_MAC_FRAME_NATIVE in
  mret tt.

Definition blockAll (session : handle) (bo : baseObjects) (weight : Z) : M W unit :=
  let filter := newFilter bo weight cFWPM_FILTER_FLAG_NONE [] cFWP_ACTION_BLOCK in
  do! _ := addFilter session filter "Block all outbound (IPv4)" cFWPM_LAYER_ALE_AUTH_CONNECT_V4 in
  do! _ := addFilter session filter "Block all inbound (IPv4)" cFWPM_LAYER_ALE_AUTH_RECV_ACCEPT_V4 in
  do! _ := addFilter session filter "Block all outbound (IPv6)" cFWPM_LAYER_ALE_AUTH_CONNECT_V6 in
  do! _ := addFilter session filter "Block all inbound (IPv6)" cFWPM_LAYER_ALE_AUTH_RECV_ACCEPT_V6 in
  mret tt.

Definition denyConditions : list wtFwpmFilterCondition0 :=
  [equals cFWPM_CONDITION_IP_REMOTE_PORT (cFWP_UINT16 53);
   equals cFWPM_CONDITION_IP_PROTOCOL (cFWP_UINT8 cIPPROTO_UDP);
   equals cFWPM_CONDITION_IP_PROTOCOL (cFWP_UINT8 cIPPROTO_TCP)].

(** The loops over the servers that are not blocked, by family. *)
Fixpoint dnsAddresses4 (except : list Addr) : list wtFwpmFilterCondition0 :=
  match except with
  | [] => []
  | Addr4 v :: rest => equals cFWPM_CONDITION_IP_REMOTE_ADDRESS (cFWP_UINT32 v) :: dnsAddresses4 rest
  | _ :: rest => dnsAddresses4 rest
  end.
Fixpoint dnsAddresses6 (except : list Addr) : list wtFwpmFilterCondition0 :=
  match except with
  | [] => []
  | Addr6 v _ :: rest => equals cFWPM_CONDITION_IP_REMOTE_ADDRESS (cFWP_BYTE_ARRAY16_TYPE v) :: dnsAddresses6 rest
  | _ :: rest => dnsAddresses6 rest
  end.

Definition blockDNSDeny (session : handle) (bo : baseObjects) (weightDeny : Z) : M W unit :=
  let filter := newFilter bo weightDeny cFWPM_FILTER_FLAG_NONE denyConditions cFWP_ACTION_BLOCK in
  do! _ := addFilter session filter "Block DNS outbound (IPv4)" cFWPM_LAYER_ALE_AUTH_CONNECT_V4 in
  do! _ := addFilter session filter "Block DNS inbound (IPv4)" cFWPM_LAYER_ALE_AUTH_RECV_ACCEPT_V4 in
  do! _ := addFilter session filter "Block DNS outbound (IPv6)" cFWPM_LAYER_ALE_AUTH_CONNECT_V6 in
  do! _ := addFilter session filter "Block DNS inbound (IPv6)" cFWPM_LAYER_ALE_AUTH_RECV_ACCEPT_V6 in
  mret tt.

Definition blockDNSAllow (session : handle) (bo : baseObjects) (weightAllow : Z) (except : list Addr) : M W unit :=
  let allowConditionsV4 := denyConditions ++ dnsAddresses4 except in
  let allowConditionsV6 := denyConditions ++ dnsAddresses6 except in
  let filter := newFilter bo weightAllow cFWPM_FILTER_FLAG_NONE allowConditionsV4 cFWP_ACTION_PERMIT in
  let some4 := (length denyConditions <? length allowConditionsV4)%nat in
  do! _ := mwhen some4 (addFilter session filter "Allow DNS outbound (IPv4)" cFWPM_LAYER_ALE_AUTH_CONNECT_V4) in
  do! _ := mwhen some4 (addFilter session filter "Allow DNS inbound (IPv4)" cFWPM_LAYER_ALE_AUTH_RECV_ACCEPT_V4) in
  let filter := newFilter bo weightAllow cFWPM_FILTER_FLAG_NONE allowConditionsV6 cFWP_ACTION_PERMIT in
  let some6 := (length denyConditions <? length allowConditionsV6)%nat in
  do! _ := mwhen some6 (addFilter session filter "Allow DNS outbound (IPv6)" cFWPM_LAYER_ALE_AUTH_CONNECT_V6) in
  do! _ := mwhen some6 (addFilter session filter "Allow DNS inbound (IPv6)" cFWPM_LAYER_ALE_AUTH_RECV_ACCEPT_V6) in
  mret tt.

Definition blockDNS (except : list Addr) (session : handle) (bo : baseObjects) (weightAllow weightDeny : Z) : M W unit :=
  if weightAllow <=? weightDeny
  then mfail (ErrText "The allow weight must be greater than the deny weight")
  else
    do! _ := blockDNSDeny session bo weightDeny in
    blockDNSAllow session bo weightAllow except.

(** ** blocker.go *)

Definition createWfpSession : M W handle :=
  do! sessionDisplayData := createWtFwpmDisplayData0 "WireGuard" "WireGuard dynamic session" in
  fwpmEngineOpen0 (mkSession sessionDisplayData cFWPM_SESSION_FLAG_DYNAMIC INFINITE).

Definition registerBaseObjects (session : handle) : M W baseObjects :=
  do! provider := GenerateGUID in
  do! filters := GenerateGUID in
  do! displayData := createWtFwpmDisplayData0 "WireGuard" "WireGuard provider" in
  do! _ := fwpmProviderAdd0 session (mkProvider provider displayData) in
  do! displayData := createWtFwpmDisplayData0 "WireGuard filters" "Permissive and blocking filters" in
  do! _ := fwpmSubLayerAdd0 session (mkSublayer filters displayData provider (2 ^ 16 - 1)) in
  mret (mkBaseObjects provider filters).

Definition objectInstaller (luid : Z) (doNotRestrict : bool) (restrictToDNSServers : list Addr)
    (session : handle) : M W unit :=
  do! bo := registerBaseObjects session in
  do! _ := permitWireGuardService session bo 15 in
  if doNotRestrict then mret tt
  else
    do! _ := mwhen (0 <? length restrictToDNSServers)%nat (blockDNS restrictToDNSServers session bo 15 14) in
    do! _ := permitLoopback session bo 13 in
    do! _ := permitTunInterface session bo 12 luid in
    do! _ := permitDHCPIPv4 session bo 12 in
    do! _ := permitDHCPIPv6 session bo 12 in
    do! _ := permitNdp session bo 12 in
    blockAll session bo 0.

(** The package variable wfpSession beside the state of the platform. *)
Record firewall : Type := mkFirewall { fw_world : W; wfpSession : handle }.

Definition EnableFirewall (luid : Z) (doNotRestrict : bool) (restrictToDNSServers : list Addr)
    (fw : firewall) : result unit * firewall :=
  if negb (wfpSession fw =? 0) then (Err (ErrText "The firewall has already been enabled"), fw)
  else
    match createWfpSession (fw_world fw) with
    | (Err e, w) => (Err e, mkFirewall w (wfpSession fw))
    | (Ok session, w) =>
        match runTransaction session (objectInstaller luid doNotRestrict restrictToDNSServers) w with
        | (Err e, w') => (Err e, mkFirewall (fwpmEngineClose0 session w') (wfpSession fw))
        | (Ok _, w') => (Ok tt, mkFirewall w' session)
        end
    end.

Definition DisableFirewall (fw : firewall) : firewall :=
  if negb (wfpSession fw =? 0) then mkFirewall (fwpmEngineClose0 (wfpSession fw) (fw_world fw)) 0 else fw.

End Rules.
End Firewall.
