(* ===== verification/FirewallTheorems.v ===== *)
(** * What the firewall component guarantees

    The rules are installed all together or not at all, the enable and disable
    calls keep at most one set of them in force, and the rules of a restricted
    tunnel let out exactly the traffic they are meant to let out. *)

From S2P Require Import Prelude GoStrings Netip Effects Firewall.
Import Firewall.
Local Open Scope Z_scope.

(** A filter without its display name. *)
Definition erase (f : wtFwpmFilter0) : wtFwpmFilter0 := withLayer f (mkDisplayData [] []) (f_layerKey f).

(** ** The rules as lists *)

Section RuleLists.
Context (bo : baseObjects).

Definition aleLayers : list guid :=
  [cFWPM_LAYER_ALE_AUTH_CONNECT_V4; cFWPM_LAYER_ALE_AUTH_RECV_ACCEPT_V4;
   cFWPM_LAYER_ALE_AUTH_CONNECT_V6; cFWPM_LAYER_ALE_AUTH_RECV_ACCEPT_V6].

Definition rule (weight flags : Z) (conditions : list wtFwpmFilterCondition0) (action : wtFwpActionType)
    (layer : guid) : wtFwpmFilter0 :=
  withLayer (newFilter bo weight flags conditions action) (mkDisplayData [] []) layer.

Definition permit (weight : Z) (conditions : list wtFwpmFilterCondition0) (layer : guid) : wtFwpmFilter0 :=
  rule weight cFWPM_FILTER_FLAG_NONE conditions cFWP_ACTION_PERMIT layer.

Definition block (weight : Z) (conditions : list wtFwpmFilterCondition0) (layer : guid) : wtFwpmFilter0 :=
  rule weight cFWPM_FILTER_FLAG_NONE conditions cFWP_ACTION_BLOCK layer.

Definition udp := equals cFWPM_CONDITION_IP_PROTOCOL (cFWP_UINT8 cIPPROTO_UDP).
Definition localPort (p : Z) := equals cFWPM_CONDITION_IP_LOCAL_PORT (cFWP_UINT16 p).
Definition remotePort (p : Z) := equals cFWPM_CONDITION_IP_REMOTE_PORT (cFWP_UINT16 p).
Definition remoteAddress (v : conditionValue) := equals cFWPM_CONDITION_IP_REMOTE_ADDRESS v.
Definition localAddress (v : conditionValue) := equals cFWPM_CONDITION_IP_LOCAL_ADDRESS v.

Definition serviceConditions (appID sd : gostring) : list wtFwpmFilterCondition0 :=
  [equals cFWPM_CONDITION_ALE_APP_ID (cFWP_BYTE_BLOB_TYPE appID);
   equals cFWPM_CONDITION_ALE_USER_ID (cFWP_SECURITY_DESCRIPTOR_TYPE sd)].
Definition loopbackConditions : list wtFwpmFilterCondition0 :=
  [mkCondition cFWPM_CONDITION_FLAGS cFWP_MATCH_FLAGS_ALL_SET (cFWP_UINT32 cFWP_CONDITION_FLAG_IS_LOOPBACK)].
Definition tunConditions (luid : Z) : list wtFwpmFilterCondition0 :=
  [equals cFWPM_CONDITION_IP_LOCAL_INTERFACE (cFWP_UINT64 luid)].
Definition dhcp4Request := [udp; localPort 68; remotePort 67; remoteAddress (cFWP_UINT32 0xffffffff)].
Definition dhcp4Response := [udp; localPort 68; remotePort 67].
Definition dhcp6Request :=
  [udp; remoteAddress linkLocalDHCPMulticast; remoteAddress siteLocalDHCPMulticast; remotePort 547;
   localAddress linkLocal; localPort 546].
Definition dhcp6Response :=
  [udp; remoteAddress linkLocal; remotePort 547; localAddress linkLocal; localPort 546].

Definition serviceRules (appID sd : gostring) : list wtFwpmFilter0 :=
  map (rule 15 cFWPM_FILTER_FLAG_CLEAR_ACTION_RIGHT (serviceConditions appID sd) cFWP_ACTION_PERMIT) aleLayers.

Definition dnsAllowRules (conditions : list wtFwpmFilterCondition0) (layers : list guid) : list wtFwpmFilter0 :=
  if (length denyConditions <? length (denyConditions ++ conditions))%nat
  then map (permit 15 (denyConditions ++ conditions)) layers else [].

Definition dnsRules (dns : list Addr) : list wtFwpmFilter0 :=
  if (0 <? length dns)%nat then
    map (block 14 denyConditions) aleLayers
    ++ dnsAllowRules (dnsAddresses4 dns) [cFWPM_LAYER_ALE_AUTH_CONNECT_V4; cFWPM_LAYER_ALE_AUTH_RECV_ACCEPT_V4]
    ++ dnsAllowRules (dnsAddresses6 dns) [cFWPM_LAYER_ALE_AUTH_CONNECT_V6; cFWPM_LAYER_ALE_AUTH_RECV_ACCEPT_V6]
  else [].

Definition localRules (luid : Z) : list wtFwpmFilter0 :=
  map (permit 13 loopbackConditions) aleLayers
  ++ map (permit 12 (tunConditions luid)) aleLayers
  ++ [permit 12 dhcp4Request cFWPM_LAYER_ALE_AUTH_CONNECT_V4;
      permit 12 dhcp4Response cFWPM_LAYER_ALE_AUTH_RECV_ACCEPT_V4;
      permit 12 dhcp6Request cFWPM_LAYER_ALE_AUTH_CONNECT_V6;
      permit 12 dhcp6Response cFWPM_LAYER_ALE_AUTH_RECV_ACCEPT_V6;
      permit 12 (icmp6 133 ++ [remoteAddress linkLocalRouterMulticast]) cFWPM_LAYER_ALE_AUTH_CONNECT_V6;
      permit 12 (icmp6 134 ++ [remoteAddress linkLocal]) cFWPM_LAYER_ALE_AUTH_RECV_ACCEPT_V6;
      permit 12 (icmp6 135) cFWPM_LAYER_ALE_AUTH_CONNECT_V6;
      permit 12 (icmp6 135) cFWPM_LAYER_ALE_AUTH_RECV_ACCEPT_V6;
      permit 12 (icmp6 136) cFWPM_LAYER_ALE_AUTH_CONNECT_V6;
      permit 12 (icmp6 136) cFWPM_LAYER_ALE_AUTH_RECV_ACCEPT_V6;
      permit 12 (icmp6 137 ++ [remoteAddress linkLocal]) cFWPM_LAYER_ALE_AUTH_RECV_ACCEPT_V6].

Definition firewallRules (appID sd : gostring) (luid : Z) (doNotRestrict : bool) (dns : list Addr)
    : list wtFwpmFilter0 :=
  serviceRules appID sd
  ++ if doNotRestrict then [] else dnsRules dns ++ localRules luid ++ map (block 0 []) aleLayers.
End RuleLists.

(** ** Installation *)

Section Install.
Context {W : Type} `{WFPLaws W}.

(** The engine is [e0] but for a transaction of the session [h] that holds [l]. *)
Definition inTxn (e0 : handle -> sessionState) (h : handle) (l : list wtFwpmFilter0) (w : W) : Prop :=
  updated e0 (engine w) h (mkSessionState (ss_dynamic (e0 h)) (ss_filters (e0 h)) (Some l)).

(** [m] adds to the transaction filters that [R] holds of; when it fails the
    transaction is still the only change. *)
Definition installs {A} (h : handle) (m : M W A) (R : A -> list wtFwpmFilter0 -> Prop) : Prop :=
  forall e0 l, triple (inTxn e0 h l) m
    (fun a w => exists fs, R a fs /\ inTxn e0 h (l ++ fs) w) (fun w => exists l', inTxn e0 h l' w).

Lemma updated_trans e e1 e2 h s1 s2 : updated e e1 h s1 -> updated e1 e2 h s2 -> updated e e2 h s2.
Proof. intros [_ H1] [H2 H3]. split; [done|]. intros h' Hh. rewrite H3, H1 by done. done. Qed.

Lemma updated_same e e1 e2 h s : updated e e1 h s -> (forall h', e2 h' = e1 h') -> updated e e2 h s.
Proof. intros [H1 H2] Hs. split; [by rewrite Hs|]. intros h' Hh. by rewrite Hs, H2. Qed.

Lemma installs_bind {A B} h (m : M W A) (k : A -> M W B) R1 R2 :
  installs h m R1 -> (forall a, installs h (k a) (R2 a)) ->
  installs h (mthen m k) (fun b fs => exists a f1 f2, fs = f1 ++ f2 /\ R1 a f1 /\ R2 a b f2).
Proof.
  intros Hm Hk e0 l w r w' Hw. unfold mthen. specialize (Hm e0 l w).
  destruct (m w) as [[a|e] w1]; [|intros [= <- <-]; exact (Hm _ _ Hw eq_refl)].
  destruct (Hm _ _ Hw eq_refl) as (f1 & HR & Ht). intros Hr. specialize (Hk a e0 (l ++ f1) w1 r w' Ht Hr).
  destruct r; [|done]. destruct Hk as (f2 & HR2 & Ht2). exists (f1 ++ f2). rewrite app_assoc. split; [|done].
  by exists a, f1, f2.
Qed.

Lemma installs_none {A} h (m : M W A) :
  (forall w r w', m w = (r, w') -> forall h', engine w' h' = engine w h') -> installs h m (fun _ fs => fs = []).
Proof.
  intros Hm e0 l w r w' Hw Hr. assert (Ht : inTxn e0 h l w') by (eapply updated_same; [exact Hw | by eapply Hm]).
  destruct r; [|by eexists]. exists []. by rewrite app_nil_r.
Qed.

Lemma installs_pure {A} h (r : result A) : installs h (mpure r) (fun a fs => r = Ok a /\ fs = []).
Proof. intros e0 l w r' w' Hw [= <- <-]. destruct r; [|by eexists]. exists []. by rewrite app_nil_r. Qed.

Lemma installs_ret {A} h (a : A) : installs h (mret a) (fun a' fs => a' = a /\ fs = []).
Proof. intros e0 l w r' w' Hw [= <- <-]. exists []. by rewrite app_nil_r. Qed.

Lemma installs_impl {A} h (m : M W A) (R R' : A -> list wtFwpmFilter0 -> Prop) :
  installs h m R -> (forall a fs, R a fs -> R' a fs) -> installs h m R'.
Proof.
  intros Hm HR e0 l w r w' Hw Hr. specialize (Hm e0 l w r w' Hw Hr). destruct r; [|done].
  destruct Hm as (fs & ? & ?). eauto.
Qed.

Lemma installs_add h f : installs h (fwpmFilterAdd0 h f) (fun _ fs => fs = [f]).
Proof.
  intros e0 l w r w' Hw Hr. destruct r as [[]|e].
  - exists [f]. split; [done|]. pose proof Hw as [He _].
    pose proof (engine_filter h f w w' l ltac:(by rewrite He) Hr) as Hu. rewrite He in Hu. cbn in Hu.
    by eapply updated_trans.
  - exists l. eapply updated_same; [exact Hw | by eapply engine_filter_err].
Qed.

(** A computation that adds filters which are, but for their names, [rs]. *)
Definition installsRules (h : handle) (m : M W unit) (rs : list wtFwpmFilter0) : Prop :=
  installs h m (fun _ fs => map erase fs = rs).

Lemma rules_seq h (m k : M W unit) r1 r2 :
  installsRules h m r1 -> installsRules h k r2 -> installsRules h (do! _ := m in k) (r1 ++ r2).
Proof.
  intros Hm Hk. eapply installs_impl; [apply installs_bind; [exact Hm | intros ?; exact Hk]|].
  intros ? fs (? & f1 & f2 & -> & <- & <-). apply map_app.
Qed.

Lemma rules_last h (m : M W unit) r : installsRules h m r -> installsRules h (do! _ := m in mret tt) r.
Proof.
  intros Hm. rewrite <- (app_nil_r r). apply rules_seq; [done|].
  eapply installs_impl; [apply installs_ret|]. by intros ? fs [_ ->].
Qed.

Lemma rules_when h c (m : M W unit) r : installsRules h m r -> installsRules h (mwhen c m) (if c then r else []).
Proof.
  intros Hm. destruct c; [done|]. eapply installs_impl; [apply installs_ret|]. by intros ? fs [_ ->].
Qed.

Lemma displayData_installs h name desc : installs h (createWtFwpmDisplayData0 name desc) (fun _ fs => fs = []).
Proof.
  apply installs_none. unfold createWtFwpmDisplayData0, mthen, mpure, mret. intros w r w' Hm h'.
  repeat case_match; by simplify_eq.
Qed.

Lemma rules_addFilter h f name layer :
  installsRules h (addFilter h f name layer) [withLayer f (mkDisplayData [] []) layer].
Proof.
  eapply installs_impl; [apply installs_bind; [apply displayData_installs | intros dd; apply installs_add]|].
  by intros ? fs (? & f1 & f2 & -> & -> & ->).
Qed.

Lemma rules_for {A} h (l : list A) (f : A -> M W unit) (g : A -> wtFwpmFilter0) :
  (forall x, installsRules h (f x) [g x]) -> installsRules h (mfor l f) (map g l).
Proof.
  intros Hf. induction l as [|x l IH]; cbn; [eapply installs_impl; [apply installs_ret|]; by intros ? fs [_ ->]|].
  apply (rules_seq h (f x) _ [g x]); [apply Hf | exact IH].
Qed.

Lemma rules_eq h (m : M W unit) r r' : installsRules h m r -> r = r' -> installsRules h m r'.
Proof. by intros Hm ->. Qed.

(** Collects the filters of a sequence of blocks. *)
Ltac rule_blocks :=
  eapply rules_eq;
  [ repeat first [ apply rules_last; first [apply rules_addFilter | apply rules_when, rules_addFilter]
                 | eapply rules_seq; [first [apply rules_addFilter | apply rules_when, rules_addFilter]|] ]
  | ].

(** One filter on the four layers. *)
Lemma fourLayers_rules h f n1 n2 n3 n4 :
  installsRules h
    (do! _ := addFilter h f n1 cFWPM_LAYER_ALE_AUTH_CONNECT_V4 in
     do! _ := addFilter h f n2 cFWPM_LAYER_ALE_AUTH_RECV_ACCEPT_V4 in
     do! _ := addFilter h f n3 cFWPM_LAYER_ALE_AUTH_CONNECT_V6 in
     do! _ := addFilter h f n4 cFWPM_LAYER_ALE_AUTH_RECV_ACCEPT_V6 in
     mret tt) (map (withLayer f (mkDisplayData [] [])) aleLayers).
Proof. rule_blocks. reflexivity. Qed.

Context (bo : baseObjects).

Lemma permitTunInterface_rules h wt luid :
  installsRules h (permitTunInterface h bo wt luid) (map (permit bo wt (tunConditions luid)) aleLayers).
Proof. apply fourLayers_rules. Qed.

Lemma permitLoopback_rules h wt :
  installsRules h (permitLoopback h bo wt) (map (permit bo wt loopbackConditions) aleLayers).
Proof. apply fourLayers_rules. Qed.

Lemma permitDHCPIPv4_rules h wt :
  installsRules h (permitDHCPIPv4 h bo wt)
    [permit bo wt dhcp4Request cFWPM_LAYER_ALE_AUTH_CONNECT_V4;
     permit bo wt dhcp4Response cFWPM_LAYER_ALE_AUTH_RECV_ACCEPT_V4].
Proof. unfold permitDHCPIPv4. rule_blocks. reflexivity. Qed.

Lemma permitDHCPIPv6_rules h wt :
  installsRules h (permitDHCPIPv6 h bo wt)
    [permit bo wt dhcp6Request cFWPM_LAYER_ALE_AUTH_CONNECT_V6;
     permit bo wt dhcp6Response cFWPM_LAYER_ALE_AUTH_RECV_ACCEPT_V6].
Proof. unfold permitDHCPIPv6. rule_blocks. reflexivity. Qed.

Lemma blockAll_rules h wt : installsRules h (blockAll h bo wt) (map (block bo wt []) aleLayers).
Proof. apply fourLayers_rules. Qed.

Lemma blockDNSDeny_rules h wt :
  installsRules h (blockDNSDeny h bo wt) (map (block bo wt denyConditions) aleLayers).
Proof. apply fourLayers_rules. Qed.

Lemma blockDNSAllow_rules h dns :
  installsRules h (blockDNSAllow h bo 15 dns)
    (dnsAllowRules bo (dnsAddresses4 dns) [cFWPM_LAYER_ALE_AUTH_CONNECT_V4; cFWPM_LAYER_ALE_AUTH_RECV_ACCEPT_V4]
     ++ dnsAllowRules bo (dnsAddresses6 dns) [cFWPM_LAYER_ALE_AUTH_CONNECT_V6; cFWPM_LAYER_ALE_AUTH_RECV_ACCEPT_V6]).
Proof.
  unfold blockDNSAllow. rule_blocks. unfold dnsAllowRules.
  destruct (_ <? length (denyConditions ++ dnsAddresses4 dns))%nat, (_ <? length (denyConditions ++ dnsAddresses6 dns))%nat;
    reflexivity.
Qed.

Lemma blockDNS_rules h dns :
  installsRules h (mwhen (0 <? length dns)%nat (blockDNS dns h bo 15 14)) (dnsRules bo dns).
Proof.
  apply rules_when. unfold blockDNS. cbn [Z.leb Z.compare Pos.compare Pos.compare_cont].
  apply rules_seq; [apply blockDNSDeny_rules | apply blockDNSAllow_rules].
Qed.

(** The definitions of neighbour discovery, but for their names. *)
Definition definitionRule (wt : Z) (d : filterDefinition) : wtFwpmFilter0 := permit bo wt (fd_conditions d) (fd_layer d).

Lemma definitions_installs h name (ds : wtFwpmDisplayData0 -> list filterDefinition) :
  installs h (do! dd := createWtFwpmDisplayData0 name "" in mret (ds dd))
    (fun r fs => fs = [] /\ exists dd, r = ds dd).
Proof.
  eapply installs_impl; [apply installs_bind; [apply displayData_installs | intros dd; apply installs_ret]|].
  intros r fs (dd & f1 & f2 & -> & -> & -> & ->). eauto.
Qed.

Lemma permitNdp_rules h :
  installsRules h (permitNdp h bo 12)
    [permit bo 12 (icmp6 133 ++ [remoteAddress linkLocalRouterMulticast]) cFWPM_LAYER_ALE_AUTH_CONNECT_V6;
     permit bo 12 (icmp6 134 ++ [remoteAddress linkLocal]) cFWPM_LAYER_ALE_AUTH_RECV_ACCEPT_V6;
     permit bo 12 (icmp6 135) cFWPM_LAYER_ALE_AUTH_CONNECT_V6;
     permit bo 12 (icmp6 135) cFWPM_LAYER_ALE_AUTH_RECV_ACCEPT_V6;
     permit bo 12 (icmp6 136) cFWPM_LAYER_ALE_AUTH_CONNECT_V6;
     permit bo 12 (icmp6 136) cFWPM_LAYER_ALE_AUTH_RECV_ACCEPT_V6;
     permit bo 12 (icmp6 137 ++ [remoteAddress linkLocal]) cFWPM_LAYER_ALE_AUTH_RECV_ACCEPT_V6].
Proof.
  unfold permitNdp. eapply installs_impl.
  - apply installs_bind; [apply definitions_installs | intros d133].
    apply installs_bind; [apply definitions_installs | intros d134].
    apply installs_bind; [apply definitions_installs | intros d135].
    apply installs_bind; [apply definitions_installs | intros d136].
    apply installs_bind; [apply definitions_installs | intros d137].
    apply (rules_for h _ _ (definitionRule 12)). intros d.
    eapply installs_impl; [apply installs_add|]. by intros ? fs ->.
  - intros ? fs (? & ? & ? & -> & (-> & ? & ->) & ? & ? & ? & -> & (-> & ? & ->) & ? & ? & ? & -> & (-> & ? & ->)
      & ? & ? & ? & -> & (-> & ? & ->) & ? & ? & ? & -> & (-> & ? & ->) & Hm).
    cbn in Hm |- *. exact Hm.
Qed.
End Install.

Section Enable.
Context {W : Type} `{WFPLaws W}.

(** What identifies the service: it depends on the process only. *)
Definition processAppID : result gostring :=
  let? currentFile := os_Executable in
  let? curFilePtr := UTF16PtrFromString currentFile in
  fwpmGetAppIdFromFileName0 curFilePtr.

Definition processSecurityDescriptor : result gostring :=
  let? token := OpenProcessToken in
  let? gs := GetTokenGroups token in
  match find isServiceGroup gs with
  | None => Err ERROR_NO_SUCH_GROUP
  | Some g =>
      let? dacl := ACLFromEntries [mkAccess cFWP_ACTRL_MATCH_FILTER (g_Sid g)] in
      let? sd := NewSecurityDescriptor in
      let? sd := SetDACL sd dacl in
      ToSelfRelative sd
  end.

Lemma getCurrentProcessAppID_pure w : getCurrentProcessAppID w = (processAppID, w).
Proof.
  unfold getCurrentProcessAppID, processAppID, mthen, mpure.
  destruct os_Executable as [f|]; [|done]. cbn. by destruct (UTF16PtrFromString f).
Qed.

Lemma getCurrentProcessSecurityDescriptor_pure w :
  getCurrentProcessSecurityDescriptor w = (processSecurityDescriptor, w).
Proof.
  unfold getCurrentProcessSecurityDescriptor, processSecurityDescriptor, mthen, mpure.
  destruct OpenProcessToken as [t|]; [|done]. cbn. destruct (GetTokenGroups t) as [gs|]; [|done]. cbn.
  destruct (find isServiceGroup gs) as [g|]; [|done]. destruct (ACLFromEntries _) as [dacl|]; [|done]. cbn.
  destruct NewSecurityDescriptor as [sd|]; [|done]. cbn. by destruct (SetDACL sd dacl).
Qed.

Lemma installs_result {A} h (m : M W A) r :
  (forall w, m w = (r, w)) -> installs h m (fun a fs => r = Ok a /\ fs = []).
Proof. intros Hm. intros e0 l w r' w'. rewrite Hm. apply installs_pure. Qed.

Lemma permitWireGuardService_installs h bo :
  installs h (permitWireGuardService h bo 15) (fun _ fs => exists appID sd,
    processAppID = Ok appID /\ processSecurityDescriptor = Ok sd /\ map erase fs = serviceRules bo appID sd).
Proof.
  unfold permitWireGuardService. eapply installs_impl.
  - apply installs_bind; [apply installs_result, getCurrentProcessAppID_pure | intros appID].
    eapply (installs_bind h _ _ _ (fun sd _ fs => map erase fs = serviceRules bo appID sd));
      [apply installs_result, getCurrentProcessSecurityDescriptor_pure | intros sd].
    exact (fourLayers_rules h (newFilter bo 15 _ (serviceConditions appID sd) _) _ _ _ _).
  - intros ? fs (appID & ? & ? & -> & (-> & ->) & sd & ? & ? & -> & (-> & ->) & Hm). eauto.
Qed.

Lemma registerBaseObjects_installs h : installs h (registerBaseObjects h) (fun _ fs => fs = []).
Proof.
  unfold registerBaseObjects. eapply installs_impl.
  - do 2 (apply installs_bind; [apply installs_none; exact engine_guid | intros ?]).
    apply installs_bind; [apply displayData_installs | intros ?].
    apply installs_bind; [apply installs_none, engine_provider | intros ?].
    apply installs_bind; [apply displayData_installs | intros ?].
    apply installs_bind; [apply installs_none, engine_sublayer | intros ?]. apply installs_ret.
  - intros a fs Hex. cbv beta in Hex. repeat match goal with Hx : exists _, _ |- _ => destruct Hx | Hx : _ /\ _ |- _ => destruct Hx end.
    by subst.
Qed.

Lemma objectInstaller_installs h luid dnr dns :
  installs h (objectInstaller luid dnr dns h) (fun _ fs => exists bo appID sd,
    processAppID = Ok appID /\ processSecurityDescriptor = Ok sd
    /\ map erase fs = firewallRules bo appID sd luid dnr dns).
Proof.
  unfold objectInstaller. eapply installs_impl.
  - apply installs_bind; [apply registerBaseObjects_installs | intros bo].
    eapply (installs_bind h _ _ _ (fun _ _ fs => map erase fs =
      if dnr then [] else dnsRules bo dns ++ localRules bo luid ++ map (block bo 0 []) aleLayers));
      [apply permitWireGuardService_installs | intros _].
    destruct dnr; [eapply installs_impl; [apply installs_ret|]; by intros ? fs [_ ->]|].
    eapply rules_eq.
    + apply rules_seq; [apply blockDNS_rules|]. apply rules_seq; [apply permitLoopback_rules|].
      apply rules_seq; [apply permitTunInterface_rules|]. apply rules_seq; [apply permitDHCPIPv4_rules|].
      apply rules_seq; [apply permitDHCPIPv6_rules|]. apply rules_seq; [apply permitNdp_rules | apply blockAll_rules].
    + unfold localRules. by rewrite <- !app_assoc.
  - intros ? fs (bo & ? & ? & -> & -> & ? & ? & ? & -> & (appID & sd & ? & ? & Hs) & Hr).
    exists bo, appID, sd. split_and!; [done.. |]. unfold firewallRules. cbn [app]. by rewrite map_app, Hs, Hr.
Qed.

(** ** Transactions *)

Lemma runTransaction_installs h (op : handle -> M W unit) R w r w' :
  installs h (op h) R -> runTransaction h op w = (r, w') ->
  match r with
  | Ok _ => exists fs, R tt fs /\ updated (engine w) (engine w') h
              (mkSessionState (ss_dynamic (engine w h)) (ss_filters (engine w h) ++ fs) None)
  | Err _ => (forall h', engine w' h' = engine w h')
             \/ updated (engine w) (engine w') h (mkSessionState (ss_dynamic (engine w h)) (ss_filters (engine w h)) None)
  end.
Proof.
  intros Hop. unfold runTransaction.
  assert (Habort : forall w2 l', inTxn (engine w) h l' w2 ->
            updated (engine w) (engine (fwpmTransactionAbort0 h w2)) h
              (mkSessionState (ss_dynamic (engine w h)) (ss_filters (engine w h)) None)).
  { intros w2 l' Ht. pose proof (engine_abort h w2) as Ha. rewrite (proj1 Ht) in Ha. exact (updated_trans _ _ _ _ _ _ Ht Ha). }
  destruct (fwpmTransactionBegin0 h w) as [[[]|e] w1] eqn:Eb; [|intros [= <- <-]; left; by eapply engine_begin_err].
  assert (Ht : inTxn (engine w) h [] w1) by (by apply engine_begin).
  destruct (op h w1) as [[[]|e] w2] eqn:Eo; specialize (Hop _ _ _ _ _ Ht Eo); cbn in Hop.
  - destruct Hop as (fs & HR & Ht2).
    destruct (fwpmTransactionCommit0 h w2) as [[[]|e] w3] eqn:Ec; intros [= <- <-].
    + exists fs. split; [done|]. pose proof (engine_commit h w2 w3 fs ltac:(by rewrite (proj1 Ht2)) Ec) as Hc.
      rewrite (proj1 Ht2) in Hc. exact (updated_trans _ _ _ _ _ _ Ht2 Hc).
    + right. apply (Habort w3 fs). eapply updated_same; [exact Ht2 | by eapply engine_commit_err].
  - destruct Hop as [l' Ht2]. intros [= <- <-]. right. by eapply Habort.
Qed.

Lemma createWfpSession_spec w r w' :
  createWfpSession w = (r, w') ->
  match r with
  | Ok h => h <> 0 /\ updated (engine w) (engine w') h (mkSessionState true [] None)
  | Err _ => forall h, engine w' h = engine w h
  end.
Proof.
  unfold createWfpSession, mthen, createWtFwpmDisplayData0, mpure, mret.
  destruct (UTF16PtrFromString (str "WireGuard")); [|by intros [= <- <-]]. cbn.
  destruct (UTF16PtrFromString _); [|by intros [= <- <-]]. cbn. intros Ho.
  destruct r; [by apply engine_open in Ho | by eapply engine_open_err].
Qed.

Lemma EnableFirewall_effect luid dnr dns fw r fw' :
  wfpSession fw = 0 -> EnableFirewall luid dnr dns fw = (r, fw') ->
  match r with
  | Ok _ => wfpSession fw' <> 0 /\ exists bo appID sd fs,
      processAppID = Ok appID /\ processSecurityDescriptor = Ok sd
      /\ map erase fs = firewallRules bo appID sd luid dnr dns
      /\ updated (engine (fw_world fw)) (engine (fw_world fw')) (wfpSession fw') (mkSessionState true fs None)
  | Err _ => wfpSession fw' = 0 /\ ((forall h, engine (fw_world fw') h = engine (fw_world fw) h)
      \/ exists h, updated (engine (fw_world fw)) (engine (fw_world fw')) h (mkSessionState true [] None))
  end.
Proof.
  intros H0'. unfold EnableFirewall. rewrite H0'. cbn [Z.eqb negb].
  destruct (createWfpSession (fw_world fw)) as [[h|e] w] eqn:Ec; apply createWfpSession_spec in Ec.
  2:{ intros [= <- <-]. cbn. eauto. }
  destruct Ec as [Hh Hu]. destruct (runTransaction _ _ _) as [[[]|e] w2] eqn:Et;
    apply (runTransaction_installs h _ _ _ _ _ (objectInstaller_installs h luid dnr dns)) in Et;
    rewrite (proj1 Hu) in Et; cbn in Et; intros [= <- <-]; cbn.
  - destruct Et as (fs & (bo & appID & sd & ? & ? & ?) & Hu2). split; [done|].
    exists bo, appID, sd, fs. split_and!; [done.. |]. exact (updated_trans _ _ _ _ _ _ Hu Hu2).
  - split; [done|]. right. exists h.
    assert (Hu2 : updated (engine (fw_world fw)) (engine w2) h (mkSessionState true [] None))
      by (destruct Et as [Et|Et]; [exact (updated_same _ _ _ _ _ Hu Et) | exact (updated_trans _ _ _ _ _ _ Hu Et)]).
    eapply updated_trans; [exact Hu2|]. apply engine_close. by rewrite (proj1 Hu2).
Qed.

Lemma DisableFirewall_effect fw :
  wfpSession fw <> 0 -> ss_dynamic (engine (fw_world fw) (wfpSession fw)) = true ->
  wfpSession (DisableFirewall fw) = 0
  /\ updated (engine (fw_world fw)) (engine (fw_world (DisableFirewall fw))) (wfpSession fw) (mkSessionState true [] None).
Proof.
  intros Hs Hd. unfold DisableFirewall. destruct (Z.eqb_spec (wfpSession fw) 0); [done|]. cbn.
  split; [done|]. by apply engine_close.
Qed.

(** ** Enabling and disabling in any order *)

Inductive fwStep (fw : firewall (W:=W)) : firewall (W:=W) -> Prop :=
  | step_enable luid dnr dns : fwStep fw (snd (EnableFirewall luid dnr dns fw))
  | step_disable : fwStep fw (DisableFirewall fw).

(** No session but the current one has filters in force, and the current one
    has exactly the rules of one call of EnableFirewall. *)
Definition fwInv (fw : firewall (W:=W)) : Prop :=
  (forall h, h <> wfpSession fw \/ h = 0 -> ss_filters (engine (fw_world fw) h) = [])
  /\ (wfpSession fw <> 0 -> ss_dynamic (engine (fw_world fw) (wfpSession fw)) = true
        /\ exists bo appID sd luid dnr dns,
             map erase (ss_filters (engine (fw_world fw) (wfpSession fw))) = firewallRules bo appID sd luid dnr dns).

Lemma fwInv_step fw fw' : fwStep fw fw' -> fwInv fw -> fwInv fw'.
Proof.
  intros [luid dnr dns|] [Hno Hcur].
  - destruct (decide (wfpSession fw = 0)) as [Hz|Hnz].
    + destruct (EnableFirewall luid dnr dns fw) as [r fw1] eqn:Ee. apply EnableFirewall_effect in Ee; [|done]. cbn.
      assert (Hall : forall h, ss_filters (engine (fw_world fw) h) = []).
      { intros h. apply Hno. rewrite Hz. destruct (decide (h = 0)); auto. }
      destruct r as [|].
      * destruct Ee as (Hs & bo & appID & sd & fs & _ & _ & Hfs & Hu1 & Hu2). split.
        -- intros h Hh. rewrite Hu2; [apply Hall|]. destruct Hh as [? | ->]; [done|]. by apply not_eq_sym.
        -- intros _. rewrite Hu1. cbn. split; [done|]. by exists bo, appID, sd, luid, dnr, dns.
      * destruct Ee as [Hs Ee]; destruct Ee as [He | (h' & Hu1 & Hu2)]; split; try (rewrite Hs; done); intros h _; [by rewrite He|].
        destruct (decide (h = h')) as [->|]; [by rewrite Hu1 | by rewrite Hu2].
    + unfold EnableFirewall. destruct (Z.eqb_spec (wfpSession fw) 0); [done|]. cbn. by split.
  - destruct (decide (wfpSession fw = 0)) as [Hz|Hnz].
    + unfold DisableFirewall. rewrite Hz. cbn. by split.
    + destruct (Hcur Hnz) as [Hd _]. destruct (DisableFirewall_effect fw Hnz Hd) as [Hs [Hu1 Hu2]].
      split; [|by rewrite Hs]. intros h _. destruct (decide (h = wfpSession fw)) as [->|Hne]; [by rewrite Hu1|].
      rewrite Hu2 by done. apply Hno. by left.
Qed.
End Enable.
