(* ===== verification/KillSwitch.v ===== *)
(** * What the installed rules do to traffic

    How the platform decides about traffic is a parameter with its documented
    law: conditions of one filter on the same field are alternatives, on
    different fields all required, and in a sublayer the heaviest matching
    filter decides. *)

From S2P Require Import Prelude GoStrings Netip Effects Firewall FirewallTheorems.
Import Firewall.
Local Open Scope Z_scope.

(** [holds]: what one condition says of the traffic; [verdict]: the decision
    of one sublayer at one layer, if it takes one. *)
Class Traffic (T : Type) := { holds : T -> wtFwpmFilterCondition0 -> bool }.

Section Matching.
Context {T : Type} `{Traffic T}.

Definition conditionsHold (tr : T) (cs : list wtFwpmFilterCondition0) : bool :=
  forallb (fun c => existsb (fun c' => (fieldKey c' =? fieldKey c) && holds tr c') cs) cs.

(** The filters of a sublayer and layer that the traffic matches. *)
Definition candidates (fs : list wtFwpmFilter0) (sublayer layer : guid) (tr : T) : list wtFwpmFilter0 :=
  List.filter (fun f => (f_subLayerKey f =? sublayer) && (f_layerKey f =? layer) && conditionsHold tr (f_conditions f)) fs.
End Matching.

Class Arbitration (T : Type) `{Traffic T} := {
  verdict : list wtFwpmFilter0 -> guid -> guid -> T -> option wtFwpActionType;
  verdict_none : forall fs sub layer tr, candidates fs sub layer tr = [] -> verdict fs sub layer tr = None;
  verdict_heaviest : forall fs sub layer tr f,
    In f (candidates fs sub layer tr) ->
    (forall g, In g (candidates fs sub layer tr) ->
       f_weight g < f_weight f \/ f_weight g = f_weight f /\ f_action g = f_action f) ->
    verdict fs sub layer tr = Some (f_action f)
}.

Section KillSwitch.
Context {W T : Type} `{WFPLaws W} `{Arbitration T}.

Lemma candidates_erase fs sub layer tr :
  map erase (candidates fs sub layer tr) = candidates (map erase fs) sub layer tr.
Proof.
  unfold candidates. induction fs as [|f fs IH]; [done|]. cbn [map List.filter].
  change (f_subLayerKey (erase f)) with (f_subLayerKey f). change (f_layerKey (erase f)) with (f_layerKey f).
  change (f_conditions (erase f)) with (f_conditions f).
  destruct (_ && conditionsHold tr (f_conditions f)); cbn [map]; by rewrite IH.
Qed.

(** The weight of a rule decides its action. *)
Definition actionOf (weight : Z) : wtFwpActionType :=
  if (weight =? 14) || (weight =? 0) then cFWP_ACTION_BLOCK else cFWP_ACTION_PERMIT.

Lemma firewallRules_action bo appID sd luid dnr dns :
  Forall (fun f => f_action f = actionOf (f_weight f)) (firewallRules bo appID sd luid dnr dns).
Proof.
  unfold firewallRules, dnsRules, dnsAllowRules, localRules.
  repeat match goal with |- context [if ?c then _ else _] => destruct c end; cbn;
    repeat (apply Forall_cons_2; [reflexivity|]); constructor.
Qed.

(** The verdict is the action of the heaviest weight at which a rule matches. *)
Lemma verdict_weight fs rules sub layer tr k :
  map erase fs = rules -> Forall (fun f => f_action f = actionOf (f_weight f)) rules ->
  existsb (fun f => f_weight f =? k) (candidates rules sub layer tr) = true ->
  forallb (fun f => f_weight f <=? k) (candidates rules sub layer tr) = true ->
  verdict fs sub layer tr = Some (actionOf k).
Proof.
  intros Hfs Ha Hex Hall. rewrite <- Hfs in Hex, Hall, Ha. rewrite <- candidates_erase in Hex, Hall.
  rewrite existsb_exists in Hex. destruct Hex as (f' & Hin & Hk%Z.eqb_eq).
  apply in_map_iff in Hin as (f & <- & Hin). rewrite forallb_forall in Hall.
  assert (Hact : forall g, In g (candidates fs sub layer tr) -> f_action g = actionOf (f_weight g)).
  { intros g Hg. rewrite Forall_forall in Ha. apply (Ha (erase g)). apply list_elem_of_In, in_map.
    unfold candidates in Hg. apply filter_In in Hg as [Hg _]. exact Hg. }
  cbn in Hk. rewrite <- Hk, <- (Hact f Hin). apply verdict_heaviest; [done|].
  intros g Hg. specialize (Hall (erase g) (in_map _ _ _ Hg)). cbn in Hall. apply Z.leb_le in Hall.
  destruct (decide (f_weight g = f_weight f)) as [E|]; [|left; lia].
  right. split; [done|]. rewrite (Hact g Hg), (Hact f Hin), E. done.
Qed.

(** ** The specification *)

Definition isDNS (tr : T) : bool := conditionsHold tr denyConditions.

Definition isV6 (layer : guid) : bool :=
  (layer =? cFWPM_LAYER_ALE_AUTH_CONNECT_V6) || (layer =? cFWPM_LAYER_ALE_AUTH_RECV_ACCEPT_V6).

(** The traffic is addressed to one of the servers, of the layer's family. *)
Definition toServer (dns : list Addr) (layer : guid) (tr : T) : bool :=
  existsb (holds tr) (if isV6 layer then dnsAddresses6 dns else dnsAddresses4 dns).

(** Address configuration and neighbour discovery, by layer. *)
Definition housekeeping (layer : guid) : list (list wtFwpmFilterCondition0) :=
  if layer =? cFWPM_LAYER_ALE_AUTH_CONNECT_V4 then [dhcp4Request]
  else if layer =? cFWPM_LAYER_ALE_AUTH_RECV_ACCEPT_V4 then [dhcp4Response]
  else if layer =? cFWPM_LAYER_ALE_AUTH_CONNECT_V6
  then [dhcp6Request; icmp6 133 ++ [remoteAddress linkLocalRouterMulticast]; icmp6 135; icmp6 136]
  else [dhcp6Response; icmp6 134 ++ [remoteAddress linkLocal]; icmp6 135; icmp6 136; icmp6 137 ++ [remoteAddress linkLocal]].

Definition allowed (appID sd : gostring) (luid : Z) (dns : list Addr) (layer : guid) (tr : T) : bool :=
  conditionsHold tr (serviceConditions appID sd)
  || (if (0 <? length dns)%nat && isDNS tr then toServer dns layer tr
      else conditionsHold tr loopbackConditions || conditionsHold tr (tunConditions luid)
           || existsb (conditionsHold tr) (housekeeping layer)).

Lemma dnsAddresses4_key dns c : In c (dnsAddresses4 dns) -> fieldKey c = cFWPM_CONDITION_IP_REMOTE_ADDRESS.
Proof. induction dns as [|[|v|v z] dns IH]; cbn; intros Hc; [done | auto | destruct Hc as [<-|]; auto | auto]. Qed.

Lemma dnsAddresses6_key dns c : In c (dnsAddresses6 dns) -> fieldKey c = cFWPM_CONDITION_IP_REMOTE_ADDRESS.
Proof. induction dns as [|[|v|v z] dns IH]; cbn; intros Hc; [done | auto | auto | destruct Hc as [<-|]; auto]. Qed.

Lemma existsb_ext {A} (f g : A -> bool) l : (forall x, In x l -> f x = g x) -> existsb f l = existsb g l.
Proof.
  induction l as [|x l IH]; intros Hfg; [done|]. cbn. rewrite (Hfg x) by (by left). f_equal. apply IH.
  intros y Hy. apply Hfg. by right.
Qed.

(** Addresses added to the conditions on port and protocol are one more field. *)
Lemma conditionsHold_addresses tr addrs :
  (forall c, In c addrs -> fieldKey c = cFWPM_CONDITION_IP_REMOTE_ADDRESS) -> addrs <> [] ->
  conditionsHold tr (denyConditions ++ addrs) = isDNS tr && existsb (holds tr) addrs.
Proof.
  intros Hk Hne. unfold isDNS, conditionsHold. rewrite forallb_app. f_equal.
  - assert (Hn : forall k, k <> cFWPM_CONDITION_IP_REMOTE_ADDRESS ->
              existsb (fun c' => (fieldKey c' =? k) && holds tr c') addrs = false).
    { intros k Hk'. apply not_true_is_false. rewrite existsb_exists. intros (c & Hc & [E%Z.eqb_eq _]%andb_true_iff).
      apply Hk in Hc. congruence. }
    unfold denyConditions at 2 4. cbn [forallb]. rewrite !existsb_app, !Hn by done. by rewrite !orb_false_r.
  - assert (Hd : forall c, In c addrs ->
              existsb (fun c' => (fieldKey c' =? fieldKey c) && holds tr c') (denyConditions ++ addrs) = existsb (holds tr) addrs).
    { intros c Hc. rewrite existsb_app, (Hk c Hc).
      change (existsb _ denyConditions) with false. cbn [orb].
      apply existsb_ext. intros c' Hc'. by rewrite (Hk c' Hc'), Z.eqb_refl. }
    destruct addrs as [|a addrs]; [done|]. cbn [forallb]. rewrite Hd by (by left).
    destruct (existsb (holds tr) (a :: addrs)) eqn:E; [|done]. cbn [andb]. apply forallb_forall.
    intros c Hc. rewrite Hd; [done | by right].
Qed.

(** ** The weights at which rules match *)

Definition weights (rules : list wtFwpmFilter0) (sub layer : guid) (tr : T) : list Z :=
  map f_weight (candidates rules sub layer tr).

Lemma weights_app r1 r2 sub layer tr : weights (r1 ++ r2) sub layer tr = weights r1 sub layer tr ++ weights r2 sub layer tr.
Proof. unfold weights, candidates. by rewrite List.filter_app, map_app. Qed.

Definition weightIf (c : bool) (k : Z) : list Z := if c then [k] else [].

Context (bo : baseObjects).

Lemma weights_cons k flags cs a layer rules layer' tr :
  weights (rule bo k flags cs a layer :: rules) (filters bo) layer' tr
  = weightIf ((layer =? layer') && conditionsHold tr cs) k ++ weights rules (filters bo) layer' tr.
Proof. unfold weights, candidates, weightIf. cbn. rewrite Z.eqb_refl. cbn. by destruct (_ && _). Qed.

Lemma weights_four k flags cs a layer tr :
  layer ∈ aleLayers ->
  weights (map (rule bo k flags cs a) aleLayers) (filters bo) layer tr = weightIf (conditionsHold tr cs) k.
Proof.
  intros Hl. unfold aleLayers. cbn [map]. rewrite !weights_cons. unfold aleLayers in Hl.
  rewrite !elem_of_cons, elem_of_nil in Hl.
  destruct Hl as [->|[->|[->|[->|[]]]]]; cbn; by destruct (conditionsHold tr cs).
Qed.

Lemma addresses_some (addrs : list wtFwpmFilterCondition0) :
  (length denyConditions <? length (denyConditions ++ addrs))%nat = negb (length addrs =? 0)%nat.
Proof.
  by destruct addrs.
Qed.

Lemma weights_dnsAllow addrs l1 l2 layer tr :
  (forall c, In c addrs -> fieldKey c = cFWPM_CONDITION_IP_REMOTE_ADDRESS) -> l1 <> l2 ->
  weights (dnsAllowRules bo addrs [l1; l2]) (filters bo) layer tr
  = weightIf (((l1 =? layer) || (l2 =? layer)) && (isDNS tr && existsb (holds tr) addrs)) 15.
Proof.
  intros Hk Hne. unfold dnsAllowRules. rewrite addresses_some. destruct addrs as [|a addrs].
  { cbn. by rewrite !andb_false_r. }
  cbn [length Nat.eqb negb map]. rewrite <- (conditionsHold_addresses tr (a :: addrs)) by done.
  unfold permit. rewrite !weights_cons. change (weights [] _ _ _) with (@nil Z).
  destruct (Z.eqb_spec l1 layer), (Z.eqb_spec l2 layer); cbn; rewrite ?app_nil_r; done || congruence.
Qed.

Lemma weights_local luid layer tr :
  layer ∈ aleLayers ->
  weights (localRules bo luid) (filters bo) layer tr
  = weightIf (conditionsHold tr loopbackConditions) 13 ++ weightIf (conditionsHold tr (tunConditions luid)) 12
    ++ flat_map (fun cs => weightIf (conditionsHold tr cs) 12) (housekeeping layer).
Proof.
  intros Hl. unfold localRules. rewrite !weights_app. unfold permit at 1 2. rewrite !weights_four by done.
  do 2 f_equal.
  unfold permit. rewrite !weights_cons. change (weights [] _ _ _) with (@nil Z).
  unfold aleLayers in Hl. rewrite !elem_of_cons, elem_of_nil in Hl.
  destruct Hl as [->|[->|[->|[->|[]]]]]; reflexivity.
Qed.

Lemma weights_restricted appID sd luid dns layer tr :
  layer ∈ aleLayers ->
  weights (firewallRules bo appID sd luid false dns) (filters bo) layer tr
  = weightIf (conditionsHold tr (serviceConditions appID sd)) 15
    ++ (if (0 <? length dns)%nat
        then weightIf (isDNS tr) 14 ++ weightIf (isDNS tr && toServer dns layer tr) 15 else [])
    ++ weightIf (conditionsHold tr loopbackConditions) 13 ++ weightIf (conditionsHold tr (tunConditions luid)) 12
    ++ flat_map (fun cs => weightIf (conditionsHold tr cs) 12) (housekeeping layer) ++ [0].
Proof.
  intros Hl. unfold firewallRules, serviceRules, dnsRules, block.
  rewrite !weights_app, weights_local, !weights_four by done. rewrite <- !app_assoc.
  do 2 f_equal. change (weightIf (conditionsHold tr []) 0) with [0].
  destruct (0 <? length dns)%nat; [|done].
  rewrite !weights_app, weights_four, !weights_dnsAllow by (done || apply dnsAddresses4_key || apply dnsAddresses6_key).
  rewrite <- ?app_assoc. unfold isDNS at 1. f_equal. unfold toServer.
  unfold aleLayers in Hl. rewrite !elem_of_cons, elem_of_nil in Hl.
  destruct Hl as [->|[->|[->|[->|[]]]]]; cbn -[dnsAddresses4 dnsAddresses6 isDNS]; by rewrite ?app_nil_r.
Qed.

Lemma housekeeping_weights layer tr k :
  (existsb (conditionsHold tr) (housekeeping layer) = true -> 12 <= k) ->
  forallb (fun w => w <=? k) (flat_map (fun cs => weightIf (conditionsHold tr cs) 12) (housekeeping layer)) = true.
Proof.
  intros Hk. apply forallb_forall. intros w Hw. apply in_flat_map in Hw as (cs & Hcs & Hw).
  unfold weightIf in Hw. destruct (conditionsHold tr cs) eqn:E; [|done].
  destruct Hw as [<-|[]]. apply Z.leb_le, Hk, existsb_exists. eauto.
Qed.

Lemma housekeeping_some layer tr :
  existsb (conditionsHold tr) (housekeeping layer) = true ->
  existsb (fun w => w =? 12) (flat_map (fun cs => weightIf (conditionsHold tr cs) 12) (housekeeping layer)) = true.
Proof.
  intros Hex. apply existsb_exists in Hex as (cs & Hcs & Hc). apply existsb_exists. exists 12. split; [|done].
  apply in_flat_map. exists cs. rewrite Hc. split; [done | by left].
Qed.

(** The heaviest weight that matches. *)
Definition heaviest (appID sd : gostring) (luid : Z) (dns : list Addr) (layer : guid) (tr : T) : Z :=
  if conditionsHold tr (serviceConditions appID sd) then 15
  else if (0 <? length dns)%nat && isDNS tr then (if toServer dns layer tr then 15 else 14)
  else if conditionsHold tr loopbackConditions then 13
  else if conditionsHold tr (tunConditions luid) || existsb (conditionsHold tr) (housekeeping layer) then 12
  else 0.

Lemma heaviest_action appID sd luid dns layer tr :
  actionOf (heaviest appID sd luid dns layer tr)
  = if allowed appID sd luid dns layer tr then cFWP_ACTION_PERMIT else cFWP_ACTION_BLOCK.
Proof.
  unfold heaviest, allowed.
  destruct (conditionsHold tr (serviceConditions appID sd)), (0 <? length dns)%nat, (isDNS tr), (toServer dns layer tr),
    (conditionsHold tr loopbackConditions), (conditionsHold tr (tunConditions luid)),
    (existsb (conditionsHold tr) (housekeeping layer)); reflexivity.
Qed.

(** The ladder of weights, as a fact about booleans: [hk] holds 12 when [h] is
    true and is empty otherwise. *)
Lemma ladder (s on d a l t h : bool) (hk : list Z) :
  (h = true -> existsb (fun w => w =? 12) hk = true) ->
  (forall k, (h = true -> 12 <= k) -> forallb (fun w => w <=? k) hk = true) ->
  let k := if s then 15 else if on && d then (if a then 15 else 14) else if l then 13 else if t || h then 12 else 0 in
  let ws := weightIf s 15 ++ (if on then weightIf d 14 ++ weightIf (d && a) 15 else [])
            ++ weightIf l 13 ++ weightIf t 12 ++ hk ++ [0] in
  existsb (fun w => w =? k) ws = true /\ forallb (fun w => w <=? k) ws = true.
Proof.
  intros H12 Hle. cbv zeta. rewrite !existsb_app, !forallb_app.
  destruct s, on, d, a, l, t, h; cbn; rewrite ?H12, ?Hle, ?orb_true_r by (done || (intros; lia)); done.
Qed.

Lemma heaviest_weights appID sd luid dns layer tr :
  layer ∈ aleLayers ->
  let ws := weights (firewallRules bo appID sd luid false dns) (filters bo) layer tr in
  let k := heaviest appID sd luid dns layer tr in
  existsb (fun w => w =? k) ws = true /\ forallb (fun w => w <=? k) ws = true.
Proof.
  intros Hl. cbv zeta. rewrite weights_restricted by done. unfold heaviest.
  apply ladder; [apply housekeeping_some | apply housekeeping_weights].
Qed.

Lemma existsb_map {A B} (f : A -> B) (p : B -> bool) l : existsb p (map f l) = existsb (fun x => p (f x)) l.
Proof. induction l; cbn; congruence. Qed.

Lemma forallb_map {A B} (f : A -> B) (p : B -> bool) l : forallb p (map f l) = forallb (fun x => p (f x)) l.
Proof. induction l; cbn; congruence. Qed.

Lemma restricted_verdict fs appID sd luid dns layer tr :
  map erase fs = firewallRules bo appID sd luid false dns -> layer ∈ aleLayers ->
  verdict fs (filters bo) layer tr
  = Some (if allowed appID sd luid dns layer tr then cFWP_ACTION_PERMIT else cFWP_ACTION_BLOCK).
Proof.
  intros Hfs Hl. destruct (heaviest_weights appID sd luid dns layer tr Hl) as [Hex Hall].
  unfold weights in Hex, Hall. rewrite existsb_map in Hex. rewrite forallb_map in Hall.
  rewrite <- heaviest_action. eapply verdict_weight; [exact Hfs | apply firewallRules_action | exact Hex | exact Hall].
Qed.

Lemma unrestricted_verdict fs appID sd luid dns layer tr :
  map erase fs = firewallRules bo appID sd luid true dns -> layer ∈ aleLayers ->
  verdict fs (filters bo) layer tr
  = if conditionsHold tr (serviceConditions appID sd) then Some cFWP_ACTION_PERMIT else None.
Proof.
  intros Hfs Hl.
  assert (Hw : weights (firewallRules bo appID sd luid true dns) (filters bo) layer tr
               = weightIf (conditionsHold tr (serviceConditions appID sd)) 15).
  { unfold firewallRules, serviceRules. rewrite app_nil_r. by apply weights_four. }
  unfold weights, weightIf in Hw. destruct (conditionsHold tr (serviceConditions appID sd)).
  - change (Some cFWP_ACTION_PERMIT) with (Some (actionOf 15)).
    eapply verdict_weight; [exact Hfs | apply firewallRules_action | |].
    + rewrite <- (existsb_map f_weight (fun w => w =? 15)), Hw. done.
    + rewrite <- (forallb_map f_weight (fun w => w <=? 15)), Hw. done.
  - apply verdict_none. apply map_eq_nil in Hw. rewrite <- Hfs, <- candidates_erase in Hw. by apply map_eq_nil in Hw.
Qed.
End KillSwitch.

Section Claims.
Context {W T : Type} `{WFPLaws W} `{Arbitration T}.

(** C2: After a restricted EnableFirewall, every connection of every layer is
    permitted or blocked: permitted exactly when it belongs to the service, or
    is a query to a configured DNS server, or (not being a DNS query while
    servers are configured) uses loopback or the tunnel, or is address
    configuration or neighbour discovery. *)
Theorem kill_switch luid dns fw fw' layer (tr : T) :
  wfpSession fw = 0 -> EnableFirewall luid false dns fw = (Ok tt, fw') -> layer ∈ aleLayers ->
  exists sublayer appID sd, processAppID = Ok appID /\ processSecurityDescriptor = Ok sd
    /\ verdict (ss_filters (engine (fw_world fw') (wfpSession fw'))) sublayer layer tr
        = Some (if allowed appID sd luid dns layer tr then cFWP_ACTION_PERMIT else cFWP_ACTION_BLOCK).
Proof.
  intros Hs He Hl. apply EnableFirewall_effect in He as (_ & bo & appID & sd & fs & Ha & Hd & Hfs & Hu); [|done].
  exists (filters bo), appID, sd. split_and!; [done.. |]. rewrite (proj1 Hu). by apply restricted_verdict.
Qed.

(** C9: EnableFirewall installs the whole set of rules of the tunnel or leaves
    nothing behind: on success the new session holds exactly those filters, on
    failure no filter is in force that was not before; the other sessions are
    as they were. *)
Theorem EnableFirewall_atomic luid dnr dns fw r fw' :
  wfpSession fw = 0 -> EnableFirewall luid dnr dns fw = (r, fw') ->
  match r with
  | Ok _ => wfpSession fw' <> 0
      /\ (exists bo appID sd, processAppID = Ok appID /\ processSecurityDescriptor = Ok sd
           /\ map erase (ss_filters (engine (fw_world fw') (wfpSession fw'))) = firewallRules bo appID sd luid dnr dns)
      /\ (forall h, h <> wfpSession fw' -> engine (fw_world fw') h = engine (fw_world fw) h)
  | Err _ => wfpSession fw' = 0
      /\ forall h, ss_filters (engine (fw_world fw') h) = [] \/ engine (fw_world fw') h = engine (fw_world fw) h
  end.
Proof.
  intros Hs He. apply EnableFirewall_effect in He; [|done]. destruct r.
  - destruct He as (Hn & bo & appID & sd & fs & Ha & Hd & Hfs & Hu1 & Hu2). split_and!; [done | | done].
    exists bo, appID, sd. by rewrite Hu1.
  - destruct He as [Hz He]. split; [done|]. intros h. destruct He as [He | (h' & Hu1 & Hu2)]; [right; apply He|].
    destruct (decide (h = h')) as [->|]; [left; by rewrite Hu1 | right; by apply Hu2].
Qed.

(** C10: In any sequence of EnableFirewall and DisableFirewall calls, from a state
    without filters, no session but the current one ever has filters in force
    and the current one has exactly the rules of one call. *)
Theorem firewall_invariant (fw fw' : firewall) :
  wfpSession fw = 0 -> (forall h, ss_filters (engine (fw_world fw) h) = []) -> rtc fwStep fw fw' -> fwInv fw'.
Proof.
  intros Hs Hno Hr. assert (Hi : fwInv fw) by (split; [intros; apply Hno | by rewrite Hs]). clear Hs Hno.
  induction Hr as [|fw fw1 fw2 Hstep _ IH]; [done|]. apply IH. by eapply fwInv_step.
Qed.

(** A tunnel that does not restrict traffic never blocks: the rules decide
    only about the service's own traffic, which they permit. *)
Theorem unrestricted_never_blocks luid dns fw fw' layer (tr : T) :
  wfpSession fw = 0 -> EnableFirewall luid true dns fw = (Ok tt, fw') -> layer ∈ aleLayers ->
  exists sublayer appID sd, processAppID = Ok appID /\ processSecurityDescriptor = Ok sd
    /\ verdict (ss_filters (engine (fw_world fw') (wfpSession fw'))) sublayer layer tr
        = if conditionsHold tr (serviceConditions appID sd) then Some cFWP_ACTION_PERMIT else None.
Proof.
  intros Hs He Hl. apply EnableFirewall_effect in He as (_ & bo & appID & sd & fs & Ha & Hd & Hfs & Hu); [|done].
  exists (filters bo), appID, sd. split_and!; [done.. |]. rewrite (proj1 Hu). by eapply unrestricted_verdict.
Qed.
End Claims.
