(* ===== verification/FirewallExample.v ===== *)
(** * A platform that satisfies the laws, and the firewall run on it

    A small engine kept in a map, in which every call succeeds, and an
    arbitration that takes the heaviest filter: the hypotheses of the theorems
    on the firewall can be met, and concrete traffic gets its verdict. *)

From S2P Require Import Prelude GoStrings Netip Effects Firewall FirewallTheorems KillSwitch.
Import Firewall.
Local Open Scope Z_scope.

Record simWorld : Type := mkSim { sim_next : positive; sim_sessions : gmap Z sessionState }.

Definition noSession : sessionState := mkSessionState false [] None.
Definition simEngine (w : simWorld) (h : handle) : sessionState := default noSession (sim_sessions w !! h).
Definition simSet (w : simWorld) (h : handle) (s : sessionState) : simWorld :=
  mkSim (Pos.succ (sim_next w)) (<[h := s]> (sim_sessions w)).

Definition simFilterAdd (h : handle) (f : wtFwpmFilter0) : M simWorld unit :=
  fun w => let s := simEngine w h in
  match ss_txn s with
  | Some l => (Ok tt, simSet w h (mkSessionState (ss_dynamic s) (ss_filters s) (Some (l ++ [f]))))
  | None => (Err (ErrCode 1), w)
  end.

Definition simCommit (h : handle) : M simWorld unit :=
  fun w => let s := simEngine w h in
  match ss_txn s with
  | Some l => (Ok tt, simSet w h (mkSessionState (ss_dynamic s) (ss_filters s ++ l) None))
  | None => (Err (ErrCode 1), w)
  end.

Definition serviceGroup : SIDAndAttributes := mkGroup (mkSID true 5 [80; 1; 2; 3; 4; 5]) 14.

#[export] Instance simWFP : WFP simWorld := {|
  UTF16PtrFromString s := Ok (map code s);
  os_Executable := Ok (str "wireguard.exe");
  fwpmGetAppIdFromFileName0 p := Ok (map chr p);
  OpenProcessToken := Ok 1;
  GetTokenGroups _ := Ok [serviceGroup];
  ACLFromEntries _ := Ok (str "acl");
  NewSecurityDescriptor := Ok (str "sd");
  SetDACL sd acl := Ok (sd ++ acl);
  ToSelfRelative sd := Ok sd;
  GenerateGUID w := (Ok (Zpos (sim_next w)), mkSim (Pos.succ (sim_next w)) (sim_sessions w));
  fwpmEngineOpen0 s w :=
    (Ok (Zpos (sim_next w)), simSet w (Zpos (sim_next w)) (mkSessionState (s_flags s =? cFWPM_SESSION_FLAG_DYNAMIC) [] None));
  fwpmEngineClose0 h w := simSet w h (mkSessionState true [] None);
  fwpmTransactionBegin0 h w :=
    (Ok tt, simSet w h (mkSessionState (ss_dynamic (simEngine w h)) (ss_filters (simEngine w h)) (Some [])));
  fwpmTransactionCommit0 := simCommit;
  fwpmTransactionAbort0 h w :=
    simSet w h (mkSessionState (ss_dynamic (simEngine w h)) (ss_filters (simEngine w h)) None);
  fwpmProviderAdd0 _ _ w := (Ok tt, w);
  fwpmSubLayerAdd0 _ _ w := (Ok tt, w);
  fwpmFilterAdd0 := simFilterAdd
|}.

Lemma simSet_updated w h s : updated (simEngine w) (simEngine (simSet w h s)) h s.
Proof.
  unfold simEngine, simSet. cbn. split; [by rewrite lookup_insert_eq|].
  intros h' Hh. by rewrite lookup_insert_ne.
Qed.

#[export, refine] Instance simLaws : WFPLaws simWorld := {| engine := simEngine |}.
Proof.
  - by intros w r w' [= <- <-] h.
  - by intros h p w r w' [= <- <-] h'.
  - by intros h p w r w' [= <- <-] h'.
  - intros s w h w' [= <- <-]. split; [done | apply simSet_updated].
  - done.
  - intros h w _. apply simSet_updated.
  - intros h w w' [= <-]. apply simSet_updated.
  - done.
  - intros h f w w' l Hl. cbn. unfold simFilterAdd. rewrite Hl. intros [= <-]. apply simSet_updated.
  - intros h f w e w'. cbn. unfold simFilterAdd. by destruct (ss_txn _); intros [= <- <-].
  - intros h w w' l Hl. cbn. unfold simCommit. rewrite Hl. intros [= <-]. apply simSet_updated.
  - intros h w e w'. cbn. unfold simCommit. by destruct (ss_txn _); intros [= <- <-].
  - intros h w. apply simSet_updated.
Defined.

(** Traffic as the values of the fields the conditions name. *)
Record packet : Type := mkPacket {
  pk_app : gostring; pk_user : gostring; pk_loopback : bool; pk_luid : Z; pk_protocol : Z;
  pk_localPort : Z; pk_remotePort : Z; pk_remote : conditionValue; pk_local : conditionValue
}.

Definition inMask (value mask : conditionValue) : bool :=
  match value, mask with
  | cFWP_BYTE_ARRAY16_TYPE a, cFWP_V6_ADDR_MASK m p => Z.shiftr a (128 - p) =? Z.shiftr m (128 - p)
  | _, _ => bool_decide (value = mask)
  end.

#[export] Instance packetTraffic : Traffic packet := {|
  holds p c :=
    let k := fieldKey c in let v := conditionValue0 c in
    if k =? cFWPM_CONDITION_ALE_APP_ID then bool_decide (v = cFWP_BYTE_BLOB_TYPE (pk_app p))
    else if k =? cFWPM_CONDITION_ALE_USER_ID then bool_decide (v = cFWP_SECURITY_DESCRIPTOR_TYPE (pk_user p))
    else if k =? cFWPM_CONDITION_FLAGS then pk_loopback p
    else if k =? cFWPM_CONDITION_IP_LOCAL_INTERFACE then bool_decide (v = cFWP_UINT64 (pk_luid p))
    else if k =? cFWPM_CONDITION_IP_PROTOCOL then bool_decide (v = cFWP_UINT8 (pk_protocol p))
    else if k =? cFWPM_CONDITION_IP_LOCAL_PORT then bool_decide (v = cFWP_UINT16 (pk_localPort p))
    else if k =? cFWPM_CONDITION_IP_REMOTE_PORT then bool_decide (v = cFWP_UINT16 (pk_remotePort p))
    else if k =? cFWPM_CONDITION_IP_REMOTE_ADDRESS then inMask (pk_remote p) v
    else if k =? cFWPM_CONDITION_IP_LOCAL_ADDRESS then inMask (pk_local p) v
    else false
|}.

(** The first of the heaviest filters of a list. *)
Fixpoint heaviestFilter (fs : list wtFwpmFilter0) : option wtFwpmFilter0 :=
  match fs with
  | [] => None
  | f :: fs' => match heaviestFilter fs' with
                | None => Some f
                | Some g => Some (if f_weight g <=? f_weight f then f else g)
                end
  end.

Lemma heaviestFilter_spec fs g :
  heaviestFilter fs = Some g -> In g fs /\ forall f, In f fs -> f_weight f <= f_weight g.
Proof.
  revert g. induction fs as [|f fs IH]; intros g; cbn; [done|].
  destruct (heaviestFilter fs) as [h|] eqn:E; intros [= <-].
  - destruct (IH h eq_refl) as [Hin Hle]. case_match eqn:El; rewrite ?Z.leb_le, ?Z.leb_gt in El.
    + split; [by left|]. intros x [<-|Hx]; [lia|]. specialize (Hle x Hx). lia.
    + split; [by right|]. intros x [<-|Hx]; [lia | auto].
  - assert (fs = []) as -> by (destruct fs as [|f' fs']; [done|]; cbn in E; by destruct (heaviestFilter fs')).
    split; [by left|]. intros x [<-|[]]. lia.
Qed.

#[export, refine] Instance packetArbitration : Arbitration packet := {|
  verdict fs sub layer tr := f_action <$> heaviestFilter (candidates fs sub layer tr)
|}.
Proof.
  - intros fs sub layer tr ->. done.
  - intros fs sub layer tr f Hf Hmax.
    destruct (heaviestFilter (candidates fs sub layer tr)) as [g|] eqn:E.
    + apply heaviestFilter_spec in E as [Hg Hle]. cbn. f_equal. specialize (Hle f Hf).
      destruct (Hmax g Hg) as [|[_ ->]]; [lia | done].
    + exfalso. destruct (candidates fs sub layer tr) as [|h l]; [done|]. cbn in E.
      by destruct (heaviestFilter l).
Defined.

Definition initialFirewall : firewall (W:=simWorld) := mkFirewall (mkSim 1 ∅) 0.
Definition dnsServers : list Addr := [Addr4 0x0a000001].
Definition enabled : firewall (W:=simWorld) := snd (EnableFirewall 77 false dnsServers initialFirewall).
Definition unrestricted : firewall (W:=simWorld) := snd (EnableFirewall 77 true [] initialFirewall).

(** A DNS query to 8.8.8.8 through the tunnel. *)
Definition strayQuery : packet :=
  mkPacket (str "x") (str "y") false 77 17 5000 53 (cFWP_UINT32 0x08080808) (cFWP_UINT32 1).

Lemma enabled_ok : EnableFirewall 77 false dnsServers initialFirewall = (Ok tt, enabled).
Proof. vm_compute. reflexivity. Qed.

Lemma kill_switch_witness :
  exists sub, verdict (ss_filters (engine (fw_world enabled) (wfpSession enabled))) sub cFWPM_LAYER_ALE_AUTH_CONNECT_V4 strayQuery
              = Some cFWP_ACTION_BLOCK.
Proof.
  destruct (kill_switch 77 dnsServers initialFirewall enabled cFWPM_LAYER_ALE_AUTH_CONNECT_V4 strayQuery)
    as (sub & appID & sd & Ha & Hd & Hv);
    [reflexivity | exact enabled_ok | left |].
  exists sub. rewrite Hv. vm_compute in Ha, Hd. injection Ha as <-. injection Hd as <-. vm_compute. reflexivity.
Defined.

Lemma EnableFirewall_atomic_witness :
  wfpSession enabled <> 0 /\ length (ss_filters (engine (fw_world enabled) (wfpSession enabled))) = 33%nat.
Proof.
  pose proof (EnableFirewall_atomic 77 false dnsServers initialFirewall (Ok tt) enabled eq_refl enabled_ok)
    as (Hs & (bo & appID & sd & _ & _ & Hr) & _).
  split; [exact Hs|]. rewrite <- (length_map erase), Hr. reflexivity.
Defined.

Lemma firewall_invariant_witness : fwInv (DisableFirewall enabled) /\ wfpSession (DisableFirewall enabled) = 0.
Proof.
  split; [|reflexivity].
  apply (firewall_invariant initialFirewall (DisableFirewall enabled)); [reflexivity | |].
  - intros h. cbn. unfold simEngine, initialFirewall. cbn. rewrite lookup_empty. reflexivity.
  - apply (rtc_l _ _ enabled); [|apply rtc_once; constructor].
    exact (step_enable initialFirewall 77 false dnsServers).
Defined.

Lemma unrestricted_never_blocks_witness :
  exists sub, verdict (ss_filters (engine (fw_world unrestricted) (wfpSession unrestricted))) sub
                cFWPM_LAYER_ALE_AUTH_CONNECT_V4 strayQuery = None.
Proof.
  destruct (unrestricted_never_blocks 77 [] initialFirewall unrestricted cFWPM_LAYER_ALE_AUTH_CONNECT_V4 strayQuery)
    as (sub & appID & sd & Ha & Hd & Hv);
    [reflexivity | vm_compute; reflexivity | left |].
  exists sub. rewrite Hv. vm_compute in Ha, Hd. injection Ha as <-. injection Hd as <-. vm_compute. reflexivity.
Defined.
