(* ===== verification/Updater.v ===== *)
(** * updater: which update is offered, downloaded and run

    versions.go, signify.go and downloader.go. Ed25519, BLAKE2b, the HTTP client
    (updater/winhttp), the temporary file and msiexec (updater/msirunner.go) are
    parameters. A Go map is ranged over in an unspecified order: [findCandidate]
    takes the order as a list. The progress channel is the list of the messages
    sent so far. *)

From S2P Require Import Prelude GoStrings GoNum Effects.
Local Open Scope Z_scope.

Module Updater.

(** ** constants.go, version/version.go, version/useragent.go *)

Definition releasePublicKeyBase64 : gostring := str "RWRNqGKtBXftKTKPpBPGDMe8jHLnFQ0EdRy8Wg0apV6vTDFLAODD83G4".
Definition updateServerHost : gostring := str "download.wireguard.com".
Definition updateServerPort : Z := 443.
Definition updateServerUseHttps : bool := true.
Definition latestVersionPath : gostring := str "/windows-client/latest.sig".
Definition msiPath (name : gostring) : gostring := str "/windows-client/" ++ name.
Definition msiArchPrefix (arch : gostring) : gostring := str "wireguard-" ++ arch ++ str "-".
Definition msiSuffix : gostring := str ".msi".

Definition Number : gostring := str "1.3.1".

(** The panic on another architecture is an error. *)
Definition Arch (GOARCH : gostring) : result gostring :=
  if bool_decide (GOARCH = str "arm") || bool_decide (GOARCH = str "arm64") || bool_decide (GOARCH = str "amd64")
  then Ok GOARCH
  else if bool_decide (GOARCH = str "386") then Ok (str "x86")
  else Err (ErrText "Unrecognized GOARCH").

(** ** versions.go *)

(** One part, or 0 beyond the last. *)
Definition versionPart (parts : list gostring) (i : nat) : result Z :=
  match parts !! i with
  | None => Ok 0
  | Some p =>
      if (length p =? 0)%nat then Err (ErrText "Empty version part")
      else with_err (ErrText "Invalid version integer part") (ParseUint p 16)
  end.

(** The loop, [n] rounds from [i]. *)
Fixpoint versionLoop (candidateParts ourParts : list gostring) (n i : nat) : result bool :=
  match n with
  | O => Ok false
  | S n' =>
      let? cP := versionPart candidateParts i in
      let? oP := versionPart ourParts i in
      if cP =? oP then versionLoop candidateParts ourParts n' (S i) else Ok (oP <? cP)
  end.

Definition versionNewerThan (ours candidate : gostring) : result bool :=
  let candidateParts := Split "." candidate in
  let ourParts := Split "." ours in
  if (length candidateParts =? 0)%nat || (length ourParts =? 0)%nat then Err (ErrText "Empty version")
  else versionLoop candidateParts ourParts (Nat.max (length ourParts) (length candidateParts)) 0.

Definition versionNewerThanUs (candidate : gostring) : result bool := versionNewerThan Number candidate.

Record UpdateFound : Type := mkUpdate { up_name : gostring; up_hash : gostring }.

(** The range loop over the entries in the order the runtime chooses. *)
Fixpoint findCandidateIn (prefix suffix : gostring) (candidates : list (gostring * gostring))
    : result (option UpdateFound) :=
  match candidates with
  | [] => Ok None
  | (name, hash) :: rest =>
      if HasPrefix name prefix && HasSuffix name suffix then
        let version := TrimSuffix (TrimPrefix name prefix) suffix in
        if (128 <? length version)%nat then Err (ErrText "Version length is too long")
        else
          let? newer := versionNewerThanUs version in
          if newer : bool then Ok (Some (mkUpdate name hash)) else findCandidateIn prefix suffix rest
      else findCandidateIn prefix suffix rest
  end.

Definition findCandidate (arch : gostring) (candidates : list (gostring * gostring)) : result (option UpdateFound) :=
  findCandidateIn (msiArchPrefix arch) msiSuffix candidates.

(** ** signify.go *)

Abbreviation fileList := (gmap gostring gostring).

Definition Size256 : nat := 32.
Definition PublicKeySize : nat := 32.
Definition SignatureSize : nat := 64.

(** bytes.SplitN(input, "\n", 3) *)
Definition SplitN3 (input : gostring) : list gostring :=
  match Cut input [LF] with
  | (_, _, false) => [input]
  | (first, rest, true) =>
      match Cut rest [LF] with
      | (_, _, false) => [first; rest]
      | (second, third, true) => [first; second; third]
      end
  end.

Definition fileLine (fileHashes : fileList) (line : gostring) : result fileList :=
  match Cut line (str "  ") with
  | (_, _, false) => Err (ErrText "File hash line has too few components")
  | (first, second, true) =>
      match hexDecode first with
      | Some maybeHash =>
          if (length maybeHash =? Size256)%nat then Ok (<[second := maybeHash]> fileHashes)
          else Err (ErrText "File hash is invalid hex or incorrect number of bytes")
      | None => Err (ErrText "File hash is invalid hex or incorrect number of bytes")
      end
  end.

Fixpoint fileLoop (fileHashes : fileList) (lines : list gostring) : result fileList :=
  match lines with
  | [] => Ok fileHashes
  | line :: rest =>
      if (length line =? 0)%nat && (length rest =? 0)%nat then Ok fileHashes
      else let? fileHashes := fileLine fileHashes line in fileLoop fileHashes rest
  end.

Section Signify.
Context (ed25519_Verify : gostring -> gostring -> gostring -> bool).

Definition readFileList (input : gostring) : result fileList :=
  match b64Decode releasePublicKeyBase64 with
  | None => Err (ErrText "Invalid public key")
  | Some publicKeyBytes =>
      if negb (length publicKeyBytes =? PublicKeySize + 10)%nat
         || negb (bool_decide (publicKeyBytes !! 0%nat = Some "E"%char))
         || negb (bool_decide (publicKeyBytes !! 1%nat = Some "d"%char))
      then Err (ErrText "Invalid public key")
      else
        match SplitN3 input with
        | [line0; line1; line2] =>
            if negb (HasPrefix line0 (str "untrusted comment: ")) then
              Err (ErrText "Signature input is missing untrusted comment")
            else
              match b64Decode line1 with
              | None => Err (ErrText "Signature input is not valid base64")
              | Some signatureBytes =>
                  if negb (length signatureBytes =? SignatureSize + 10)%nat
                     || negb (bool_decide (take 10 signatureBytes = take 10 publicKeyBytes))
                  then Err (ErrText "Signature input bytes are incorrect length, type, or keyid")
                  else if negb (ed25519_Verify (drop 10 publicKeyBytes) line2 (drop 10 signatureBytes))
                  then Err (ErrText "Signature is invalid")
                  else
                    let? fileHashes := fileLoop ∅ (Split LF line2) in
                    if (size fileHashes =? 0)%nat then Err (ErrText "No file hashes found in signed input")
                    else Ok fileHashes
              end
        | _ => Err (ErrText "Signature input has too few lines")
        end
  end.
End Signify.

(** ** downloader.go *)

(** The format and argument of an activity's text. *)
Inductive activity : Type :=
  | NoActivity | Initializing | CheckingForUpdate | CreatingTemporaryFile | MsiDestination (name : gostring)
  | DownloadingUpdate | InstallingUpdate.

Record DownloadProgress : Type := mkProgress {
  dp_Activity : activity;
  dp_BytesDownloaded : Z;
  dp_BytesTotal : Z;
  dp_Error : option goerr;
  dp_Complete : bool
}.

Definition activityProgress (a : activity) : DownloadProgress := mkProgress a 0 0 None false.
Definition errorProgress (e : goerr) : DownloadProgress := mkProgress NoActivity 0 0 (Some e) false.
Definition completeProgress : DownloadProgress := mkProgress NoActivity 0 0 None true.

Abbreviation handle := Z.

(** [impersonateSystem] is what elevate.DoAsSystem does before it calls its
    argument; [response_Reads] are the reads of a response up to its end or an
    error, each of them of at least a byte; [rangeOrder] is the order in which the runtime ranges over a map. *)
Class UpdateSystem (W : Type) := {
  GOARCH : gostring;
  ed25519_Verify : gostring -> gostring -> gostring -> bool;
  blake2b_New256 : result unit;
  blake2b_Sum256 : gostring -> gostring;
  rangeOrder : fileList -> list (gostring * gostring);
  IsRunningOfficialVersion : W -> bool;
  OsName : gostring;
  NewSession : gostring -> M W handle;
  session_Connect : handle -> gostring -> Z -> bool -> M W handle;
  session_Close : handle -> W -> W;
  connection_Get : handle -> gostring -> bool -> M W handle;
  connection_Close : handle -> W -> W;
  response_Reads : handle -> W -> (list gostring * option goerr) * W;
  response_Length : handle -> M W Z;
  response_Close : handle -> W -> W;
  msiTempFile : M W handle;
  file_Name : handle -> gostring;
  file_Write : handle -> gostring -> M W unit;
  file_Delete : handle -> W -> W;
  runMsi : handle -> Z -> M W unit;
  impersonateSystem : M W unit
}.

(** io.LimitReader: the reads of a stream within its first [n] bytes. *)
Fixpoint limitReads (n : Z) (chunks : list gostring) (err : option goerr) : list gostring * option goerr :=
  if n <=? 0 then ([], None)
  else
    match chunks with
    | [] => ([], err)
    | c :: rest =>
        if Z.of_nat (length c) <=? n
        then let '(cs, e) := limitReads (n - Z.of_nat (length c)) rest err in (c :: cs, e)
        else ([take (Z.to_nat n) c], None)
    end.

(** Runs [cleanup] on the way out of [m], with its result. *)
Definition mdefer {W A} (cleanup : result A -> W -> W) (m : M W A) : M W A :=
  fun w => let '(r, w') := m w in (r, cleanup r w').

Section Downloader.
Context {W : Type} `{UpdateSystem W}.

Definition UserAgent : result gostring :=
  let? arch := Arch GOARCH in
  Ok (str "WireGuard/" ++ Number ++ str " (" ++ OsName ++ str "; " ++ arch ++ str ")").

(** io.ReadAll(io.LimitReader(response, n)) *)
Definition readAllLimited (response : handle) (n : Z) : M W gostring :=
  fun w =>
  let '(chunks, err, w') := response_Reads response w in
  match limitReads n chunks err with
  | (cs, None) => (Ok (concat cs), w')
  | (_, Some e) => (Err e, w')
  end.

Definition closeUnless {A} (keepSession : bool) (close : W -> W) (r : result A) : W -> W :=
  if negb (is_Ok r) || negb keepSession then close else id.

Definition checkForUpdate (keepSession : bool) : M W (option UpdateFound * handle * handle) :=
  fun w =>
  if negb (IsRunningOfficialVersion w) then (Err (ErrText "Build is not official, so updates are disabled"), w)
  else
    (do! agent := mpure UserAgent in
     do! session := NewSession agent in
     mdefer (closeUnless keepSession (session_Close session))
       (do! connection := session_Connect session updateServerHost updateServerPort updateServerUseHttps in
        mdefer (closeUnless keepSession (connection_Close connection))
          (do! response := connection_Get connection latestVersionPath true in
           mdefer (fun _ => response_Close response)
             (do! list := readAllLimited response (1024 * 512) in
              do! files := mpure (readFileList ed25519_Verify list) in
              do! arch := mpure (Arch GOARCH) in
              do! updateFound := mpure (findCandidate arch (rangeOrder files)) in
              mret (updateFound, session, connection))))) w.

Definition CheckForUpdate : M W (option UpdateFound) :=
  do! found := checkForUpdate false in mret (fst (fst found)).

(** The process: the system, the channel and the flag of the package. *)
Record process : Type := mkProcess {
  pr_world : W;
  pr_progress : list DownloadProgress;
  updateInProgress : Z
}.

Definition withWorld (p : process) (w : W) : process := mkProcess w (pr_progress p) (updateInProgress p).
Definition onWorld (f : W -> W) (p : process) : process := withWorld p (f (pr_world p)).

Definition send (dp : DownloadProgress) (p : process) : process :=
  mkProcess (pr_world p) (pr_progress p ++ [dp]) (updateInProgress p).

(** A call whose error is sent and ends the function. *)
Definition attempt {A} (m : M W A) (k : A -> process -> process) : process -> process :=
  fun p => match m (pr_world p) with
           | (Ok a, w) => k a (withWorld p w)
           | (Err e, w) => send (errorProgress e) (withWorld p w)
           end.

(** The variables of the download: dp and the bytes hashed so far. *)
Record download : Type := mkDownload { dl_process : process; dl_dp : DownloadProgress; dl_hashed : gostring }.

(** progressHashWatcher.Write *)
Definition watcherWrite (d : download) (p : gostring) : download :=
  let dp := dl_dp d in
  let dp := mkProgress (dp_Activity dp) ((dp_BytesDownloaded dp + Z.of_nat (length p)) mod 2 ^ 64)
              (dp_BytesTotal dp) (dp_Error dp) (dp_Complete dp) in
  mkDownload (send dp (dl_process d)) dp (dl_hashed d ++ p).

(** io.Copy(file, io.TeeReader(reads, watcher)) *)
Fixpoint copyLoop (file : handle) (chunks : list gostring) (err : option goerr) (d : download)
    : download * option goerr :=
  match chunks with
  | [] => (d, err)
  | c :: rest =>
      let d := watcherWrite d c in
      match file_Write file c (pr_world (dl_process d)) with
      | (Ok _, w) => copyLoop file rest err (mkDownload (withWorld (dl_process d) w) (dl_dp d) (dl_hashed d))
      | (Err e, w) => (mkDownload (withWorld (dl_process d) w) (dl_dp d) (dl_hashed d), Some e)
      end
  end.

Definition withTotal (dp : DownloadProgress) (length : Z) : DownloadProgress :=
  mkProgress (dp_Activity dp) (dp_BytesDownloaded dp) length (dp_Error dp) (dp_Complete dp).

(** The deferred calls of the download, the last one first. *)
Definition deferred (cleanup : W -> W) (body : process -> process) (p : process) : process := onWorld cleanup (body p).

Definition installUpdate (file : handle) (userToken : Z) (p : process) : process :=
  attempt (runMsi file userToken) (fun _ => send completeProgress) (send (activityProgress InstallingUpdate) p).

Definition copyAndVerify (update : UpdateFound) (file response userToken : Z) (dp : DownloadProgress) (p : process)
    : process :=
  let '(chunks, err, w) := response_Reads response (pr_world p) in
  let '(chunks, err) := limitReads (1024 * 1024 * 100) chunks err in
  let '(d, err) := copyLoop file chunks err (mkDownload (withWorld p w) dp []) in
  match err with
  | Some e => send (errorProgress e) (dl_process d)
  | None =>
      if bool_decide (blake2b_Sum256 (dl_hashed d) = up_hash update)
      then installUpdate file userToken (dl_process d)
      else send (errorProgress (ErrText "The downloaded update has the wrong hash")) (dl_process d)
  end.

Definition downloadUpdate (update : UpdateFound) (connection file userToken : Z) (p : process) : process :=
  let dp := activityProgress DownloadingUpdate in
  attempt (connection_Get connection (msiPath (up_name update)) false)
    (fun response => deferred (response_Close response) (fun p =>
       let '(dp, p) :=
         match response_Length response (pr_world p) with
         | (Ok length, w) => let dp := withTotal dp length in (dp, send dp (withWorld p w))
         | (Err _, w) => (dp, withWorld p w)
         end in
       match blake2b_New256 with
       | Err e => send (errorProgress e) p
       | Ok _ => copyAndVerify update file response userToken dp p
       end)) (send dp p).

Definition doItBody (userToken : Z) (p : process) : process :=
  attempt (checkForUpdate true)
    (fun '(update, session, connection) =>
       deferred (fun w => connection_Close connection (session_Close session w)) (fun p =>
         match update with
         | None => send (errorProgress (ErrText "No update was found")) p
         | Some update =>
             attempt msiTempFile (fun file p =>
               deferred (file_Delete file) (downloadUpdate update connection file userToken)
                 (send (activityProgress (MsiDestination (file_Name file))) p))
               (send (activityProgress CreatingTemporaryFile) p)
         end))
    (send (activityProgress CheckingForUpdate) p).

Definition storeFlag (flag : Z) (p : process) : process := mkProcess (pr_world p) (pr_progress p) flag.

Definition doIt (userToken : Z) (p : process) : process := storeFlag 0 (doItBody userToken p).

(** The goroutine run to its end. *)
Definition DownloadVerifyAndExecute (userToken : Z) (p : process) : process :=
  let p := send (activityProgress Initializing) (mkProcess (pr_world p) [] (updateInProgress p)) in
  if negb (updateInProgress p =? 0)
  then send (errorProgress (ErrText "An update is already in progress")) p
  else
    let p := storeFlag 1 p in
    if userToken =? 0 then attempt impersonateSystem (fun _ => doIt userToken) p
    else doIt userToken p.
End Downloader.
End Updater.
