(* ===== verification/Manager.v ===== *)
(** * The manager service: manager/ipc_server.go, install.go, ipc_uapi.go, ipc_driver.go

    The manager keeps the store, installs and removes the services of tunnels
    and answers the user interface. [mgr] is its package variables with the
    state of the system; a goroutine it starts is a [task] appended to the list
    of those started. The service control manager, the driver and the pipe of a
    userspace tunnel are parameters. *)

From S2P Require Import Prelude GoStrings GoNum Netip Config Name Paths WSTLS Parser Writer UAPI Driver Effects Store Updater.
Local Open Scope Z_scope.

(** ** States *)

Inductive TunnelState : Type :=
  | TunnelUnknown | TunnelStarted | TunnelStopped | TunnelStarting | TunnelStopping.

#[global] Instance TunnelState_eq_dec : EqDecision TunnelState.
Proof. solve_decision. Defined.

Inductive UpdateState : Type :=
  | UpdateStateUnknown | UpdateStateFoundUpdate | UpdateStateUpdatesDisabledUnofficialBuild.

Definition SERVICE_STOPPED : Z := 1.
Definition SERVICE_START_PENDING : Z := 2.
Definition SERVICE_STOP_PENDING : Z := 3.
Definition SERVICE_RUNNING : Z := 4.

Definition ERROR_ACCESS_DENIED : Z := 5.
Definition ERROR_SERVICE_DOES_NOT_EXIST : Z := 1060.
Definition ERROR_SERVICE_MARKED_FOR_DELETE : Z := 1072.

Record svcStatus : Type := mkStatus {
  ss_State : Z;
  ss_Win32ExitCode : Z;
  ss_ServiceSpecificExitCode : Z
}.

(** What CreateService is told of a service. *)
Record serviceConfig : Type := mkServiceConfig {
  sc_DisplayName : gostring;
  sc_Automatic : bool;
  sc_Dependencies : list gostring;
  sc_SidUnrestricted : bool
}.

Class ServiceSystem (W service adapter pipe : Type) := {
  mgr_Connect : M W unit;
  os_Executable : M W gostring;
  mgr_OpenService : gostring -> M W service;
  mgr_CreateService : gostring -> gostring -> serviceConfig -> list gostring -> M W service;
  svc_Query : service -> M W svcStatus;
  svc_StartType : service -> M W Z;
  svc_Delete : service -> M W unit;
  svc_Start : service -> M W unit;
  svc_ControlStop : service -> M W unit;
  svc_Close : service -> M W unit;
  svc_Subscribe : service -> M W unit;
  svc_Unsubscribe : service -> M W unit;
  mgr_SubscribeDatabase : M W unit;
  driver_OpenAdapter : gostring -> M W adapter;
  adapter_Configuration : adapter -> M W gostring;
  adapter_Close : adapter -> M W unit;
  pipe_Dial : gostring -> M W pipe;
  pipe_SetDeadline : pipe -> M W unit;
  pipe_Write : pipe -> gostring -> M W unit;
  pipe_Read : pipe -> M W gostring;
  pipe_Close : pipe -> M W unit
}.

(** What the program starts in the background. *)
Inductive task (service : Type) : Type :=
  | TrackTunnel (name : gostring) (s : service)
  | StopTunnels (names : list gostring)
  | RunUpdate (elevatedToken : Z).
Arguments TrackTunnel {service}.
Arguments StopTunnels {service}.
Arguments RunUpdate {service}.

Record mgr (W service adapter : Type) : Type := mkMgr {
  mg_store : store W;
  mg_connected : bool;
  mg_trackedTunnels : gmap gostring TunnelState;
  mg_driverAdapters : gmap gostring adapter;
  mg_managerServices : gset Z;
  mg_haveQuit : bool;
  mg_quitSignals : nat;
  mg_updateState : UpdateState;
  mg_started : list (task service)
}.
Arguments mkMgr {W service adapter}.
Arguments mg_store {W service adapter}.
Arguments mg_connected {W service adapter}.
Arguments mg_trackedTunnels {W service adapter}.
Arguments mg_driverAdapters {W service adapter}.
Arguments mg_managerServices {W service adapter}.
Arguments mg_haveQuit {W service adapter}.
Arguments mg_quitSignals {W service adapter}.
Arguments mg_updateState {W service adapter}.
Arguments mg_started {W service adapter}.

(** A connection: its number among the manager services, and the token of an
    elevated user, zero for any other. *)
Record ManagerService : Type := mkManagerService {
  ms_id : Z;
  ms_elevatedToken : Z
}.

Definition isElevated (s : ManagerService) : bool := negb (ms_elevatedToken s =? 0).

Section Manager.
Context {W handle service adapter pipe : Type}.
Context `{FileSystem W handle} `{ServiceSystem W service adapter pipe} `{UnicodeTables} `{NetURL}.
Context (decoders : list (gostring -> option gostring)) (fuel : nat).
(** The order in which the map of tracked tunnels and that of TLS files are
    ranged over. *)
Context (trackedOrder : gmap gostring TunnelState -> list (gostring * TunnelState))
  (filesOrder : gmap gostring gostring -> list (gostring * gostring)).

Abbreviation mgr := (mgr W service adapter).

(** ** Access to the parts of the state *)

Definition set_store (st : store W) (m : mgr) : mgr :=
  mkMgr st (mg_connected m) (mg_trackedTunnels m) (mg_driverAdapters m) (mg_managerServices m)
    (mg_haveQuit m) (mg_quitSignals m) (mg_updateState m) (mg_started m).
Definition set_connected (b : bool) (m : mgr) : mgr :=
  mkMgr (mg_store m) b (mg_trackedTunnels m) (mg_driverAdapters m) (mg_managerServices m)
    (mg_haveQuit m) (mg_quitSignals m) (mg_updateState m) (mg_started m).
Definition set_tracked (t : gmap gostring TunnelState) (m : mgr) : mgr :=
  mkMgr (mg_store m) (mg_connected m) t (mg_driverAdapters m) (mg_managerServices m)
    (mg_haveQuit m) (mg_quitSignals m) (mg_updateState m) (mg_started m).
Definition set_adapters (a : gmap gostring adapter) (m : mgr) : mgr :=
  mkMgr (mg_store m) (mg_connected m) (mg_trackedTunnels m) a (mg_managerServices m)
    (mg_haveQuit m) (mg_quitSignals m) (mg_updateState m) (mg_started m).
Definition set_services (l : gset Z) (m : mgr) : mgr :=
  mkMgr (mg_store m) (mg_connected m) (mg_trackedTunnels m) (mg_driverAdapters m) l
    (mg_haveQuit m) (mg_quitSignals m) (mg_updateState m) (mg_started m).
Definition set_quit (b : bool) (n : nat) (m : mgr) : mgr :=
  mkMgr (mg_store m) (mg_connected m) (mg_trackedTunnels m) (mg_driverAdapters m) (mg_managerServices m)
    b n (mg_updateState m) (mg_started m).
Definition set_updateState (u : UpdateState) (m : mgr) : mgr :=
  mkMgr (mg_store m) (mg_connected m) (mg_trackedTunnels m) (mg_driverAdapters m) (mg_managerServices m)
    (mg_haveQuit m) (mg_quitSignals m) u (mg_started m).

(** A function of the store, a system call, a goroutine. *)
Definition onStore {A} (f : M (store W) A) : M mgr A :=
  fun m => let '(r, st) := f (mg_store m) in (r, set_store st m).
Definition onSys {A} (f : M W A) : M mgr A := onStore (sys f).
Definition go (t : task service) : M mgr unit :=
  mmod (fun m => mkMgr (mg_store m) (mg_connected m) (mg_trackedTunnels m) (mg_driverAdapters m)
    (mg_managerServices m) (mg_haveQuit m) (mg_quitSignals m) (mg_updateState m) (mg_started m ++ [t])).

(** A call whose error is ignored. *)
Definition ignore {A} (f : M mgr A) : M mgr unit := do! _ := try f in mret tt.

(** ** install.go *)

Definition serviceManager : M mgr unit :=
  do! connected := mget mg_connected in
  if connected : bool then mret tt
  else
    do! _ := onSys mgr_Connect in
    mmod (set_connected true).

Definition marked (e : goerr) : bool := bool_decide (e = ErrCode ERROR_SERVICE_MARKED_FOR_DELETE).

(** The loop that waits until a service that was deleted is gone. *)
Fixpoint waitDeleted (rounds : nat) (serviceName : gostring) : M mgr unit :=
  match rounds with
  | O => mfail (ErrText "out of fuel")
  | S rounds' =>
      do! r := try (onSys (mgr_OpenService serviceName)) in
      match r with
      | Ok s => do! _ := ignore (onSys (svc_Close s)) in waitDeleted rounds' serviceName
      | Err e => if marked e then waitDeleted rounds' serviceName else mret tt
      end
  end.

(** A service of the tunnel that is still there: deleted when it is stopped. *)
Definition removeOld (s : service) (serviceName : gostring) : M mgr unit :=
  do! status := try (onSys (svc_Query s)) in
  do! _ := match status with
           | Err e => if negb (marked e) then do! _ := ignore (onSys (svc_Close s)) in mfail e else mret tt
           | Ok st => if negb (ss_State st =? SERVICE_STOPPED)
                      then do! _ := ignore (onSys (svc_Close s)) in
                           mfail (ErrText "Tunnel already installed and running")
                      else mret tt
           end in
  do! deleted := try (onSys (svc_Delete s)) in
  do! _ := ignore (onSys (svc_Close s)) in
  match deleted with
  | Err e => if negb (marked e) then mfail e else waitDeleted fuel serviceName
  | Ok _ => waitDeleted fuel serviceName
  end.

Definition tunnelServiceConfig (name : gostring) : serviceConfig :=
  mkServiceConfig (str "WireGuard WS Tunnel: " ++ name) true [str "Nsi"; str "TcpIp"] true.

Definition InstallTunnel (configPath : gostring) : M mgr unit :=
  do! _ := serviceManager in
  do! path := onSys os_Executable in
  do! name := mpure (NameFromPath configPath) in
  do! serviceName := mpure (ServiceNameOfTunnel name) in
  do! old := try (onSys (mgr_OpenService serviceName)) in
  do! _ := match old with Ok s => removeOld s serviceName | Err _ => mret tt end in
  do! s := onSys (mgr_CreateService serviceName path (tunnelServiceConfig name)
                    [str "/tunnelservice"; configPath]) in
  do! started := try (onSys (svc_Start s)) in
  do! _ := go (TrackTunnel name s) in
  mpure started.

Definition UninstallTunnel (name : gostring) : M mgr unit :=
  do! _ := serviceManager in
  do! serviceName := mpure (ServiceNameOfTunnel name) in
  do! s := onSys (mgr_OpenService serviceName) in
  do! _ := ignore (onSys (svc_ControlStop s)) in
  do! deleted := try (onSys (svc_Delete s)) in
  do! closed := try (onSys (svc_Close s)) in
  match deleted with
  | Err e => if negb (marked e) then mfail e else mpure closed
  | Ok _ => mpure closed
  end.

(** ** ipc_driver.go *)

(** The lock of the adapter is held only while one request is served. *)
Definition findDriverAdapter (tunnelName : gostring) : M mgr adapter :=
  do! adapters := mget mg_driverAdapters in
  match adapters !! tunnelName with
  | Some a => mret a
  | None =>
      do! a := onSys (driver_OpenAdapter tunnelName) in
      do! _ := mmod (fun m => set_adapters (<[tunnelName := a]> (mg_driverAdapters m)) m) in
      mret a
  end.

Definition releaseDriverAdapter (tunnelName : gostring) : M mgr unit :=
  do! adapters := mget mg_driverAdapters in
  match adapters !! tunnelName with
  | None => mret tt
  | Some a =>
      do! _ := mmod (fun m => set_adapters (delete tunnelName (mg_driverAdapters m)) m) in
      ignore (onSys (adapter_Close a))
  end.

(** ** ipc_uapi.go *)

Definition uapiPipeName (name : gostring) : gostring :=
  str "\\.\pipe\ProtectedPrefix\Administrators\WireGuard\" ++ name.

(** [pipe_Dial] checks that SYSTEM owns the pipe; the deferred Close runs on
    every way out. *)
Definition uapiRuntimeConfig (storedConfig : Config) : M mgr Config :=
  do! p := onSys (pipe_Dial (uapiPipeName (c_Name storedConfig))) in
  do! r := try (do! _ := onSys (pipe_SetDeadline p) in
                do! _ := onSys (pipe_Write p (str "get=1" ++ [LF; LF])) in
                do! text := onSys (pipe_Read p) in
                mpure (FromUAPI storedConfig text)) in
  do! _ := ignore (onSys (pipe_Close p)) in
  mpure r.

(** ** ipc_server.go *)

Definition redactFor (s : ManagerService) (c : Config) : Config :=
  if negb (isElevated s) then Redact c else c.

Definition StoredConfig (s : ManagerService) (tunnelName : gostring) : M mgr Config :=
  do! c := onStore (LoadFromName decoders fuel tunnelName) in
  if negb (isElevated s) then mret (Redact c)
  else
    do! loaded := try (onStore (LoadWSTLSFiles fuel c)) in
    mret (match loaded with Ok c' => c' | Err _ => c end).

(** A block of the driver that cannot be read is a fault of the process. *)
Definition driverRuntimeConfig (block : gostring) (storedConfig : Config) : result Config :=
  match FromDriverConfiguration block storedConfig with
  | Some c => Ok c
  | None => Err (ErrText "fault")
  end.

Definition RuntimeConfig (s : ManagerService) (tunnelName : gostring) : M mgr Config :=
  do! storedConfig := onStore (LoadFromName decoders fuel tunnelName) in
  if HasWebSocketPeers storedConfig then
    do! c := uapiRuntimeConfig storedConfig in
    mret (redactFor s c)
  else
    do! a := findDriverAdapter tunnelName in
    do! r := try (onSys (adapter_Configuration a)) in
    match r with
    | Err e => do! _ := releaseDriverAdapter tunnelName in mfail e
    | Ok block =>
        do! c := mpure (driverRuntimeConfig block storedConfig) in
        mret (redactFor s c)
    end.

(** The loop of Start over the tracked tunnels: those that intersect, and the
    one that is still starting, at which it stops. *)
Fixpoint intersecting (c : Config) (tracked : list (gostring * TunnelState))
    : M mgr (list gostring * option gostring) :=
  match tracked with
  | [] => mret ([], None)
  | (t, state) :: rest =>
      do! loaded := try (onStore (LoadFromName decoders fuel t)) in
      match loaded with
      | Err _ => intersecting c rest
      | Ok c2 =>
          if negb (IntersectsWith c c2) then intersecting c rest
          else if (0 <? length t)%nat && (bool_decide (state = TunnelStarting) || bool_decide (state = TunnelUnknown))
          then mret ([t], Some t)
          else
            do! (stopping, inTransition) := intersecting c rest in
            mret (t :: stopping, inTransition)
      end
  end.

Definition Start (s : ManagerService) (tunnelName : gostring) : M mgr unit :=
  do! c := onStore (LoadFromName decoders fuel tunnelName) in
  do! tracked := mget mg_trackedTunnels in
  do! (stopping, inTransition) := intersecting c (trackedOrder tracked) in
  match inTransition with
  | Some t => mfail (ParseError "Please allow the tunnel to finish activating" t)
  | None =>
      do! _ := go (StopTunnels stopping) in
      do! path := onStore (Path fuel c) in
      InstallTunnel (render path)
  end.

Definition Stop (s : ManagerService) (tunnelName : gostring) : M mgr unit :=
  do! r := try (UninstallTunnel tunnelName) in
  match r with
  | Err e => if bool_decide (e = ErrCode ERROR_SERVICE_DOES_NOT_EXIST) then
               do! loaded := try (onStore (LoadFromName decoders fuel tunnelName)) in
               match loaded with Ok _ => mret tt | Err _ => mfail e end
             else mfail e
  | Ok _ => mret tt
  end.

(** The loop of WaitForStop; [rounds] bounds its sleeps. *)
Fixpoint waitStopped (rounds : nat) (serviceName : gostring) : M mgr unit :=
  match rounds with
  | O => mfail (ErrText "out of fuel")
  | S rounds' =>
      do! r := try (onSys (mgr_OpenService serviceName)) in
      match r with
      | Ok s => do! _ := ignore (onSys (svc_Close s)) in waitStopped rounds' serviceName
      | Err e => if marked e then waitStopped rounds' serviceName else mret tt
      end
  end.

Definition WaitForStop (s : ManagerService) (tunnelName : gostring) : M mgr unit :=
  do! serviceName := mpure (ServiceNameOfTunnel tunnelName) in
  do! _ := serviceManager in
  waitStopped fuel serviceName.

Definition ManagerDelete (s : ManagerService) (tunnelName : gostring) : M mgr unit :=
  if negb (isElevated s) then mfail (ErrCode ERROR_ACCESS_DENIED)
  else
    do! _ := Stop s tunnelName in
    onStore (DeleteName fuel tunnelName).

Definition stateOfService (state : Z) : TunnelState :=
  if state =? SERVICE_STOPPED then TunnelStopped
  else if state =? SERVICE_STOP_PENDING then TunnelStopping
  else if state =? SERVICE_RUNNING then TunnelStarted
  else if state =? SERVICE_START_PENDING then TunnelStarting
  else TunnelUnknown.

Definition State (s : ManagerService) (tunnelName : gostring) : M mgr TunnelState :=
  do! serviceName := mpure (ServiceNameOfTunnel tunnelName) in
  do! _ := serviceManager in
  do! opened := try (onSys (mgr_OpenService serviceName)) in
  match opened with
  | Err _ => mret TunnelStopped
  | Ok sv =>
      do! status := try (onSys (svc_Query sv)) in
      do! _ := ignore (onSys (svc_Close sv)) in
      mret (match status with Ok st => stateOfService (ss_State st) | Err _ => TunnelUnknown end)
  end.

(** The goroutine of Start: stop each tunnel, then once more those that are
    still up. *)
Fixpoint stopAll (s : ManagerService) (names : list gostring) : M mgr unit :=
  match names with
  | [] => mret tt
  | t :: names' => do! _ := ignore (Stop s t) in stopAll s names'
  end.

Fixpoint stopZombies (s : ManagerService) (names : list gostring) : M mgr unit :=
  match names with
  | [] => mret tt
  | t :: names' =>
      do! state := try (State s t) in
      do! _ := match state with
               | Ok TunnelStarted | Ok TunnelStarting => ignore (Stop s t)
               | _ => mret tt
               end in
      stopZombies s names'
  end.

Definition stopTunnels (s : ManagerService) (names : list gostring) : M mgr unit :=
  do! _ := stopAll s names in
  stopZombies s names.

(** tunneltracker.go: the loop over the tracked tunnels. *)
Fixpoint globalStateLoop (state : TunnelState) (tracked : list (gostring * TunnelState)) : TunnelState :=
  match tracked with
  | [] => state
  | (_, s) :: rest =>
      match s with
      | TunnelStarting => TunnelStarting
      | TunnelStopping => TunnelStopping
      | TunnelStarted | TunnelUnknown => globalStateLoop TunnelStarted rest
      | TunnelStopped => globalStateLoop state rest
      end
  end.

Definition trackedTunnelsGlobalState : M mgr TunnelState :=
  do! tracked := mget mg_trackedTunnels in
  mret (globalStateLoop TunnelStopped (trackedOrder tracked)).

Definition GlobalState (s : ManagerService) : M mgr TunnelState := trackedTunnelsGlobalState.

Record Tunnel : Type := mkTunnel { t_Name : gostring }.

Definition Create (s : ManagerService) (c : Config) : M mgr Tunnel :=
  if negb (isElevated s) then mfail (ErrCode ERROR_ACCESS_DENIED)
  else
    do! _ := mpure (ValidateWSTLSFiles (filesOrder (c_WSTLSFiles c)) c) in
    do! _ := onStore (SaveWSTLSFiles fuel (c_Name c) (c_WSTLSFiles c) (filesOrder (c_WSTLSFiles c))) in
    do! _ := onStore (Save fuel c true) in
    mret (mkTunnel (c_Name c)).

Definition Tunnels (s : ManagerService) : M mgr (list Tunnel) :=
  do! names := onStore (ListConfigNames fuel) in
  mret (map mkTunnel names).

(** The error of stopping one tunnel is ignored. *)
Fixpoint uninstallAll (names : list gostring) : M mgr unit :=
  match names with
  | [] => mret tt
  | n :: names' => do! _ := ignore (UninstallTunnel n) in uninstallAll names'
  end.

Definition Quit (s : ManagerService) (stopTunnelsOnQuit : bool) : M mgr bool :=
  if negb (isElevated s) then mfail (ErrCode ERROR_ACCESS_DENIED)
  else
    do! haveQuit := mget mg_haveQuit in
    if haveQuit : bool then mret true
    else
      do! _ := mmod (fun m => set_services (mg_managerServices m ∖ {[ms_id s]})
                                (set_quit true (mg_quitSignals m) m)) in
      do! _ := if stopTunnelsOnQuit then
                 do! names := onStore (ListConfigNames fuel) in uninstallAll names
               else mret tt in
      do! _ := mmod (fun m => set_quit (mg_haveQuit m) (S (mg_quitSignals m)) m) in
      mret false.

Definition getUpdateState (s : ManagerService) : M mgr UpdateState := mget mg_updateState.

Definition Update (s : ManagerService) : M mgr unit :=
  if negb (isElevated s) then mret tt else go (RunUpdate (ms_elevatedToken s)).
End Manager.
