(* ===== verification/Installation.v ===== *)
(** * Installing services: the rest of manager/install.go

    The manager's own service, and the change of the command line of a tunnel's
    service when its configuration has moved. A handle of a service that is
    opened is closed on every path, or handed to the tracker. *)

From S2P Require Import Prelude GoStrings GoNum Netip Config Name Paths WSTLS Parser Writer UAPI Driver Effects Store Updater Manager.
Local Open Scope Z_scope.

(** The settings of a service: the command line, and those install.go does not
    look at. *)
Record mgrConfig : Type := mkMgrConfig {
  mc_BinaryPathName : gostring;
  mc_others : serviceConfig
}.

Definition set_mc_BinaryPathName (p : gostring) (c : mgrConfig) : mgrConfig := mkMgrConfig p (mc_others c).

(** Functions of golang.org/x/sys/windows on settings and command lines. *)
Class ServiceSettings (W service : Type) := {
  svc_Config : service -> M W mgrConfig;
  svc_UpdateConfig : service -> mgrConfig -> M W unit;
  win_DecomposeCommandLine : gostring -> result (list gostring);
  win_ComposeCommandLine : list gostring -> gostring
}.

Definition managerServiceName : gostring := str "WireGuardWSManager".
Definition ErrManagerAlreadyRunning : goerr := ErrText "Manager already installed and running".
Definition managerServiceConfig : serviceConfig := mkServiceConfig (str "WireGuard WS Manager") true [] false.

Section Installation.
Context {W service adapter pipe : Type}.
Context `{ServiceSystem W service adapter pipe} `{!ServiceSettings W service}.
(** strings.EqualFold. *)
Context (EqualFold : gostring -> gostring -> bool) (fuel : nat).

Abbreviation mgr := (mgr W service adapter).

(** What becomes of a manager service that is there: [true] when another
    program has just started it. *)
Definition replaceManager (s : service) : M mgr bool :=
  do! status := try (onSys (svc_Query s)) in
  match status with
  | Err e => do! _ := ignore (onSys (svc_Close s)) in mfail e
  | Ok st =>
      if negb (ss_State st =? SERVICE_STOPPED) then
        do! _ := ignore (onSys (svc_Close s)) in
        if ss_State st =? SERVICE_START_PENDING then mret true else mfail ErrManagerAlreadyRunning
      else
        do! deleted := try (onSys (svc_Delete s)) in
        do! _ := ignore (onSys (svc_Close s)) in
        match deleted with
        | Err e => mfail e
        | Ok _ => do! _ := waitDeleted fuel managerServiceName in mret false
        end
  end.

Definition createManager (path : gostring) : M mgr unit :=
  do! s := onSys (mgr_CreateService managerServiceName path managerServiceConfig [str "/managerservice"]) in
  do! _ := ignore (onSys (svc_Start s)) in
  onSys (svc_Close s).

Definition InstallManager : M mgr unit :=
  do! _ := serviceManager in
  do! path := onSys os_Executable in
  do! old := try (onSys (mgr_OpenService managerServiceName)) in
  do! started := match old with Ok s => replaceManager s | Err _ => mret false end in
  if started : bool then mret tt else createManager path.

Definition UninstallManager : M mgr unit :=
  do! _ := serviceManager in
  do! s := onSys (mgr_OpenService managerServiceName) in
  do! _ := ignore (onSys (svc_ControlStop s)) in
  do! deleted := try (onSys (svc_Delete s)) in
  do! closed := try (onSys (svc_Close s)) in
  match deleted with
  | Err e => mfail e
  | Ok _ => mpure closed
  end.

(** The arguments of a tunnel service of this program for the old path, with
    the new one in its place. *)
Definition movedArguments (exePath oldPath newPath : gostring) (args : list gostring) : option (list gostring) :=
  match args with
  | [a0; a1; a2] =>
      if negb (EqualFold a0 exePath) || negb (bool_decide (a1 = str "/tunnelservice"))
         || negb (EqualFold a2 oldPath)
      then None else Some [a0; a1; newPath]
  | _ => None
  end.

Definition updateCommandLine (s : service) (oldPath newPath : gostring) : M mgr unit :=
  do! config := onSys (svc_Config s) in
  do! exePath := onSys os_Executable in
  match win_DecomposeCommandLine (mc_BinaryPathName config) with
  | Err _ => mret tt
  | Ok args =>
      match movedArguments exePath oldPath newPath args with
      | None => mret tt
      | Some args' => onSys (svc_UpdateConfig s (set_mc_BinaryPathName (win_ComposeCommandLine args') config))
      end
  end.

(** The error is the one that is logged; the handle is closed by a deferred
    call. *)
Definition changeTunnelServiceConfigFilePath (name oldPath newPath : gostring) : M mgr unit :=
  do! _ := serviceManager in
  do! serviceName := mpure (ServiceNameOfTunnel name) in
  do! opened := try (onSys (mgr_OpenService serviceName)) in
  match opened with
  | Err e => if bool_decide (e = ErrCode ERROR_SERVICE_DOES_NOT_EXIST) then mret tt else mfail e
  | Ok s =>
      do! err := try (updateCommandLine s oldPath newPath) in
      do! _ := ignore (onSys (svc_Close s)) in
      mpure err
  end.
End Installation.

(** ** Handles *)

(** What the service control manager has been told to do, with the name of the
    service. *)
Inductive scmCall : Type :=
  | ScmCreated (name path : gostring) (c : serviceConfig) (args : list gostring)
  | ScmDeleted (name : gostring)
  | ScmStarted (name : gostring)
  | ScmStopped (name : gostring)
  | ScmUpdated (name : gostring) (c : mgrConfig).

Section HandleLaws.
Context {W service adapter pipe : Type}.
Context `{ServiceSystem W service adapter pipe} `{!ServiceSettings W service}.
(** The handles of services that are open, each with the name it was opened under,
    the calls that were done, and the path of the running program. *)
Context (opened : W -> list (service * gostring)) (done : W -> list scmCall) (executable : gostring).

(** A call that opens no handle, one that opens one, and one that acts on the
    handle of a service, with what it adds to the calls that were done when it
    succeeds. *)
Definition leaves {A} (f : M W A) : Prop :=
  forall w r w', f w = (r, w') -> opened w' ≡ₚ opened w /\ done w' = done w.
Definition opens (n : gostring) (f : M W service) (c : list scmCall) : Prop :=
  forall w r w', f w = (r, w') -> match r with
    | Ok s => opened w' ≡ₚ (s, n) :: opened w /\ done w' = done w ++ c
    | Err _ => opened w' ≡ₚ opened w /\ done w' = done w
    end.
Definition acts {A} (s : service) (f : M W A) (c : gostring -> list scmCall) : Prop :=
  forall n w r w', (s, n) ∈ opened w -> f w = (r, w') -> opened w' ≡ₚ opened w
    /\ done w' = done w ++ match r with Ok _ => c n | Err _ => [] end.

Class HandleLaws := {
  hl_Connect : leaves mgr_Connect;
  hl_Executable : leaves os_Executable;
  hl_path : forall w p w', os_Executable w = (Ok p, w') -> p = executable;
  hl_OpenService : forall n, opens n (mgr_OpenService n) [];
  hl_CreateService : forall n p c a, opens n (mgr_CreateService n p c a) [ScmCreated n p c a];
  hl_Query : forall s, acts s (svc_Query s) (fun _ => []);
  hl_Config : forall s, acts s (svc_Config s) (fun _ => []);
  hl_Delete : forall s, acts s (svc_Delete s) (fun n => [ScmDeleted n]);
  hl_Start : forall s, acts s (svc_Start s) (fun n => [ScmStarted n]);
  hl_ControlStop : forall s, acts s (svc_ControlStop s) (fun n => [ScmStopped n]);
  hl_UpdateConfig : forall s c, acts s (svc_UpdateConfig s c) (fun n => [ScmUpdated n c]);
  (** A handle that is open is closed, whatever the call returns. *)
  hl_Close : forall s n w r w' l, svc_Close s w = (r, w') -> opened w ≡ₚ (s, n) :: l -> opened w' ≡ₚ l /\ done w' = done w
}.
End HandleLaws.

Section Handles.
Context {W service adapter pipe : Type}.
Context `{ServiceSystem W service adapter pipe} `{!ServiceSettings W service}.
Context (opened : W -> list (service * gostring)) (done : W -> list scmCall) (executable : gostring).
Context `{!HandleLaws opened done executable}.
Context (EqualFold : gostring -> gostring -> bool) (fuel : nat).

Abbreviation mgr := (mgr W service adapter).
Abbreviation worldOf m := (st_sys (mg_store m)).

(** The state of the handles and the calls: the handles open, the calls done
    and the goroutines started. *)
Definition holding (l : list (service * gostring)) (c : list scmCall) (g : list (task service)) (m : mgr) : Prop :=
  opened (worldOf m) ≡ₚ l /\ done (worldOf m) = c /\ mg_started m = g.

(** A program that ends, from a state, in one of some states. *)
Definition yields {A} (l : list (service * gostring)) (c : list scmCall) (g : list (task service)) (f : M mgr A)
    (Q : result A -> list (service * gostring) -> list scmCall -> list (task service) -> Prop) : Prop :=
  forall m r m', holding l c g m -> f m = (r, m') -> exists l' c' g', holding l' c' g' m' /\ Q r l' c' g'.

Lemma yields_weaken {A} l c g (f : M mgr A) (Q Q' : _ -> _ -> _ -> _ -> Prop) :
  yields l c g f Q -> (forall r l' c' g', Q r l' c' g' -> Q' r l' c' g') -> yields l c g f Q'.
Proof. intros Hf HQ m r m' Hm E. destruct (Hf m r m' Hm E) as (l' & c' & g' & Hh & Hq). naive_solver. Qed.

Lemma yields_pure {A} l c g (r : result A) (Q : _ -> _ -> _ -> _ -> Prop) : Q r l c g -> yields l c g (mpure r) Q.
Proof. intros HQ m r' m' Hm [= <- <-]. eauto 6. Qed.

Lemma yields_bind {A B} l c g (f : M mgr A) (k : A -> M mgr B) (R : result A -> _ -> _ -> _ -> Prop) Q :
  yields l c g f R ->
  (forall a l' c' g', R (Ok a) l' c' g' -> yields l' c' g' (k a) Q) ->
  (forall e l' c' g', R (Err e) l' c' g' -> Q (Err e) l' c' g') ->
  yields l c g (mthen f k) Q.
Proof.
  intros Hf Hk He m r m' Hm. unfold mthen. destruct (f m) as [[a|e] m1] eqn:E;
    destruct (Hf m _ m1 Hm E) as (l1 & c1 & g1 & Hm1 & HR).
  - intros E2. exact (Hk a l1 c1 g1 HR m1 r m' Hm1 E2).
  - intros [= <- <-]. eauto 7.
Qed.

Lemma yields_pure_bind {A B} l c g (x : result A) (k : A -> M mgr B) (Q : result B -> _ -> _ -> _ -> Prop) :
  (forall a, x = Ok a -> yields l c g (k a) Q) -> (forall e, x = Err e -> Q (Err e) l c g) ->
  yields l c g (mthen (mpure x) k) Q.
Proof.
  intros Hk He m r m' Hm. unfold mthen, mpure. destruct x as [a|e]; [by apply Hk|].
  intros [= <- <-]. exists l, c, g. split; [exact Hm|by apply He].
Qed.

Lemma yields_tried {A} l c g (f : M mgr A) (Q : result (result A) -> _ -> _ -> _ -> Prop) :
  yields l c g f (fun r => Q (Ok r)) -> yields l c g (try f) Q.
Proof. intros Hf m r m' Hm. unfold try. destruct (f m) as [r1 m1] eqn:E. intros [= <- <-]. exact (Hf m r1 m1 Hm E). Qed.

Lemma yields_try_bind {A B} l c g (f : M mgr A) (k : result A -> M mgr B) (R : result A -> _ -> _ -> _ -> Prop) Q :
  yields l c g f R -> (forall a l' c' g', R a l' c' g' -> yields l' c' g' (k a) Q) -> yields l c g (mthen (try f) k) Q.
Proof.
  intros Hf Hk. eapply (yields_bind _ _ _ _ _ (fun rr l' c' g' => match rr with Ok r => R r l' c' g' | Err _ => False end)).
  - apply yields_tried. eapply yields_weaken; [exact Hf|done].
  - exact Hk.
  - done.
Qed.

Lemma yields_ignore_bind {A B} l c g (f : M mgr A) (k : unit -> M mgr B) (R : result A -> _ -> _ -> _ -> Prop) Q :
  yields l c g f R -> (forall r l' c' g', R r l' c' g' -> yields l' c' g' (k tt) Q) -> yields l c g (mthen (ignore f) k) Q.
Proof.
  intros Hf Hk m r m' Hm E. unfold ignore in E. rewrite mthen_assoc in E. revert m r m' Hm E.
  change (yields l c g (mthen (try f) (fun a => mthen ((fun _ => mret tt) a) k)) Q).
  eapply yields_try_bind; [exact Hf|]. intros a l' c' g' Ha m r m' Hm E. exact (Hk a l' c' g' Ha m r m' Hm E).
Qed.

(** Programs that leave everything as it was. *)
Definition same (l : list (service * gostring)) (c : list scmCall) (g : list (task service)) {A} : result A -> _ -> _ -> _ -> Prop :=
  fun _ l' c' g' => l' = l /\ c' = c /\ g' = g.

(** A system call. *)
Lemma yields_quiet {A} l c g (f : M W A) : leaves opened done f ->
  yields l c g (onSys f) (fun r l' c' g' => same l c g r l' c' g' /\ exists w w', f w = (r, w')).
Proof.
  intros Hf m r m' (Hl & Hc & Hg). unfold onSys, onStore, sys. destruct (f (worldOf m)) as [r1 w1] eqn:E.
  intros [= <- <-]. destruct (Hf _ _ _ E) as [Ho Hd]. exists l, c, g. split; [|by split; [|eauto]].
  split; [|split; [|done]]; cbn; [by rewrite Ho|by rewrite Hd].
Qed.

(** What the call answered for the service [n], in some state. *)
Definition told {A} (f : service -> M W A) (n : gostring) (r : result A) : Prop :=
  exists s w w', (s, n) ∈ opened w /\ f s w = (r, w').

Lemma yields_acts {A} s n l c g (f : service -> M W A) k :
  (forall s, acts opened done s (f s) k) ->
  yields ((s, n) :: l) c g (onSys (f s)) (fun r l' c' g' => l' = (s, n) :: l
    /\ c' = c ++ match r with Ok _ => k n | Err _ => [] end /\ g' = g /\ told f n r).
Proof.
  intros Hf m r m' (Hl & Hc & Hg). unfold onSys, onStore, sys. destruct (f s (worldOf m)) as [r1 w1] eqn:E.
  assert (Hin : (s, n) ∈ opened (worldOf m)) by (rewrite Hl; left).
  intros [= <- <-]. destruct (Hf s n _ _ _ Hin E) as [Ho Hd].
  exists ((s, n) :: l), (c ++ match r1 with Ok _ => k n | Err _ => [] end), g.
  split; [|by split_and!; [..|exists s, (worldOf m), w1]].
  split; [|split; [|done]]; cbn; [by rewrite Ho|by rewrite Hd, Hc].
Qed.

Lemma yields_opens n l c g (f : M W service) k :
  opens opened done n f k ->
  yields l c g (onSys f) (fun r l' c' g' => g' = g /\ match r with
    | Ok s => l' = (s, n) :: l /\ c' = c ++ k
    | Err _ => l' = l /\ c' = c
    end).
Proof.
  intros Hf m r m' (Hl & Hc & Hg). unfold onSys, onStore, sys. destruct (f (worldOf m)) as [r1 w1] eqn:E.
  intros [= <- <-]. specialize (Hf _ _ _ E). destruct r1 as [s|e]; destruct Hf as [Ho Hd].
  - exists ((s, n) :: l), (c ++ k), g. split; [|done]. split; [|split; [|done]]; cbn; [by rewrite Ho, Hl|by rewrite Hd, Hc].
  - exists l, c, g. split; [|done]. split; [|split; [|done]]; cbn; [by rewrite Ho|by rewrite Hd].
Qed.

Lemma yields_Close s n l c g : yields ((s, n) :: l) c g (onSys (svc_Close s)) (same l c g).
Proof.
  intros m r m' (Hl & Hc & Hg). unfold onSys, onStore, sys. destruct (svc_Close s (worldOf m)) as [r1 w1] eqn:E.
  intros [= <- <-]. destruct (hl_Close _ _ _ s n _ _ _ l E Hl) as [Ho Hd].
  exists l, c, g. split; [|done]. split; [done|]. split; [|done]. cbn. by rewrite Hd.
Qed.

Lemma serviceManager_yields l c g : yields l c g serviceManager (same l c g).
Proof.
  intros m r m' Hm. unfold serviceManager, mthen at 1, mget. destruct (mg_connected m).
  - intros [= <- <-]. by exists l, c, g.
  - unfold mthen. destruct (onSys mgr_Connect m) as [r1 m1] eqn:E.
    destruct (yields_quiet l c g _ (hl_Connect _ _ _) m r1 m1 Hm E) as (l' & c' & g' & Hm1 & (-> & -> & ->) & _).
    destruct r1; intros [= <- <-]; by exists l, c, g.
Qed.

(** The beginning of every function: the connection, and the path of the program. *)
Lemma connected_yields {B} l c g (k : unit -> M mgr B) (Q : result B -> _ -> _ -> _ -> Prop) :
  yields l c g (k tt) Q -> (forall e, Q (Err e) l c g) -> yields l c g (mthen serviceManager k) Q.
Proof.
  intros Hk He. eapply yields_bind; [apply serviceManager_yields| |].
  - by intros [] l' c' g' (-> & -> & ->).
  - intros e l' c' g' (-> & -> & ->). apply He.
Qed.
Lemma path_yields {B} l c g (k : gostring -> M mgr B) (Q : result B -> _ -> _ -> _ -> Prop) :
  yields l c g (k executable) Q -> (forall e, Q (Err e) l c g) -> yields l c g (mthen (onSys os_Executable) k) Q.
Proof.
  intros Hk He. eapply yields_bind; [apply yields_quiet, (hl_Executable _ _ _)| |].
  - intros p l' c' g' ((-> & -> & ->) & w & w' & E). by rewrite (hl_path _ _ _ _ _ _ E).
  - intros e l' c' g' ((-> & -> & ->) & _). apply He.
Qed.

Lemma waitDeleted_yields l c g rounds n : yields l c g (waitDeleted rounds n) (same l c g).
Proof.
  induction rounds as [|rounds IH]; cbn [waitDeleted]; [by apply yields_pure|].
  eapply yields_try_bind; [apply yields_opens, (hl_OpenService _ _ _ n)|].
  intros [s|e] l' c' g' [-> [-> ->]].
  - rewrite app_nil_r. eapply yields_ignore_bind; [apply yields_Close|]. by intros r l' c' g' (-> & -> & ->).
  - destruct (marked e); [exact IH|by apply yields_pure].
Qed.

(** A failure that first closes the handle. *)
Lemma close_yields {A} s n l c g (k : M mgr A) Q :
  yields l c g k Q -> yields ((s, n) :: l) c g (mthen (ignore (onSys (svc_Close s))) (fun _ => k)) Q.
Proof. intros Hk. eapply yields_ignore_bind; [apply yields_Close|]. by intros r l' c' g' (-> & -> & ->). Qed.

Lemma query_yields {B} s n l c g (k : result svcStatus -> M mgr B) Q :
  (forall st, told svc_Query n st -> yields ((s, n) :: l) c g (k st) Q) ->
  yields ((s, n) :: l) c g (mthen (try (onSys (svc_Query s))) k) Q.
Proof.
  intros Hk. eapply yields_try_bind; [apply (yields_acts s n l c g svc_Query), (hl_Query _ _ _)|].
  intros st l' c' g' (-> & -> & -> & Ht). assert (E : c ++ match st with Ok _ => [] | Err _ => [] end = c) by (destruct st; apply app_nil_r).
  rewrite E. by apply Hk.
Qed.

(** The service is deleted, or the call fails. *)
Lemma delete_yields {B} s n l c g (k : result unit -> M mgr B) Q :
  (forall u, yields ((s, n) :: l) (c ++ [ScmDeleted n]) g (k (Ok u)) Q) ->
  (forall e, told svc_Delete n (Err e) -> yields ((s, n) :: l) c g (k (Err e)) Q) ->
  yields ((s, n) :: l) c g (mthen (try (onSys (svc_Delete s))) k) Q.
Proof.
  intros Ho He. eapply yields_try_bind; [apply (yields_acts s n l c g svc_Delete), (hl_Delete _ _ _)|].
  intros [u|e] l' c' g' (-> & -> & -> & Ht); [apply Ho|]. rewrite app_nil_r. by apply He.
Qed.

Lemma wait_yields {B} n l c g (k : M mgr B) (Q : result B -> _ -> _ -> _ -> Prop) :
  yields l c g k Q -> (forall e, Q (Err e) l c g) -> yields l c g (mthen (waitDeleted fuel n) (fun _ => k)) Q.
Proof.
  intros Hk He. eapply yields_bind; [apply waitDeleted_yields| |].
  - by intros u l' c' g' (-> & -> & ->).
  - intros e l' c' g' (-> & -> & ->). apply He.
Qed.

(** An old service is out of use: reported to be stopped, or already marked for
    deletion. *)
Definition unused (n : gostring) : Prop :=
  (exists st, told svc_Query n (Ok st) /\ ss_State st = SERVICE_STOPPED)
  \/ told svc_Query n (Err (ErrCode ERROR_SERVICE_MARKED_FOR_DELETE)).
(** Whether the old service [n] was deleted. *)
Definition maybeDeleted (n : gostring) (c c' : list scmCall) : Prop := c' = c \/ (c' = c ++ [ScmDeleted n] /\ unused n).

Lemma replaceManager_yields s l c g :
  yields ((s, managerServiceName) :: l) c g (replaceManager fuel s) (fun r l' c' g' => l' = l /\ g' = g
    /\ maybeDeleted managerServiceName c c' /\ (r = Ok true -> c' = c)).
Proof.
  unfold replaceManager, maybeDeleted. apply query_yields. intros [st|e] Ht; [|apply close_yields, yields_pure; naive_solver].
  destruct (Z.eqb_spec (ss_State st) SERVICE_STOPPED) as [Hst|Hst]; cbn [negb].
  - assert (Hu : unused managerServiceName) by (left; eauto). apply delete_yields.
    + intros u. apply close_yields, wait_yields; [apply yields_pure|]; naive_solver.
    + intros e _. apply close_yields, yields_pure. naive_solver.
  - apply close_yields. destruct (_ =? _); apply yields_pure; naive_solver.
Qed.

Lemma removeOld_yields s n l c g :
  yields ((s, n) :: l) c g (removeOld fuel s n) (fun r l' c' g' => l' = l /\ g' = g /\ maybeDeleted n c c').
Proof.
  unfold removeOld, maybeDeleted. apply query_yields. intros st Ht.
  eapply (yields_bind _ _ _ _ _ (fun r l' c' g' => c' = c /\ g' = g /\ match r with Ok _ => l' = (s, n) :: l /\ unused n | Err _ => l' = l end)).
  - destruct st as [st|e].
    + destruct (Z.eqb_spec (ss_State st) SERVICE_STOPPED) as [Hst|Hst]; cbn [negb]; [|apply close_yields, yields_pure; done].
      apply yields_pure. do 3 (split; [done|]). left. eauto.
    + unfold marked. case_bool_decide as Hm; cbn [negb]; [|apply close_yields, yields_pure; done].
      apply yields_pure. do 3 (split; [done|]). right. by rewrite <- Hm.
  - intros u l' c' g' (-> & -> & -> & Hu). apply delete_yields.
    + intros v. apply close_yields. eapply yields_weaken; [apply waitDeleted_yields|].
      intros r l' c' g' (-> & -> & ->). naive_solver.
    + intros e _. apply close_yields. destruct (negb (marked e)); [apply yields_pure; naive_solver|].
      eapply yields_weaken; [apply waitDeleted_yields|]. intros r l' c' g' (-> & -> & ->). naive_solver.
  - naive_solver.
Qed.

(** The manager's service is created for the running program and started, if that
    succeeds. *)
Definition managerCreated : scmCall := ScmCreated managerServiceName executable managerServiceConfig [str "/managerservice"].
Definition managerInstalled (c c' : list scmCall) : Prop :=
  exists d started, maybeDeleted managerServiceName c d /\ c' = d ++ managerCreated :: started
    /\ started ∈ [[]; [ScmStarted managerServiceName]].

Lemma createManager_yields l c d g : maybeDeleted managerServiceName c d ->
  yields l d g (createManager executable) (fun r l' c' g' => l' = l /\ g' = g
    /\ ((is_Ok r = false /\ c' = d) \/ managerInstalled c c')).
Proof.
  intros Hd. unfold createManager. eapply yields_bind; [apply yields_opens, (hl_CreateService _ _ _)| |]; [|naive_solver].
  intros s l' c' g' [-> [-> ->]]. eapply yields_ignore_bind; [apply (yields_acts s _ l _ g svc_Start), (hl_Start _ _ _)|].
  intros r l' c' g' (-> & -> & -> & _). eapply yields_weaken; [apply yields_Close|].
  intros r' l' c' g' (-> & -> & ->). do 2 (split; [done|]). rewrite <- app_assoc. cbn [app]. right.
  eexists d, _. split; [done|]. split; [done|]. destruct r; set_solver.
Qed.

Lemma InstallManager_yields l c g :
  yields l c g (InstallManager fuel) (fun r l' c' g' => l' = l /\ g' = g
    /\ (maybeDeleted managerServiceName c c' \/ managerInstalled c c')
    /\ (r = Ok tt -> c' = c \/ managerInstalled c c')).
Proof.
  unfold InstallManager. assert (Hsame : maybeDeleted managerServiceName c c) by by left.
  apply connected_yields; [|naive_solver]. apply path_yields; [|naive_solver].
  eapply yields_try_bind; [apply yields_opens, (hl_OpenService _ _ _)|]. intros old l' c' g' [-> Hold].
  eapply (yields_bind _ _ _ _ _ (fun r l' c' g' => l' = l /\ g' = g /\ maybeDeleted managerServiceName c c' /\ (r = Ok true -> c' = c))).
  - destruct old as [s|e]; destruct Hold as [-> ->].
    + rewrite app_nil_r. apply replaceManager_yields.
    + apply yields_pure. naive_solver.
  - intros [] l1 c1 g1 (-> & -> & Hd & Hc); [specialize (Hc eq_refl); subst c1; apply yields_pure; naive_solver|].
    eapply yields_weaken; [by apply (createManager_yields l c)|]. intros r l2 c2 g2 (-> & -> & Hr).
    destruct r as [[]|e]; naive_solver.
  - naive_solver.
Qed.

(** What InstallTunnel leaves: nothing of its own, or the service with its
    handle given to the tracker. *)
Definition tunnelInstalled (configPath : gostring) (l : list (service * gostring)) (c : list scmCall) (g : list (task service))
    (r : result unit) (l' : list (service * gostring)) (c' : list scmCall) (g' : list (task service)) : Prop :=
  (is_Ok r = false /\ l' = l /\ g' = g
   /\ (c' = c \/ exists name n, NameFromPath configPath = Ok name /\ ServiceNameOfTunnel name = Ok n /\ maybeDeleted n c c'))
  \/ exists name n s d, NameFromPath configPath = Ok name /\ ServiceNameOfTunnel name = Ok n
       /\ maybeDeleted n c d /\ l' = (s, n) :: l /\ g' = g ++ [TrackTunnel name s]
       /\ c' = d ++ ScmCreated n executable (tunnelServiceConfig name) [str "/tunnelservice"; configPath]
                 :: (if is_Ok r then [ScmStarted n] else []).

Lemma yields_go l c g t : yields l c g (go t) (fun r l' c' g' => r = Ok tt /\ l' = l /\ c' = c /\ g' = g ++ [t]).
Proof. intros m r m' (Hl & Hc & Hg) [= <- <-]. exists l, c, (g ++ [t]). split; [|done]. do 2 (split; [done|]). cbn. by rewrite Hg. Qed.

Lemma createTunnel_yields name n configPath l c d g :
  NameFromPath configPath = Ok name -> ServiceNameOfTunnel name = Ok n -> maybeDeleted n c d ->
  yields l d g (do! s := onSys (mgr_CreateService n executable (tunnelServiceConfig name) [str "/tunnelservice"; configPath]) in
                do! started := try (onSys (svc_Start s)) in
                do! _ := go (TrackTunnel name s) in
                mpure started) (tunnelInstalled configPath l c g).
Proof.
  intros Hn Hs Hd. eapply yields_bind; [apply yields_opens, (hl_CreateService _ _ _)| |];
    [|intros e l' c' g' (-> & -> & ->); left; naive_solver].
  intros s l' c' g' [-> [-> ->]]. eapply yields_try_bind; [apply (yields_acts s n l _ g svc_Start), (hl_Start _ _ _)|].
  intros r l' c' g' (-> & -> & -> & _). eapply yields_bind; [apply yields_go| |]; [|naive_solver].
  intros u l' c' g' (_ & -> & -> & ->). apply yields_pure. right.
  exists name, n, s, d. do 5 (split; [done|]). rewrite <- app_assoc. by destruct r.
Qed.

Lemma InstallTunnel_yields configPath l c g : yields l c g (InstallTunnel fuel configPath) (tunnelInstalled configPath l c g).
Proof.
  unfold InstallTunnel.
  assert (Hfail : forall e, tunnelInstalled configPath l c g (Err e) l c g) by (intros e; left; naive_solver).
  apply connected_yields; [|done]. apply path_yields; [|done].
  apply yields_pure_bind; [|done]. intros name En. apply yields_pure_bind; [|done]. intros n Es.
  eapply yields_try_bind; [apply yields_opens, (hl_OpenService _ _ _)|]. intros old l' c' g' [-> Hold].
  eapply (yields_bind _ _ _ _ _ (fun r l' c' g' => l' = l /\ g' = g /\ maybeDeleted n c c')).
  - destruct old as [s|e]; destruct Hold as [-> ->].
    + rewrite app_nil_r. apply removeOld_yields.
    + apply yields_pure. unfold maybeDeleted. naive_solver.
  - intros v l1 c1 g1 (-> & -> & Hd). by apply (createTunnel_yields name n).
  - intros e l1 c1 g1 (-> & -> & Hd). left. naive_solver.
Qed.

(** The removal of the service [n]: it is told to stop, if that succeeds, and
    deleted, if that does; [deleted] is what the deletion returned. *)
Definition removed (n : gostring) (c : list scmCall) (deleted : result unit) (c' : list scmCall) : Prop :=
  exists stopped, stopped ∈ [[]; [ScmStopped n]]
    /\ c' = c ++ stopped ++ match deleted with Ok _ => [ScmDeleted n] | Err _ => [] end
    /\ match deleted with Ok _ => True | Err _ => told svc_Delete n deleted end.

Lemma remove_yields s n l c g Q (k : result unit -> result unit -> M mgr unit) :
  (forall r1 r2 c', removed n c r1 c' -> yields l c' g (k r1 r2) Q) ->
  yields ((s, n) :: l) c g (do! _ := ignore (onSys (svc_ControlStop s)) in
                       do! deleted := try (onSys (svc_Delete s)) in
                       do! closed := try (onSys (svc_Close s)) in k deleted closed) Q.
Proof.
  intros Hk. eapply yields_ignore_bind; [apply (yields_acts s n l c g svc_ControlStop), (hl_ControlStop _ _ _)|].
  intros r l' c' g' (-> & -> & -> & _).
  assert (Hs : match r with Ok _ => [ScmStopped n] | Err _ => [] end ∈ [[]; [ScmStopped n]]) by (destruct r; set_solver).
  apply delete_yields; [intros u|intros e He]; (eapply yields_try_bind; [apply yields_Close|]);
    intros r2 l2 c2 g2 (-> & -> & ->); apply Hk; eexists; (split; [exact Hs|]); rewrite <- ?app_assoc, ?app_nil_r; done.
Qed.

Lemma UninstallManager_yields l c g :
  yields l c g UninstallManager (fun r l' c' g' => l' = l /\ g' = g
    /\ (c' = c \/ exists d, removed managerServiceName c d c') /\ (r = Ok tt -> removed managerServiceName c (Ok tt) c')).
Proof.
  unfold UninstallManager. apply connected_yields; [|naive_solver].
  eapply yields_bind; [apply yields_opens, (hl_OpenService _ _ _)| |]; [|naive_solver].
  intros s l' c' g' [-> [-> ->]]. rewrite app_nil_r. apply remove_yields. intros r1 r2 c' Hd.
  destruct r1 as [[]|]; apply yields_pure; naive_solver.
Qed.

Lemma UninstallTunnel_yields name l c g :
  yields l c g (UninstallTunnel name) (fun r l' c' g' => l' = l /\ g' = g
    /\ (c' = c \/ exists n d, ServiceNameOfTunnel name = Ok n /\ removed n c d c')
    /\ (r = Ok tt -> exists n d, ServiceNameOfTunnel name = Ok n /\ removed n c d c'
          /\ (d = Ok tt \/ d = Err (ErrCode ERROR_SERVICE_MARKED_FOR_DELETE)))).
Proof.
  unfold UninstallTunnel. apply connected_yields; [|naive_solver]. apply yields_pure_bind; [|naive_solver]. intros n Hn.
  eapply yields_bind; [apply yields_opens, (hl_OpenService _ _ _)| |]; [|naive_solver].
  intros s l' c' g' [-> [-> ->]]. rewrite app_nil_r. apply remove_yields. intros r1 r2 c' Hd.
  destruct r1 as [[]|e]; [apply yields_pure; naive_solver|]. unfold marked. case_bool_decide as Hm; cbn [negb]; apply yields_pure; [|naive_solver].
  subst e. naive_solver.
Qed.

(** The settings with the new path, of a service of this program that had the
    old one. *)
Definition moved (oldPath newPath : gostring) (old new : mgrConfig) : Prop :=
  exists a0 a2, win_DecomposeCommandLine (mc_BinaryPathName old) = Ok [a0; str "/tunnelservice"; a2]
    /\ EqualFold a0 executable = true /\ EqualFold a2 oldPath = true
    /\ new = set_mc_BinaryPathName (win_ComposeCommandLine [a0; str "/tunnelservice"; newPath]) old.

Lemma movedArguments_Some exe oldPath newPath args args' :
  movedArguments EqualFold exe oldPath newPath args = Some args' ->
  exists a0 a2, args = [a0; str "/tunnelservice"; a2] /\ EqualFold a0 exe = true /\ EqualFold a2 oldPath = true
    /\ args' = [a0; str "/tunnelservice"; newPath].
Proof.
  destruct args as [|a0 [|a1 [|a2 [|]]]]; try done. cbn [movedArguments].
  destruct (EqualFold a0 exe) eqn:E0; [|done]. case_bool_decide; [|done]. subst a1.
  destruct (EqualFold a2 oldPath) eqn:E2; [|done]. cbn. intros [= <-]. eauto 8.
Qed.

(** The service [n] had the settings [old], as it answered, and got them with the
    new path. *)
Definition updated (n oldPath newPath : gostring) (c c' : list scmCall) : Prop :=
  exists old new, told svc_Config n (Ok old) /\ moved oldPath newPath old new /\ c' = c ++ [ScmUpdated n new].

Lemma updateCommandLine_yields s n oldPath newPath l c g :
  yields ((s, n) :: l) c g (updateCommandLine EqualFold s oldPath newPath) (fun r l' c' g' => l' = (s, n) :: l /\ g' = g
    /\ (c' = c \/ updated n oldPath newPath c c')).
Proof.
  unfold updateCommandLine. eapply yields_bind; [apply (yields_acts s n l c g svc_Config), (hl_Config _ _ _)| |];
    [|intros e l' c' g' (-> & -> & -> & _); rewrite app_nil_r; naive_solver].
  intros config l' c' g' (-> & -> & -> & Ht). rewrite app_nil_r. apply path_yields; [|naive_solver].
  destruct (win_DecomposeCommandLine (mc_BinaryPathName config)) as [args|e] eqn:Ea; [|apply yields_pure; naive_solver].
  destruct (movedArguments EqualFold executable oldPath newPath args) as [args'|] eqn:Em; [|apply yields_pure; naive_solver].
  apply movedArguments_Some in Em as (a0 & a2 & -> & H0' & H2 & ->).
  eapply yields_weaken; [apply (yields_acts s n l c g (fun s => svc_UpdateConfig s _)); intros s'; apply (hl_UpdateConfig _ _ _)|].
  intros r l' c' g' (-> & -> & -> & _). do 2 (split; [done|]). destruct r; [right|left; by rewrite app_nil_r].
  eexists config, _. split; [done|]. split; [|done]. by exists a0, a2.
Qed.

Lemma changePath_yields name oldPath newPath l c g :
  yields l c g (changeTunnelServiceConfigFilePath EqualFold name oldPath newPath) (fun r l' c' g' => l' = l /\ g' = g
    /\ (c' = c \/ exists n, ServiceNameOfTunnel name = Ok n /\ updated n oldPath newPath c c')).
Proof.
  unfold changeTunnelServiceConfigFilePath. apply connected_yields; [|naive_solver].
  apply yields_pure_bind; [|naive_solver]. intros n Hn.
  eapply yields_try_bind; [apply yields_opens, (hl_OpenService _ _ _)|].
  intros [s|e] l' c' g' [-> [-> ->]]; [|case_bool_decide; apply yields_pure; naive_solver].
  rewrite app_nil_r.
  eapply yields_try_bind; [apply updateCommandLine_yields|]. intros r l' c' g' (-> & -> & Hc').
  apply close_yields, yields_pure. naive_solver.
Qed.

Lemma holding_self m : holding (opened (worldOf m)) (done (worldOf m)) (mg_started m) m.
Proof. done. Qed.

Lemma yields_run {A} (f : M mgr A) m r m' (Q : result A -> _ -> _ -> _ -> Prop) :
  yields (opened (worldOf m)) (done (worldOf m)) (mg_started m) f Q -> f m = (r, m') ->
  exists l', opened (worldOf m') ≡ₚ l' /\ Q r l' (done (worldOf m')) (mg_started m').
Proof.
  intros Hf E. destruct (Hf m r m' (holding_self m) E) as (l' & c' & g' & (Hl & <- & <-) & HQ). eauto.
Qed.

(** C19: A run of a function of install.go leaves no handle of a service open that was
    not open before, except that InstallTunnel, once it has created the service,
    gives its handle to the tracker it starts, whether or not the service starts.
    Installing the manager or a tunnel creates the service of its name for the
    running program with the arguments of its kind, after deleting at most the
    service of that name, and that only when it was reported stopped (or, for a
    tunnel, marked for deletion); it is then started at most. A success of
    InstallManager without a creation changed nothing. A removal tells the
    service of the manager or of the tunnel to stop and deletes it and no other;
    after a success it was deleted, or, for a tunnel, marked for deletion already.
    The command line of a tunnel's service is changed only when it was this
    program's with the old path, and then only in that path. *)
Theorem install_handles (m : mgr) :
  let same l := l ≡ₚ opened (worldOf m) in
  let c := done (worldOf m) in
  (forall r m', InstallManager fuel m = (r, m') ->
     same (opened (worldOf m')) /\ mg_started m' = mg_started m
     /\ (maybeDeleted managerServiceName c (done (worldOf m')) \/ managerInstalled c (done (worldOf m')))
     /\ (r = Ok tt -> done (worldOf m') = c \/ managerInstalled c (done (worldOf m'))))
  /\ (forall configPath r m', InstallTunnel fuel configPath m = (r, m') ->
     exists l', opened (worldOf m') ≡ₚ l'
       /\ tunnelInstalled configPath (opened (worldOf m)) c (mg_started m) r l' (done (worldOf m')) (mg_started m'))
  /\ (forall r m', UninstallManager m = (r, m') ->
     same (opened (worldOf m')) /\ mg_started m' = mg_started m
     /\ (done (worldOf m') = c \/ exists d, removed managerServiceName c d (done (worldOf m')))
     /\ (r = Ok tt -> removed managerServiceName c (Ok tt) (done (worldOf m'))))
  /\ (forall name r m', UninstallTunnel name m = (r, m') ->
     same (opened (worldOf m')) /\ mg_started m' = mg_started m
     /\ (done (worldOf m') = c \/ exists n d, ServiceNameOfTunnel name = Ok n /\ removed n c d (done (worldOf m')))
     /\ (r = Ok tt -> exists n d, ServiceNameOfTunnel name = Ok n /\ removed n c d (done (worldOf m'))
          /\ (d = Ok tt \/ d = Err (ErrCode ERROR_SERVICE_MARKED_FOR_DELETE))))
  /\ (forall name oldPath newPath r m', changeTunnelServiceConfigFilePath EqualFold name oldPath newPath m = (r, m') ->
     same (opened (worldOf m')) /\ mg_started m' = mg_started m
     /\ (done (worldOf m') = c
         \/ exists n, ServiceNameOfTunnel name = Ok n /\ updated n oldPath newPath c (done (worldOf m')))).
Proof.
  repeat split_and!.
  - intros r m' E. destruct (yields_run _ _ _ _ _ (InstallManager_yields _ _ _) E) as (l' & Hl & -> & Hrest). by split.
  - intros p r m' E. exact (yields_run _ _ _ _ _ (InstallTunnel_yields p _ _ _) E).
  - intros r m' E. destruct (yields_run _ _ _ _ _ (UninstallManager_yields _ _ _) E) as (l' & Hl & -> & Hrest). by split.
  - intros n r m' E. destruct (yields_run _ _ _ _ _ (UninstallTunnel_yields n _ _ _) E) as (l' & Hl & -> & Hrest). by split.
  - intros n o p r m' E. destruct (yields_run _ _ _ _ _ (changePath_yields n o p _ _ _) E) as (l' & Hl & -> & Hrest). by split.
Qed.
End Handles.
