(* ===== verification/IPC.v ===== *)
(** * The manager's protocol: manager/ipc_server.go and ipc_client.go

    Client and server exchange values with encoding/gob. A stream is the list of
    the values in flight; decoding takes the next one, and fails when it is of
    another kind than the variable. The client blocks in its first decode, which
    is when the server serves the request. Events are streams of their own. *)

From S2P Require Import Prelude GoStrings GoNum Netip Config Name Paths WSTLS Parser Writer UAPI Driver Effects Store Updater Manager.
Local Open Scope Z_scope.

(** ** Values on the wire *)

Inductive gobval : Type :=
  | GInt (z : Z)
  | GUint (z : Z)
  | GBool (b : bool)
  | GString (s : gostring)
  | GConfig (c : Config)
  | GTunnel (t : Tunnel)
  | GTunnels (l : list Tunnel).

(** The kinds gob sends without describing their type first. *)
Definition basicKind (v : gobval) : bool :=
  match v with GInt _ | GUint _ | GBool _ | GString _ => true | _ => false end.

Definition TunnelStateCode (s : TunnelState) : Z :=
  match s with
  | TunnelUnknown => 0 | TunnelStarted => 1 | TunnelStopped => 2 | TunnelStarting => 3 | TunnelStopping => 4
  end.

Definition UpdateStateCode (s : UpdateState) : Z :=
  match s with
  | UpdateStateUnknown => 0 | UpdateStateFoundUpdate => 1 | UpdateStateUpdatesDisabledUnofficialBuild => 2
  end.

Inductive MethodType : Type :=
  | StoredConfigMethodType | RuntimeConfigMethodType | StartMethodType | StopMethodType
  | WaitForStopMethodType | DeleteMethodType | StateMethodType | GlobalStateMethodType | CreateMethodType
  | TunnelsMethodType | QuitMethodType | UpdateStateMethodType | UpdateMethodType.

Definition MethodTypes : list MethodType :=
  [StoredConfigMethodType; RuntimeConfigMethodType; StartMethodType; StopMethodType;
   WaitForStopMethodType; DeleteMethodType; StateMethodType; GlobalStateMethodType; CreateMethodType;
   TunnelsMethodType; QuitMethodType; UpdateStateMethodType; UpdateMethodType].

Definition MethodCode (m : MethodType) : Z :=
  match m with
  | StoredConfigMethodType => 0 | RuntimeConfigMethodType => 1 | StartMethodType => 2 | StopMethodType => 3
  | WaitForStopMethodType => 4 | DeleteMethodType => 5 | StateMethodType => 6 | GlobalStateMethodType => 7
  | CreateMethodType => 8 | TunnelsMethodType => 9 | QuitMethodType => 10 | UpdateStateMethodType => 11
  | UpdateMethodType => 12
  end.

Definition methodOf (z : Z) : option MethodType := find (fun m => MethodCode m =? z) MethodTypes.

(** The text of an error; every error has one. *)
Class ErrorTexts := {
  errText : goerr -> gostring;
  errText_nonempty : forall e, errText e <> []
}.

(** ** Connections *)

Record session (S : Type) : Type := mkSession {
  se_mgr : S;
  se_toServer : list gobval;
  se_toClient : list gobval;
  se_broken : bool
}.
Arguments mkSession {S}.
Arguments se_mgr {S}.
Arguments se_toServer {S}.
Arguments se_toClient {S}.
Arguments se_broken {S}.

Definition EOF : goerr := ErrText "EOF".
Definition brokenPipe : goerr := ErrCode 109.
Definition mismatch : goerr := ErrText "gob: type mismatch".

Section Wire.
Context {S : Type}.
Abbreviation session := (session S).

(** The server's end. *)
Definition recv : M session gobval :=
  fun s => match se_toServer s with
           | [] => (Err EOF, s)
           | v :: rest => (Ok v, mkSession (se_mgr s) rest (se_toClient s) (se_broken s))
           end.
Definition send (v : gobval) : M session unit :=
  fun s => if se_broken s then (Err brokenPipe, s)
           else (Ok tt, mkSession (se_mgr s) (se_toServer s) (se_toClient s ++ [v]) (se_broken s)).

(** The client's end: [turn] is what the server does while the client waits. *)
Definition rpcEncode (v : gobval) : M session unit :=
  fun s => if se_broken s then (Err brokenPipe, s)
           else (Ok tt, mkSession (se_mgr s) (se_toServer s ++ [v]) (se_toClient s) (se_broken s)).
Definition rpcDecode (turn : M session unit) : M session gobval :=
  fun s => let s := match se_toClient s with [] => (turn s).2 | _ => s end in
           match se_toClient s with
           | [] => (Err EOF, s)
           | v :: rest => (Ok v, mkSession (se_mgr s) (se_toServer s) rest (se_broken s))
           end.

Definition asInt (v : gobval) : M session Z := match v with GInt z => mret z | _ => mfail mismatch end.
Definition asUint (v : gobval) : M session Z := match v with GUint z => mret z | _ => mfail mismatch end.
Definition asBool (v : gobval) : M session bool := match v with GBool b => mret b | _ => mfail mismatch end.
Definition asString (v : gobval) : M session gostring := match v with GString s => mret s | _ => mfail mismatch end.
Definition asConfig (v : gobval) : M session Config := match v with GConfig c => mret c | _ => mfail mismatch end.
Definition asTunnel (v : gobval) : M session Tunnel := match v with GTunnel t => mret t | _ => mfail mismatch end.
Definition asTunnels (v : gobval) : M session (list Tunnel) :=
  match v with GTunnels l => mret l | _ => mfail mismatch end.

(** A method of the server, whose error is a value to send. *)
Definition call {A} (f : M S A) : M session (result A) :=
  fun s => let '(r, m) := f (se_mgr s) in (Ok r, mkSession m (se_toServer s) (se_toClient s) (se_broken s)).
End Wire.

Definition emptyConfig : Config := mkConfig [] emptyInterface [] ∅ [].

Section Protocol.
Context {W handle service adapter pipe : Type}.
Context `{FileSystem W handle} `{ServiceSystem W service adapter pipe} `{UnicodeTables} `{NetURL} `{ErrorTexts}.
Context (decoders : list (gostring -> option gostring)) (fuel : nat).
Context (trackedOrder : gmap gostring TunnelState -> list (gostring * TunnelState))
  (filesOrder : gmap gostring gostring -> list (gostring * gostring)).

Abbreviation mgr := (Manager.mgr W service adapter).
Abbreviation session := (IPC.session mgr).

Definition errToString {A} (r : result A) : gostring := match r with Ok _ => [] | Err e => errText e end.

Definition orZero {A} (zero : A) (r : result A) : A := match r with Ok a => a | Err _ => zero end.

Definition recvString : M session gostring := do! v := recv in asString v.

(** ** The server: one turn of the loop of ServeConn

    An error ends the loop. *)
Definition serveOne (s : ManagerService) : M session unit :=
  do! v := recv in
  do! z := asInt v in
  match methodOf z with
  | Some StoredConfigMethodType =>
      do! tunnelName := recvString in
      do! r := call (StoredConfig decoders fuel s tunnelName) in
      do! _ := send (GConfig (orZero emptyConfig r)) in
      send (GString (errToString r))
  | Some RuntimeConfigMethodType =>
      do! tunnelName := recvString in
      do! r := call (RuntimeConfig decoders fuel s tunnelName) in
      do! _ := send (GConfig (orZero emptyConfig r)) in
      send (GString (errToString r))
  | Some StartMethodType =>
      do! tunnelName := recvString in
      do! r := call (Start decoders fuel trackedOrder s tunnelName) in
      send (GString (errToString r))
  | Some StopMethodType =>
      do! tunnelName := recvString in
      do! r := call (Stop decoders fuel s tunnelName) in
      send (GString (errToString r))
  | Some WaitForStopMethodType =>
      do! tunnelName := recvString in
      do! r := call (WaitForStop fuel s tunnelName) in
      send (GString (errToString r))
  | Some DeleteMethodType =>
      do! tunnelName := recvString in
      do! r := call (ManagerDelete decoders fuel s tunnelName) in
      send (GString (errToString r))
  | Some StateMethodType =>
      do! tunnelName := recvString in
      do! r := call (State s tunnelName) in
      do! _ := send (GInt (TunnelStateCode (orZero TunnelUnknown r))) in
      send (GString (errToString r))
  | Some GlobalStateMethodType =>
      do! r := call (GlobalState trackedOrder s) in
      send (GInt (TunnelStateCode (orZero TunnelUnknown r)))
  | Some CreateMethodType =>
      do! v := recv in
      do! c := asConfig v in
      do! r := call (Create fuel filesOrder s c) in
      do! _ := send (GTunnel (orZero (mkTunnel []) r)) in
      send (GString (errToString r))
  | Some TunnelsMethodType =>
      do! r := call (Tunnels fuel s) in
      do! _ := send (GTunnels (orZero [] r)) in
      send (GString (errToString r))
  | Some QuitMethodType =>
      do! v := recv in
      do! stopTunnelsOnQuit := asBool v in
      do! r := call (Quit fuel s stopTunnelsOnQuit) in
      do! _ := send (GBool (orZero false r)) in
      send (GString (errToString r))
  | Some UpdateStateMethodType =>
      do! r := call (getUpdateState s) in
      send (GUint (UpdateStateCode (orZero UpdateStateUnknown r)))
  | Some UpdateMethodType =>
      do! _ := call (Update s) in
      mret tt
  | None => mfail mismatch
  end.

(** The loop: each round takes a value, so the values bound the rounds. *)
Fixpoint serveLoop (rounds : nat) (s : ManagerService) (st : session) : session :=
  match rounds with
  | O => st
  | S rounds' => match serveOne s st with
                 | (Ok _, st') => serveLoop rounds' s st'
                 | (Err _, st') => st'
                 end
  end.

Definition ServeConn (s : ManagerService) (st : session) : session :=
  serveLoop (S (length (se_toServer st))) s st.

(** ** The client

    A call returns its value and the text of the server's error, if any; an
    error of the model is one of the connection. *)
Context (server : ManagerService).

Abbreviation turn := (serveOne server).
Abbreviation reply A := (A * option gostring)%type.

Definition rpcDecodeError : M session (option gostring) :=
  do! v := rpcDecode turn in
  do! text := asString v in
  mret (match text with [] => None | _ => Some text end).

Definition clientStoredConfig (t : Tunnel) : M session (reply Config) :=
  do! _ := rpcEncode (GInt (MethodCode StoredConfigMethodType)) in
  do! _ := rpcEncode (GString (t_Name t)) in
  do! v := rpcDecode turn in
  do! c := asConfig v in
  do! err := rpcDecodeError in
  mret (c, err).

Definition clientRuntimeConfig (t : Tunnel) : M session (reply Config) :=
  do! _ := rpcEncode (GInt (MethodCode RuntimeConfigMethodType)) in
  do! _ := rpcEncode (GString (t_Name t)) in
  do! v := rpcDecode turn in
  do! c := asConfig v in
  do! err := rpcDecodeError in
  mret (c, err).

Definition clientStart (t : Tunnel) : M session (option gostring) :=
  do! _ := rpcEncode (GInt (MethodCode StartMethodType)) in
  do! _ := rpcEncode (GString (t_Name t)) in
  rpcDecodeError.

Definition clientStop (t : Tunnel) : M session (option gostring) :=
  do! _ := rpcEncode (GInt (MethodCode StopMethodType)) in
  do! _ := rpcEncode (GString (t_Name t)) in
  rpcDecodeError.

Definition clientWaitForStop (t : Tunnel) : M session (option gostring) :=
  do! _ := rpcEncode (GInt (MethodCode WaitForStopMethodType)) in
  do! _ := rpcEncode (GString (t_Name t)) in
  rpcDecodeError.

Definition clientDelete (t : Tunnel) : M session (option gostring) :=
  do! _ := rpcEncode (GInt (MethodCode DeleteMethodType)) in
  do! _ := rpcEncode (GString (t_Name t)) in
  rpcDecodeError.

Definition clientState (t : Tunnel) : M session (reply Z) :=
  do! _ := rpcEncode (GInt (MethodCode StateMethodType)) in
  do! _ := rpcEncode (GString (t_Name t)) in
  do! v := rpcDecode turn in
  do! state := asInt v in
  do! err := rpcDecodeError in
  mret (state, err).

(** The state before, and the error of the action taken on it. *)
Definition clientToggle (t : Tunnel) : M session (reply Z) :=
  do! (oldState, err) := clientState t in
  match err with
  | Some _ => mret (TunnelStateCode TunnelUnknown, err)
  | None =>
      if oldState =? TunnelStateCode TunnelStarted then
        do! err := clientStop t in mret (oldState, err)
      else if oldState =? TunnelStateCode TunnelStopped then
        do! err := clientStart t in mret (oldState, err)
      else mret (oldState, None)
  end.

Definition IPCClientGlobalState : M session Z :=
  do! _ := rpcEncode (GInt (MethodCode GlobalStateMethodType)) in
  do! v := rpcDecode turn in
  asInt v.

Definition IPCClientNewTunnel (c : Config) : M session (reply Tunnel) :=
  do! _ := rpcEncode (GInt (MethodCode CreateMethodType)) in
  do! _ := rpcEncode (GConfig c) in
  do! v := rpcDecode turn in
  do! tunnel := asTunnel v in
  do! err := rpcDecodeError in
  mret (tunnel, err).

Definition IPCClientTunnels : M session (reply (list Tunnel)) :=
  do! _ := rpcEncode (GInt (MethodCode TunnelsMethodType)) in
  do! v := rpcDecode turn in
  do! tunnels := asTunnels v in
  do! err := rpcDecodeError in
  mret (tunnels, err).

Definition IPCClientQuit (stopTunnelsOnQuit : bool) : M session (reply bool) :=
  do! _ := rpcEncode (GInt (MethodCode QuitMethodType)) in
  do! _ := rpcEncode (GBool stopTunnelsOnQuit) in
  do! v := rpcDecode turn in
  do! alreadyQuit := asBool v in
  do! err := rpcDecodeError in
  mret (alreadyQuit, err).

Definition IPCClientUpdateState : M session Z :=
  do! _ := rpcEncode (GInt (MethodCode UpdateStateMethodType)) in
  do! v := rpcDecode turn in
  asUint v.

Definition IPCClientUpdate : M session unit :=
  rpcEncode (GInt (MethodCode UpdateMethodType)).
End Protocol.

(** ** Notifications *)

Inductive NotificationType : Type :=
  | TunnelChangeNotificationType | TunnelsChangeNotificationType | ManagerStoppingNotificationType
  | UpdateFoundNotificationType | UpdateProgressNotificationType.

Definition NotificationTypes : list NotificationType :=
  [TunnelChangeNotificationType; TunnelsChangeNotificationType; ManagerStoppingNotificationType;
   UpdateFoundNotificationType; UpdateProgressNotificationType].

Definition NotificationCode (n : NotificationType) : Z :=
  match n with
  | TunnelChangeNotificationType => 0 | TunnelsChangeNotificationType => 1 | ManagerStoppingNotificationType => 2
  | UpdateFoundNotificationType => 3 | UpdateProgressNotificationType => 4
  end.

Definition notificationOf (z : Z) : option NotificationType := find (fun n => NotificationCode n =? z) NotificationTypes.

(** What the server says, and what the callbacks of the client are told: states
    as numbers, an error as its text. *)
Inductive notification : Type :=
  | TunnelChange (name : gostring) (state globalState : TunnelState) (err : gostring)
  | TunnelsChange
  | ManagerStopping
  | UpdateFoundNotice (state : UpdateState)
  | UpdateProgress (activity : gostring) (bytesDownloaded bytesTotal : Z) (err : gostring) (complete : bool).

Inductive event : Type :=
  | OnTunnelChange (name : gostring) (state globalState : Z) (err : option gostring)
  | OnTunnelsChange
  | OnManagerStopping
  | OnUpdateFound (state : Z)
  | OnUpdateProgress (activity : gostring) (bytesDownloaded bytesTotal : Z) (err : option gostring) (complete : bool).

(** The values notifyAll encodes, with an encoder of its own for each
    notification, and whether only elevated clients get them. *)
Definition notificationValues (n : notification) : list gobval :=
  match n with
  | TunnelChange name state globalState err =>
      [GInt (NotificationCode TunnelChangeNotificationType); GString name; GInt (TunnelStateCode state);
       GInt (TunnelStateCode globalState); GString err]
  | TunnelsChange => [GInt (NotificationCode TunnelsChangeNotificationType)]
  | ManagerStopping => [GInt (NotificationCode ManagerStoppingNotificationType)]
  | UpdateFoundNotice state => [GInt (NotificationCode UpdateFoundNotificationType); GUint (UpdateStateCode state)]
  | UpdateProgress activity bytesDownloaded bytesTotal err complete =>
      [GInt (NotificationCode UpdateProgressNotificationType); GString activity; GUint bytesDownloaded;
       GUint bytesTotal; GString err; GBool complete]
  end.

Definition adminOnly (n : notification) : bool :=
  match n with UpdateProgress _ _ _ _ _ => true | _ => false end.

(** What becomes of a write within the second it has: it is done, or it has timed
    out after the first [k] values, and after a part of the next one when it is
    torn. The error of a write is dropped and the stream stays open. *)
Inductive delivery : Type := WriteDone | WriteTimedOut (k : nat) (torn : bool).
Inductive piece : Type := Whole (v : gobval) | Torn.

Definition sent (n : notification) (d : delivery) : list piece :=
  match d with
  | WriteDone => map Whole (notificationValues n)
  | WriteTimedOut k torn => map Whole (take k (notificationValues n)) ++ if torn then [Torn] else []
  end.

(** A client of notifyAll: its token, and its event stream while it is open. *)
Record eventClient : Type := mkEventClient { ec_elevatedToken : Z; ec_events : option (list piece) }.

Definition notifyClient (n : notification) (d : delivery) (c : eventClient) : eventClient :=
  if (ec_elevatedToken c =? 0) && adminOnly n then c
  else mkEventClient (ec_elevatedToken c)
         (match ec_events c with Some l => Some (l ++ sent n d) | None => None end).

(** [d] is what becomes of the write to each client. *)
Definition notifyAll (n : notification) (d : nat -> delivery) (clients : list eventClient) : list eventClient :=
  imap (fun i c => notifyClient n (d i) c) clients.

Definition errOfString (s : gostring) : option gostring := match s with [] => None | _ => Some s end.

(** One turn of the loop of InitializeIPCClient: the event for the callbacks, if
    any, and the rest of the stream; None ends the loop. *)
Definition clientTurn (l : list gobval) : option (option event * list gobval) :=
  match l with
  | GInt z :: l1 =>
      match notificationOf z with
      | Some TunnelChangeNotificationType =>
          match l1 with
          | GString tunnel :: GInt state :: GInt globalState :: GString errStr :: rest =>
              Some (if (length tunnel =? 0)%nat || (state =? TunnelStateCode TunnelUnknown) then None
                    else Some (OnTunnelChange tunnel state globalState (errOfString errStr)), rest)
          | _ => None
          end
      | Some TunnelsChangeNotificationType => Some (Some OnTunnelsChange, l1)
      | Some ManagerStoppingNotificationType => Some (Some OnManagerStopping, l1)
      | Some UpdateFoundNotificationType =>
          match l1 with GUint state :: rest => Some (Some (OnUpdateFound state), rest) | _ => None end
      | Some UpdateProgressNotificationType =>
          match l1 with
          | GString activity :: GUint down :: GUint total :: GString errStr :: GBool complete :: rest =>
              Some (Some (OnUpdateProgress activity down total (errOfString errStr) complete), rest)
          | _ => None
          end
      | None => Some (None, l1)
      end
  | _ => None
  end.

Fixpoint clientEvents (rounds : nat) (l : list gobval) : list event :=
  match rounds with
  | O => []
  | S rounds' => match clientTurn l with
                 | None => []
                 | Some (e, rest) => match e with Some e => [e] | None => [] end ++ clientEvents rounds' rest
                 end
  end.

(** The values a decoder reads one after the other: what follows a torn value
    cannot be read as values. *)
Fixpoint readable (l : list piece) : list gobval :=
  match l with
  | Whole v :: l' => v :: readable l'
  | _ => []
  end.

Definition InitializeIPCClient (l : list gobval) : list event := clientEvents (length l) l.
