(* ===== verification/UpdateChecker.v ===== *)
(** * Looking for updates: manager/updatestate.go

    A goroutine of the manager asks for updates for ever. [checker] is the
    package variable, the system, and what the goroutine has done so far;
    the loop is run for a number of rounds. *)

From S2P Require Import Prelude GoStrings GoNum Netip Config Name Paths WSTLS Parser Writer UAPI Driver Effects Store Services Updater Manager IPC.
Import Updater.Updater.
Local Open Scope Z_scope.

(** Durations, in nanoseconds. *)
Definition Millisecond : Z := 1000000.
Definition Minute : Z := 60000 * Millisecond.
Definition Hour : Z := 60 * Minute.

Inductive checkEvent : Type :=
  | Checked (found : result (option UpdateFound))
  | Notified (n : notification)
  | Slept (low high duration : Z).

Record checker (W : Type) : Type := mkChecker {
  uc_world : W;
  uc_updateState : UpdateState;
  uc_events : list checkEvent
}.
Arguments mkChecker {W}.
Arguments uc_world {W}.
Arguments uc_updateState {W}.
Arguments uc_events {W}.

Section Checker.
Context {W : Type} `{UpdateSystem W} `{BootSystem W}.
(** runtime.fastrandn(n): a number below [n], zero for zero. *)
Context (fastrandn : Z -> W -> Z * W).

Abbreviation checker := (checker W).

Definition happen (e : checkEvent) (c : checker) : checker :=
  mkChecker (uc_world c) (uc_updateState c) (uc_events c ++ [e]).

(** The argument of fastrandn is a uint32. *)
Definition jitterSteps (low high : Z) : Z := Z.quot (high - low + 1) Millisecond mod 2 ^ 32.

Definition jitterSleep (low high : Z) (c : checker) : checker :=
  let '(n, w) := fastrandn (jitterSteps low high) (uc_world c) in
  happen (Slept low high (low + Millisecond * n)) (mkChecker w (uc_updateState c) (uc_events c)).

Definition IPCServerNotifyUpdateFound (state : UpdateState) (c : checker) : checker :=
  happen (Notified (UpdateFoundNotice state)) c.

(** updateState = state; IPCServerNotifyUpdateFound(updateState) *)
Definition announce (state : UpdateState) (c : checker) : checker :=
  IPCServerNotifyUpdateFound state (mkChecker (uc_world c) state (uc_events c)).

(** updater.CheckForUpdate(). *)
Definition askForUpdate (c : checker) : result (option UpdateFound) * checker :=
  let '(r, w) := CheckForUpdate (uc_world c) in
  (r, happen (Checked r) (mkChecker w (uc_updateState c) (uc_events c))).

(** The body of the loop, from the flags noError and didNotify. *)
Definition checkRound (flags : bool * bool) (c : checker) : (bool * bool) * checker :=
  let '(noError, didNotify) := flags in
  let '(r, c1) := askForUpdate c in
  match r with
  | Ok (Some _) =>
      if negb didNotify then ((noError, true), announce UpdateStateFoundUpdate c1)
      else (flags, jitterSleep (Hour - Minute * 3) (Hour + Minute * 3) c1)
  | Ok None => (flags, jitterSleep (Hour - Minute * 3) (Hour + Minute * 3) c1)
  | Err _ =>
      if negb didNotify then
        if noError then ((false, didNotify), jitterSleep (Minute * 4) (Minute * 6) c1)
        else (flags, jitterSleep (Minute * 25) (Minute * 30) c1)
      else (flags, jitterSleep (Hour - Minute * 3) (Hour + Minute * 3) c1)
  end.

Fixpoint checkRounds (rounds : nat) (flags : bool * bool) (c : checker) : checker :=
  match rounds with
  | O => c
  | S rounds' => let '(flags', c') := checkRound flags c in checkRounds rounds' flags' c'
  end.

(** [once] is what StartedAtBoot has stored. *)
Definition checkForUpdates (rounds : nat) (once : option bool) (c : checker) : checker :=
  if negb (IsRunningOfficialVersion (uc_world c))
  then announce UpdateStateUpdatesDisabledUnofficialBuild c
  else
    let '(atBoot, _) := servicesStartedAtBoot once (uc_world c) in
    checkRounds rounds (true, false) (if atBoot then jitterSleep (Minute * 2) (Minute * 5) c else c).

(** ** What the loop does *)

Context (Hrand : forall n w, 0 <= n -> 0 <= (fastrandn n w).1 /\ ((fastrandn n w).1 < n \/ (fastrandn n w).1 = 0)).

Definition isCheck (e : checkEvent) : bool := match e with Checked _ => true | _ => false end.
Definition isNotice (e : checkEvent) : bool := match e with Notified _ => true | _ => false end.
Definition foundUpdate (e : checkEvent) : bool := match e with Checked (Ok (Some _)) => true | _ => false end.

(** A sleep keeps to its bounds; these are of at least two minutes. *)
Definition inBounds (e : checkEvent) : Prop :=
  match e with Slept low high d => 2 * Minute <= low /\ low <= d <= high | _ => True end.

(** What follows a check: a sleep, or the one notice. *)
Inductive paced : bool -> list checkEvent -> bool -> Prop :=
  | paced_nil b : paced b [] b
  | paced_sleep b r low high d l b' : paced b l b' -> (b = false -> foundUpdate (Checked r) = false) ->
      paced b (Checked r :: Slept low high d :: l) b'
  | paced_notice u l b' : paced true l b' ->
      paced false (Checked (Ok (Some u)) :: Notified (UpdateFoundNotice UpdateStateFoundUpdate) :: l) b'.

Lemma paced_app b1 b2 b3 l1 l2 : paced b1 l1 b2 -> paced b2 l2 b3 -> paced b1 (l1 ++ l2) b3.
Proof. induction 1; cbn; intros Hl; [done|constructor; naive_solver..]. Qed.

Lemma jitter_bounds low high w :
  2 * Minute <= low -> low <= high <= low + 1000 * Hour ->
  inBounds (Slept low high (low + Millisecond * (fastrandn (jitterSteps low high) w).1)).
Proof.
  intros Hl Hh. assert (Hs : 0 <= jitterSteps low high <= (high - low + 1) / Millisecond).
  { unfold jitterSteps. rewrite Z.quot_div_nonneg by (unfold Millisecond; lia). split; [by apply Z.mod_pos_bound|].
    apply Z.mod_le; [apply Z.div_pos; unfold Millisecond; lia|lia]. }
  destruct (Hrand (jitterSteps low high) w) as [Hn Hlt]; [lia|].
  pose proof (Z.mul_div_le (high - low + 1) Millisecond ltac:(unfold Millisecond; lia)) as Hd.
  cbn [inBounds]. split; [done|]. unfold Millisecond in *. lia.
Qed.

(** One round of the loop: the check and what follows it. *)
Lemma checkRound_spec noError didNotify c flags' c' :
  checkRound (noError, didNotify) c = (flags', c') ->
  exists l, uc_events c' = uc_events c ++ l /\ length (List.filter isCheck l) = 1%nat /\ Forall inBounds l
    /\ paced didNotify l flags'.2
    /\ uc_updateState c' = (if flags'.2 && negb didNotify then UpdateStateFoundUpdate else uc_updateState c).
Proof.
  unfold checkRound, askForUpdate. destruct (CheckForUpdate (uc_world c)) as [r w] eqn:E.
  assert (Hsleep : forall low high f, 2 * Minute <= low -> low <= high <= low + 1000 * Hour ->
    f.2 = didNotify -> (didNotify = false -> foundUpdate (Checked r) = false) ->
    (f, jitterSleep low high (happen (Checked r) (mkChecker w (uc_updateState c) (uc_events c)))) = (flags', c') ->
    exists l, uc_events c' = uc_events c ++ l /\ length (List.filter isCheck l) = 1%nat /\ Forall inBounds l
      /\ paced didNotify l flags'.2
      /\ uc_updateState c' = (if flags'.2 && negb didNotify then UpdateStateFoundUpdate else uc_updateState c)).
  { intros low high f Hl Hh Hf Hr [= <- <-]. unfold jitterSleep. cbn [uc_world happen].
    pose proof (jitter_bounds low high w Hl Hh) as Hb. destruct (fastrandn (jitterSteps low high) w) as [n w2]. cbn [fst] in Hb.
    exists [Checked r; Slept low high (low + Millisecond * n)]. cbn [uc_events happen uc_updateState].
    rewrite <- app_assoc. do 2 (split; [done|]). split; [by rewrite Forall_cons, Forall_singleton|].
    split; [rewrite Hf; constructor; [constructor|done]|]. rewrite Hf. by destruct didNotify. }
  assert (Hm : Minute = 60000000000) by done. assert (Hh : Hour = 60 * Minute) by done.
  destruct r as [[u|]|e]; [destruct didNotify|..]; cbn [negb].
  - apply Hsleep; (lia || done).
  - intros [= <- <-]. exists [Checked (Ok (Some u)); Notified (UpdateFoundNotice UpdateStateFoundUpdate)].
    cbn [uc_events happen announce IPCServerNotifyUpdateFound uc_updateState]. rewrite <- app_assoc. do 2 (split; [done|]).
    split; [by rewrite Forall_cons, Forall_singleton|]. split; [|done]. do 2 constructor.
  - apply Hsleep; (lia || done).
  - destruct didNotify, noError; cbn [negb]; apply Hsleep; (lia || done).
Qed.

Lemma checkRounds_spec rounds noError didNotify c :
  exists l b, uc_events (checkRounds rounds (noError, didNotify) c) = uc_events c ++ l
    /\ length (List.filter isCheck l) = rounds /\ Forall inBounds l /\ paced didNotify l b
    /\ uc_updateState (checkRounds rounds (noError, didNotify) c)
       = if b && negb didNotify then UpdateStateFoundUpdate else uc_updateState c.
Proof.
  revert noError didNotify c. induction rounds as [|rounds IH]; intros noError didNotify c; cbn [checkRounds].
  - exists [], didNotify. rewrite app_nil_r. do 3 (split; [done|]). split; [constructor|]. by destruct didNotify.
  - destruct (checkRound (noError, didNotify) c) as [[noError' didNotify'] c'] eqn:E.
    destruct (checkRound_spec _ _ _ _ _ E) as (l1 & He & Hc & Hb & Hp & Hs). cbn [snd] in Hp, Hs.
    destruct (IH noError' didNotify' c') as (l2 & b & He2 & Hc2 & Hb2 & Hp2 & Hs2).
    exists (l1 ++ l2), b. rewrite He2, He, app_assoc. split; [done|].
    split; [rewrite List.filter_app, length_app; lia|]. split; [by apply Forall_app|]. split; [by eapply paced_app|].
    rewrite Hs2, Hs. assert (Hmono : didNotify' = true -> b = true).
    { intros ->. clear -Hp2. remember true as d eqn:Ed. induction Hp2; naive_solver. }
    assert (Hmono' : didNotify = true -> didNotify' = true).
    { intros ->. clear -Hp. remember true as d eqn:Ed. induction Hp; naive_solver. }
    destruct didNotify, didNotify', b; cbn; naive_solver.
Qed.

(** At most one notice, for the first update that is found. *)
Lemma paced_notices b l b' : paced b l b' ->
  length (List.filter isNotice l) = (if b' && negb b then 1 else 0)%nat /\ b' = (b || existsb foundUpdate l).
Proof.
  induction 1 as [b|b r low high d l b' Hp IH Hr|u l b' Hp IH]; cbn [List.filter isNotice existsb].
  - split; [by destruct b|by destruct b].
  - destruct IH as [IH1 IH2]. split; [done|]. destruct b; [by rewrite IH2|]. by rewrite Hr.
  - destruct IH as [IH1 IH2]. cbn in IH2. subst b'. cbn in IH1. cbn. by rewrite IH1.
Qed.

(** A build that is not official asks for no update and says so once. An
    official one that has found no update yet says nothing; it tells the clients
    once, at the first check that finds one, and keeps that state. Each sleep is
    within its bounds, and every check is followed by one of them, of two
    minutes or more, but the check that found the first update. *)
Theorem checkForUpdates_paced rounds once c :
  let c' := checkForUpdates rounds once c in
  (IsRunningOfficialVersion (uc_world c) = false ->
     uc_updateState c' = UpdateStateUpdatesDisabledUnofficialBuild
     /\ uc_events c' = uc_events c ++ [Notified (UpdateFoundNotice UpdateStateUpdatesDisabledUnofficialBuild)])
  /\ (IsRunningOfficialVersion (uc_world c) = true ->
     exists boot l b, uc_events c' = uc_events c ++ boot ++ l /\ Forall inBounds (boot ++ l)
       /\ length boot = (if (servicesStartedAtBoot once (uc_world c)).1 then 1 else 0)%nat /\ List.filter isCheck boot = []
       /\ length (List.filter isCheck l) = rounds /\ paced false l b /\ b = existsb foundUpdate l
       /\ length (List.filter isNotice (boot ++ l)) = (if b then 1 else 0)%nat
       /\ uc_updateState c' = (if b then UpdateStateFoundUpdate else uc_updateState c)).
Proof.
  cbn zeta. unfold checkForUpdates. destruct (IsRunningOfficialVersion (uc_world c)); cbn [negb]; (split; [done|]); [intros _|done].
  destruct (servicesStartedAtBoot once (uc_world c)) as [atBoot x]. cbn [fst].
  set (c1 := if atBoot then jitterSleep (Minute * 2) (Minute * 5) c else c).
  assert (H1 : exists boot, uc_events c1 = uc_events c ++ boot /\ Forall inBounds boot
    /\ length boot = (if atBoot then 1 else 0)%nat /\ List.filter isCheck boot = [] /\ List.filter isNotice boot = []
    /\ uc_updateState c1 = uc_updateState c).
  { unfold c1. destruct atBoot; [|exists []; by rewrite app_nil_r]. unfold jitterSleep.
    pose proof (jitter_bounds (Minute * 2) (Minute * 5) (uc_world c) ltac:(done) ltac:(done)) as Hb.
    destruct (fastrandn _ _) as [n w]. eexists. split; [done|]. by rewrite Forall_singleton. }
  destruct H1 as (boot & He1 & Hb1 & Hl1 & Hc1 & Hn1 & Hs1).
  destruct (checkRounds_spec rounds true false c1) as (l & b & He & Hc & Hb & Hp & Hs).
  destruct (paced_notices _ _ _ Hp) as [Hn Hf]. exists boot, l, b. rewrite He, He1, <- app_assoc. split; [done|].
  split; [by apply Forall_app|]. do 5 (split; [done|]). rewrite Hs, Hs1, List.filter_app, Hn1. cbn [app].
  rewrite Hn, andb_true_r. by destruct b.
Qed.
End Checker.
