(* ===== verification/IPCTheorems.v ===== *)
(** * The protocol carries every call and every event *)

From S2P Require Import Prelude GoStrings GoNum Netip Config Name Paths WSTLS Parser Writer UAPI Driver Effects Store Updater Manager IPC.
Local Open Scope Z_scope.

Lemma methodOf_code m : methodOf (MethodCode m) = Some m.
Proof. by destruct m. Qed.

Lemma notificationOf_code n : notificationOf (NotificationCode n) = Some n.
Proof. by destruct n. Qed.

Section Calls.
Context {W handle service adapter pipe : Type}.
Context `{FileSystem W handle} `{ServiceSystem W service adapter pipe} `{UnicodeTables} `{NetURL} `{ErrorTexts}.
Context (decoders : list (gostring -> option gostring)) (fuel : nat).
Context (trackedOrder : gmap gostring TunnelState -> list (gostring * TunnelState))
  (filesOrder : gmap gostring gostring -> list (gostring * gostring)).
Context (server : ManagerService).

Abbreviation mgr := (Manager.mgr W service adapter).
Abbreviation session := (IPC.session mgr).
Abbreviation serveOne := (serveOne decoders fuel trackedOrder filesOrder).

(** A connection with nothing in flight. *)
Definition idle (m : mgr) : session := mkSession m [] [] false.

(** The text of an error that arrives. *)
Definition errorOf {A} (r : result A) : option gostring :=
  match r with Ok _ => None | Err e => Some (errText e) end.

(** A call through the connection is the method itself: the client gets its
    value or the zero value, and its error as text, and nothing is left in
    flight. *)
Definition carries {A B} (client : M session B) (method : M mgr A) (answer : result A -> B) : Prop :=
  forall m, client (idle m) = let '(r, m') := method m in (Ok (answer r), idle m').

Lemma errorText_option e : match errText e with [] => None | _ => Some (errText e) end = Some (errText e).
Proof. pose proof (errText_nonempty e). by destruct (errText e). Qed.

Lemma errorText_match {B} e (a b : B) : match errText e with [] => a | _ :: _ => b end = b.
Proof. pose proof (errText_nonempty e). by destruct (errText e). Qed.

(** What the server does with a whole request. *)
Definition serves {A} (request : list gobval) (method : M mgr A) (values : result A -> list gobval) : Prop :=
  forall m, serveOne server (mkSession m request [] false)
    = let '(r, m') := method m in (Ok tt, mkSession m' [] (values r) false).

Ltac fields := cbn [se_toServer se_mgr se_toClient se_broken app fst snd].

Ltac serve_request :=
  let m := fresh "m" in let r := fresh "r" in let m' := fresh "m" in
  intros m; unfold IPC.serveOne, mthen at 1, recv at 1; fields;
  unfold mthen at 1, asInt at 1, mret at 1; rewrite methodOf_code;
  unfold mthen, recvString, mthen, recv; fields;
  unfold asString, asConfig, asBool, mret, call; fields;
  match goal with |- context [?f m] => destruct (f m) as [r m'] end;
  unfold send; fields; reflexivity.

(** A client that sends [request] and reads the answer. *)
Ltac run_client Hserves :=
  let m := fresh "m" in let r := fresh "r" in let m' := fresh "m" in
  intros m; unfold idle, clientStoredConfig, clientRuntimeConfig, clientStart, clientStop, clientWaitForStop,
    clientDelete, clientState, IPCClientGlobalState, IPCClientNewTunnel, IPCClientTunnels, IPCClientQuit,
    IPCClientUpdateState, mthen, rpcEncode; fields;
  unfold rpcDecodeError, mthen, rpcDecode; fields;
  rewrite (Hserves m);
  match goal with |- context [let '(_, _) := ?f m in _] => destruct (f m) as [[r|r] m'] end; fields;
  unfold asString, asConfig, asBool, asInt, asUint, asTunnel, asTunnels, mret; fields;
  cbn [orZero errToString errorOf]; rewrite ?errorText_match; reflexivity.

Ltac carry request values :=
  let Hs := fresh "Hs" in
  match goal with |- carries _ ?method _ =>
    assert (Hs : serves request method values) by serve_request
  end; run_client Hs.

(** C21: Every method, called through the connection. *)
Theorem rpc_carries t c stopTunnelsOnQuit :
  carries (clientStoredConfig decoders fuel trackedOrder filesOrder server t) (StoredConfig decoders fuel server (t_Name t))
    (fun r => (orZero emptyConfig r, errorOf r))
  /\ carries (clientRuntimeConfig decoders fuel trackedOrder filesOrder server t) (RuntimeConfig decoders fuel server (t_Name t))
    (fun r => (orZero emptyConfig r, errorOf r))
  /\ carries (clientStart decoders fuel trackedOrder filesOrder server t) (Start decoders fuel trackedOrder server (t_Name t)) errorOf
  /\ carries (clientStop decoders fuel trackedOrder filesOrder server t) (Stop decoders fuel server (t_Name t)) errorOf
  /\ carries (clientWaitForStop decoders fuel trackedOrder filesOrder server t) (WaitForStop fuel server (t_Name t)) errorOf
  /\ carries (clientDelete decoders fuel trackedOrder filesOrder server t) (ManagerDelete decoders fuel server (t_Name t)) errorOf
  /\ carries (clientState decoders fuel trackedOrder filesOrder server t) (State server (t_Name t))
    (fun r => (TunnelStateCode (orZero TunnelUnknown r), errorOf r))
  /\ carries (IPCClientGlobalState decoders fuel trackedOrder filesOrder server) (GlobalState trackedOrder server)
    (fun r => TunnelStateCode (orZero TunnelUnknown r))
  /\ carries (IPCClientNewTunnel decoders fuel trackedOrder filesOrder server c) (Create fuel filesOrder server c)
    (fun r => (orZero (mkTunnel []) r, errorOf r))
  /\ carries (IPCClientTunnels decoders fuel trackedOrder filesOrder server) (Tunnels fuel server)
    (fun r => (orZero [] r, errorOf r))
  /\ carries (IPCClientQuit decoders fuel trackedOrder filesOrder server stopTunnelsOnQuit) (Quit fuel server stopTunnelsOnQuit)
    (fun r => (orZero false r, errorOf r))
  /\ carries (IPCClientUpdateState decoders fuel trackedOrder filesOrder server) (getUpdateState server)
    (fun r => UpdateStateCode (orZero UpdateStateUnknown r)).
Proof.
  split; [carry [GInt (MethodCode StoredConfigMethodType); GString (t_Name t)]
    (fun r : result Config => [GConfig (orZero emptyConfig r); GString (errToString r)])|].
  split; [carry [GInt (MethodCode RuntimeConfigMethodType); GString (t_Name t)]
    (fun r : result Config => [GConfig (orZero emptyConfig r); GString (errToString r)])|].
  split; [carry [GInt (MethodCode StartMethodType); GString (t_Name t)]
    (fun r : result unit => [GString (errToString r)])|].
  split; [carry [GInt (MethodCode StopMethodType); GString (t_Name t)]
    (fun r : result unit => [GString (errToString r)])|].
  split; [carry [GInt (MethodCode WaitForStopMethodType); GString (t_Name t)]
    (fun r : result unit => [GString (errToString r)])|].
  split; [carry [GInt (MethodCode DeleteMethodType); GString (t_Name t)]
    (fun r : result unit => [GString (errToString r)])|].
  split; [carry [GInt (MethodCode StateMethodType); GString (t_Name t)]
    (fun r : result TunnelState => [GInt (TunnelStateCode (orZero TunnelUnknown r)); GString (errToString r)])|].
  split; [carry [GInt (MethodCode GlobalStateMethodType)]
    (fun r : result TunnelState => [GInt (TunnelStateCode (orZero TunnelUnknown r))])|].
  split; [carry [GInt (MethodCode CreateMethodType); GConfig c]
    (fun r : result Tunnel => [GTunnel (orZero (mkTunnel []) r); GString (errToString r)])|].
  split; [carry [GInt (MethodCode TunnelsMethodType)]
    (fun r : result (list Tunnel) => [GTunnels (orZero [] r); GString (errToString r)])|].
  split; [carry [GInt (MethodCode QuitMethodType); GBool stopTunnelsOnQuit]
    (fun r : result bool => [GBool (orZero false r); GString (errToString r)])|].
  carry [GInt (MethodCode UpdateStateMethodType)]
    (fun r : result UpdateState => [GUint (UpdateStateCode (orZero UpdateStateUnknown r))]).
Qed.
End Calls.

(** ** Events *)

(** What the callbacks of a client are told of a notification. *)
Definition eventOf (n : notification) : option event :=
  match n with
  | TunnelChange name state globalState err =>
      if (length name =? 0)%nat || bool_decide (state = TunnelUnknown) then None
      else Some (OnTunnelChange name (TunnelStateCode state) (TunnelStateCode globalState) (errOfString err))
  | TunnelsChange => Some OnTunnelsChange
  | ManagerStopping => Some OnManagerStopping
  | UpdateFoundNotice state => Some (OnUpdateFound (UpdateStateCode state))
  | UpdateProgress activity down total err complete =>
      Some (OnUpdateProgress activity down total (errOfString err) complete)
  end.

Lemma clientTurn_values n rest : clientTurn (notificationValues n ++ rest) = Some (eventOf n, rest).
Proof.
  destruct n; cbn [notificationValues app clientTurn]; rewrite ?notificationOf_code; try reflexivity.
  cbn [eventOf]. by destruct state.
Qed.

Lemma notificationValues_length n : (1 <= length (notificationValues n))%nat.
Proof. destruct n; cbn; lia. Qed.

Lemma clientEvents_values l tail rounds :
  (length l <= rounds)%nat ->
  clientEvents rounds (concat (map notificationValues l) ++ tail) = omap eventOf l ++ clientEvents (rounds - length l) tail.
Proof.
  revert rounds; induction l as [|n l IH]; intros rounds Hr; cbn [map concat app length].
  - by rewrite Nat.sub_0_r.
  - destruct rounds as [|rounds]; [cbn in Hr; lia|]. cbn [clientEvents]. rewrite <- (assoc_L (++)), clientTurn_values.
    rewrite IH by (cbn in Hr; lia). cbn [Nat.sub]. change (omap eventOf (n :: l)) with (match eventOf n with Some y => y :: omap eventOf l | None => omap eventOf l end).
    by destruct (eventOf n).
Qed.

Lemma concat_length_ge l : (length l <= length (concat (map notificationValues l)))%nat.
Proof.
  induction l as [|n l IH]; cbn [map concat length]; [lia|]. rewrite length_app.
  pose proof (notificationValues_length n). lia.
Qed.

(** The stream of an open client after the writes of the notifications [l]. *)
Definition notifyMany (l : list (notification * delivery)) (c : eventClient) : eventClient := foldl (fun c x => notifyClient x.1 x.2 c) c l.

(** Who is to hear of what: the progress of an update is for elevated clients only,
    everything else for all. *)
Definition hears (token : Z) (n : notification) : bool :=
  match n with
  | TunnelChange _ _ _ _ | TunnelsChange | ManagerStopping | UpdateFoundNotice _ => true
  | UpdateProgress _ _ _ _ _ => negb (token =? 0)
  end.
Definition meantFor (token : Z) (l : list (notification * delivery)) : list (notification * delivery) :=
  List.filter (fun x => hears token x.1) l.

Lemma notifyMany_stream l token s :
  notifyMany l (mkEventClient token (Some s))
  = mkEventClient token (Some (s ++ concat (map (fun x => sent x.1 x.2) (meantFor token l)))).
Proof.
  revert s; induction l as [|[n d] l IH]; intros s; cbn [notifyMany foldl meantFor List.filter fst snd].
  - by rewrite app_nil_r.
  - unfold notifyMany in IH.
    assert (notifyClient n d (mkEventClient token (Some s)) = if hears token n
      then mkEventClient token (Some (s ++ sent n d)) else mkEventClient token (Some s)) as ->.
    { unfold notifyClient. cbn [ec_elevatedToken ec_events]. destruct n; cbn; rewrite ?andb_false_r, ?andb_true_r; try done.
      by destruct (token =? 0). }
    destruct (hears token n); [|apply IH]. cbn [map concat fst snd]. rewrite IH. by rewrite <- (assoc_L (++)).
Qed.

(** A write that leaves the stream in order: it was done, or nothing of it was. *)
Definition inOrder (x : notification * delivery) : bool :=
  match x.2 with WriteDone => true | WriteTimedOut k torn => (k =? 0)%nat && negb torn end.
Definition isDone (x : notification * delivery) : bool := match x.2 with WriteDone => true | WriteTimedOut _ _ => false end.
Fixpoint untilBroken (l : list (notification * delivery)) : list (notification * delivery) :=
  match l with
  | x :: l' => if inOrder x then x :: untilBroken l' else []
  | [] => []
  end.
Definition arrived (l : list (notification * delivery)) : list notification := map fst (List.filter isDone l).

Lemma readable_app vs l : readable (map Whole vs ++ l) = vs ++ readable l.
Proof. induction vs as [|v vs IH]; cbn; [done|by rewrite IH]. Qed.
Lemma sent_inOrder x : inOrder x = true -> sent x.1 x.2 = map Whole (if isDone x then notificationValues x.1 else []).
Proof. destruct x as [n []]; cbn; [done|]. unfold inOrder. cbn. intros [->%Nat.eqb_eq Ht]%andb_prop. by destruct torn. Qed.

Lemma readable_stream l : exists tail,
  readable (concat (map (fun x => sent x.1 x.2) l)) = concat (map notificationValues (arrived (untilBroken l))) ++ tail
  /\ (forallb inOrder l = true -> tail = []).
Proof.
  induction l as [|x l (tail & IH & Ht)]; cbn [map concat untilBroken forallb]; [by exists []|].
  destruct (inOrder x) eqn:Eo; cbn [andb].
  - exists tail. split; [|done]. rewrite (sent_inOrder x Eo), readable_app, IH. unfold arrived. cbn [List.filter].
    destruct (isDone x); cbn [map concat app]; [by rewrite <- (assoc_L (++))|done].
  - eexists. split; [reflexivity|done].
Qed.

Lemma readable_basic l : Forall (fun v => basicKind v = true) (readable (concat (map (fun x => sent x.1 x.2) l))).
Proof.
  assert (Hn : forall n, Forall (fun v => basicKind v = true) (notificationValues n)) by (intros []; repeat constructor).
  assert (Hp : forall ps, Forall (fun p => match p with Whole v => basicKind v = true | Torn => True end) ps ->
    Forall (fun v => basicKind v = true) (readable ps)).
  { induction 1 as [|[v|] ps Hv _ IH]; cbn; by constructor. }
  apply Hp. induction l as [|[n d] l IH]; cbn [map concat]; [constructor|]. apply Forall_app. split; [|done]. cbn [fst snd].
  destruct d as [|k torn]; cbn [sent]; [apply Forall_fmap, Hn|]. apply Forall_app. split; [apply Forall_fmap, Forall_take, Hn|].
  destruct torn; repeat constructor.
Qed.

(** C36: Whatever notifications are written to a client, in whatever order: those
    of the progress of an update reach elevated clients only, all others every
    client. As long as each write within its second was done, or timed out before
    a byte of it was taken, the client reads each that was done whole, and its
    callbacks get exactly the events of these, in that order. A write that times
    out in its middle ends this: what was read before it stands, nothing is said
    of what the client makes of the rest (see [cut_notification]). No value is of
    a kind that a decoder could not read from more than one encoder. *)
Theorem notifications_arrive l token :
  exists s, ec_events (notifyMany l (mkEventClient token (Some []))) = Some s
    /\ (exists rest, InitializeIPCClient (readable s) = omap eventOf (arrived (untilBroken (meantFor token l))) ++ rest
        /\ (forallb inOrder (meantFor token l) = true -> rest = []))
    /\ Forall (fun v => basicKind v = true) (readable s).
Proof.
  rewrite notifyMany_stream. cbn [ec_events app]. eexists. split; [done|]. split; [|apply readable_basic].
  destruct (readable_stream (meantFor token l)) as (tail & E & Ht). rewrite E. unfold InitializeIPCClient.
  rewrite clientEvents_values by (rewrite length_app; pose proof (concat_length_ge (arrived (untilBroken (meantFor token l)))); lia).
  eexists. split; [reflexivity|]. intros Ho. rewrite (Ht Ho). by destruct (_ - _)%nat.
Qed.

(** The end of a change of a tunnel is cut off: the client takes the next
    notification for what is missing, and stops listening. *)
Example cut_notification :
  let l := [(TunnelChange (str "home") TunnelStarted TunnelStarted [], WriteTimedOut 3 false); (TunnelsChange, WriteDone); (ManagerStopping, WriteDone)] in
  match ec_events (notifyMany l (mkEventClient 5 (Some []))) with Some s => InitializeIPCClient (readable s) | None => [] end = [].
Proof. vm_compute. reflexivity. Qed.
