(* ===== verification/ManagerTheorems.v ===== *)
(** * What the manager lets its clients do

    Anyone it talks to may start and stop tunnels; only an elevated user may see
    the secrets of a configuration, change the store, quit the manager or update
    it. *)

From S2P Require Import Prelude GoStrings GoNum Netip Config Name Paths WSTLS WSTLSNames WSTLSCollect Parser Writer ConfWf UAPI Driver Effects Store StoreLaws StoreTheorems StoreTLS StoreTunnels Updater Manager IPC.
Local Open Scope Z_scope.

Section Laws.
Context {W handle service adapter pipe : Type}.
Context `{FileSystem W handle} `{ServiceSystem W service adapter pipe}.

(** Services, the driver and pipes do not touch the files of the store. *)
Class ServiceLaws := {
  sl_Connect : keeps mgr_Connect;
  sl_Executable : keeps os_Executable;
  sl_OpenService : forall n, keeps (mgr_OpenService n);
  sl_CreateService : forall n e c a, keeps (mgr_CreateService n e c a);
  sl_Query : forall s, keeps (svc_Query s);
  sl_StartType : forall s, keeps (svc_StartType s);
  sl_Delete : forall s, keeps (svc_Delete s);
  sl_Start : forall s, keeps (svc_Start s);
  sl_ControlStop : forall s, keeps (svc_ControlStop s);
  sl_Close : forall s, keeps (svc_Close s);
  sl_Subscribe : forall s, keeps (svc_Subscribe s);
  sl_Unsubscribe : forall s, keeps (svc_Unsubscribe s);
  sl_SubscribeDatabase : keeps mgr_SubscribeDatabase;
  sl_OpenAdapter : forall n, keeps (driver_OpenAdapter n);
  sl_Configuration : forall a, keeps (adapter_Configuration a);
  sl_AdapterClose : forall a, keeps (adapter_Close a);
  sl_Dial : forall n, keeps (pipe_Dial n);
  sl_SetDeadline : forall p, keeps (pipe_SetDeadline p);
  sl_PipeWrite : forall p s, keeps (pipe_Write p s);
  sl_PipeRead : forall p, keeps (pipe_Read p);
  sl_PipeClose : forall p, keeps (pipe_Close p)
}.
End Laws.

Section Readers.
Context {W handle : Type} `{FileSystem W handle} `{!FileLaws} `{UnicodeTables} `{NetURL}.
Context (decoders : list (gostring -> option gostring)) (fuel : nat) (root : gostring).

(** A function of the store that leaves the files alone. *)
Definition readsOnly {A} (f : M (store W) A) : Prop :=
  forall V O, triple (at_ root V O) f (fun _ => at_ root V O) (at_ root V O).

Lemma readsOnly_ret {A} (a : A) : readsOnly (mret a).
Proof. intros V O. by apply triple_ret. Qed.
Lemma readsOnly_fail {A} e : readsOnly (mfail (A := A) e).
Proof. intros V O. by apply triple_fail. Qed.
Lemma readsOnly_pure {A} (r : result A) : readsOnly (mpure r).
Proof. intros V O s r' s' Hs [= <- <-]. by destruct r. Qed.
Lemma readsOnly_bind {A B} (m : M (store W) A) (k : A -> M (store W) B) :
  readsOnly m -> (forall a, readsOnly (k a)) -> readsOnly (mthen m k).
Proof. intros Hm Hk V O. eapply triple_bind; [apply Hm|]. intros a. apply Hk. Qed.
Lemma readsOnly_wrap {A} f (m : M (store W) A) : readsOnly m -> readsOnly (mwrap f m).
Proof.
  intros Hm V O s r s' Hs. unfold mwrap. destruct (m s) as [[x|e] s1] eqn:E; intros [= <- <-]; exact (Hm V O _ _ _ Hs E).
Qed.
Lemma readsOnly_sys {A} (m : M W A) : keeps m -> readsOnly (sys m).
Proof.
  intros Hm V O. eapply triple_conseq; [apply (triple_sys_sees root V O V O V O (fun _ => True))|done|naive_solver|done].
  eapply triple_conseq; [by apply keeps_sees|done|done|done].
Qed.
Lemma readsOnly_configDir : readsOnly (tunnelConfigurationsDirectory fuel).
Proof. intros V O s r s' Hs. rewrite (configDir_at fuel root V O s Hs). by intros [= <- <-]. Qed.

Lemma keeps_ReadFile p : keeps (os_ReadFile p).
Proof. intros F O. eapply triple_conseq; [apply fl_ReadFile|done|naive_solver|done]. Qed.
Lemma keeps_ReadDir p : keeps (os_ReadDir p).
Proof. intros F O. eapply triple_conseq; [apply fl_ReadDir|done|naive_solver|done]. Qed.
Lemma keeps_Decrypt b name : keeps (Decrypt b name).
Proof.
  intros F O. unfold Decrypt. eapply (triple_bind _ _ _ (fun _ => view F O)).
  { intros w r w' Hw [= <- <-]. by destruct (UTF16FromString name). }
  intros n16. eapply (triple_bind _ _ _ (fun _ => view F O)).
  { apply triple_wrap. eapply triple_conseq; [apply fl_CryptUnprotectData|done|naive_solver|done]. }
  intros [d [on|]]; [|by apply triple_fail]. eapply (triple_bind _ _ _ (fun _ => view F O)).
  { intros w r w' Hw [= <- <-]. by destruct (strcmpDiffers on n16). }
  intros []; [by apply triple_fail|by apply triple_ret].
Qed.

Lemma LoadFromPath_readsOnly p : readsOnly (LoadFromPath decoders p).
Proof.
  unfold LoadFromPath. apply readsOnly_bind; [apply readsOnly_pure|]. intros n.
  apply readsOnly_bind; [apply readsOnly_sys, keeps_ReadFile|]. intros b.
  apply readsOnly_bind; [|intros; apply readsOnly_pure].
  case_match; [apply readsOnly_sys, keeps_Decrypt|apply readsOnly_ret].
Qed.

Lemma LoadFromName_readsOnly name : readsOnly (LoadFromName decoders fuel name).
Proof.
  unfold LoadFromName. case_match; [apply readsOnly_fail|].
  apply readsOnly_bind; [apply readsOnly_configDir|]. intros dir. apply LoadFromPath_readsOnly.
Qed.

Lemma LogFile_readsOnly b : readsOnly (LogFile fuel b).
Proof.
  apply readsOnly_bind; [|intros; apply readsOnly_ret].
  intros V O s r s' Hs. rewrite (RootDirectory_at fuel root V O s b Hs). by intros [= <- <-].
Qed.

Lemma loadWSTLSFile_readsOnly t n : readsOnly (loadWSTLSFile fuel t n).
Proof.
  unfold loadWSTLSFile. case_match; [apply readsOnly_fail|].
  apply readsOnly_bind.
  - unfold wsTLSDirectory. apply readsOnly_bind.
    + intros V O s r s' Hs. rewrite (RootDirectory_at fuel root V O s true Hs). by intros [= <- <-].
    + intros r. apply readsOnly_bind; [apply readsOnly_ret|]. intros _. apply readsOnly_ret.
  - intros dir. apply readsOnly_bind; [apply readsOnly_sys, keeps_ReadFile|]. intros b. apply readsOnly_sys, keeps_Decrypt.
Qed.

Lemma LoadWSTLSFiles_readsOnly c : readsOnly (LoadWSTLSFiles fuel c).
Proof.
  unfold LoadWSTLSFiles. destruct (WSTLSStoredFileNames c) as [|n names]; [apply readsOnly_ret|].
  apply readsOnly_bind; [|intros; apply readsOnly_ret]. generalize (∅ : gmap gostring gostring).
  generalize (n :: names). clear n names. intros l. induction l as [|n l IH]; intros fs; cbn [loadFiles]; [apply readsOnly_ret|].
  apply readsOnly_bind; [apply readsOnly_wrap, loadWSTLSFile_readsOnly|]. intros d. apply IH.
Qed.

Lemma ListConfigNames_readsOnly : readsOnly (ListConfigNames fuel).
Proof.
  apply readsOnly_bind; [apply readsOnly_configDir|]. intros dir.
  apply readsOnly_bind; [apply readsOnly_sys, keeps_ReadDir|]. intros fs. apply readsOnly_ret.
Qed.

Lemma Path_readsOnly c : readsOnly (Path fuel c).
Proof.
  unfold Path. case_match; [apply readsOnly_fail|].
  apply readsOnly_bind; [apply readsOnly_configDir|]. intros dir. apply readsOnly_ret.
Qed.
End Readers.

Create HintDb quiet.

Section Guard.
Context {W handle service adapter pipe : Type}.
Context `{FileSystem W handle} `{!FileLaws} `{ServiceSystem W service adapter pipe} `{!ServiceLaws}.
Context `{UnicodeTables} `{NetURL} `{ErrorTexts}.
Context (decoders : list (gostring -> option gostring)) (fuel : nat) (root : gostring).
Context (trackedOrder : gmap gostring TunnelState -> list (gostring * TunnelState))
  (filesOrder : gmap gostring gostring -> list (gostring * gostring)).

Abbreviation mgr := (Manager.mgr W service adapter).
Abbreviation session := (IPC.session mgr).

Definition isUpdate (t : task service) : bool := match t with RunUpdate _ => true | _ => false end.

(** What only an elevated user may change: the files, whether the manager has
    quit, and the updates that run. *)
Record guarded (V : gmap path gofile) (O : gmap handle (path * bool)) (q : bool * nat) (u : list (task service))
    (m : mgr) : Prop := {
  gd_files : at_ root V O (mg_store m);
  gd_quit : (mg_haveQuit m, mg_quitSignals m) = q;
  gd_updates : List.filter isUpdate (mg_started m) = u
}.

Definition quiet {A} (f : M mgr A) : Prop :=
  forall V O q u, triple (guarded V O q u) f (fun _ => guarded V O q u) (guarded V O q u).

Lemma quiet_ret {A} (a : A) : quiet (mret a).
Proof. intros V O q u. by apply triple_ret. Qed.
Lemma quiet_fail {A} e : quiet (mfail (A := A) e).
Proof. intros V O q u. by apply triple_fail. Qed.
Lemma quiet_pure {A} (r : result A) : quiet (mpure r).
Proof. intros V O q u s r' s' Hs [= <- <-]. by destruct r. Qed.
Lemma quiet_bind {A B} (m : M mgr A) (k : A -> M mgr B) : quiet m -> (forall a, quiet (k a)) -> quiet (mthen m k).
Proof. intros Hm Hk V O q u. eapply triple_bind; [apply Hm|]. intros a. apply Hk. Qed.
Lemma quiet_try {A} (m : M mgr A) : quiet m -> quiet (try m).
Proof.
  intros Hm V O q u s r s' Hs. unfold try. destruct (m s) as [r1 s1] eqn:E. intros [= <- <-].
  specialize (Hm V O q u s r1 s1 Hs E). by destruct r1.
Qed.
Lemma quiet_get {A} (f : mgr -> A) : quiet (mget f).
Proof. intros V O q u s r s' Hs [= <- <-]. done. Qed.
Lemma quiet_onStore {A} (f : M (store W) A) : readsOnly root f -> quiet (onStore f).
Proof.
  intros Hf V O q u m r m' [Hs Hq Hu]. unfold onStore. destruct (f (mg_store m)) as [r1 st] eqn:E. intros [= <- <-].
  specialize (Hf V O _ _ _ Hs E). destruct r1; by split.
Qed.
Lemma quiet_onSys {A} (f : M W A) : keeps f -> quiet (onSys f).
Proof. intros Hf. by apply quiet_onStore, readsOnly_sys. Qed.
Lemma quiet_go t : isUpdate t = false -> quiet (go t).
Proof.
  intros Ht V O q u m r m' [Hs Hq Hu] [= <- <-]. split; [done|done|]. cbn [mg_started].
  rewrite List.filter_app. cbn [List.filter]. by rewrite Ht, app_nil_r.
Qed.
Lemma quiet_connected b : quiet (mmod (set_connected b)).
Proof. intros V O q u m r m' [Hs Hq Hu] [= <- <-]. by split. Qed.
Lemma quiet_adapters f : quiet (mmod (fun m => set_adapters (f m) m)).
Proof. intros V O q u m r m' [Hs Hq Hu] [= <- <-]. by split. Qed.
Lemma quiet_ignore {A} (m : M mgr A) : quiet m -> quiet (ignore m).
Proof. intros Hm. apply quiet_bind; [by apply quiet_try|]. intros _. apply quiet_ret. Qed.

#[local] Hint Resolve quiet_ret quiet_fail quiet_pure quiet_get quiet_connected quiet_adapters : quiet.
#[local] Hint Resolve sl_Connect sl_Executable sl_OpenService sl_CreateService sl_Query sl_StartType sl_Delete sl_Start
  sl_ControlStop sl_Close sl_OpenAdapter sl_Configuration sl_AdapterClose sl_Dial sl_SetDeadline sl_PipeWrite
  sl_PipeRead sl_PipeClose : quiet.
#[local] Hint Resolve LoadFromName_readsOnly LoadWSTLSFiles_readsOnly ListConfigNames_readsOnly Path_readsOnly : quiet.

(** Follows the structure of a program. *)
Ltac quiet_step :=
  match goal with
  | |- quiet (mthen _ _) => apply quiet_bind; [|intros ?]
  | |- quiet (try _) => apply quiet_try
  | |- quiet (ignore _) => apply quiet_ignore
  | |- quiet (onSys _) => apply quiet_onSys
  | |- quiet (onStore _) => apply quiet_onStore
  | |- quiet (match ?x with _ => _ end) => destruct x
  | _ => solve [auto with quiet]
  end.
Ltac quiet_run := repeat quiet_step.

Lemma serviceManager_quiet : quiet serviceManager.
Proof. unfold serviceManager. quiet_run. Qed.
#[local] Hint Resolve serviceManager_quiet : quiet.

Lemma waitDeleted_quiet rounds n : quiet (waitDeleted rounds n).
Proof. induction rounds; cbn [waitDeleted]; quiet_run. Qed.
#[local] Hint Resolve waitDeleted_quiet : quiet.

Lemma removeOld_quiet s n : quiet (removeOld fuel s n).
Proof. unfold removeOld. quiet_run. Qed.
#[local] Hint Resolve removeOld_quiet : quiet.

Lemma InstallTunnel_quiet p : quiet (InstallTunnel fuel p).
Proof. unfold InstallTunnel. quiet_run. by apply quiet_go. Qed.
#[local] Hint Resolve InstallTunnel_quiet : quiet.

Lemma UninstallTunnel_quiet n : quiet (UninstallTunnel n).
Proof. unfold UninstallTunnel. quiet_run. Qed.
#[local] Hint Resolve UninstallTunnel_quiet : quiet.

Lemma findDriverAdapter_quiet n : quiet (findDriverAdapter n).
Proof. unfold findDriverAdapter. quiet_run. Qed.
Lemma releaseDriverAdapter_quiet n : quiet (releaseDriverAdapter n).
Proof. unfold releaseDriverAdapter. quiet_run. Qed.
Lemma uapiRuntimeConfig_quiet c : quiet (uapiRuntimeConfig c).
Proof. unfold uapiRuntimeConfig. quiet_run. Qed.
#[local] Hint Resolve findDriverAdapter_quiet releaseDriverAdapter_quiet uapiRuntimeConfig_quiet : quiet.

Lemma StoredConfig_quiet s n : quiet (StoredConfig decoders fuel s n).
Proof. unfold StoredConfig. quiet_run. Qed.
Lemma RuntimeConfig_quiet s n : quiet (RuntimeConfig decoders fuel s n).
Proof. unfold RuntimeConfig. quiet_run. Qed.

Lemma intersecting_quiet c l : quiet (intersecting decoders fuel c l).
Proof. induction l as [|[t state] l IH]; cbn [intersecting]; quiet_run. Qed.
#[local] Hint Resolve intersecting_quiet : quiet.

Lemma Start_quiet s n : quiet (Start decoders fuel trackedOrder s n).
Proof. unfold Start. quiet_run. by apply quiet_go. Qed.
Lemma Stop_quiet s n : quiet (Stop decoders fuel s n).
Proof. unfold Stop. quiet_run. Qed.
Lemma waitStopped_quiet rounds n : quiet (waitStopped rounds n).
Proof. induction rounds; cbn [waitStopped]; quiet_run. Qed.
#[local] Hint Resolve waitStopped_quiet : quiet.
Lemma WaitForStop_quiet s n : quiet (WaitForStop fuel s n).
Proof. unfold WaitForStop. quiet_run. Qed.
Lemma State_quiet s n : quiet (State s n).
Proof. unfold State. quiet_run. Qed.
Lemma GlobalState_quiet s : quiet (GlobalState trackedOrder s).
Proof. unfold GlobalState, trackedTunnelsGlobalState. quiet_run. Qed.
Lemma Tunnels_quiet s : quiet (Tunnels fuel s).
Proof. unfold Tunnels. quiet_run. Qed.
Lemma getUpdateState_quiet s : quiet (getUpdateState s).
Proof. unfold getUpdateState. quiet_run. Qed.

(** ** A connection that is not elevated *)

(** No key, no token, no script, no comment and no TLS file; the public key of a
    peer is replaced by its position. *)
Record secretlessPeer (i : nat) (p : Peer) : Prop := {
  sp_PublicKey : take 8 (pr_PublicKey p) = leBytes 8 (Z.of_nat i mod 2 ^ 64)
                 /\ drop 8 (pr_PublicKey p) = replicate 24 "000"%char;
  sp_PresharedKey : pr_PresharedKey p = replicate 32 "000"%char;
  sp_WSBearer : pr_WSBearer p = [];
  sp_Comments : pr_Comments p = noSectionComments
}.

Record redacted (c : Config) : Prop := {
  rd_PrivateKey : i_PrivateKey (c_Interface c) = replicate 32 "000"%char;
  rd_scripts : i_PreUp (c_Interface c) = [] /\ i_PostUp (c_Interface c) = []
               /\ i_PreDown (c_Interface c) = [] /\ i_PostDown (c_Interface c) = [];
  rd_Comments : i_Comments (c_Interface c) = noSectionComments /\ c_TrailingComments c = [];
  rd_Peers : forall i p, c_Peers c !! i = Some p -> secretlessPeer i p;
  rd_WSTLSFiles : c_WSTLSFiles c = ∅
}.

Lemma Redact_redacted c : redacted (Redact c).
Proof.
  split; try done. intros i p. unfold Redact. cbn [c_Peers set_c_WSTLSFiles set_c_TrailingComments set_c_Peers].
  rewrite list_lookup_imap. destruct (c_Peers c !! i) as [p0|]; [|done]. by intros [= <-].
Qed.

Lemma emptyConfig_redacted : redacted emptyConfig.
Proof. by split. Qed.

Definition redactedVal (v : gobval) : Prop := match v with GConfig c => redacted c | _ => True end.

(** Every configuration on its way to the client is redacted. *)
Definition harmless V O q u (st : session) : Prop :=
  guarded V O q u (se_mgr st) /\ Forall redactedVal (se_toClient st).

Section Unelevated.
Context (s : ManagerService) (Hs : isElevated s = false).

Lemma StoredConfig_redacted n (m : mgr) c m' : StoredConfig decoders fuel s n m = (Ok c, m') -> redacted c.
Proof.
  unfold StoredConfig, mthen. destruct (onStore _ m) as [[c0|e] m1]; [|done]. rewrite Hs.
  intros [= <- <-]. apply Redact_redacted.
Qed.

Lemma redactFor_redacted c : redacted (redactFor s c).
Proof. unfold redactFor. rewrite Hs. apply Redact_redacted. Qed.

Lemma RuntimeConfig_redacted n (m : mgr) c m' : RuntimeConfig decoders fuel s n m = (Ok c, m') -> redacted c.
Proof.
  unfold RuntimeConfig, mthen at 1. destruct (onStore _ m) as [[c0|e] m1]; [|done].
  destruct (HasWebSocketPeers c0).
  - unfold mthen. destruct (uapiRuntimeConfig c0 m1) as [[c1|e] m2]; [|done].
    intros [= <- <-]. apply redactFor_redacted.
  - unfold mthen. destruct (findDriverAdapter n m1) as [[a|e] m2]; [|done].
    destruct (try (onSys (adapter_Configuration a)) m2) as [[[block|e]|e] m3]; [| |done].
    + destruct (mpure (driverRuntimeConfig block c0) m3) as [[c1|e] m4]; [|done].
      intros [= <- <-]. apply redactFor_redacted.
    + by destruct (releaseDriverAdapter n m3) as [[x|e'] m4].
Qed.

Section Turn.
Context (V : gmap path gofile) (O : gmap handle (path * bool)) (q : bool * nat) (u : list (task service)).
Abbreviation harmless := (harmless V O q u).

Lemma recv_harmless : triple harmless recv (fun _ => harmless) harmless.
Proof.
  intros st r st' [Hg Hf]. unfold recv. destruct (se_toServer st); intros [= <- <-]; by split.
Qed.

Lemma recvString_harmless : triple harmless recvString (fun _ => harmless) harmless.
Proof.
  eapply triple_bind; [apply recv_harmless|]. intros []; cbn [asString]; (by apply triple_ret) || (by apply triple_fail).
Qed.

Lemma send_harmless v : redactedVal v -> triple harmless (send v) (fun _ => harmless) harmless.
Proof.
  intros Hv st r st' [Hg Hf]. unfold send. destruct (se_broken st); intros [= <- <-]; [by split|].
  split; [done|]. cbn [se_toClient]. apply Forall_app. split; [done|]. by constructor.
Qed.

Lemma call_harmless {A} (f : M mgr A) (P : A -> Prop) :
  quiet f -> (forall m a m', f m = (Ok a, m') -> P a) ->
  triple harmless (call f) (fun r st => (forall a, r = Ok a -> P a) /\ harmless st) harmless.
Proof.
  intros Hq HP st r st' [Hg Hf]. unfold call. destruct (f (se_mgr st)) as [r1 m1] eqn:E. intros [= <- <-].
  split; [intros a ->; by eapply HP|]. split; [|done]. specialize (Hq V O q u _ _ _ Hg E). by destruct r1.
Qed.

(** A method whose values are sent as [values]. *)
Lemma method_harmless {A} (f : M mgr A) (P : A -> Prop) (k : result A -> M session unit) :
  quiet f -> (forall m a m', f m = (Ok a, m') -> P a) ->
  (forall r, (forall a, r = Ok a -> P a) -> triple harmless (k r) (fun _ => harmless) harmless) ->
  triple harmless (do! r := call f in k r) (fun _ => harmless) harmless.
Proof.
  intros Hq HP Hk. eapply triple_bind; [by apply (call_harmless f P)|].
  intros r st r' st' [Hr Hst]. by apply Hk.
Qed.

Lemma send2_harmless v e : redactedVal v ->
  triple harmless (do! _ := send v in send (GString e)) (fun _ => harmless) harmless.
Proof. intros Hv. eapply triple_bind; [by apply send_harmless|]. intros u0. by apply send_harmless. Qed.

Lemma orZero_redacted r : (forall c, r = Ok c -> redacted c) -> redactedVal (GConfig (orZero emptyConfig r)).
Proof. intros Hr. destruct r as [c|e]; cbn; [by apply Hr|apply emptyConfig_redacted]. Qed.

#[local] Hint Resolve StoredConfig_quiet RuntimeConfig_quiet Start_quiet Stop_quiet WaitForStop_quiet State_quiet
  GlobalState_quiet Tunnels_quiet getUpdateState_quiet : quiet.

Ltac method P :=
  apply (method_harmless _ P); [auto with quiet| |intros r Hr].

Lemma serveOne_harmless :
  triple harmless (serveOne decoders fuel trackedOrder filesOrder s) (fun _ => harmless) harmless.
Proof.
  unfold serveOne. eapply triple_bind; [apply recv_harmless|]. intros v.
  eapply (triple_bind _ _ _ (fun _ => harmless));
    [destruct v; cbn [asInt]; (by apply triple_ret) || (by apply triple_fail)|].
  intros z. destruct (methodOf z) as [mt|]; [|by apply triple_fail].
  assert (Hdelete : forall n, quiet (ManagerDelete decoders fuel s n))
    by (intros n; unfold ManagerDelete; rewrite Hs; apply quiet_fail).
  assert (Hcreate : forall c, quiet (Create fuel filesOrder s c))
    by (intros c; unfold Create; rewrite Hs; apply quiet_fail).
  assert (Hquit : forall b, quiet (Quit fuel s b)) by (intros b; unfold Quit; rewrite Hs; apply quiet_fail).
  assert (Hupdate : quiet (Update s)) by (unfold Update; rewrite Hs; apply quiet_ret).
  destruct mt; try (eapply triple_bind; [apply recvString_harmless|]; intros n).
  - method redacted; [intros; by eapply StoredConfig_redacted|]. by apply send2_harmless, orZero_redacted.
  - method redacted; [intros; by eapply RuntimeConfig_redacted|]. by apply send2_harmless, orZero_redacted.
  - method (fun _ : unit => True); [done|by apply send_harmless].
  - method (fun _ : unit => True); [done|by apply send_harmless].
  - method (fun _ : unit => True); [done|by apply send_harmless].
  - method (fun _ : unit => True); [done|by apply send_harmless].
  - method (fun _ : TunnelState => True); [done|by apply send2_harmless].
  - method (fun _ : TunnelState => True); [done|by apply send_harmless].
  - eapply triple_bind; [apply recv_harmless|]. intros x. eapply (triple_bind _ _ _ (fun _ => harmless));
      [destruct x; cbn [asConfig]; (by apply triple_ret) || (by apply triple_fail)|]. intros c.
    method (fun _ : Tunnel => True); [done|by apply send2_harmless].
  - method (fun _ : list Tunnel => True); [done|by apply send2_harmless].
  - eapply triple_bind; [apply recv_harmless|]. intros x. eapply (triple_bind _ _ _ (fun _ => harmless));
      [destruct x; cbn [asBool]; (by apply triple_ret) || (by apply triple_fail)|]. intros b.
    method (fun _ : bool => True); [done|by apply send2_harmless].
  - method (fun _ : UpdateState => True); [done|by apply send_harmless].
  - method (fun _ : unit => True); [done|by apply triple_ret].
Qed.
End Turn.

Lemma serveLoop_harmless V O q u rounds st :
  harmless V O q u st -> harmless V O q u (serveLoop decoders fuel trackedOrder filesOrder rounds s st).
Proof.
  revert st; induction rounds as [|rounds IH]; intros st Hst; cbn [serveLoop]; [done|].
  destruct (serveOne decoders fuel trackedOrder filesOrder s st) as [r st'] eqn:E.
  pose proof (serveOne_harmless V O q u st r st' Hst E) as Hr. destruct r; [by apply IH|done].
Qed.

(** C13: Whatever a client that is not elevated sends, its connection changes no file
    of the store, cannot quit the manager or start an update, and no configuration
    it is sent has a private, preshared or real public key, a bearer token, a
    script, a comment or the contents of a TLS file. (The texts of errors are not
    covered: that of a configuration that does not parse quotes what is wrong with
    it.) *)
Theorem ServeConn_unelevated V O q u st :
  guarded V O q u (se_mgr st) -> se_toClient st = [] ->
  let st' := ServeConn decoders fuel trackedOrder filesOrder s st in
  guarded V O q u (se_mgr st')
  /\ Forall (fun v => forall c, v = GConfig c -> redacted c) (se_toClient st').
Proof.
  intros Hg He. assert (Hst : harmless V O q u st) by (split; [done|rewrite He; constructor]).
  destruct (serveLoop_harmless V O q u (S (length (se_toServer st))) st Hst) as [Hg' Hf']. split; [done|].
  eapply Forall_impl; [exact Hf'|]. intros v Hv c ->. exact Hv.
Qed.
End Unelevated.
End Guard.
