(* ===== verification/ManagerMethods.v ===== *)
(** * What the methods of the manager achieve

    Creating a tunnel and reading it back, starting a tunnel beside others, and
    quitting. *)

From S2P Require Import Prelude GoStrings GoNum Netip Config Name Paths WSTLS WSTLSNames WSTLSCollect Parser Writer ConfWf UAPI Driver Effects Store StoreLaws StoreTheorems StoreTLS StoreTunnels Updater Manager ManagerTheorems.
Local Open Scope Z_scope.

Section Methods.
Context {W handle service adapter pipe : Type}.
Context `{FileSystem W handle} `{!FileLaws} `{ServiceSystem W service adapter pipe}.
Context `{UnicodeTables} `{NetURL}.
Context (decoders : list (gostring -> option gostring)) (fuel : nat) (root : gostring).
Context (trackedOrder : gmap gostring TunnelState -> list (gostring * TunnelState))
  (filesOrder : gmap gostring gostring -> list (gostring * gostring)).

Abbreviation mgr := (Manager.mgr W service adapter).

(** ** Creating a tunnel and reading it back *)

Lemma Create_store s c (m : mgr) : isElevated s = true ->
  Create fuel filesOrder s c m
  = let '(r, st) := createTunnel fuel (filesOrder (c_WSTLSFiles c)) c (mg_store m) in
    (match r with Ok _ => Ok (mkTunnel (c_Name c)) | Err e => Err e end, set_store st m).
Proof.
  intros Hs. unfold Create, createTunnel. rewrite Hs. cbn [negb]. unfold mthen, mpure, onStore.
  destruct (ValidateWSTLSFiles _ c) as [u|e]; [|by destruct m].
  destruct (SaveWSTLSFiles fuel (c_Name c) (c_WSTLSFiles c) _ (mg_store m)) as [[u1|e1] st1] eqn:E1; [|done].
  cbn. by destruct (Save fuel c true st1) as [[u2|e2] st2].
Qed.

(** What the state of the store gives a client that asks for the tunnel. *)
Definition shown (s : ManagerService) (c c' : Config) : Prop :=
  if isElevated s then c' = c \/ c' = set_c_WSTLSFiles ∅ c else c' = Redact c.

Lemma StoredConfig_reads V O f c s (m : mgr) :
  wfConfig (set_c_WSTLSFiles ∅ c) -> storable c -> tlsHolds root V (c_Name c) (c_WSTLSFiles c) ->
  V !! key (confPath root (c_Name c)) = Some f -> protects (f_data f) (ToWgQuick c) (c_Name c) ->
  at_ root V O (mg_store m) ->
  (forall c' m', StoredConfig decoders fuel s (c_Name c) m = (Ok c', m') -> shown s c c')
  /\ (reliable -> exists m', StoredConfig decoders fuel s (c_Name c) m
        = (Ok (if isElevated s then c else Redact c), m')).
Proof.
  intros Hw Hst Hh Hf Hb Hm.
  destruct (stored_reads decoders fuel root V O f c Hw Hst Hh Hf Hb) as [[HL HL'] [HT HT']].
  assert (HR : Redact (set_c_WSTLSFiles ∅ c) = Redact c) by by destruct c.
  unfold StoredConfig, mthen, onStore, try. split.
  - intros c' m'. destruct (LoadFromName decoders fuel (c_Name c) (mg_store m)) as [[c0|e] st1] eqn:E1; [|done].
    destruct (HL _ _ _ Hm E1) as [-> Hm1]. unfold shown. destruct (isElevated s); cbn [negb].
    + cbn. destruct (LoadWSTLSFiles fuel (set_c_WSTLSFiles ∅ c) st1) as [[c1|e] st2] eqn:E2.
      * destruct (HT _ _ _ Hm1 E2) as [-> _]. intros [= <- <-]. by left.
      * intros [= <- <-]. by right.
    + intros [= <- <-]. exact HR.
  - intros Hok. destruct (HL' Hok _ Hm) as (st1 & -> & Hm1). destruct (isElevated s); cbn [negb].
    + cbn. destruct (HT' Hok _ Hm1) as (st2 & -> & _). by eexists.
    + rewrite HR. by eexists.
Qed.

(** C22: After an elevated user has created a tunnel, the manager shows that
    configuration to whoever asks: whole to an elevated user, with its TLS files
    unless these cannot be read, and redacted to any other. When no read fails
    the answer does come. A creation that fails leaves the configuration of
    every tunnel as it was. *)
Theorem Create_StoredConfig V O s c (m : mgr) r m1 :
  isElevated s = true ->
  wfConfig (set_c_WSTLSFiles ∅ c) -> Z.of_nat (length (ToWgQuick c)) < 2 ^ 32 ->
  filesOrder (c_WSTLSFiles c) ≡ₚ map_to_list (c_WSTLSFiles c) ->
  at_ root V O (mg_store m) -> Create fuel filesOrder s c m = (r, m1) ->
  match r with
  | Ok t => t = mkTunnel (c_Name c) /\ forall s',
      (forall c' m2, StoredConfig decoders fuel s' (c_Name c) m1 = (Ok c', m2) -> shown s' c c')
      /\ (reliable -> exists m2, StoredConfig decoders fuel s' (c_Name c) m1
            = (Ok (if isElevated s' then c else Redact c), m2))
  | Err _ => exists V', at_ root V' O (mg_store m1) /\ forall name, TunnelNameIsValid name = true ->
      V' !! key (confPath root name) = V !! key (confPath root name)
  end.
Proof.
  intros Hs Hw Hl Hp Hm. rewrite (Create_store s c m Hs).
  destruct (createTunnel fuel (filesOrder (c_WSTLSFiles c)) c (mg_store m)) as [r1 st] eqn:E.
  pose proof (createTunnel_spec fuel root V O _ c Hw Hl Hp _ _ _ Hm E) as Hr.
  destruct r1 as [u|e]; intros [= <- <-]; cbn [mg_store set_store].
  - destruct Hr as (V' & f & Hst & Hex & Hf & Hb & Hs'). split; [done|]. intros s'.
    eapply StoredConfig_reads; [done|done|apply Hex|exact Hf|done|exact Hs'].
  - destruct Hr as (V' & Hsame & Hs'). by exists V'.
Qed.

(** ** What a part of the manager leaves alone *)

Create HintDb steady.

Section Steady.
(** Something of the manager that is not in the store, nor whether the service
    control manager has been connected to. *)
Context {X : Type} (obs : mgr -> X).
Context (Hstore : forall st m, obs (set_store st m) = obs m) (Hconn : forall b m, obs (set_connected b m) = obs m).

Definition steady {A} (f : M mgr A) : Prop := forall m r m', f m = (r, m') -> obs m' = obs m.

Lemma steady_bind {A B} (f : M mgr A) (k : A -> M mgr B) : steady f -> (forall a, steady (k a)) -> steady (mthen f k).
Proof.
  intros Hf Hk m r m'. unfold mthen. destruct (f m) as [[a|e] m1] eqn:E.
  - intros E2. rewrite (Hk a _ _ _ E2). exact (Hf _ _ _ E).
  - intros [= <- <-]. exact (Hf _ _ _ E).
Qed.
Lemma steady_value {A} (r : result A) : steady (mpure r).
Proof. by intros m r' m' [= <- <-]. Qed.
Lemma steady_ret {A} (a : A) : steady (mret a).
Proof. by intros m r' m' [= <- <-]. Qed.
Lemma steady_fail {A} e : steady (mfail (A := A) e).
Proof. by intros m r' m' [= <- <-]. Qed.
Lemma steady_get {A} (f : mgr -> A) : steady (mget f).
Proof. by intros m r' m' [= <- <-]. Qed.
Lemma steady_try {A} (f : M mgr A) : steady f -> steady (try f).
Proof. intros Hf m r m'. unfold try. destruct (f m) as [r1 m1] eqn:E. intros [= <- <-]. exact (Hf _ _ _ E). Qed.
Lemma steady_ignore {A} (f : M mgr A) : steady f -> steady (ignore f).
Proof. intros Hf. apply steady_bind; [by apply steady_try|]. intros a. apply steady_ret. Qed.
Lemma steady_onStore {A} (f : M (store W) A) : steady (onStore f).
Proof. intros m r m'. unfold onStore. destruct (f (mg_store m)) as [r1 st]. intros [= <- <-]. apply Hstore. Qed.
Lemma steady_connected b : steady (mmod (set_connected b)).
Proof. intros m r m' [= <- <-]. apply Hconn. Qed.
#[local] Hint Resolve steady_value steady_ret steady_fail steady_get steady_onStore steady_connected : steady.

Ltac steady_step :=
  match goal with
  | |- steady (mthen _ _) => apply steady_bind; [|intros ?]
  | |- steady (try _) => apply steady_try
  | |- steady (ignore _) => apply steady_ignore
  | |- steady (onSys _) => apply steady_onStore
  | |- steady (match ?x with _ => _ end) => destruct x
  | _ => solve [auto with steady]
  end.
Ltac steady_run := repeat steady_step.

Lemma serviceManager_steady : steady serviceManager.
Proof. unfold serviceManager. steady_run. Qed.
#[local] Hint Resolve serviceManager_steady : steady.

Lemma UninstallTunnel_steady n : steady (UninstallTunnel n).
Proof. unfold UninstallTunnel. steady_run. Qed.

Lemma uninstallAll_steady names : steady (uninstallAll names).
Proof.
  induction names as [|n names IH]; cbn [uninstallAll]; steady_run. apply UninstallTunnel_steady.
Qed.

Lemma waitDeleted_steady rounds n : steady (waitDeleted rounds n).
Proof. induction rounds; cbn [waitDeleted]; steady_run. Qed.
#[local] Hint Resolve waitDeleted_steady : steady.

Lemma removeOld_steady s n : steady (removeOld fuel s n).
Proof. unfold removeOld. steady_run. Qed.

Lemma intersecting_steady c l : steady (intersecting decoders fuel c l).
Proof. induction l as [|[t state] l IH]; cbn [intersecting]; steady_run. Qed.
End Steady.

(** ** Quitting *)

Lemma uninstallAll_ok names (m : mgr) : is_Ok (uninstallAll names m).1 = true.
Proof.
  revert m; induction names as [|n names IH]; intros m; cbn [uninstallAll]; [done|].
  unfold mthen at 1, ignore, mthen at 1, try. destruct (UninstallTunnel n m) as [r m1]. apply IH.
Qed.

(** C35: Only an elevated user quits the manager, and only the first request does:
    it marks the manager as quitting and sends the one signal that ends it; any
    later request is told so and changes nothing. But when the tunnels to stop
    cannot be listed the mark is set and no signal is sent, and from then on
    every request is told that the manager has quit already. *)
Theorem Quit_spec s stop (m : mgr) r m' :
  Quit fuel s stop m = (r, m') ->
  match r with
  | Ok true => isElevated s = true /\ mg_haveQuit m = true /\ m' = m
  | Ok false => isElevated s = true /\ mg_haveQuit m = false /\ mg_haveQuit m' = true
      /\ mg_quitSignals m' = S (mg_quitSignals m) /\ ms_id s ∉ mg_managerServices m'
  | Err e => (isElevated s = false /\ e = ErrCode ERROR_ACCESS_DENIED /\ m' = m)
      \/ (isElevated s = true /\ stop = true /\ mg_haveQuit m = false /\ mg_quitSignals m' = mg_quitSignals m
          /\ forall s' stop', isElevated s' = true -> Quit fuel s' stop' m' = (Ok true, m'))
  end.
Proof.
  unfold Quit at 1. destruct (isElevated s); cbn [negb]; [|intros [= <- <-]; by left].
  unfold mthen at 1, mget at 1. destruct (mg_haveQuit m) eqn:Eq; [by intros [= <- <-]|].
  unfold mthen at 1, mmod at 1. set (m1 := set_services _ _).
  destruct stop; unfold mthen at 1; cbn [mret].
  - unfold mthen at 1. destruct (onStore (ListConfigNames fuel) m1) as [[names|e] m2] eqn:E2.
    + pose proof (uninstallAll_ok names m2) as Hok. destruct (uninstallAll names m2) as [[u|e] m3] eqn:E3; [|done].
      intros [= <- <-]. cbn. split; [done|]. split; [done|].
      assert (Hobs : forall (X : Type) (obs : mgr -> X), (forall st m, obs (set_store st m) = obs m) ->
                (forall b m, obs (set_connected b m) = obs m) -> obs m3 = obs m1).
      { intros X obs Ho1 Ho2. rewrite (uninstallAll_steady obs Ho1 Ho2 names _ _ _ E3).
        exact (steady_onStore obs Ho1 _ _ _ _ E2). }
      rewrite (Hobs _ mg_haveQuit), (Hobs _ mg_quitSignals), (Hobs _ mg_managerServices) by done.
      subst m1. cbn. set_solver.
    + intros [= <- <-]. right. pose proof (fun X obs Ho => steady_onStore (X := X) obs Ho _ _ _ _ E2) as Hobs.
      rewrite (Hobs _ mg_quitSignals) by done. do 4 (split; [done|]). intros s' stop' Hs'.
      unfold Quit. rewrite Hs'. cbn [negb]. unfold mthen at 1, mget at 1. by rewrite (Hobs _ mg_haveQuit) by done.
  - intros [= <- <-]. subst m1. cbn. set_solver.
Qed.

(** ** Starting a tunnel beside others *)

(** The tunnel [t] is stored as [o], or it is not stored. *)
Definition storedAs (V : gmap path gofile) (t : gostring) (o : option Config) : Prop :=
  match o with
  | Some c => c_Name c = t /\ wfConfig c /\ exists f, V !! key (confPath root t) = Some f
      /\ protects (f_data f) (ToWgQuick c) t
  | None => V !! key (confPath root t) = None
  end.

Definition inTransit (state : TunnelState) : bool :=
  bool_decide (state = TunnelStarting) || bool_decide (state = TunnelUnknown).

Lemma started_then {A B} (f : M mgr A) (k : A -> M mgr B) m r m' :
  steady mg_started f -> mthen f k m = (r, m') ->
  (exists e, r = Err e /\ mg_started m' = mg_started m)
  \/ exists a m1, mg_started m1 = mg_started m /\ k a m1 = (r, m').
Proof.
  intros Hf. unfold mthen. destruct (f m) as [[a|e] m1] eqn:E; [right|intros [= <- <-]; left].
  - exists a, m1. split; [exact (Hf _ _ _ E)|done].
  - exists e. split; [done|exact (Hf _ _ _ E)].
Qed.

Lemma InstallTunnel_starts p name (m : mgr) r m' :
  NameFromPath p = Ok name -> InstallTunnel fuel p m = (r, m') ->
  (exists e, r = Err e /\ mg_started m' = mg_started m)
  \/ exists sv, mg_started m' = mg_started m ++ [TrackTunnel name sv].
Proof.
  intros Hn. unfold InstallTunnel.
  intros E. apply started_then in E as [?|(u & m1 & Q1 & E)]; [by left| |by apply serviceManager_steady].
  rewrite <- Q1. clear u m Q1. apply started_then in E as [?|(path & m2 & Q2 & E)]; [by left| |by apply steady_onStore].
  rewrite <- Q2. clear m1 Q2. rewrite Hn in E. unfold mthen at 1, mpure at 1 in E.
  apply started_then in E as [?|(sn & m3 & Q3 & E)]; [by left| |apply steady_value]. rewrite <- Q3. clear m2 Q3.
  apply started_then in E as [?|(old & m4 & Q4 & E)]; [by left| |by apply steady_try, steady_onStore]. rewrite <- Q4. clear m3 Q4.
  apply started_then in E as [?|(u & m5 & Q5 & E)]; [by left| |].
  2: { destruct old; [by apply removeOld_steady|apply steady_ret]. }
  rewrite <- Q5. clear m4 Q5. apply started_then in E as [?|(sv & m6 & Q6 & E)]; [by left| |by apply steady_onStore].
  rewrite <- Q6. clear m5 Q6. right. exists sv. unfold mthen at 1, try in E.
  pose proof (steady_onStore mg_started (fun _ _ => eq_refl) (sys (svc_Start sv)) m6) as Hst.
  unfold onSys in E. destruct (onStore (sys (svc_Start sv)) m6) as [r7 m7] eqn:E7.
  specialize (Hst _ _ eq_refl). injection E as <- <-. cbn. by rewrite Hst.
Qed.

Section Start.
Context (confs : gostring -> option Config).

(** The stored configuration of [t] and [c] have an address or a route in
    common. *)
Definition conflicts (c : Config) (t : gostring) : bool :=
  match confs t with Some c2 => IntersectsWith c c2 | None => false end.

Fixpoint scan (c : Config) (tracked : list (gostring * TunnelState)) : list gostring * option gostring :=
  match tracked with
  | [] => ([], None)
  | (t, state) :: rest =>
      if negb (conflicts c t) then scan c rest
      else if inTransit state then ([t], Some t)
      else ((t :: (scan c rest).1), (scan c rest).2)
  end.

Lemma scan_spec c l :
  match (scan c l).2 with
  | Some t => exists state, (t, state) ∈ l /\ conflicts c t = true /\ inTransit state = true
  | None => (forall t state, (t, state) ∈ l -> conflicts c t = true -> inTransit state = false)
      /\ (scan c l).1 = List.filter (conflicts c) (map fst l)
  end.
Proof.
  induction l as [|[t state] l IH]; cbn [scan map List.filter fst]; [split; [set_solver|done]|].
  destruct (conflicts c t) eqn:Ec; cbn [negb].
  - destruct (inTransit state) eqn:Ei; cbn [fst snd].
    + exists state. split; [by left|done].
    + destruct (scan c l).2 as [t'|].
      * destruct IH as (state' & Hin & Hc). exists state'. split; [by right|done].
      * destruct IH as [IH ->]. split; [|done]. intros t' state' [[= -> ->]|Hin]%elem_of_cons; [done|by apply IH].
  - destruct (scan c l).2 as [t'|].
    + destruct IH as (state' & Hin & Hc). exists state'. split; [by right|done].
    + destruct IH as [IH ->]. split; [|done]. intros t' state' [[= -> ->]|Hin]%elem_of_cons; [congruence|by apply IH].
Qed.
Context (V : gmap path gofile) (O : gmap handle (path * bool)) (Hok : reliable).

Lemma storedAs_load t (m : mgr) :
  storedAs V t (confs t) -> at_ root V O (mg_store m) ->
  exists m', at_ root V O (mg_store m') /\ mg_started m' = mg_started m /\ mg_trackedTunnels m' = mg_trackedTunnels m /\
    match confs t with
    | Some c => onStore (LoadFromName decoders fuel t) m = (Ok c, m') /\ t <> []
    | None => exists e, onStore (LoadFromName decoders fuel t) m = (Err e, m')
    end.
Proof.
  intros Ht Hm. unfold onStore. destruct (confs t) as [c|]; cbn [storedAs] in Ht.
  - destruct Ht as (<- & Hw & f & Hf & Hb).
    destruct (LoadFromName_reads decoders fuel root V O f c Hw Hf Hb) as [_ HL]. destruct (HL Hok _ Hm) as (st & -> & Hst).
    exists (set_store st m). split; [exact Hst|]. do 3 (split; [reflexivity|]). intros E. destruct Hw as (Hv & _). by rewrite E in Hv.
  - destruct (LoadFromName_absent decoders fuel root V O t _ Hm Ht) as (e & st & -> & Hst).
    exists (set_store st m). split; [exact Hst|]. do 2 (split; [reflexivity|]). by eexists.
Qed.

Lemma intersecting_scan c l (m : mgr) :
  Forall (fun x => storedAs V x.1 (confs x.1)) l -> at_ root V O (mg_store m) ->
  exists m', intersecting decoders fuel c l m = (Ok (scan c l), m')
    /\ at_ root V O (mg_store m') /\ mg_started m' = mg_started m.
Proof.
  intros Hl. revert m; induction Hl as [|[t state] l Ht Hl IH]; intros m Hm; cbn [intersecting scan].
  { exists m. done. }
  destruct (storedAs_load t m Ht Hm) as (m1 & Hm1 & Hs1 & _ & Hload). unfold conflicts, mthen at 1, try. cbn [fst] in *.
  destruct (IH m1 Hm1) as (m2 & E2 & Hm2 & Hs2). rewrite Hs1 in Hs2.
  destruct (confs t) as [c2|]; [|destruct Hload as [e ->]; exists m2; auto].
  destruct Hload as [-> Hne]. destruct (IntersectsWith c c2); cbn [negb]; [|exists m2; auto].
  change (bool_decide (state = TunnelStarting) || bool_decide (state = TunnelUnknown)) with (inTransit state).
  destruct t as [|b t]; [done|]. cbn [length Nat.ltb Nat.leb andb].
  destruct (inTransit state); [by exists m1|].
  unfold mthen. rewrite E2. destruct (scan c l) as [x y]. exists m2. done.
Qed.

End Start.

End Methods.
