(* ===== verification/Tracker.v ===== *)
(** * The tunnel tracker: manager/tunneltracker.go

    For each service of a tunnel one tracker follows its state, keeps it in the
    map of tracked tunnels and tells the clients. Windows calls a tracker back
    with a status word; the calls are the [notices] of a run, in their order,
    each of them run to its end before the next. A tracker subscribes before it
    asks for the state of the service and makes the first call itself: [early]
    are the notices that are handled between the two, [late] those after.
    [tracking] is the manager with the notifications sent so far. *)

From S2P Require Import Prelude GoStrings GoNum Netip Config Name Paths WSTLS Parser Writer UAPI Driver Effects Store Services Updater Manager IPC.
Local Open Scope Z_scope.

Definition SERVICE_CONTINUE_PENDING : Z := 5.
Definition SERVICE_PAUSE_PENDING : Z := 6.
Definition SERVICE_PAUSED : Z := 7.
Definition SERVICE_NO_CHANGE : Z := 2 ^ 32 - 1.

Definition SERVICE_NOTIFY_STOPPED : Z := 1.
Definition SERVICE_NOTIFY_START_PENDING : Z := 2.
Definition SERVICE_NOTIFY_STOP_PENDING : Z := 4.
Definition SERVICE_NOTIFY_RUNNING : Z := 8.
Definition SERVICE_NOTIFY_CONTINUE_PENDING : Z := 16.
Definition SERVICE_NOTIFY_PAUSE_PENDING : Z := 32.
Definition SERVICE_NOTIFY_PAUSED : Z := 64.
Definition SERVICE_NOTIFY_DELETED : Z := 256.
Definition SERVICE_NOTIFY_DELETE_PENDING : Z := 512.

Definition svcStateToNotifyState (s : Z) : Z :=
  if s =? SERVICE_STOPPED then SERVICE_NOTIFY_STOPPED
  else if s =? SERVICE_START_PENDING then SERVICE_NOTIFY_START_PENDING
  else if s =? SERVICE_STOP_PENDING then SERVICE_NOTIFY_STOP_PENDING
  else if s =? SERVICE_RUNNING then SERVICE_NOTIFY_RUNNING
  else if s =? SERVICE_CONTINUE_PENDING then SERVICE_NOTIFY_CONTINUE_PENDING
  else if s =? SERVICE_PAUSE_PENDING then SERVICE_NOTIFY_PAUSE_PENDING
  else if s =? SERVICE_PAUSED then SERVICE_NOTIFY_PAUSED
  else if s =? SERVICE_NO_CHANGE then 0
  else 0.

Definition notifyStateToTunState (s : Z) : TunnelState :=
  if negb (Z.land s (Z.lor SERVICE_NOTIFY_STOPPED SERVICE_NOTIFY_DELETED) =? 0) then TunnelStopped
  else if negb (Z.land s (Z.lor SERVICE_NOTIFY_DELETE_PENDING SERVICE_NOTIFY_STOP_PENDING) =? 0) then TunnelStopping
  else if negb (Z.land s SERVICE_NOTIFY_RUNNING =? 0) then TunnelStarted
  else if negb (Z.land s SERVICE_NOTIFY_START_PENDING =? 0) then TunnelStarting
  else TunnelUnknown.

Definition ERROR_SERVICE_SPECIFIC_ERROR : Z := 1066.
Definition ERROR_SERVICE_NEVER_STARTED : Z := 1077.
Definition SERVICE_DISABLED : Z := 4.

(** The error a service that has stopped ended with. *)
Definition stopError (status : svcStatus) : option goerr :=
  if ss_Win32ExitCode status =? ERROR_SERVICE_SPECIFIC_ERROR then
    if negb (ss_ServiceSpecificExitCode status =? ErrorSuccess)
    then Some (ErrText (ErrorText (ss_ServiceSpecificExitCode status))) else None
  else if (ss_Win32ExitCode status =? NO_ERROR) || (ss_Win32ExitCode status =? ERROR_SERVICE_NEVER_STARTED) then None
  else Some (ErrCode (ss_Win32ExitCode status)).

Record tracking (W service adapter : Type) : Type := mkTracking {
  tk_mgr : mgr W service adapter;
  tk_notified : list notification
}.
Arguments mkTracking {W service adapter}.
Arguments tk_mgr {W service adapter}.
Arguments tk_notified {W service adapter}.

Section Tracker.
Context {W handle service adapter pipe : Type}.
Context `{FileSystem W handle} `{ServiceSystem W service adapter pipe} `{ErrorTexts}.
Context (fuel : nat) (trackedOrder : gmap gostring TunnelState -> list (gostring * TunnelState)).

Abbreviation mgr := (mgr W service adapter).
Abbreviation tracking := (tracking W service adapter).

Definition onMgr {A} (f : M mgr A) : M tracking A :=
  fun t => let '(r, m) := f (tk_mgr t) in (r, mkTracking m (tk_notified t)).
Definition skip {A} (f : M mgr A) : M tracking unit := onMgr (ignore f).

Definition setTracked (tunnelName : gostring) (state : TunnelState) : M tracking unit :=
  onMgr (mmod (fun m => set_tracked (<[tunnelName := state]> (mg_trackedTunnels m)) m)).

Definition errString (err : option goerr) : gostring := match err with Some e => errText e | None => [] end.

(** ipc_server.go: the global state is that of the moment. *)
Definition IPCServerNotifyTunnelChange (name : gostring) (state : TunnelState) (err : option goerr) : M tracking unit :=
  do! globalState := onMgr (trackedTunnelsGlobalState trackedOrder) in
  fun t => (Ok tt, mkTracking (tk_mgr t) (tk_notified t ++ [TunnelChange name state globalState (errString err)])).

(** The loop that waits for the service to leave the stopped state. *)
Fixpoint awaitStart (rounds : nat) (s : service) : M tracking unit :=
  match rounds with
  | O => mret tt
  | S rounds' =>
      do! status := try (onMgr (onSys (svc_Query s))) in
      match status with
      | Ok st => if negb (ss_State st =? SERVICE_STOPPED) then mret tt else awaitStart rounds' s
      | Err _ => mret tt
      end
  end.

Definition checkForDisabled (tunnelName : gostring) (s : service) : M tracking bool :=
  do! startType := try (onMgr (onSys (svc_StartType s))) in
  if match startType with Err e => marked e | Ok t => t =? SERVICE_DISABLED end then
    do! _ := skip (onSys (svc_Delete s)) in
    do! _ := setTracked tunnelName TunnelStopped in
    do! _ := onMgr (releaseDriverAdapter tunnelName) in
    do! _ := IPCServerNotifyTunnelChange tunnelName TunnelStopped None in
    mret true
  else mret false.

(** The error of a tunnel that has stopped; a service that ended with one is
    deleted. *)
Definition stoppedError (s : service) : M tracking (option goerr) :=
  do! status := try (onMgr (onSys (svc_Query s))) in
  let err := match status with Ok st => stopError st | Err _ => None end in
  do! _ := match err with Some _ => skip (onSys (svc_Delete s)) | None => mret tt end in
  mret err.

(** The callback: the last state after it, and whether the tracker is done. *)
Definition onStatus (tunnelName : gostring) (s : service) (lastState : TunnelState) (status : Z)
    : M tracking (TunnelState * bool) :=
  let state := notifyStateToTunState status in
  do! tunnelError := if bool_decide (state = TunnelStopped) then stoppedError s else mret None in
  do! _ := if negb (bool_decide (state = lastState)) then
             do! _ := setTracked tunnelName state in
             do! _ := if bool_decide (state = TunnelStopped) then onMgr (releaseDriverAdapter tunnelName) else mret tt in
             IPCServerNotifyTunnelChange tunnelName state tunnelError
           else mret tt in
  do! disabled := if bool_decide (state = TunnelUnknown) then checkForDisabled tunnelName s else mret false in
  mret (state, disabled || bool_decide (state = TunnelStopped)).

(** serviceSubscriptionCallbackPtr: an empty notification asks for the state. *)
Definition onNotice (tunnelName : gostring) (s : service) (lastState : TunnelState) (notification : Z)
    : M tracking (TunnelState * bool) :=
  do! word := if notification =? 0 then
                do! status := try (onMgr (onSys (svc_Query s))) in
                mret (match status with Ok st => svcStateToNotifyState (ss_State st) | Err _ => notification end)
              else mret notification in
  onStatus tunnelName s lastState word.

(** The notices until one ends the tracker, which later ones do not reach; the last
    state, and whether it has ended. *)
Fixpoint notices (tunnelName : gostring) (s : service) (lastState : TunnelState) (l : list Z) : M tracking (TunnelState * bool) :=
  match l with
  | [] => mret (lastState, false)
  | n :: l' =>
      do! (lastState', done) := onNotice tunnelName s lastState n in
      if done : bool then mret (lastState', true) else notices tunnelName s lastState' l'
  end.

(** Once it is subscribed. The first call is made with the state that was asked
    for, whatever the early notices said. It waits for good when the notices run
    out: the answer is false. *)
Definition watchService (tunnelName : gostring) (s : service) (early late : list Z) : M tracking bool :=
  do! status := try (onMgr (onSys (svc_Query s))) in
  do! (lastState, over) := notices tunnelName s TunnelUnknown early in
  do! (lastState, done) := match status with
                           | Ok st => onStatus tunnelName s lastState (svcStateToNotifyState (ss_State st))
                           | Err _ => mret (lastState, false)
                           end in
  do! (lastState, done) := if over || done then mret (lastState, true) else notices tunnelName s lastState late in
  do! _ := if done : bool then skip (onSys (svc_Unsubscribe s)) else mret tt in
  mret done.

Definition trackService (tunnelName : gostring) (s : service) (early late : list Z) : M tracking bool :=
  do! _ := onMgr (onSys (svc_Subscribe s)) in
  watchService tunnelName s early late.

(** A tracker starts unless the tunnel has one. *)
Definition enterTracker (tunnelName : gostring) (s : service) : M tracking bool :=
  do! tracked := onMgr (mget mg_trackedTunnels) in
  match tracked !! tunnelName with
  | Some _ => do! _ := skip (onSys (svc_Close s)) in mret false
  | None => do! _ := setTracked tunnelName TunnelUnknown in mret true
  end.

(** The deferred functions. *)
Definition leaveTracker (tunnelName : gostring) (s : service) : M tracking unit :=
  do! _ := onMgr (mmod (fun m => set_tracked (delete tunnelName (mg_trackedTunnels m)) m)) in
  skip (onSys (svc_Close s)).

(** What follows an error of trackService. *)
Definition abandonTunnel (tunnelName : gostring) (s : service) (e : goerr) : M tracking bool :=
  do! disabled := checkForDisabled tunnelName s in
  if disabled : bool then mret true
  else
    do! _ := setTracked tunnelName TunnelStopped in
    do! _ := onMgr (releaseDriverAdapter tunnelName) in
    do! _ := IPCServerNotifyTunnelChange tunnelName TunnelStopped
               (Some (ErrWrap "Unable to continue monitoring service, so stopping" [] e)) in
    do! _ := skip (onSys (svc_ControlStop s)) in
    mret true.

(** The tracking of a tunnel between the two: whether it has ended. *)
Definition followTunnel (tunnelName : gostring) (s : service) (early late : list Z) : M tracking bool :=
  do! _ := awaitStart 20 s in
  do! disabled := checkForDisabled tunnelName s in
  if disabled : bool then mret true
  else
    do! r := try (trackService tunnelName s early late) in
    match r with
    | Ok ended => mret ended
    | Err e => abandonTunnel tunnelName s e
    end.

Definition trackTunnelService (tunnelName : gostring) (s : service) (early late : list Z) : M tracking bool :=
  do! entered := enterTracker tunnelName s in
  if entered : bool then
    do! ended := followTunnel tunnelName s early late in
    if ended : bool then do! _ := leaveTracker tunnelName s in mret true else mret false
  else mret true.

(** ** Services that are there already, and new ones *)

Fixpoint trackNames (names : list gostring) : M mgr unit :=
  match names with
  | [] => mret tt
  | name :: names' =>
      do! tracked := mget mg_trackedTunnels in
      do! _ := match tracked !! name with
               | Some _ => mret tt
               | None =>
                   match ServiceNameOfTunnel name with
                   | Err _ => mret tt
                   | Ok serviceName =>
                       do! opened := try (onSys (mgr_OpenService serviceName)) in
                       match opened with
                       | Err _ => mret tt
                       | Ok s => go (TrackTunnel name s)
                       end
                   end
               end in
      trackNames names'
  end.

Definition trackExistingTunnels : M mgr unit :=
  do! _ := serviceManager in
  do! names := onStore (ListConfigNames fuel) in
  trackNames names.

Definition watchNewTunnelServices : M mgr unit :=
  do! _ := serviceManager in
  do! _ := onSys mgr_SubscribeDatabase in
  trackExistingTunnels.
End Tracker.
