(* ===== verification/TrackerTheorems.v ===== *)
(** * What a tracker tells

    One tracker per tunnel, whose entry in the map of tracked tunnels is what the
    clients were last told: the states the service reports, each change once. *)

From S2P Require Import Prelude GoStrings GoNum Netip Config Name Paths WSTLS Parser Writer UAPI Driver Effects Store Services Updater Manager IPC Tracker.
Local Open Scope Z_scope.

(** ** States and errors *)

(** The state of a service that the tracker makes of a status word is the one
    that State reports for the same service. *)
Theorem tracker_State_agree s : notifyStateToTunState (svcStateToNotifyState s) = stateOfService s.
Proof.
  unfold svcStateToNotifyState, stateOfService.
  repeat match goal with |- context [s =? ?c] => destruct (Z.eqb_spec s c); [subst; done|] end. done.
Qed.

(** The status of a service whose Execute returned [ec]. *)
Definition exitStatus (ec : bool * Z) : svcStatus :=
  if ec.1 then mkStatus SERVICE_STOPPED ERROR_SERVICE_SPECIFIC_ERROR ec.2 else mkStatus SERVICE_STOPPED ec.2 0.

Definition reported (err : option goerr) (serviceError : Z) : option goerr :=
  match err ≫= asErrno with
  | Some code => Some (ErrCode code)
  | None => if serviceError =? ErrorSuccess then None else Some (ErrText (ErrorText serviceError))
  end.

(** The tracker reports the error that a service ended with: the error of
    Windows where there was one, else the service's own. Three codes of Windows
    cannot be told from those the tracker gives another meaning. *)
Theorem exit_error_reported err serviceError :
  (forall code, err ≫= asErrno = Some code ->
     code <> NO_ERROR /\ code <> ERROR_SERVICE_NEVER_STARTED /\ code <> ERROR_SERVICE_SPECIFIC_ERROR) ->
  stopError (exitStatus (DetermineErrorCode err serviceError)) = reported err serviceError.
Proof.
  intros Hc. unfold DetermineErrorCode, reported.
  assert (Hse : stopError (exitStatus (if negb (serviceError =? ErrorSuccess) then (true, serviceError) else (false, NO_ERROR)))
    = if serviceError =? ErrorSuccess then None else Some (ErrText (ErrorText serviceError))).
  { destruct (serviceError =? ErrorSuccess) eqn:E; [done|]. unfold stopError, exitStatus. cbn. by rewrite E. }
  destruct err as [e|]; [|done]. cbn [mbind option_bind] in *. destruct (asErrno e) as [code|]; [|done].
  destruct (Hc code eq_refl) as (H1 & H2 & H3). unfold stopError, exitStatus. cbn [fst snd ss_Win32ExitCode].
  destruct (Z.eqb_spec code ERROR_SERVICE_SPECIFIC_ERROR), (Z.eqb_spec code NO_ERROR),
    (Z.eqb_spec code ERROR_SERVICE_NEVER_STARTED); done.
Qed.

Lemma exit_error_reported_witness :
  stopError (exitStatus (DetermineErrorCode (Some (ErrWrap "unable to set routes" [] (ErrCode 1168))) ErrorSetNetConfig))
  = Some (ErrCode 1168).
Proof.
  rewrite (exit_error_reported (Some (ErrWrap "unable to set routes" [] (ErrCode 1168))) ErrorSetNetConfig).
  - reflexivity.
  - intros code [= <-]. done.
Defined.

(** ** One tracker *)

Fixpoint chain (last : TunnelState) (states : list TunnelState) : Prop :=
  match states with
  | [] => True
  | s :: rest => s <> last /\ chain s rest
  end.

Fixpoint final (last : TunnelState) (states : list TunnelState) : TunnelState :=
  match states with
  | [] => last
  | s :: rest => final s rest
  end.

(** The changes among the states that were seen. *)
Fixpoint changes (last : TunnelState) (seen : list TunnelState) : list TunnelState :=
  match seen with
  | [] => []
  | x :: rest => if bool_decide (x = last) then changes last rest else x :: changes x rest
  end.

Lemma changes_chain last seen : chain last (changes last seen).
Proof.
  revert last; induction seen as [|x seen IH]; intros last; cbn [changes]; [done|].
  case_bool_decide; [apply IH|]. by split; [|apply IH].
Qed.
Lemma final_changes last seen : final last (changes last seen) = final last seen.
Proof.
  revert last; induction seen as [|x seen IH]; intros last; cbn [changes final]; [done|].
  case_bool_decide; [subst; apply IH|]. cbn [final]. apply IH.
Qed.
Lemma changes_app last l1 l2 : changes last (l1 ++ l2) = changes last l1 ++ changes (final last l1) l2.
Proof.
  revert last; induction l1 as [|x l1 IH]; intros last; cbn [changes app final]; [done|].
  case_bool_decide; [subst; apply IH|]. cbn [app]. by rewrite IH.
Qed.

Lemma chain_app last l1 l2 : chain last (l1 ++ l2) <-> chain last l1 /\ chain (final last l1) l2.
Proof. revert last; induction l1 as [|s l1 IH]; intros last; cbn [app chain final]; [naive_solver|]. rewrite IH. naive_solver. Qed.

Lemma final_app last l1 l2 : final last (l1 ++ l2) = final (final last l1) l2.
Proof. revert last; induction l1 as [|s l1 IH]; intros last; cbn [app final]; [done|]. apply IH. Qed.

Lemma final_in last l : l <> [] -> final last l ∈ l.
Proof.
  revert last; induction l as [|x l IH]; intros last Hne; [done|]. cbn [final]. destruct l as [|y l]; [left|]. right. by apply IH.
Qed.

Section Trackers.
Context {W handle service adapter pipe : Type}.
Context `{FileSystem W handle} `{ServiceSystem W service adapter pipe} `{ErrorTexts}.
Context (fuel : nat) (trackedOrder : gmap gostring TunnelState -> list (gostring * TunnelState)).

Abbreviation tracking := (Tracker.tracking W service adapter).
Abbreviation tracked t := (mg_trackedTunnels (tk_mgr t)).
Abbreviation adapters t := (mg_driverAdapters (tk_mgr t)).

(** The notification of a state, with the global state at that time. *)
Definition note (name : gostring) (others : gmap gostring TunnelState) (x : TunnelState * gostring) : notification :=
  TunnelChange name x.1 (globalStateLoop TunnelStopped (trackedOrder (<[name := x.1]> others))) x.2.

(** What the service control manager answers for a service, in some state, and the
    tunnel state that is the meaning of a service state and of a status word, bit
    by bit. *)
Definition answers {A} (f : service -> M W A) (s : service) (r : result A) : Prop := exists w w', f s w = (r, w').

Definition serviceMeans (x : Z) : TunnelState :=
  match x with
  | 1 => TunnelStopped
  | 2 => TunnelStarting
  | 3 => TunnelStopping
  | 4 => TunnelStarted
  | _ => TunnelUnknown
  end.
Definition wordMeans (n : Z) : TunnelState :=
  if Z.testbit n 0 || Z.testbit n 8 then TunnelStopped
  else if Z.testbit n 2 || Z.testbit n 9 then TunnelStopping
  else if Z.testbit n 3 then TunnelStarted
  else if Z.testbit n 1 then TunnelStarting
  else TunnelUnknown.

(** A service that is disabled or about to be deleted. *)
Definition disabled (s : service) : Prop :=
  answers svc_StartType s (Ok SERVICE_DISABLED) \/ answers svc_StartType s (Err (ErrCode ERROR_SERVICE_MARKED_FOR_DELETE)).

(** The text with which the end of a tunnel is told: the error its service ended
    with, or the one that ended the tracker. *)
Inductive stopText (s : service) : gostring -> Prop :=
  | st_ended st : answers svc_Query s (Ok st) -> stopText s (errString (stopError st))
  | st_unknown e : answers svc_Query s (Err e) -> stopText s []
  | st_disabled : disabled s -> stopText s []
  | st_lost e : answers svc_Subscribe s (Err e) ->
      stopText s (errText (ErrWrap "Unable to continue monitoring service, so stopping" [] e)).
Definition explained (s : service) (x : TunnelState * gostring) : Prop :=
  match x.1 with TunnelStopped => stopText s x.2 | _ => x.2 = [] end.

(** Between [t] and [t'] the tracker of [name] went from the state [last] to
    [last'] through the states it saw, [seen], and told their changes. *)
Record tells (name : gostring) (s : service) (last : TunnelState) (t : tracking) (seen : list TunnelState) (last' : TunnelState) (t' : tracking)
    : Prop := {
  tl_tracked : tracked t' = <[name := last']> (tracked t);
  tl_others : forall n, n <> name -> adapters t' !! n = adapters t !! n;
  tl_own : adapters t' !! name = adapters t !! name \/ adapters t' !! name = None;
  tl_last : last' = final last seen;
  tl_notified : exists l, tk_notified t' = tk_notified t ++ map (note name (tracked t)) l
    /\ map fst l = changes last seen /\ Forall (explained s) l
    /\ (TunnelStopped ∈ map fst l -> adapters t' !! name = None)
}.

Lemma tells_refl name s last t t' :
  tracked t !! name = Some last -> tracked t' = tracked t -> adapters t' = adapters t ->
  tk_notified t' = tk_notified t -> tells name s last t [] last t'.
Proof.
  intros Hn Ht Ha Hs. split; [by rewrite Ht, insert_id|by rewrite Ha|left; by rewrite Ha|done|].
  exists []. cbn. rewrite app_nil_r. repeat split; [done|constructor|]. by intros ?%elem_of_nil.
Qed.

(** A state that is the one told last is not told again. *)
Lemma tells_again name s last t t' :
  tracked t !! name = Some last -> tracked t' = tracked t -> adapters t' = adapters t ->
  tk_notified t' = tk_notified t -> tells name s last t [last] last t'.
Proof.
  intros Hn Ht Ha Hs. destruct (tells_refl name s last t t' Hn Ht Ha Hs) as [H1' H2' H3' H4' H5']. split; try done.
  cbn [changes]. by rewrite bool_decide_true.
Qed.

Lemma tells_trans name s last t1 l1 last1 t2 l2 last2 t3 :
  tells name s last t1 l1 last1 t2 -> tells name s last1 t2 l2 last2 t3 -> tells name s last t1 (l1 ++ l2) last2 t3.
Proof.
  intros [Ht Ho Hw Hf (l & Hl & Hc & He & Ha)] [Ht' Ho' Hw' Hf' (l' & Hl' & Hc' & He' & Ha')]. split.
  - by rewrite Ht', Ht, insert_insert_eq.
  - intros n Hn. by rewrite Ho', Ho.
  - destruct Hw' as [-> | ->]; [|by right]. destruct Hw as [-> | ->]; [by left|by right].
  - by rewrite final_app, <- Hf.
  - exists (l ++ l'). rewrite Hl', Hl, !map_app, <- (assoc_L (++)), changes_app, <- Hf, Hc, Hc'. split; [|split; [done|split]].
    + do 2 f_equal. apply map_ext. intros x. unfold note. by rewrite Ht, insert_insert_eq.
    + by apply Forall_app.
    + rewrite Hc in Ha. rewrite Hc' in Ha'. intros [Hin|Hin]%elem_of_app; [|by apply Ha'].
      destruct Hw' as [-> | ->]; [by apply Ha|done].
Qed.

Lemma tells_tracked name s last t l last' t' : tells name s last t l last' t' -> tracked t' !! name = Some last'.
Proof. intros [-> _ _ _ _]. apply lookup_insert_eq. Qed.

(** *** The parts of the tracker *)

(** A system call of the tracker does not fail it, and keeps what is tracked. *)
Definition calm (t t' : tracking) : Prop :=
  tracked t' = tracked t /\ adapters t' = adapters t /\ tk_notified t' = tk_notified t.

Lemma calm_trans t1 t2 t3 : calm t1 t2 -> calm t2 t3 -> calm t1 t3.
Proof. unfold calm. intros (-> & -> & ->) (-> & -> & ->). done. Qed.

Lemma calm_tells name s last t t' : tracked t !! name = Some last -> calm t t' -> tells name s last t [] last t'.
Proof. intros Hn (? & ? & ?). by apply tells_refl. Qed.

Lemma onSys_calm {A} (f : M W A) t : calm t (onMgr (onSys f) t).2.
Proof. unfold onMgr, onSys, onStore. destruct (sys f (mg_store (tk_mgr t))) as [r st]. done. Qed.

Lemma onSys_answer {A} (f : service -> M W A) s (t : tracking) : answers f s (onMgr (onSys (f s)) t).1.
Proof.
  unfold onMgr, onSys, onStore, sys. destruct (f s (st_sys (mg_store (tk_mgr t)))) as [r w] eqn:E. by eexists _, _.
Qed.

Lemma trySys_run {A} (f : service -> M W A) s (t : tracking) :
  exists r t', try (onMgr (onSys (f s))) t = (Ok r, t') /\ calm t t' /\ answers f s r.
Proof.
  pose proof (onSys_calm (f s) t) as Hc. pose proof (onSys_answer f s t) as Ha. unfold try.
  destruct (onMgr (onSys (f s)) t) as [r t']. by exists r, t'.
Qed.

Lemma skipSys_run {A} (f : M W A) (t : tracking) : exists t', skip (onSys f) t = (Ok tt, t') /\ calm t t'.
Proof.
  unfold skip, onMgr, ignore, mthen, try, onSys, onStore. destruct (sys f (mg_store (tk_mgr t))) as [r st].
  eexists. split; [reflexivity|]. done.
Qed.

(** The change of the map and the release of the adapter, then the
    notification. *)
Definition announce (name : gostring) (state : TunnelState) (err : option goerr) : M tracking unit :=
  do! _ := setTracked name state in
  do! _ := if bool_decide (state = TunnelStopped) then onMgr (releaseDriverAdapter name) else mret tt in
  IPCServerNotifyTunnelChange trackedOrder name state err.

Lemma release_run name (t : tracking) : exists t', onMgr (releaseDriverAdapter name) t = (Ok tt, t')
  /\ tracked t' = tracked t /\ adapters t' = delete name (adapters t) /\ tk_notified t' = tk_notified t.
Proof.
  unfold onMgr, releaseDriverAdapter, mthen, mget. destruct (adapters t !! name) as [a|] eqn:Ea.
  - unfold mmod, ignore, mthen, try, onSys, onStore. cbn [mg_store set_adapters].
    destruct (sys (adapter_Close a) (mg_store (tk_mgr t))) as [r st]. eexists. split; [reflexivity|]. done.
  - eexists. split; [reflexivity|]. cbn. by rewrite delete_id.
Qed.

Lemma announce_run name s last state err t :
  tracked t !! name = Some last -> state <> last -> explained s (state, errString err) ->
  exists t', announce name state err t = (Ok tt, t') /\ tells name s last t [state] state t'.
Proof.
  intros Hn Hs Hx. unfold announce, mthen at 1, setTracked, onMgr at 1, mmod. cbn [tk_mgr].
  set (t1 := mkTracking (set_tracked _ _) _).
  assert (Hrel : exists t2, (if bool_decide (state = TunnelStopped) then onMgr (releaseDriverAdapter name) else mret tt) t1
      = (Ok tt, t2) /\ tracked t2 = tracked t1 /\ tk_notified t2 = tk_notified t1
      /\ (forall n, n <> name -> adapters t2 !! n = adapters t !! n)
      /\ (adapters t2 !! name = adapters t !! name \/ adapters t2 !! name = None)
      /\ (state = TunnelStopped -> adapters t2 !! name = None)).
  { case_bool_decide as Es.
    - destruct (release_run name t1) as (t2 & -> & H1' & H2' & H3'). exists t2. rewrite H1', H2', H3'.
      repeat split; [intros n Hne; by rewrite lookup_delete_ne|right; apply lookup_delete_eq|
        intros _; apply lookup_delete_eq].
    - exists t1. repeat split; [by left|done]. }
  destruct Hrel as (t2 & E2 & Ht2 & Hn2 & Ho2 & Hw2 & Hs2). unfold mthen at 1. rewrite E2.
  unfold IPCServerNotifyTunnelChange, mthen, onMgr, trackedTunnelsGlobalState, mget, mthen, mret.
  eexists. split; [reflexivity|]. split; [cbn; rewrite Ht2; done|exact Ho2|exact Hw2|done|].
  exists [(state, errString err)]. cbn [tk_notified tk_mgr map changes final fst]. rewrite Hn2, Ht2, bool_decide_false by done.
  split; [done|]. split; [done|]. split; [by constructor|]. intros Hin%list_elem_of_singleton. by apply Hs2.
Qed.

(** A run that succeeds, sees [seen] and leaves the tracker of [name] in [last']. *)
Definition runs {A} (name : gostring) (s : service) (last : TunnelState) (t : tracking) (f : M tracking A)
    (Q : A -> list TunnelState -> TunnelState -> Prop) : Prop :=
  exists a seen last' t', f t = (Ok a, t') /\ tells name s last t seen last' t' /\ Q a seen last'.

Lemma runs_ret {A} name s last t (a : A) (Q : A -> _ -> _ -> Prop) :
  tracked t !! name = Some last -> Q a [] last -> runs name s last t (mret a) Q.
Proof. intros Hn Hq. exists a, [], last, t. split; [done|]. split; [|done]. by apply calm_tells. Qed.

Lemma runs_bind {A B} name s last t (f : M tracking A) (k : A -> M tracking B) Q (R : B -> _ -> _ -> Prop) :
  runs name s last t f Q ->
  (forall a l1 last1 t1, tracked t1 !! name = Some last1 -> Q a l1 last1 ->
     runs name s last1 t1 (k a) (fun b l2 last2 => R b (l1 ++ l2) last2)) ->
  runs name s last t (mthen f k) R.
Proof.
  intros (a & l1 & last1 & t1 & E1 & Ht1 & Hq) Hk. pose proof (tells_tracked _ _ _ _ _ _ _ Ht1) as Hn1.
  destruct (Hk a l1 last1 t1 Hn1 Hq) as (b & l2 & last2 & t2 & E2 & Ht2 & Hr).
  exists b, (l1 ++ l2), last2, t2. unfold mthen. rewrite E1. split; [done|]. split; [by eapply tells_trans|done].
Qed.

Lemma runs_weaken {A} name s last t (f : M tracking A) (Q R : A -> list TunnelState -> TunnelState -> Prop) :
  runs name s last t f Q -> (forall a l x, Q a l x -> R a l x) -> runs name s last t f R.
Proof. intros (a & l & x & t' & E & Ht & Hq) Hqr. exists a, l, x, t'. auto. Qed.

(** Steps that see nothing. *)
Lemma runs_quiet {A B} name s last t (f : M tracking A) (k : A -> M tracking B) (P : A -> Prop) (R : B -> _ -> _ -> Prop) :
  runs name s last t f (fun a l x => l = [] /\ x = last /\ P a) ->
  (forall a t1, tracked t1 !! name = Some last -> P a -> runs name s last t1 (k a) R) ->
  runs name s last t (mthen f k) R.
Proof. intros Hf Hk. eapply runs_bind; [exact Hf|]. intros a l1 last1 t1 Ht1 (-> & -> & HP). by apply Hk. Qed.

Lemma runs_trySys {A} name s last t (f : service -> M W A) :
  tracked t !! name = Some last -> runs name s last t (try (onMgr (onSys (f s)))) (fun r l x => l = [] /\ x = last /\ answers f s r).
Proof.
  intros Hn. destruct (trySys_run f s t) as (r & t' & E & Hc & Ha). exists r, [], last, t'.
  split; [done|]. split; [by apply calm_tells|done].
Qed.

Lemma runs_skipSys {A} name s last t (f : M W A) :
  tracked t !! name = Some last -> runs name s last t (skip (onSys f)) (fun _ l x => l = [] /\ x = last /\ True).
Proof.
  intros Hn. destruct (skipSys_run f t) as (t' & E & Hc). exists tt, [], last, t'.
  split; [done|]. split; [by apply calm_tells|done].
Qed.

Lemma runs_announce name s last state err t :
  tracked t !! name = Some last -> state <> last -> explained s (state, errString err) ->
  runs name s last t (announce name state err) (fun _ l x => l = [state] /\ x = state).
Proof. intros Hn Hs Hx. destruct (announce_run name s last state err t Hn Hs Hx) as (t' & E & Ht). by exists tt, [state], state, t'. Qed.

Lemma announce_stopped {B} name err (k : M tracking B) t :
  (do! _ := setTracked name TunnelStopped in
   do! _ := onMgr (releaseDriverAdapter name) in
   do! _ := IPCServerNotifyTunnelChange trackedOrder name TunnelStopped err in k) t
  = (do! _ := announce name TunnelStopped err in k) t.
Proof.
  unfold announce. rewrite bool_decide_true by done. rewrite mthen_assoc. unfold mthen at 1. symmetry. unfold mthen at 1.
  destruct (setTracked name TunnelStopped t) as [[u|e] t1]; [|done]. by rewrite mthen_assoc.
Qed.

Lemma runs_ext {A} name s last t (f g : M tracking A) Q : f t = g t -> runs name s last t g Q -> runs name s last t f Q.
Proof. intros E (a & l & x & t' & Eg & Hq). exists a, l, x, t'. by rewrite E. Qed.

(** A tunnel that is given up, and what follows. *)
Lemma runs_stop {B} name s last err (k : M tracking B) t (R : B -> _ -> _ -> Prop) :
  tracked t !! name = Some last -> last <> TunnelStopped -> stopText s (errString err) ->
  (forall t1, tracked t1 !! name = Some TunnelStopped ->
     runs name s TunnelStopped t1 k (fun b l x => R b (TunnelStopped :: l) x)) ->
  runs name s last t (do! _ := setTracked name TunnelStopped in
   do! _ := onMgr (releaseDriverAdapter name) in
   do! _ := IPCServerNotifyTunnelChange trackedOrder name TunnelStopped err in k) R.
Proof.
  intros Hn Hl Hx Hk. eapply runs_ext; [apply announce_stopped|]. eapply runs_bind; [by apply runs_announce|].
  intros u l1 last1 t1 Ht1 [-> ->]. by apply Hk.
Qed.

Lemma runs_awaitStart name s last rounds t :
  tracked t !! name = Some last -> runs name s last t (awaitStart rounds s) (fun _ l x => l = [] /\ x = last /\ True).
Proof.
  revert t; induction rounds as [|rounds IH]; intros t Hn; cbn [awaitStart]; [by apply runs_ret|].
  eapply runs_quiet; [by apply runs_trySys|]. intros status t1 Ht1 _.
  destruct status as [st|e]; [|by apply runs_ret]. destruct (negb _); [by apply runs_ret|by apply IH].
Qed.

Lemma runs_checkForDisabled name s last t :
  tracked t !! name = Some last -> last <> TunnelStopped ->
  runs name s last t (checkForDisabled trackedOrder name s)
    (fun b l x => if b : bool then disabled s /\ l = [TunnelStopped] /\ x = TunnelStopped else l = [] /\ x = last).
Proof.
  intros Hn Hl. unfold checkForDisabled. eapply runs_quiet; [by apply runs_trySys|]. intros st t1 Ht1 Ha.
  assert (Hd : match st with Ok t => t =? SERVICE_DISABLED | Err e => marked e end = true -> disabled s).
  { unfold marked. destruct st as [ty|e]; [intros ->%Z.eqb_eq; by left|]. case_bool_decide as He; [intros _; right; by rewrite <- He|done]. }
  destruct (match st with Ok t0 => _ | Err e => _ end); [|by apply runs_ret]. specialize (Hd eq_refl).
  eapply runs_quiet; [by apply runs_skipSys|]. intros u t2 Ht2 _.
  apply (runs_stop name s last); [done|done|by apply st_disabled|]. intros t3 Ht3. by apply runs_ret.
Qed.

Lemma runs_stoppedError name s last t :
  tracked t !! name = Some last ->
  runs name s last t (stoppedError s) (fun err l x => l = [] /\ x = last /\ stopText s (errString err)).
Proof.
  intros Hn. unfold stoppedError. eapply runs_quiet; [by apply runs_trySys|]. intros st t1 Ht1 Ha. cbv zeta.
  eapply (runs_quiet _ _ _ _ _ _ (fun _ => True)).
  { destruct (match st with Ok st => stopError st | Err _ => None end); [by apply runs_skipSys|by apply runs_ret]. }
  intros u t2 Ht2 _. apply runs_ret; [done|]. do 2 (split; [done|]). destruct st as [st|e]; [by apply st_ended|by eapply st_unknown].
Qed.

(** What a callback that finds the state [x] sees, and whether the tracker is done:
    when the service has stopped, or is disabled. *)
Inductive sight (s : service) (x : TunnelState) : list TunnelState -> bool -> Prop :=
  | si_goes : x <> TunnelStopped -> sight s x [x] false
  | si_stopped : x = TunnelStopped -> sight s x [x] true
  | si_disabled : x = TunnelUnknown -> disabled s -> sight s x [x; TunnelStopped] true.

Lemma sight_final s x seen b last : sight s x seen b -> (b = true <-> final last seen = TunnelStopped).
Proof. destruct 1 as [Hx| -> |]; cbn; naive_solver. Qed.

Lemma runs_onStatus name s last word t :
  tracked t !! name = Some last ->
  runs name s last t (onStatus trackedOrder name s last word)
    (fun r seen x => sight s (notifyStateToTunState word) seen r.2 /\ (r.2 = false -> x = r.1) /\ (r.2 = true -> x = TunnelStopped)).
Proof.
  intros Hn. unfold onStatus. cbv zeta. set (state := notifyStateToTunState word).
  eapply (runs_quiet _ _ _ _ _ _ (fun err => explained s (state, errString err))).
  { unfold explained. case_bool_decide as Es.
    - eapply runs_weaken; [by apply runs_stoppedError|]. cbn [fst snd]. by rewrite Es.
    - apply runs_ret; [done|]. do 2 (split; [done|]). by destruct state. }
  intros err t1 Ht1 Hx. eapply (runs_bind _ _ _ _ _ _ (fun _ l x => l = [state] /\ x = state)).
  { case_bool_decide as Es; cbn [negb]; [|by apply (runs_announce name s last state err)].
    exists tt, [state], state, t1. split; [done|]. split; [|done]. rewrite Es. by apply tells_again. }
  intros u l1 last1 t2 Ht2 [-> ->].
  eapply (runs_bind _ _ _ _ _ _ (fun b l x => if b : bool then state = TunnelUnknown /\ disabled s /\ l = [TunnelStopped] /\ x = TunnelStopped else l = [] /\ x = state)).
  { case_bool_decide as Eu; [|by apply runs_ret]. eapply runs_weaken; [apply runs_checkForDisabled; [done|by rewrite Eu]|].
    intros [] l x; naive_solver. }
  intros b l2 last2 t3 Ht3 Hb. apply runs_ret; [done|]. rewrite app_nil_r. cbn [fst snd].
  destruct b; cbn [orb].
  - destruct Hb as (Eu & Hd & -> & ->). split; [by apply si_disabled|done].
  - destruct Hb as [-> ->]. rewrite app_nil_r. case_bool_decide; split; [by apply si_stopped|done|by apply si_goes|done].
Qed.

Lemma wordMeans_correct n : notifyStateToTunState n = wordMeans n.
Proof.
  assert (Hbit : forall k, 0 <= k -> (Z.land n (2 ^ k) =? 0) = negb (Z.testbit n k)).
  { intros k Hk. destruct (Z.testbit n k) eqn:Eb; cbn [negb].
    - apply Z.eqb_neq. intros E. assert (Hz : Z.testbit (Z.land n (2 ^ k)) k = false) by (by rewrite E, Z.bits_0).
      by rewrite Z.land_spec, Z.pow2_bits_true, Eb in Hz.
    - apply Z.eqb_eq. apply Z.bits_inj'. intros i Hi. rewrite Z.land_spec, Z.bits_0. destruct (decide (i = k)) as [->|Hne].
      + by rewrite Eb.
      + by rewrite Z.pow2_bits_false, andb_false_r. }
  assert (Htwo : forall j k, 0 <= j -> 0 <= k -> (Z.land n (Z.lor (2 ^ j) (2 ^ k)) =? 0) = negb (Z.testbit n j || Z.testbit n k)).
  { intros j k Hj Hk. rewrite Z.land_lor_distr_r. pose proof (Hbit j Hj) as Hbj. pose proof (Hbit k Hk) as Hbk.
    destruct (Z.eqb_spec (Z.lor (Z.land n (2 ^ j)) (Z.land n (2 ^ k))) 0) as [E|E].
    - apply Z.lor_eq_0_iff in E as [E1 E2]. rewrite E1 in Hbj. rewrite E2 in Hbk. cbn in Hbj, Hbk.
      by destruct (Z.testbit n j), (Z.testbit n k).
    - destruct (Z.testbit n j) eqn:E1, (Z.testbit n k) eqn:E2; try done. exfalso. apply E. cbn [negb] in Hbj, Hbk.
      apply Z.eqb_eq in Hbj, Hbk. by rewrite Hbj, Hbk. }
  unfold notifyStateToTunState, wordMeans, SERVICE_NOTIFY_STOPPED, SERVICE_NOTIFY_DELETED, SERVICE_NOTIFY_DELETE_PENDING,
    SERVICE_NOTIFY_STOP_PENDING, SERVICE_NOTIFY_RUNNING, SERVICE_NOTIFY_START_PENDING.
  pose proof (Htwo 0 8 ltac:(lia) ltac:(lia)) as H08. pose proof (Htwo 9 2 ltac:(lia) ltac:(lia)) as H92.
  pose proof (Hbit 3 ltac:(lia)) as H3'. pose proof (Hbit 1 ltac:(lia)) as H1'.
  change (2 ^ 0) with 1 in H08. change (2 ^ 8) with 256 in H08. change (2 ^ 9) with 512 in H92. change (2 ^ 2) with 4 in H92.
  change (2 ^ 3) with 8 in H3'. change (2 ^ 1) with 2 in H1'. rewrite H08, H92, H3', H1', !negb_involutive.
  by rewrite (orb_comm (Z.testbit n 9)).
Qed.
Lemma serviceMeans_correct x : notifyStateToTunState (svcStateToNotifyState x) = serviceMeans x.
Proof.
  unfold svcStateToNotifyState.
  repeat match goal with |- context [x =? ?c] => destruct (Z.eqb_spec x c); [subst; done|] end.
  unfold serviceMeans, SERVICE_STOPPED, SERVICE_START_PENDING, SERVICE_STOP_PENDING, SERVICE_RUNNING in *.
  destruct x as [|[[[]|[]|]|[[]|[]|]|]|]; done.
Qed.

(** The state a notice stands for: that of its word, or, where it is empty, the one
    the service reports, unknown if it does not. *)
Inductive noticeMeans (s : service) : Z -> TunnelState -> Prop :=
  | nm_word n : n <> 0 -> noticeMeans s n (wordMeans n)
  | nm_asked st : answers svc_Query s (Ok st) -> noticeMeans s 0 (serviceMeans (ss_State st))
  | nm_silent e : answers svc_Query s (Err e) -> noticeMeans s 0 TunnelUnknown.

Lemma runs_onNotice name s last n t :
  tracked t !! name = Some last ->
  runs name s last t (onNotice trackedOrder name s last n)
    (fun r seen x => (exists y, noticeMeans s n y /\ sight s y seen r.2) /\ (r.2 = false -> x = r.1) /\ (r.2 = true -> x = TunnelStopped)).
Proof.
  intros Hn. unfold onNotice. eapply (runs_quiet _ _ _ _ _ _ (fun word => noticeMeans s n (notifyStateToTunState word))).
  { destruct (Z.eqb_spec n 0) as [->|Hz]; [|apply runs_ret; [done|]; do 2 (split; [done|]); rewrite wordMeans_correct; by apply nm_word].
    eapply runs_quiet; [by apply runs_trySys|]. intros st t1 Ht1 Ha. apply runs_ret; [done|]. do 2 (split; [done|]).
    destruct st as [st|e]; [rewrite serviceMeans_correct; by apply nm_asked|by eapply nm_silent]. }
  intros word t1 Ht1 Hm. eapply runs_weaken; [by apply runs_onStatus|]. naive_solver.
Qed.

(** What is seen of a list of notices, and whether they end the tracker. *)
Inductive saw (s : service) : list Z -> list TunnelState -> bool -> Prop :=
  | saw_none : saw s [] [] false
  | saw_more n l x seen seen' b : noticeMeans s n x -> sight s x seen false -> saw s l seen' b -> saw s (n :: l) (seen ++ seen') b
  | saw_end n l x seen : noticeMeans s n x -> sight s x seen true -> saw s (n :: l) seen true.

Lemma saw_final s l seen b last : saw s l seen b -> last <> TunnelStopped -> (b = true <-> final last seen = TunnelStopped).
Proof.
  intros Hs. revert last; induction Hs as [|n l x seen seen' b Hm Hsi _ IH|n l x seen Hm Hsi]; intros last Hl.
  - cbn. naive_solver.
  - rewrite final_app. apply IH. pose proof (sight_final s x seen false last Hsi). naive_solver.
  - by apply (sight_final s x).
Qed.

Lemma runs_notices name s last l t :
  tracked t !! name = Some last ->
  runs name s last t (notices trackedOrder name s last l)
    (fun r seen x => saw s l seen r.2 /\ (r.2 = false -> x = r.1) /\ (r.2 = true -> x = TunnelStopped)).
Proof.
  revert last t; induction l as [|n l IH]; intros last t Hn; cbn [notices].
  - apply runs_ret; [done|]. by split; [constructor|].
  - eapply runs_bind; [by apply runs_onNotice|]. intros [last' fin] l1 last1 t1 Ht1 ((y & Hm & Hsi) & Hf & He). cbn [fst snd] in *.
    destruct fin.
    + apply runs_ret; [done|]. rewrite app_nil_r. split; [by eapply saw_end|]. split; [done|]. intros _. by apply He.
    + rewrite (Hf eq_refl) in Ht1 |- *. eapply runs_weaken; [by apply IH|]. intros r l2 x (Hs & Hf2 & He2).
      split; [by eapply saw_more|done].
Qed.

(** What the first call of a tracker that has subscribed sees. *)
Definition initially (s : service) (seen : list TunnelState) (b : bool) : Prop :=
  (exists st, answers svc_Query s (Ok st) /\ sight s (serviceMeans (ss_State st)) seen b)
  \/ ((exists e, answers svc_Query s (Err e)) /\ seen = [] /\ b = false).

(** What it sees in all: the early notices, the state it asked for, then the late
    notices unless that has ended it. *)
Inductive watched (s : service) (early late : list Z) : list TunnelState -> bool -> Prop :=
  | wa_ended before first : saw s early before false -> initially s first true -> watched s early late (before ++ first) true
  | wa_goes before first after b : saw s early before false -> initially s first false -> saw s late after b ->
      watched s early late (before ++ first ++ after) b.

(** An early notice has ended the tracker before it made its first call. *)
Definition raced (s : service) (early : list Z) : Prop := exists seen, saw s early seen true.

Lemma runs_initial name s last (status : result svcStatus) t :
  tracked t !! name = Some last -> answers svc_Query s status ->
  runs name s last t (match status with
                      | Ok st => onStatus trackedOrder name s last (svcStateToNotifyState (ss_State st))
                      | Err _ => mret (last, false)
                      end)
    (fun r seen x => initially s seen r.2 /\ (r.2 = false -> x = r.1) /\ (r.2 = true -> x = TunnelStopped)).
Proof.
  intros Hn Ha. destruct status as [st|e].
  - eapply runs_weaken; [by apply runs_onStatus|]. rewrite serviceMeans_correct. intros r l x (Hs & Hr). split; [left; eauto|done].
  - apply runs_ret; [done|]. split; [right; eauto|done].
Qed.

(** Whatever it does, a tracker does not fail and touches only its own tunnel. *)
Definition only (name : gostring) (t t' : tracking) : Prop :=
  delete name (tracked t') = delete name (tracked t)
  /\ (is_Some (tracked t !! name) -> is_Some (tracked t' !! name))
  /\ (forall n, n <> name -> adapters t' !! n = adapters t !! n).
Definition meddles {A} (name : gostring) (f : M tracking A) : Prop := forall t, exists a t', f t = (Ok a, t') /\ only name t t'.

Lemma only_trans name t1 t2 t3 : only name t1 t2 -> only name t2 t3 -> only name t1 t3.
Proof. intros (Ht & Hs & Ha) (Ht' & Hs' & Ha'). split; [congruence|]. split; [auto|]. intros n Hn. by rewrite Ha', Ha. Qed.
Lemma calm_only name t t' : calm t t' -> only name t t'.
Proof. intros (Ht & Ha & _). split; [by rewrite Ht|]. split; [by rewrite Ht|]. intros n _. by rewrite Ha. Qed.
Lemma tells_only name s last t l last' t' : tells name s last t l last' t' -> only name t t'.
Proof. intros [Ht Ho _ _ _]. split; [by rewrite Ht, delete_insert_eq|]. split; [|exact Ho]. rewrite Ht, lookup_insert_eq. eauto. Qed.
Lemma meddles_ret {A} name (a : A) : meddles name (mret a).
Proof. intros t. exists a, t. by split. Qed.
Lemma meddles_bind {A B} name (f : M tracking A) (k : A -> M tracking B) :
  meddles name f -> (forall a, meddles name (k a)) -> meddles name (mthen f k).
Proof.
  intros Hf Hk t. destruct (Hf t) as (a & t1 & E1 & H1'). destruct (Hk a t1) as (b & t2 & E2 & H2'). exists b, t2.
  unfold mthen. rewrite E1. split; [done|by eapply only_trans].
Qed.
Lemma meddles_trySys {A} name s (f : service -> M W A) : meddles name (try (onMgr (onSys (f s)))).
Proof. intros t. destruct (trySys_run f s t) as (r & t' & E & Hc & _). exists r, t'. split; [done|by apply calm_only]. Qed.
Lemma meddles_skipSys {A} name (f : M W A) : meddles name (skip (onSys f)).
Proof. intros t. destruct (skipSys_run f t) as (t' & E & Hc). exists tt, t'. split; [done|by apply calm_only]. Qed.
Lemma meddles_setTracked name state : meddles name (setTracked name state).
Proof. intros t. eexists tt, _. split; [reflexivity|]. split; [cbn; by rewrite delete_insert_eq|].
  split; [|done]. cbn. rewrite lookup_insert_eq. eauto.
Qed.
Lemma meddles_release name : meddles name (onMgr (releaseDriverAdapter name)).
Proof.
  intros t. destruct (release_run name t) as (t' & E & Ht & Ha & _). exists tt, t'. split; [done|]. split; [by rewrite Ht|].
  split; [by rewrite Ht|]. intros n Hn. rewrite Ha. by apply lookup_delete_ne.
Qed.
Lemma meddles_notify name state err : meddles name (IPCServerNotifyTunnelChange trackedOrder name state err).
Proof. intros t. eexists tt, _. split; [reflexivity|]. by split. Qed.
#[local] Hint Resolve meddles_ret meddles_bind meddles_trySys meddles_skipSys meddles_setTracked meddles_release meddles_notify : meddles.

Lemma meddles_checkForDisabled name s : meddles name (checkForDisabled trackedOrder name s).
Proof. unfold checkForDisabled. apply meddles_bind; [apply meddles_trySys|]. intros st. destruct (match st with Ok _ => _ | Err _ => _ end); eauto 10 with meddles. Qed.
Lemma meddles_stoppedError name s : meddles name (stoppedError s).
Proof. unfold stoppedError. apply meddles_bind; [apply meddles_trySys|]. intros st. cbv zeta. destruct (match st with Ok _ => _ | Err _ => _ end); eauto with meddles. Qed.
#[local] Hint Resolve meddles_checkForDisabled meddles_stoppedError : meddles.
Lemma meddles_onStatus name s last word : meddles name (onStatus trackedOrder name s last word).
Proof.
  unfold onStatus. cbv zeta. apply meddles_bind; [case_bool_decide; eauto with meddles|]. intros err.
  apply meddles_bind; [|intros u; apply meddles_bind; [case_bool_decide|]; eauto with meddles].
  case_bool_decide; cbn [negb]; [eauto with meddles|]. apply meddles_bind; [eauto with meddles|]. intros u.
  apply meddles_bind; [case_bool_decide|]; eauto with meddles.
Qed.

(** The tracker goes as it should, or the race has been lost. *)
Definition raceOr {A} (name : gostring) (s : service) (early : list Z) (last : TunnelState) (t : tracking) (f : M tracking A)
    (ended : A) (Q : A -> list TunnelState -> TunnelState -> Prop) : Prop :=
  runs name s last t f Q \/ (raced s early /\ exists t', f t = (Ok ended, t') /\ only name t t').

Lemma runs_glue {A B} name s last t (f : M tracking A) (k : A -> M tracking B) a l1 last1 t1 (R : B -> _ -> _ -> Prop) :
  f t = (Ok a, t1) -> tells name s last t l1 last1 t1 ->
  runs name s last1 t1 (k a) (fun b l2 x => R b (l1 ++ l2) x) -> runs name s last t (mthen f k) R.
Proof.
  intros E1 Ht1 (b & l2 & last2 & t2 & E2 & Ht2 & Hr). exists b, (l1 ++ l2), last2, t2. unfold mthen. rewrite E1.
  split; [done|]. split; [by eapply tells_trans|done].
Qed.

Lemma watchService_run name s early late t :
  tracked t !! name = Some TunnelUnknown ->
  raceOr name s early TunnelUnknown t (watchService trackedOrder name s early late) true (fun ended seen _ => watched s early late seen ended).
Proof.
  intros Hn. destruct (runs_trySys name s TunnelUnknown t svc_Query Hn) as (st & l0 & x0 & t1 & E1 & Ht1 & (-> & -> & Ha)).
  pose proof (tells_tracked _ _ _ _ _ _ _ Ht1) as Hn1.
  destruct (runs_notices name s TunnelUnknown early t1 Hn1) as ([last1 over] & l1 & x1 & t2 & E2 & Ht2 & (Hs1 & Hf1 & He1)).
  cbn [fst snd] in *. destruct over.
  - right. split; [by exists l1|].
    assert (Hk : meddles name (do! (lastState, done) := match st with
                           | Ok st => onStatus trackedOrder name s last1 (svcStateToNotifyState (ss_State st))
                           | Err _ => mret (last1, false)
                           end in
      do! (lastState, done) := if true || done then mret (lastState, true) else notices trackedOrder name s lastState late in
      do! _ := if done : bool then skip (onSys (svc_Unsubscribe s)) else mret tt in
      mret done)).
    { apply meddles_bind; [destruct st; eauto using meddles_onStatus with meddles|]. intros [ls b]. cbn [orb].
      apply meddles_bind; [eauto with meddles|]. intros [ls' b']. apply meddles_bind; [destruct b'|]; eauto with meddles. }
    destruct (Hk t2) as (b & t3 & E3 & Ho). assert (b = true) as ->.
    { revert E3. match goal with |- mthen ?f _ t2 = _ -> _ => unfold mthen at 1; destruct (f t2) as [[[ls b']|] t4] end; [|done]. cbn [orb].
      unfold mthen, mret. destruct (skip (onSys (svc_Unsubscribe s)) t4) as [[u|] t5]; by intros [= <- <-]. }
    exists t3. split; [unfold watchService, mthen at 1; rewrite E1; unfold mthen at 1; rewrite E2; exact E3|].
    eapply only_trans; [by eapply tells_only|]. eapply only_trans; [by eapply tells_only|done].
  - left. unfold watchService. eapply (runs_glue _ _ _ _ _ _ _ _ _ _ _ E1 Ht1). eapply (runs_glue _ _ _ _ _ _ _ _ _ _ _ E2 Ht2).
    pose proof (tells_tracked _ _ _ _ _ _ _ Ht2) as Hn2. rewrite (Hf1 eq_refl) in Hn2 |- *. cbn [app].
    eapply runs_bind; [by apply runs_initial|]. intros [last2 b] l2 x2 t3 Hn3 (Hi & Hf2 & He2). cbn [fst snd orb] in *.
    eapply (runs_bind _ _ _ _ _ _ (fun r l3 x => if b then r.2 = true /\ l3 = [] else saw s late l3 r.2)).
    { destruct b; [by apply runs_ret|]. rewrite (Hf2 eq_refl) in Hn3 |- *.
      eapply runs_weaken; [by apply runs_notices|]. naive_solver. }
    intros [last3 fin] l3 x3 t4 Hn4 Hl3. cbn [fst snd] in Hl3.
    eapply (runs_quiet _ _ _ _ _ _ (fun _ => True)); [destruct fin; [by apply runs_skipSys|by apply runs_ret]|].
    intros u t5 Hn5 _. apply runs_ret; [done|]. rewrite app_nil_r. destruct b.
    + destruct Hl3 as [-> ->]. rewrite app_nil_r. by apply wa_ended.
    + by apply wa_goes.
Qed.

(** What a tracker sees that has entered: it finds the service disabled, cannot
    subscribe, or watches it. *)
Inductive followed (s : service) (early late : list Z) : list TunnelState -> bool -> Prop :=
  | fo_disabled : disabled s -> followed s early late [TunnelStopped] true
  | fo_lost e : answers svc_Subscribe s (Err e) -> followed s early late [TunnelStopped] true
  | fo_watched seen b : watched s early late seen b -> followed s early late seen b.

Lemma initially_final s seen b last : initially s seen b -> last <> TunnelStopped -> (b = true <-> final last seen = TunnelStopped).
Proof. intros [(st & _ & Hs)|(_ & -> & ->)] Hl; [by apply (sight_final s _ _ _ _ Hs)|]. cbn. naive_solver. Qed.
Lemma followed_final s early late seen b : followed s early late seen b -> (b = true <-> final TunnelUnknown seen = TunnelStopped).
Proof.
  destruct 1 as [| |seen b Hw]; [done|done|]. destruct Hw as [before first Hb Hi|before first after b Hb Hi Ha]; rewrite !final_app.
  - apply (initially_final s first true _ Hi). pose proof (saw_final s early before false TunnelUnknown Hb). naive_solver.
  - apply (saw_final s late after b _ Ha). pose proof (saw_final s early before false TunnelUnknown Hb) as H1'.
    pose proof (initially_final s first false (final TunnelUnknown before) Hi). naive_solver.
Qed.

Lemma runs_abandonTunnel name s last e t :
  tracked t !! name = Some last -> last <> TunnelStopped -> answers svc_Subscribe s (Err e) ->
  runs name s last t (abandonTunnel trackedOrder name s e) (fun ended seen x => ended = true /\ seen = [TunnelStopped] /\ x = TunnelStopped).
Proof.
  intros Hn Hl Ha. unfold abandonTunnel. eapply runs_bind; [by apply runs_checkForDisabled|].
  intros b l1 last1 t1 Ht1 Hb. destruct b; [destruct Hb as (_ & -> & ->); by apply runs_ret|]. destruct Hb as [-> ->].
  apply (runs_stop name s last); [done|done|by apply st_lost|]. intros t2 Ht2.
  eapply runs_quiet; [by apply runs_skipSys|]. intros u3 t3 Ht3 _. by apply runs_ret.
Qed.

Lemma followTunnel_run name s early late t :
  tracked t !! name = Some TunnelUnknown ->
  raceOr name s early TunnelUnknown t (followTunnel trackedOrder name s early late) true (fun ended seen _ => followed s early late seen ended).
Proof.
  intros Hn. destruct (runs_awaitStart name s TunnelUnknown 20 t Hn) as (u0 & l0 & x0 & t1 & E1 & Ht1 & (-> & -> & _)).
  pose proof (tells_tracked _ _ _ _ _ _ _ Ht1) as Hn1.
  destruct (runs_checkForDisabled name s TunnelUnknown t1 Hn1) as (b & l1 & x1 & t2 & E2 & Ht2 & Hb); [done|].
  pose proof (tells_tracked _ _ _ _ _ _ _ Ht2) as Hn2. unfold followTunnel. destruct b.
  { left. eapply (runs_glue _ _ _ _ _ _ _ _ _ _ _ E1 Ht1). eapply (runs_glue _ _ _ _ _ _ _ _ _ _ _ E2 Ht2).
    destruct Hb as (Hd & -> & ->). apply runs_ret; [done|]. by apply fo_disabled. }
  destruct Hb as [-> ->]. pose proof (onSys_calm (svc_Subscribe s) t2) as Hc. pose proof (onSys_answer svc_Subscribe s t2) as Ha.
  destruct (onMgr (onSys (svc_Subscribe s)) t2) as [[u3|e] t3] eqn:Es; cbn [fst snd] in Hc, Ha;
    assert (Hn3 : tracked t3 !! name = Some TunnelUnknown) by by destruct Hc as (-> & _).
  - destruct (watchService_run name s early late t3 Hn3) as [(ended & l4 & x4 & t4 & E4 & Ht4 & Hw)|(Hr & t4 & E4 & Ho)].
    + left. eapply (runs_glue _ _ _ _ _ _ _ _ _ _ _ E1 Ht1). eapply (runs_glue _ _ _ _ _ _ _ _ _ _ _ E2 Ht2).
      eapply (runs_glue _ _ _ t2 _ _ (Ok ended) l4 x4 t4); [unfold try, trackService, mthen at 1; by rewrite Es, E4| |].
      * change l4 with ([] ++ l4). eapply tells_trans; [by apply calm_tells|done].
      * apply runs_ret; [by eapply tells_tracked|]. rewrite !app_nil_r. by apply fo_watched.
    + right. split; [done|]. exists t4. split.
      * unfold mthen at 1. rewrite E1. unfold mthen at 1. rewrite E2. unfold mthen at 1, try, trackService, mthen at 1. by rewrite Es, E4.
      * eapply only_trans; [by eapply tells_only|]. eapply only_trans; [by eapply tells_only|].
        eapply only_trans; [by apply calm_only|done].
  - left. eapply (runs_glue _ _ _ _ _ _ _ _ _ _ _ E1 Ht1). eapply (runs_glue _ _ _ _ _ _ _ _ _ _ _ E2 Ht2).
    eapply (runs_glue _ _ _ t2 _ _ (Err e) [] TunnelUnknown t3); [unfold try, trackService, mthen at 1; by rewrite Es|by apply calm_tells|].
    eapply runs_weaken; [by apply runs_abandonTunnel|]. intros ended l x (-> & -> & ->). by eapply fo_lost.
Qed.

Lemma leaveTracker_run name s t : exists t', leaveTracker name s t = (Ok tt, t')
  /\ tracked t' = delete name (tracked t) /\ adapters t' = adapters t /\ tk_notified t' = tk_notified t.
Proof.
  unfold leaveTracker, mthen, onMgr, mmod. destruct (skipSys_run (svc_Close s)
    (mkTracking (set_tracked (delete name (tracked t)) (tk_mgr t)) (tk_notified t))) as (t' & -> & Ht & Ha & Hn).
  exists t'. split; [done|]. cbn in Ht, Ha, Hn. done.
Qed.

(** C23: A tracker never fails. For a tunnel that has one it does nothing but close
    its handle. Otherwise it tells the clients exactly the changes among the
    states it sees, in order and none twice in a row: those its notices stand for
    (the bits of the status word, or the state the service reports for an empty
    one) and the one the service reported when it was first asked, up to the
    first that says stopped; a service found disabled, or one that cannot be
    subscribed to, counts as stopped. Each is told with the global state of that
    moment, and the end with the error the service ended with. The tracker has
    ended exactly when the last state seen is stopped; then the tunnel is no
    longer tracked and no handle of its adapter is kept. Until then all notices
    were heard, and the entry of the tunnel is the state last told. Other tunnels
    are left alone. The one exception is [raced]: a notice that ends the tracker
    between its subscription and its first call, which is then made all the same
    with an old state (see [stale_state_told]); of that only is said that the
    tracker ends and leaves other tunnels alone. *)
Theorem trackTunnelService_tells name s early late t :
  exists ended t', trackTunnelService trackedOrder name s early late t = (Ok ended, t') /\
  match tracked t !! name with
  | Some _ => ended = true /\ calm t t'
  | None => (forall n, n <> name -> adapters t' !! n = adapters t !! n)
      /\ ((raced s early /\ ended = true /\ tracked t' = tracked t)
          \/ exists seen told, followed s early late seen ended
             /\ tk_notified t' = tk_notified t ++ map (note name (tracked t)) told
             /\ map fst told = changes TunnelUnknown seen /\ Forall (explained s) told
             /\ if ended : bool
                then final TunnelUnknown seen = TunnelStopped /\ tracked t' = tracked t /\ adapters t' !! name = None
                else final TunnelUnknown seen <> TunnelStopped /\ tracked t' = <[name := final TunnelUnknown seen]> (tracked t))
  end.
Proof.
  unfold trackTunnelService, mthen at 1, enterTracker, mthen at 1, onMgr at 1, mget.
  assert (mkTracking (tk_mgr t) (tk_notified t) = t) as -> by by destruct t.
  destruct (tracked t !! name) as [x|] eqn:En.
  { unfold mthen. destruct (skipSys_run (svc_Close s) t) as (t' & -> & Hc). by exists true, t'. }
  unfold mthen at 1, setTracked, onMgr at 1, mmod. cbn [mret].
  set (t1 := mkTracking (set_tracked (<[name := TunnelUnknown]> (tracked t)) (tk_mgr t)) (tk_notified t)).
  destruct (followTunnel_run name s early late t1) as [(ended & seen & last & t2 & E2 & Ht2 & Hfo)|(Hr & t2 & E2 & Ho)]; [apply lookup_insert_eq| |].
  2: { unfold mthen at 1. rewrite E2. destruct (leaveTracker_run name s t2) as (t3 & E3 & Ht3 & Ha3 & _). unfold mthen. rewrite E3.
       destruct Ho as (Hot & _ & Hoa). exists true, t3. split; [done|]. split; [intros n Hn; rewrite Ha3; by apply Hoa|]. left.
       split; [done|]. split; [done|]. rewrite Ht3, Hot. cbn. by rewrite delete_insert_id. }
  unfold mthen at 1. rewrite E2. destruct Ht2 as [Htr Ho Hw Hlast (told & Hnot & Hch & Hex & Hst)].
  assert (Hnote : map (note name (tracked t1)) told = map (note name (tracked t)) told).
  { apply map_ext. intros y. unfold note, t1. cbn. by rewrite insert_insert_eq. }
  rewrite Hnote in Hnot. cbn [tracked t1 tk_mgr set_tracked mg_trackedTunnels] in Htr. rewrite insert_insert_eq in Htr.
  pose proof (followed_final _ _ _ _ _ Hfo) as Hend. destruct ended.
  - destruct (leaveTracker_run name s t2) as (t3 & E3 & Ht3 & Ha3 & Hn3). unfold mthen. rewrite E3.
    exists true, t3. split; [done|]. split; [intros n Hn; rewrite Ha3; by apply Ho|]. right. exists seen, told.
    rewrite Hn3, Ha3, Ht3, Htr. do 4 (split; [done|]). assert (Hfin : final TunnelUnknown seen = TunnelStopped) by by apply Hend.
    split; [done|]. split; [by rewrite delete_insert_id|]. apply Hst. rewrite Hch.
    rewrite <- final_changes in Hfin. assert (Hne : changes TunnelUnknown seen <> []) by (intros E; rewrite E in Hfin; done).
    rewrite <- Hfin. by apply final_in.
  - exists false, t2. split; [done|]. split; [exact Ho|]. right. exists seen, told. do 4 (split; [done|]). rewrite Htr, Hlast.
    split; [|done]. intros Hfin. by apply Hend in Hfin.
Qed.

(** ** Many trackers at once

    A tracker that runs: its tunnel, its service and the state of its entry,
    stopped once it is done. The steps are those of the trackers in any order,
    with anything else in between that leaves the map of tracked tunnels alone;
    [cs_initial] is the first call of a tracker when notices have come before
    it, with a last state of any kind. *)
Abbreviation tracker := (gostring * service * TunnelState)%type.

Definition trackerName (x : tracker) : gostring := x.1.1.
Definition trackerEntry (x : tracker) : gostring * TunnelState := (x.1.1, x.2).

Inductive cstep : tracking * list tracker -> tracking * list tracker -> Prop :=
  | cs_enter t act name s b t' :
      enterTracker name s t = (Ok b, t') ->
      cstep (t, act) (t', if b : bool then (name, s, TunnelUnknown) :: act else act)
  | cs_disabled t l1 name s last l2 b t' :
      last <> TunnelStopped -> checkForDisabled trackedOrder name s t = (Ok b, t') ->
      cstep (t, l1 ++ (name, s, last) :: l2)
        (t', l1 ++ (name, s, if b : bool then TunnelStopped else last) :: l2)
  | cs_notice t l1 name s last l2 n last' b t' :
      last <> TunnelStopped -> onNotice trackedOrder name s last n t = (Ok (last', b), t') ->
      cstep (t, l1 ++ (name, s, last) :: l2)
        (t', l1 ++ (name, s, if b : bool then TunnelStopped else last') :: l2)
  | cs_abandon t l1 name s last l2 e b t' :
      last <> TunnelStopped -> abandonTunnel trackedOrder name s e t = (Ok b, t') ->
      cstep (t, l1 ++ (name, s, last) :: l2) (t', l1 ++ (name, s, TunnelStopped) :: l2)
  | cs_initial t l1 name s last l2 lastState word r t' :
      onStatus trackedOrder name s lastState word t = (Ok r, t') ->
      cstep (t, l1 ++ (name, s, last) :: l2)
        (t', l1 ++ (name, s, default last (tracked t' !! name)) :: l2)
  | cs_leave t l1 name s last l2 u t' :
      leaveTracker name s t = (Ok u, t') ->
      cstep (t, l1 ++ (name, s, last) :: l2) (t', l1 ++ l2)
  | cs_other t act t' : tracked t' = tracked t -> cstep (t, act) (t', act).

(** One tracker per tracked tunnel, whose state is the entry of the tunnel. *)
Definition exclusive (x : tracking * list tracker) : Prop :=
  NoDup (map trackerName x.2) /\ tracked x.1 = list_to_map (map trackerEntry x.2).

Lemma names_entries act : map fst (map trackerEntry act) = map trackerName act.
Proof. rewrite map_map. by apply map_ext. Qed.

Lemma exclusive_lookup t act x :
  exclusive (t, act) -> x ∈ act -> tracked t !! trackerName x = Some x.2.
Proof.
  intros [Hnd Ht] Hx. cbn [fst snd] in *. rewrite Ht. apply elem_of_list_to_map_1.
  - change (fmap fst (map trackerEntry act)) with (map fst (map trackerEntry act)). by rewrite names_entries.
  - apply list_elem_of_fmap. by exists x.
Qed.

(** A tracker that changes its own entry. *)
Lemma exclusive_update t t' l1 name s last last' l2 :
  exclusive (t, l1 ++ (name, s, last) :: l2) -> tracked t' = <[name := last']> (tracked t) ->
  exclusive (t', l1 ++ (name, s, last') :: l2).
Proof.
  intros [Hnd Ht] Ht'. cbn [fst snd] in *. split; cbn [fst snd].
  - rewrite map_app in *. exact Hnd.
  - rewrite Ht', Ht, !map_app. cbn [map]. rewrite !list_to_map_app. cbn [list_to_map foldr uncurry trackerEntry fst snd].
    assert (Hno : (list_to_map (map trackerEntry l1) : gmap gostring TunnelState) !! name = None).
    { apply not_elem_of_list_to_map_1. change (fmap fst (map trackerEntry l1)) with (map fst (map trackerEntry l1)).
      rewrite names_entries. rewrite map_app in Hnd. apply NoDup_app in Hnd as (_ & Hdis & _).
      intros Hin. apply (Hdis _ Hin). by left. }
    rewrite insert_union_r by done. f_equal. by rewrite insert_insert_eq.
Qed.

Lemma abandonTunnel_tracked name s last e t b t' :
  tracked t !! name = Some last -> last <> TunnelStopped -> abandonTunnel trackedOrder name s e t = (Ok b, t') ->
  tracked t' = <[name := TunnelStopped]> (tracked t).
Proof.
  intros Hn Hl. destruct (runs_checkForDisabled name s last t Hn Hl) as (d & l & x & t1 & E1 & Ht1 & Hd).
  unfold abandonTunnel, mthen at 1. rewrite E1. pose proof (tl_tracked _ _ _ _ _ _ _ Ht1) as Hx. destruct d.
  { intros [= <- <-]. rewrite Hx. by destruct Hd as (_ & _ & ->). }
  destruct Hd as [_ ->]. unfold mthen at 1, setTracked, onMgr at 1, mmod.
  match goal with |- mthen _ _ ?t2 = _ -> _ => destruct (release_run name t2) as (t3 & E3 & Ht3 & _) end.
  unfold mthen at 1. rewrite E3. unfold mthen at 1, IPCServerNotifyTunnelChange at 1. unfold mthen at 1, onMgr at 1, trackedTunnelsGlobalState at 1.
  unfold mthen at 1, mget, mret. unfold mthen. match goal with |- context [skip (onSys ?f) ?t4] => destruct (skipSys_run f t4) as (t5 & E5 & Hc) end.
  rewrite E5. intros [= <- <-]. destruct Hc as (-> & _). cbn in Ht3 |- *. by rewrite Ht3, Hx, insert_insert_eq.
Qed.

Lemma exclusive_step x y : cstep x y -> exclusive x -> exclusive y.
Proof.
  assert (Hin : forall (l1 l2 : list tracker) x, x ∈ l1 ++ x :: l2) by (intros; set_solver).
  destruct 1 as [t act name s b t' E|t l1 name s last l2 b t' Hl E|t l1 name s last l2 n last' b t' Hl E
    |t l1 name s last l2 e b t' Hl E|t l1 name s last l2 lastState word r t' E|t l1 name s last l2 u t' E|t act t' Ht]; intros Hx.
  - unfold enterTracker, mthen at 1, onMgr at 1, mget in E.
    assert (mkTracking (tk_mgr t) (tk_notified t) = t) as Et by by destruct t. rewrite Et in E.
    destruct (tracked t !! name) eqn:En.
    + unfold mthen in E. destruct (skipSys_run (svc_Close s) t) as (t1 & E1 & Hc). rewrite E1 in E.
      injection E as <- <-. destruct Hc as (Hc & _), Hx as [Hnd Ht]. split; [done|]. cbn in *. congruence.
    + injection E as <- <-. destruct Hx as [Hnd Ht]. cbn [fst snd] in *. split; cbn [fst snd map].
      * apply NoDup_cons. split; [|done]. rewrite Ht in En. apply not_elem_of_list_to_map_2 in En.
        by rewrite <- names_entries.
      * cbn. by rewrite Ht.
  - pose proof (exclusive_lookup _ _ _ Hx (Hin l1 l2 _)) as Hn. cbn in Hn.
    destruct (runs_checkForDisabled name s last t Hn Hl) as (a & l & x & t2 & E2 & Ht2 & Hb).
    rewrite E2 in E. injection E as <- <-. eapply exclusive_update; [done|]. rewrite (tl_tracked _ _ _ _ _ _ _ Ht2).
    destruct a; [by destruct Hb as (_ & _ & ->)|by destruct Hb as [_ ->]].
  - pose proof (exclusive_lookup _ _ _ Hx (Hin l1 l2 _)) as Hn. cbn in Hn.
    destruct (runs_onNotice name s last n t Hn) as ([l' d] & l & x & t2 & E2 & Ht2 & (_ & Hf & He)).
    rewrite E2 in E. injection E as <- <- <-. cbn [fst snd] in Hf, He. eapply exclusive_update; [done|].
    rewrite (tl_tracked _ _ _ _ _ _ _ Ht2). destruct d; [by rewrite He|by rewrite Hf].
  - pose proof (exclusive_lookup _ _ _ Hx (Hin l1 l2 _)) as Hn. cbn in Hn.
    eapply exclusive_update; [done|]. by eapply abandonTunnel_tracked.
  - pose proof (exclusive_lookup _ _ _ Hx (Hin l1 l2 _)) as Hn. cbn in Hn.
    destruct (meddles_onStatus name s lastState word t) as (r' & t2 & E2 & Hdel & Hsome & _).
    rewrite E2 in E. injection E as <- <-. eapply exclusive_update; [done|].
    destruct Hsome as [y Hy]; [eauto|]. rewrite Hy. cbn [default]. apply map_eq. intros n.
    destruct (decide (n = name)) as [->|Hne]; [by rewrite lookup_insert_eq|]. rewrite lookup_insert_ne by done.
    apply (f_equal (fun m => m !! n)) in Hdel. by rewrite !lookup_delete_ne in Hdel by done.
  - destruct (leaveTracker_run name s t) as (t2 & E2 & Ht2 & _). rewrite E2 in E. injection E as <- <-.
    destruct Hx as [Hnd Ht]. cbn [fst snd] in *. rewrite map_app in Hnd. cbn [map trackerName fst] in Hnd.
    apply NoDup_app in Hnd as (Hnd1 & Hdis & [Hn2 Hnd2]%NoDup_cons).
    assert (Hn1 : name ∉ map trackerName l1) by (intros Hi; apply (Hdis _ Hi); by left).
    split; cbn [fst snd].
    + rewrite map_app. apply NoDup_app. split; [done|]. split; [|done]. intros n Hi Hi2. apply (Hdis n Hi). by right.
    + rewrite Ht2, Ht, !map_app. cbn [map]. rewrite !list_to_map_app. cbn [list_to_map foldr uncurry trackerEntry fst snd].
      rewrite delete_union, delete_insert_eq, !delete_id; [done| |];
        apply not_elem_of_list_to_map_1; [|];
        match goal with |- _ ∉ fmap fst ?l => change (fmap fst l) with (map fst l) end; by rewrite names_entries.
  - destruct Hx as [Hnd Ht0]. split; [done|]. cbn in *. congruence.
Qed.

(** C24: However the trackers and the rest of the manager are interleaved, from a
    start without tracked tunnels: no two trackers follow the same tunnel, and
    the tracked tunnels are those with a tracker, each with its tracker's state. *)
Theorem trackers_exclusive t act t0 :
  tracked t0 = ∅ -> rtc cstep (t0, []) (t, act) ->
  NoDup (map trackerName act) /\ tracked t = list_to_map (map trackerEntry act).
Proof.
  intros Ht0 Hr. assert (H0' : exclusive (t0, [])) by (split; [constructor|done]).
  change (exclusive (t, act)). revert H0'. induction Hr as [x|x y z Hs _ IH]; [done|].
  intros Hx. by apply IH, (exclusive_step x).
Qed.
End Trackers.
