(* ===== verification/Sessions.v ===== *)
(** * The manager service: manager/service.go, elevate/membership.go

    The manager runs a user interface process in the session of every user who
    may have one. A thread per session chooses the tokens, starts the process and
    waits for it; the main thread hears of sessions that come and go. The threads
    share two maps under a lock; [sstep] interleaves their critical sections. *)

From stdpp Require Import gmultiset.
From S2P Require Import Prelude GoStrings GoNum Netip Config Name Paths WSTLS Parser Writer UAPI Driver Effects Store Services Updater Manager IPC Tracker.
Local Open Scope Z_scope.

(** ** Tokens *)

Inductive wellKnownGroup : Type := BuiltinAdministrators | NetworkConfigurationOperators.

Definition SidTypeUser : Z := 1.

(** A token is its handle. *)
Class TokenSystem (W : Type) := {
  tk_WellKnownSid : wellKnownGroup -> bool;
  tk_WTSQueryUserToken : Z -> M W Z;
  tk_GetLinkedToken : Z -> M W Z;
  tk_DuplicateTokenEx : Z -> M W Z;
  tk_Close : Z -> W -> W;
  tk_IsElevated : Z -> W -> bool;
  tk_IsMember : Z -> wellKnownGroup -> W -> result bool;
  tk_GetTokenUser : Z -> W -> result gostring;
  tk_LookupAccount : gostring -> W -> result Z
}.

(** The system with the handles that are open, and the key of the registry once
    it was asked for. *)
Record tokens (W : Type) : Type := mkTokens { to_sys : W; to_open : gmultiset Z; to_adminKey : option (result unit) }.
Arguments mkTokens {W}.
Arguments to_sys {W}.
Arguments to_open {W}.
Arguments to_adminKey {W}.

Section Tokens.
Context {W : Type} `{TokenSystem W} `{Registry W}.

Abbreviation tokens := (tokens W).

Definition opening (f : M W Z) : M tokens Z :=
  fun s => let '(r, w) := f (to_sys s) in
           (r, mkTokens w (match r with Ok t => {[+ t +]} ⊎ to_open s | Err _ => to_open s end) (to_adminKey s)).
Definition closeToken (t : Z) : M tokens unit :=
  fun s => (Ok tt, mkTokens (tk_Close t (to_sys s)) (to_open s ∖ {[+ t +]}) (to_adminKey s)).
Definition asking {A} (f : W -> A) : M tokens A := mget (fun s => f (to_sys s)).

Definition isAdmin (token : Z) : M tokens bool :=
  if negb (tk_WellKnownSid BuiltinAdministrators) then mret false
  else
    do! r := try (opening (tk_DuplicateTokenEx token)) in
    match r with
    | Err _ => mret false
    | Ok checkableToken =>
        do! member := asking (tk_IsMember checkableToken BuiltinAdministrators) in
        do! _ := closeToken checkableToken in
        mret (match member with Ok b => b | Err _ => false end)
    end.

Definition elevatedAdmin (token : Z) : M tokens bool :=
  do! elevated := asking (tk_IsElevated token) in
  if elevated : bool then isAdmin token else mret false.

Definition TokenIsElevatedOrElevatable (token : Z) : M tokens bool :=
  do! direct := elevatedAdmin token in
  if direct : bool then mret true
  else
    do! r := try (opening (tk_GetLinkedToken token)) in
    match r with
    | Err _ => mret false
    | Ok linked =>
        do! b := elevatedAdmin linked in
        do! _ := closeToken linked in
        mret b
    end.

(** The membership of the network operators, asked of the linked token where
    there is one. *)
Definition duplicateFor (userToken : Z) : M tokens (result Z) :=
  do! r := try (opening (tk_GetLinkedToken userToken)) in
  match r with
  | Ok linkedToken =>
      do! d := try (opening (tk_DuplicateTokenEx linkedToken)) in
      do! _ := closeToken linkedToken in
      mret d
  | Err _ => try (opening (tk_DuplicateTokenEx userToken))
  end.

Definition isOperator (userToken : Z) : M tokens bool :=
  do! d := duplicateFor userToken in
  match d with
  | Err _ => mret false
  | Ok impersonationToken =>
      do! member := asking (tk_IsMember impersonationToken NetworkConfigurationOperators) in
      do! _ := closeToken impersonationToken in
      mret (match member with Ok b => b | Err _ => false end)
  end.

Definition limitedOperatorUI : M tokens bool :=
  fun s => let '(b, key, w) := AdminBool (to_adminKey s) (str "LimitedOperatorUI") (to_sys s) in
           (Ok b, mkTokens w (to_open s) key).

Definition mayOperate (userToken : Z) : M tokens bool :=
  do! limited := limitedOperatorUI in
  if limited && tk_WellKnownSid NetworkConfigurationOperators then isOperator userToken else mret false.

(** Whether the token is that of a user account. *)
Definition isUserAccount (userToken : Z) : M tokens bool :=
  do! user := asking (tk_GetTokenUser userToken) in
  match user with
  | Err _ => mret false
  | Ok sid =>
      do! accType := asking (tk_LookupAccount sid) in
      mret (match accType with Ok t => t =? SidTypeUser | Err _ => false end)
  end.

(** The elevated token of an administrator. *)
Definition elevateToken (userToken : Z) : M tokens (option Z) :=
  do! elevated := asking (tk_IsElevated userToken) in
  if elevated : bool then mret (Some userToken)
  else
    do! r := try (opening (tk_GetLinkedToken userToken)) in
    do! _ := closeToken userToken in
    match r with
    | Err _ => mret None
    | Ok elevatedToken =>
        do! b := asking (tk_IsElevated elevatedToken) in
        if b : bool then mret (Some elevatedToken)
        else do! _ := closeToken elevatedToken in mret None
    end.

Definition giveUp {A} (token : Z) : M tokens (option A) := do! _ := closeToken token in mret None.

(** startProcess up to its loop: the token the connection is served with, zero
    for an operator, and the token the process runs with. *)
Definition sessionTokens (session : Z) : M tokens (option (Z * Z)) :=
  do! r := try (opening (tk_WTSQueryUserToken session)) in
  match r with
  | Err _ => mret None
  | Ok userToken =>
      do! admin := TokenIsElevatedOrElevatable userToken in
      do! operator := if admin : bool then mret false else mayOperate userToken in
      if negb admin && negb operator then giveUp userToken
      else
        do! account := isUserAccount userToken in
        if negb account then giveUp userToken
        else if admin then
          do! elevatedToken := elevateToken userToken in
          mret (match elevatedToken with Some t => Some (t, t) | None => None end)
        else mret (Some (0, userToken))
  end.

(** *** What is open *)

Lemma closed_again (t : Z) (O : gmultiset Z) : ({[+ t +]} ⊎ O) ∖ {[+ t +]} = O.
Proof. multiset_solver. Qed.
Lemma closed_other (d t : Z) (O : gmultiset Z) : ({[+ d +]} ⊎ ({[+ t +]} ⊎ O)) ∖ {[+ t +]} = {[+ d +]} ⊎ O.
Proof. multiset_solver. Qed.

(** A function that always answers and leaves open what was open, and one that
    closes [t] besides. *)
Definition calmTokens {A} (f : M tokens A) : Prop := forall s, exists a s', f s = (Ok a, s') /\ to_open s' = to_open s.
Definition shuts {A} (t : Z) (f : M tokens A) : Prop :=
  forall s, exists a s', f s = (Ok a, s') /\ to_open s' = to_open s ∖ {[+ t +]}.

Lemma calm_ret {A} (a : A) : calmTokens (mret a).
Proof. intros s. by eexists _, _. Qed.
Lemma calm_asking {A} (f : W -> A) : calmTokens (asking f).
Proof. intros s. by eexists _, _. Qed.
Lemma calm_bind {A B} (f : M tokens A) (k : A -> M tokens B) : calmTokens f -> (forall a, calmTokens (k a)) -> calmTokens (mthen f k).
Proof.
  intros Hf Hk s. destruct (Hf s) as (a & s1 & E & Ho). destruct (Hk a s1) as (b & s2 & E2 & Ho2).
  exists b, s2. unfold mthen. rewrite E. split; [done|congruence].
Qed.
(** One that opens the token it answers with, and one that closes [t] besides. *)
Definition yields (f : M tokens (result Z)) : Prop :=
  forall s, exists r s', f s = (Ok r, s') /\ to_open s' = match r with Ok t => {[+ t +]} ⊎ to_open s | Err _ => to_open s end.
Definition handsOver (t : Z) (f : M tokens (result Z)) : Prop :=
  forall s, exists r s', f s = (Ok r, s')
  /\ to_open s' = match r with Ok d => ({[+ d +]} ⊎ to_open s) ∖ {[+ t +]} | Err _ => to_open s ∖ {[+ t +]} end.

Lemma yields_try (f : M W Z) : yields (try (opening f)).
Proof. intros s. unfold try, opening. destruct (f (to_sys s)) as [[t|err] w]; by eexists _, _. Qed.
Lemma handsOver_close (t : Z) (f : M tokens (result Z)) : yields f -> handsOver t (do! d := f in do! _ := closeToken t in mret d).
Proof.
  intros Hf s. destruct (Hf s) as (r & s1 & E & Ho). eexists r, _. unfold mthen at 1. rewrite E. split; [done|]. cbn.
  rewrite Ho. by destruct r.
Qed.
Lemma yields_opened (f : M W Z) (k : Z -> M tokens (result Z)) (e : goerr -> M tokens (result Z)) :
  (forall t, handsOver t (k t)) -> (forall err, yields (e err)) ->
  yields (do! r := try (opening f) in match r with Ok t => k t | Err err => e err end).
Proof.
  intros Hk He s. unfold mthen, try, opening. destruct (f (to_sys s)) as [[t|err] w].
  - destruct (Hk t (mkTokens w ({[+ t +]} ⊎ to_open s) (to_adminKey s))) as (r & s' & E & Ho). exists r, s'.
    split; [done|]. rewrite Ho. destruct r; [apply closed_other|apply closed_again].
  - apply (He err (mkTokens w (to_open s) (to_adminKey s))).
Qed.
Lemma calm_yields {A} (f : M tokens (result Z)) (k : Z -> M tokens A) (e : goerr -> M tokens A) :
  yields f -> (forall t, shuts t (k t)) -> (forall err, calmTokens (e err)) ->
  calmTokens (do! r := f in match r with Ok t => k t | Err err => e err end).
Proof.
  intros Hf Hk He s. destruct (Hf s) as (r & s1 & E & Ho). unfold mthen. rewrite E. destruct r as [t|err].
  - destruct (Hk t s1) as (a & s' & E2 & Ho2). exists a, s'. split; [done|]. by rewrite Ho2, Ho, closed_again.
  - rewrite <- Ho. apply He.
Qed.
Lemma calm_opened {A} (f : M W Z) (k : Z -> M tokens A) (e : goerr -> M tokens A) :
  (forall t, shuts t (k t)) -> (forall err, calmTokens (e err)) ->
  calmTokens (do! r := try (opening f) in match r with Ok t => k t | Err err => e err end).
Proof. apply calm_yields, yields_try. Qed.
Lemma shuts_bind {A B} t (f : M tokens A) (k : A -> M tokens B) : calmTokens f -> (forall a, shuts t (k a)) -> shuts t (mthen f k).
Proof.
  intros Hf Hk s. destruct (Hf s) as (a & s1 & E & Ho). destruct (Hk a s1) as (b & s2 & E2 & Ho2).
  exists b, s2. unfold mthen. rewrite E. split; [done|congruence].
Qed.
Lemma shuts_close {A} t (a : A) : shuts t (do! _ := closeToken t in mret a).
Proof. intros s. by eexists _, _. Qed.
#[local] Hint Resolve calm_ret calm_asking shuts_close : tokens.

Lemma isAdmin_calm token : calmTokens (isAdmin token).
Proof.
  unfold isAdmin. destruct (negb _); [apply calm_ret|]. apply calm_opened; [|auto with tokens].
  intros t. apply shuts_bind; auto with tokens.
Qed.
Lemma elevatedAdmin_calm token : calmTokens (elevatedAdmin token).
Proof. apply calm_bind; [apply calm_asking|]. intros []; [apply isAdmin_calm|apply calm_ret]. Qed.
Lemma TokenIsElevatedOrElevatable_calm token : calmTokens (TokenIsElevatedOrElevatable token).
Proof.
  apply calm_bind; [apply elevatedAdmin_calm|]. intros []; [apply calm_ret|]. apply calm_opened; [|auto with tokens].
  intros t. apply shuts_bind; [apply elevatedAdmin_calm|auto with tokens].
Qed.
Lemma isOperator_calm token : calmTokens (isOperator token).
Proof.
  apply calm_yields; [|intros t; apply shuts_bind; auto with tokens|auto with tokens].
  apply yields_opened; [|intros err; apply yields_try]. intros t. apply handsOver_close, yields_try.
Qed.
Lemma mayOperate_calm token : calmTokens (mayOperate token).
Proof.
  apply calm_bind; [|intros []; cbn [andb]; [destruct (tk_WellKnownSid _)|]; auto using isOperator_calm with tokens].
  intros s. unfold limitedOperatorUI. destruct (AdminBool _ _ _) as [[b key] w]. by eexists _, _.
Qed.
Lemma isUserAccount_calm token : calmTokens (isUserAccount token).
Proof.
  apply calm_bind; [apply calm_asking|]. intros []; [|apply calm_ret]. apply calm_bind; auto with tokens.
Qed.

(** *** Who is given what

    What the functions of the system answered for a token, whatever the state in
    which they were asked: [answersMember t g b] is the answer of the membership
    check of group [g] on a duplicate of [t], false where there is no such group
    or no duplicate; [answersElevated t b] says whether [t] is elevated and a
    member of the administrators. *)
Inductive answersMember (t : Z) (g : wellKnownGroup) : bool -> Prop :=
  | NoGroup : tk_WellKnownSid g = false -> answersMember t g false
  | NoDuplicate w err w' : tk_DuplicateTokenEx t w = (Err err, w') -> answersMember t g false
  | NoAnswer w d w' w'' err : tk_DuplicateTokenEx t w = (Ok d, w') -> tk_IsMember d g w'' = Err err -> answersMember t g false
  | Answered w d w' w'' b : tk_WellKnownSid g = true -> tk_DuplicateTokenEx t w = (Ok d, w') -> tk_IsMember d g w'' = Ok b ->
      answersMember t g b.

Inductive answersElevated (t : Z) : bool -> Prop :=
  | NotElevated w : tk_IsElevated t w = false -> answersElevated t false
  | IsElevated w b : tk_IsElevated t w = true -> answersMember t BuiltinAdministrators b -> answersElevated t b.

Definition linkedTo (t l : Z) : Prop := exists w w', tk_GetLinkedToken t w = (Ok l, w').
Definition notLinked (t : Z) : Prop := exists w err w', tk_GetLinkedToken t w = (Err err, w').

(** An administrator's token is elevated itself or linked to one that is; whether
    one is an operator is asked of the linked token where there is one. *)
Inductive answersAdmin (t : Z) : bool -> Prop :=
  | AdminItself : answersElevated t true -> answersAdmin t true
  | AdminLinked l b : answersElevated t false -> linkedTo t l -> answersElevated l b -> answersAdmin t b
  | AdminUnlinked : answersElevated t false -> notLinked t -> answersAdmin t false.

Definition LimitedOperatorUI_value (b : bool) : Prop :=
  if b then exists w v w', reg_GetIntegerValue (str "LimitedOperatorUI") w = (Ok v, w') /\ v <> 0
  else (exists key w err key' w', openAdminKey key w = (Err err, key', w'))
       \/ exists w r w', reg_GetIntegerValue (str "LimitedOperatorUI") w = (r, w') /\ forall v, r = Ok v -> v = 0.

Inductive answersOperator (t : Z) : bool -> Prop :=
  | OperatorsNotServed : LimitedOperatorUI_value false -> answersOperator t false
  | OperatorsUnknown : tk_WellKnownSid NetworkConfigurationOperators = false -> answersOperator t false
  | OperatorLinked l b : LimitedOperatorUI_value true -> linkedTo t l -> answersMember l NetworkConfigurationOperators b ->
      answersOperator t b
  | OperatorItself b : LimitedOperatorUI_value true -> notLinked t -> answersMember t NetworkConfigurationOperators b ->
      answersOperator t b.

Definition answersUser (t : Z) (b : bool) : Prop :=
  exists w, match tk_GetTokenUser t w with
            | Ok sid => match tk_LookupAccount sid w with Ok ty => b = (ty =? SidTypeUser) | Err _ => b = false end
            | Err _ => b = false
            end.

(** The token of the session's user, and why it is refused an interface. *)
Definition ownsSession (session t : Z) : Prop := exists w w', tk_WTSQueryUserToken session w = (Ok t, w').
Inductive refused (session : Z) : Prop :=
  | NobodyThere w err w' : tk_WTSQueryUserToken session w = (Err err, w') -> refused session
  | NeitherNor t : ownsSession session t -> answersAdmin t false -> answersOperator t false -> refused session
  | NotAUser t : ownsSession session t -> answersUser t false -> refused session
  | CannotElevate t : ownsSession session t -> answersAdmin t true -> (exists w, tk_IsElevated t w = false) ->
      notLinked t \/ (exists l w, linkedTo t l /\ tk_IsElevated l w = false) -> refused session.

(** What a session is given: of what the thread opens only the token the process
    runs with stays open. An administrator's process runs with, and is served
    with, an elevated token, his own or the linked one; an operator's runs with
    his own token and is served with none. *)
Definition granted (session : Z) (s s' : tokens) (r : option (Z * Z)) : Prop :=
  match r with
  | None => to_open s' = to_open s /\ refused session
  | Some (e, t) =>
      to_open s' = {[+ t +]} ⊎ to_open s
      /\ exists u, ownsSession session u /\ answersUser u true
         /\ (answersAdmin u true /\ e = t /\ (t = u \/ linkedTo u t) /\ (exists w, tk_IsElevated t w = true)
             \/ answersAdmin u false /\ answersOperator u true /\ e = 0 /\ t = u)
  end.

(** A function that answers [b] only with [Q b], leaving open what was open. *)
Definition answers {A} (f : M tokens A) (Q : A -> Prop) : Prop :=
  forall s, exists a s', f s = (Ok a, s') /\ to_open s' = to_open s /\ Q a.
Lemma answers_calm {A} (f : M tokens A) (Q : A -> Prop) : calmTokens f -> (forall s a s', f s = (Ok a, s') -> Q a) -> answers f Q.
Proof. intros Hf HQ s. destruct (Hf s) as (a & s' & E & Ho). exists a, s'. eauto. Qed.

Lemma isAdmin_says token : answers (isAdmin token) (answersMember token BuiltinAdministrators).
Proof.
  apply answers_calm; [apply isAdmin_calm|]. intros s a s'. unfold isAdmin.
  destruct (tk_WellKnownSid BuiltinAdministrators) eqn:Eg; cbn [negb]; [|intros [= <- <-]; by apply NoGroup].
  unfold mthen, try, opening. destruct (tk_DuplicateTokenEx token (to_sys s)) as [[d|err] w] eqn:Ed; [|intros [= <- <-]; by eapply NoDuplicate].
  unfold asking, mget, closeToken, mret. cbn [to_sys].
  destruct (tk_IsMember d BuiltinAdministrators w) as [b|err] eqn:Em; intros [= <- <-]; [by eapply Answered|by eapply NoAnswer].
Qed.
Lemma elevatedAdmin_says token : answers (elevatedAdmin token) (answersElevated token).
Proof.
  intros s. unfold elevatedAdmin, asking, mget, mthen. destruct (tk_IsElevated token (to_sys s)) eqn:Ee.
  - destruct (isAdmin_says token s) as (b & s' & E & Ho & Q). exists b, s'. split; [done|]. split; [done|]. by eapply IsElevated.
  - exists false, s. split; [done|]. split; [done|]. by eapply NotElevated.
Qed.
Lemma elevatedAdmin_answer token s a s' : elevatedAdmin token s = (Ok a, s') -> answersElevated token a.
Proof. intros E. destruct (elevatedAdmin_says token s) as (b & s1 & E' & _ & Q). congruence. Qed.
Lemma TokenIsElevatedOrElevatable_says token : answers (TokenIsElevatedOrElevatable token) (answersAdmin token).
Proof.
  apply answers_calm; [apply TokenIsElevatedOrElevatable_calm|]. intros s a s'. unfold TokenIsElevatedOrElevatable, mthen at 1.
  destruct (elevatedAdmin token s) as [[[]|err] s1] eqn:E1; [intros [= <- <-]; by apply AdminItself, (elevatedAdmin_answer _ s _ s1)| |done].
  apply elevatedAdmin_answer in E1. unfold mthen, try, opening.
  destruct (tk_GetLinkedToken token (to_sys s1)) as [[l|err] w] eqn:El; [|intros [= <- <-]; apply AdminUnlinked; [done|by eexists _, _, _]].
  destruct (elevatedAdmin l _) as [[b|err] s2] eqn:E2; [|done]. intros [= <- <-]. apply elevatedAdmin_answer in E2.
  apply (AdminLinked token l); [done|by eexists _, _|done].
Qed.

Lemma member_says (t d : Z) (g : wellKnownGroup) (w w' w'' : W) :
  tk_WellKnownSid g = true -> tk_DuplicateTokenEx t w = (Ok d, w') ->
  answersMember t g (match tk_IsMember d g w'' with Ok b => b | Err _ => false end).
Proof. intros HG Ed. destruct (tk_IsMember d g w'') eqn:Em; [by eapply Answered|by eapply NoAnswer]. Qed.
Lemma isOperator_says token : LimitedOperatorUI_value true -> tk_WellKnownSid NetworkConfigurationOperators = true ->
  answers (isOperator token) (answersOperator token).
Proof.
  intros HL HG. apply answers_calm; [apply isOperator_calm|]. intros s a s'.
  unfold isOperator, duplicateFor, asking, mget, closeToken, mthen, try, opening, mret.
  destruct (tk_GetLinkedToken token (to_sys s)) as [[l|err] w] eqn:El; cbn [to_sys].
  - destruct (tk_DuplicateTokenEx l w) as [[d|err] w'] eqn:Ed; cbn [to_sys]; intros [= <- <-];
      (apply (OperatorLinked token l); [done|by eexists _, _|]); [by eapply member_says|by eapply NoDuplicate].
  - destruct (tk_DuplicateTokenEx token w) as [[d|err'] w'] eqn:Ed; cbn [to_sys]; intros [= <- <-];
      (apply OperatorItself; [done|by eexists _, _, _|]); [by eapply member_says|by eapply NoDuplicate].
Qed.
Lemma limitedOperatorUI_says : answers limitedOperatorUI LimitedOperatorUI_value.
Proof.
  intros s. unfold limitedOperatorUI, AdminBool. destruct (openAdminKey _ _) as [[[u|err] key] w] eqn:Ek.
  - destruct (reg_GetIntegerValue _ w) as [[v|err] w'] eqn:Ev; eexists _, _; (split; [done|]); (split; [done|]).
    + destruct (Z.eqb_spec v 0) as [->|Hv]; cbn [negb]; [right; exists w, (Ok 0), w'; split; [done|by intros v' [= <-]]|by exists w, v, w'].
    + right. by exists w, (Err err), w'.
  - eexists _, _. split; [done|]. split; [done|]. left. by eexists _, _, _, _, _.
Qed.
Lemma mayOperate_says token : answers (mayOperate token) (answersOperator token).
Proof.
  intros s. unfold mayOperate, mthen. destruct (limitedOperatorUI_says s) as (b & s1 & E & Ho & Q). rewrite E.
  destruct b; cbn [andb]; [|exists false, s1; split; [done|]; split; [done|]; by apply OperatorsNotServed].
  destruct (tk_WellKnownSid NetworkConfigurationOperators) eqn:Eg.
  - destruct (isOperator_says token Q Eg s1) as (a & s2 & E2 & Ho2 & Q2). exists a, s2. split; [done|]. split; [congruence|done].
  - exists false, s1. split; [done|]. split; [done|]. by apply OperatorsUnknown.
Qed.
Lemma isUserAccount_says token : answers (isUserAccount token) (answersUser token).
Proof.
  apply answers_calm; [apply isUserAccount_calm|]. intros s a s'. unfold isUserAccount, asking, mget, mthen, mret. intros E.
  exists (to_sys s). destruct (tk_GetTokenUser token (to_sys s)) as [sid|]; [|congruence]. destruct (tk_LookupAccount sid (to_sys s)); congruence.
Qed.

Lemma elevateToken_granted (t : Z) (s : tokens) (O : gmultiset Z) :
  to_open s = {[+ t +]} ⊎ O ->
  exists r s', elevateToken t s = (Ok r, s')
  /\ match r with
     | Some e => to_open s' = {[+ e +]} ⊎ O /\ (e = t \/ linkedTo t e) /\ exists w, tk_IsElevated e w = true
     | None => to_open s' = O /\ (exists w, tk_IsElevated t w = false)
               /\ (notLinked t \/ exists l w, linkedTo t l /\ tk_IsElevated l w = false)
     end.
Proof.
  intros HO. unfold elevateToken, asking, mget, mthen at 1. destruct (tk_IsElevated t (to_sys s)) eqn:Ee.
  { exists (Some t), s. eauto 8. }
  unfold mthen at 1, try, opening. destruct (tk_GetLinkedToken t (to_sys s)) as [[l|err] w] eqn:Et;
    unfold mthen, closeToken, mret; cbn [to_open to_sys to_adminKey].
  2: { eexists None, _. split; [done|]. cbn [to_open]. rewrite HO, closed_again. split; [done|]. split; [eauto|]. left. by eexists _, _, _. }
  assert (Hl : linkedTo t l) by by eexists _, _.
  destruct (tk_IsElevated l (tk_Close t w)) eqn:El; unfold mthen, closeToken, mret; cbn [to_open to_sys to_adminKey].
  - eexists (Some l), _. split; [done|]. cbn [to_open]. rewrite HO, closed_other. eauto.
  - eexists None, _. split; [done|]. cbn [to_open]. rewrite HO, closed_other, closed_again. eauto 8.
Qed.

Lemma giveUp_granted {A} (t : Z) (s : tokens) (O : gmultiset Z) :
  to_open s = {[+ t +]} ⊎ O -> exists s', giveUp (A := A) t s = (Ok None, s') /\ to_open s' = O.
Proof. intros HO. eexists. split; [done|]. cbn [to_open]. by rewrite HO, closed_again. Qed.

Lemma step_answers {A B} (f : M tokens A) (Q : A -> Prop) (k : A -> M tokens B) (s : tokens) (P : result B * tokens -> Prop) :
  answers f Q -> (forall a s', to_open s' = to_open s -> Q a -> P (k a s')) -> P (mthen f k s).
Proof. intros Hf Hk. destruct (Hf s) as (a & s' & E & Ho & HQ). unfold mthen. rewrite E. by apply Hk. Qed.

(** C14: The thread of a session answers for every outcome of the token functions.
    It grants a user interface only to the account of a user: to an
    administrator, one whose token is elevated and in the administrators' group
    or is linked to such a token, with an elevated token for both process and
    connection; or to one who is no administrator but is found in the network
    operators' group while the registry lets operators in, with his own token and
    none (zero) for the connection. Anybody else is refused, and a refusal has
    one of these reasons: no user token, neither administrator nor operator, not
    a user account, no elevated token to be had. Of all it opened it leaves open
    nothing on a refusal and only the token of the process otherwise. *)
Theorem sessionTokens_spec (session : Z) (s : tokens) :
  exists r s', sessionTokens session s = (Ok r, s') /\ granted session s s' r.
Proof.
  set (P := fun x : result (option (Z * Z)) * tokens => exists r s', x = (Ok r, s') /\ granted session s s' r).
  change (P (sessionTokens session s)). unfold sessionTokens, mthen at 1, try, opening.
  destruct (tk_WTSQueryUserToken session (to_sys s)) as [[t|err] w] eqn:Et.
  2: { eexists None, _. split; [done|]. split; [done|]. by eapply NobodyThere. }
  assert (Hown : ownsSession session t) by by eexists _, _.
  apply (step_answers _ (answersAdmin t)); [apply TokenIsElevatedOrElevatable_says|]. intros admin s1 H1 Qa. cbn [to_open] in H1.
  apply (step_answers _ (fun b => if admin then b = false else answersOperator t b)).
  { destruct admin; [|apply mayOperate_says]. intros s2. by exists false, s2. }
  intros operator s2 H2 Qo. rewrite H1 in H2.
  assert (Hno : forall s3, to_open s3 = to_open s2 -> refused session -> P (giveUp t s3)).
  { intros s3 H3 HR. rewrite H2 in H3. destruct (giveUp_granted (A := Z * Z) t s3 _ H3) as (s' & E & Ho). exists None, s'. by rewrite E. }
  destruct (negb admin && negb operator) eqn:Ep.
  { apply Hno; [done|]. destruct admin, operator; try discriminate Ep. by eapply NeitherNor. }
  apply (step_answers _ (answersUser t)); [apply isUserAccount_says|]. intros account s3 H3 Qu.
  destruct account; cbn [negb]; [|apply Hno; [done|by eapply NotAUser]]. rewrite H2 in H3. destruct admin.
  - destruct (elevateToken_granted t s3 _ H3) as (r & s' & E & Ho). unfold mthen. rewrite E.
    destruct r as [e|]; eexists _, s'; (split; [done|]); cbn [granted]; destruct Ho as (Ho & ? & ?); (split; [done|]).
    + exists t. auto 10.
    + by eapply CannotElevate.
  - eexists _, s3. split; [done|]. split; [done|]. destruct operator; [|discriminate Ep]. exists t. auto 10.
Qed.
End Tokens.

(** ** The threads of the sessions

    A thread stands before one of these points of startProcess: choosing its
    tokens, the read of [stoppingManager], the first look at [aliveSessions], the
    pause and the pipes, the launch, the registration of the process, its wait,
    what follows the wait, the deferred function. *)
Inductive where_ : Type :=
  | Choosing
  | AtTop
  | AtAlive
  | Preparing
  | AtLaunch
  | Launched (p : Z)
  | Waiting (p : Z)
  | Exited (p : Z) (sessionIsDead : bool)
  | Leaving
  | Ended.

Record sthread : Type := mkSthread { st_session : Z; st_at : where_ }.

Inductive mainAt : Type := MainLoop | MainWaiting | MainReturned.

(** What the threads share, where the main thread stands and the processes that
    run. [ss_launched] are the processes there ever were, [ss_killed] those that
    were told to end; [ss_lost] are those whose wait failed. *)
Record sessions : Type := mkSessions {
  ss_procs : gmap Z Z;
  ss_alive : gset Z;
  ss_stopping : bool;
  ss_threads : list sthread;
  ss_main : mainAt;
  ss_running : gset Z;
  ss_launched : gset Z;
  ss_killed : gset Z;
  ss_lost : gset Z;
  ss_loggedOff : gset Z
}.

Definition noSessions : sessions := mkSessions ∅ ∅ false [] MainLoop ∅ ∅ ∅ ∅ ∅.

Definition setThreads (f : list sthread -> list sthread) (s : sessions) : sessions :=
  mkSessions (ss_procs s) (ss_alive s) (ss_stopping s) (f (ss_threads s)) (ss_main s) (ss_running s) (ss_launched s)
             (ss_killed s) (ss_lost s) (ss_loggedOff s).
Definition setShared (f : gmap Z Z -> gmap Z Z) (g : gset Z -> gset Z) (s : sessions) : sessions :=
  mkSessions (f (ss_procs s)) (g (ss_alive s)) (ss_stopping s) (ss_threads s) (ss_main s) (ss_running s) (ss_launched s)
             (ss_killed s) (ss_lost s) (ss_loggedOff s).
Definition killing (ps : gset Z) (s : sessions) : sessions :=
  mkSessions (ss_procs s) (ss_alive s) (ss_stopping s) (ss_threads s) (ss_main s) (ss_running s) (ss_launched s)
             (ps ∪ ss_killed s) (ss_lost s) (ss_loggedOff s).
Definition losing (p : Z) (s : sessions) : sessions :=
  mkSessions (ss_procs s) (ss_alive s) (ss_stopping s) (ss_threads s) (ss_main s) (ss_running s) (ss_launched s)
             (ss_killed s) ({[p]} ∪ ss_lost s) (ss_loggedOff s).
Definition starting (p : Z) (s : sessions) : sessions :=
  mkSessions (ss_procs s) (ss_alive s) (ss_stopping s) (ss_threads s) (ss_main s) ({[p]} ∪ ss_running s) ({[p]} ∪ ss_launched s)
             (ss_killed s) (ss_lost s) (ss_loggedOff s).
Definition exiting (p : Z) (s : sessions) : sessions :=
  mkSessions (ss_procs s) (ss_alive s) (ss_stopping s) (ss_threads s) (ss_main s) (ss_running s ∖ {[p]}) (ss_launched s)
             (ss_killed s) (ss_lost s) (ss_loggedOff s).
Definition mainTo (stopping : bool) (m : mainAt) (s : sessions) : sessions :=
  mkSessions (ss_procs s) (ss_alive s) stopping (ss_threads s) m (ss_running s) (ss_launched s)
             (ss_killed s) (ss_lost s) (ss_loggedOff s).
Definition noteLogoff (session : Z) (s : sessions) : sessions :=
  mkSessions (ss_procs s) (ss_alive s) (ss_stopping s) (ss_threads s) (ss_main s) (ss_running s) (ss_launched s)
             (ss_killed s) (ss_lost s) ({[session]} ∪ ss_loggedOff s).

(** The main thread hears that a session is there, at start or by a logon, that
    it went, or that the service is to stop. *)
Definition mainLogon (session : Z) (s : sessions) : sessions :=
  if bool_decide (session ∈ ss_alive s) then s
  else
    let s := setShared id (union {[session]}) s in
    match ss_procs s !! session with
    | None => setThreads (fun ts => ts ++ [mkSthread session Choosing]) s
    | Some _ => s
    end.
Definition mainLogoff (session : Z) (s : sessions) : sessions :=
  let s := noteLogoff session (setShared id (fun alive => alive ∖ {[session]}) s) in
  match ss_procs s !! session with
  | Some proc => killing {[proc]} s
  | None => s
  end.
Definition mainStop (s : sessions) : sessions :=
  killing (list_to_set (map_to_list (ss_procs s)).*2) (mainTo true MainWaiting s).

(** What the outside decides of a thread's next step: whether the tokens were
    granted, whether the pipes and the log mapping were made, whether the process
    could be launched, what waiting for it gave. *)
Inductive outcome : Type :=
  | Goes
  | Fails
  | Launches (p : Z)
  | Exits (code : Z).

Definition STATUS_DLL_INIT_FAILED_LOGOFF : Z := 0xC000026B.

(** The next step of thread [t]: where it stands then and what is shared. *)
Definition threadStep (t : sthread) (o : outcome) (s : sessions) : option (where_ * sessions) :=
  let session := st_session t in
  match st_at t, o with
  | Choosing, Goes => Some (AtTop, s)
  | Choosing, Fails => Some (Leaving, s)
  | AtTop, Goes => Some (if ss_stopping s then Leaving else AtAlive, s)
  | AtAlive, Goes => Some (if bool_decide (session ∈ ss_alive s) then Preparing else Leaving, s)
  | Preparing, Goes => Some (AtLaunch, s)
  | Preparing, Fails => Some (Leaving, s)
  | AtLaunch, Launches p =>
      if bool_decide (session ∈ ss_alive s) && bool_decide (p ∉ ss_launched s) then Some (Launched p, starting p s) else None
  | AtLaunch, Fails => Some (Leaving, s)
  | AtLaunch, Goes => if bool_decide (session ∈ ss_alive s) then None else Some (Leaving, s)
  | Launched p, Goes => Some (Waiting p, setShared (insert session p) id s)
  | Waiting p, Exits code =>
      if bool_decide (p ∈ ss_running s) then None else Some (Exited p (code =? STATUS_DLL_INIT_FAILED_LOGOFF), s)
  | Waiting p, Fails => Some (Exited p false, losing p s)
  | Exited p sessionIsDead, Goes => Some (if sessionIsDead : bool then Leaving else AtTop, setShared (delete session) id s)
  | Leaving, Goes => Some (Ended, setShared id (fun alive => alive ∖ {[session]}) s)
  | _, _ => None
  end.

Definition isEnded (t : sthread) : bool := match st_at t with Ended => true | _ => false end.

(** One step: of the main thread, of a thread, or the end of a process. *)
Inductive action : Type :=
  | Logon (session : Z)
  | Logoff (session : Z)
  | Stop
  | GroupDone
  | Thread (i : nat) (o : outcome)
  | ProcessEnds (p : Z).

Definition sact (a : action) (s : sessions) : option sessions :=
  match a, ss_main s with
  | Logon session, MainLoop => Some (mainLogon session s)
  | Logoff session, MainLoop => Some (mainLogoff session s)
  | Stop, MainLoop => Some (mainStop s)
  | GroupDone, MainWaiting => if forallb isEnded (ss_threads s) then Some (mainTo (ss_stopping s) MainReturned s) else None
  | Thread i o, _ =>
      match ss_threads s !! i with
      | Some t =>
          match threadStep t o s with
          | Some (w, s') => Some (setThreads (insert i (mkSthread (st_session t) w)) s')
          | None => None
          end
      | None => None
      end
  | ProcessEnds p, _ => if bool_decide (p ∈ ss_running s) then Some (exiting p s) else None
  | _, _ => None
  end.

Definition sstep (s s' : sessions) : Prop := exists a, sact a s = Some s'.
Definition sreachable (s : sessions) : Prop := rtc sstep noSessions s.

Fixpoint runActions (l : list action) (s : sessions) : option sessions :=
  match l with
  | [] => Some s
  | a :: l => match sact a s with Some s' => runActions l s' | None => None end
  end.

Lemma runActions_rtc (l : list action) (s s' : sessions) : runActions l s = Some s' -> rtc sstep s s'.
Proof.
  revert s. induction l as [|a l IH]; intros s E; cbn in E; [by injection E as ->|].
  destruct (sact a s) as [s1|] eqn:Ea; [|done]. apply (rtc_l _ _ s1); [by exists a|]. by apply IH.
Qed.

(** ** What holds of every reachable state *)

(** The process a thread has, and the one it has put into [procs]. *)
Definition heldAt (w : where_) : option Z := match w with Launched p | Waiting p => Some p | _ => None end.
Definition listedAt (w : where_) : option Z := match w with Waiting p | Exited p _ => Some p | _ => None end.
Definition holdsProcess (t : sthread) (p : Z) : Prop := heldAt (st_at t) = Some p.
Definition registered (t : sthread) (p : Z) : Prop := listedAt (st_at t) = Some p.
Definition active (t : sthread) : Prop := st_at t <> Ended.

Record sinv (s : sessions) : Prop := {
  si_running : forall p, p ∈ ss_running s -> p ∈ ss_lost s \/ exists i t, ss_threads s !! i = Some t /\ holdsProcess t p;
  si_procs : forall x p, ss_procs s !! x = Some p -> exists i t, ss_threads s !! i = Some t /\ st_session t = x /\ registered t p;
  si_single : forall x i j t u, x ∉ ss_loggedOff s -> ss_threads s !! i = Some t -> ss_threads s !! j = Some u ->
    st_session t = x -> st_session u = x -> active t -> active u -> i = j;
  si_alive : forall x i t, x ∉ ss_loggedOff s -> ss_threads s !! i = Some t -> st_session t = x -> active t -> x ∈ ss_alive s;
  si_served : forall x, x ∉ ss_loggedOff s -> x ∈ ss_alive s -> exists i t, ss_threads s !! i = Some t /\ st_session t = x /\ active t;
  si_listed : forall x i t p, x ∉ ss_loggedOff s -> ss_threads s !! i = Some t -> st_session t = x -> registered t p ->
    ss_procs s !! x = Some p;
  si_stopping : ss_main s <> MainLoop -> ss_stopping s = true;
  si_returned : ss_main s = MainReturned -> forall i t, ss_threads s !! i = Some t -> st_at t = Ended
}.

Lemma registered_active t p : registered t p -> active t.
Proof. unfold registered. intros E Ha. by rewrite Ha in E. Qed.

Lemma sinv_initial : sinv noSessions.
Proof. split; cbn; set_solver. Qed.

Lemma sinv_logon (x : Z) (s : sessions) : ss_main s = MainLoop -> sinv s -> sinv (mainLogon x s).
Proof.
  intros Hm I. unfold mainLogon. case_bool_decide as Hx; [done|]. cbn.
  destruct (ss_procs s !! x) as [p|] eqn:Ep.
  - destruct (si_procs s I x p Ep) as (i & t & Ht & Hs & Hr).
    assert (Hoff : x ∈ ss_loggedOff s).
    { destruct (decide (x ∈ ss_loggedOff s)) as [?|Hoff]; [done|]. exfalso. apply Hx.
      apply (si_alive s I x i t Hoff Ht Hs), (registered_active t p Hr). }
    destruct I. split; cbn; eauto.
    + intros y j u Hy Hu Hsu Ha. apply elem_of_union. right. eauto.
    + intros y Hy [->%elem_of_singleton|Hay]%elem_of_union; [done|eauto].
  - destruct I.
    assert (Hnew : forall i t, ss_threads s !! i = Some t -> (ss_threads s ++ [mkSthread x Choosing]) !! i = Some t)
      by (intros i t Ht; by apply lookup_app_l_Some).
    split; cbn; eauto.
    + intros p Hp. destruct (si_running0 p Hp) as [?|(i & t & Ht & Hh)]; eauto 6.
    + intros y p Hp. destruct (si_procs0 y p Hp) as (i & t & Ht & Hh). eauto.
    + intros y i j t u Hy Ht Hu Hst Hsu Hat Hau.
      apply lookup_snoc_Some in Ht as [[? Ht]|[-> <-]]; apply lookup_snoc_Some in Hu as [[? Hu]|[-> <-]]; eauto;
        cbn in *; subst; exfalso; eauto.
    + intros y i t Hy Ht Hst Hat. apply lookup_snoc_Some in Ht as [[? Ht]|[-> <-]]; cbn in *; [|set_solver].
      apply elem_of_union. eauto.
    + intros y Hy [->%elem_of_singleton|Hay]%elem_of_union.
      * exists (length (ss_threads s)), (mkSthread x Choosing). split; [|done]. apply lookup_snoc_Some. auto.
      * destruct (si_served0 y Hy Hay) as (i & t & Ht & Hh). eauto.
    + intros y i t p Hy Ht Hst Hr. apply lookup_snoc_Some in Ht as [[? Ht]|[-> <-]]; [eauto|]. discriminate Hr.
    + by rewrite Hm.
Qed.

Lemma sinv_killing (ps : gset Z) (s : sessions) : sinv s -> sinv (killing ps s).
Proof. intros []. by split. Qed.

Lemma sinv_logoff (x : Z) (s : sessions) : sinv s -> sinv (mainLogoff x s).
Proof.
  intros I. assert (I' : sinv (noteLogoff x (setShared id (fun alive => alive ∖ {[x]}) s))).
  { destruct I. assert (Hout : forall (y : Z), y ∉ {[x]} ∪ ss_loggedOff s -> y <> x /\ y ∉ ss_loggedOff s) by set_solver.
    split; cbn; eauto.
    - intros y i j t u [? ?]%Hout. eauto.
    - intros y i t [Hn ?]%Hout ? ? ?. apply elem_of_difference. split; [eauto|]. by intros ?%elem_of_singleton.
    - intros y [? ?]%Hout [? ?]%elem_of_difference. eauto.
    - intros y i t p [? ?]%Hout. eauto. }
  unfold mainLogoff. destruct (_ !! _); [by apply sinv_killing|done].
Qed.

Lemma sinv_stop (s : sessions) : sinv s -> sinv (mainStop s).
Proof. intros []. apply sinv_killing. by split. Qed.

Lemma sinv_done (s : sessions) : forallb isEnded (ss_threads s) = true -> sinv s -> ss_main s = MainWaiting ->
  sinv (mainTo (ss_stopping s) MainReturned s).
Proof.
  intros Hall [] Hm. split; cbn; eauto; [intros _; apply si_stopping0; by rewrite Hm|].
  intros _ i t Ht. rewrite forallb_forall in Hall. specialize (Hall t (proj1 (list_elem_of_In _ _) (list_elem_of_lookup_2 _ _ _ Ht))).
  unfold isEnded in Hall. by destruct (st_at t).
Qed.

Lemma sinv_exiting (p : Z) (s : sessions) : sinv s -> sinv (exiting p s).
Proof. intros []. split; cbn; eauto. intros q [Hq _]%elem_of_difference. eauto. Qed.

(** A thread moves on: what its step has to do for the invariant. *)
Record moves (t t' : sthread) (s s' : sessions) : Prop := {
  mv_session : st_session t' = st_session t;
  mv_rest : ss_threads s' = ss_threads s /\ ss_loggedOff s' = ss_loggedOff s /\ ss_main s' = ss_main s /\ ss_stopping s' = ss_stopping s;
  mv_active : active t;
  mv_lost : ss_lost s ⊆ ss_lost s';
  mv_running : forall p, p ∈ ss_running s' -> p ∈ ss_lost s' \/ holdsProcess t' p \/ (p ∈ ss_running s /\ ~ holdsProcess t p);
  mv_procs : forall p, ss_procs s' !! st_session t = Some p ->
    registered t' p \/ (ss_procs s !! st_session t = Some p /\ ~ registered t p);
  mv_others : forall y, y <> st_session t -> ss_procs s' !! y = ss_procs s !! y;
  mv_listed : forall p, registered t' p -> ss_procs s' !! st_session t = Some p \/ (registered t p /\ ss_procs s' = ss_procs s);
  mv_alive : (active t' /\ ss_alive s' = ss_alive s) \/ (st_at t' = Ended /\ ss_alive s' = ss_alive s ∖ {[st_session t]})
}.

Section Moves.
Context (i : nat) (t t' : sthread) (s s' : sessions).
Context (Ht : ss_threads s !! i = Some t) (Hmv : moves t t' s s') (I : sinv s).

Lemma moved_there : <[i := t']> (ss_threads s) !! i = Some t'.
Proof. apply list_lookup_insert_eq. by eapply lookup_lt_Some. Qed.
Lemma moved_other j u : j <> i -> ss_threads s !! j = Some u -> <[i := t']> (ss_threads s) !! j = Some u.
Proof. intros Hn Hu. by rewrite list_lookup_insert_ne. Qed.
Lemma moved_cases j u : <[i := t']> (ss_threads s) !! j = Some u -> (j = i /\ u = t') \/ (j <> i /\ ss_threads s !! j = Some u).
Proof.
  intros Hu. pose proof moved_there. destruct (decide (j = i)) as [->|Hn]; [left; split; congruence|right].
  by rewrite list_lookup_insert_ne in Hu.
Qed.
Lemma moved_alone j u :
  st_session t ∉ ss_loggedOff s -> ss_threads s !! j = Some u -> st_session u = st_session t -> active u -> j = i.
Proof. intros Hoff Hu Hsu Hau. exact (si_single s I _ j i u t Hoff Hu Ht Hsu eq_refl Hau (mv_active _ _ _ _ Hmv)). Qed.

Lemma moved_running p : p ∈ ss_running s' ->
  p ∈ ss_lost s' \/ exists j u, <[i := t']> (ss_threads s) !! j = Some u /\ holdsProcess u p.
Proof.
  intros Hp. pose proof moved_there as Hi. pose proof (mv_lost _ _ _ _ Hmv) as Hlost.
  destruct (mv_running _ _ _ _ Hmv p Hp) as [?|[?|[Hp' Hn]]]; [auto|eauto|].
  destruct (si_running s I p Hp') as [?|(j & u & Hu & Hh)]; [auto|]. right. exists j, u. split; [|done].
  apply moved_other; [|done]. intros ->. congruence.
Qed.
Lemma moved_procs y p : ss_procs s' !! y = Some p ->
  exists j u, <[i := t']> (ss_threads s) !! j = Some u /\ st_session u = y /\ registered u p.
Proof.
  intros Hp. pose proof moved_there as Hi. pose proof (mv_session _ _ _ _ Hmv) as Hs. destruct (decide (y = st_session t)) as [->|Hn].
  - destruct (mv_procs _ _ _ _ Hmv p Hp) as [Hr|[Hp' Hn]]; [eauto|].
    destruct (si_procs s I _ p Hp') as (j & u & Hu & Hsu & Hr). exists j, u. split; [|done].
    apply moved_other; [|done]. intros ->. congruence.
  - rewrite (mv_others _ _ _ _ Hmv) in Hp by done. destruct (si_procs s I _ p Hp) as (j & u & Hu & Hsu & Hr). exists j, u.
    split; [|done]. apply moved_other; [|done]. intros ->. congruence.
Qed.
Lemma moved_single y j k u v : y ∉ ss_loggedOff s -> <[i := t']> (ss_threads s) !! j = Some u -> <[i := t']> (ss_threads s) !! k = Some v ->
  st_session u = y -> st_session v = y -> active u -> active v -> j = k.
Proof.
  intros Hy Hu Hv Hsu Hsv Hau Hav. pose proof (mv_session _ _ _ _ Hmv) as Hs.
  destruct (moved_cases j u Hu) as [[-> ->]|[Hnj Hu']]; destruct (moved_cases k v Hv) as [[-> ->]|[Hnk Hv']]; [done| | |].
  - symmetry. apply (moved_alone k v); congruence.
  - apply (moved_alone j u); congruence.
  - exact (si_single s I y j k u v Hy Hu' Hv' Hsu Hsv Hau Hav).
Qed.
Lemma moved_alive y j u : y ∉ ss_loggedOff s -> <[i := t']> (ss_threads s) !! j = Some u -> st_session u = y -> active u -> y ∈ ss_alive s'.
Proof.
  intros Hy Hu Hsu Hau. pose proof (mv_session _ _ _ _ Hmv) as Hs. destruct (moved_cases j u Hu) as [[-> ->]|[Hnj Hu']].
  - pose proof (mv_active _ _ _ _ Hmv). destruct (mv_alive _ _ _ _ Hmv) as [[_ ->]|[He _]]; [|done].
    apply (si_alive s I y i t); congruence.
  - pose proof (si_alive s I y j u Hy Hu' Hsu Hau) as Ha. destruct (mv_alive _ _ _ _ Hmv) as [[_ ->]|[_ ->]]; [done|].
    apply elem_of_difference. split; [done|]. intros ->%elem_of_singleton. apply Hnj, (moved_alone j u); congruence.
Qed.
Lemma moved_served y : y ∉ ss_loggedOff s -> y ∈ ss_alive s' ->
  exists j u, <[i := t']> (ss_threads s) !! j = Some u /\ st_session u = y /\ active u.
Proof.
  intros Hy Ha. pose proof moved_there as Hi. pose proof (mv_session _ _ _ _ Hmv) as Hs.
  assert (Ha' : y ∈ ss_alive s /\ (st_at t' = Ended -> y <> st_session t)).
  { destruct (mv_alive _ _ _ _ Hmv) as [[? E]|[? E]]; rewrite E in Ha; [done|]. apply elem_of_difference in Ha as [Ha Hn].
    split; [done|]. intros _ ->. by apply Hn, elem_of_singleton. }
  destruct Ha' as [Ha' Hne]. destruct (si_served s I y Hy Ha') as (j & u & Hu & Hsu & Hau).
  destruct (decide (j = i)) as [->|Hn]; [|exists j, u; split; [by apply moved_other|done]].
  exists i, t'. replace u with t in * by congruence. split; [done|]. split; [congruence|]. intros He. by apply Hne.
Qed.
Lemma moved_listed y j u p : y ∉ ss_loggedOff s -> <[i := t']> (ss_threads s) !! j = Some u -> st_session u = y -> registered u p ->
  ss_procs s' !! y = Some p.
Proof.
  intros Hy Hu Hsu Hr. pose proof (mv_session _ _ _ _ Hmv) as Hs. destruct (moved_cases j u Hu) as [[-> ->]|[Hnj Hu']].
  - rewrite <- Hsu, Hs in *. destruct (mv_listed _ _ _ _ Hmv p Hr) as [?|[Hr' ->]]; [done|].
    exact (si_listed s I _ i t p Hy Ht eq_refl Hr').
  - rewrite (mv_others _ _ _ _ Hmv); [exact (si_listed s I y j u p Hy Hu' Hsu Hr)|]. intros ->. apply Hnj.
    apply (moved_alone j u); eauto using registered_active.
Qed.

Lemma sinv_moves : sinv (setThreads (insert i t') s').
Proof.
  destruct (mv_rest _ _ _ _ Hmv) as (Eth & Eoff & Em & Est). split; cbn; rewrite ?Eth, ?Eoff, ?Em, ?Est.
  - exact moved_running.
  - exact moved_procs.
  - exact moved_single.
  - exact moved_alive.
  - exact moved_served.
  - exact moved_listed.
  - apply (si_stopping s I).
  - intros Hm. destruct (mv_active _ _ _ _ Hmv (si_returned s I Hm i t Ht)).
Qed.
End Moves.

Lemma threadStep_moves (t : sthread) (o : outcome) (s s' : sessions) (w : where_) :
  threadStep t o s = Some (w, s') -> moves t (mkSthread (st_session t) w) s s'.
Proof.
  destruct t as [x at0]. unfold threadStep. cbn [st_session st_at]. intros E.
  destruct at0, o; try discriminate E; repeat case_bool_decide; try discriminate E; injection E as <- <-.
  all: split; cbn; unfold holdsProcess, registered, active; cbn; try done; try (left; split; [|done]); eauto.
  all: repeat case_match; intros; rewrite ?lookup_insert_eq, ?lookup_insert_ne, ?lookup_delete_eq, ?lookup_delete_ne in * by done; simplify_eq; eauto.
  all: try set_solver.
  all: destruct (decide (p = p0)) as [->|Hn]; [set_solver|].
  all: assert (Some p <> Some p0) by congruence; auto.
Qed.

Lemma sact_sinv (a : action) (s s' : sessions) : sact a s = Some s' -> sinv s -> sinv s'.
Proof.
  intros E I. unfold sact in E. destruct a as [x|x| | |i o|p].
  1-4: destruct (ss_main s) eqn:Hm; try discriminate E.
  - injection E as <-. by apply sinv_logon.
  - injection E as <-. by apply sinv_logoff.
  - injection E as <-. by apply sinv_stop.
  - destruct (forallb _ _) eqn:Hall; [|discriminate E]. injection E as <-. by apply sinv_done.
  - destruct (ss_threads s !! i) as [t|] eqn:Ht; [|discriminate E].
    destruct (threadStep t o s) as [[w s1]|] eqn:Es; [|discriminate E]. injection E as <-.
    exact (sinv_moves i t _ s s1 Ht (threadStep_moves t o s s1 w Es) I).
  - case_bool_decide; [|discriminate E]. injection E as <-. by apply sinv_exiting.
Qed.
Lemma sreachable_sinv (s : sessions) : sreachable s -> sinv s.
Proof.
  intros Hr. refine (rtc_ind_r sinv noSessions sinv_initial _ s Hr). intros s1 s2 _ [a Ha] I. exact (sact_sinv a s1 s2 Ha I).
Qed.

(** *** Stopping *)

(** How many steps a thread can still make once the manager is stopping. *)
Definition rank (t : sthread) : nat :=
  match st_at t with
  | Ended => 0 | Leaving => 1 | AtTop => 2 | Choosing => 3 | Exited _ _ => 3 | Waiting _ => 4 | Launched _ => 5 | AtLaunch => 6
  | Preparing => 7 | AtAlive => 8
  end.
Definition ranks (s : sessions) : nat := sum_list_with rank (ss_threads s).

Lemma sum_list_with_insert {A} (f : A -> nat) (ts : list A) (i : nat) (t t' : A) :
  ts !! i = Some t -> (sum_list_with f (<[i := t']> ts) + f t = sum_list_with f ts + f t')%nat.
Proof.
  revert i. induction ts as [|u ts IH]; intros [|i] Hi; try discriminate Hi; simpl in *; [simplify_eq; lia|specialize (IH i Hi); lia].
Qed.

Lemma threadStep_rank (t : sthread) (o : outcome) (s s' : sessions) (w : where_) :
  ss_stopping s = true -> threadStep t o s = Some (w, s') -> (rank (mkSthread (st_session t) w) < rank t)%nat.
Proof.
  intros Hst E. destruct t as [x at0]. unfold threadStep in E. cbn [st_at st_session] in E. unfold rank. cbn.
  destruct at0, o; try discriminate E; rewrite ?Hst in E; repeat case_bool_decide; try discriminate E; injection E as <- <-; try lia.
  destruct sessionIsDead; lia.
Qed.

Lemma threadStep_threads (t : sthread) (o : outcome) (s s' : sessions) (w : where_) :
  threadStep t o s = Some (w, s') -> ss_threads s' = ss_threads s.
Proof. intros E. by destruct (mv_rest _ _ _ _ (threadStep_moves t o s s' w E)). Qed.

(** A thread that has not ended can go on without a failure, unless its process
    still runs. *)
Lemma threadStep_enabled (t : sthread) (s : sessions) :
  active t -> (exists o r, o <> Fails /\ threadStep t o s = Some r) \/ exists p, st_at t = Waiting p /\ p ∈ ss_running s.
Proof.
  destruct t as [x at0]. unfold active, threadStep. cbn. intros Ha.
  destruct at0; try done; try (left; exists Goes; eexists; split; [done|reflexivity]).
  - left. destruct (decide (x ∈ ss_alive s)) as [Hx|Hx].
    + exists (Launches (fresh (ss_launched s))). rewrite !bool_decide_eq_true_2 by (done || apply is_fresh). by eexists.
    + exists Goes. rewrite bool_decide_eq_false_2 by done. by eexists.
  - destruct (decide (p ∈ ss_running s)) as [Hp|Hp]; [right; eauto|left].
    exists (Exits 0). rewrite bool_decide_eq_false_2 by done. by eexists.
Qed.

Lemma all_ended_dec (s : sessions) :
  forallb isEnded (ss_threads s) = true \/ exists i t, ss_threads s !! i = Some t /\ active t.
Proof.
  destruct (forallb isEnded (ss_threads s)) eqn:E; [auto|right].
  assert (Hn : ~ Forall isEnded (ss_threads s)) by (rewrite <- forallb_True, E; cbn; auto).
  apply not_Forall_Exists, Exists_exists in Hn as (t & Hin & Ht); [|apply _]. apply list_elem_of_lookup in Hin as [i Hi]. exists i, t. split; [done|].
  intros He. apply Ht. unfold isEnded. by rewrite He.
Qed.

(** *** The theorems *)


(** Once the manager is stopping, every step of a thread lowers the number of
    steps the threads have left, at most eight a thread; and until the manager can return, some
    thread can go on without anything failing, or one waits for a process that
    still runs. *)
Theorem sessions_wind_down (s : sessions) : sreachable s -> ss_main s = MainWaiting ->
  (forall i o s', sact (Thread i o) s = Some s' -> (ranks s' < ranks s)%nat /\ ss_main s' = MainWaiting)
  /\ (ranks s <= 8 * length (ss_threads s))%nat
  /\ (sact GroupDone s <> None
      \/ (exists i o s', o <> Fails /\ sact (Thread i o) s = Some s')
      \/ exists i t p, ss_threads s !! i = Some t /\ st_at t = Waiting p /\ p ∈ ss_running s).
Proof.
  intros I%sreachable_sinv Hm. pose proof (si_stopping s I) as Hst. rewrite Hm in Hst. specialize (Hst ltac:(done)). split; [|split].
  - intros i o s' E. unfold sact in E. destruct (ss_threads s !! i) as [t|] eqn:Ht; [|discriminate E].
    destruct (threadStep t o s) as [[w s1]|] eqn:Es; [|discriminate E]. injection E as <-. unfold ranks. cbn.
    destruct (mv_rest _ _ _ _ (threadStep_moves t o s s1 w Es)) as (Eth & _ & Em & _). rewrite Eth, Em, Hm. split; [|done].
    pose proof (threadStep_rank t o s s1 w Hst Es). pose proof (sum_list_with_insert rank _ i t (mkSthread (st_session t) w) Ht). lia.
  - unfold ranks. induction (ss_threads s) as [|t ts IH]; [done|]. cbn. assert (rank t <= 8)%nat by (unfold rank; case_match; lia). lia.
  - destruct (all_ended_dec s) as [Hall|(i & t & Ht & Ha)]; [left; unfold sact; by rewrite Hm, Hall|right].
    destruct (threadStep_enabled t s Ha) as [(o & [w s1] & Ho & E)|(p & Hw & Hp)]; [left|right; by exists i, t, p].
    exists i, o. unfold sact. rewrite Ht, E. by eexists.
Qed.
