(* ===== verification/SessionsExample.v ===== *)
(** * Runs of the manager's session threads, and sessions at the edge

    Concrete interleavings of [Sessions]: a day with one user, and what becomes of
    a session that is logged off and on while its thread is between two critical
    sections, and of a process launched while the manager stops. *)

From stdpp Require Import gmultiset.
From S2P Require Import Prelude GoStrings GoNum Netip Config Name Paths WSTLS Parser Writer UAPI Driver Effects Store Services Updater Manager IPC Tracker Sessions.
Local Open Scope Z_scope.

Definition endOf (l : list action) : sessions := default noSessions (runActions l noSessions).

(** From the choice of tokens to the wait for process [p]. *)
Definition upTo (i : nat) (p : Z) : list action :=
  [Thread i Goes; Thread i Goes; Thread i Goes; Thread i Goes; Thread i (Launches p); Thread i Goes].

(** A user comes, the process crashes once and is launched again, the service stops. *)
Definition day : list action :=
  [Logon 1] ++ upTo 0 100 ++ [ProcessEnds 100; Thread 0 (Exits 1)] ++ upTo 0 101 ++ [Logon 1; Stop].
Definition evening : list action :=
  [ProcessEnds 101; Thread 0 (Exits 1); Thread 0 Goes; Thread 0 Goes; Thread 0 Goes; GroupDone].

Lemma endOf_reachable (l : list action) : is_Some (runActions l noSessions) -> sreachable (endOf l).
Proof. unfold endOf. intros [s E]. rewrite E. exact (runActions_rtc l noSessions s E). Qed.

Lemma day_runs : is_Some (runActions day noSessions).
Proof. apply not_eq_None_Some. vm_compute. discriminate. Qed.


Lemma sessions_wind_down_witness : (ranks (endOf day) <= 8)%nat.
Proof.
  destruct (sessions_wind_down (endOf day) (endOf_reachable day day_runs)) as (_ & H & _); [vm_compute; reflexivity|].
  vm_compute in H |- *. exact H.
Defined.

Example evening_returns :
  let s := endOf (day ++ evening) in ss_main s = MainReturned /\ elements (ss_running s) = [] /\ elements (ss_alive s) = [].
Proof. vm_compute. auto. Qed.

(** Logged off and on again while its thread is before the launch, a session has
    two threads and two processes, and [procs] knows of one. *)
Example logon_again_two_processes :
  let s := endOf ([Logon 1; Thread 0 Goes; Logoff 1; Logon 1] ++ tail (upTo 0 100) ++ upTo 1 101) in
  elements (ss_running s) = [101; 100] /\ map_to_list (ss_procs s) = [(1, 101)].
Proof. vm_compute. auto. Qed.

(** Where the first thread was about to end, its deferred deletion makes the
    second one end too: the session is logged on and has no user interface. *)
Example logon_again_unserved :
  let s := endOf [Logon 1; Thread 0 Fails; Logoff 1; Logon 1; Thread 0 Goes; Thread 1 Goes; Thread 1 Goes; Thread 1 Goes; Thread 1 Goes] in
  forallb isEnded (ss_threads s) = true /\ elements (ss_alive s) = [].
Proof. vm_compute. auto. Qed.

(** A thread past its look at [stoppingManager], as in the second of sleep before
    it restarts a process, launches one after the loop that kills them: the
    manager waits for a process it has not told to end. *)
Example stop_misses_launch :
  let s := endOf ([Logon 1; Thread 0 Goes; Thread 0 Goes; Thread 0 Goes; Stop] ++ [Thread 0 Goes; Thread 0 (Launches 100); Thread 0 Goes]) in
  elements (ss_running s) = [100] /\ elements (ss_killed s) = [] /\ ss_main s = MainWaiting
  /\ map st_at (ss_threads s) = [Waiting 100].
Proof. vm_compute. auto. Qed.
