(* ===== verification/ManagerExample.v ===== *)
(** * The store and the manager on the file system in memory

    The theorems on the store and on the manager, applied to concrete states. *)

From S2P Require Import Prelude GoStrings GoNum Netip Config Name Paths WSTLS WSTLSNames WSTLSCollect Parser Writer ConfWf ParserTheorems RoundTrip UAPI Driver Effects Store StoreLaws StoreTheorems StoreTLS StoreTunnels StoreMigration StoreExample Updater Manager IPC IPCTheorems ManagerTheorems ManagerMethods.
Local Open Scope Z_scope.

(** Services that answer and leave the files alone: none is installed yet. *)
#[export] Instance memServices : ServiceSystem memory gostring gostring gostring := {|
  mgr_Connect := mret tt;
  os_Executable := mret (str "C:\wireguard.exe");
  mgr_OpenService n := mfail (ErrCode ERROR_SERVICE_DOES_NOT_EXIST);
  mgr_CreateService n e c a := mret n;
  svc_Query s := mret (mkStatus SERVICE_RUNNING 0 0);
  svc_StartType s := mret 2;
  svc_Delete s := mret tt;
  svc_Start s := mret tt;
  svc_ControlStop s := mret tt;
  svc_Close s := mret tt;
  svc_Subscribe s := mret tt;
  svc_Unsubscribe s := mret tt;
  mgr_SubscribeDatabase := mret tt;
  driver_OpenAdapter n := mret n;
  adapter_Configuration a := mfail (ErrText "no such adapter");
  adapter_Close a := mret tt;
  pipe_Dial n := mret n;
  pipe_SetDeadline p := mret tt;
  pipe_Write p s := mret tt;
  pipe_Read p := mret (str "errno=0");
  pipe_Close p := mret tt
|}.

#[export] Instance memServiceLaws : ServiceLaws.
Proof. split; intros; (apply mret_keeps || (intros F O; by apply triple_fail)). Defined.

#[export] Instance plainTexts : ErrorTexts.
Proof. by refine {| errText := fun _ => str "error" |}. Defined.

Definition exRoot : gostring := str "C:\WireGuard WS\Data".
Definition exStore (F : gmap path gofile) : store memory :=
  mkStore [exRoot; str "Configurations"] exRoot None (mkMemory F ∅).
Definition exMgr (F : gmap path gofile) (tracked : gmap gostring TunnelState) : Manager.mgr memory gostring gostring :=
  mkMgr (exStore F) false tracked ∅ ∅ false 0 UpdateStateUnknown [].

Lemma exStore_at F : visible F = F -> at_ exRoot F ∅ (exStore F).
Proof. intros HF. by do 3 (split; [reflexivity|]). Qed.

Definition admin : ManagerService := mkManagerService 1 44.
Definition visitor : ManagerService := mkManagerService 2 0.

(** A tunnel with a certificate of its own. *)
Definition tlsText : gostring :=
  Join [str "[Interface]"; str "PrivateKey = " ++ keyA; str "Address = 10.0.0.2/32"; str "[Peer]"; str "PublicKey = " ++ keyB;
        str "AllowedIPs = 0.0.0.0/0"; str "Endpoint = wss://vpn.example:443/wg"; str "WSMode = wstunnel";
        str "WSTunnelTarget = 127.0.0.1:51820"; str "WSTLSCA = ca.pem"] [LF].
Definition tlsParsed : Config :=
  Eval vm_compute in match @FromWgQuick asciiTables exampleURL tlsText (str "office") with Ok c => c | Err _ => emptyConfig end.
Definition tlsConfig : Config := set_c_WSTLSFiles {[str "ca.pem" := str "CERT"]} tlsParsed.

Lemma tlsConfig_wf : @wfConfig asciiTables exampleURL (set_c_WSTLSFiles ∅ tlsConfig).
Proof. apply (FromWgQuick_wf tlsText (str "office")). vm_compute. reflexivity. Qed.

#[local] Existing Instance asciiTables.
#[local] Existing Instance exampleURL.

(** ** The store *)

Definition sealed (d name : gostring) : gostring := chr (Z.of_nat (length name) + 1) :: (name ++ [chr 0]) ++ d.

Definition confFile (name text : gostring) : gofile := mkFile (name ++ configFileSuffix) (sealed text name).
Definition confKey (name : gostring) : path := memKey (confPath exRoot name).

(** Two tunnels, one with a certificate. *)
Definition exFiles : gmap path gofile :=
  {[confKey (str "office") := confFile (str "office") (ToWgQuick tlsConfig);
    memKey (tlsPath exRoot (str "office") (str "ca.pem"))
      := mkFile (str "ca.pem.dpapi") (sealed (str "CERT") (wsTLSDescription (str "office") (str "ca.pem")));
    confKey (str "home") := confFile (str "home") (ToWgQuick exampleConfig)]}.

Lemma visible_all F : forallb (fun kf => negb (isTmp kf.1)) (map_to_list F) = true -> visible F = F.
Proof.
  intros Hall. apply map_filter_id. intros k f Hk. rewrite forallb_forall in Hall.
  apply negb_true_iff, (Hall (k, f)), list_elem_of_In, elem_of_map_to_list, Hk.
Qed.

(** What a program that succeeds returns. *)
Lemma run_ok {X A} (m : M X A) (s : X) : is_Ok (m s).1 = true -> exists a, m s = (Ok a, (m s).2).
Proof. destruct (m s) as [[a|e] s']; [|done]. intros _. by exists a. Qed.

Lemma exFiles_visible : visible exFiles = exFiles.
Proof. apply visible_all. vm_compute. reflexivity. Qed.

Lemma DeleteName_removes_witness :
  exists u s', DeleteName 1 (str "office") (exStore exFiles) = (Ok u, s')
    /\ exists V', at_ exRoot V' ∅ s' /\ V' !! confKey (str "office") = None
    /\ V' !! confKey (str "home") = exFiles !! confKey (str "home").
Proof.
  destruct (run_ok (DeleteName 1 (str "office")) (exStore exFiles)) as [u E]; [vm_compute; reflexivity|].
  exists u, (DeleteName 1 (str "office") (exStore exFiles)).2. split; [exact E|].
  destruct (DeleteName_removes 1 exRoot exFiles ∅ (str "office") eq_refl _ _ _ (exStore_at _ exFiles_visible) E)
    as (V' & Hat & Hk).
  exists V'. split; [exact Hat|]. split; [apply Hk; left; reflexivity|].
  apply Hk. intros [Ek|[[k Ek]|[k Ek]]]; vm_compute in Ek; discriminate Ek.
Defined.

(** A file of a stored tunnel, looked up by its key. *)
Lemma lookup_forallb {A} (F : gmap path A) (check : path * A -> bool) k f :
  forallb check (map_to_list F) = true -> F !! k = Some f -> check (k, f) = true.
Proof.
  intros Hall Hk. rewrite forallb_forall in Hall. by apply Hall, list_elem_of_In, elem_of_map_to_list.
Qed.

Lemma tlsFiles_only n d : c_WSTLSFiles tlsConfig !! n = Some d -> n = str "ca.pem" /\ d = str "CERT".
Proof. intros Hn. by apply (lookup_singleton_Some (str "ca.pem") n (str "CERT") d) in Hn as [<- <-]. Qed.

Lemma exFiles_tls : tlsExactly exRoot exFiles (str "office") (c_WSTLSFiles tlsConfig).
Proof.
  split.
  - intros n d [-> ->]%tlsFiles_only. eexists. split; [vm_compute; reflexivity|].
    split; vm_compute; reflexivity.
  - intros k f Hf. exists (str "ca.pem"). split; [apply elem_of_dom; exists (str "CERT"); vm_compute; reflexivity|].
    apply (lookup_forallb exFiles (fun kf => implb (bool_decide (removelast kf.1 = memKey (tlsDir exRoot (str "office"))))
      (bool_decide (List.last kf.1 [] = memFold (str "ca.pem.dpapi"))))) in Hf; [|vm_compute; reflexivity].
    cbn [fst] in Hf. rewrite removelast_last, last_last in Hf. rewrite bool_decide_true in Hf by reflexivity.
    by apply bool_decide_eq_true in Hf.
Qed.

Lemma tlsFiles_savable : savable (c_WSTLSFiles tlsConfig).
Proof.
  split.
  - intros n d [-> ->]%tlsFiles_only. by split.
  - intros n n' [d [-> ->]%tlsFiles_only]%elem_of_dom [d' [-> ->]%tlsFiles_only]%elem_of_dom _. done.
Qed.

Lemma PrepareWSTLSFiles_safe_witness :
  exists dir c' s' V1, PrepareWSTLSFiles 1 true tlsConfig (exStore exFiles) = (Ok dir, c', s')
    /\ at_ exRoot V1 ∅ s' /\ agree (runtimeDir exRoot (str "office")) exFiles V1
    /\ Forall2 (usable exRoot (str "office") (c_WSTLSFiles tlsConfig) V1) [str "ca.pem"] (wsTLSReferences c').
Proof.
  destruct (PrepareWSTLSFiles 1 true tlsConfig (exStore exFiles)) as [[[dir|e] c'] s'] eqn:E.
  - pose proof (PrepareWSTLSFiles_safe 1 exRoot exFiles ∅ tlsConfig (c_WSTLSFiles tlsConfig) (exStore exFiles)
      (Ok dir) c' s' eq_refl tlsFiles_savable exFiles_tls (exStore_at _ exFiles_visible) E) as (V1 & Hat & Hag & HF & _).
    exists dir, c', s', V1. exact (conj eq_refl (conj Hat (conj Hag HF))).
  - exfalso. assert (is_Ok (PrepareWSTLSFiles 1 true tlsConfig (exStore exFiles)).1.1 = true) as Hk
      by (vm_compute; reflexivity). by rewrite E in Hk.
Defined.

(** A plain configuration left by an older version. *)
Definition plainFiles : gmap path gofile :=
  {[memKey [exRoot; str "Configurations"; str "lab.conf"]
      := mkFile (str "lab.conf") (Join [str "[Interface]"; str "PrivateKey = " ++ keyA] [LF])]}.

Lemma plainFiles_only k f : plainFiles !! k = Some f ->
  k = memKey [exRoot; str "Configurations"; str "lab.conf"]
  /\ f = mkFile (str "lab.conf") (Join [str "[Interface]"; str "PrivateKey = " ++ keyA] [LF]).
Proof. unfold plainFiles. by intros [<- <-]%lookup_singleton_Some. Qed.

Lemma plain_small : small [] plainFiles.
Proof.
  intros k f name c [-> ->]%plainFiles_only. unfold FromWgQuickWithUnknownEncoding, FromWgQuick.
  destruct (TunnelNameIsValid name); cbn [negb]; [|intros E; vm_compute in E; discriminate E].
  intros E. vm_compute in E. injection E as <-. vm_compute. reflexivity.
Qed.

Lemma plain_spelled : spelled exRoot plainFiles.
Proof.
  intros name f Hv [Hk ->]%plainFiles_only. exfalso. unfold key, confPath, memKey in Hk. cbn [map] in Hk.
  injection Hk as Hk. assert (Hl : memFold (name ++ configFileSuffix) = memFold (str "lab.conf")) by exact Hk.
  unfold memFold in Hl. rewrite map_app in Hl.
  assert (Hr : rev (map lowerByte name ++ map lowerByte configFileSuffix) = rev (map lowerByte (str "lab.conf")))
    by by rewrite Hl. rewrite rev_app_distr in Hr. vm_compute in Hr. discriminate Hr.
Qed.

Lemma migrateUnencryptedConfigs_keeps_witness :
  exists mgs V' s', migrateRetries [] id 4 1 3 (exStore plainFiles) = (Ok mgs, s')
    /\ (length mgs <= 4)%nat /\ kept [] exRoot plainFiles V' /\ at_ exRoot V' ∅ s'.
Proof.
  apply (migrateUnencryptedConfigs_keeps [] 1 exRoot plainFiles ∅ 3 id (exStore plainFiles)).
  - exact plain_spelled.
  - exact plain_small.
  - intros V s Hs. exact Hs.
  - apply exStore_at, visible_all. vm_compute. reflexivity.
Defined.

(** ** The manager *)

Definition sortedStates (t : gmap gostring TunnelState) : list (gostring * TunnelState) := map_to_list t.
Definition sortedFiles (t : gmap gostring gostring) : list (gostring * gostring) := map_to_list t.

Lemma ServeConn_unelevated_witness :
  let st := mkSession (exMgr exFiles ∅)
    [GInt (MethodCode StoredConfigMethodType); GString (str "office"); GInt (MethodCode QuitMethodType); GBool true;
     GInt (MethodCode DeleteMethodType); GString (str "office")] [] false in
  let st' := ServeConn [] 1 sortedStates sortedFiles visitor st in
  length (se_toClient st') = 5%nat
  /\ guarded exRoot exFiles ∅ (false, 0%nat) [] (se_mgr st')
  /\ Forall (fun v => forall c, v = GConfig c -> redacted c) (se_toClient st').
Proof.
  split; [vm_compute; reflexivity|].
  apply (ServeConn_unelevated [] 1 exRoot sortedStates sortedFiles visitor eq_refl exFiles ∅ (false, 0%nat) []).
  - split; [apply exStore_at, exFiles_visible|reflexivity|reflexivity].
  - reflexivity.
Defined.

(** The error for a key that is not one has the text that stands for it, and the
    text of an error is sent to every client. *)
Example broken_key_quoted :
  @FromWgQuick asciiTables exampleURL (Join [str "[Interface]"; str "PrivateKey = " ++ drop 1 keyA] [LF]) (str "lab")
  = Err (ParseError "Invalid key: %v" (drop 1 keyA)).
Proof. vm_compute. reflexivity. Qed.

Lemma noFiles_visible : visible ∅ = ∅.
Proof. apply map_filter_empty. Qed.

Lemma Create_StoredConfig_witness :
  exists t m1 m2, Create 1 sortedFiles admin tlsConfig (exMgr ∅ ∅) = (Ok t, m1)
    /\ StoredConfig [] 1 admin (str "office") m1 = (Ok tlsConfig, m2).
Proof.
  destruct (run_ok (Create 1 sortedFiles admin tlsConfig) (exMgr ∅ ∅)) as [t E]; [vm_compute; reflexivity|].
  destruct (Create_StoredConfig [] 1 exRoot sortedFiles ∅ ∅ admin tlsConfig (exMgr ∅ ∅) (Ok t) _
    eq_refl tlsConfig_wf ltac:(vm_compute; reflexivity) (Permutation_refl _)
    (exStore_at ∅ noFiles_visible) E) as [_ Hs].
  destruct (proj2 (Hs admin) memory_reliable) as [m2 E2].
  exists t, (Create 1 sortedFiles admin tlsConfig (exMgr ∅ ∅)).2, m2. exact (conj E E2).
Defined.

Lemma Quit_spec_witness :
  exists m', Quit 1 admin true (exMgr exFiles ∅) = (Ok false, m') /\ mg_quitSignals m' = 1%nat.
Proof.
  destruct (Quit 1 admin true (exMgr exFiles ∅)) as [r m'] eqn:E.
  assert (Hr : r = Ok false) by (assert ((Quit 1 admin true (exMgr exFiles ∅)).1 = Ok false) as Hx
    by (vm_compute; reflexivity); rewrite E in Hx; exact Hx). subst r.
  exists m'. split; [reflexivity|]. exact (proj1 (proj2 (proj2 (proj2 (Quit_spec 1 admin true _ _ _ E))))).
Defined.

Definition exConfs (t : gostring) : option Config :=
  if bool_decide (t = str "office") then Some (set_c_WSTLSFiles ∅ tlsConfig)
  else if bool_decide (t = str "home") then Some (set_c_Name (str "home") exampleConfig) else None.

Definition exTracked : gmap gostring TunnelState := {[str "home" := TunnelStarted]}.

Lemma exConfs_stored t : t = str "office" \/ t ∈ dom exTracked -> storedAs exRoot exFiles t (exConfs t).
Proof.
  intros [-> | [state Hs]%elem_of_dom].
  - split; [reflexivity|]. split; [exact tlsConfig_wf|]. eexists. split; [vm_compute; reflexivity|].
    split; vm_compute; reflexivity.
  - unfold exTracked in Hs. apply lookup_singleton_Some in Hs as [<- _].
    split; [reflexivity|]. split; [apply (FromWgQuick_wf exampleText (str "home")); vm_compute; reflexivity|].
    eexists. split; [vm_compute; reflexivity|]. split; vm_compute; reflexivity.
Qed.

