(* ===== verification/InstallationExample.v ===== *)
(** * Installing services over a service control manager in memory *)

From S2P Require Import Prelude GoStrings GoNum Netip Config Name Paths WSTLS Parser Writer UAPI Driver Effects Store Updater Manager Installation.
Local Open Scope Z_scope.

(** The services with their states and command lines, the handles open, by the
    name of the service, and the calls done. *)
Record scm : Type := mkScm {
  scm_services : gmap gostring (Z * gostring);
  scm_open : list gostring;
  scm_done : list scmCall
}.

Fixpoint removeFirst (s : gostring) (l : list gostring) : list gostring :=
  match l with
  | [] => []
  | x :: l' => if bool_decide (x = s) then l' else x :: removeFirst s l'
  end.

Lemma removeFirst_perm s l l' : l ≡ₚ s :: l' -> removeFirst s l ≡ₚ l'.
Proof.
  intros Hl. assert (Hin : s ∈ l) by (rewrite Hl; left). apply (Permutation_cons_inv (a := s)). rewrite <- Hl. clear Hl l'.
  induction l as [|x l IH]; [by apply not_elem_of_nil in Hin|]. cbn [removeFirst]. case_bool_decide; [by subst|].
  rewrite <- IH at 2; [|set_solver]. apply Permutation_swap.
Qed.

Definition logged (c : scmCall) (w : scm) : scm := mkScm (scm_services w) (scm_open w) (scm_done w ++ [c]).

Definition noService {A} : M scm A := mfail (ErrCode ERROR_SERVICE_DOES_NOT_EXIST).

#[export] Instance scmServices : ServiceSystem scm gostring unit unit := {|
  mgr_Connect := mret tt;
  os_Executable := mret (str "C:\wireguard.exe");
  mgr_OpenService n w :=
    match scm_services w !! n with
    | Some _ => (Ok n, mkScm (scm_services w) (n :: scm_open w) (scm_done w))
    | None => noService w
    end;
  mgr_CreateService n p c a w :=
    (Ok n, mkScm (<[n := (SERVICE_STOPPED, Join (p :: a) (str " "))]> (scm_services w)) (n :: scm_open w)
             (scm_done w ++ [ScmCreated n p c a]));
  svc_Query s w := (match scm_services w !! s with Some (st, _) => Ok (mkStatus st 0 0) | None => Err (ErrText "gone") end, w);
  svc_StartType s := mret 2;
  svc_Delete s w := (Ok tt, logged (ScmDeleted s) (mkScm (delete s (scm_services w)) (scm_open w) (scm_done w)));
  svc_Start s w := (Ok tt, logged (ScmStarted s) w);
  svc_ControlStop s w := (Ok tt, logged (ScmStopped s) w);
  svc_Close s w := (Ok tt, mkScm (scm_services w) (removeFirst s (scm_open w)) (scm_done w));
  svc_Subscribe s := mret tt;
  svc_Unsubscribe s := mret tt;
  mgr_SubscribeDatabase := mret tt;
  driver_OpenAdapter n := mret tt;
  adapter_Configuration a := mret [];
  adapter_Close a := mret tt;
  pipe_Dial n := mret tt;
  pipe_SetDeadline p := mret tt;
  pipe_Write p s := mret tt;
  pipe_Read p := mret [];
  pipe_Close p := mret tt
|}.

#[export] Instance scmSettings : ServiceSettings scm gostring := {|
  svc_Config s w := (match scm_services w !! s with
                     | Some (_, b) => Ok (mkMgrConfig b managerServiceConfig)
                     | None => Err (ErrText "gone")
                     end, w);
  svc_UpdateConfig s c w := (Ok tt, logged (ScmUpdated s c) w);
  win_DecomposeCommandLine line := Ok (Split " "%char line);
  win_ComposeCommandLine args := Join args (str " ")
|}.

(** A handle is the name it was opened under. *)
Definition scm_opened (w : scm) : list (gostring * gostring) := map (fun n => (n, n)) (scm_open w).

Lemma scm_opened_name s n w : (s, n) ∈ scm_opened w -> n = s.
Proof. intros (x & [= -> ->] & _)%list_elem_of_fmap. done. Qed.

#[export] Instance scmLaws : HandleLaws scm_opened scm_done (str "C:\wireguard.exe").
Proof.
  split; intros.
  - by intros w r w' [= <- <-].
  - by intros w r w' [= <- <-].
  - by injection H as <- <-.
  - intros w r w' E. cbn in E. destruct (scm_services w !! n); injection E as <- <-; by rewrite ?app_nil_r.
  - by intros w r w' [= <- <-].
  - intros n w r w' Hin [= <- <-]. destruct (scm_services w !! s) as [[]|]; by rewrite app_nil_r.
  - intros n w r w' Hin [= <- <-]. destruct (scm_services w !! s) as [[]|]; by rewrite app_nil_r.
  - by intros n w r w' ->%scm_opened_name [= <- <-].
  - by intros n w r w' ->%scm_opened_name [= <- <-].
  - by intros n w r w' ->%scm_opened_name [= <- <-].
  - by intros n w r w' ->%scm_opened_name [= <- <-].
  - injection H as <- <-. split; [|done]. unfold scm_opened in *. cbn [scm_open].
    assert (Hin : (s, n) ∈ map (fun n => (n, n)) (scm_open w)) by (rewrite H0; left).
    apply list_elem_of_fmap in Hin as (x & [= <- ->] & Hin).
    assert (Hp : exists l', scm_open w ≡ₚ s :: l') by by apply elem_of_Permutation.
    destruct Hp as [l' Hp]. rewrite (removeFirst_perm s _ l' Hp). rewrite Hp in H0. cbn [map] in H0. by apply Permutation_cons_inv in H0.
Qed.

Definition sameFold (a b : gostring) : bool := bool_decide (map lowerByte a = map lowerByte b).

Definition scmMgr (services : gmap gostring (Z * gostring)) : Manager.mgr scm gostring unit :=
  mkMgr (mkStore [] [] None (mkScm services [] [])) false ∅ ∅ ∅ false 0 UpdateStateUnknown [].
Definition callsOf {A} (x : A * Manager.mgr scm gostring unit) : list scmCall := scm_done (st_sys (mg_store x.2)).

(** A stopped manager is replaced, a running one left alone, and one that is
    about to start is taken for a success. *)
Example manager_installed :
  let at_ st := InstallManager 3 (scmMgr {[managerServiceName := (st, [])]}) in
  (is_Ok (at_ SERVICE_STOPPED).1, length (callsOf (at_ SERVICE_STOPPED))) = (true, 3%nat)
  /\ ((at_ SERVICE_RUNNING).1, callsOf (at_ SERVICE_RUNNING)) = (Err ErrManagerAlreadyRunning, [])
  /\ ((at_ SERVICE_START_PENDING).1, callsOf (at_ SERVICE_START_PENDING)) = (Ok tt, []).
Proof. vm_compute. done. Qed.

(** The service of a tunnel whose configuration was encrypted. *)
Example path_changed :
  let service args := (SERVICE_RUNNING, Join args (str " ")) in
  let run args := callsOf (changeTunnelServiceConfigFilePath sameFold (str "home") (str "C:\home.conf") (str "C:\home.conf.dpapi")
    (scmMgr {[str "WireGuardWSTunnel$home" := service args]})) in
  run [str "c:\WIREGUARD.exe"; str "/tunnelservice"; str "c:\HOME.conf"]
    = [ScmUpdated (str "WireGuardWSTunnel$home") (mkMgrConfig (Join [str "c:\WIREGUARD.exe"; str "/tunnelservice"; str "C:\home.conf.dpapi"] (str " ")) managerServiceConfig)]
  /\ run [str "C:\other.exe"; str "/tunnelservice"; str "C:\home.conf"] = [].
Proof. vm_compute. done. Qed.

(** Removing one tunnel leaves the other alone. *)
Example one_removed :
  let run := UninstallTunnel (str "home")
    (scmMgr {[str "WireGuardWSTunnel$home" := (SERVICE_RUNNING, []); str "WireGuardWSTunnel$work" := (SERVICE_RUNNING, [])]}) in
  (is_Ok run.1, callsOf run) = (true, [ScmStopped (str "WireGuardWSTunnel$home"); ScmDeleted (str "WireGuardWSTunnel$home")]).
Proof. vm_compute. done. Qed.

Lemma install_handles_witness :
  exists m', InstallTunnel 3 (str "C:\home.conf") (scmMgr ∅) = (Ok tt, m')
    /\ exists l', scm_opened (st_sys (mg_store m')) ≡ₚ l'
       /\ tunnelInstalled scm_opened (str "C:\wireguard.exe") (str "C:\home.conf") [] [] [] (Ok tt) l' (scm_done (st_sys (mg_store m'))) (mg_started m').
Proof.
  destruct (InstallTunnel 3 (str "C:\home.conf") (scmMgr ∅)) as [r m'] eqn:E.
  assert (Hr : r = Ok tt) by (apply (f_equal fst) in E; vm_compute in E; by symmetry).
  subst r. exists m'. split; [done|].
  exact (proj1 (proj2 (install_handles scm_opened scm_done (str "C:\wireguard.exe") sameFold 3 (scmMgr ∅))) (str "C:\home.conf") (Ok tt) m' E).
Defined.
