(* ===== verification/Downloader.v ===== *)
(** * An update from its offer to msiexec

    What is run was vetted, and every attempt reports how it ended. *)

From S2P Require Import Prelude GoStrings GoNum Effects Updater UpdaterTheorems.
Import Updater.
Local Open Scope Z_scope.

(** Neither a file's contents nor what msiexec was run on change. *)
Definition quiet {W} (fileContent : W -> handle -> gostring) (msiRuns : W -> list gostring) (w w' : W) : Prop :=
  msiRuns w' = msiRuns w /\ forall h, fileContent w' h = fileContent w h.

(** The temporary file is only written through its handle, and msiexec installs
    what it holds. *)
Class UpdateLaws (W : Type) `{UpdateSystem W} := {
  fileContent : W -> handle -> gostring;
  msiRuns : W -> list gostring;
  rangeOrder_perm : forall m, Permutation (rangeOrder m) (map_to_list m);
  quiet_NewSession : forall a w r w', NewSession a w = (r, w') -> quiet fileContent msiRuns w w';
  quiet_Connect : forall s h p b w r w', session_Connect s h p b w = (r, w') -> quiet fileContent msiRuns w w';
  quiet_session_Close : forall s w, quiet fileContent msiRuns w (session_Close s w);
  quiet_Get : forall c p b w r w', connection_Get c p b w = (r, w') -> quiet fileContent msiRuns w w';
  quiet_connection_Close : forall c w, quiet fileContent msiRuns w (connection_Close c w);
  quiet_Reads : forall x w r w', response_Reads x w = (r, w') -> quiet fileContent msiRuns w w';
  quiet_Length : forall x w r w', response_Length x w = (r, w') -> quiet fileContent msiRuns w w';
  quiet_response_Close : forall x w, quiet fileContent msiRuns w (response_Close x w);
  quiet_impersonate : forall w r w', impersonateSystem w = (r, w') -> quiet fileContent msiRuns w w';
  temp_runs : forall w r w', msiTempFile w = (r, w') -> msiRuns w' = msiRuns w;
  temp_empty : forall w h w', msiTempFile w = (Ok h, w') -> fileContent w' h = [];
  write_runs : forall h c w r w', file_Write h c w = (r, w') -> msiRuns w' = msiRuns w;
  write_content : forall h c w w', file_Write h c w = (Ok tt, w') -> fileContent w' h = fileContent w h ++ c;
  delete_runs : forall h w, msiRuns (file_Delete h w) = msiRuns w;
  run_runs : forall h t w r w', runMsi h t w = (r, w') ->
    msiRuns w' = msiRuns w \/ msiRuns w' = msiRuns w ++ [fileContent w h]
}.

Section Vetting.
Context {W : Type} `{UpdateLaws W}.

Abbreviation quietW := (quiet fileContent msiRuns).

Lemma quiet_refl w : quietW w w.
Proof. done. Qed.

Lemma quiet_trans w1 w2 w3 : quietW w1 w2 -> quietW w2 w3 -> quietW w1 w3.
Proof. intros [H1 H2] [H3 H4]. split; [by rewrite H3|]. intros h. by rewrite H4. Qed.

(** [m] is quiet, and what it returns has [Q]. *)
Definition gives {A} (m : M W A) (Q : A -> Prop) : Prop :=
  forall w r w', m w = (r, w') -> quietW w w' /\ match r with Ok a => Q a | Err _ => True end.

Lemma gives_bind {A B} (m : M W A) (k : A -> M W B) R Q :
  gives m R -> (forall a, R a -> gives (k a) Q) -> gives (mthen m k) Q.
Proof.
  intros Hm Hk w r w'. unfold mthen. destruct (m w) as [[a|e] w1] eqn:E; apply Hm in E as [Hq HR].
  - intros Hr. apply (Hk a HR) in Hr as [Hq2 HQ]. split; [by eapply quiet_trans | done].
  - by intros [= <- <-].
Qed.

Lemma gives_quiet {A} (m : M W A) : (forall w r w', m w = (r, w') -> quietW w w') -> gives m (fun _ => True).
Proof. intros Hm w r w' E. split; [by eapply Hm|]. by destruct r. Qed.

Lemma gives_pure {A} (r : result A) (Q : A -> Prop) : (forall a, r = Ok a -> Q a) -> gives (mpure r) Q.
Proof. intros HQ w r' w' [= <- <-]. split; [done|]. destruct r; auto. Qed.

Lemma gives_defer {A} (f : result A -> W -> W) (m : M W A) Q :
  (forall r w, quietW w (f r w)) -> gives m Q -> gives (mdefer f m) Q.
Proof.
  intros Hf Hm w r w'. unfold mdefer. destruct (m w) as [r1 w1] eqn:E. intros [= <- <-].
  apply Hm in E as [Hq HQ]. split; [|done]. by eapply quiet_trans.
Qed.

Lemma closeUnless_quiet {A} keep close (r : result A) w : (forall w, quietW w (close w)) -> quietW w (closeUnless keep close r w).
Proof. intros Hc. unfold closeUnless. by case_match. Qed.

(** ** The offer *)

(** A number in decimal, of sixteen bits. *)
Definition numeral (p : gostring) (n : Z) : Prop :=
  p <> [] /\ Forall (fun c => isDigit c = true) p
  /\ fold_left (fun v c => v * 10 + (code c - code "0")) p 0 = n /\ n < 65536.

(** The running version, 1.3.1, and the architecture in the name of an
    installer. *)
Definition ourVersion : list Z := [1; 3; 1].
Definition archName (goarch arch : gostring) : Prop :=
  (goarch = str "386" /\ arch = str "x86") \/ (arch = goarch /\ goarch ∈ map str ["arm"; "arm64"; "amd64"]).

(** The numbers of a version agree with [ours], where missing ones are zeros, up
    to one that is greater. *)
Definition newerVersion (version : gostring) (ours : list Z) : Prop :=
  exists k part n, Split "." version !! k = Some part /\ numeral part n /\ default 0 (ours !! k) < n
    /\ forall i, (i < k)%nat -> exists q, Split "." version !! i = Some q /\ numeral q (default 0 (ours !! i)).

(** An installer of this architecture and of a version newer than this one,
    which stands with its hash on a line of a text that a signature of the
    release key covers. *)
Definition vetted (name hash : gostring) : Prop :=
  exists body signature hex arch version,
    ed25519_Verify (drop 10 releaseKey) body signature = true
    /\ hex ++ str "  " ++ name ∈ Split LF body /\ hexDecode hex = Some hash /\ length hash = 32%nat
    /\ name = str "wireguard-" ++ arch ++ str "-" ++ version ++ str ".msi"
    /\ archName GOARCH arch /\ newerVersion version ourVersion.

Lemma parseDigits_numeral fn num maxv acc p n :
  parseDigits fn num 10 maxv acc p = Ok n ->
  Forall (fun c => isDigit c = true) p /\ fold_left (fun v c => v * 10 + (code c - code "0")) p acc = n
  /\ (acc <= maxv -> n <= maxv).
Proof.
  revert acc. induction p as [|c p IH]; intros acc; cbn [parseDigits fold_left]; [by intros [= <-]|].
  destruct (digitVal 10 c) as [d|] eqn:Ed; [|done]. destruct (Z.ltb_spec maxv (acc * 10 + d)); [done|].
  intros (Hd1 & Hd2 & Hd3)%IH.
  assert (Hd : isDigit c = true /\ d = code c - code "0").
  { unfold digitVal in Ed. destruct (isDigit c) eqn:Ei; cbn in Ed.
    - split; [done|]. repeat case_match; by simplify_eq.
    - exfalso. unfold in_range in Ed. repeat case_match; simplify_eq; lia. }
  destruct Hd as [Hd ->]. split; [by constructor|]. split; [done|]. intros _. by apply Hd3.
Qed.

Lemma versionPart_numeral parts i x q : parts !! i = Some q -> versionPart parts i = Ok x -> numeral q x.
Proof.
  intros Hq. unfold versionPart. rewrite Hq. destruct q as [|c q]; [done|]. cbn [length Nat.eqb].
  destruct (ParseUint (c :: q) 16) as [n|e] eqn:E; [|done]. cbn. intros [= <-].
  apply parseDigits_numeral in E as (Hd1 & Hd2 & Hd3). split; [done|]. split; [done|]. split; [done|].
  specialize (Hd3 ltac:(lia)). lia.
Qed.

Lemma versionLoop_true parts ours n i :
  version16 ours -> versionLoop parts (map itoa ours) n i = Ok true ->
  exists k x, (i <= k)%nat /\ versionPart parts k = Ok x /\ default 0 (ours !! k) < x
    /\ forall j, (i <= j < k)%nat -> versionPart parts j = Ok (default 0 (ours !! j)).
Proof.
  intros Ho. revert i. induction n as [|n IH]; intros i; cbn [versionLoop]; [done|].
  intros (c & Hc & Hl)%rbind_Ok. rewrite versionPart_print in Hl by done. cbn [rbind] in Hl.
  destruct (Z.eqb_spec c (default 0 (ours !! i))) as [->|Hne].
  - apply IH in Hl as (k & x & Hk & Hx & Hlt & Hall). exists k, x. split; [lia|]. split; [done|]. split; [done|].
    intros j Hj. destruct (decide (j = i)) as [->|]; [done|]. apply Hall. lia.
  - injection Hl as Hl. exists i, c. split; [done|]. split; [done|]. split; [lia|]. intros j Hj. lia.
Qed.

Lemma newer_version version : versionNewerThanUs version = Ok true -> newerVersion version ourVersion.
Proof.
  assert (Ho : version16 ourVersion) by (split; [done|]; repeat constructor; lia).
  unfold versionNewerThanUs, versionNewerThan. destruct (_ || _); [done|].
  change (Split "." Number) with (map itoa ourVersion). intros (k & x & _ & Hx & Hlt & Hall)%versionLoop_true; [|done].
  assert (Hpos : forall i, 0 <= default 0 (ourVersion !! i)) by (intros [|[|[|]]]; vm_compute; done).
  destruct (Split "." version !! k) as [part|] eqn:Ek.
  2:{ unfold versionPart in Hx. rewrite Ek in Hx. injection Hx as <-. specialize (Hpos k). lia. }
  exists k, part, x. split; [done|]. split; [by eapply versionPart_numeral|]. split; [done|]. intros i Hi.
  destruct (Split "." version !! i) as [q|] eqn:Ei.
  - exists q. split; [done|]. eapply versionPart_numeral; [exact Ei|]. apply Hall. lia.
  - apply lookup_ge_None in Ei. apply lookup_lt_Some in Ek. lia.
Qed.

Lemma Arch_archName arch : Arch GOARCH = Ok arch -> archName GOARCH arch.
Proof.
  unfold Arch, archName. repeat case_bool_decide; cbn [orb]; try done; intros [= <-]; try (by left); right; set_solver.
Qed.

(** The prefix ends in a byte the suffix does not have: they cannot overlap. *)
Lemma trim_version name pre c suffix :
  c ∉ suffix -> HasPrefix name (pre ++ [c]) = true -> HasSuffix name suffix = true ->
  name = (pre ++ [c]) ++ TrimSuffix (TrimPrefix name (pre ++ [c])) suffix ++ suffix.
Proof.
  intros Hc [t ->]%prefixb_spec [v Hv]%HasSuffix_spec. rewrite TrimPrefix_app. f_equal.
  apply app_eq_inv in Hv as [(k & Hv & Ht) | (k & Hv & ->)]; [|by rewrite TrimSuffix_app].
  destruct k as [|x k _] using rev_ind.
  - rewrite app_nil_l in Ht. subst. pose proof (TrimSuffix_app [] t) as E. cbn [app] in E. by rewrite E.
  - rewrite app_assoc in Hv. apply app_inj_tail in Hv as [_ <-]. subst suffix. exfalso. apply Hc. set_solver.
Qed.

Lemma findCandidateIn_spec prefix suffix l u :
  findCandidateIn prefix suffix l = Ok (Some u) ->
  (up_name u, up_hash u) ∈ l /\ HasPrefix (up_name u) prefix = true /\ HasSuffix (up_name u) suffix = true
  /\ versionNewerThanUs (TrimSuffix (TrimPrefix (up_name u) prefix) suffix) = Ok true.
Proof.
  induction l as [|[name hash] l IH]; cbn [findCandidateIn]; [done|].
  assert (Hrest : findCandidateIn prefix suffix l = Ok (Some u) -> _) by exact IH.
  destruct (HasPrefix name prefix) eqn:Hp, (HasSuffix name suffix) eqn:Hs; cbn [andb];
    try (intros (? & ?)%Hrest; split; [by right | done]).
  destruct (128 <? _)%nat; [done|]. intros (b & Hn & Hb)%rbind_Ok. destruct b.
  - injection Hb as <-. split_and!; [by left | done..].
  - apply Hrest in Hb as [? ?]. split; [by right | done].
Qed.

Lemma findCandidate_vetted input fl arch u :
  readFileList ed25519_Verify input = Ok fl -> Arch GOARCH = Ok arch ->
  findCandidate arch (rangeOrder fl) = Ok (Some u) -> vetted (up_name u) (up_hash u).
Proof.
  intros Hr Ha (Hin & Hp & Hs & Hv)%findCandidateIn_spec.
  rewrite rangeOrder_perm in Hin. apply elem_of_map_to_list in Hin.
  apply readFileList_signed in Hr as (comment & line & body & signature & _ & _ & _ & Hver & _ & Hfrom).
  destruct (Hfrom _ _ Hin) as (Hlen & line' & hex & Hl & -> & Hhex).
  exists body, signature, hex, arch, (TrimSuffix (TrimPrefix (up_name u) (msiArchPrefix arch)) msiSuffix).
  do 4 (split; [done|]). split; [|split; [by apply Arch_archName|by apply newer_version]].
  assert (E : msiArchPrefix arch = (str "wireguard-" ++ arch) ++ ["-"%char]) by (unfold msiArchPrefix; by rewrite <- app_assoc).
  rewrite E in *. rewrite (trim_version (up_name u) (str "wireguard-" ++ arch) "-"%char msiSuffix) at 1;
    [|by apply has_byte_false|done..]. by rewrite <- !app_assoc.
Qed.

(** What checkForUpdate returns has an update only if it is vetted. *)
Definition vettedFound (found : option UpdateFound * handle * handle) : Prop :=
  forall u, fst (fst found) = Some u -> vetted (up_name u) (up_hash u).

Lemma readAllLimited_quiet response n : gives (readAllLimited response n) (fun _ => True).
Proof.
  apply gives_quiet. intros w r w'. unfold readAllLimited.
  destruct (response_Reads response w) as [[cs e] w1] eqn:E. apply quiet_Reads in E.
  destruct (limitReads n cs e) as [? [?|]]; by intros [= <- <-].
Qed.

Lemma checkForUpdate_vetted keep : gives (checkForUpdate keep) vettedFound.
Proof.
  intros w r w'. unfold checkForUpdate. destruct (negb _); [by intros [= <- <-]|]. revert w r w'.
  eapply gives_bind; [apply gives_pure; intros ? E; exact E|]. intros agent _.
  eapply gives_bind; [apply gives_quiet; intros ???; apply quiet_NewSession|]. intros session _.
  apply gives_defer; [intros; apply closeUnless_quiet, quiet_session_Close|].
  eapply gives_bind; [apply gives_quiet; intros ???; apply quiet_Connect|]. intros connection _.
  apply gives_defer; [intros; apply closeUnless_quiet, quiet_connection_Close|].
  eapply gives_bind; [apply gives_quiet; intros ???; apply quiet_Get|]. intros response _.
  apply gives_defer; [intros; apply quiet_response_Close|].
  eapply gives_bind; [apply readAllLimited_quiet|]. intros text _.
  eapply gives_bind; [apply gives_pure; intros ? E; exact E|]. intros fl Hfl.
  eapply gives_bind; [apply gives_pure; intros ? E; exact E|]. intros arch Harch.
  eapply gives_bind; [apply gives_pure; intros ? E; exact E|]. intros found Hfound.
  apply (gives_pure (Ok (found, session, connection))). intros ? [= <-] u Hu. cbn in Hu. subst found.
  eapply (findCandidate_vetted _ _ _ _ Hfl Harch Hfound).
Qed.

(** ** The download *)

(** What msiexec was run on: nothing more, or one more file, the contents of
    which hash to those of a vetted entry. *)
Definition allowed (w w' : W) : Prop :=
  msiRuns w' = msiRuns w
  \/ exists name content, msiRuns w' = msiRuns w ++ [content] /\ vetted name (blake2b_Sum256 content).

Lemma allowed_from w0 w w' : msiRuns w = msiRuns w0 -> allowed w w' -> allowed w0 w'.
Proof. unfold allowed. by intros ->. Qed.

Lemma allowed_to w w' w'' : allowed w w' -> msiRuns w'' = msiRuns w' -> allowed w w''.
Proof. unfold allowed. by intros ? ->. Qed.

Lemma attempt_allowed {A} (m : M W A) k p :
  (forall w r w', m w = (r, w') -> msiRuns w' = msiRuns w) ->
  (forall a w, m (pr_world p) = (Ok a, w) -> allowed w (pr_world (k a (withWorld p w)))) ->
  allowed (pr_world p) (pr_world (attempt m k p)).
Proof.
  intros Hm Hk. unfold attempt. destruct (m (pr_world p)) as [[a|e] w] eqn:E.
  - eapply allowed_from; [by eapply Hm | by apply Hk].
  - left. by eapply Hm.
Qed.

Ltac attempt_allowed := match goal with |- allowed _ (pr_world (attempt ?m ?k ?q)) => apply (attempt_allowed m k q) end.

(** The file holds what was hashed, all through the copy. *)
Lemma copyLoop_spec file chunks err d d' e :
  copyLoop file chunks err d = (d', e) ->
  msiRuns (pr_world (dl_process d')) = msiRuns (pr_world (dl_process d))
  /\ (e = None -> fileContent (pr_world (dl_process d)) file = dl_hashed d ->
      fileContent (pr_world (dl_process d')) file = dl_hashed d').
Proof.
  revert d. induction chunks as [|c chunks IH]; intros d; cbn [copyLoop]; [by intros [= <- <-]|].
  destruct (file_Write file c _) as [[[]|e1] w] eqn:E; pose proof (write_runs _ _ _ _ _ E) as Hr; cbn in Hr.
  - apply write_content in E. cbn in E. intros (H1 & H2)%IH. cbn in H1, H2. split; [by rewrite H1|].
    intros He Hc. apply H2; [done|]. by rewrite E, Hc.
  - intros [= <- <-]. done.
Qed.

Lemma installUpdate_runs file t p :
  msiRuns (pr_world (installUpdate file t p)) = msiRuns (pr_world p)
  \/ msiRuns (pr_world (installUpdate file t p)) = msiRuns (pr_world p) ++ [fileContent (pr_world p) file].
Proof.
  unfold installUpdate, attempt. cbn [pr_world send].
  destruct (runMsi file t (pr_world p)) as [[?|?] w] eqn:E; apply run_runs in E; exact E.
Qed.

Lemma copyAndVerify_allowed u file response t dp p :
  vetted (up_name u) (up_hash u) -> fileContent (pr_world p) file = [] ->
  allowed (pr_world p) (pr_world (copyAndVerify u file response t dp p)).
Proof.
  intros Hv Hf. unfold copyAndVerify.
  destruct (response_Reads response (pr_world p)) as [[cs err] w] eqn:E. apply quiet_Reads in E as [Hr Hc].
  destruct (limitReads _ cs err) as [cs' err']. destruct (copyLoop _ _ _ _) as [d e] eqn:Ec.
  apply copyLoop_spec in Ec as [H1 H2]. cbn in H1, H2. eapply allowed_from; [exact Hr|].
  destruct e as [e|]; [by left|]. rewrite Hc in H2. specialize (H2 eq_refl Hf).
  case_bool_decide as Eh; [|by left].
  destruct (installUpdate_runs file t (dl_process d)) as [Hi | Hi]; [left; by rewrite Hi|].
  right. exists (up_name u), (dl_hashed d). by rewrite Hi, H1, H2, Eh.
Qed.

Lemma downloadUpdate_allowed u connection file t p :
  vetted (up_name u) (up_hash u) -> fileContent (pr_world p) file = [] ->
  allowed (pr_world p) (pr_world (downloadUpdate u connection file t p)).
Proof.
  intros Hv Hf. unfold downloadUpdate. attempt_allowed.
  { intros w r w' E. by eapply quiet_Get. }
  cbn [pr_world send]. intros response w [_ Hc]%quiet_Get. unfold deferred, onWorld. cbn [pr_world withWorld].
  eapply allowed_to; [|apply quiet_response_Close].
  destruct (response_Length response w) as [[l|e] w1] eqn:El; apply quiet_Length in El as [Hr1 Hc1];
    (eapply allowed_from; [exact Hr1|]); destruct blake2b_New256; try (by left);
    (refine (copyAndVerify_allowed _ _ _ _ _ _ Hv _)); cbn; by rewrite Hc1, Hc.
Qed.

Lemma doIt_allowed t p : allowed (pr_world p) (pr_world (doIt t p)).
Proof.
  unfold doIt, doItBody. cbn [storeFlag pr_world]. attempt_allowed.
  { intros w r w' E. by apply checkForUpdate_vetted in E as [[? _] _]. }
  cbn [pr_world send]. intros [[update session] connection] w E. apply checkForUpdate_vetted in E as [_ Hv].
  unfold deferred at 1, onWorld. cbn [pr_world withWorld].
  eapply allowed_to; [|by rewrite (proj1 (quiet_connection_Close _ _)); apply quiet_session_Close].
  destruct update as [u|]; [|by left]. specialize (Hv u eq_refl).
  attempt_allowed; [exact temp_runs|]. intros file w1 E1%temp_empty.
  unfold deferred, onWorld. cbn [pr_world withWorld]. eapply allowed_to; [|apply delete_runs].
  by apply (downloadUpdate_allowed u connection file t (send _ (withWorld _ w1))).
Qed.

(** C5: An update runs msiexec at most once, and on a file whose BLAKE2b-256 hash
    stands in hexadecimal on a line of a text that the release key has signed,
    beside the name wireguard-ARCH-VERSION.msi of an installer of this
    architecture, of a version whose numbers agree with those of 1.3.1 up to one
    that is greater: no error, short read or failed write on the way leads to
    anything else. *)
Theorem update_vetted userToken p :
  allowed (pr_world p) (pr_world (DownloadVerifyAndExecute userToken p)).
Proof.
  unfold DownloadVerifyAndExecute. destruct (negb _); [by left|]. destruct (userToken =? 0).
  - attempt_allowed; [intros w r w' E; by eapply quiet_impersonate|].
    intros _ w _. exact (doIt_allowed userToken (withWorld _ w)).
  - exact (doIt_allowed userToken (storeFlag _ _)).
Qed.
End Vetting.

(** ** The progress messages *)

Section Progress.
Context {W : Type} `{UpdateSystem W}.

(** A message that says the update ended, and one that says it goes on. *)
Definition terminal (dp : DownloadProgress) : bool :=
  match dp_Error dp with Some _ => true | None => dp_Complete dp end.

Definition ongoing (p : @process W) : Prop := Forall (fun dp => terminal dp = false) (pr_progress p).

Definition ended (p : @process W) : Prop :=
  exists before last, pr_progress p = before ++ [last] /\ terminal last = true
                      /\ Forall (fun dp => terminal dp = false) before.

Lemma send_ongoing dp p : terminal dp = false -> ongoing p -> ongoing (send dp p).
Proof. intros Hd Hp. apply Forall_app. by repeat constructor. Qed.

Lemma send_ended dp p : terminal dp = true -> ongoing p -> ended (send dp p).
Proof. intros Hd Hp. by exists (pr_progress p), dp. Qed.

Lemma attempt_ended {A} (m : M W A) k p :
  ongoing p -> (forall a w, ongoing (withWorld p w) -> ended (k a (withWorld p w))) -> ended (attempt m k p).
Proof.
  intros Hp Hk. unfold attempt. destruct (m (pr_world p)) as [[a|e] w]; [by apply Hk | by apply send_ended].
Qed.

Lemma copyLoop_ongoing file chunks err d d' e :
  copyLoop file chunks err d = (d', e) -> terminal (dl_dp d) = false -> ongoing (dl_process d) -> ongoing (dl_process d').
Proof.
  revert d. induction chunks as [|c chunks IH]; intros d; cbn [copyLoop]; [by intros [= <- <-]|].
  intros Hl Ht Hp. assert (Hs : ongoing (dl_process (watcherWrite d c))) by by apply send_ongoing.
  destruct (file_Write file c _) as [[[]|e1] w].
  - eapply IH; [exact Hl | exact Ht | exact Hs].
  - by injection Hl as <- <-.
Qed.

Lemma copyAndVerify_ended u file response t dp p :
  terminal dp = false -> ongoing p -> ended (copyAndVerify u file response t dp p).
Proof.
  intros Hd Hp. unfold copyAndVerify. destruct (response_Reads response (pr_world p)) as [[cs err] w].
  destruct (limitReads _ cs err) as [cs' err']. destruct (copyLoop _ _ _ _) as [d e] eqn:Ec.
  apply copyLoop_ongoing in Ec; [|done..]. destruct e as [e|]; [by apply send_ended|].
  case_bool_decide; [|by apply send_ended]. unfold installUpdate. apply attempt_ended; [by apply send_ongoing|].
  intros _ w1 Hw. by apply send_ended.
Qed.

Lemma downloadUpdate_ended u connection file t p : ongoing p -> ended (downloadUpdate u connection file t p).
Proof.
  intros Hp. unfold downloadUpdate. apply attempt_ended; [by apply send_ongoing|].
  intros response w Hw. unfold deferred. change (ended (onWorld ?c ?q)) with (ended q).
  destruct (response_Length response _) as [[l|e] w1]; (destruct blake2b_New256;
    [apply copyAndVerify_ended | apply send_ended]); try done; by apply send_ongoing.
Qed.

Lemma doIt_ended t p : ongoing p -> ended (doIt t p).
Proof.
  intros Hp. change (ended (doItBody t p)). unfold doItBody. apply attempt_ended; [by apply send_ongoing|].
  intros [[update session] connection] w Hw. unfold deferred at 1. change (ended (onWorld ?c ?q)) with (ended q).
  destruct update as [u|]; [|by apply send_ended]. apply attempt_ended; [by apply send_ongoing|].
  intros file w1 Hw1. unfold deferred. change (ended (onWorld ?c ?q)) with (ended q).
  by apply downloadUpdate_ended, send_ongoing.
Qed.

(** C40: Every call reports how it ended: the messages of its channel are about
    work going on, up to the last one, which carries an error or says that the
    update is complete; whoever waits for the end of the update gets it. *)
Theorem update_reports userToken p : ended (DownloadVerifyAndExecute userToken p).
Proof.
  unfold DownloadVerifyAndExecute. set (p0 := send _ _).
  assert (Hp : ongoing p0) by by repeat constructor. destruct (negb _); [by apply send_ended|].
  destruct (userToken =? 0); [|by apply doIt_ended].
  apply attempt_ended; [exact Hp|]. intros _ w Hw. by apply doIt_ended.
Qed.

(** A refused call. *)
Definition refused (w : W) : @process W :=
  mkProcess w [activityProgress Initializing; errorProgress (ErrText "An update is already in progress")] 1.

Lemma update_refused t p :
  updateInProgress p = 1 -> DownloadVerifyAndExecute t p = refused (pr_world p).
Proof. unfold DownloadVerifyAndExecute, send. cbn. by intros ->. Qed.

(** The flag that admits one update at a time is taken back when the update
    ends, except when the thread could not impersonate the system: then it stays
    set, and every later call of the process, with whatever token, is refused
    without an update running. *)
Theorem update_flag userToken p :
  updateInProgress p = 0 ->
  (updateInProgress (DownloadVerifyAndExecute userToken p) = 0
   <-> (userToken <> 0 \/ is_Ok (impersonateSystem (pr_world p)).1 = true))
  /\ (updateInProgress (DownloadVerifyAndExecute userToken p) <> 0 ->
      forall tokens t,
      let stuck := foldl (fun p t => DownloadVerifyAndExecute t p) (DownloadVerifyAndExecute userToken p) tokens in
      DownloadVerifyAndExecute t stuck = refused (pr_world (DownloadVerifyAndExecute userToken p))).
Proof.
  intros Hf. assert (Hflag : updateInProgress (DownloadVerifyAndExecute userToken p) = 0
      /\ (userToken <> 0 \/ is_Ok (impersonateSystem (pr_world p)).1 = true)
    \/ updateInProgress (DownloadVerifyAndExecute userToken p) = 1
      /\ userToken = 0 /\ is_Ok (impersonateSystem (pr_world p)).1 = false).
  { unfold DownloadVerifyAndExecute, send. cbn [updateInProgress pr_world pr_progress]. rewrite Hf. cbn [Z.eqb negb].
    destruct (Z.eqb_spec userToken 0) as [->|]; [|by left; auto]. unfold attempt. cbn [pr_world storeFlag].
    destruct (impersonateSystem (pr_world p)) as [[u|e] w]; [left | right]; auto. }
  revert Hflag. generalize (DownloadVerifyAndExecute userToken p) as q. intros q Hflag. split.
  { destruct Hflag as [[-> ?] | (-> & -> & ->)]; split; try done. by intros [|]. }
  intros Hq tokens t. assert (H1 : updateInProgress q = 1) by (destruct Hflag as [[? _] | [? _]]; done).
  cbv zeta. assert (Hs : forall q', updateInProgress q' = 1 ->
    let s := foldl (fun p t => DownloadVerifyAndExecute t p) q' tokens in updateInProgress s = 1 /\ pr_world s = pr_world q').
  { induction tokens as [|t' tokens IH]; intros q' Hq'; [done|]. cbn [foldl]. rewrite (update_refused t' q' Hq').
    exact (IH (refused (pr_world q')) eq_refl). }
  destruct (Hs q H1) as [Hs1 Hs2]. by rewrite (update_refused _ _ Hs1), Hs2.
Qed.
End Progress.

(** ** A system that satisfies the laws *)

(** One temporary file, a server that has the signed list and one installer, and
    a toy hash. *)
Record simSystem : Type := mkSimSystem { sim_file : gostring; sim_runs : list gostring; sim_winlogon : bool }.

Definition simInstaller : gostring := replicate 32 "a"%char.
Definition simHash (s : gostring) : gostring := take 32 (s ++ replicate 32 "0"%char).
Definition simList : gostring := signedText (str "sig") exampleSignature (filesText exampleFiles).

#[export] Instance simUpdateSystem : UpdateSystem simSystem := {|
  GOARCH := str "amd64";
  ed25519_Verify := exampleVerify;
  blake2b_New256 := Ok tt;
  blake2b_Sum256 := simHash;
  rangeOrder := map_to_list;
  IsRunningOfficialVersion _ := true;
  OsName := str "Windows";
  NewSession _ w := (Ok 1, w);
  session_Connect _ _ _ _ w := (Ok 2, w);
  session_Close _ w := w;
  connection_Get _ path _ w := (Ok (if bool_decide (path = latestVersionPath) then 3 else 4), w);
  connection_Close _ w := w;
  response_Reads r w := (if r =? 3 then [simList] else [take 20 simInstaller; drop 20 simInstaller], None, w);
  response_Length _ w := (Ok 32, w);
  response_Close _ w := w;
  msiTempFile w := (Ok 5, mkSimSystem [] (sim_runs w) (sim_winlogon w));
  file_Name _ := str "C:\Windows\Temp\msi";
  file_Write _ c w := (Ok tt, mkSimSystem (sim_file w ++ c) (sim_runs w) (sim_winlogon w));
  file_Delete _ w := mkSimSystem [] (sim_runs w) (sim_winlogon w);
  runMsi _ _ w := (Ok tt, mkSimSystem (sim_file w) (sim_runs w ++ [sim_file w]) (sim_winlogon w));
  impersonateSystem w := (if sim_winlogon w then Ok tt else Err (ErrText "unable to find winlogon.exe process"), w)
|}.

#[export, refine] Instance simUpdateLaws : UpdateLaws simSystem := {|
  fileContent w _ := sim_file w;
  msiRuns := sim_runs
|}.
Proof. all: cbn; intros; simplify_eq; try done. by right. Defined.

Lemma update_vetted_witness : exists name, vetted name (simHash simInstaller).
Proof.
  set (p := mkProcess (mkSimSystem [] [] true) [] 0).
  assert (Hrun : sim_runs (pr_world (DownloadVerifyAndExecute 1 p)) = [simInstaller]) by (vm_compute; reflexivity).
  destruct (update_vetted 1 p) as [H | (name & content & H & Hv)];
    apply (eq_trans (eq_sym Hrun)) in H; [discriminate H|].
  injection H as H. exists name. rewrite <- H in Hv. exact Hv.
Defined.

Lemma update_flag_witness :
  let p := DownloadVerifyAndExecute 0 (mkProcess (mkSimSystem [] [] false) [] 0) in
  DownloadVerifyAndExecute 7 p = refused (pr_world p).
Proof.
  destruct (update_flag 0 (mkProcess (mkSimSystem [] [] false) [] 0) eq_refl) as [_ H].
  exact (H ltac:(discriminate) [] 7).
Defined.
