(* ===== verification/DeterministicGUID.v ===== *)
(** * tunnel: the GUID of an adapter

    deterministicguid.go. The text that is hashed identifies a tunnel: its name,
    its key, and its peers with their allowed IPs, in whatever order they are
    written. BLAKE2s, Curve25519, Unicode normalization and the order in which
    sort.Slice leaves equal elements are parameters. *)

From stdpp Require Import sorting.
From S2P Require Import Prelude GoStrings GoNum Netip Config.
Local Open Scope Z_scope.

Module GUID.

Definition deterministicGUIDLabel : gostring := str "Deterministic WireGuard Windows GUID v1 jason@zx2c4.com".
Definition fixedGUIDLabel : gostring := str "Fixed WireGuard Windows GUID v1 jason@zx2c4.com".

(** bytes.Compare(a, b) < 0, on the values of the bytes. *)
Fixpoint lexLess (a b : list Z) : bool :=
  match a, b with
  | _, [] => false
  | [], _ :: _ => true
  | x :: a', y :: b' => if x =? y then lexLess a' b' else x <? y
  end.

Definition bytesLess (a b : gostring) : bool := lexLess (map code a) (map code b).

Definition keyLess (p q : Peer) : bool := bytesLess (pr_PublicKey p) (pr_PublicKey q).

(** netip.Addr.Compare(a, b) < 0 for addresses of one length. *)
Definition addrLess (a b : Addr) : bool :=
  match a, b with
  | Addr4 v, Addr4 w => v <? w
  | Addr6 v z, Addr6 w y => if v =? w then bytesLess z y else v <? w
  | _, _ => false
  end.

Definition allowedLess (a b : Prefix) : bool :=
  if negb (BitLen (p_addr a) =? BitLen (p_addr b)) then BitLen (p_addr a) <? BitLen (p_addr b)
  else if negb (p_bits a =? p_bits b) then p_bits a <? p_bits b
  else addrLess (p_addr a) (p_addr b).

Section Hash.
Context (sort_Slice : forall A : Type, (A -> A -> bool) -> list A -> list A).
Context (NFC : gostring -> gostring) (Public : Key -> Key) (blake2s_Sum256 : gostring -> gostring).
Context (UseFixedGUIDInsteadOfDeterministic : bool).
Arguments sort_Slice {A}.

(** b2Number, b2String: the bytes written; a length that does not fit panics. *)
Definition b2Number (i : Z) : result gostring :=
  if 2 ^ 32 - 1 <? i then Err (ErrText "length out of bounds") else Ok (leBytes 4 i).

Definition b2String (s : gostring) : result gostring :=
  let bytes := NFC s in
  let? n := b2Number (Z.of_nat (length bytes)) in Ok (n ++ bytes).

Definition b2Peer (peer : Peer) : result gostring :=
  let? n := b2Number (Z.of_nat (length (pr_AllowedIPs peer))) in
  let sortedAllowedIPs := sort_Slice allowedLess (pr_AllowedIPs peer) in
  let? ips := rmap (fun ip => b2String (PrefixString ip)) sortedAllowedIPs in
  Ok (pr_PublicKey peer ++ n ++ concat ips).

(** All that is written to the hash. *)
Definition guidInput (c : Config) : result gostring :=
  let label := if negb UseFixedGUIDInsteadOfDeterministic then deterministicGUIDLabel else fixedGUIDLabel in
  let? name := b2String (c_Name c) in
  if UseFixedGUIDInsteadOfDeterministic then Ok (label ++ name)
  else
    let? n := b2Number (Z.of_nat (length (c_Peers c))) in
    let sortedPeers := sort_Slice keyLess (c_Peers c) in
    let? peers := rmap b2Peer sortedPeers in
    Ok (label ++ name ++ Public (i_PrivateKey (c_Interface c)) ++ n ++ concat peers).

(** The first sixteen bytes of the hash. *)
Definition deterministicGUID (c : Config) : result gostring :=
  let? input := guidInput c in Ok (take 16 (blake2s_Sum256 input)).
End Hash.
End GUID.
Import GUID.

(** ** The orders *)

Lemma lexLess_irrefl a : lexLess a a = false.
Proof. induction a as [|x a IH]; cbn; [done|]. by rewrite Z.eqb_refl. Qed.

Lemma lexLess_total a b : lexLess a b = false -> lexLess b a = false -> a = b.
Proof.
  revert b. induction a as [|x a IH]; intros [|y b]; cbn; try done.
  rewrite (Z.eqb_sym y x). destruct (Z.eqb_spec x y) as [->|]; [intros; f_equal; auto|]. rewrite !Z.ltb_ge. lia.
Qed.

Lemma lexLess_notless_trans a b c : lexLess b a = false -> lexLess c b = false -> lexLess c a = false.
Proof.
  revert b c. induction a as [|x a IH]; intros [|y b] [|z c]; cbn; try done.
  destruct (Z.eqb_spec y x), (Z.eqb_spec z y), (Z.eqb_spec z x); subst; rewrite ?Z.ltb_ge; try lia; eauto.
Qed.

(** An order by a key, as sort.Slice is given it. *)
Definition byKey {A} (less : A -> A -> bool) (key : A -> list Z) : Prop := forall x y, less x y = lexLess (key x) (key y).

Definition prefixKey (p : Prefix) : list Z :=
  BitLen (p_addr p) :: p_bits p ::
  match p_addr p with AddrZero => [] | Addr4 v => [v] | Addr6 v z => v :: map code z end.

Lemma allowedLess_key : byKey allowedLess prefixKey.
Proof.
  intros [a x] [b y]. unfold allowedLess, prefixKey, addrLess, bytesLess. cbn [p_addr p_bits lexLess].
  destruct (BitLen a =? BitLen b) eqn:El; cbn [negb]; [|done]. destruct (x =? y); cbn [negb]; [|done].
  destruct a, b; cbn in *; try done. destruct (Z.eqb_spec v v0); [subst; by rewrite Z.ltb_irrefl | done].
Qed.

Lemma prefixKey_inj p q : prefixKey p = prefixKey q -> p = q.
Proof.
  destruct p as [a x], q as [b y]. unfold prefixKey. cbn [p_addr p_bits]. intros [= Hl -> Hk].
  destruct a as [|v|v z], b as [|w|w u]; try discriminate Hl; [done | by injection Hk as -> |].
  injection Hk as -> Hz. by apply map_code_inj in Hz as ->.
Qed.

Lemma keyLess_key : byKey keyLess (fun p => map code (pr_PublicKey p)).
Proof. intros p q. done. Qed.

Lemma map_eq_Forall2 {A B} (f : A -> B) l1 l2 : map f l1 = map f l2 -> Forall2 (fun x y => f x = f y) l1 l2.
Proof. revert l2. induction l1 as [|x l1 IH]; intros [|y l2] [=]; constructor; auto. Qed.

(** ** What the hashed text says *)

Section Identity.
Context (sort_Slice : forall A : Type, (A -> A -> bool) -> list A -> list A).
Context (NFC : gostring -> gostring) (Public : Key -> Key).
Arguments sort_Slice {A}.

(** sort.Slice leaves a permutation that is sorted, if [less] is an order. *)
Hypothesis sort_perm : forall A (less : A -> A -> bool) l, Permutation (sort_Slice less l) l.
Hypothesis sort_sorted : forall A (less : A -> A -> bool) key l,
  byKey less key -> StronglySorted (fun x y => less y x = false) (sort_Slice less l).
(** Text in ASCII is normalized, and a public key has its length. *)
Hypothesis NFC_ascii : forall s, Forall (fun c => code c < 128) s -> NFC s = s.
Hypothesis Public_length : forall k, length (Public k) = KeyLength.

Abbreviation input := (guidInput (fun A => @sort_Slice A) NFC Public false).

(** Sorting does not depend on the order of what is sorted. *)
Lemma sort_unique {A B} (f : A -> B) (less : A -> A -> bool) (key : A -> list Z) l1 l2 :
  byKey less key ->
  (forall x y, x ∈ l1 -> y ∈ l2 -> key x = key y -> f x = f y) -> (forall x y, f x = f y -> key x = key y) ->
  Permutation (map f l1) (map f l2) -> map f (sort_Slice less l1) = map f (sort_Slice less l2).
Proof.
  intros Hk Heq Hkey Hp. set (R := fun u v : B => exists x y, u = f x /\ v = f y /\ less y x = false).
  assert (Hs : forall l, StronglySorted R (map f (sort_Slice less l))).
  { intros l. pose proof (sort_sorted A less key l Hk) as Hs. induction Hs as [|x xs _ IH Hx]; cbn; constructor; [done|].
    apply Forall_fmap. eapply Forall_impl; [exact Hx|]. intros y Hy. by exists x, y. }
  apply (StronglySorted_unique_strong R); [|apply Hs | apply Hs | by rewrite !sort_perm].
  intros u v Hu Hv (x & y & -> & -> & Hxy) (y' & x' & Ey & Ex & Hyx).
  apply list_elem_of_fmap in Hu as (x0 & Ex0 & Hx0), Hv as (y0 & Ey0 & Hy0). rewrite sort_perm in Hx0, Hy0.
  rewrite Ex0, Ey0. apply Heq; [done..|]. rewrite Hk in Hxy, Hyx.
  rewrite <- (Hkey _ _ Ex0), <- (Hkey _ _ Ey0). rewrite <- (Hkey _ _ Ex), <- (Hkey _ _ Ey) in Hyx. by apply lexLess_total.
Qed.

(** A peer as it is hashed. *)
Definition peerCode (p : Peer) : Key * list Prefix := (pr_PublicKey p, sort_Slice allowedLess (pr_AllowedIPs p)).

Definition samePeer (p q : Peer) : Prop :=
  pr_PublicKey p = pr_PublicKey q /\ Permutation (pr_AllowedIPs p) (pr_AllowedIPs q).

(** The same tunnel, but for the order in which it is written. *)
Definition sameTunnel (c1 c2 : Config) : Prop :=
  NFC (c_Name c1) = NFC (c_Name c2)
  /\ Public (i_PrivateKey (c_Interface c1)) = Public (i_PrivateKey (c_Interface c2))
  /\ exists peers, Permutation (c_Peers c1) peers /\ Forall2 samePeer peers (c_Peers c2).

(** Keys and addresses as the parser leaves them; it does not see to it that no two
    peers have the same key. *)
Definition hashable (c : Config) : Prop :=
  Forall (fun p => length (pr_PublicKey p) = KeyLength /\ Forall validPrefix (pr_AllowedIPs p)) (c_Peers c).
Definition distinctKeys (c : Config) : Prop := NoDup (map pr_PublicKey (c_Peers c)).

Lemma samePeer_code p q : samePeer p q <-> peerCode p = peerCode q.
Proof.
  unfold samePeer, peerCode. split.
  - intros [-> Hp]. f_equal. pose proof (sort_unique (fun x => x) allowedLess prefixKey (pr_AllowedIPs p) (pr_AllowedIPs q)) as H.
    rewrite !map_id in H. apply H; [apply allowedLess_key | intros x y _ _; apply prefixKey_inj | by intros x y -> | done].
  - intros [= -> Hs]. split; [done|]. by rewrite <- (sort_perm _ allowedLess (pr_AllowedIPs p)), Hs, sort_perm.
Qed.

Lemma samePeers_codes l1 l2 :
  (exists l, Permutation l1 l /\ Forall2 samePeer l l2) <-> Permutation (map peerCode l1) (map peerCode l2).
Proof.
  split.
  - intros (l & -> & Hs). replace (map peerCode l) with (map peerCode l2); [done|].
    induction Hs as [|x y l l2 Hxy _ IH]; cbn; [done|]. f_equal; [|done]. symmetry. by apply samePeer_code.
  - intros Hp. symmetry in Hp. apply Permutation_map_inv in Hp as (l & El & Hp). exists l. split; [done|].
    eapply Forall2_impl; [exact (map_eq_Forall2 peerCode l l2 (eq_sym El))|]. intros x y. apply samePeer_code.
Qed.

(** The hash of the peers depends on their codes. *)
Definition codeBytes (c : Key * list Prefix) : result gostring :=
  let? n := b2Number (Z.of_nat (length c.2)) in
  let? ips := rmap (fun ip => b2String NFC (PrefixString ip)) c.2 in
  Ok (c.1 ++ n ++ concat ips).

Lemma b2Peer_code p : b2Peer (fun A => @sort_Slice A) NFC p = codeBytes (peerCode p).
Proof. unfold b2Peer, codeBytes. cbn [fst snd peerCode]. by rewrite (Permutation_length (sort_perm _ allowedLess (pr_AllowedIPs p))). Qed.

Lemma rmap_map {A B C} (f : B -> result C) (g : A -> B) l : rmap f (map g l) = rmap (fun x => f (g x)) l.
Proof. induction l as [|x l IH]; cbn; [done|]. by rewrite IH. Qed.

Lemma rmap_b2Peer l : rmap (b2Peer (fun A => @sort_Slice A) NFC) l = rmap codeBytes (map peerCode l).
Proof. rewrite rmap_map. induction l as [|x l IH]; cbn; [done|]. by rewrite b2Peer_code, IH. Qed.

Lemma sortedPeers_codes c1 c2 :
  distinctKeys c2 -> Permutation (map peerCode (c_Peers c1)) (map peerCode (c_Peers c2)) ->
  map peerCode (sort_Slice keyLess (c_Peers c1)) = map peerCode (sort_Slice keyLess (c_Peers c2)).
Proof.
  unfold distinctKeys. intros Hd Hp. eapply sort_unique; [apply keyLess_key | | | done].
  - intros x y Hx Hy Hk%map_code_inj. assert (Hin : peerCode x ∈ map peerCode (c_Peers c2)).
    { rewrite <- Hp. apply list_elem_of_fmap. by exists x. }
    apply list_elem_of_fmap in Hin as (y' & Exy & Hy'). rewrite Exy. f_equal. assert (Hky : pr_PublicKey y' = pr_PublicKey y).
    { rewrite <- Hk. symmetry. exact (f_equal fst Exy). }
    clear -Hd Hy Hy' Hky. revert Hd Hy Hy'. induction (c_Peers c2) as [|z l IH]; cbn; intros Hd Hy Hy'; [by apply elem_of_nil in Hy|].
    inv Hd. apply elem_of_cons in Hy as [->|Hy], Hy' as [->|Hy']; [done | | | by auto].
    all: exfalso; match goal with H : _ ∉ _ |- _ => apply H end; apply list_elem_of_fmap; eauto.
  - intros x y Hxy. exact (f_equal (fun c => map code c.1) Hxy).
Qed.

(** Reading the text back. *)
Lemma b2Number_inj i j a b r r' :
  0 <= i -> 0 <= j -> b2Number i = Ok a -> b2Number j = Ok b -> a ++ r = b ++ r' -> i = j /\ r = r'.
Proof.
  unfold b2Number. intros Hi Hj. destruct (Z.ltb_spec (2 ^ 32 - 1) i), (Z.ltb_spec (2 ^ 32 - 1) j); try done.
  intros [= <-] [= <-] He. apply (app_inj_1 (leBytes 4 i) (leBytes 4 j)) in He as [He ->]; [|done].
  split; [|done]. eapply (leBytes_inj 4); [| |exact He]; cbn; lia.
Qed.

Lemma b2String_inj s t a b r r' :
  b2String NFC s = Ok a -> b2String NFC t = Ok b -> a ++ r = b ++ r' -> NFC s = NFC t /\ r = r'.
Proof.
  unfold b2String. intros (n & Hn & [= <-])%rbind_Ok (m & Hm & [= <-])%rbind_Ok. rewrite <- !app_assoc. intros He.
  eapply b2Number_inj in He as [Hl He]; [| | | exact Hn | exact Hm]; [|lia..]. apply app_inj_1 in He; [done | lia].
Qed.

(** Texts written one after the other, each readable on its own. *)
Lemma rmap_concat_inj {A} (f : A -> result gostring) (P : A -> Prop) l1 l2 a b r r' :
  (forall x y u v s s', P x -> P y -> f x = Ok u -> f y = Ok v -> u ++ s = v ++ s' -> x = y /\ s = s') ->
  length l1 = length l2 -> Forall P l1 -> Forall P l2 -> rmap f l1 = Ok a -> rmap f l2 = Ok b ->
  concat a ++ r = concat b ++ r' -> l1 = l2 /\ r = r'.
Proof.
  intros Hf. revert l2 a b. induction l1 as [|x l1 IH]; intros [|y l2] a b Hl H1 H2; try discriminate Hl; cbn [rmap].
  { by intros [= <-] [= <-]. }
  inv H1. inv H2. intros (u & Hu & (us & Hus & [= <-])%rbind_Ok)%rbind_Ok (v & Hv & (vs & Hvs & [= <-])%rbind_Ok)%rbind_Ok.
  cbn [concat]. rewrite <- !app_assoc. intros He. eapply Hf in He as [-> He]; [|done..].
  eapply IH in He as [-> ->]; [done | cbn in Hl; lia | done | done | exact Hus | exact Hvs].
Qed.

Lemma prefix_inj p q u v s s' :
  validPrefix p -> validPrefix q -> b2String NFC (PrefixString p) = Ok u -> b2String NFC (PrefixString q) = Ok v ->
  u ++ s = v ++ s' -> p = q /\ s = s'.
Proof.
  intros Hp Hq Hu Hv He. eapply b2String_inj in He as [Hs ->]; [|exact Hu | exact Hv]. split; [|done].
  assert (Hascii : forall p, validPrefix p -> NFC (PrefixString p) = PrefixString p).
  { intros x Hx. apply NFC_ascii. eapply Forall_impl; [by apply PrefixString_addrByte|]. intros c [Hc _].
    unfold solid, isASCII in Hc. apply andb_true_iff in Hc as [Hc _]. by apply Z.ltb_lt in Hc. }
  rewrite !Hascii in Hs by done. apply (f_equal ParsePrefix) in Hs. rewrite !ParsePrefix_PrefixString in Hs by done. by injection Hs.
Qed.

Definition goodCode (c : Key * list Prefix) : Prop := length c.1 = KeyLength /\ Forall validPrefix c.2.

Lemma codeBytes_inj c d u v s s' :
  goodCode c -> goodCode d -> codeBytes c = Ok u -> codeBytes d = Ok v -> u ++ s = v ++ s' -> c = d /\ s = s'.
Proof.
  intros [Hc1 Hc2] [Hd1 Hd2]. unfold codeBytes. destruct c as [k ips], d as [k' ips']. cbn [fst snd] in *.
  intros (n & Hn & (a & Ha & [= <-])%rbind_Ok)%rbind_Ok (m & Hm & (b & Hb & [= <-])%rbind_Ok)%rbind_Ok.
  rewrite <- !app_assoc. intros He. apply app_inj_1 in He as [-> He]; [|by rewrite Hc1].
  eapply b2Number_inj in He as [Hl He]; [| | | exact Hn | exact Hm]; [|lia..].
  eapply (rmap_concat_inj _ validPrefix) in He as [-> ->]; [done | | lia | done | done | exact Ha | exact Hb].
  intros x y u v t t'. apply prefix_inj.
Qed.

Lemma codes_good c : hashable c -> Forall goodCode (map peerCode (sort_Slice keyLess (c_Peers c))).
Proof.
  intros Hg. apply Forall_fmap. rewrite sort_perm. eapply Forall_impl; [exact Hg|]. intros p [Hk Hv].
  split; [done|]. unfold compose, peerCode. cbn. by rewrite sort_perm.
Qed.

(** C38: The text hashed into the GUID of an adapter identifies the tunnel: two
    configurations with the same text have the same normalized name, the same
    public key and the same peers (public key and set of allowed IPs) up to the
    order in which peers and allowed IPs are written. Conversely, where no two
    peers have the same public key, reordering peers and allowed IPs keeps the
    text, and so the adapter. With a repeated key the order of the peers that
    share it can show, see [repeated_key_order]. *)
Theorem guidInput_identifies c1 c2 b1 b2 :
  hashable c1 -> hashable c2 -> input c1 = Ok b1 -> input c2 = Ok b2 ->
  (b1 = b2 -> sameTunnel c1 c2) /\ (distinctKeys c2 -> sameTunnel c1 c2 -> b1 = b2).
Proof.
  intros Hh1 Hh2. unfold guidInput, sameTunnel. rewrite samePeers_codes, !rmap_b2Peer. cbn [negb].
  generalize deterministicGUIDLabel as label. intros label.
  intros (s1 & Hs1 & (n1 & Hn1 & (p1 & Hp1 & [= <-])%rbind_Ok)%rbind_Ok)%rbind_Ok
         (s2 & Hs2 & (n2 & Hn2 & (p2 & Hp2 & [= <-])%rbind_Ok)%rbind_Ok)%rbind_Ok. split.
  - intros He. apply (app_inv_head label) in He. eapply b2String_inj in He as [Hname He]; [|exact Hs1 | exact Hs2].
    apply app_inj_1 in He as [Hpub He]; [|by rewrite !Public_length].
    eapply b2Number_inj in He as [Hl He]; [| | | exact Hn1 | exact Hn2]; [|lia..]. rewrite <- (app_nil_r (concat p1)), <- (app_nil_r (concat p2)) in He.
    split_and!; [done..|]. rewrite <- (sort_perm _ keyLess (c_Peers c1)), <- (sort_perm _ keyLess (c_Peers c2)).
    eapply (rmap_concat_inj _ goodCode) in He as [-> _]; [done | | | by apply codes_good | by apply codes_good | exact Hp1 | exact Hp2].
    + intros x y u v t t'. apply codeBytes_inj.
    + rewrite !length_map, !(Permutation_length (sort_perm _ keyLess _)). lia.
  - intros Hd (Hname & Hpub & Hp). rewrite (sortedPeers_codes c1 c2 Hd Hp) in Hp1. rewrite Hp1 in Hp2. injection Hp2 as ->.
    unfold b2String in Hs1, Hs2. rewrite Hname in Hs1. rewrite Hs1 in Hs2. injection Hs2 as ->.
    apply Permutation_length in Hp. rewrite !length_map in Hp. rewrite Hp in Hn1. rewrite Hn1 in Hn2. injection Hn2 as ->.
    by rewrite Hpub.
Qed.
End Identity.

(** ** Examples *)

(** Insertion sort: a sort.Slice that satisfies what is asked of it. *)
Fixpoint insertBy {A} (less : A -> A -> bool) (x : A) (l : list A) : list A :=
  match l with
  | [] => [x]
  | y :: l' => if less y x then y :: insertBy less x l' else x :: l
  end.

Fixpoint insertionSort (A : Type) (less : A -> A -> bool) (l : list A) : list A :=
  match l with
  | [] => []
  | x :: l' => insertBy less x (insertionSort A less l')
  end.

Lemma insertBy_perm {A} (less : A -> A -> bool) x l : Permutation (insertBy less x l) (x :: l).
Proof. induction l as [|y l IH]; cbn; [done|]. destruct (less y x); [|done]. rewrite IH. constructor. Qed.

Lemma insertionSort_perm A (less : A -> A -> bool) l : Permutation (insertionSort A less l) l.
Proof. induction l as [|x l IH]; cbn; [done|]. by rewrite insertBy_perm, IH. Qed.

Lemma insertionSort_sorted A (less : A -> A -> bool) key l :
  byKey less key -> StronglySorted (fun x y => less y x = false) (insertionSort A less l).
Proof.
  intros Hk. assert (Htr : forall a b c, less b a = false -> less c b = false -> less c a = false).
  { intros a b c. rewrite !Hk. apply lexLess_notless_trans. }
  assert (Has : forall a b, less a b = true -> less b a = false).
  { intros a b Hab. destruct (less b a) eqn:Hba; [|done]. rewrite Hk in Hab, Hba. exfalso.
    revert Hab Hba. generalize (key a) (key b). induction l0 as [|x k IH]; intros [|y k']; cbn; try done.
    rewrite (Z.eqb_sym y x). destruct (Z.eqb_spec x y); [apply IH|]. rewrite !Z.ltb_lt. lia. }
  induction l as [|x l IH]; cbn; [constructor|]. induction IH as [|y l' Hs IH' Hy]; cbn; [repeat constructor|].
  destruct (less y x) eqn:E; constructor; try done.
  - rewrite insertBy_perm. constructor; [by apply Has | done].
  - by constructor.
  - constructor; [done|]. eapply Forall_impl; [exact Hy|]. intros z Hz. by eapply Htr.
Qed.

Definition guidPeer (k : ascii) (ips : list Prefix) : Peer :=
  set_pr_PublicKey (replicate KeyLength k) (set_pr_AllowedIPs ips emptyPeer).
Definition net8 : Prefix := mkPrefix (Addr4 0x0a000000) 8.
Definition net32 : Prefix := mkPrefix (Addr6 1 []) 128.
Definition guidConf (peers : list Peer) : Config := mkConfig (str "office") emptyInterface peers ∅ [].

Abbreviation exampleInput := (guidInput insertionSort (fun s => s) (fun _ => zeroKey) false).

Lemma guidConf_hashable k1 k2 ips1 ips2 :
  Forall validPrefix ips1 -> Forall validPrefix ips2 -> hashable (guidConf [guidPeer k1 ips1; guidPeer k2 ips2]).
Proof. intros H1 H2. by repeat constructor. Qed.
Lemma guidConf_distinct k1 k2 ips1 ips2 : k1 <> k2 -> distinctKeys (guidConf [guidPeer k1 ips1; guidPeer k2 ips2]).
Proof.
  intros Hk. apply NoDup_cons. split; [|apply NoDup_singleton]. intros Hin%list_elem_of_singleton. by injection Hin.
Qed.

(** Reordered, the text is the same. *)
Lemma guidInput_identifies_witness :
  exists b1 b2,
    exampleInput (guidConf [guidPeer "a" [net8; net32]; guidPeer "b" []]) = Ok b1
    /\ exampleInput (guidConf [guidPeer "b" []; guidPeer "a" [net32; net8]]) = Ok b2 /\ b1 = b2.
Proof.
  eexists _, _. split; [vm_compute; reflexivity|]. split; [vm_compute; reflexivity|].
  apply (guidInput_identifies insertionSort (fun s => s) (fun _ => zeroKey) insertionSort_perm insertionSort_sorted
           (fun s _ => eq_refl) (fun _ => eq_refl)
           (guidConf [guidPeer "a" [net8; net32]; guidPeer "b" []]) (guidConf [guidPeer "b" []; guidPeer "a" [net32; net8]])).
  - apply guidConf_hashable; [repeat constructor; cbn; lia | constructor].
  - apply guidConf_hashable; [constructor | repeat constructor; cbn; lia].
  - vm_compute. reflexivity.
  - vm_compute. reflexivity.
  - apply guidConf_distinct. discriminate.
  - split; [reflexivity|]. split; [reflexivity|]. exists [guidPeer "b" []; guidPeer "a" [net8; net32]].
    split; [apply perm_swap|]. repeat constructor.
Defined.

(** Two peers with one key and different allowed IPs: written in the other order
    the tunnel is the same and the text is not. *)
Example repeated_key_order :
  let c1 := guidConf [guidPeer "a" [net8]; guidPeer "a" [net32]] in
  let c2 := guidConf [guidPeer "a" [net32]; guidPeer "a" [net8]] in
  sameTunnel (fun s => s) (fun _ => zeroKey) c1 c2
  /\ match exampleInput c1, exampleInput c2 with Ok b1, Ok b2 => bool_decide (b1 = b2) | _, _ => true end = false.
Proof.
  split; [|vm_compute; reflexivity]. split; [reflexivity|]. split; [reflexivity|]. exists [guidPeer "a" [net32]; guidPeer "a" [net8]].
  split; [apply perm_swap|]. repeat constructor.
Qed.
