(* ===== verification/Ringlogger.v ===== *)
(** * ringlogger: the log shared by the service, its tunnels and the window

    ringlogger.go, dump.go and global.go. The memory of the mapping is a value;
    a write is the list of the stores it makes, in their order, so that writes
    can be interleaved store by store. Local time zones are a parameter
    ([formatTime]), and so is the writer a log is copied to. *)

From S2P Require Import Prelude GoStrings GoNum.
Local Open Scope Z_scope.

Module Ringlogger.

Definition NUL : ascii := "000"%char.

Definition maxLogLineLength : Z := 512.
Definition maxTagLength : Z := 5.
Definition maxLines : Z := 2048.
Definition magic : Z := 0xbadbabe.
Definition CursorAll : Z := 2 ^ 32 - 1.

Definition len (s : gostring) : Z := Z.of_nat (length s).

Record logLine : Type := mkLine { timeNs : Z; line : gostring }.

Record logMem : Type := mkMem { lm_magic : Z; nextIndex : Z; lines : list logLine }.

(** [log] is the mapped memory, if it is mapped. *)
Record Ringlogger : Type := mkRing {
  tag : gostring; file : option Z; mapping : Z; log : option logMem; readOnly : bool
}.

Definition blankLine : logLine := mkLine 0 (replicate (Z.to_nat maxLogLineLength) NUL).
Definition blankMem : logMem := mkMem magic 0 (replicate (Z.to_nat maxLines) blankLine).

(** ** Opening and closing *)

Definition FILE_MAP_WRITE : Z := 2.
Definition FILE_MAP_READ : Z := 4.

(** [view] is the memory of the mapping; storing to a view mapped for reading is
    an access violation. *)
Definition newRingloggerFromMappingHandle (mappingHandle : Z) (view : result logMem) (tag : gostring) (access : Z)
    : result Ringlogger :=
  let? log := view in
  let readOnly := Z.land access FILE_MAP_WRITE =? 0 in
  if negb (lm_magic log =? magic) then
    if readOnly then Err (ErrText "access violation")
    else Ok (mkRing tag None mappingHandle (Some blankMem) readOnly)
  else Ok (mkRing tag None mappingHandle (Some log) readOnly).

(** windows.CreateFileMapping as its callers use it: the mapping of a file that
    has one already comes with ERROR_ALREADY_EXISTS, which is no error. *)
Definition fileMapping (createMapping : Z * option Z) (ERROR_ALREADY_EXISTS : Z) : result Z :=
  match createMapping with
  | (mapping, Some e) => if negb (e =? ERROR_ALREADY_EXISTS) then Err (ErrCode e) else Ok mapping
  | (mapping, None) => Ok mapping
  end.

(** [openFile], [truncate] and [createMapping] are the results of the calls. *)
Definition NewRinglogger (openFile : result Z) (truncate : result unit) (createMapping : Z * option Z)
    (ERROR_LABEL_TOO_LONG ERROR_ALREADY_EXISTS : Z) (view : result logMem) (tag : gostring) : result Ringlogger :=
  if maxTagLength <? len tag then Err (ErrCode ERROR_LABEL_TOO_LONG)
  else
    let? f := openFile in
    let? _ := truncate in
    let? mapping := fileMapping createMapping ERROR_ALREADY_EXISTS in
    let? rl := newRingloggerFromMappingHandle mapping view tag FILE_MAP_WRITE in
    Ok (mkRing (Ringlogger.tag rl) (Some f) (Ringlogger.mapping rl) (log rl) (readOnly rl)).

Definition NewRingloggerFromInheritedMappingHandle (handleStr : gostring) (view : Z -> result logMem) (tag : gostring)
    : result Ringlogger :=
  let? handle := ParseUint handleStr 64 in
  newRingloggerFromMappingHandle handle (view handle) tag FILE_MAP_READ.

Definition Close (rl : Ringlogger) : Ringlogger := mkRing (tag rl) None 0 None (readOnly rl).

(** ** Writing *)

(** One store into a line. *)
Inductive memOp : Type :=
  | StoreTime (ts : Z)
  | StoreByte (i : Z) (c : ascii).

Definition applyOp (l : logLine) (o : memOp) : logLine :=
  match o with
  | StoreTime ts => mkLine ts (line l)
  | StoreByte i c => mkLine (timeNs l) (<[Z.to_nat i := c]> (line l))
  end.

Definition run (l : logLine) (ops : list memOp) : logLine := foldl applyOp l ops.

Definition zeroOps : list memOp := map (fun i => StoreByte i NUL) (seqZ 0 maxLogLineLength).

(** copy(line.line[off:], src) *)
Definition copyOps (off : Z) (src : gostring) : list memOp :=
  zip_with StoreByte (seqZ off (maxLogLineLength - off)) src.

(** The part of a text that fits beside its tag. *)
Definition fit (tag p : gostring) : gostring :=
  if maxLogLineLength - 1 <? 3 + len p + len tag then take (Z.to_nat (maxLogLineLength - 1 - 3 - len tag)) p else p.

Definition textLen (tag p : gostring) : Z :=
  if maxLogLineLength - 1 <? 3 + len p + len tag then maxLogLineLength - 1 else 3 + len p + len tag.

Definition writeOps (tag p : gostring) (ts : Z) : list memOp :=
  [StoreTime 0] ++ zeroOps
  ++ [StoreByte (textLen tag p) NUL; StoreByte 0 NUL]
  ++ copyOps 1 tag
  ++ [StoreByte (1 + len tag) "]"%char; StoreByte (2 + len tag) " "%char]
  ++ copyOps (3 + len tag) (fit tag p)
  ++ [StoreByte 0 "["%char; StoreTime ts].

Definition slot (i : Z) : nat := Z.to_nat (i mod maxLines).

(** The fetch_add: the index of the write and the memory after it. *)
Definition fetchAdd (mem : logMem) : Z * logMem :=
  let next := (nextIndex mem + 1) mod 2 ^ 32 in
  ((next - 1) mod 2 ^ 32, mkMem (lm_magic mem) next (lines mem)).

Definition storeLine (mem : logMem) (index : Z) (ops : list memOp) : logMem :=
  mkMem (lm_magic mem) (nextIndex mem) (alter (fun l => run l ops) (slot index) (lines mem)).

Definition ErrShortWrite : goerr := ErrText "short write".
Definition EOF : goerr := ErrText "EOF".

Definition withLog (rl : Ringlogger) (mem : logMem) : Ringlogger :=
  mkRing (tag rl) (file rl) (mapping rl) (Some mem) (readOnly rl).

Definition WriteWithTimestamp (rl : Ringlogger) (p : gostring) (ts : Z) : (Z * option goerr) * Ringlogger :=
  if readOnly rl then ((0, Some ErrShortWrite), rl)
  else
    let ret := len p in
    let p := TrimSpace p in
    if len p =? 0 then ((ret, None), rl)
    else
      match log rl with
      | None => ((0, Some EOF), rl)
      | Some mem =>
          let '(index, mem) := fetchAdd mem in
          ((ret, None), withLog rl (storeLine mem index (writeOps (tag rl) p ts)))
      end.

(** [now] is the clock. *)
Definition Write (rl : Ringlogger) (p : gostring) (now : Z) : (Z * option goerr) * Ringlogger :=
  WriteWithTimestamp rl p now.

(** ** Reading *)

(** bytes.IndexByte *)
Fixpoint IndexByte (s : gostring) (c : ascii) : option nat :=
  match s with
  | [] => None
  | d :: s' => if Ascii.eqb d c then Some O else option_map S (IndexByte s' c)
  end.

(** line.line[:index] where the line is not empty. *)
Definition lineText (l : logLine) : option gostring :=
  match IndexByte (line l) NUL with
  | Some (S n) => Some (take (S n) (line l))
  | _ => None
  end.

Definition lineAt (mem : logMem) (i : Z) : logLine := default blankLine (lines mem !! slot i).

Record FollowLine : Type := mkFollow { Line : gostring; Stamp : Z }.

(** The loop of FollowFromCursor, [n] rounds from [i]. *)
Fixpoint followLoop (mem : logMem) (cursor next : Z) (n : nat) (i nextCursor : Z) (followLines : list FollowLine)
    : list FollowLine * Z :=
  match n with
  | O => (followLines, nextCursor)
  | S n' =>
      let l := lineAt mem i in
      if negb (cursor =? CursorAll) && (i mod maxLines =? next mod maxLines) then (followLines, nextCursor)
      else if timeNs l =? 0 then
        if cursor =? CursorAll then followLoop mem cursor next n' ((i + 1) mod 2 ^ 32) nextCursor followLines
        else (followLines, nextCursor)
      else
        let followLines :=
          match lineText l with
          | Some text => followLines ++ [mkFollow text (timeNs l)]
          | None => followLines
          end in
        let i := (i + 1) mod 2 ^ 32 in
        followLoop mem cursor next n' i (i mod maxLines) followLines
  end.

Definition FollowFromCursor (rl : Ringlogger) (cursor : Z) : list FollowLine * Z :=
  match log rl with
  | None => ([], cursor)
  | Some mem =>
      let i := if cursor =? CursorAll then nextIndex mem else cursor in
      followLoop mem cursor (nextIndex mem) (Z.to_nat maxLines) i cursor []
  end.

Section Output.
Context {O : Type} (out_Write : gostring -> O -> (Z * option goerr) * O) (formatTime : Z -> gostring).

(** fmt.Fprintf(out, "%s: %s\n", stamp, text) *)
Definition printLine (text : gostring) (ts : Z) : gostring := formatTime ts ++ str ": " ++ text ++ [LF].

(** The loop of WriteTo over the lines from [i], with the bytes written so far. *)
Fixpoint writeToLoop (mem : logMem) (i : Z) (ls : list Z) (n : Z) (o : O) : (Z * option goerr) * O :=
  match ls with
  | [] => ((n, None), o)
  | l :: ls' =>
      let lg := lineAt mem ((i + l) mod 2 ^ 32) in
      if timeNs lg =? 0 then writeToLoop mem i ls' n o
      else
        match lineText lg with
        | None => writeToLoop mem i ls' n o
        | Some text =>
            match out_Write (printLine text (timeNs lg)) o with
            | ((_, Some e), o) => ((n, Some e), o)
            | ((bytes, None), o) => writeToLoop mem i ls' (n + bytes) o
            end
        end
  end.

Definition WriteTo (rl : Ringlogger) (o : O) : (Z * option goerr) * O :=
  match log rl with
  | None => ((0, Some EOF), o)
  | Some mem => writeToLoop mem (nextIndex mem) (seqZ 0 maxLines) 0 o
  end.

(** DumpTo: the items of one poll, and the polls, each with the memory as it is
    then. [None] is a loop that goes on. *)
Fixpoint dumpItems (items : list FollowLine) (o : O) : option goerr * O :=
  match items with
  | [] => (None, o)
  | item :: items' =>
      match out_Write (printLine (Line item) (Stamp item)) o with
      | ((_, Some e), o) => (Some e, o)
      | ((_, None), o) => dumpItems items' o
      end
  end.

Fixpoint dumpFollow (rl : Ringlogger) (polls : list logMem) (cursor : Z) (o : O) : option (result unit) * O :=
  match polls with
  | [] => (None, o)
  | mem :: polls' =>
      let '(items, cursor) := FollowFromCursor (withLog rl mem) cursor in
      match dumpItems items o with
      | (Some e, o) => (Some (if bool_decide (e = EOF) then Ok tt else Err e), o)
      | (None, o) => dumpFollow rl polls' cursor o
      end
  end.

Definition DumpTo (openFile : result Z) (createMapping : Z * option Z) (ERROR_ALREADY_EXISTS : Z)
    (view : result logMem) (continuous : bool) (polls : list logMem) (o : O) : option (result unit) * O :=
  let opened :=
    let? _ := openFile in
    let? mapping := fileMapping createMapping ERROR_ALREADY_EXISTS in
    newRingloggerFromMappingHandle mapping view (str "DMP") FILE_MAP_READ in
  match opened with
  | Err e => (Some (Err e), o)
  | Ok rl =>
      if negb continuous then
        match WriteTo rl o with
        | ((_, Some e), o) => (Some (Err e), o)
        | ((_, None), o) => (Some (Ok tt), o)
        end
      else dumpFollow rl polls CursorAll o
  end.
End Output.

(** ** global.go: what the runtime prints *)

Definition globalBufferSize : Z := maxLogLineLength - 1 - maxTagLength - 3.

Record globalState : Type := mkGlobal { globalBuffer : gostring; globalBufferLocation : Z }.

(** copy(buffer[off:], src) *)
Definition copyAt (buffer : gostring) (off : Z) (src : gostring) : gostring :=
  take (Z.to_nat off) buffer ++ take (length buffer - Z.to_nat off) src ++ drop (Z.to_nat off + length src) buffer.

(** One round: what is left of [b], the state, and the argument of Global.Write
    if there is one. *)
Definition globalStep (g : globalState) (b : gostring) : gostring * globalState * option gostring :=
  let amountAvailable := globalBufferSize - globalBufferLocation g in
  let amountToCopy := Z.min (len b) amountAvailable in
  let piece := take (Z.to_nat amountToCopy) b in
  let buffer := copyAt (globalBuffer g) (globalBufferLocation g) piece in
  let b := drop (Z.to_nat amountToCopy) b in
  let location := globalBufferLocation g + amountToCopy in
  let foundNl := existsb (Ascii.eqb LF)
                   (take (Z.to_nat amountToCopy) (drop (Z.to_nat (location - amountToCopy)) buffer)) in
  if foundNl || (0 <? len b)
  then (b, mkGlobal buffer 0, Some (take (Z.to_nat location) buffer))
  else (b, mkGlobal buffer location, None).

(** The loop; the result lists the arguments of Global.Write. *)
Fixpoint globalWrite (fuel : nat) (g : globalState) (b : gostring) : option (globalState * list gostring) :=
  match b with
  | [] => Some (g, [])
  | _ :: _ =>
      match fuel with
      | O => None
      | S fuel =>
          let '(b, g, w) := globalStep g b in
          match globalWrite fuel g b with
          | None => None
          | Some (g, ws) => Some (g, match w with Some p => p :: ws | None => ws end)
          end
      end
  end.
End Ringlogger.
