(* ===== verification/RingTheorems.v ===== *)
(** * The ring of log lines refines an unbounded log

    A write appends to a history; the readers return the end of it, in order.
    Interleaved writers leave what the same writes one after the other leave. *)

From S2P Require Import Prelude GoStrings GoNum Ringlogger.
Import Ringlogger.
Local Open Scope Z_scope.

(** ** One write *)

(** An entry of the abstract log. *)
Record entry : Type := mkEntry { en_tag : gostring; en_text : gostring; en_ts : Z }.

Definition entryText (e : entry) : gostring := str "[" ++ en_tag e ++ str "] " ++ fit (en_tag e) (en_text e).

Definition entryLine (e : entry) : logLine :=
  mkLine (en_ts e) (entryText e ++ replicate (Z.to_nat maxLogLineLength - length (entryText e)) NUL).

Definition entryOps (e : entry) : list memOp := writeOps (en_tag e) (en_text e) (en_ts e).

#[global] Arguments entryOps : simpl never.
#[global] Arguments entryLine : simpl never.
#[global] Arguments blankLine : simpl never.

Definition goodTag (e : entry) : Prop := len (en_tag e) <= maxTagLength.

Definition wide (l : logLine) : Prop := len (line l) = maxLogLineLength.

Lemma run_app l ops1 ops2 : run l (ops1 ++ ops2) = run (run l ops1) ops2.
Proof. apply foldl_app. Qed.

Lemma run_cons l o ops : run l (o :: ops) = run (applyOp l o) ops.
Proof. done. Qed.

Lemma run_two l o o' : run l [o; o'] = run (run l [o]) [o'].
Proof. done. Qed.

Lemma store_at t i a c d rest :
  i = len a -> run (mkLine t (a ++ c :: rest)) [StoreByte i d] = mkLine t (a ++ d :: rest).
Proof. intros ->. cbn. unfold len. rewrite Nat2Z.id, insert_app_r_alt, Nat.sub_diag by lia. done. Qed.

Lemma copy_at t off a b rest src n :
  off = len a -> length b = length src -> len src <= n ->
  run (mkLine t (a ++ b ++ rest)) (zip_with StoreByte (seqZ off n) src) = mkLine t (a ++ src ++ rest).
Proof.
  intros ->. revert a b n. induction src as [|c src IH]; intros a b n Hl Hn; destruct b as [|d b]; try done.
  { by destruct (seqZ (len a) n). }
  unfold len in Hn. cbn [length] in Hn. rewrite seqZ_cons by lia. cbn [zip_with app].
  rewrite run_cons. pose proof (store_at t (len a) a d c (b ++ rest) eq_refl) as E. cbn [run foldl] in E. rewrite E.
  replace (Z.succ (len a)) with (len (a ++ [c])) by (unfold len; rewrite length_app; cbn; lia).
  replace (a ++ c :: b ++ rest) with ((a ++ [c]) ++ b ++ rest) by by rewrite <- app_assoc.
  rewrite IH; [by rewrite <- app_assoc | cbn in Hl; lia | unfold len; lia].
Qed.

Lemma run_zeroOps l : wide l -> run l zeroOps = mkLine (timeNs l) (replicate (Z.to_nat maxLogLineLength) NUL).
Proof.
  intros Hw. destruct l as [t l]. unfold wide in Hw. cbn in Hw. cbn [timeNs].
  pose proof (copy_at t 0 [] l [] (replicate (Z.to_nat maxLogLineLength) NUL) maxLogLineLength eq_refl) as E.
  rewrite !app_nil_r in E. cbn [app len length Z.of_nat] in E. rewrite <- E.
  - unfold zeroOps. by rewrite zip_with_replicate_r_eq by (by rewrite length_seqZ).
  - rewrite length_replicate. unfold len in Hw. lia.
  - unfold len. rewrite length_replicate. unfold maxLogLineLength. lia.
Qed.

Lemma fit_bound e : goodTag e -> 3 + len (en_tag e) + len (fit (en_tag e) (en_text e)) <= maxLogLineLength - 1.
Proof.
  unfold goodTag, fit, maxTagLength, maxLogLineLength. intros Ht. destruct (Z.ltb_spec (512 - 1) (3 + len (en_text e) + len (en_tag e))).
  - unfold len at 2. rewrite length_take. lia.
  - lia.
Qed.

Lemma textLen_range e : goodTag e -> 0 <= textLen (en_tag e) (en_text e) < maxLogLineLength.
Proof.
  unfold textLen, maxLogLineLength. intros _. unfold len. destruct (Z.ltb_spec (512 - 1) (3 + Z.of_nat (length (en_text e)) + Z.of_nat (length (en_tag e)))); lia.
Qed.

Lemma app_cons_assoc' {A} (l : list A) x k : l ++ x :: k = (l ++ [x]) ++ k.
Proof. by rewrite <- app_assoc. Qed.

Lemma store_NUL t n i : run (mkLine t (replicate n NUL)) [StoreByte i NUL] = mkLine t (replicate n NUL).
Proof. cbn. f_equal. apply insert_replicate. Qed.

(** The stores of a write leave its line, whatever was there. *)
Lemma run_entryOps e l : goodTag e -> wide l -> run l (entryOps e) = entryLine e.
Proof.
  intros Ht Hw. pose proof (fit_bound e Ht) as Hb. unfold entryOps, writeOps, entryLine, entryText. destruct e as [tg tx ts].
  cbn [en_tag en_text en_ts] in *. revert Hb. generalize (fit tg tx) as p. intros p Hb. clear Ht.
  unfold len in Hb. set (n := (Z.to_nat maxLogLineLength - length (str "[" ++ tg ++ str "] " ++ p))%nat).
  rewrite !run_app, run_zeroOps by exact Hw. cbn [timeNs]. rewrite !run_two, !store_NUL.
  assert (E : replicate (Z.to_nat maxLogLineLength) NUL
              = [NUL] ++ replicate (length tg) NUL ++ NUL :: NUL :: replicate (length p) NUL ++ replicate n NUL).
  { change (NUL :: NUL :: ?x) with (replicate 1 NUL ++ replicate 1 NUL ++ x). change [NUL] with (replicate 1 NUL).
    rewrite <- !replicate_add. f_equal. subst n. rewrite !length_app. cbn [length str]. unfold maxLogLineLength in *.
    cbn. lia. }
  rewrite E. unfold copyOps.
  rewrite (copy_at _ _ [NUL] (replicate (length tg) NUL) _ tg)
    by (rewrite ?length_replicate; unfold len, maxLogLineLength in *; cbn; lia).
  rewrite app_assoc, (store_at _ _ ([NUL] ++ tg)) by (unfold len; cbn; lia).
  rewrite (app_cons_assoc' ([NUL] ++ tg)), (store_at _ _ (([NUL] ++ tg) ++ _)) by (unfold len; rewrite length_app; cbn; lia).
  rewrite app_cons_assoc', (copy_at _ _ _ (replicate (length p) NUL) _ p)
    by (rewrite ?length_replicate; unfold len, maxLogLineLength in *; cbn; rewrite ?length_app; cbn; lia).
  rewrite <- !app_assoc. done.
Qed.

(** ** The stores of a write under way *)

(** A store to a byte of the line. *)
Definition byteOp (o : memOp) : Prop :=
  match o with StoreTime _ => False | StoreByte i _ => 0 <= i < maxLogLineLength end.

Lemma zip_byteOp off n src : 0 <= off -> off + n <= maxLogLineLength -> Forall byteOp (zip_with StoreByte (seqZ off n) src).
Proof.
  intros H0 Hn. apply (Forall_zip_with_fst _ (fun i => 0 <= i < maxLogLineLength)).
  - apply Forall_seqZ. lia.
  - apply Forall_forall. done.
Qed.

(** The time is stored first, as 0, and last; every other store is in the line. *)
Lemma entryOps_shape e :
  goodTag e -> exists mid, entryOps e = StoreTime 0 :: mid ++ [StoreTime (en_ts e)] /\ Forall byteOp mid.
Proof.
  intros Ht. pose proof (textLen_range e Ht) as Hl. unfold entryOps, writeOps, goodTag, maxTagLength in *.
  assert (0 <= len (en_tag e)) by (unfold len; lia).
  assert (Hz : Forall byteOp zeroOps) by (apply Forall_fmap, Forall_seqZ; cbn; lia).
  assert (Hc : forall off src, 0 <= off -> Forall byteOp (copyOps off src)) by (intros; apply zip_byteOp; lia).
  pose proof (Hc 1 (en_tag e)) as Hc1. pose proof (Hc (3 + len (en_tag e)) (fit (en_tag e) (en_text e))) as Hc2.
  clear Hc. revert Hz Hc1 Hc2. generalize zeroOps (copyOps 1 (en_tag e)) (copyOps (3 + len (en_tag e)) (fit (en_tag e) (en_text e))).
  intros z c1 c2 Hz Hc1 Hc2. eexists (z ++ [_; _] ++ c1 ++ [_; _] ++ c2 ++ [_]). split.
  { rewrite <- !app_assoc. cbn [app]. reflexivity. }
  rewrite !Forall_app, !Forall_cons, !Forall_nil. unfold byteOp, maxLogLineLength in *.
  split_and!; try done; try lia; [apply Hc1 | apply Hc2]; lia.
Qed.

Lemma run_bytes l ops : Forall byteOp ops -> timeNs (run l ops) = timeNs l.
Proof.
  intros H. revert l. induction H as [|[|] ops Ho _ IH]; intros l; [done..|]. rewrite run_cons. by rewrite IH.
Qed.

Lemma run_wide l ops : wide l -> wide (run l ops).
Proof.
  revert l. induction ops as [|o ops IH]; intros l Hl; [done|]. rewrite run_cons. apply IH.
  unfold wide, len in *. destruct o; cbn; [done|]. by rewrite length_insert.
Qed.

(** A write that is under way shows no time. *)
Lemma run_partial e l done ops :
  goodTag e -> entryOps e = done ++ ops -> done <> [] -> ops <> [] -> timeNs (run l done) = 0.
Proof.
  intros Ht Hd Hne1 Hne2. destruct (entryOps_shape e Ht) as (mid & Hs & Hm). rewrite Hs in Hd.
  destruct done as [|o done]; [done|]. injection Hd as <- Hd.
  destruct ops as [|o ops _] using rev_ind; [done|].
  rewrite app_assoc in Hd. apply app_inj_tail in Hd as [-> _]. apply Forall_app in Hm as [Hm _].
  rewrite run_cons, run_bytes by done. done.
Qed.

(** ** The memory and the history *)

(** [pend] has the writes that have their index and have not ended: their index
    and the stores they have left. *)
Record shared : Type := mkShared {
  sh_mem : logMem;
  sh_hist : list entry;
  sh_pend : gmap nat (Z * list memOp)
}.

Definition settled (hist : list entry) (l : logLine) : Prop :=
  l = blankLine \/ exists e, e ∈ hist /\ l = entryLine e.

Record Inv (s : shared) : Prop := mkInv {
  inv_next : nextIndex (sh_mem s) = Z.of_nat (length (sh_hist s)) mod 2 ^ 32;
  inv_len : Z.of_nat (length (lines (sh_mem s))) = maxLines;
  inv_tags : Forall goodTag (sh_hist s);
  inv_pend : forall k idx ops, sh_pend s !! k = Some (idx, ops) ->
    idx = Z.of_nat k mod 2 ^ 32 /\ Z.of_nat (length (sh_hist s)) <= Z.of_nat k + maxLines
    /\ exists e stored prev, sh_hist s !! k = Some e /\ entryOps e = stored ++ ops /\ settled (sh_hist s) prev
       /\ lines (sh_mem s) !! slot (Z.of_nat k) = Some (run prev stored);
  inv_done : forall k e, sh_hist s !! k = Some e -> Z.of_nat (length (sh_hist s)) <= Z.of_nat k + maxLines ->
    sh_pend s !! k = None -> lines (sh_mem s) !! slot (Z.of_nat k) = Some (entryLine e);
  inv_blank : forall j, Z.of_nat j < maxLines -> (length (sh_hist s) <= j)%nat ->
    lines (sh_mem s) !! j = Some blankLine
}.

Lemma slot_wrap i : slot (i mod 2 ^ 32) = slot i.
Proof. unfold slot. f_equal. apply Z.mod_mod_divide. by exists (2 ^ 21). Qed.

Lemma slot_range i : Z.of_nat (slot i) = i mod maxLines.
Proof. unfold slot. rewrite Z2Nat.id; [done|]. apply Z.mod_pos_bound. done. Qed.

(** Two writes of one window have different lines. *)
Lemma slot_inj a b : slot a = slot b -> a <= b < a + maxLines -> a = b.
Proof.
  intros H Hw. apply (f_equal Z.of_nat) in H. rewrite !slot_range in H. unfold maxLines in *.
  pose proof (Z.div_mod a 2048). pose proof (Z.div_mod b 2048). lia.
Qed.

Lemma entryLine_wide e : goodTag e -> wide (entryLine e).
Proof.
  intros Ht. pose proof (fit_bound e Ht) as Hb. unfold wide, entryLine, entryText, len in *. cbn [line].
  rewrite length_app, length_replicate. rewrite !length_app. cbn [length str]. unfold maxLogLineLength in *. cbn. lia.
Qed.

Lemma blankLine_wide : wide blankLine.
Proof. unfold wide, len, blankLine. cbn [line]. by rewrite length_replicate. Qed.

Lemma settled_wide hist l : Forall goodTag hist -> settled hist l -> wide l.
Proof.
  intros Hg [-> | (e & He & ->)]; [exact blankLine_wide|]. apply entryLine_wide. by eapply Forall_forall.
Qed.

Lemma settled_more hist e l : settled hist l -> settled (hist ++ [e]) l.
Proof. intros [-> | (e' & He & ->)]; [by left|]. right. exists e'. split; [set_solver | done]. Qed.

(** The line the next write gets: blank, or that of the write it replaces. *)
Lemma next_settled mem hist pend :
  Inv (mkShared mem hist pend) ->
  (forall k p, pend !! k = Some p -> Z.of_nat (length hist) < Z.of_nat k + maxLines) ->
  exists l, lines mem !! slot (Z.of_nat (length hist)) = Some l /\ settled hist l.
Proof.
  intros HI Hg. destruct HI as [Hn Hl Ht Hp Hd Hb]. cbn in *.
  destruct (Z.ltb_spec (Z.of_nat (length hist)) maxLines) as [Hlt|Hge].
  - exists blankLine. split; [|by left]. unfold slot. rewrite Z.mod_small by lia. rewrite Nat2Z.id. apply Hb; lia.
  - assert (Hk : (length hist - Z.to_nat maxLines < length hist)%nat) by (unfold maxLines in *; lia).
    apply lookup_lt_is_Some in Hk as [e He]. exists (entryLine e). split; [|right; exists e; split; [by eapply list_elem_of_lookup_2 | done]].
    rewrite <- (Hd _ _ He).
    + f_equal. unfold slot. f_equal. rewrite Nat2Z.inj_sub by lia. rewrite Z2Nat.id by done.
      rewrite <- (Z_mod_plus_full _ (-1)). f_equal; lia.
    + rewrite Nat2Z.inj_sub by lia. lia.
    + destruct (pend !! _) as [p|] eqn:E; [|done]. apply Hg in E. lia.
Qed.

(** ** Interleaved writers *)

(** Any number of writers at once, one store at a time. A write begins with its
    fetch_add; fewer than [maxLines] writes begin while another is under way
    (the race that WriteWithTimestamp documents). *)
Inductive sstep : shared -> shared -> Prop :=
  | step_begin mem hist pend e :
      goodTag e ->
      (forall k p, pend !! k = Some p -> Z.of_nat (length hist) < Z.of_nat k + maxLines) ->
      sstep (mkShared mem hist pend)
            (mkShared (fetchAdd mem).2 (hist ++ [e]) (<[length hist := ((fetchAdd mem).1, entryOps e)]> pend))
  | step_store mem hist pend k idx o ops :
      pend !! k = Some (idx, o :: ops) ->
      sstep (mkShared mem hist pend) (mkShared (storeLine mem idx [o]) hist (<[k := (idx, ops)]> pend))
  | step_end mem hist pend k idx :
      pend !! k = Some (idx, []) -> sstep (mkShared mem hist pend) (mkShared mem hist (delete k pend)).

Lemma Inv_begin mem hist pend e :
  Inv (mkShared mem hist pend) -> goodTag e ->
  (forall k p, pend !! k = Some p -> Z.of_nat (length hist) < Z.of_nat k + maxLines) ->
  Inv (mkShared (fetchAdd mem).2 (hist ++ [e]) (<[length hist := ((fetchAdd mem).1, entryOps e)]> pend)).
Proof.
  intros HI He Hg. destruct (next_settled _ _ _ HI Hg) as (l & Hl & Hs). destruct HI as [Hn Hlen Ht Hp Hd Hb]. cbn in *.
  split; cbn [sh_mem sh_hist sh_pend fetchAdd fst snd nextIndex lines]; rewrite ?length_app; cbn [length].
  - rewrite Hn, Zplus_mod_idemp_l. f_equal. lia.
  - exact Hlen.
  - apply Forall_app_2; [done|]. by constructor.
  - intros k idx ops. rewrite lookup_insert_Some. intros [[<- [= <- <-]] | [Hk Hops]].
    + split_and!; [|unfold maxLines; lia|].
      * rewrite Zminus_mod_idemp_l, Z.add_simpl_r, Hn. by rewrite Zmod_mod.
      * exists e, [], l. split_and!; [by apply list_lookup_middle | done | by apply settled_more | exact Hl].
    + pose proof (Hg _ _ Hops). apply Hp in Hops as (Hidx & Hw & e' & stored & prev & H1 & H2 & H3 & H4).
      split_and!; [done | lia|]. exists e', stored, prev. split_and!; [by apply lookup_app_l_Some | done | by apply settled_more | done].
  - intros k e' Hk Hw. rewrite lookup_insert_None. intros [Hpk Hne]. apply lookup_snoc_Some in Hk as [[Hk He'] | [-> _]]; [|done].
    apply Hd; [done | lia | done].
  - intros j Hj Hjl. apply Hb; lia.
Qed.

Lemma Inv_store mem hist pend k idx o ops :
  Inv (mkShared mem hist pend) -> pend !! k = Some (idx, o :: ops) ->
  Inv (mkShared (storeLine mem idx [o]) hist (<[k := (idx, ops)]> pend)).
Proof.
  intros [Hn Hlen Ht Hp Hd Hb] Hk. cbn in *.
  destruct (Hp _ _ _ Hk) as (-> & Hw & e & stored & prev & He & Hops & Hs & Hl). pose proof (lookup_lt_Some _ _ _ He) as Hlt.
  assert (Hother : forall k' l, k' <> k -> (k' < length hist)%nat -> Z.of_nat (length hist) <= Z.of_nat k' + maxLines ->
      lines mem !! slot (Z.of_nat k') = Some l ->
      lines (storeLine mem (Z.of_nat k mod 2 ^ 32) [o]) !! slot (Z.of_nat k') = Some l).
  { intros k' l Hne Hlt' Hw' Hl'. cbn. rewrite slot_wrap, list_lookup_alter_ne; [done|]. intros Heq.
    destruct (Z.le_gt_cases (Z.of_nat k) (Z.of_nat k')); [pose proof (slot_inj _ _ Heq) | pose proof (slot_inj _ _ (eq_sym Heq))]; lia. }
  split; cbn [sh_mem sh_hist sh_pend nextIndex storeLine lines] in *.
  - done.
  - by rewrite length_alter.
  - done.
  - intros k' idx' ops'. rewrite lookup_insert_Some. intros [[<- [= <- <-]] | [Hne Hk']].
    + split_and!; [done..|]. exists e, (stored ++ [o]), prev.
      split_and!; [done | by rewrite <- app_assoc | done|]. rewrite slot_wrap, list_lookup_alter_eq, Hl. cbn. by rewrite run_app.
    + destruct (Hp _ _ _ Hk') as (-> & Hw' & e' & stored' & prev' & He' & Hops' & Hs' & Hl').
      split_and!; [done..|]. exists e', stored', prev'. split_and!; [done..|].
      apply Hother; [done | by eapply lookup_lt_Some | done | done].
  - intros k' e' He' Hw'. rewrite lookup_insert_None. intros [Hpk Hne].
    apply Hother; [done | by eapply lookup_lt_Some | done | by apply Hd].
  - intros j Hj Hjl. rewrite slot_wrap, list_lookup_alter_ne; [by apply Hb|]. intros Heq. subst j.
    rewrite slot_range in Hj. apply Nat2Z.inj_le in Hjl. rewrite slot_range in Hjl.
    pose proof (Z.mod_le (Z.of_nat k) maxLines). unfold maxLines in *. lia.
Qed.

Lemma Inv_end mem hist pend k idx :
  Inv (mkShared mem hist pend) -> pend !! k = Some (idx, []) -> Inv (mkShared mem hist (delete k pend)).
Proof.
  intros [Hn Hlen Ht Hp Hd Hb] Hk. cbn in *. split; cbn [sh_mem sh_hist sh_pend]; try done.
  - intros k' idx' ops'. rewrite lookup_delete_Some. intros [_ Hk']. by apply Hp.
  - intros k' e' He' Hw'. rewrite lookup_delete_None. intros [<- | Hnone]; [|by apply Hd].
    destruct (Hp _ _ _ Hk) as (_ & _ & e & stored & prev & He & Hops & Hs & Hl). rewrite app_nil_r in Hops.
    rewrite He in He'. injection He' as <-. rewrite Hl, <- Hops, run_entryOps; [done | by eapply Forall_lookup_1 | by eapply settled_wide].
Qed.

Lemma Inv_step s s' : Inv s -> sstep s s' -> Inv s'.
Proof. intros HI Hs. inv Hs; [by apply Inv_begin | by eapply Inv_store | by eapply Inv_end]. Qed.

Lemma Inv_blank : Inv (mkShared blankMem [] ∅).
Proof.
  split; cbn [sh_mem sh_hist sh_pend nextIndex blankMem lines length].
  - reflexivity.
  - by rewrite length_replicate.
  - constructor.
  - intros k idx ops. by rewrite lookup_empty.
  - intros k e. by rewrite lookup_nil.
  - intros j Hj _. apply lookup_replicate_2. unfold maxLines in *. lia.
Qed.

Lemma Inv_reachable s s' : Inv s -> rtc sstep s s' -> Inv s'.
Proof. intros HI Hs. induction Hs; [done|]. by eauto using Inv_step. Qed.

(** The write that a line belongs to. *)
Lemma slot_owner (j n : nat) :
  Z.of_nat j < maxLines -> (j < n)%nat -> exists k, (k < n)%nat /\ Z.of_nat n <= Z.of_nat k + maxLines /\ slot (Z.of_nat k) = j.
Proof.
  intros Hj Hn. set (q := (Z.of_nat n - 1 - Z.of_nat j) / maxLines).
  assert (Hq : maxLines * q <= Z.of_nat n - 1 - Z.of_nat j < maxLines * (q + 1)).
  { pose proof (Z.div_mod (Z.of_nat n - 1 - Z.of_nat j) maxLines). pose proof (Z.mod_pos_bound (Z.of_nat n - 1 - Z.of_nat j) maxLines).
    subst q. unfold maxLines in *. lia. }
  exists (Z.to_nat (Z.of_nat j + maxLines * q)). unfold maxLines in *. assert (0 <= q) by (subst q; apply Z.div_pos; lia).
  split_and!; [lia..|]. unfold slot, maxLines. rewrite Z2Nat.id by lia. rewrite Z.mul_comm, Z_mod_plus_full, Z.mod_small by lia. lia.
Qed.

(** C28: In every interleaving of writers, store by store, with fewer than
    [maxLines] writes begun while one is under way: a line of the memory that
    shows a time holds the whole text of one write, with its own time; no reader
    sees a line that is part one write and part another. *)
Theorem ring_snapshots s j l :
  rtc sstep (mkShared blankMem [] ∅) s ->
  lines (sh_mem s) !! j = Some l -> timeNs l <> 0 -> exists e, e ∈ sh_hist s /\ l = entryLine e.
Proof.
  intros Hr Hl Ht. apply (Inv_reachable _ _ Inv_blank) in Hr. destruct s as [mem hist pend], Hr as [Hn Hlen Htag Hp Hd Hb]. cbn in *.
  assert (Hset : settled hist l -> exists e, e ∈ hist /\ l = entryLine e) by (intros [-> | ?]; done).
  pose proof (lookup_lt_Some _ _ _ Hl) as Hj. assert (Hj' : Z.of_nat j < maxLines) by lia.
  destruct (decide (j < length hist)%nat) as [Hjh|Hjh]; [|apply Hset; left; rewrite Hb in Hl by lia; by injection Hl].
  destruct (slot_owner j (length hist) Hj' Hjh) as (k & Hk & Hw & <-).
  destruct (lookup_lt_is_Some_2 _ _ Hk) as [e He]. apply Hset.
  assert (Hwhole : settled hist (entryLine e)) by (right; exists e; split; [by eapply list_elem_of_lookup_2 | done]).
  destruct (pend !! k) as [[idx ops]|] eqn:Ep; [|by rewrite (Hd _ _ He Hw Ep) in Hl; injection Hl as <-].
  destruct (Hp _ _ _ Ep) as (_ & _ & e' & stored & prev & He' & Hops & Hs & Hl').
  rewrite Hl in Hl'. injection Hl' as ->. rewrite He in He'. injection He' as <-.
  assert (Hg : goodTag e) by by eapply Forall_lookup_1.
  destruct stored as [|o stored]; [exact Hs|]. destruct ops as [|o' ops].
  - rewrite app_nil_r in Hops. rewrite <- Hops, run_entryOps; [done..| by eapply settled_wide].
  - exfalso. apply Ht. by eapply run_partial.
Qed.

(** ** Writes one after the other *)

(** The memory [mem] holds the history [hist]. *)
Definition Rep (mem : logMem) (hist : list entry) : Prop := Inv (mkShared mem hist ∅).

(** What Write makes an entry of: text without blanks around it. *)
Definition goodEntry (e : entry) : Prop :=
  goodTag e /\ TrimSpace (en_text e) = en_text e /\ en_text e <> [].

(** One call of WriteWithTimestamp on the memory. *)
Definition written (mem : logMem) (e : entry) : logMem :=
  default mem (log (WriteWithTimestamp (mkRing (en_tag e) None 0 (Some mem) false) (en_text e) (en_ts e)).2).

Lemma written_entry mem e :
  goodEntry e -> written mem e = storeLine (fetchAdd mem).2 (fetchAdd mem).1 (entryOps e).
Proof.
  intros (Ht & Htrim & Hne). unfold written, WriteWithTimestamp. cbn [readOnly log tag]. rewrite Htrim.
  destruct (Z.eqb_spec (len (en_text e)) 0) as [H0|]; [|done].
  exfalso. unfold len in H0. by destruct (en_text e).
Qed.

Lemma storeLine_cons mem idx o ops : storeLine mem idx (o :: ops) = storeLine (storeLine mem idx [o]) idx ops.
Proof.
  unfold storeLine. cbn [lm_magic nextIndex lines]. f_equal. apply list_eq. intros j.
  destruct (decide (slot idx = j)) as [<- | Hne].
  - rewrite !list_lookup_alter_eq. by destruct (lines mem !! slot idx).
  - by rewrite !list_lookup_alter_ne.
Qed.

Lemma stores_steps ops mem hist pend k idx :
  rtc sstep (mkShared mem hist (<[k := (idx, ops)]> pend)) (mkShared (storeLine mem idx ops) hist (<[k := (idx, [])]> pend)).
Proof.
  revert mem. induction ops as [|o ops IH]; intros mem.
  - replace (storeLine mem idx []) with mem; [apply rtc_refl|]. destruct mem as [g n ls]. unfold storeLine. cbn. f_equal.
    symmetry. apply list_alter_id. done.
  - rewrite storeLine_cons. eapply rtc_l; [eapply step_store; by rewrite lookup_insert_eq|]. rewrite insert_insert_eq. apply IH.
Qed.

(** A whole call is a run of the interleaved machine with one writer. *)
Lemma written_steps mem hist e :
  goodEntry e -> rtc sstep (mkShared mem hist ∅) (mkShared (written mem e) (hist ++ [e]) ∅).
Proof.
  intros He. rewrite written_entry by done. eapply rtc_l.
  { apply step_begin with (e := e); [apply He|]. intros k p. by rewrite lookup_empty. }
  etrans; [apply stores_steps|]. apply rtc_once.
  pose proof (step_end (storeLine (fetchAdd mem).2 (fetchAdd mem).1 (entryOps e)) (hist ++ [e])
                (<[length hist := ((fetchAdd mem).1, [])]> ∅) (length hist) (fetchAdd mem).1) as H.
  rewrite delete_insert_id in H by apply lookup_empty. apply H. by rewrite lookup_insert_eq.
Qed.

Lemma Rep_written mem hist e : Rep mem hist -> goodEntry e -> Rep (written mem e) (hist ++ [e]).
Proof. intros HR He. eapply Inv_reachable; [exact HR | by apply written_steps]. Qed.

Lemma Rep_writes es mem hist : Rep mem hist -> Forall goodEntry es -> Rep (foldl written mem es) (hist ++ es).
Proof.
  revert mem hist. induction es as [|e es IH]; intros mem hist HR Hes; cbn [foldl]; [by rewrite app_nil_r|].
  inv Hes. replace (hist ++ e :: es) with ((hist ++ [e]) ++ es) by by rewrite <- app_assoc.
  apply IH; [by apply Rep_written | done].
Qed.

(** A history determines the memory that holds it. *)
Lemma Rep_unique m1 m2 hist : Rep m1 hist -> Rep m2 hist -> lm_magic m1 = lm_magic m2 -> m1 = m2.
Proof.
  intros [Hn1 Hl1 Ht1 _ Hd1 Hb1] [Hn2 Hl2 _ _ Hd2 Hb2] Hm. destruct m1 as [g1 n1 l1], m2 as [g2 n2 l2]. cbn in *. subst g2 n1 n2.
  f_equal. apply list_eq_same_length with (n := length l1); [lia..|]. intros j x y Hj Hx Hy.
  destruct (decide (j < length hist)%nat) as [Hjh|Hjh].
  - destruct (slot_owner j (length hist)) as (k & Hk & Hw & <-); [lia | done|].
    destruct (lookup_lt_is_Some_2 _ _ Hk) as [e He].
    rewrite (Hd1 _ _ He Hw (lookup_empty k)) in Hx. rewrite (Hd2 _ _ He Hw (lookup_empty k)) in Hy. congruence.
  - rewrite (Hb1 j) in Hx by lia. rewrite (Hb2 j) in Hy by lia. congruence.
Qed.

Lemma magic_steps s s' : rtc sstep s s' -> lm_magic (sh_mem s') = lm_magic (sh_mem s).
Proof. intros H. induction H as [|s s1 s2 Hs _ IH]; [done|]. rewrite IH. by inv Hs. Qed.

(** C27: Once no write is under way, any interleaving of writers has left the very
    memory that calling WriteWithTimestamp for the same entries leaves, one call
    after the other, in the order of their fetch_adds. *)
Theorem ring_linearizable mem hist :
  rtc sstep (mkShared blankMem [] ∅) (mkShared mem hist ∅) -> Forall goodEntry hist ->
  mem = foldl written blankMem hist.
Proof.
  intros Hr Hg. apply (Rep_unique _ _ hist).
  - eapply Inv_reachable; [exact Inv_blank | exact Hr].
  - exact (Rep_writes hist blankMem [] Inv_blank Hg).
  - apply magic_steps in Hr. etrans; [exact Hr|]. cbn [sh_mem]. clear. generalize blankMem as m.
    induction hist as [|e hist IH]; intros m; cbn [foldl]; [done|]. rewrite <- IH.
    unfold written, WriteWithTimestamp. cbn. by destruct (_ =? 0).
Qed.
