(* ===== verification/RingReaders.v ===== *)
(** * The readers of the log, and what the runtime prints into it *)

From S2P Require Import Prelude GoStrings GoNum Ringlogger RingTheorems.
Import Ringlogger.
Local Open Scope Z_scope.

(** ** What a line shows *)

(** A text up to its first NUL byte. *)
Fixpoint cstring (s : gostring) : gostring :=
  match s with
  | [] => []
  | c :: s' => if Ascii.eqb c NUL then [] else c :: cstring s'
  end.

Lemma IndexByte_cstring s rest : IndexByte (s ++ NUL :: rest) NUL = Some (length (cstring s)).
Proof. induction s as [|c s IH]; cbn; [done|]. destruct (Ascii.eqb c NUL); [done|]. by rewrite IH. Qed.

Lemma take_cstring s rest : take (length (cstring s)) (s ++ rest) = cstring s.
Proof. induction s as [|c s IH]; cbn; [done|]. destruct (Ascii.eqb c NUL); [done|]. cbn. by rewrite IH. Qed.

Lemma lineText_entry e : goodTag e -> lineText (entryLine e) = Some (cstring (entryText e)).
Proof.
  intros Ht. pose proof (fit_bound e Ht) as Hb. unfold lineText, entryLine. cbn [line].
  set (n := (_ - _)%nat). assert (Hn : (0 < n)%nat).
  { subst n. unfold entryText, len, maxLogLineLength in *. rewrite !length_app. cbn [length str]. cbn. lia. }
  destruct n as [|n]; [lia|]. cbn [replicate]. rewrite IndexByte_cstring.
  assert (Hc : exists t, cstring (entryText e) = "["%char :: t) by by eexists.
  destruct Hc as [t Hc]. rewrite <- take_cstring with (rest := NUL :: replicate n NUL) (s := entryText e) at 2.
  by rewrite Hc.
Qed.

(** The line of the follower for an entry. *)
Definition shownLine (e : entry) : FollowLine := mkFollow (cstring (entryText e)) (en_ts e).

(** ** The window of the ring *)

(** The last [n] elements. *)
Definition lastn {A} (n : nat) (l : list A) : list A := drop (length l - n) l.

(** Looking [d] writes back. *)
Lemma lineAt_entry mem hist k e :
  Rep mem hist -> hist !! k = Some e -> Z.of_nat (length hist) <= Z.of_nat k + maxLines ->
  forall i, i mod maxLines = Z.of_nat k mod maxLines -> lineAt mem i = entryLine e.
Proof.
  intros HR He Hw i Hi. unfold lineAt, slot. rewrite Hi. pose proof (inv_done _ HR k e He Hw (lookup_empty k)) as H.
  cbn in H. unfold slot in H. by rewrite H.
Qed.

Lemma lineAt_blank mem hist i :
  Rep mem hist -> Z.of_nat (length hist) <= i mod maxLines -> lineAt mem i = blankLine.
Proof.
  intros HR Hi. unfold lineAt. pose proof (slot_range i). pose proof (Z.mod_pos_bound i maxLines).
  pose proof (inv_blank _ HR (slot i)) as H1. cbn in H1. rewrite H1; [done | unfold maxLines in *; lia | lia].
Qed.

(** The line [l] places after the next one to be written. *)
Lemma lineAt_window mem hist (l : Z) :
  Rep mem hist -> 0 <= l < maxLines ->
  forall i, i mod maxLines = (Z.of_nat (length hist) + l) mod maxLines ->
  lineAt mem i = match hist !! Z.to_nat (Z.of_nat (length hist) + l - maxLines) with
                 | Some e => if Z.of_nat (length hist) + l <? maxLines then blankLine else entryLine e
                 | None => blankLine
                 end.
Proof.
  intros HR Hl i Hi. destruct (Z.ltb_spec (Z.of_nat (length hist) + l) maxLines) as [Hlt|Hge].
  - rewrite (lineAt_blank mem hist) by (done || rewrite Hi, Z.mod_small; lia). by case_match.
  - destruct (lookup_lt_is_Some_2 hist (Z.to_nat (Z.of_nat (length hist) + l - maxLines))) as [e He]; [lia|].
    rewrite He. apply (lineAt_entry mem hist (Z.to_nat (Z.of_nat (length hist) + l - maxLines)) e HR He); [lia|].
    rewrite Z2Nat.id by lia. rewrite Hi, <- (Z_mod_plus_full _ (-1)). f_equal; lia.
Qed.

Lemma index_mod a l : ((a mod 2 ^ 32 + l) mod 2 ^ 32) mod maxLines = (a + l) mod maxLines.
Proof. rewrite Zplus_mod_idemp_l. apply Z.mod_mod_divide. by exists (2 ^ 21). Qed.

Lemma succ_mod i a : i mod maxLines = a mod maxLines -> ((i + 1) mod 2 ^ 32) mod maxLines = (a + 1) mod maxLines.
Proof.
  intros H. rewrite Z.mod_mod_divide by by exists (2 ^ 21). rewrite <- Zplus_mod_idemp_l, H. apply Zplus_mod_idemp_l.
Qed.

Lemma Rep_next mem hist : Rep mem hist -> nextIndex mem = Z.of_nat (length hist) mod 2 ^ 32.
Proof. apply inv_next. Qed.

(** The first line of the end of the history. *)
Lemma lineAt_suffix mem pre e es i :
  Rep mem (pre ++ e :: es) -> (length (e :: es) <= Z.to_nat maxLines)%nat ->
  i mod maxLines = Z.of_nat (length pre) mod maxLines -> lineAt mem i = entryLine e /\ goodTag e.
Proof.
  intros HR Hl Hi. split.
  - apply (lineAt_entry mem (pre ++ e :: es) (length pre)); [done | by apply list_lookup_middle | | done].
    rewrite length_app. unfold maxLines in *. lia.
  - pose proof (inv_tags _ HR) as Ht. cbn in Ht. apply Forall_app in Ht as [_ Ht]. by inv Ht.
Qed.

(** ** WriteTo *)

Section WriteTo.
Context {O : Type} (out_Write : gostring -> O -> (Z * option goerr) * O) (formatTime : Z -> gostring).

(** Writing texts until one fails, with the bytes written before it. *)
Fixpoint writeAll (texts : list gostring) (n : Z) (o : O) : (Z * option goerr) * O :=
  match texts with
  | [] => ((n, None), o)
  | t :: texts' =>
      match out_Write t o with
      | ((_, Some e), o) => ((n, Some e), o)
      | ((bytes, None), o) => writeAll texts' (n + bytes) o
      end
  end.

Definition printed (e : entry) : gostring := printLine formatTime (cstring (entryText e)) (en_ts e).

(** The entries a reader can see: time 0 marks a line without one. *)
Definition visible (es : list entry) : list entry := filter (fun e => en_ts e <> 0) es.

Lemma writeTo_blanks mem i ls ls' n o :
  Forall (fun l => lineAt mem ((i + l) mod 2 ^ 32) = blankLine) ls ->
  writeToLoop out_Write formatTime mem i (ls ++ ls') n o = writeToLoop out_Write formatTime mem i ls' n o.
Proof. intros H. induction H as [|l ls Hl _ IH]; [done|]. cbn [app writeToLoop]. by rewrite Hl, IH. Qed.

Lemma writeTo_entries mem pre es n o :
  Rep mem (pre ++ es) -> (length es <= Z.to_nat maxLines)%nat ->
  writeToLoop out_Write formatTime mem (nextIndex mem) (seqZ (maxLines - Z.of_nat (length es)) (Z.of_nat (length es))) n o
  = writeAll (map printed (visible es)) n o.
Proof.
  revert pre n o. induction es as [|e es IH]; intros pre n o HR Hl; [done|].
  rewrite seqZ_cons by (cbn; lia). cbn [writeToLoop].
  destruct (lineAt_suffix mem pre e es ((nextIndex mem + (maxLines - Z.of_nat (length (e :: es)))) mod 2 ^ 32) HR Hl) as [He Ht].
  { rewrite (Rep_next _ _ HR), index_mod, length_app.
    rewrite <- (Z_mod_plus_full (Z.of_nat (length pre)) 1). f_equal; lia. }
  assert (HR' : Rep mem ((pre ++ [e]) ++ es)) by by rewrite <- app_assoc.
  replace (Z.succ (maxLines - Z.of_nat (length (e :: es)))) with (maxLines - Z.of_nat (length es)) by (cbn; lia).
  replace (Z.pred (Z.of_nat (length (e :: es)))) with (Z.of_nat (length es)) by (cbn; lia).
  rewrite He. change (timeNs (entryLine e)) with (en_ts e). unfold visible. rewrite filter_cons.
  destruct (Z.eqb_spec (en_ts e) 0) as [H0|H0].
  - rewrite decide_False by by intros []. apply (IH (pre ++ [e])); [done | cbn in Hl; lia].
  - rewrite decide_True by done. rewrite lineText_entry by done. cbn [map writeAll].
    change (printLine formatTime (cstring (entryText e)) (en_ts e)) with (printed e).
    destruct (out_Write (printed e) o) as [[bytes [er|]] o']; [done|].
    apply (IH (pre ++ [e])); [done | cbn in Hl; lia].
Qed.

(** WriteTo writes the newest [maxLines] lines of the log, oldest first, each
    with its time, and returns the bytes written; it stops at the first error of
    the writer. *)
Theorem WriteTo_spec rl mem hist o :
  log rl = Some mem -> Rep mem hist ->
  WriteTo out_Write formatTime rl o = writeAll (map printed (visible (lastn (Z.to_nat maxLines) hist))) 0 o.
Proof.
  intros Hlog HR. unfold WriteTo. rewrite Hlog. set (es := lastn (Z.to_nat maxLines) hist).
  assert (Hh : hist = take (length hist - Z.to_nat maxLines) hist ++ es) by (symmetry; apply take_drop).
  assert (Hes : Z.of_nat (length es) = Z.min (Z.of_nat (length hist)) maxLines).
  { subst es. unfold lastn. rewrite length_drop. unfold maxLines. lia. }
  replace (seqZ 0 maxLines) with (seqZ 0 (maxLines - Z.of_nat (length es)) ++ seqZ (maxLines - Z.of_nat (length es)) (Z.of_nat (length es))).
  2:{ replace maxLines with (maxLines - Z.of_nat (length es) + Z.of_nat (length es)) at 3 by lia.
      rewrite seqZ_app by lia. by rewrite Z.add_0_l. }
  rewrite writeTo_blanks.
  - rewrite Hh in HR. apply (writeTo_entries mem _ es 0 o HR). lia.
  - apply Forall_seqZ. intros l Hl. rewrite (lineAt_window mem hist l HR) by (lia || rewrite (Rep_next _ _ HR); apply index_mod).
    case_match; [|done]. rewrite (proj2 (Z.ltb_lt _ _)) by lia. done.
Qed.
End WriteTo.

(** ** FollowFromCursor *)

(** The cursor of a follower that has seen all of [hist]. *)
Definition cursorOf (hist : list entry) : Z :=
  match hist with [] => CursorAll | _ :: _ => Z.of_nat (length hist) mod maxLines end.

Definition timed (es : list entry) : Prop := Forall (fun e => en_ts e <> 0) es.

Lemma CursorAll_high i : (i mod maxLines =? CursorAll) = false.
Proof. apply Z.eqb_neq. pose proof (Z.mod_pos_bound i maxLines). unfold CursorAll, maxLines in *. lia. Qed.

Lemma follow_blanks mem next m k i nc acc :
  (forall l, 0 <= l < Z.of_nat m -> lineAt mem ((i + l) mod 2 ^ 32) = blankLine) -> 0 <= i < 2 ^ 32 ->
  followLoop mem CursorAll next (m + k) i nc acc = followLoop mem CursorAll next k ((i + Z.of_nat m) mod 2 ^ 32) nc acc.
Proof.
  revert i. induction m as [|m IH]; intros i Hb Hi.
  - by rewrite Z.add_0_r, Z.mod_small.
  - cbn [Nat.add followLoop]. pose proof (Hb 0) as H0. rewrite Z.add_0_r, Z.mod_small in H0 by done. rewrite H0 by lia.
    cbn [timeNs blankLine Z.eqb negb andb]. rewrite IH.
    + rewrite Zplus_mod_idemp_l. f_equal. f_equal. lia.
    + intros l Hl. rewrite Zplus_mod_idemp_l, <- Z.add_assoc. apply Hb. lia.
    + apply Z.mod_pos_bound. done.
Qed.

(** The rounds that read the end of the history. *)
Lemma follow_entries mem cursor pre es n i nc acc :
  Rep mem (pre ++ es) -> timed es -> (length es <= Z.to_nat maxLines)%nat ->
  i mod maxLines = Z.of_nat (length pre) mod maxLines ->
  (cursor = CursorAll /\ n = length es \/ cursor <> CursorAll /\ (length es < Z.to_nat maxLines)%nat /\ (length es < n)%nat) ->
  followLoop mem cursor (nextIndex mem) n i nc acc
  = (acc ++ map shownLine es, match es with [] => nc | _ :: _ => Z.of_nat (length (pre ++ es)) mod maxLines end).
Proof.
  revert pre n i nc acc. induction es as [|e es IH]; intros pre n i nc acc HR Ht Hl Hi Hn.
  - cbn [map]. rewrite app_nil_r. destruct Hn as [[-> ->] | (Hc & _ & Hn)]; [done|].
    destruct n as [|n]; [cbn in Hn; lia|]. cbn [followLoop]. rewrite (proj2 (Z.eqb_neq _ _) Hc). cbn [negb andb].
    rewrite (Rep_next _ _ HR), Z.mod_mod_divide by by exists (2 ^ 21). rewrite app_nil_r, Hi, Z.eqb_refl. done.
  - destruct (lineAt_suffix mem pre e es i HR Hl Hi) as [He Htag]. inv Ht.
    assert (Hgo : negb (cursor =? CursorAll) && (i mod maxLines =? nextIndex mem mod maxLines) = false).
    { destruct Hn as [[-> _] | (_ & Hlt & _)]; [done|]. apply andb_false_intro2, Z.eqb_neq.
      rewrite (Rep_next _ _ HR), Z.mod_mod_divide, Hi, length_app by by exists (2 ^ 21). unfold maxLines in *.
      pose proof (Z.div_mod (Z.of_nat (length pre)) 2048). pose proof (Z.div_mod (Z.of_nat (length pre + length (e :: es))) 2048).
      cbn in *. lia. }
    destruct n as [|n]; [destruct Hn as [[_ Hn] | (_ & _ & Hn)]; cbn in Hn; lia|]. cbn [followLoop]. rewrite Hgo, He.
    change (timeNs (entryLine e)) with (en_ts e). rewrite (proj2 (Z.eqb_neq _ _)) by done. rewrite lineText_entry by done.
    assert (HR' : Rep mem ((pre ++ [e]) ++ es)) by by rewrite <- app_assoc.
    rewrite (IH (pre ++ [e])); [| done | done | cbn in Hl; lia | | cbn in Hn; destruct Hn as [[? ?] | (? & ? & ?)]; [left | right]; lia].
    + rewrite <- !app_assoc. cbn [app map]. f_equal. destruct es as [|e' es]; [|done].
      rewrite (succ_mod i _ Hi), length_app. cbn. f_equal. lia.
    + rewrite (succ_mod i _ Hi), length_app. cbn. f_equal. lia.
Qed.

Lemma follow_all mem hist :
  Rep mem hist -> timed hist ->
  followLoop mem CursorAll (nextIndex mem) (Z.to_nat maxLines) (nextIndex mem) CursorAll []
  = (map shownLine (lastn (Z.to_nat maxLines) hist), cursorOf hist).
Proof.
  intros HR Ht. set (es := lastn (Z.to_nat maxLines) hist).
  assert (Hh : hist = take (length hist - Z.to_nat maxLines) hist ++ es) by (symmetry; apply take_drop).
  assert (Hes : Z.of_nat (length es) = Z.min (Z.of_nat (length hist)) maxLines).
  { subst es. unfold lastn. rewrite length_drop. unfold maxLines. lia. }
  pose proof (Rep_next _ _ HR) as Hn.
  replace (Z.to_nat maxLines) with ((Z.to_nat maxLines - length es) + length es)%nat by lia.
  rewrite follow_blanks.
  - rewrite Hh in HR. rewrite (follow_entries mem CursorAll _ es _ _ _ _ HR); [| | lia | | by left].
    + cbn [app]. f_equal. rewrite <- Hh. unfold cursorOf. destruct es as [|e es'], hist as [|e0 hist']; cbn in Hes; try done; unfold maxLines in *; lia.
    + by apply Forall_drop.
    + rewrite Hn. rewrite index_mod, length_take, Nat2Z.inj_sub by lia. rewrite Z2Nat.id by done.
      destruct (Z.le_gt_cases (Z.of_nat (length hist)) maxLines).
      * replace (Z.of_nat (length hist) + _) with (0 + 1 * maxLines) by lia. rewrite Z_mod_plus_full. f_equal. lia.
      * replace (Z.of_nat (length hist) + _) with (Z.of_nat (length hist)) by lia.
        rewrite <- (Z_mod_plus_full _ (-1)). f_equal; unfold maxLines in *; lia.
  - intros l Hl. rewrite (lineAt_window mem hist l HR) by (lia || rewrite Hn; apply index_mod).
    case_match; [|done]. rewrite (proj2 (Z.ltb_lt _ _)) by lia. done.
  - rewrite Hn. apply Z.mod_pos_bound. done.
Qed.

Lemma follow_new mem hist new :
  Rep mem (hist ++ new) -> timed (hist ++ new) -> (length new < Z.to_nat maxLines)%nat ->
  forall rl, FollowFromCursor (withLog rl mem) (cursorOf hist) = (map shownLine new, cursorOf (hist ++ new)).
Proof.
  intros HR Ht Hl rl. unfold FollowFromCursor. cbn [log withLog]. destruct hist as [|e0 hist].
  - cbn [cursorOf app] in *. rewrite Z.eqb_refl, (follow_all mem new) by done. unfold lastn.
    by replace (length new - Z.to_nat maxLines)%nat with 0%nat by lia.
  - set (h := e0 :: hist) in *. assert (Hc : cursorOf h = Z.of_nat (length h) mod maxLines) by done.
    rewrite Hc, CursorAll_high. apply Forall_app in Ht as [_ Ht].
    rewrite (follow_entries mem _ h new _ _ _ _ HR); [| done | lia | apply Zmod_mod | right; split_and!; try lia].
    + cbn [app]. f_equal. destruct new as [|e new]; [|done]. by rewrite app_nil_r.
    + apply Z.eqb_neq, CursorAll_high.
Qed.

(** The memory at each poll: it holds the lines of the polls before and then
    [news], fewer than [maxLines] of them. *)
Inductive grows : list entry -> list logMem -> list (list entry) -> Prop :=
  | grows_nil hist : grows hist [] []
  | grows_cons hist mem new mems news :
      Rep mem (hist ++ new) -> timed (hist ++ new) -> (length new < Z.to_nat maxLines)%nat ->
      grows (hist ++ new) mems news -> grows hist (mem :: mems) (new :: news).

Section Follow.
Context (formatTime : Z -> gostring).

(** A writer that takes everything. *)
Definition collect (s : gostring) (o : gostring) : (Z * option goerr) * gostring := ((len s, None), o ++ s).

Lemma dumpItems_collect es o :
  dumpItems collect formatTime (map shownLine es) o = (None, o ++ concat (map (printed formatTime) es)).
Proof.
  revert o. induction es as [|e es IH]; intros o; cbn; [by rewrite app_nil_r|]. by rewrite IH, <- app_assoc.
Qed.

Lemma dumpFollow_new rl polls news hist o :
  grows hist polls news ->
  dumpFollow collect formatTime rl polls (cursorOf hist) o = (None, o ++ concat (map (printed formatTime) (concat news))).
Proof.
  intros H. revert o. induction H as [|hist mem new mems news HR Ht Hl _ IH]; intros o; cbn [dumpFollow concat].
  - cbn. by rewrite app_nil_r.
  - rewrite (follow_new mem hist new HR Ht Hl), dumpItems_collect, IH. by rewrite map_app, concat_app, app_assoc.
Qed.

(** C29: Following a log loses nothing and repeats nothing, provided that no write
    is under way when the log is polled ([Rep]: every line begun is complete),
    that every line has a time, and that fewer than [maxLines] lines are written
    between two polls: the dump then prints what the ring holds at first, oldest
    line first, and after that every line written since, once and in order. A poll
    in the middle of a write can repeat an old line and lose the new one, see
    [follow_race]. *)
Theorem dumpFollow_complete rl mem hist polls news o :
  Rep mem hist -> timed hist -> grows hist polls news ->
  dumpFollow collect formatTime rl (mem :: polls) CursorAll o
  = (None, o ++ concat (map (printed formatTime) (lastn (Z.to_nat maxLines) hist ++ concat news))).
Proof.
  intros HR Ht Hg. cbn [dumpFollow]. unfold FollowFromCursor. cbn [log withLog]. rewrite Z.eqb_refl, (follow_all mem hist HR Ht).
  rewrite dumpItems_collect, (dumpFollow_new rl polls news hist _ Hg). by rewrite map_app, concat_app, app_assoc.
Qed.
End Follow.

(** ** globalWrite *)

(** The bytes that wait in the buffer. *)
Definition waiting (g : globalState) : gostring := take (Z.to_nat (globalBufferLocation g)) (globalBuffer g).

Definition goodGlobal (g : globalState) : Prop :=
  len (globalBuffer g) = globalBufferSize /\ 0 <= globalBufferLocation g <= globalBufferSize.

Lemma copyAt_spec buffer off src :
  0 <= off -> off + len src <= len buffer ->
  take (Z.to_nat (off + len src)) (copyAt buffer off src) = take (Z.to_nat off) buffer ++ src
  /\ len (copyAt buffer off src) = len buffer.
Proof.
  intros H0 Hl. unfold copyAt, len in *. rewrite (take_ge src) by lia. split.
  - rewrite app_assoc, take_app_length'; [done|]. rewrite length_app, length_take. lia.
  - rewrite !length_app, length_take, length_drop. lia.
Qed.

(** One round loses no byte, and makes room if it takes none. *)
Lemma globalStep_spec g b b' g' w :
  goodGlobal g -> b <> [] -> globalStep g b = (b', g', w) ->
  goodGlobal g' /\ waiting g ++ b = default [] w ++ waiting g' ++ b'
  /\ (forall p, w = Some p -> len p <= globalBufferSize)
  /\ ((length b' < length b)%nat \/ length b' = length b /\ globalBufferLocation g = globalBufferSize /\ globalBufferLocation g' = 0).
Proof.
  intros [Hlen Hloc] Hne. unfold globalStep. set (n := Z.min (len b) (globalBufferSize - globalBufferLocation g)).
  assert (Hlb : 0 < len b) by (unfold len; destruct b; [done | cbn; lia]).
  assert (Hn : 0 <= n /\ n <= len b /\ n <= globalBufferSize - globalBufferLocation g) by (subst n; lia).
  assert (Hp : len (take (Z.to_nat n) b) = n) by (unfold len in *; rewrite length_take; lia).
  destruct (copyAt_spec (globalBuffer g) (globalBufferLocation g) (take (Z.to_nat n) b)) as [Hc1 Hc2]; [lia | rewrite Hp; lia|].
  rewrite Hp in Hc1. revert Hc1 Hc2. generalize (copyAt (globalBuffer g) (globalBufferLocation g) (take (Z.to_nat n) b)). intros buf Hc1 Hc2.
  assert (Hprog : (length (drop (Z.to_nat n) b) < length b)%nat \/ length (drop (Z.to_nat n) b) = length b
            /\ globalBufferLocation g = globalBufferSize /\ n = 0).
  { rewrite length_drop. unfold len in *. destruct (Z.eqb_spec n 0); [right; subst n|left]; lia. }
  assert (Hbytes : waiting g ++ b = take (Z.to_nat (globalBufferLocation g + n)) buf ++ drop (Z.to_nat n) b).
  { rewrite Hc1, <- app_assoc, take_drop. done. }
  destruct (_ || _) eqn:Ef; intros [= <- <- <-]; cbn [globalBufferLocation globalBuffer].
  - split_and!; [split; cbn; lia | by rewrite Hbytes | | ].
    + intros p [= <-]. unfold len. rewrite length_take. unfold len in *. lia.
    + destruct Hprog as [?|(?&?&?)]; [left | right]; auto.
  - apply orb_false_iff in Ef as [_ Ef]. apply Z.ltb_ge in Ef. split_and!; [split; cbn; lia | by rewrite Hbytes | done |].
    destruct Hprog as [?|(Hd & ?&?)]; [by left|]. exfalso. unfold len in *. rewrite Hd in Ef. lia.
Qed.

(** No piece is so long that Write would cut it. *)
Definition uncut (p : gostring) : Prop := forall tg, len tg <= maxTagLength -> fit tg (TrimSpace p) = TrimSpace p.

Lemma fit_piece p : len p <= globalBufferSize -> uncut p.
Proof.
  intros Hp tg Ht. unfold fit. destruct (TrimSpace_spec p) as [_ (q & r & Hq)]. apply (f_equal length) in Hq.
  rewrite !length_app in Hq. rewrite (proj2 (Z.ltb_ge _ _)); [done|].
  unfold globalBufferSize, maxTagLength, maxLogLineLength, len in *. lia.
Qed.

Lemma globalWrite_fuel fuel b g :
  goodGlobal g ->
  (2 * length b <= fuel)%nat \/ (2 * length b <= S fuel)%nat /\ globalBufferLocation g <> globalBufferSize ->
  exists g' ws, globalWrite fuel g b = Some (g', ws) /\ goodGlobal g' /\ waiting g ++ b = concat ws ++ waiting g'
  /\ Forall uncut ws.
Proof.
  revert b g. induction fuel as [|fuel IH]; intros b g Hg Hf;
    (destruct b as [|c b]; [exists g, []; rewrite app_nil_r; by split_and!|]); [cbn in Hf; lia|]. cbn [globalWrite].
  destruct (globalStep g (c :: b)) as [[b' g1] w] eqn:E. apply globalStep_spec in E as (Hg1 & Hb & Hw & Hp); [|done..].
  destruct (IH b' g1 Hg1) as (g' & ws & Hr & Hg' & Hb' & Hws).
  { destruct Hp as [Hp | (Hp & Hfull & Hz)]; [|right; split; [|rewrite Hz; done]]; destruct Hf as [Hf | [Hf Hnf]]; try lia. }
  rewrite Hr. eexists g', _. split_and!; [done.. | |].
  - rewrite Hb, Hb'. destruct w; cbn; [by rewrite app_assoc | done].
  - destruct w; [constructor; auto using fit_piece | done].
Qed.

(** GlobalWrite ends, after at most twice as many rounds as it has bytes, and
    loses none: what waited in the buffer and the bytes it was given are the
    pieces it passed to Write, in order, and what waits now; and no piece is so
    long that Write would cut it. *)
Theorem globalWrite_terminates g b :
  goodGlobal g -> exists g' ws, globalWrite (2 * length b) g b = Some (g', ws)
  /\ goodGlobal g' /\ waiting g ++ b = concat ws ++ waiting g' /\ Forall uncut ws.
Proof. intros Hg. apply globalWrite_fuel; auto. Qed.

(** ** Examples *)

Definition exampleEntry (text : string) (ts : Z) : entry := mkEntry (str "TUN") (str text) ts.
Definition entry1 : entry := exampleEntry "Starting" 11.
Definition entry2 : entry := exampleEntry "Shutting down" 22.

Lemma entries_good : Forall goodEntry [entry1; entry2].
Proof. repeat constructor; cbn; (lia || done || vm_compute; reflexivity). Qed.

Lemma entry1_written : Rep (written blankMem entry1) [entry1].
Proof. apply (Rep_written blankMem [] entry1 Inv_blank). pose proof entries_good as H. by inv H. Qed.

Lemma entries_written : Rep (written (written blankMem entry1) entry2) [entry1; entry2].
Proof. exact (Rep_writes [entry1; entry2] blankMem [] Inv_blank entries_good). Qed.

(** Two writers: the second takes its index before the first has stored, and
    ends before it. *)
Lemma interleaved_writers :
  exists mem, rtc sstep (mkShared blankMem [] ∅) (mkShared mem [entry1; entry2] ∅).
Proof.
  eexists. pose proof entries_good as Hg. inv Hg. inv select (Forall _ _).
  eapply rtc_l; [apply (step_begin _ [] ∅ entry1); [by destruct select (goodEntry entry1)|]; intros k p; by rewrite lookup_empty|].
  eapply rtc_l.
  { apply (step_begin _ [entry1] _ entry2); [by destruct select (goodEntry entry2)|]. intros k p. cbn. unfold maxLines. lia. }
  etrans; [apply stores_steps|]. eapply rtc_l; [eapply (step_end _ _ _ 1); apply lookup_insert_eq|].
  rewrite delete_insert_id by done.
  etrans; [apply stores_steps|]. eapply rtc_l; [eapply (step_end _ _ _ 0); apply lookup_insert_eq|].
  rewrite delete_insert_id by done. apply rtc_refl.
Qed.

Lemma ring_linearizable_witness :
  exists mem, rtc sstep (mkShared blankMem [] ∅) (mkShared mem [entry1; entry2] ∅)
              /\ mem = foldl written blankMem [entry1; entry2].
Proof.
  destruct interleaved_writers as [mem H]. exists mem. split; [exact H|].
  apply (ring_linearizable mem [entry1; entry2] H entries_good).
Defined.

Lemma ring_snapshots_witness :
  exists e, e ∈ [entry1] /\ lineAt (written blankMem entry1) 0 = entryLine e.
Proof.
  apply (ring_snapshots (mkShared (written blankMem entry1) [entry1] ∅) 0 (lineAt (written blankMem entry1) 0)).
  - apply (written_steps blankMem [] entry1). pose proof entries_good as H. by inv H.
  - vm_compute. reflexivity.
  - vm_compute. discriminate.
Defined.

Lemma WriteTo_spec_witness :
  WriteTo collect itoa (mkRing (str "GUI") None 0 (Some (written blankMem entry1)) true) []
  = ((19, None), str "11: [TUN] Starting" ++ [LF]).
Proof.
  rewrite (WriteTo_spec collect itoa (mkRing (str "GUI") None 0 (Some (written blankMem entry1)) true)
             (written blankMem entry1) [entry1] [] eq_refl entry1_written).
  vm_compute. reflexivity.
Defined.

Lemma dumpFollow_complete_witness :
  dumpFollow collect itoa (mkRing (str "DMP") None 0 (Some blankMem) true)
    [written blankMem entry1; written (written blankMem entry1) entry2] CursorAll []
  = (None, str "11: [TUN] Starting" ++ [LF] ++ str "22: [TUN] Shutting down" ++ [LF]).
Proof.
  rewrite (dumpFollow_complete itoa _ (written blankMem entry1) [entry1] [written (written blankMem entry1) entry2] [[entry2]]).
  - vm_compute. reflexivity.
  - exact entry1_written.
  - repeat constructor; discriminate.
  - constructor; [exact entries_written | repeat constructor; discriminate | cbn; unfold maxLines; lia | constructor].
Defined.

(** A ring that is full, and a writer that has taken its index but not yet cleared
    the line: the follower, whose cursor stands there, prints the old line again
    and goes past it, so that it never prints the new one. *)
Definition fullMem : logMem := mkMem 0 maxLines (replicate (Z.to_nat maxLines) (entryLine entry1)).
Definition follower (mem : logMem) : Ringlogger := mkRing (str "DMP") None 0 (Some mem) true.
Example follow_race :
  (FollowFromCursor (follower fullMem) CursorAll).2 = 0
  /\ FollowFromCursor (follower (fetchAdd fullMem).2) 0 = ([shownLine entry1], 1)
  /\ lineAt (written fullMem entry2) 0 = entryLine entry2
  /\ FollowFromCursor (follower (written fullMem entry2)) 1 = ([], 1).
Proof. vm_compute. auto. Qed.

Lemma globalWrite_terminates_witness :
  exists g' ws, globalWrite (2 * 4) (mkGlobal (replicate (Z.to_nat globalBufferSize) NUL) 0) (str "bye" ++ [LF]) = Some (g', ws)
  /\ Forall uncut ws.
Proof.
  destruct (globalWrite_terminates (mkGlobal (replicate (Z.to_nat globalBufferSize) NUL) 0) (str "bye" ++ [LF])) as (g' & ws & H & _ & _ & Hu).
  - split; [vm_compute; reflexivity | cbn; unfold globalBufferSize, maxLogLineLength, maxTagLength; lia].
  - exists g', ws. split; [exact H | exact Hu].
Defined.
