(* ===== verification/ChangeHandlers.v ===== *)
(** * Change notifications: winipcfg/route_change_handler.go, interface_change_handler.go, unicast_address_change_handler.go

    The three files keep the same registry, for routes, interfaces and unicast
    addresses: the callbacks of the program, and one notification of Windows that
    is there while the program has any. *)

From S2P Require Import Prelude Effects.
Local Open Scope Z_scope.

Inductive changeKind : Type := RouteChange | InterfaceChange | UnicastAddressChange.

#[global] Instance changeKind_eq_dec : EqDecision changeKind.
Proof. solve_decision. Defined.

(** notifyRouteChange2 and its like, which give a handle, and
    cancelMibChangeNotify2. *)
Class ChangeNotify (W : Type) := {
  notifyChange : changeKind -> M W Z;
  cancelMibChangeNotify2 : Z -> M W unit
}.

(** The callbacks, by number, and the handle, zero when there is none. *)
Record handlers : Type := mkHandlers { h_callbacks : gset nat; h_handle : Z }.

Record registry (W : Type) : Type := mkRegistry {
  rg_sys : W;
  rg_next : nat;
  rg_handlers : changeKind -> handlers
}.
Arguments mkRegistry {W}.
Arguments rg_sys {W}.
Arguments rg_next {W}.
Arguments rg_handlers {W}.

Definition changeCallback : Type := (changeKind * nat)%type.

Section Registry.
Context {W : Type} `{ChangeNotify W}.

Abbreviation registry := (registry W).

Definition onRegSys {A} (f : M W A) : M registry A :=
  fun r => let '(x, w) := f (rg_sys r) in (x, mkRegistry w (rg_next r) (rg_handlers r)).

Definition set_handlers (k : changeKind) (h : handlers) (r : registry) : registry :=
  mkRegistry (rg_sys r) (rg_next r) (fun k' => if bool_decide (k' = k) then h else rg_handlers r k').

(** RegisterRouteChangeCallback, RegisterInterfaceChangeCallback and
    RegisterUnicastAddressChangeCallback: a callback is a new one each time. *)
Definition RegisterChangeCallback (k : changeKind) : M registry changeCallback :=
  fun r =>
    let id := rg_next r in
    let h := rg_handlers r k in
    let r := mkRegistry (rg_sys r) (S id) (rg_handlers r) in
    let added := mkHandlers ({[id]} ∪ h_callbacks h) (h_handle h) in
    if h_handle h =? 0 then
      match onRegSys (notifyChange k) r with
      | (Ok handle, r') => (Ok (k, id), set_handlers k (mkHandlers (h_callbacks added) handle) r')
      | (Err e, r') => (Err e, set_handlers k (mkHandlers (h_callbacks added ∖ {[id]}) 0) r')
      end
    else (Ok (k, id), set_handlers k added r).

(** The error of the cancellation is what the callers ignore. *)
Definition UnregisterCallback (c : changeCallback) : M registry unit :=
  fun r =>
    let '(k, id) := c in
    let h := rg_handlers r k in
    let left := h_callbacks h ∖ {[id]} in
    let r := set_handlers k (mkHandlers left (h_handle h)) r in
    if bool_decide (left = ∅) && negb (h_handle h =? 0) then
      match onRegSys (cancelMibChangeNotify2 (h_handle h)) r with
      | (Ok _, r') => (Ok tt, set_handlers k (mkHandlers left 0) r')
      | (Err e, r') => (Err e, r')
      end
    else (Ok tt, r).

(** The three files. *)
Definition RegisterRouteChangeCallback : M registry changeCallback := RegisterChangeCallback RouteChange.
Definition RegisterInterfaceChangeCallback : M registry changeCallback := RegisterChangeCallback InterfaceChange.
Definition RegisterUnicastAddressChangeCallback : M registry changeCallback := RegisterChangeCallback UnicastAddressChange.
Definition RouteChangeCallback_Unregister (id : nat) : M registry unit := UnregisterCallback (RouteChange, id).
Definition InterfaceChangeCallback_Unregister (id : nat) : M registry unit := UnregisterCallback (InterfaceChange, id).
Definition UnicastAddressChangeCallback_Unregister (id : nat) : M registry unit :=
  UnregisterCallback (UnicastAddressChange, id).

(** Whether the program is told of a change: Windows calls back, and every
    callback is in the registry. *)
Definition registered (c : changeCallback) (r : registry) : Prop := c.2 ∈ h_callbacks (rg_handlers r c.1).

(** Callbacks are numbered below the next one, and a registry with callbacks has
    a handle. *)
Definition listening (r : registry) : Prop := forall k,
  (forall id, id ∈ h_callbacks (rg_handlers r k) -> (id < rg_next r)%nat)
  /\ (h_callbacks (rg_handlers r k) <> ∅ -> h_handle (rg_handlers r k) <> 0).

(** A handle that Windows gives is not zero. *)
Definition handlesNonzero : Prop := forall k w h w', notifyChange k w = (Ok h, w') -> h <> 0.

Lemma set_handlers_same k h r : rg_handlers (set_handlers k h r) k = h.
Proof. cbn. by rewrite bool_decide_true. Qed.
Lemma set_handlers_other k k' h r : k' <> k -> rg_handlers (set_handlers k h r) k' = rg_handlers r k'.
Proof. intros Hk. cbn. by rewrite bool_decide_false. Qed.

(** Registering adds one callback and keeps the others; a registration that
    fails adds none. *)
Lemma RegisterChangeCallback_spec k r x r' :
  handlesNonzero -> listening r -> RegisterChangeCallback k r = (x, r') ->
  listening r' /\ match x with
  | Ok c => ~ registered c r /\ forall c', registered c' r' <-> c' = c \/ registered c' r
  | Err _ => forall c', registered c' r' <-> registered c' r
  end.
Proof.
  intros Hnz Hl. unfold RegisterChangeCallback.
  assert (Hid : rg_next r ∉ h_callbacks (rg_handlers r k)).
  { intros Hin. apply (proj1 (Hl k)) in Hin. lia. }
  assert (Hnew : forall w h, h <> 0 ->
    listening (set_handlers k (mkHandlers ({[rg_next r]} ∪ h_callbacks (rg_handlers r k)) h)
      (mkRegistry w (S (rg_next r)) (rg_handlers r)))
    /\ ~ registered (k, rg_next r) r
    /\ forall c', registered c' (set_handlers k (mkHandlers ({[rg_next r]} ∪ h_callbacks (rg_handlers r k)) h)
      (mkRegistry w (S (rg_next r)) (rg_handlers r))) <-> c' = (k, rg_next r) \/ registered c' r).
  { intros w h Hh. split; [|split; [done|]].
    - intros k'. cbn. case_bool_decide as Ek; cbn.
      + subst k'. split; [|done]. intros id [->%elem_of_singleton|Hin]%elem_of_union; [lia|].
        apply (proj1 (Hl k)) in Hin. lia.
      + split; [|apply Hl]. intros id Hin. apply (proj1 (Hl k')) in Hin. lia.
    - intros [k' id']. unfold registered. cbn. case_bool_decide as Ek; cbn.
      + subst k'. rewrite elem_of_union, elem_of_singleton. naive_solver.
      + naive_solver. }
  destruct (Z.eqb_spec (h_handle (rg_handlers r k)) 0) as [Hz|Hz].
  - unfold onRegSys. cbn [rg_sys]. destruct (notifyChange k (rg_sys r)) as [[h|e] w] eqn:E; intros [= <- <-].
    + apply Hnew. by eapply Hnz.
    + split.
      * intros k'. cbn. case_bool_decide as Ek; cbn.
        -- subst k'. split; [intros id Hin; assert (id ∈ h_callbacks (rg_handlers r k)) as Hi by set_solver;
             apply (proj1 (Hl k)) in Hi; lia|]. intros Hne. exfalso. apply Hne.
           assert (h_callbacks (rg_handlers r k) = ∅) as ->; [|set_solver].
           destruct (decide (h_callbacks (rg_handlers r k) = ∅)) as [->|Hn]; [done|]. by apply (proj2 (Hl k)) in Hn.
        -- split; [|apply Hl]. intros id Hin. apply (proj1 (Hl k')) in Hin. lia.
      * intros [k' id']. unfold registered. cbn. case_bool_decide as Ek; cbn; [subst k'|done]. set_solver.
  - intros [= <- <-]. apply Hnew. done.
Qed.

(** Unregistering removes that callback, whether or not Windows can be told. *)
Lemma UnregisterCallback_spec c r x r' :
  listening r -> UnregisterCallback c r = (x, r') ->
  listening r' /\ forall c', registered c' r' <-> c' <> c /\ registered c' r.
Proof.
  intros Hl. destruct c as [k id]. unfold UnregisterCallback.
  set (left := h_callbacks (rg_handlers r k) ∖ {[id]}).
  assert (Hgen : forall w h, (left <> ∅ -> h <> 0) ->
    listening (set_handlers k (mkHandlers left h) (mkRegistry w (rg_next r) (rg_handlers r)))
    /\ forall c', registered c' (set_handlers k (mkHandlers left h) (mkRegistry w (rg_next r) (rg_handlers r)))
       <-> c' <> (k, id) /\ registered c' r).
  { intros w h Hh. split.
    - intros k'. cbn. case_bool_decide as Ek; cbn; [|apply Hl]. subst k'. split; [|done].
      intros i Hi. apply (proj1 (Hl k)). set_solver.
    - intros [k' id']. unfold registered. cbn. case_bool_decide as Ek; cbn; [subst k'|]; set_solver. }
  assert (Hkeep : left <> ∅ -> h_handle (rg_handlers r k) <> 0) by (intros Hne; apply (proj2 (Hl k)); set_solver).
  assert (Hset : forall h1 h2 w, set_handlers k h2 (mkRegistry w (rg_next r)
      (rg_handlers (set_handlers k h1 r))) = mkRegistry w (rg_next r) (fun k' => if bool_decide (k' = k) then h2
        else if bool_decide (k' = k) then h1 else rg_handlers r k')) by done.
  destruct (bool_decide (left = ∅) && negb (h_handle (rg_handlers r k) =? 0)) eqn:Eb.
  - apply andb_prop in Eb as [Eb%bool_decide_eq_true _]. unfold onRegSys.
    destruct (cancelMibChangeNotify2 _ _) as [[u|e] w] eqn:E; intros [= <- <-].
    + destruct (Hgen w 0 ltac:(done)) as [H1 H2]. split.
      * intros k'. specialize (H1 k'). cbn in H1 |- *. by case_bool_decide.
      * intros c'. specialize (H2 c'). unfold registered in *. cbn in H2 |- *. by case_bool_decide.
    + exact (Hgen w _ Hkeep).
  - intros [= <- <-]. exact (Hgen (rg_sys r) _ Hkeep).
Qed.
End Registry.
