(* ===== verification/TunnelNet.v ===== *)
(** * tunnel: addresses, routes, MTU and the default route

    addressconfig.go, mtumonitor.go and defaultroutemonitor.go. The IP helper
    calls of winipcfg and the sockets are parameters: those that read the system
    take its state, those that change it return the new one. A Go map that is
    ranged over is a set with the order the runtime chooses. *)

From S2P Require Import Prelude GoStrings GoNum Netip Config Effects ChangeHandlers Firewall.
Local Open Scope Z_scope.

#[global] Instance Addr_countable : Countable Addr.
Proof.
  refine (inj_countable'
    (fun a => match a with AddrZero => inl tt | Addr4 v => inr (inl v) | Addr6 v z => inr (inr (v, z)) end)
    (fun s => match s with inl _ => AddrZero | inr (inl v) => Addr4 v | inr (inr (v, z)) => Addr6 v z end) _).
  by intros [].
Defined.

#[global] Instance Prefix_countable : Countable Prefix.
Proof. refine (inj_countable' (fun p => (p_addr p, p_bits p)) (fun '(a, b) => mkPrefix a b) _). by intros []. Defined.

Module TunnelNet.

(** ** What winipcfg gives and takes *)

Inductive AddressFamily : Type := AF_INET | AF_INET6.
#[global] Instance AddressFamily_eq_dec : EqDecision AddressFamily.
Proof. solve_decision. Defined.

Abbreviation LUID := Z.

Definition IfOperStatusUp : Z := 1.
Definition ERROR_NOT_FOUND : Z := 1168.
Definition ERROR_OBJECT_ALREADY_EXISTS : Z := 5010.

Definition IPv4Unspecified : Addr := Addr4 0.
Definition IPv6Unspecified : Addr := Addr6 0 [].

Record MibIPforwardRow2 : Type := mkForward {
  fr_InterfaceLUID : LUID;
  fr_InterfaceIndex : Z;
  fr_DestinationPrefix : Prefix;
  fr_NextHop : Addr;
  fr_Metric : Z
}.

Record MibIfRow2 : Type := mkIfRow { if_OperStatus : Z; if_MTU : Z }.

(** [ii_others] are the fields that the program leaves as they are. *)
Record MibIPInterfaceRow : Type := mkIPInterface {
  ii_RouterDiscoveryDisabled : bool;
  ii_DadTransmits : Z;
  ii_ManagedAddressConfigurationSupported : bool;
  ii_OtherStatefulConfigurationSupported : bool;
  ii_NLMTU : Z;
  ii_UseAutomaticMetric : bool;
  ii_Metric : Z;
  ii_SitePrefixLength : Z;
  ii_others : list Z
}.

Record RouteData : Type := mkRoute { rd_Destination : Prefix; rd_NextHop : Addr; rd_Metric : Z }.

#[global] Instance RouteData_eq_dec : EqDecision RouteData.
Proof. solve_decision. Defined.
#[global] Instance RouteData_countable : Countable RouteData.
Proof.
  refine (inj_countable' (fun r => (rd_Destination r, rd_NextHop r, rd_Metric r)) (fun '(d, n, x) => mkRoute d n x) _).
  by intros [].
Defined.

Record adapterAddresses : Type := mkAdapter { ad_LUID : LUID; ad_OperStatus : Z; ad_Unicast : list (Addr * Z) }.

Record defaultGateway : Type := mkGateway { gw_luid : LUID; gw_index : Z; gw_nextHop : Addr }.

#[global] Instance defaultGateway_eq_dec : EqDecision defaultGateway.
Proof. solve_decision. Defined.

Class NetSystem (W : Type) := {
  GetIPForwardTable2 : AddressFamily -> W -> result (list MibIPforwardRow2);
  LUID_Interface : LUID -> W -> result MibIfRow2;
  LUID_IPInterface : LUID -> AddressFamily -> W -> result MibIPInterfaceRow;
  IPInterface_Set : LUID -> AddressFamily -> MibIPInterfaceRow -> M W unit;
  AddRoute : LUID -> Prefix -> Addr -> Z -> M W unit;
  DeleteRoute : LUID -> Prefix -> Addr -> W -> W;
  FlushRoutes : LUID -> AddressFamily -> M W unit;
  AddIPAddress : LUID -> Prefix -> M W unit;
  FlushIPAddresses : LUID -> AddressFamily -> M W unit;
  SetDNS : LUID -> AddressFamily -> list Addr -> list gostring -> M W unit;
  GetAdaptersAddresses : AddressFamily -> W -> result (list adapterAddresses);
  DeleteIPAddress : LUID -> Prefix -> W -> W;
  StartedAtBoot : W -> bool;
  ForceMTU : Z -> W -> W;
  BindSocketToInterface4 : Z -> bool -> M W unit;
  BindSocketToInterface6 : Z -> bool -> M W unit;
  rebind : M W unit;
  prefixOrder : gset Prefix -> list Prefix;
  routeOrder : gset RouteData -> list RouteData
}.

Section Net.
Context {W : Type} `{NetSystem W}.

(** ** The default route: findDefaultGateway and findDefaultLUID *)

Definition noGateway : defaultGateway := mkGateway 0 0 AddrZero.

(** The metric of a default route that is not the tunnel's, over an interface
    that is up. *)
Definition routeMetric (family : AddressFamily) (ourLUID : LUID) (w : W) (r : MibIPforwardRow2) : option Z :=
  if negb (p_bits (fr_DestinationPrefix r) =? 0) || (fr_InterfaceLUID r =? ourLUID) then None
  else
    match LUID_Interface (fr_InterfaceLUID r) w with
    | Err _ => None
    | Ok ifrow =>
        if negb (if_OperStatus ifrow =? IfOperStatusUp) then None
        else
          match LUID_IPInterface (fr_InterfaceLUID r) family w with
          | Err _ => None
          | Ok iface => Some ((fr_Metric r + ii_Metric iface) mod 2 ^ 64)
          end
    end.

(** The loop over the table, with the best row so far. *)
Fixpoint lowestLoop (family : AddressFamily) (ourLUID : LUID) (w : W) (r : list MibIPforwardRow2)
    (lowestMetric : Z) (gateway : defaultGateway) : defaultGateway :=
  match r with
  | [] => gateway
  | row :: r' =>
      match routeMetric family ourLUID w row with
      | None => lowestLoop family ourLUID w r' lowestMetric gateway
      | Some combinedMetric =>
          if combinedMetric <? lowestMetric
          then lowestLoop family ourLUID w r' combinedMetric
                 (mkGateway (fr_InterfaceLUID row) (fr_InterfaceIndex row) (fr_NextHop row))
          else lowestLoop family ourLUID w r' lowestMetric gateway
      end
  end.

Definition findDefaultGateway (family : AddressFamily) (ourLUID : LUID) (w : W) : result defaultGateway :=
  let? r := GetIPForwardTable2 family w in
  Ok (lowestLoop family ourLUID w r (2 ^ 64 - 1) noGateway).

(** The same loop for the MTU, which keeps the index and the LUID. *)
Definition findDefaultLUID (family : AddressFamily) (ourLUID : LUID) (lastLUID lastIndex : Z) (w : W) : result (Z * Z) :=
  let? r := GetIPForwardTable2 family w in
  let g := lowestLoop family ourLUID w r (2 ^ 64 - 1) noGateway in
  if (gw_luid g =? lastLUID) && (gw_index g =? lastIndex) then Ok (lastLUID, lastIndex)
  else Ok (gw_luid g, gw_index g).

(** ** mtumonitor.go *)

(** familyMTUClamper.ForceMTU: [mtus] is the shared array. *)
Definition clampLoop (mtus : list Z) (mtu : Z) : Z :=
  fold_left (fun mtu m => if (0 <? m) && (m <? mtu) then m else mtu) mtus mtu.

Definition familyForceMTU (index : nat) (mtu : Z) (mtus : list Z) (w : W) : list Z * W :=
  let mtus := <[index := mtu]> mtus in
  (mtus, ForceMTU (clampLoop mtus mtu) w).

Definition minMTU (family : AddressFamily) : Z := match family with AF_INET => 576 | AF_INET6 => 1280 end.

(** The variables of one monitor beside those the two share. *)
Record mtuState : Type := mkMTU { lastLUID : Z; lastIndex : Z; lastMTU : Z }.

Definition initMTU : mtuState := mkMTU 0 (2 ^ 32 - 1) 0.

Definition withNLMTU (i : MibIPInterfaceRow) (mtu : Z) : MibIPInterfaceRow :=
  mkIPInterface (ii_RouterDiscoveryDisabled i) (ii_DadTransmits i) (ii_ManagedAddressConfigurationSupported i)
    (ii_OtherStatefulConfigurationSupported i) mtu (ii_UseAutomaticMetric i) (ii_Metric i)
    (ii_SitePrefixLength i) (ii_others i).

(** doIt; [clamper] is the index of the family when the device is userspace. *)
Definition mtuDoIt (family : AddressFamily) (ourLUID : LUID) (clamper : option nat) (s : mtuState) (mtus : list Z) (w : W)
    : result unit * (mtuState * list Z * W) :=
  match findDefaultLUID family ourLUID (lastLUID s) (lastIndex s) w with
  | Err e => (Err e, (s, mtus, w))
  | Ok (luid, index) =>
      let s := mkMTU luid index (lastMTU s) in
      match (if luid =? 0 then Ok 0 else let? iface := LUID_Interface luid w in
                                         Ok (if 0 <? if_MTU iface then if_MTU iface else 0)) with
      | Err e => (Err e, (s, mtus, w))
      | Ok mtu =>
          if (0 <? mtu) && negb (lastMTU s =? mtu) then
            match LUID_IPInterface ourLUID family w with
            | Err e => (Err e, (s, mtus, w))
            | Ok iface =>
                let iface := withNLMTU iface (Z.max (mtu - 80) (minMTU family) mod 2 ^ 32) in
                match IPInterface_Set ourLUID family iface w with
                | (Err e, w) => (Err e, (s, mtus, w))
                | (Ok _, w) =>
                    let '(mtus, w) :=
                      match clamper with
                      | Some index => familyForceMTU index (ii_NLMTU iface) mtus w
                      | None => (mtus, w)
                      end in
                    (Ok tt, (mkMTU luid index mtu, mtus, w))
                end
            end
          else (Ok tt, (s, mtus, w))
      end
  end.

(** ** defaultroutemonitor.go *)

Record defaultRouteFamily : Type := mkFamily {
  df_family : AddressFamily;
  blackhole : bool;
  hosts : list Prefix;
  gateway : defaultGateway;
  owned : gset Prefix;
  incomplete : bool
}.

(** [callbacks] is empty until the notifications are registered. *)
Record defaultRouteMonitor : Type := mkMonitor {
  ourLUID : LUID;
  families : list defaultRouteFamily;
  callbacks : list changeCallback
}.

Definition isINET (family : AddressFamily) : bool := bool_decide (family = AF_INET).

Definition serverHost (family : AddressFamily) (hosts : list Prefix) (peer : Peer) : list Prefix :=
  if bool_decide (pr_WSURL peer = []) then hosts
  else
    match ParseAddr (e_Host (pr_Endpoint peer)) with
    | None => hosts
    | Some addr =>
        let addr := Unmap addr in
        if negb (eqb (Is4 addr) (isINET family)) then hosts
        else
          let prefix := PrefixFrom addr (BitLen addr) in
          if existsb (fun host => bool_decide (host = prefix)) hosts then hosts else hosts ++ [prefix]
    end.

Definition webSocketServerHosts (config : Config) (family : AddressFamily) : list Prefix :=
  fold_left (serverHost family) (c_Peers config) [].

Definition routeHalves (zero half : Addr) (found : bool * bool * bool) (allowedip : Prefix) : bool * bool * bool :=
  let '(foundHalf0, foundHalf1, foundFull) := found in
  if bool_decide (allowedip = PrefixFrom zero 0) then (foundHalf0, foundHalf1, true)
  else if bool_decide (allowedip = PrefixFrom zero 1) then (true, foundHalf1, foundFull)
  else if bool_decide (allowedip = PrefixFrom half 1) then (foundHalf0, true, foundFull)
  else found.

Definition hasDefaultRoute (family : AddressFamily) (config : Config) : bool :=
  let '(zero, half) := match family with
                       | AF_INET => (IPv4Unspecified, Addr4 (2 ^ 31))
                       | AF_INET6 => (IPv6Unspecified, Addr6 (2 ^ 127) [])
                       end in
  let '(foundHalf0, foundHalf1, foundFull) :=
    fold_left (routeHalves zero half) (flat_map pr_AllowedIPs (c_Peers config)) (false, false, false) in
  foundFull || foundHalf0 && foundHalf1.

(** DeleteRoute for each of a set, in the order the map is ranged over. *)
Definition deleteRoutes (g : defaultGateway) (owned : gset Prefix) (w : W) : W :=
  fold_left (fun w host => DeleteRoute (gw_luid g) host (gw_nextHop g) w) (prefixOrder owned) w.

(** The loop that adds the host routes: what is owned, whether a route moved, and
    the error that ended it. *)
Fixpoint addHosts (g : defaultGateway) (hs : list Prefix) (owned : gset Prefix) (moved : bool) (w : W)
    : gset Prefix * bool * option goerr * W :=
  match hs with
  | [] => (owned, moved, None, w)
  | host :: hs' =>
      if gw_luid g =? 0 then addHosts g hs' owned moved w
      else
        match AddRoute (gw_luid g) host (gw_nextHop g) 0 w with
        | (Ok _, w) => addHosts g hs' ({[host]} ∪ owned) true w
        | (Err e, w) =>
            if bool_decide (e = ErrCode ERROR_OBJECT_ALREADY_EXISTS) then addHosts g hs' owned moved w
            else (owned, moved, Some e, w)
        end
  end.

(** One round of the loop of updateLocked: the family, whether a route moved, its
    error and the system. *)
Definition updateFamily (ourLUID : LUID) (f : defaultRouteFamily) (w : W)
    : defaultRouteFamily * bool * option goerr * W :=
  match findDefaultGateway (df_family f) ourLUID w with
  | Err e => (f, false, Some e, w)
  | Ok g =>
      if bool_decide (g = gateway f) && negb (incomplete f) then (f, false, None, w)
      else
        let previous := gateway f in
        let '(own, moved, w) :=
          if bool_decide (previous <> g)
          then (∅, negb (length (hosts f) =? 0)%nat, deleteRoutes previous (owned f) w)
          else (owned f, false, w) in
        let '(own, moved, err, w) := addHosts g (hosts f) own moved w in
        (mkFamily (df_family f) (blackhole f) (hosts f) g own (match err with Some _ => true | None => false end),
         moved, err, w)
  end.

(** updateLocked: the families, whether any route moved, the first error. *)
Fixpoint updateLocked (ourLUID : LUID) (fs : list defaultRouteFamily) (w : W)
    : list defaultRouteFamily * bool * option goerr * W :=
  match fs with
  | [] => ([], false, None, w)
  | f :: fs' =>
      let '(f, moved, err, w) := updateFamily ourLUID f w in
      let '(fs', moved', err', w) := updateLocked ourLUID fs' w in
      (f :: fs', moved || moved', match err with Some e => Some e | None => err' end, w)
  end.

Fixpoint pinSocketsLocked (fs : list defaultRouteFamily) (w : W) : result unit * W :=
  match fs with
  | [] => (Ok tt, w)
  | f :: fs' =>
      let hole := blackhole f && (gw_index (gateway f) =? 0) in
      match (match df_family f with
             | AF_INET => BindSocketToInterface4 (gw_index (gateway f)) hole w
             | AF_INET6 => BindSocketToInterface6 (gw_index (gateway f)) hole w
             end) with
      | (Ok _, w) => pinSocketsLocked fs' w
      | (Err e, w) => (Err e, w)
      end
  end.

Fixpoint removeHostRoutesLocked (fs : list defaultRouteFamily) (w : W) : list defaultRouteFamily * W :=
  match fs with
  | [] => ([], w)
  | f :: fs' =>
      let w := deleteRoutes (gateway f) (owned f) w in
      let '(fs', w) := removeHostRoutesLocked fs' w in
      (mkFamily (df_family f) (blackhole f) (hosts f) noGateway ∅ (incomplete f) :: fs', w)
  end.

Definition newFamily (config : Config) (family : AddressFamily) : defaultRouteFamily :=
  mkFamily family (hasDefaultRoute family config) (webSocketServerHosts config family) noGateway ∅ false.

Definition newDefaultRouteMonitor (config : Config) (ourLUID : LUID) (w : W) : result defaultRouteMonitor * W :=
  let fs := map (newFamily config) [AF_INET; AF_INET6] in
  let '(fs, _, err, w) := updateLocked ourLUID fs w in
  match err with
  | Some e => (Err e, (removeHostRoutesLocked fs w).2)
  | None => (Ok (mkMonitor ourLUID fs []), w)
  end.

(** [register] makes the two registrations, the route callback being unregistered
    when the second fails. *)
Definition start (register : M W (list changeCallback)) (m : defaultRouteMonitor) (w : W) : result unit * (defaultRouteMonitor * W) :=
  match pinSocketsLocked (families m) w with
  | (Err e, w) => (Err e, (m, w))
  | (Ok _, w) =>
      match register w with
      | (Err e, w) => (Err e, (m, w))
      | (Ok cbs, w) => (Ok tt, (mkMonitor (ourLUID m) (families m) cbs, w))
      end
  end.

Fixpoint markIncomplete (prefix : Prefix) (fs : list defaultRouteFamily) : list defaultRouteFamily * bool :=
  match fs with
  | [] => ([], false)
  | f :: fs' =>
      if existsb (fun host => bool_decide (host = prefix)) (hosts f)
      then (mkFamily (df_family f) (blackhole f) (hosts f) (gateway f) (owned f) true :: fs', true)
      else let '(fs', b) := markIncomplete prefix fs' in (f :: fs', b)
  end.

Definition hostRouteDeleted (m : defaultRouteMonitor) (route : MibIPforwardRow2) : defaultRouteMonitor * bool :=
  let '(fs, b) := markIncomplete (fr_DestinationPrefix route) (families m) in
  (mkMonitor (ourLUID m) fs (callbacks m), b).

Definition update (m : defaultRouteMonitor) (w : W) : defaultRouteMonitor * W :=
  if bool_decide (callbacks m = []) then (m, w)
  else
    let '(fs, movedHostRoutes, _, w) := updateLocked (ourLUID m) (families m) w in
    let w := if movedHostRoutes then (rebind w).2 else w in
    (mkMonitor (ourLUID m) fs (callbacks m), (pinSocketsLocked fs w).2).

(** [unregister] is Unregister of each callback. *)
Definition Destroy (unregister : list changeCallback -> W -> W) (m : defaultRouteMonitor) (w : W)
    : defaultRouteMonitor * W :=
  let w := unregister (callbacks m) w in
  let '(fs, w) := removeHostRoutesLocked (families m) w in
  (mkMonitor (ourLUID m) fs [], w).

(** bump: the timer and the start of the burst, in milliseconds; the answer says
    whether update runs at once. *)
Record burst : Type := mkBurst { burstTimer : option Z; firstBurst : option Z }.

Definition bump (now : Z) (b : burst) : burst * bool :=
  match firstBurst b with
  | None => (mkBurst (Some (now + 150)) (Some now), false)
  | Some first =>
      if 2000 <? now - first then (mkBurst None None, true)
      else (mkBurst (Some (now + 150)) (Some first), false)
  end.

(** The timer at [now]: what is left and whether update runs. *)
Definition fireBurst (now : Z) (b : burst) : burst * bool :=
  match burstTimer b with
  | Some t => if t <=? now then (mkBurst None None, true) else (b, false)
  | None => (b, false)
  end.

(** ** winipcfg/luid.go: setting the routes and addresses of a family *)

Definition ofFamily (family : AddressFamily) (a : Addr) : bool :=
  match family with AF_INET => Is4 a | AF_INET6 => Is6 a end.

Fixpoint addRoutes (luid : LUID) (family : AddressFamily) (routesData : list RouteData) : M W unit :=
  match routesData with
  | [] => mret tt
  | rd :: rest =>
      if negb (ofFamily family (p_addr (rd_Destination rd))) then addRoutes luid family rest
      else
        do! _ := AddRoute luid (rd_Destination rd) (rd_NextHop rd) (rd_Metric rd) in
        addRoutes luid family rest
  end.

Definition SetRoutesForFamily (luid : LUID) (family : AddressFamily) (routesData : list RouteData) : M W unit :=
  do! _ := FlushRoutes luid family in addRoutes luid family routesData.

Fixpoint addAddresses (luid : LUID) (family : AddressFamily) (addresses : list Prefix) : M W unit :=
  match addresses with
  | [] => mret tt
  | a :: rest =>
      if negb (ofFamily family (p_addr a)) then addAddresses luid family rest
      else do! _ := AddIPAddress luid a in addAddresses luid family rest
  end.

Definition SetIPAddressesForFamily (luid : LUID) (family : AddressFamily) (addresses : list Prefix) : M W unit :=
  do! _ := FlushIPAddresses luid family in addAddresses luid family addresses.

(** ** addressconfig.go *)

Definition cleanupAddress (addrHash : gset Addr) (iface : adapterAddresses) (w : W) (address : Addr * Z) : W :=
  let '(ip, bits) := address in
  if bool_decide (ip ∈ addrHash) then DeleteIPAddress (ad_LUID iface) (PrefixFrom ip bits) w else w.

Definition cleanupAddressesOnDisconnectedInterfaces (family : AddressFamily) (addresses : list Prefix) (w : W) : W :=
  if (length addresses =? 0)%nat then w
  else
    let addrHash := list_to_set (map p_addr addresses) : gset Addr in
    match GetAdaptersAddresses family w with
    | Err _ => w
    | Ok interfaces =>
        fold_left (fun w iface =>
          if ad_OperStatus iface =? IfOperStatusUp then w
          else fold_left (cleanupAddress addrHash iface) (ad_Unicast iface) w) interfaces w
    end.

(** The route of an allowed IP. *)
Definition allowedRoute (allowedip : Prefix) : RouteData :=
  mkRoute (Masked allowedip)
    (if Is4 (p_addr allowedip) then IPv4Unspecified else if Is6 (p_addr allowedip) then IPv6Unspecified else AddrZero) 0.

Definition allowedIPs (conf : Config) : list Prefix := flat_map pr_AllowedIPs (c_Peers conf).

(** foundRoute, foundDefault and foundAddress of one family. *)
Definition foundRoute (family : AddressFamily) (conf : Config) : bool :=
  existsb (fun ip => ofFamily family (p_addr ip)) (allowedIPs conf).
Definition foundDefault (family : AddressFamily) (conf : Config) : bool :=
  existsb (fun ip => ofFamily family (p_addr ip) && (p_bits ip =? 0)) (allowedIPs conf).
Definition foundAddress (family : AddressFamily) (conf : Config) : bool :=
  existsb (fun a => ofFamily family (p_addr a)) (i_Addresses (c_Interface conf)).

Definition deduplicatedRoutes (conf : Config) : list RouteData :=
  routeOrder (list_to_set (map allowedRoute (allowedIPs conf))).

Definition configuredInterface (family : AddressFamily) (conf : Config) (ipif : MibIPInterfaceRow) : MibIPInterfaceRow :=
  let mtu := i_MTU (c_Interface conf) in
  let default := foundDefault family conf in
  mkIPInterface true 0 false false
    (if (0 <? mtu) && (foundAddress family conf || foundRoute family conf) then mtu else ii_NLMTU ipif)
    (if default then false else ii_UseAutomaticMetric ipif)
    (if default then 0 else ii_Metric ipif) (ii_SitePrefixLength ipif) (ii_others ipif).

(** What one attempt ends with: back to startOver, or a return. *)
Inductive attemptEnd : Type :=
  | StartOver
  | Return (r : result unit).

(** The test after each step. *)
Definition failed (retryOnFailure : bool) (e : goerr) : attemptEnd :=
  if bool_decide (e = ErrCode ERROR_NOT_FOUND) && retryOnFailure then StartOver else Return (Err e).

Definition stepThen (retryOnFailure : bool) (m : M W unit) (k : W -> attemptEnd * W) (w : W) : attemptEnd * W :=
  match m w with
  | (Err e, w) => (failed retryOnFailure e, w)
  | (Ok _, w) => k w
  end.

Definition setAddresses (luid : LUID) (family : AddressFamily) (addresses : list Prefix) : M W unit :=
  fun w =>
  match SetIPAddressesForFamily luid family addresses w with
  | (Err e, w) =>
      if bool_decide (e = ErrCode ERROR_OBJECT_ALREADY_EXISTS)
      then SetIPAddressesForFamily luid family addresses (cleanupAddressesOnDisconnectedInterfaces family addresses w)
      else (Err e, w)
  | (Ok _, w) => (Ok tt, w)
  end.

Definition configureOnce (family : AddressFamily) (conf : Config) (luid : LUID) (retryOnFailure : bool) : W -> attemptEnd * W :=
  stepThen retryOnFailure
    (mwhen (negb (i_TableOff (c_Interface conf)) && foundRoute family conf)
       (SetRoutesForFamily luid family (deduplicatedRoutes conf)))
    (stepThen retryOnFailure
       (mwhen (foundAddress family conf) (setAddresses luid family (i_Addresses (c_Interface conf))))
       (fun w =>
          match LUID_IPInterface luid family w with
          | Err e => (Return (Err e), w)
          | Ok ipif =>
              stepThen retryOnFailure (IPInterface_Set luid family (configuredInterface family conf ipif))
                (stepThen retryOnFailure
                   (SetDNS luid family (i_DNS (c_Interface conf)) (i_DNSSearch (c_Interface conf)))
                   (fun w => (Return (Ok tt), w))) w
          end)).

(** The attempts, [tryTimes] of them so far. *)
Fixpoint configureLoop (fuel : nat) (family : AddressFamily) (conf : Config) (luid : LUID)
    (retryOnFailure : bool) (tryTimes : Z) (w : W) : option (result unit * W) :=
  match fuel with
  | O => None
  | S fuel =>
      let retryOnFailure := if 0 <? tryTimes then retryOnFailure && (tryTimes <? 15) else retryOnFailure in
      match configureOnce family conf luid retryOnFailure w with
      | (StartOver, w) => configureLoop fuel family conf luid retryOnFailure (tryTimes + 1) w
      | (Return r, w) => Some (r, w)
      end
  end.

Definition configureInterface (fuel : nat) (family : AddressFamily) (conf : Config) (luid : LUID) (w : W)
    : option (result unit * W) :=
  configureLoop fuel family conf luid (StartedAtBoot w) 0 w.
End Net.

(** enableFirewall of addressconfig.go *)
Definition doNotRestrict (conf : Config) : bool :=
  match c_Peers conf with
  | [peer] =>
      if i_TableOff (c_Interface conf) then true
      else negb (existsb (fun ip => (p_bits ip =? 0) && bool_decide (ip = Masked ip)) (pr_AllowedIPs peer))
  | _ => true
  end.

Definition enableFirewall {W : Type} `{Firewall.WFP W} (conf : Config) (luid : LUID) (fw : Firewall.firewall)
    : result unit * Firewall.firewall :=
  Firewall.EnableFirewall luid (doNotRestrict conf) (i_DNS (c_Interface conf)) fw.
End TunnelNet.
