(* ===== verification/RouteMonitor.v ===== *)
(** * The default route and the host routes of the WebSocket servers *)

From S2P Require Import Prelude GoStrings GoNum Netip Config Effects ChangeHandlers TunnelNet.
Import TunnelNet.
Local Open Scope Z_scope.

(** ** Which default route is chosen *)

Section Lowest.
Context {W : Type} `{NetSystem W}.

Definition rowGateway (row : MibIPforwardRow2) : defaultGateway :=
  mkGateway (fr_InterfaceLUID row) (fr_InterfaceIndex row) (fr_NextHop row).

(** [row] is the first row of the table with the lowest metric [x]. *)
Definition firstLowest (family : AddressFamily) (ours : LUID) (w : W) (rows : list MibIPforwardRow2)
    (row : MibIPforwardRow2) (x : Z) : Prop :=
  exists before after, rows = before ++ row :: after /\ routeMetric family ours w row = Some x
    /\ (forall r y, r ∈ before -> routeMetric family ours w r = Some y -> x < y)
    /\ (forall r y, r ∈ after -> routeMetric family ours w r = Some y -> x <= y).

Lemma firstLowest_cons family ours w r rows row x :
  (forall y, routeMetric family ours w r = Some y -> x < y) ->
  firstLowest family ours w rows row x -> firstLowest family ours w (r :: rows) row x.
Proof.
  intros Hr (before & after & -> & Hx & Hb & Ha). exists (r :: before), after. split_and!; [done.. | | done].
  intros r' y [->|Hin]%elem_of_cons; [apply Hr | by apply Hb].
Qed.

Lemma lowestLoop_spec family ours w rows best g :
  (lowestLoop family ours w rows best g = g
     /\ forall r y, r ∈ rows -> routeMetric family ours w r = Some y -> best <= y)
  \/ exists row x, x < best /\ lowestLoop family ours w rows best g = rowGateway row /\ firstLowest family ours w rows row x.
Proof.
  revert best g. induction rows as [|r rows IH]; intros best g; cbn [lowestLoop].
  { left. split; [done|]. intros r y Hr. by apply elem_of_nil in Hr. }
  destruct (routeMetric family ours w r) as [x|] eqn:Ex; [destruct (Z.ltb_spec x best) as [Hlt|Hge]|].
  - destruct (IH x (rowGateway r)) as [[Hg Hmin] | (row & y & Hy & Hg & Hf)].
    + right. exists r, x. split_and!; [done | exact Hg|]. exists [], rows. split_and!; [done.. | | done].
      intros r' y Hr'. by apply elem_of_nil in Hr'.
    + right. exists row, y. split_and!; [lia | exact Hg|]. apply firstLowest_cons; [|done]. rewrite Ex. intros ? [= <-]. done.
  - destruct (IH best g) as [[Hg Hmin] | (row & y & Hy & Hg & Hf)].
    + left. split; [done|]. intros r' y [->|Hin]%elem_of_cons; [rewrite Ex; by intros [= <-] | by apply Hmin].
    + right. exists row, y. split_and!; [done..|]. apply firstLowest_cons; [|done]. rewrite Ex. intros ? [= <-]. lia.
  - destruct (IH best g) as [[Hg Hmin] | (row & y & Hy & Hg & Hf)].
    + left. split; [done|]. intros r' y [->|Hin]%elem_of_cons; [by rewrite Ex | by apply Hmin].
    + right. exists row, y. split_and!; [done..|]. apply firstLowest_cons; [|done]. by rewrite Ex.
Qed.

(** A metric of the table and that of the interface are 32-bit: their sum does
    not wrap. *)
Definition metrics32 (family : AddressFamily) (rows : list MibIPforwardRow2) (w : W) : Prop :=
  forall r i, r ∈ rows -> LUID_IPInterface (fr_InterfaceLUID r) family w = Ok i ->
  0 <= fr_Metric r < 2 ^ 32 /\ 0 <= ii_Metric i < 2 ^ 32.

(** The gateway is that of the first default route, not the tunnel's own, over
    an interface that is up, whose metric and its interface's add up to the
    lowest; and it is the empty gateway only when there is no such route. *)
Theorem findDefaultGateway_lowest family ours w rows g :
  GetIPForwardTable2 family w = Ok rows -> metrics32 family rows w -> findDefaultGateway family ours w = Ok g ->
  g = noGateway /\ Forall (fun r => routeMetric family ours w r = None) rows
  \/ exists row x, g = rowGateway row /\ firstLowest family ours w rows row x
     /\ fr_InterfaceLUID row <> ours /\ p_bits (fr_DestinationPrefix row) = 0
     /\ exists i, LUID_IPInterface (fr_InterfaceLUID row) family w = Ok i /\ x = fr_Metric row + ii_Metric i.
Proof.
  intros Ht Hm. unfold findDefaultGateway. rewrite Ht. cbn [rbind]. intros [= <-].
  assert (Hsum : forall r x, r ∈ rows -> routeMetric family ours w r = Some x ->
    fr_InterfaceLUID r <> ours /\ p_bits (fr_DestinationPrefix r) = 0 /\
    exists i, LUID_IPInterface (fr_InterfaceLUID r) family w = Ok i /\ x = fr_Metric r + ii_Metric i /\ x < 2 ^ 33).
  { intros r x Hr. unfold routeMetric. destruct (Z.eqb_spec (p_bits (fr_DestinationPrefix r)) 0), (Z.eqb_spec (fr_InterfaceLUID r) ours);
      cbn [negb orb]; try done. destruct (LUID_Interface _ w) as [ifr|]; [|done]. destruct (negb _); [done|].
    destruct (LUID_IPInterface _ family w) as [i|] eqn:Ei; [|done]. intros [= <-]. pose proof (Hm r i Hr Ei).
    rewrite Z.mod_small by lia. split_and!; [done..|]. exists i. split_and!; [done.. | lia]. }
  destruct (lowestLoop_spec family ours w rows (2 ^ 64 - 1) noGateway) as [[Hg Hmin] | (row & x & _ & Hg & Hf)]; rewrite Hg.
  - left. split; [done|]. apply Forall_forall. intros r Hr. destruct (routeMetric family ours w r) as [x|] eqn:Ex; [|done].
    pose proof (Hmin r x Hr Ex). destruct (Hsum r x Hr Ex) as (_ & _ & i & _ & _ & Hlt). lia.
  - right. exists row, x. pose proof Hf as (before & after & Hrows & Hx & _). destruct (Hsum row x) as (H1 & H2 & i & Hi & Hxi & _);
      [rewrite Hrows; set_solver | done|]. split_and!; [done..|]. by exists i.
Qed.
End Lowest.

(** ** Host routes *)

Abbreviation route := (LUID * Prefix * Addr)%type.

(** [added] has the routes this process added and has not asked to delete since;
    [present] those that the system has. *)
Class NetLaws (W : Type) `{NetSystem W} := {
  added : W -> gset route;
  present : W -> route -> Prop;
  prefixOrder_perm : forall s, Permutation (prefixOrder s) (elements s);
  add_ok : forall l p n x w w', AddRoute l p n x w = (Ok tt, w') -> added w' = {[(l, p, n)]} ∪ added w;
  add_err : forall l p n x w e w', AddRoute l p n x w = (Err e, w') -> added w' = added w;
  delete_added : forall l p n w, added (DeleteRoute l p n w) = added w ∖ {[(l, p, n)]};
  bind4_added : forall i b w, added (BindSocketToInterface4 i b w).2 = added w;
  bind6_added : forall i b w, added (BindSocketToInterface6 i b w).2 = added w;
  rebind_added : forall w, added (rebind w).2 = added w;
  add_present : forall l p n x w w', AddRoute l p n x w = (Ok tt, w') -> present w' (l, p, n);
  add_exists : forall l p n x w w',
    AddRoute l p n x w = (Err (ErrCode ERROR_OBJECT_ALREADY_EXISTS), w') -> present w' (l, p, n);
  add_keeps : forall l p n x w r w' rt, AddRoute l p n x w = (r, w') -> present w rt -> present w' rt
}.

Section Routes.
Context {W : Type} `{NetLaws W}.

Definition hostRoute (g : defaultGateway) (host : Prefix) : route := (gw_luid g, host, gw_nextHop g).

(** The routes a family owns. *)
Definition famRoutes (f : defaultRouteFamily) : gset route := set_map (hostRoute (gateway f)) (owned f).

Definition host_of (r : route) : Prefix := r.1.2.

Lemma elem_famRoutes r f : r ∈ famRoutes f <-> exists host, r = hostRoute (gateway f) host /\ host ∈ owned f.
Proof. unfold famRoutes. rewrite elem_of_map. done. Qed.

Lemma deleteRoutes_added g own w : added (deleteRoutes g own w) = added w ∖ set_map (hostRoute g) own.
Proof.
  unfold deleteRoutes. assert (Hl : forall l w, added (fold_left (fun w host => DeleteRoute (gw_luid g) host (gw_nextHop g) w) l w)
                              = added w ∖ list_to_set (map (hostRoute g) l)).
  { clear w. induction l as [|h l IH]; intros w; cbn; [set_solver|]. rewrite IH, delete_added. set_solver. }
  rewrite Hl. f_equal. apply set_eq. intros r. rewrite elem_of_list_to_set, elem_of_map, list_elem_of_fmap.
  setoid_rewrite prefixOrder_perm. setoid_rewrite elem_of_elements. done.
Qed.

Lemma addHosts_added g hs own moved w own' moved' err w' R :
  addHosts g hs own moved w = (own', moved', err, w') ->
  added w = set_map (hostRoute g) own ∪ R ->
  added w' = set_map (hostRoute g) own' ∪ R /\ own' ⊆ own ∪ list_to_set hs /\ (gw_luid g = 0 -> own' = own).
Proof.
  revert own moved w. induction hs as [|h hs IH]; intros own moved w; cbn [addHosts].
  { intros [= <- <- <- <-] Ha. split_and!; [done | apply union_subseteq_l | done]. }
  destruct (Z.eqb_spec (gw_luid g) 0) as [H0'|H0'].
  { intros Hh Ha. apply (IH _ _ _ Hh) in Ha as (Hx1 & Hx2 & Hx3). split_and!; [done | clear -Hx2; set_solver | done]. }
  destruct (AddRoute _ h _ _ w) as [[[]|e] w1] eqn:E.
  - apply add_ok in E. intros Hh Ha. apply IH in Hh as (Hx1 & Hx2 & Hx3); [|by rewrite E, Ha, set_map_union_L, set_map_singleton_L, (assoc_L (∪))].
    split_and!; [done | clear -Hx2; set_solver | done].
  - apply add_err in E. case_bool_decide.
    + intros Hh Ha. apply IH in Hh as (Hx1 & Hx2 & Hx3); [|by rewrite E]. split_and!; [done | clear -Hx2; set_solver | done].
    + intros [= <- <- <- <-] Ha. rewrite E. split_and!; [done | apply union_subseteq_l | done].
Qed.

(** What a family's routes are: to its hosts, through another interface. *)
Definition famOk (ours : LUID) (f : defaultRouteFamily) : Prop :=
  owned f ⊆ list_to_set (hosts f) /\ (owned f <> ∅ -> gw_luid (gateway f) <> 0 /\ gw_luid (gateway f) <> ours).

(** Routes of others, to none of the family's hosts. *)
Definition frame (f : defaultRouteFamily) (R : gset route) : Prop := forall r, r ∈ R -> host_of r ∉ hosts f.

Lemma lowest_not_ours family ours w rows best :
  gw_luid (lowestLoop family ours w rows best noGateway) = 0 \/ gw_luid (lowestLoop family ours w rows best noGateway) <> ours.
Proof.
  destruct (lowestLoop_spec family ours w rows best noGateway) as [[-> _] | (row & x & _ & -> & (b & a & _ & Hx & _))]; [by left|].
  right. cbn. unfold routeMetric in Hx. destruct (Z.eqb_spec (fr_InterfaceLUID row) ours); [|done]. by rewrite orb_true_r in Hx.
Qed.

Lemma updateFamily_added ours f w f' moved err w' R :
  updateFamily ours f w = (f', moved, err, w') -> famOk ours f -> frame f R -> added w = famRoutes f ∪ R ->
  added w' = famRoutes f' ∪ R /\ famOk ours f' /\ hosts f' = hosts f /\ df_family f' = df_family f.
Proof.
  unfold updateFamily. intros Hu [Hsub Hown] Hfr Ha. destruct (findDefaultGateway _ ours w) as [g|e] eqn:Eg; [|by inv Hu].
  destruct (_ && _); [by inv Hu|].
  assert (Hluid : gw_luid g = 0 \/ gw_luid g <> ours).
  { unfold findDefaultGateway in Eg. apply rbind_Ok in Eg as (rows & _ & [= <-]). apply lowest_not_ours. }
  set (own0 := if bool_decide (gateway f <> g) then ∅ else owned f).
  assert (Hstart : exists moved0 w0,
    (if bool_decide (gateway f <> g) then (∅, negb (length (hosts f) =? 0)%nat, deleteRoutes (gateway f) (owned f) w)
     else (owned f, false, w)) = (own0, moved0, w0)
    /\ added w0 = set_map (hostRoute g) own0 ∪ R /\ own0 ⊆ owned f /\ (own0 <> ∅ -> g = gateway f)).
  { subst own0. case_bool_decide as Hg; eexists _, _; (split; [done|]).
    - rewrite deleteRoutes_added, Ha. fold (famRoutes f). split_and!; [|set_solver | done].
      assert (Hdis : famRoutes f ## R); [|clear -Hdis; set_solver]. intros r Hr HR. apply elem_famRoutes in Hr as (h & -> & Hh).
      apply Hfr in HR. cbn in HR. set_solver.
    - subst g. split_and!; [exact Ha | done | done]. }
  destruct Hstart as (moved0 & w0 & Hst & Ha0 & Hown0 & Hg0). rewrite Hst in Hu.
  destruct (addHosts g (hosts f) own0 moved0 w0) as [[[own' mv'] er'] w1] eqn:Eh. inv Hu.
  apply (addHosts_added _ _ _ _ _ _ _ _ _ R) in Eh as (Hx1 & Hx2 & Hx3); [|done].
  unfold famRoutes, famOk. cbn [gateway owned hosts df_family]. split_and!; [done | clear -Hx2 Hown0 Hsub; set_solver | | done | done].
  intros Hne. destruct (Z.eq_dec (gw_luid g) 0) as [Hz|Hz]; [|destruct Hluid; split; done].
  rewrite (Hx3 Hz) in Hne. assert (Heq : g = gateway f) by auto.
  assert (Hne' : owned f <> ∅) by (clear -Hne Hown0; set_solver). destruct (Hown Hne') as [Hnz _]. by rewrite <- Heq in Hnz.
Qed.

(** ** The families together *)

Definition monRoutes (fs : list defaultRouteFamily) : gset route := ⋃ (map famRoutes fs).
Arguments monRoutes : simpl never.

Definition disjointHosts (f f' : defaultRouteFamily) : Prop := forall h, h ∈ hosts f -> h ∉ hosts f'.

Fixpoint apart (fs : list defaultRouteFamily) : Prop :=
  match fs with
  | [] => True
  | f :: fs' => Forall (fun f' => disjointHosts f f' /\ disjointHosts f' f) fs' /\ apart fs'
  end.

Lemma apart_hosts fs fs' : map hosts fs = map hosts fs' -> apart fs -> apart fs'.
Proof.
  revert fs'. induction fs as [|f fs IH]; intros [|f' fs'] He Ha; try done. injection He as He1 He2. destruct Ha as [Hf Ha].
  split; [|by apply IH]. apply Forall_forall. intros x Hx. 
  assert (Hx' : hosts x ∈ map hosts fs') by (apply list_elem_of_fmap; by exists x).
  rewrite <- He2 in Hx'. apply list_elem_of_fmap in Hx' as (y & Hxy & Hy). rewrite Forall_forall in Hf. destruct (Hf y Hy) as [Hd1 Hd2].
  unfold disjointHosts in *. by rewrite Hxy, <- He1.
Qed.

Lemma fam_host ours f r : famOk ours f -> r ∈ famRoutes f -> host_of r ∈ hosts f.
Proof. intros [Hs _] (h & -> & Hh)%elem_famRoutes. cbn. set_solver. Qed.

Lemma monRoutes_cons f fs : monRoutes (f :: fs) = famRoutes f ∪ monRoutes fs.
Proof. done. Qed.

Lemma elem_monRoutes r fs : r ∈ monRoutes fs <-> exists f, f ∈ fs /\ r ∈ famRoutes f.
Proof.
  induction fs as [|f fs IH]; [unfold monRoutes; cbn; set_solver|]. rewrite monRoutes_cons, elem_of_union, IH. set_solver.
Qed.

Lemma mon_frame ours f fs :
  Forall (famOk ours) fs -> Forall (fun f' => disjointHosts f f' /\ disjointHosts f' f) fs -> frame f (monRoutes fs).
Proof.
  intros Hok Hd r (f' & Hf' & Hr)%elem_monRoutes. rewrite Forall_forall in Hok, Hd. apply (Hd f' Hf').
  eapply fam_host; [by apply Hok | done].
Qed.

Lemma frame_union f R1 R2 : frame f R1 -> frame f R2 -> frame f (R1 ∪ R2).
Proof. intros H1' H2' r [Hr|Hr]%elem_of_union; [by apply H1' | by apply H2']. Qed.

Lemma updateLocked_added ours fs w fs' moved err w' R :
  updateLocked ours fs w = (fs', moved, err, w') -> Forall (famOk ours) fs -> apart fs -> Forall (fun f => frame f R) fs ->
  added w = monRoutes fs ∪ R ->
  added w' = monRoutes fs' ∪ R /\ Forall (famOk ours) fs' /\ map hosts fs' = map hosts fs.
Proof.
  revert w fs' moved err w' R. induction fs as [|f fs IH]; intros w fs' moved err w' R; cbn [updateLocked].
  { intros [= <- <- <- <-] _ _ _ Ha. by split_and!. }
  destruct (updateFamily ours f w) as [[[f1 mv1] er1] w1] eqn:E1. destruct (updateLocked ours fs w1) as [[[fs1 mv2] er2] w2] eqn:E2.
  intros [= <- <- <- <-] Hok [Hd Hap] Hfr Ha. inv Hok. inv Hfr.
  apply (updateFamily_added _ _ _ _ _ _ _ (monRoutes fs ∪ R)) in E1 as (Ha1 & Hok1 & Hh1 & _); [| done | |].
  2:{ apply frame_union; [by eapply mon_frame | done]. }
  2:{ rewrite Ha, monRoutes_cons. by rewrite (assoc_L (∪)). }
  apply (IH _ _ _ _ _ (famRoutes f1 ∪ R)) in E2 as (Ha2 & Hok2 & Hh2); [| done | done | |].
  - split_and!; [| by constructor | cbn; by rewrite Hh1, Hh2].
    rewrite Ha2, monRoutes_cons, !(assoc_L (∪)). f_equal. apply (comm_L (∪)).
  - rewrite Forall_forall in *. intros f' Hf'. apply frame_union; [|by auto]. intros r Hr. apply (fam_host ours f1) in Hr; [|done].
    rewrite Hh1 in Hr. by apply (Hd f' Hf').
  - rewrite Ha1, !(assoc_L (∪)). f_equal. apply (comm_L (∪)).
Qed.

Lemma removeHostRoutes_added fs w :
  added (removeHostRoutesLocked fs w).2 = added w ∖ monRoutes fs.
Proof.
  revert w. induction fs as [|f fs IH]; intros w; cbn [removeHostRoutesLocked]; [unfold monRoutes; cbn; by rewrite difference_empty_L|].
  specialize (IH (deleteRoutes (gateway f) (owned f) w)).
  destruct (removeHostRoutesLocked fs _) as [fs1 w1] eqn:E. cbn [snd] in *. rewrite IH, deleteRoutes_added, monRoutes_cons.
  by rewrite difference_difference_l_L.
Qed.

Lemma pinSockets_added fs w : added (pinSocketsLocked fs w).2 = added w.
Proof.
  revert w. induction fs as [|f fs IH]; intros w; cbn [pinSocketsLocked]; [done|].
  destruct (df_family f); [pose proof (bind4_added (gw_index (gateway f)) (blackhole f && (gw_index (gateway f) =? 0)) w) as Hb;
    destruct (BindSocketToInterface4 _ _ w) as [[]  w1] | pose proof (bind6_added (gw_index (gateway f)) (blackhole f && (gw_index (gateway f) =? 0)) w) as Hb;
    destruct (BindSocketToInterface6 _ _ w) as [[] w1]]; cbn in *; rewrite ?IH; exact Hb.
Qed.

Lemma markIncomplete_routes prefix fs ours :
  let fs' := (markIncomplete prefix fs).1 in
  monRoutes fs' = monRoutes fs /\ map hosts fs' = map hosts fs /\ (Forall (famOk ours) fs -> Forall (famOk ours) fs').
Proof.
  induction fs as [|f fs (IH1 & IH2 & IH3)]; cbn [markIncomplete]; [done|]. destruct (existsb _ _).
  - cbn. split_and!; [done..|]. intros Hok. inv Hok. by constructor.
  - destruct (markIncomplete prefix fs) as [fs1 b]. cbn in *. split_and!; [by rewrite !monRoutes_cons, IH1 | by rewrite IH2|].
    intros Hok. inv Hok. constructor; auto.
Qed.

(** ** The life of a monitor *)

(** What happens to a monitor: its own operations, and whatever else changes the
    system without touching the routes this process added. *)
Inductive mstep : defaultRouteMonitor * W -> defaultRouteMonitor * W -> Prop :=
  | step_start (reg : M W (list changeCallback)) m w :
      (forall w, added (reg w).2 = added w) -> mstep (m, w) (start reg m w).2
  | step_update m w : mstep (m, w) (update m w)
  | step_deleted route m w : mstep (m, w) ((hostRouteDeleted m route).1, w)
  | step_system m w w' : added w' = added w -> mstep (m, w) (m, w').

Record monInv (config : Config) (ours : LUID) (mw : defaultRouteMonitor * W) : Prop := mkMonInv {
  mi_luid : ourLUID mw.1 = ours;
  mi_ok : Forall (famOk ours) (families mw.1);
  mi_apart : apart (families mw.1);
  mi_hosts : map hosts (families mw.1) = map (webSocketServerHosts config) [AF_INET; AF_INET6];
  mi_added : added mw.2 = monRoutes (families mw.1)
}.

Lemma serverHost_family family hs peer :
  Forall (fun p => Is4 (p_addr p) = isINET family) hs -> Forall (fun p => Is4 (p_addr p) = isINET family) (serverHost family hs peer).
Proof.
  intros Hh. unfold serverHost. case_bool_decide; [done|]. destruct (ParseAddr _) as [a|]; [|done].
  destruct (eqb _ _) eqn:E; cbn [negb]; [|done]. destruct (existsb _ _); [done|]. apply eqb_prop in E.
  apply Forall_app_2; [done|]. constructor; [|done]. rewrite <- E. by destruct (Unmap a).
Qed.

Lemma webSocketServerHosts_family config family :
  Forall (fun p => Is4 (p_addr p) = isINET family) (webSocketServerHosts config family).
Proof.
  unfold webSocketServerHosts. assert (Hgen : forall ps hs, Forall (fun p => Is4 (p_addr p) = isINET family) hs ->
    Forall (fun p => Is4 (p_addr p) = isINET family) (fold_left (serverHost family) ps hs)); [|by apply Hgen].
  induction ps as [|p ps IH]; intros hs Hh; [done|]. cbn. by apply IH, serverHost_family.
Qed.

Lemma hosts_apart config fs :
  map hosts fs = map (webSocketServerHosts config) [AF_INET; AF_INET6] -> apart fs.
Proof.
  destruct fs as [|f4 [|f6 [|]]]; try done. intros [= E4 E6].
  pose proof (webSocketServerHosts_family config AF_INET) as H4. pose proof (webSocketServerHosts_family config AF_INET6) as H6.
  rewrite <- E4 in H4. rewrite <- E6 in H6. rewrite Forall_forall in H4, H6.
  assert (Hd : forall h, h ∈ hosts f4 -> h ∈ hosts f6 -> False) by (intros h Ha Hb; apply H4 in Ha; apply H6 in Hb; by rewrite Ha in Hb).
  split; [|by split]. constructor; [|done]. split; intros h Ha Hb; by eapply Hd.
Qed.

Lemma monInv_step config ours mw mw' : monInv config ours mw -> mstep mw mw' -> monInv config ours mw'.
Proof.
  intros [Hl Hok Hap Hh Ha] Hs. destruct Hs as [reg m w Hreg | m w | route m w | m w w' Hw]; cbn [fst snd] in *.
  - unfold start. pose proof (pinSockets_added (families m) w) as Hp. destruct (pinSocketsLocked (families m) w) as [[u|e] w1];
      [pose proof (Hreg w1); destruct (reg w1) as [[u'|e] w2]|]; cbn in *; split; cbn; try done; by rewrite ?Hp; congruence.
  - unfold update. case_bool_decide; [by split|].
    destruct (updateLocked (ourLUID m) (families m) w) as [[[fs mv] er] w1] eqn:E. rewrite Hl in *.
    apply (updateLocked_added _ _ _ _ _ _ _ ∅) in E as (Ha1 & Hok1 & Hh1); [| done | done | | by rewrite Ha, union_empty_r_L].
    2:{ apply Forall_forall. intros f _ r Hr. by apply not_elem_of_empty in Hr. }
    rewrite union_empty_r_L in Ha1. split; cbn [fst snd ourLUID families]; [done | done | | by rewrite Hh1|].
    + by eapply apart_hosts; [symmetry; exact Hh1|].
    + rewrite pinSockets_added. destruct mv; [by rewrite rebind_added | done].
  - destruct (markIncomplete_routes (fr_DestinationPrefix route) (families m) ours) as (Hm1 & Hm2 & Hm3).
    unfold hostRouteDeleted. destruct (markIncomplete _ (families m)) as [fs b]. cbn in *.
    split; cbn; [done | auto | by eapply apart_hosts; [symmetry; exact Hm2|] | by rewrite Hm2 | by rewrite Hm1].
  - split; cbn; try done. by rewrite Hw.
Qed.

Lemma monInv_steps config ours mw mw' : monInv config ours mw -> rtc mstep mw mw' -> monInv config ours mw'.
Proof. intros Hi Hs. induction Hs; [done|]. eauto using monInv_step. Qed.


(** ** An update that ends without an error *)

Lemma addHosts_present g hs own moved w own' moved' w' :
  addHosts g hs own moved w = (own', moved', None, w') -> gw_luid g <> 0 ->
  (forall x, present w x -> present w' x) /\ forall h, h ∈ hs -> present w' (hostRoute g h).
Proof.
  revert own moved w. induction hs as [|h hs IH]; intros own moved w; cbn [addHosts].
  { intros [= <- <- <-] _. split; [done|]. intros h Hh. by apply elem_of_nil in Hh. }
  intros Hh Hz. rewrite (proj2 (Z.eqb_neq _ _) Hz) in Hh.
  assert (Hgo : forall w1 own1 moved1 r, AddRoute (gw_luid g) h (gw_nextHop g) 0 w = (r, w1) -> present w1 (hostRoute g h) ->
    addHosts g hs own1 moved1 w1 = (own', moved', None, w') ->
    (forall x, present w x -> present w' x) /\ forall h', h' ∈ h :: hs -> present w' (hostRoute g h')).
  { intros w1 own1 moved1 r Er Hp Hr. apply IH in Hr as [Hk Hall]; [|done]. split.
    - intros x Hx. eapply Hk, add_keeps; [exact Er | exact Hx].
    - intros h' [->|Hin]%elem_of_cons; auto. }
  destruct (AddRoute _ h _ _ w) as [[[]|e] w1] eqn:E.
  - eapply Hgo; [done | by apply add_present in E | exact Hh].
  - case_bool_decide as Hb; [|done]. subst e. eapply Hgo; [done | by apply add_exists in E | exact Hh].
Qed.

(** An update of a family follows the default route: without an error, the
    family has the gateway that the table shows and is complete, and if its
    gateway had moved or it was incomplete, there is a route through the new
    gateway to each of its servers; with an error, it is as it was or marked
    incomplete, so that the next update tries again. *)
Theorem updateFamily_follows ours f w f' moved err w' :
  updateFamily ours f w = (f', moved, err, w') ->
  match err with
  | None => findDefaultGateway (df_family f) ours w = Ok (gateway f') /\ incomplete f' = false
      /\ (gateway f' <> gateway f \/ incomplete f = true -> gw_luid (gateway f') <> 0 ->
          forall h, h ∈ hosts f -> present w' (hostRoute (gateway f') h))
  | Some _ => f' = f /\ w' = w \/ incomplete f' = true
  end.
Proof.
  unfold updateFamily. destruct (findDefaultGateway _ ours w) as [g|e] eqn:Eg; [|intros [= <- <- <- <-]; by left].
  destruct (bool_decide (g = gateway f) && negb (incomplete f)) eqn:Ec.
  { intros [= <- <- <- <-]. apply andb_true_iff in Ec as [Eq%bool_decide_eq_true Ei%negb_true_iff]. subst g.
    split_and!; [done..|]. rewrite Ei. by intros [|]. }
  destruct (if bool_decide (gateway f <> g) then _ else _) as [[own moved0] w0].
  destruct (addHosts g (hosts f) own moved0 w0) as [[[own' mv'] er'] w1] eqn:Eh. intros [= <- <- <- <-].
  destruct er'; [by right|]. cbn. split_and!; [done..|]. intros _ Hz. by eapply addHosts_present.
Qed.
End Routes.

(** ** The MTU of a userspace tunnel *)

Lemma clampLoop_min mtus mtu :
  0 < mtu -> clampLoop mtus mtu <= mtu /\ Forall (fun m => 0 < m -> clampLoop mtus mtu <= m) mtus
             /\ (clampLoop mtus mtu = mtu \/ clampLoop mtus mtu ∈ mtus) /\ 0 < clampLoop mtus mtu.
Proof.
  unfold clampLoop. revert mtu. induction mtus as [|m mtus IH]; intros mtu Hm; cbn [fold_left].
  { split_and!; [lia | constructor | by left | done]. }
  destruct (Z.ltb_spec 0 m), (Z.ltb_spec m mtu); cbn [andb];
    (match goal with |- context [fold_left ?f mtus ?x] => destruct (IH x) as (H1 & H2 & H3 & H4); [lia|] end);
    (split_and!; [lia | constructor; [lia | done] | | done]); destruct H3 as [H3|H3]; rewrite ?H3;
    (by left) || (right; set_solver).
Qed.

(** Whichever monitor reports, the device gets the least of the MTUs reported
    last by the two families. *)
Lemma ForceMTU_min {W} `{NetSystem W} index mtu mtus (w : W) :
  0 < mtu -> (index < length mtus)%nat ->
  exists forced, familyForceMTU index mtu mtus w = (<[index := mtu]> mtus, ForceMTU forced w)
    /\ forced ∈ <[index := mtu]> mtus /\ Forall (fun m => 0 < m -> forced <= m) (<[index := mtu]> mtus).
Proof.
  intros Hm Hi. eexists. split; [done|]. destruct (clampLoop_min (<[index := mtu]> mtus) mtu Hm) as (_ & Hall & Hin & _).
  split; [|done]. destruct Hin as [-> | Hin]; [|done]. by apply list_elem_of_lookup_2 with index, list_lookup_insert_eq.
Qed.
