(* ===== verification/TunnelConfig.v ===== *)
(** * The network configuration of a tunnel, and its firewall

    configureInterface ends, and leaves the interface with what the
    configuration says; enableFirewall restricts exactly the tunnels that carry
    all traffic. *)

From S2P Require Import Prelude GoStrings GoNum Netip Config Effects TunnelNet.
From S2P Require Import Firewall FirewallTheorems KillSwitch.
Import TunnelNet.
Local Open Scope Z_scope.

(** ** What the calls of winipcfg set *)

Record netState : Type := mkNet {
  ns_routes : list (Prefix * Addr * Z);
  ns_addresses : list Prefix;
  ns_interface : MibIPInterfaceRow;
  ns_dns : result (list Z) * result (list Z)
}.

(** The servers of a family and the search list, as the texts that Windows gets. *)
Definition dnsTexts (family : AddressFamily) (servers : list Addr) (domains : list gostring)
    : result (list Z) * result (list Z) :=
  (UTF16FromString (Join (map AddrString (List.filter (ofFamily family) servers)) (str ",")),
   UTF16FromString (Join domains (str ","))).

(** An address without a zone. *)
Definition plainAddr (a : Addr) : Prop := validAddr a /\ withoutZone a = a.

(** All but the addresses. *)
Definition sameBarAddresses (s s' : netState) : Prop :=
  ns_routes s' = ns_routes s /\ ns_interface s' = ns_interface s /\ ns_dns s' = ns_dns s.

(** [net] is the state of one family of one interface. [stuck] are the addresses of
    an interface that could not be deleted when it was flushed, which the flush
    does not report. *)
Class NetConfigLaws (W : Type) `{NetSystem W} := {
  net : W -> LUID -> AddressFamily -> netState;
  stuck : LUID -> AddressFamily -> Prefix -> Prop;
  routeOrder_perm : forall s, Permutation (routeOrder s) (elements s);
  flush_routes : forall l f w w', FlushRoutes l f w = (Ok tt, w') ->
    net w' l f = mkNet [] (ns_addresses (net w l f)) (ns_interface (net w l f)) (ns_dns (net w l f));
  add_route : forall l p n x f w w', AddRoute l p n x w = (Ok tt, w') -> ofFamily f (p_addr p) = true ->
    validPrefix p -> plainAddr n -> 0 <= x < 2 ^ 32 ->
    net w' l f = mkNet (ns_routes (net w l f) ++ [(p, n, x)]) (ns_addresses (net w l f)) (ns_interface (net w l f))
                   (ns_dns (net w l f));
  flush_addresses : forall l f w r w', FlushIPAddresses l f w = (r, w') ->
    sameBarAddresses (net w l f) (net w' l f) /\ (r = Ok tt -> Forall (stuck l f) (ns_addresses (net w' l f)));
  add_address : forall l a f w r w', AddIPAddress l a w = (r, w') -> ofFamily f (p_addr a) = true -> validPrefix a ->
    sameBarAddresses (net w l f) (net w' l f) /\ (r = Ok tt -> ns_addresses (net w' l f) = ns_addresses (net w l f) ++ [a]);
  delete_address : forall l a w l' f, sameBarAddresses (net w l' f) (net (DeleteIPAddress l a w) l' f);
  interface_set : forall l f i w w', IPInterface_Set l f i w = (Ok tt, w') ->
    net w' l f = mkNet (ns_routes (net w l f)) (ns_addresses (net w l f)) i (ns_dns (net w l f));
  dns_set : forall l f d s w w', SetDNS l f d s w = (Ok tt, w') ->
    net w' l f = mkNet (ns_routes (net w l f)) (ns_addresses (net w l f)) (ns_interface (net w l f)) (dnsTexts f d s)
}.

(** The addresses of the family, behind those that are stuck. *)
Definition addressesSet (stuck : Prefix -> Prop) (family : AddressFamily) (addrs l : list Prefix) : Prop :=
  exists left, l = left ++ filter (fun a => ofFamily family (p_addr a) = true) addrs /\ Forall stuck left.

Section Configure.
Context {W : Type} `{NetConfigLaws W}.

Lemma sameBar_trans s1 s2 s3 : sameBarAddresses s1 s2 -> sameBarAddresses s2 s3 -> sameBarAddresses s1 s3.
Proof. unfold sameBarAddresses. intuition congruence. Qed.

Definition routeTuple (rd : RouteData) : Prefix * Addr * Z := (rd_Destination rd, rd_NextHop rd, rd_Metric rd).

(** A route that can be told to Windows and read back. *)
Definition cleanRoute (rd : RouteData) : Prop :=
  validPrefix (rd_Destination rd) /\ plainAddr (rd_NextHop rd) /\ 0 <= rd_Metric rd < 2 ^ 32.

Lemma addRoutes_spec luid family rds w w' :
  Forall cleanRoute rds -> addRoutes luid family rds w = (Ok tt, w') ->
  net w' luid family = mkNet (ns_routes (net w luid family)
      ++ map routeTuple (filter (fun rd => ofFamily family (p_addr (rd_Destination rd)) = true) rds))
    (ns_addresses (net w luid family)) (ns_interface (net w luid family)) (ns_dns (net w luid family)).
Proof.
  intros Hc. revert w. induction Hc as [|rd rds (Hp & Hn & Hm) _ IH]; intros w; cbn [addRoutes].
  { intros [= <-]. rewrite app_nil_r. by destruct (net w luid family). }
  rewrite filter_cons. destruct (ofFamily _ _) eqn:Ef; cbn [negb].
  - rewrite decide_True by done. unfold mthen. destruct (AddRoute _ _ _ _ w) as [[[]|e] w1] eqn:Ea; [|done].
    intros Hr. apply IH in Hr. rewrite Hr, (add_route _ _ _ _ _ _ _ Ea Ef Hp Hn Hm). cbn. by rewrite <- app_assoc.
  - rewrite decide_False by done. apply IH.
Qed.

Lemma SetRoutes_spec luid family rds w w' :
  Forall cleanRoute rds -> SetRoutesForFamily luid family rds w = (Ok tt, w') ->
  ns_routes (net w' luid family) = map routeTuple (filter (fun rd => ofFamily family (p_addr (rd_Destination rd)) = true) rds).
Proof.
  intros Hc. unfold SetRoutesForFamily, mthen. destruct (FlushRoutes luid family w) as [[[]|e] w1] eqn:Ef; [|done].
  intros Hr%addRoutes_spec; [|done]. by rewrite Hr, (flush_routes _ _ _ _ Ef).
Qed.

Lemma addAddresses_spec luid family addrs w r w' :
  Forall validPrefix addrs -> addAddresses luid family addrs w = (r, w') ->
  sameBarAddresses (net w luid family) (net w' luid family)
  /\ (r = Ok tt -> ns_addresses (net w' luid family)
                   = ns_addresses (net w luid family) ++ filter (fun a => ofFamily family (p_addr a) = true) addrs).
Proof.
  intros Hc. revert w. induction Hc as [|a addrs Hv _ IH]; intros w; cbn [addAddresses].
  { intros [= <- <-]. split; [done|]. intros _. by rewrite app_nil_r. }
  rewrite filter_cons. destruct (ofFamily _ _) eqn:Ef; cbn [negb].
  - rewrite decide_True by done. unfold mthen. destruct (AddIPAddress _ _ w) as [[[]|e] w1] eqn:Ea;
      destruct (add_address _ _ _ _ _ _ Ea Ef Hv) as [Hs Ha].
    + intros [Hs2 Ha2]%IH. split; [by eapply sameBar_trans|]. intros Hr. rewrite (Ha2 Hr), (Ha eq_refl). by rewrite <- app_assoc.
    + intros [= <- <-]. by split.
  - rewrite decide_False by done. apply IH.
Qed.

Lemma SetAddresses_spec luid family addrs w r w' :
  Forall validPrefix addrs -> SetIPAddressesForFamily luid family addrs w = (r, w') ->
  sameBarAddresses (net w luid family) (net w' luid family)
  /\ (r = Ok tt -> addressesSet (stuck luid family) family addrs (ns_addresses (net w' luid family))).
Proof.
  intros Hc. unfold SetIPAddressesForFamily, mthen. destruct (FlushIPAddresses luid family w) as [[[]|e] w1] eqn:Ef;
    destruct (flush_addresses _ _ _ _ _ Ef) as [Hs Ha].
  - intros [Hs2 Ha2]%addAddresses_spec; [|done]. split; [by eapply sameBar_trans|]. intros Hr. eexists. split; [exact (Ha2 Hr)|exact (Ha eq_refl)].
  - intros [= <- <-]. by split.
Qed.

Lemma cleanup_same family addrs w luid f :
  sameBarAddresses (net w luid f) (net (cleanupAddressesOnDisconnectedInterfaces family addrs w) luid f).
Proof.
  unfold cleanupAddressesOnDisconnectedInterfaces. destruct (_ =? _)%nat; [done|]. destruct (GetAdaptersAddresses family w) as [ifs|]; [|done].
  revert w. induction ifs as [|i ifs IH]; intros w; cbn [fold_left]; [done|].
  eapply sameBar_trans; [|apply IH]. destruct (_ =? _); [done|]. generalize (ad_Unicast i) as us. intros us. revert w.
  induction us as [|[ip bits] us IHu]; intros w; cbn [fold_left]; [done|]. eapply sameBar_trans; [|apply IHu].
  unfold cleanupAddress. case_bool_decide; [apply delete_address | done].
Qed.

Lemma setAddresses_spec luid family addrs w w' :
  Forall validPrefix addrs -> setAddresses luid family addrs w = (Ok tt, w') ->
  sameBarAddresses (net w luid family) (net w' luid family)
  /\ addressesSet (stuck luid family) family addrs (ns_addresses (net w' luid family)).
Proof.
  intros Hc. unfold setAddresses.
  destruct (SetIPAddressesForFamily luid family addrs w) as [[[]|e] w1] eqn:E; apply SetAddresses_spec in E as [Hs Ha]; try done.
  - intros [= <-]. split; [done|]. by apply Ha.
  - case_bool_decide; [|done]. intros [Hs2 Ha2]%SetAddresses_spec; [|done]. split; [|by apply Ha2].
    eapply sameBar_trans; [exact Hs|]. eapply sameBar_trans; [apply cleanup_same | exact Hs2].
Qed.

(** ** What a configured interface has *)

Definition routesConfigured (family : AddressFamily) (conf : Config) (routes : list (Prefix * Addr * Z)) : Prop :=
  NoDup routes /\ forall p n x, (p, n, x) ∈ routes <-> exists ip, ip ∈ allowedIPs conf
    /\ ofFamily family (p_addr (Masked ip)) = true /\ (p, n, x) = routeTuple (allowedRoute ip).

Record configured (stuck : Prefix -> Prop) (family : AddressFamily) (conf : Config) (s : netState) : Prop := mkConfigured {
  cf_routes : i_TableOff (c_Interface conf) = false -> foundRoute family conf = true -> routesConfigured family conf (ns_routes s);
  cf_addresses : foundAddress family conf = true ->
    addressesSet stuck family (i_Addresses (c_Interface conf)) (ns_addresses s);
  cf_interface : exists before, ns_interface s = configuredInterface family conf before;
  cf_dns : ns_dns s = dnsTexts family (i_DNS (c_Interface conf)) (i_DNSSearch (c_Interface conf))
}.

Lemma deduplicated_configured family conf :
  routesConfigured family conf
    (map routeTuple (filter (fun rd => ofFamily family (p_addr (rd_Destination rd)) = true) (deduplicatedRoutes conf))).
Proof.
  assert (Hinj : Inj (=) (=) routeTuple) by (intros [] [] [= -> -> ->]; done).
  assert (Hp : deduplicatedRoutes conf ≡ₚ elements (list_to_set (map allowedRoute (allowedIPs conf)) : gset RouteData))
    by apply routeOrder_perm. split.
  - apply NoDup_fmap_2; [done|]. apply NoDup_filter. rewrite Hp. apply NoDup_elements.
  - intros p n x. rewrite list_elem_of_fmap. setoid_rewrite list_elem_of_filter. setoid_rewrite Hp.
    setoid_rewrite elem_of_elements. setoid_rewrite elem_of_list_to_set. setoid_rewrite list_elem_of_fmap. split.
    + intros (rd & -> & Hf & ip & -> & Hin). by exists ip.
    + intros (ip & Hin & Hf & ->). exists (allowedRoute ip). split_and!; [done..|]. by exists ip.
Qed.

Lemma mwhen_spec b (m : M W unit) w w' :
  mwhen b m w = (Ok tt, w') -> if b then m w = (Ok tt, w') else w' = w.
Proof. destruct b; cbn; [done|]. by intros [= <-]. Qed.

Lemma stepThen_return retry (m : M W unit) k w w' :
  stepThen retry m k w = (Return (Ok tt), w') -> exists w1, m w = (Ok tt, w1) /\ k w1 = (Return (Ok tt), w').
Proof.
  unfold stepThen. destruct (m w) as [[[]|e] w1]; [by exists w1|]. unfold failed. by destruct (_ && _).
Qed.

(** A configuration whose prefixes are as parsing makes them. *)
Definition plainConfig (conf : Config) : Prop :=
  Forall validPrefix (allowedIPs conf) /\ Forall validPrefix (i_Addresses (c_Interface conf)).

Lemma allowedRoute_clean ip : validPrefix ip -> cleanRoute (allowedRoute ip).
Proof.
  intros Hv. split; [by apply Masked_valid|]. destruct Hv as (Ha & _). unfold allowedRoute. cbn [rd_NextHop rd_Metric].
  split; [|lia]. destruct (p_addr ip) as [|v|v z]; [done|..]; (split; [cbn; lia|done]).
Qed.

Lemma deduplicated_clean conf : Forall validPrefix (allowedIPs conf) -> Forall cleanRoute (deduplicatedRoutes conf).
Proof.
  rewrite !Forall_forall. intros Hv rd. unfold deduplicatedRoutes. rewrite routeOrder_perm, elem_of_elements, elem_of_list_to_set.
  intros (ip & -> & Hin)%list_elem_of_fmap. by apply allowedRoute_clean, Hv.
Qed.

Lemma configureOnce_spec family conf luid retry w w' :
  plainConfig conf ->
  configureOnce family conf luid retry w = (Return (Ok tt), w') -> configured (stuck luid family) family conf (net w' luid family).
Proof.
  intros [Hips Hads]. unfold configureOnce. intros (w1 & Hr%mwhen_spec & (w2 & Ha%mwhen_spec & Hi)%stepThen_return)%stepThen_return.
  destruct (LUID_IPInterface luid family w2) as [ipif|]; [|done].
  apply stepThen_return in Hi as (w3 & Hi%interface_set & (w4 & Hd%dns_set & [= <-])%stepThen_return).
  assert (Hroutes : ns_routes (net w2 luid family) = ns_routes (net w1 luid family)).
  { destruct (foundAddress family conf); [|by subst w2]. by apply setAddresses_spec in Ha as [[? _] _]. }
  rewrite Hi in Hd. split; rewrite Hd; cbn [ns_routes ns_addresses ns_interface ns_dns].
  - intros Ht Hf. rewrite Ht, Hf in Hr. apply SetRoutes_spec in Hr; [|by apply deduplicated_clean]. rewrite Hroutes, Hr. apply deduplicated_configured.
  - intros Hf. rewrite Hf in Ha. by apply setAddresses_spec in Ha as [_ ?].
  - by exists ipif.
  - done.
Qed.

Lemma configureOnce_ends family conf luid w : exists r w', configureOnce family conf luid false w = (Return r, w').
Proof.
  assert (Hf : forall e, failed false e = Return (Err e)) by (intros; unfold failed; by rewrite andb_false_r).
  assert (Hs : forall m k w, (forall w, exists r w', k w = (Return r, w')) -> exists r w', stepThen (W := W) false m k w = (Return r, w')).
  { intros m k w0 Hk. unfold stepThen. destruct (m w0) as [[[]|e] w1]; [apply Hk|]. rewrite Hf. by eexists _, _. }
  unfold configureOnce. apply Hs. intros w1. apply Hs. intros w2. destruct (LUID_IPInterface luid family w2) as [ipif|]; [|by eexists _, _].
  apply Hs. intros w3. apply Hs. intros w4. by eexists _, _.
Qed.

Lemma configureLoop_ends fuel family conf luid retry tries w :
  plainConfig conf ->
  0 <= tries <= 15 -> (Z.to_nat (15 - tries) < fuel)%nat ->
  exists r w', configureLoop fuel family conf luid retry tries w = Some (r, w')
               /\ (r = Ok tt -> configured (stuck luid family) family conf (net w' luid family)).
Proof.
  intros Hpl. revert retry tries w. induction fuel as [|fuel IH]; intros retry tries w Ht Hf; [lia|]. cbn [configureLoop].
  set (retry' := if 0 <? tries then _ else _). destruct (configureOnce family conf luid retry' w) as [[|r] w1] eqn:E.
  - assert (tries < 15).
    { destruct (Z.ltb_spec tries 15) as [|Hge]; [done|]. assert (retry' = false) as Hr.
      { subst retry'. rewrite (proj2 (Z.ltb_lt _ _)) by lia. by rewrite andb_false_r. }
      rewrite Hr in E. destruct (configureOnce_ends family conf luid w) as (r & w' & E'). congruence. }
    apply IH; lia.
  - exists r, w1. split; [done|]. intros ->. by eapply configureOnce_spec.
Qed.

(** ConfigureInterface ends within sixteen attempts, however its steps fail;
    and when it returns no error the family has, once each, the routes of the
    peers' allowed IPs (unless the table is off or there are none), the
    interface's addresses of that family, besides those that could not be
    deleted, the MTU and metric the configuration
    asks for, and its DNS servers and search domains. *)
Theorem configureInterface_terminates family conf luid w :
  Forall validPrefix (allowedIPs conf) -> Forall validPrefix (i_Addresses (c_Interface conf)) ->
  exists r w', configureInterface 16 family conf luid w = Some (r, w')
               /\ (r = Ok tt -> configured (stuck luid family) family conf (net w' luid family)).
Proof. intros. apply configureLoop_ends; [done|lia..]. Qed.
End Configure.

(** ** What configureInterface leaves alone

    A relation that every call it makes keeps, it keeps. *)
Section Keeps.
Context {W : Type} `{NetSystem W} (R : W -> W -> Prop).
Context (Rrefl : forall w, R w w) (Rtrans : forall w1 w2 w3, R w1 w2 -> R w2 w3 -> R w1 w3) (luid : LUID).
Context (Hflush : forall family, keeping R (FlushRoutes luid family)) (Hadd : forall p n x, keeping R (AddRoute luid p n x)).
Context (Hflush6 : forall family, keeping R (FlushIPAddresses luid family)) (Hadda : forall p, keeping R (AddIPAddress luid p)).
Context (Hdel : forall l p w, R w (DeleteIPAddress l p w)) (Hset : forall family i, keeping R (IPInterface_Set luid family i)).
Context (Hdns : forall family d s, keeping R (SetDNS luid family d s)).

Lemma addRoutes_keeps family rds : keeping R (addRoutes luid family rds).
Proof.
  induction rds as [|rd rds IH]; cbn [addRoutes]; [apply (keeping_value R Rrefl (Ok tt))|]. case_match; [exact IH|].
  apply keeping_bind; auto.
Qed.
Lemma addAddresses_keeps family ads : keeping R (addAddresses luid family ads).
Proof.
  induction ads as [|a ads IH]; cbn [addAddresses]; [apply (keeping_value R Rrefl (Ok tt))|]. case_match; [exact IH|].
  apply keeping_bind; auto.
Qed.

Lemma fold_keeps {A} (f : W -> A -> W) l w : (forall w a, R w (f w a)) -> R w (fold_left f l w).
Proof. intros Hf. revert w; induction l as [|a l IH]; intros w; cbn; [apply Rrefl|]. eapply Rtrans; [apply Hf|apply IH]. Qed.

Lemma cleanup_keeps family ads w : R w (cleanupAddressesOnDisconnectedInterfaces family ads w).
Proof.
  unfold cleanupAddressesOnDisconnectedInterfaces. destruct (_ =? _)%nat; [done|].
  destruct (GetAdaptersAddresses family w) as [ifs|e]; [|done]. apply fold_keeps. intros w1 iface.
  case_match; [done|]. apply fold_keeps. intros w2 [ip bits]. unfold cleanupAddress. by case_match.
Qed.

Lemma setAddresses_keeps family ads : keeping R (setAddresses luid family ads).
Proof.
  assert (Hs : keeping R (SetIPAddressesForFamily luid family ads)) by (apply keeping_bind; auto using addAddresses_keeps).
  intros w r w'. unfold setAddresses.
  destruct (SetIPAddressesForFamily luid family ads w) as [[u|e] w1] eqn:E; [intros [= <- <-]; exact (Hs _ _ _ E)|].
  case_bool_decide; [|intros [= <- <-]; exact (Hs _ _ _ E)].
  intros E2. eapply Rtrans; [exact (Hs _ _ _ E)|]. eapply Rtrans; [apply cleanup_keeps|exact (Hs _ _ _ E2)].
Qed.

Lemma stepThen_keeps b (m : M W unit) k w x w' :
  keeping R m -> (forall w x w', k w = (x, w') -> R w w') -> stepThen b m k w = (x, w') -> R w w'.
Proof.
  intros Hm Hk. unfold stepThen. destruct (m w) as [[u|e] w1] eqn:E.
  - intros E2. eapply Rtrans; [exact (Hm _ _ _ E)|by eapply Hk].
  - intros [= <- <-]. exact (Hm _ _ _ E).
Qed.

Lemma mwhen_keeps b (m : M W unit) : keeping R m -> keeping R (mwhen b m).
Proof. intros Hm. unfold mwhen. destruct b; [done|apply (keeping_value R Rrefl (Ok tt))]. Qed.

Lemma configureOnce_keeps family conf b w x w' : configureOnce family conf luid b w = (x, w') -> R w w'.
Proof.
  unfold configureOnce. apply stepThen_keeps; [apply mwhen_keeps, keeping_bind; auto using addRoutes_keeps|].
  intros w2 x2 w3. apply stepThen_keeps; [apply mwhen_keeps, setAddresses_keeps|]. intros w4 x4 w5.
  destruct (LUID_IPInterface luid family w4) as [i|e]; [|by intros [= <- <-]].
  apply stepThen_keeps; [apply Hset|]. intros w6 x6 w7. apply stepThen_keeps; [apply Hdns|].
  intros w8 x8 w9 [= <- <-]. apply Rrefl.
Qed.

Lemma configureInterface_keeps fuel family conf w r w' :
  configureInterface fuel family conf luid w = Some (r, w') -> R w w'.
Proof.
  unfold configureInterface. generalize (StartedAtBoot w), 0.
  revert w; induction fuel as [|fuel IH]; intros w b t; cbn [configureLoop]; [done|].
  destruct (configureOnce family conf luid _ w) as [x w1] eqn:E. apply configureOnce_keeps in E. destruct x as [|r1].
  - intros E2. eapply Rtrans; [exact E|]. by eapply IH.
  - by intros [= <- <-].
Qed.
End Keeps.

(** ** enableFirewall *)

(** The tunnels that the code restricts: one peer, among whose allowed IPs one is
    0.0.0.0/0 or ::/0 as it stands, and the routing table is not off. *)
Definition namesDefault (conf : Config) : Prop :=
  exists peer ip, c_Peers conf = [peer] /\ i_TableOff (c_Interface conf) = false /\ ip ∈ pr_AllowedIPs peer
    /\ (ip = PrefixFrom IPv4Unspecified 0 \/ ip = PrefixFrom IPv6Unspecified 0).

Lemma defaultPrefix ip :
  validPrefix ip ->
  (p_bits ip =? 0) && bool_decide (ip = Masked ip) = true <-> ip = PrefixFrom IPv4Unspecified 0 \/ ip = PrefixFrom IPv6Unspecified 0.
Proof.
  intros (Hv & Hz & Hb). rewrite andb_true_iff, Z.eqb_eq, bool_decide_eq_true. split; [|by intros [-> | ->]].
  destruct ip as [a b]. cbn in *. intros [-> Hm]. rewrite Hm. unfold Masked. cbn [p_bits p_addr IsValidPrefix Z.leb].
  destruct a as [|v|v z]; [done | left | right]; cbn in Hv; unfold maskTo; by rewrite Z.div_small by (cbn; lia).
Qed.

Lemma doNotRestrict_namesDefault conf :
  Forall validPrefix (allowedIPs conf) -> doNotRestrict conf = false <-> namesDefault conf.
Proof.
  unfold doNotRestrict, namesDefault, allowedIPs. intros Hv. destruct (c_Peers conf) as [|peer [|]]; [naive_solver | | naive_solver].
  cbn in Hv. rewrite app_nil_r in Hv. destruct (i_TableOff _); [naive_solver|]. rewrite negb_false_iff, existsb_exists. split.
  - intros (ip & Hin & Hd). exists peer, ip. apply base.list_elem_of_In in Hin. split_and!; [done..|].
    apply defaultPrefix; [by eapply Forall_forall | done].
  - intros (peer' & ip & [= <-] & _ & Hin & Hd). exists ip. split; [by apply base.list_elem_of_In|].
    apply defaultPrefix; [by eapply Forall_forall | done].
Qed.

(** A prefix of length zero with another address gives the same route, without
    the restriction. *)
Lemma stray_default conf peer v :
  0 < v < 2 ^ 32 -> c_Peers conf = [peer] -> pr_AllowedIPs peer = [mkPrefix (Addr4 v) 0] ->
  map (fun ip => rd_Destination (allowedRoute ip)) (allowedIPs conf) = [PrefixFrom IPv4Unspecified 0]
  /\ doNotRestrict conf = true.
Proof.
  intros Hv Hp Ha. unfold allowedIPs, doNotRestrict. rewrite Hp. cbn [flat_map]. rewrite Ha. cbn [app map existsb p_bits].
  assert (Hm : Masked (mkPrefix (Addr4 v) 0) = PrefixFrom IPv4Unspecified 0)
    by (unfold Masked; cbn [p_bits p_addr IsValidPrefix Z.leb]; unfold maskTo; cbn; by rewrite Z.div_small by lia).
  unfold allowedRoute. rewrite Hm. split; [done|]. rewrite bool_decide_false; [by destruct (i_TableOff _)|].
  intros E. vm_compute in E. injection E as E. lia.
Qed.

Section EnableFirewall.
Context {W T : Type} `{Firewall.WFPLaws W} `{Arbitration T}.
Import Firewall.

End EnableFirewall.
