(* ===== verification/Memmod.v ===== *)
(** * driver/memmod: loading a library from memory

    The driver library is a resource of the program that is loaded without a
    file: memmod_windows.go copies its headers and sections to memory of its own,
    relocates them, resolves the imports and sets the protection of the pages, as
    the loader of Windows does. The model is the 64-bit build
    (memmod_windows_64.go, syscall_windows_64.go).

    A pointer is an address. The memory of the image is its bytes from [codeBase]
    on; an access outside it ends the process, which is [None]. *)

From stdpp Require Import gmultiset.
From S2P Require Import Prelude GoStrings GoNum Netip Config Name Parser ConfWf Driver Effects.
Local Open Scope Z_scope.

(** ** Constants: syscall_windows.go *)

Definition IMAGE_DOS_SIGNATURE : Z := 0x5A4D.
Definition IMAGE_NT_SIGNATURE : Z := 0x4550.
Definition IMAGE_FILE_DLL : Z := 0x2000.
Definition IMAGE_FILE_MACHINE_AMD64 : Z := 0x8664.
Definition IMAGE_NUMBEROF_DIRECTORY_ENTRIES : Z := 16.
Definition IMAGE_DIRECTORY_ENTRY_EXPORT : Z := 0.
Definition IMAGE_DIRECTORY_ENTRY_IMPORT : Z := 1.
Definition IMAGE_DIRECTORY_ENTRY_EXCEPTION : Z := 3.
Definition IMAGE_DIRECTORY_ENTRY_BASERELOC : Z := 5.
Definition IMAGE_DIRECTORY_ENTRY_TLS : Z := 9.
Definition IMAGE_SCN_CNT_INITIALIZED_DATA : Z := 0x40.
Definition IMAGE_SCN_CNT_UNINITIALIZED_DATA : Z := 0x80.
Definition IMAGE_SCN_MEM_DISCARDABLE : Z := 0x02000000.
Definition IMAGE_SCN_MEM_NOT_CACHED : Z := 0x04000000.
Definition IMAGE_SCN_MEM_EXECUTE : Z := 0x20000000.
Definition IMAGE_SCN_MEM_READ : Z := 0x40000000.
Definition IMAGE_SCN_MEM_WRITE : Z := 0x80000000.
Definition IMAGE_REL_BASED_ABSOLUTE : Z := 0.
Definition IMAGE_REL_BASED_HIGH : Z := 1.
Definition IMAGE_REL_BASED_LOW : Z := 2.
Definition IMAGE_REL_BASED_HIGHLOW : Z := 3.
Definition IMAGE_REL_BASED_THUMB_MOV32 : Z := 7.
Definition IMAGE_REL_BASED_DIR64 : Z := 10.
Definition IMAGE_ORDINAL_FLAG : Z := 0x8000000000000000.
Definition DLL_PROCESS_ATTACH : Z := 1.
Definition DLL_PROCESS_DETACH : Z := 0.

Definition IMAGE_ORDINAL (ordinal : Z) : Z := Z.land ordinal 0xffff.
Definition IMAGE_SNAP_BY_ORDINAL (ordinal : Z) : bool := negb (Z.land ordinal IMAGE_ORDINAL_FLAG =? 0).

(** ** Offsets of the fields the loader uses, and sizes of the structs *)

Definition sizeofDosHeader : Z := 64.
Definition o_E_lfanew : Z := 60.
Definition sizeofNtHeaders : Z := 264.
Definition o_Machine : Z := 4.
Definition o_NumberOfSections : Z := 6.
Definition o_SizeOfOptionalHeader : Z := 20.
Definition o_FileCharacteristics : Z := 22.
Definition o_OptionalHeader : Z := 24.
Definition sizeofOptionalHeader : Z := 240.
Definition o_SizeOfInitializedData : Z := 24 + 8.
Definition o_SizeOfUninitializedData : Z := 24 + 12.
Definition o_AddressOfEntryPoint : Z := 24 + 16.
Definition o_ImageBase : Z := 24 + 24.
Definition o_SectionAlignment : Z := 24 + 32.
Definition o_SizeOfImage : Z := 24 + 56.
Definition o_SizeOfHeaders : Z := 24 + 60.
Definition o_NumberOfRvaAndSizes : Z := 24 + 108.
Definition o_DataDirectory : Z := 24 + 112.
Definition sizeofSectionHeader : Z := 40.
Definition o_PhysicalAddress : Z := 8.
Definition o_VirtualAddress : Z := 12.
Definition o_SizeOfRawData : Z := 16.
Definition o_PointerToRawData : Z := 20.
Definition o_Characteristics : Z := 36.
Definition sizeofBaseRelocation : Z := 8.
Definition sizeofImportDescriptor : Z := 20.
Definition sizeofRuntimeFunction : Z := 12.

(** ** Words *)

Definition u64 (v : Z) : Z := v mod 2 ^ 64.
Definition u32 (v : Z) : Z := v mod 2 ^ 32.
Definition u16 (v : Z) : Z := v mod 2 ^ 16.

Definition alignDown (value alignment : Z) : Z := Z.land value (u64 (Z.lnot (alignment - 1))).
Definition alignUp (value alignment : Z) : Z := Z.land (u64 (value + alignment - 1)) (u64 (Z.lnot (alignment - 1))).

Definition int32_of (v : Z) : Z := if v <? 2 ^ 31 then v else v - 2 ^ 32.

(** ** Memory *)

(** Where [n] bytes at address [a] lie in the image at [base]. *)
Definition offsetOf (base : Z) (image : gostring) (a : Z) (n : Z) : option Z :=
  let off := u64 (a - base) in
  if (0 <=? n) && (off + n <=? Z.of_nat (length image)) then Some off else None.

Definition readAt (base : Z) (image : gostring) (n : nat) (a : Z) : option Z :=
  match offsetOf base image a (Z.of_nat n) with
  | Some off => Some (fieldAt (Z.to_nat off) n image)
  | None => None
  end.

Definition storeAt (base : Z) (image : gostring) (a : Z) (bs : gostring) : option gostring :=
  match offsetOf base image a (Z.of_nat (length bs)) with
  | Some off => Some (take (Z.to_nat off) image ++ bs ++ drop (Z.to_nat off + length bs) image)
  | None => None
  end.

(** windows.BytePtrToString: the bytes up to a zero. *)
Fixpoint cstring (bs : gostring) : option gostring :=
  match bs with
  | [] => None
  | b :: bs' => if code b =? 0 then Some [] else match cstring bs' with Some s => Some (b :: s) | None => None end
  end.
Definition cstringAt (base : Z) (image : gostring) (a : Z) : option gostring :=
  match offsetOf base image a 1 with Some off => cstring (drop (Z.to_nat off) image) | None => None end.

(** ** The state *)

(** Module; a nil pointer is zero and a nil slice is the empty one. *)
Record mmModule : Type := mkModule {
  mo_headers : Z;
  mo_codeBase : Z;
  mo_modules : list Z;
  mo_initialized : bool;
  mo_isDLL : bool;
  mo_isRelocated : bool;
  mo_nameExports : option (gmap gostring Z);
  mo_entry : Z;
  mo_blockedMemory : list Z;
  mo_runtimeFuncs : Z
}.

Definition newModule (isDLL : bool) : mmModule := mkModule 0 0 [] false isDLL false None 0 [] 0.

(** The functions of Windows. VirtualAlloc reserves or commits; a function of the
    library gets the bytes of the image and leaves others. *)
Class LoaderSystem (W : Type) := {
  sys_Reserve : Z -> Z -> M W Z;
  sys_Commit : Z -> Z -> M W Z;
  sys_Decommit : Z -> Z -> W -> W;
  sys_Release : Z -> W -> W;
  sys_Protect : Z -> Z -> Z -> M W Z;
  sys_LoadLibraryEx : gostring -> M W Z;
  sys_FreeLibrary : Z -> W -> W;
  sys_GetProcAddress : Z -> gostring -> M W Z;
  sys_GetProcAddressByOrdinal : Z -> Z -> M W Z;
  sys_RtlAddFunctionTable : Z -> Z -> Z -> W -> bool * W;
  sys_RtlDeleteFunctionTable : Z -> W -> W;
  sys_Call : Z -> list Z -> gostring -> W -> Z * gostring * W;
  sys_KernelBase : W -> result (Z * gostring);
  sys_NewCallback : W -> Z;
  sys_PatchKernelBase : Z -> Z -> W -> W
}.

(** The system, the module and its image, the globals of the package, and what
    has been taken from the system: regions, libraries and function tables. *)
Record loader (W : Type) : Type := mkLoader {
  lo_sys : W;
  lo_module : mmModule;
  lo_image : gostring;
  lo_ranges : list (Z * Z);
  lo_hook : option (result unit);
  lo_regions : gmultiset Z;
  lo_libraries : gmultiset Z;
  lo_tables : gmultiset Z
}.
Arguments mkLoader {W}.
Arguments lo_sys {W}.
Arguments lo_module {W}.
Arguments lo_image {W}.
Arguments lo_ranges {W}.
Arguments lo_hook {W}.
Arguments lo_regions {W}.
Arguments lo_libraries {W}.
Arguments lo_tables {W}.

(** ** Computations that may crash *)

Definition L (S A : Type) : Type := S -> option (result A * S).

Definition lret {S A} (a : A) : L S A := fun s => Some (Ok a, s).
Definition lfail {S A} (e : goerr) : L S A := fun s => Some (Err e, s).
Definition lcrash {S A} : L S A := fun _ => None.
Definition lthen {S A B} (m : L S A) (k : A -> L S B) : L S B :=
  fun s => match m s with
           | Some (Ok a, s') => k a s'
           | Some (Err e, s') => Some (Err e, s')
           | None => None
           end.
Definition lwrap {S A} (why : string) (m : L S A) : L S A :=
  fun s => match m s with Some (Err e, s') => Some (Err (ErrWrap why [] e), s') | r => r end.
Definition lget {S A} (f : S -> A) : L S A := fun s => Some (Ok (f s), s).
Definition lmod {S} (f : S -> S) : L S unit := fun s => Some (Ok tt, f s).
Definition llift {S A} (r : option A) : L S A := fun s => match r with Some a => Some (Ok a, s) | None => None end.

Notation "'run!' x ':=' m 'in' k" := (lthen m (fun x => k))
  (at level 10, x pattern, m at level 100, k at level 200) : go_scope.

Section Memmod.
Context {W : Type} `{LoaderSystem W}.

Abbreviation loader := (loader W).

(** ** Parts of the state *)

Definition setModule (f : mmModule -> mmModule) (s : loader) : loader :=
  mkLoader (lo_sys s) (f (lo_module s)) (lo_image s) (lo_ranges s) (lo_hook s) (lo_regions s) (lo_libraries s) (lo_tables s).
Definition setImage (image : gostring) (s : loader) : loader :=
  mkLoader (lo_sys s) (lo_module s) image (lo_ranges s) (lo_hook s) (lo_regions s) (lo_libraries s) (lo_tables s).
Definition setSys (w : W) (s : loader) : loader :=
  mkLoader w (lo_module s) (lo_image s) (lo_ranges s) (lo_hook s) (lo_regions s) (lo_libraries s) (lo_tables s).
Definition setRanges (f : list (Z * Z) -> list (Z * Z)) (s : loader) : loader :=
  mkLoader (lo_sys s) (lo_module s) (lo_image s) (f (lo_ranges s)) (lo_hook s) (lo_regions s) (lo_libraries s) (lo_tables s).
Definition setHook (r : result unit) (s : loader) : loader :=
  mkLoader (lo_sys s) (lo_module s) (lo_image s) (lo_ranges s) (Some r) (lo_regions s) (lo_libraries s) (lo_tables s).
Definition setOwned (f g h : gmultiset Z -> gmultiset Z) (s : loader) : loader :=
  mkLoader (lo_sys s) (lo_module s) (lo_image s) (lo_ranges s) (lo_hook s)
           (f (lo_regions s)) (g (lo_libraries s)) (h (lo_tables s)).

Definition withHeaders (h : Z) (m : mmModule) : mmModule :=
  mkModule h (mo_codeBase m) (mo_modules m) (mo_initialized m) (mo_isDLL m) (mo_isRelocated m) (mo_nameExports m) (mo_entry m)
           (mo_blockedMemory m) (mo_runtimeFuncs m).
Definition withCodeBase (b : Z) (m : mmModule) : mmModule :=
  mkModule (mo_headers m) b (mo_modules m) (mo_initialized m) (mo_isDLL m) (mo_isRelocated m) (mo_nameExports m) (mo_entry m)
           (mo_blockedMemory m) (mo_runtimeFuncs m).
Definition withModules (l : list Z) (m : mmModule) : mmModule :=
  mkModule (mo_headers m) (mo_codeBase m) l (mo_initialized m) (mo_isDLL m) (mo_isRelocated m) (mo_nameExports m) (mo_entry m)
           (mo_blockedMemory m) (mo_runtimeFuncs m).
Definition withInitialized (b : bool) (m : mmModule) : mmModule :=
  mkModule (mo_headers m) (mo_codeBase m) (mo_modules m) b (mo_isDLL m) (mo_isRelocated m) (mo_nameExports m) (mo_entry m)
           (mo_blockedMemory m) (mo_runtimeFuncs m).
Definition withRelocated (b : bool) (m : mmModule) : mmModule :=
  mkModule (mo_headers m) (mo_codeBase m) (mo_modules m) (mo_initialized m) (mo_isDLL m) b (mo_nameExports m) (mo_entry m)
           (mo_blockedMemory m) (mo_runtimeFuncs m).
Definition withNameExports (e : gmap gostring Z) (m : mmModule) : mmModule :=
  mkModule (mo_headers m) (mo_codeBase m) (mo_modules m) (mo_initialized m) (mo_isDLL m) (mo_isRelocated m) (Some e) (mo_entry m)
           (mo_blockedMemory m) (mo_runtimeFuncs m).
Definition withEntry (a : Z) (m : mmModule) : mmModule :=
  mkModule (mo_headers m) (mo_codeBase m) (mo_modules m) (mo_initialized m) (mo_isDLL m) (mo_isRelocated m) (mo_nameExports m) a
           (mo_blockedMemory m) (mo_runtimeFuncs m).
Definition withBlocked (l : list Z) (m : mmModule) : mmModule :=
  mkModule (mo_headers m) (mo_codeBase m) (mo_modules m) (mo_initialized m) (mo_isDLL m) (mo_isRelocated m) (mo_nameExports m)
           (mo_entry m) l (mo_runtimeFuncs m).
Definition withRuntimeFuncs (a : Z) (m : mmModule) : mmModule :=
  mkModule (mo_headers m) (mo_codeBase m) (mo_modules m) (mo_initialized m) (mo_isDLL m) (mo_isRelocated m) (mo_nameExports m)
           (mo_entry m) (mo_blockedMemory m) a.

Definition codeBase : L loader Z := lget (fun s => mo_codeBase (lo_module s)).
Definition headers : L loader Z := lget (fun s => mo_headers (lo_module s)).
Definition setMod (f : mmModule -> mmModule) : L loader unit := lmod (setModule f).

(** Reads and writes of the image. *)
Definition rd (n : nat) (a : Z) : L loader Z :=
  fun s => match readAt (mo_codeBase (lo_module s)) (lo_image s) n (u64 a) with Some v => Some (Ok v, s) | None => None end.
Definition storeBytes (a : Z) (bs : gostring) : L loader unit :=
  fun s => match storeAt (mo_codeBase (lo_module s)) (lo_image s) (u64 a) bs with
           | Some image => Some (Ok tt, setImage image s)
           | None => None
           end.
Definition wr (n : nat) (a v : Z) : L loader unit := storeBytes a (leBytes n v).
Definition rdString (a : Z) : L loader gostring :=
  fun s => match cstringAt (mo_codeBase (lo_module s)) (lo_image s) (u64 a) with Some v => Some (Ok v, s) | None => None end.

(** Calls of the system. *)
Definition onSys {A} (f : M W A) : L loader A := fun s => let '(r, w) := f (lo_sys s) in Some (r, setSys w s).
Definition tell (f : W -> W) : L loader unit := lmod (fun s => setSys (f (lo_sys s)) s).

(** VirtualAlloc of a new region: it is the image from then on, all zero. *)
Definition reserve (address size : Z) : L loader Z :=
  fun s => match sys_Reserve address size (lo_sys s) with
           | (Ok a, w) => Some (Ok a, setImage (zeroes (Z.to_nat size)) (setOwned (disj_union {[+ a +]}) id id (setSys w s)))
           | (Err e, w) => Some (Err e, setSys w s)
           end.
Definition release (a : Z) : L loader unit :=
  lmod (fun s => setOwned (fun o => o ∖ {[+ a +]}) id id (setSys (sys_Release a (lo_sys s)) s)).
Definition loadLibraryEx (name : gostring) : L loader Z :=
  fun s => match sys_LoadLibraryEx name (lo_sys s) with
           | (Ok h, w) => Some (Ok h, setOwned id (disj_union {[+ h +]}) id (setSys w s))
           | (Err e, w) => Some (Err e, setSys w s)
           end.
Definition freeLibrary (h : Z) : L loader unit :=
  lmod (fun s => setOwned id (fun o => o ∖ {[+ h +]}) id (setSys (sys_FreeLibrary h (lo_sys s)) s)).

(** syscall.SyscallN of a function of the library. *)
Definition call (f : Z) (args : list Z) : L loader Z :=
  fun s => let '(r0, image, w) := sys_Call f args (lo_image s) (lo_sys s) in Some (Ok r0, setImage image (setSys w s)).

(** ** Headers *)

Definition headerField (n : nat) (off : Z) : L loader Z := run! h := headers in rd n (h + off).

Definition directoryAddress (idx : Z) : L loader Z := headerField 4 (o_DataDirectory + 8 * idx).
Definition directorySize (idx : Z) : L loader Z := headerField 4 (o_DataDirectory + 8 * idx + 4).

(** IMAGE_NT_HEADERS.Sections: the address of the first section header and how
    many there are. *)
Definition Sections : L loader (Z * Z) :=
  run! h := headers in
  run! size := headerField 2 o_SizeOfOptionalHeader in
  run! n := headerField 2 o_NumberOfSections in
  lret (u64 (h + o_OptionalHeader + size), n).

Definition section (first i : Z) : Z := first + sizeofSectionHeader * i.

(** ** copySections *)

Definition copySection (data : gostring) (alignment : Z) (sec : Z) : L loader unit :=
  run! raw := rd 4 (sec + o_SizeOfRawData) in
  run! va := rd 4 (sec + o_VirtualAddress) in
  run! base := codeBase in
  if raw =? 0 then
    if alignment =? 0 then lret tt
    else
      run! _ := lwrap "Error allocating section" (onSys (sys_Commit (u64 (base + va)) alignment)) in
      run! _ := wr 4 (sec + o_PhysicalAddress) (u64 (base + va)) in
      storeBytes (base + va) (zeroes (Z.to_nat alignment))
  else
    run! pointer := rd 4 (sec + o_PointerToRawData) in
    if Z.of_nat (length data) <? u64 (pointer + raw) then lfail (ErrText "Incomplete section")
    else
      run! dest := lwrap "Error allocating memory block" (onSys (sys_Commit (u64 (base + va)) raw)) in
      run! _ := storeBytes (base + va) (bytesAt (Z.to_nat pointer) (Z.to_nat raw) data) in
      wr 4 (sec + o_PhysicalAddress) dest.

Fixpoint sectionLoop (data : gostring) (alignment first : Z) (n : nat) (i : Z) : L loader unit :=
  match n with
  | O => lret tt
  | S n' => run! _ := copySection data alignment (section first i) in sectionLoop data alignment first n' (i + 1)
  end.

Definition copySections (data : gostring) (alignment : Z) : L loader unit :=
  run! (first, n) := Sections in sectionLoop data alignment first (Z.to_nat n) 0.

(** ** Protection of the pages *)

Definition realSectionSize (sec : Z) : L loader Z :=
  run! size := rd 4 (sec + o_SizeOfRawData) in
  run! characteristics := rd 4 (sec + o_Characteristics) in
  if negb (size =? 0) then lret size
  else if negb (Z.land characteristics IMAGE_SCN_CNT_INITIALIZED_DATA =? 0) then headerField 4 o_SizeOfInitializedData
  else if negb (Z.land characteristics IMAGE_SCN_CNT_UNINITIALIZED_DATA =? 0) then headerField 4 o_SizeOfUninitializedData
  else lret 0.

Record sectionFinalizeData : Type := mkFinalize {
  sf_address : Z;
  sf_alignedAddress : Z;
  sf_size : Z;
  sf_characteristics : Z;
  sf_last : bool
}.

Definition PAGE_NOACCESS : Z := 0x01.
Definition PAGE_READONLY : Z := 0x02.
Definition PAGE_READWRITE : Z := 0x04.
Definition PAGE_WRITECOPY : Z := 0x08.
Definition PAGE_EXECUTE : Z := 0x10.
Definition PAGE_EXECUTE_READ : Z := 0x20.
Definition PAGE_EXECUTE_READWRITE : Z := 0x40.
Definition PAGE_EXECUTE_WRITECOPY : Z := 0x80.
Definition PAGE_NOCACHE : Z := 0x200.

Definition ProtectionFlags : list Z :=
  [PAGE_NOACCESS; PAGE_EXECUTE; PAGE_READONLY; PAGE_EXECUTE_READ; PAGE_WRITECOPY; PAGE_EXECUTE_WRITECOPY; PAGE_READWRITE;
   PAGE_EXECUTE_READWRITE].

Definition protectionOf (characteristics : Z) : option Z :=
  match ProtectionFlags !! Z.to_nat (Z.shiftr characteristics 29) with
  | Some protect => Some (if Z.land characteristics IMAGE_SCN_MEM_NOT_CACHED =? 0 then protect else Z.lor protect PAGE_NOCACHE)
  | None => None
  end.

Definition finalizeSection (d : sectionFinalizeData) : L loader unit :=
  if sf_size d =? 0 then lret tt
  else if negb (Z.land (sf_characteristics d) IMAGE_SCN_MEM_DISCARDABLE =? 0) then
    run! alignment := headerField 4 o_SectionAlignment in
    if negb (sf_address d =? sf_alignedAddress d) then lret tt
    else if negb (sf_last d) && (alignment =? 0) then lcrash
    else if sf_last d || (sf_size d mod alignment =? 0) then tell (sys_Decommit (sf_address d) (sf_size d))
    else lret tt
  else
    run! protect := llift (protectionOf (sf_characteristics d)) in
    run! _ := lwrap "Error protecting memory page" (onSys (sys_Protect (sf_address d) (sf_size d) protect)) in
    lret tt.

(** The section at [sec] as finalizeSections sees it; the size is noted in its
    header. *)
Definition describeSection (imageOffset sec : Z) : L loader sectionFinalizeData :=
  run! physical := rd 4 (sec + o_PhysicalAddress) in
  run! alignment := headerField 4 o_SectionAlignment in
  run! size := realSectionSize sec in
  run! _ := wr 4 (sec + o_PhysicalAddress) size in
  run! characteristics := rd 4 (sec + o_Characteristics) in
  let address := Z.lor physical imageOffset in
  lret (mkFinalize address (alignDown address alignment) size characteristics false).

Definition sharesPage (d e : sectionFinalizeData) : bool :=
  (sf_alignedAddress d =? sf_alignedAddress e) || (sf_alignedAddress e <? u64 (sf_address d + sf_size d)).

Definition mergeSections (d e : sectionFinalizeData) : sectionFinalizeData :=
  let discardable := IMAGE_SCN_MEM_DISCARDABLE in
  mkFinalize (sf_address d) (sf_alignedAddress d) (u64 (sf_address e + sf_size e - sf_address d))
    (if (Z.land (sf_characteristics e) discardable =? 0) || (Z.land (sf_characteristics d) discardable =? 0)
     then Z.ldiff (Z.lor (sf_characteristics d) (sf_characteristics e)) discardable
     else Z.lor (sf_characteristics d) (sf_characteristics e))
    (sf_last d).

Fixpoint finalizeLoop (imageOffset first : Z) (n : nat) (i : Z) (d : sectionFinalizeData) : L loader sectionFinalizeData :=
  match n with
  | O => lret d
  | S n' =>
      run! e := describeSection imageOffset (section first i) in
      if sharesPage d e then finalizeLoop imageOffset first n' (i + 1) (mergeSections d e)
      else
        run! _ := lwrap "Error finalizing section" (finalizeSection d) in
        finalizeLoop imageOffset first n' (i + 1) e
  end.

Definition finalizeSections : L loader unit :=
  run! (first, n) := Sections in
  run! imageBase := headerField 8 o_ImageBase in
  let imageOffset := Z.land imageBase 0xffffffff00000000 in
  if n =? 0 then lcrash
  else
    run! d := describeSection imageOffset (section first 0) in
    run! d := finalizeLoop imageOffset first (Z.to_nat n - 1) 1 d in
    lwrap "Error finalizing section"
      (finalizeSection (mkFinalize (sf_address d) (sf_alignedAddress d) (sf_size d) (sf_characteristics d) true)).

(** ** Relocation *)

(** The immediate of a Thumb-2 MOVW or MOVT, and the instruction with another. *)
Definition thumbImm (inst : Z) : Z :=
  Z.land (Z.shiftl inst 1) 0x0800 + Z.land (Z.shiftl inst 12) 0xf000 + Z.land (Z.shiftr inst 20) 0x0700
  + Z.land (Z.shiftr inst 16) 0x00ff.
Definition thumbPut (inst imm16 : Z) : Z :=
  Z.land inst 0x8f00fbf0 + Z.land (Z.shiftr imm16 1) 0x0400 + Z.land (Z.shiftr imm16 12) 0x000f
  + Z.land (Z.shiftl imm16 20) 0x70000000 + Z.land (Z.shiftl imm16 16) 0xff0000.

Definition relocateThumb (delta a : Z) : L loader unit :=
  run! inst := rd 4 a in
  if negb (Z.land inst 0x8000fbf0 =? 0x0000f240) then lfail (ErrText "Wrong Thumb2 instruction, expected MOVW")
  else
    let imm16 := thumbImm inst + Z.land (u32 delta) 0xffff in
    let hiDelta := Z.shiftr (Z.land delta 0xffff0000) 16 + Z.shiftr (Z.land imm16 0xffff0000) 16 in
    run! _ := wr 4 a (thumbPut inst imm16) in
    if hiDelta =? 0 then lret tt
    else
      run! inst := rd 4 (a + 4) in
      if negb (Z.land inst 0x8000fbf0 =? 0x0000f2c0) then lfail (ErrText "Wrong Thumb2 instruction, expected MOVT")
      else
        let imm16 := thumbImm inst + hiDelta in
        if 0xffff <? imm16 then lfail (ErrText "Resulting immediate value won't fit")
        else wr 4 (a + 4) (thumbPut inst imm16).

Definition relocateEntry (delta dest relInfo : Z) : L loader unit :=
  let relType := Z.shiftr relInfo 12 in
  let a := dest + Z.land relInfo 0xfff in
  if relType =? IMAGE_REL_BASED_ABSOLUTE then lret tt
  else if relType =? IMAGE_REL_BASED_LOW then run! v := rd 2 a in wr 2 a (v + Z.land delta 0xffff)
  else if relType =? IMAGE_REL_BASED_HIGH then run! v := rd 2 a in wr 2 a (v + Z.shiftr (u32 delta) 16)
  else if relType =? IMAGE_REL_BASED_HIGHLOW then run! v := rd 4 a in wr 4 a (v + u32 delta)
  else if relType =? IMAGE_REL_BASED_DIR64 then run! v := rd 8 a in wr 8 a (v + delta)
  else if relType =? IMAGE_REL_BASED_THUMB_MOV32 then relocateThumb delta a
  else lfail (ErrText "Unsupported relocation").

Fixpoint relocateEntries (delta dest : Z) (infos : Z) (n : nat) (j : Z) : L loader unit :=
  match n with
  | O => lret tt
  | S n' =>
      run! relInfo := rd 2 (infos + 2 * j) in
      run! _ := relocateEntry delta dest relInfo in
      relocateEntries delta dest infos n' (j + 1)
  end.

(** The blocks from [hdr] on. A block is at least a header long, so that
    [fuel] blocks fit into the directory. *)
Fixpoint relocateBlocks (fuel : nat) (delta relocEnd hdr : Z) : L loader unit :=
  match fuel with
  | O => lcrash
  | S fuel' =>
      if relocEnd <? u64 (hdr + sizeofBaseRelocation) then lret tt
      else
        run! va := rd 4 hdr in
        if va =? 0 then lret tt
        else
          run! size := rd 4 (hdr + 4) in
          if size <? sizeofBaseRelocation then lfail (ErrText "Invalid relocation block size")
          else if relocEnd <? u64 (hdr + size) then lfail (ErrText "Relocation block exceeds directory bounds")
          else
            run! base := codeBase in
            run! _ := relocateEntries delta (base + va) (hdr + sizeofBaseRelocation)
                        (Z.to_nat ((size - sizeofBaseRelocation) / 2)) 0 in
            run! size := rd 4 (hdr + 4) in
            relocateBlocks fuel' delta relocEnd (u64 (hdr + size))
  end.

Definition performBaseRelocation (delta : Z) : L loader bool :=
  run! size := directorySize IMAGE_DIRECTORY_ENTRY_BASERELOC in
  if size =? 0 then lret (delta =? 0)
  else
    run! va := directoryAddress IMAGE_DIRECTORY_ENTRY_BASERELOC in
    run! base := codeBase in
    let relocBase := u64 (base + va) in
    run! _ := relocateBlocks (S (Z.to_nat (size / sizeofBaseRelocation))) delta (u64 (relocBase + size)) relocBase in
    lret true.

(** ** Imports *)

Definition getProc (handle thunk : Z) : L loader (result Z) :=
  if IMAGE_SNAP_BY_ORDINAL thunk then fun s => let '(r, w) := sys_GetProcAddressByOrdinal handle (IMAGE_ORDINAL thunk) (lo_sys s) in
                                               Some (Ok r, setSys w s)
  else
    run! base := codeBase in
    run! name := rdString (base + thunk + 2) in
    fun s => let '(r, w) := sys_GetProcAddress handle name (lo_sys s) in Some (Ok r, setSys w s).

(** The thunks of one library. The references move on through the image and
    cannot leave it, so that its length bounds the rounds, here and below. *)
Fixpoint thunkLoop (fuel : nat) (handle thunkRef funcRef : Z) : L loader unit :=
  match fuel with
  | O => lcrash
  | S fuel' =>
      run! thunk := rd 8 thunkRef in
      if thunk =? 0 then lret tt
      else
        run! r := getProc handle thunk in
        run! _ := wr 8 funcRef (match r with Ok a => a | Err _ => 0 end) in
        match r with
        | Err e => run! _ := freeLibrary handle in lfail (ErrWrap "Error getting function address" [] e)
        | Ok _ => thunkLoop fuel' handle (thunkRef + 8) (funcRef + 8)
        end
  end.

Definition imageFuel : L loader nat := lget (fun s => S (length (lo_image s))).

Definition importLibrary (desc name : Z) : L loader unit :=
  run! base := codeBase in
  run! libraryName := rdString (base + name) in
  run! handle := lwrap "Error loading module" (loadLibraryEx libraryName) in
  run! original := rd 4 desc in
  run! firstThunk := rd 4 (desc + 16) in
  run! fuel := imageFuel in
  run! _ := thunkLoop fuel handle (u64 (base + (if original =? 0 then firstThunk else original))) (u64 (base + firstThunk)) in
  setMod (fun m => withModules (mo_modules m ++ [handle]) m).

Fixpoint importLoop (fuel : nat) (desc : Z) : L loader unit :=
  match fuel with
  | O => lcrash
  | S fuel' =>
      run! name := rd 4 (desc + 12) in
      if name =? 0 then lret tt
      else run! _ := importLibrary desc name in importLoop fuel' (u64 (desc + sizeofImportDescriptor))
  end.

Definition buildImportTable : L loader unit :=
  run! size := directorySize IMAGE_DIRECTORY_ENTRY_IMPORT in
  if size =? 0 then lret tt
  else
    run! va := directoryAddress IMAGE_DIRECTORY_ENTRY_IMPORT in
    run! base := codeBase in
    run! _ := setMod (withModules []) in
    run! fuel := imageFuel in
    importLoop fuel (u64 (base + va)).

(** ** Exports *)

Fixpoint nameLoop (base names ordinals : Z) (n : nat) (i : Z) (exports : gmap gostring Z) : L loader (gmap gostring Z) :=
  match n with
  | O => lret exports
  | S n' =>
      run! nameRef := rd 4 (names + 4 * i) in
      run! nameArray := rdString (base + nameRef) in
      run! ordinal := rd 2 (ordinals + 2 * i) in
      nameLoop base names ordinals n' (i + 1) (<[nameArray := ordinal]> exports)
  end.

Definition buildNameExports : L loader unit :=
  run! size := directorySize IMAGE_DIRECTORY_ENTRY_EXPORT in
  if size =? 0 then lfail (ErrText "No export table found")
  else
    run! va := directoryAddress IMAGE_DIRECTORY_ENTRY_EXPORT in
    run! base := codeBase in
    let exports := base + va in
    run! numberOfFunctions := rd 4 (exports + 20) in
    run! numberOfNames := rd 4 (exports + 24) in
    if numberOfFunctions =? 0 then lfail (ErrText "No functions exported")
    else if numberOfNames =? 0 then lfail (ErrText "No functions exported by name")
    else
      run! names := rd 4 (exports + 32) in
      run! ordinals := rd 4 (exports + 36) in
      run! table := nameLoop base (base + names) (base + ordinals) (Z.to_nat numberOfNames) 0 ∅ in
      setMod (withNameExports table).

(** AddressOfFunctions[idx]. *)
Definition functionAddress (exports idx : Z) : L loader Z :=
  run! base := codeBase in
  run! functions := rd 4 (exports + 28) in
  run! rva := rd 4 (base + functions + idx * 4) in
  lret (u64 (base + rva)).

Definition ProcAddressByName (name : gostring) : L loader Z :=
  run! size := directorySize IMAGE_DIRECTORY_ENTRY_EXPORT in
  if size =? 0 then lfail (ErrText "No export table found")
  else
    run! va := directoryAddress IMAGE_DIRECTORY_ENTRY_EXPORT in
    run! base := codeBase in
    run! table := lget (fun s => mo_nameExports (lo_module s)) in
    match table with
    | None => lfail (ErrText "No functions exported by name")
    | Some table =>
        match table !! name with
        | Some idx =>
            run! n := rd 4 (base + va + 20) in
            if n <=? idx then lfail (ErrText "Ordinal number too high") else functionAddress (base + va) idx
        | None => lfail (ErrText "Function not found by name")
        end
    end.

Definition ProcAddressByOrdinal (ordinal : Z) : L loader Z :=
  run! size := directorySize IMAGE_DIRECTORY_ENTRY_EXPORT in
  if size =? 0 then lfail (ErrText "No export table found")
  else
    run! va := directoryAddress IMAGE_DIRECTORY_ENTRY_EXPORT in
    run! base := codeBase in
    run! first := rd 4 (base + va + 16) in
    if ordinal <? first then lfail (ErrText "Ordinal number too low")
    else
      run! n := rd 4 (base + va + 20) in
      let idx := u16 (ordinal - u16 first) in
      if n <=? idx then lfail (ErrText "Ordinal number too high") else functionAddress (base + va) idx.

(** ** Exception tables and TLS callbacks *)

Definition registerExceptionHandlers : L loader unit :=
  run! size := directorySize IMAGE_DIRECTORY_ENTRY_EXCEPTION in
  run! va := directoryAddress IMAGE_DIRECTORY_ENTRY_EXCEPTION in
  if (size =? 0) || (va =? 0) then lret tt
  else
    run! base := codeBase in
    let runtimeFuncs := u64 (base + va) in
    fun s =>
      let '(added, w) := sys_RtlAddFunctionTable runtimeFuncs (size / sizeofRuntimeFunction) base (lo_sys s) in
      Some (Ok tt, if added : bool then setModule (withRuntimeFuncs runtimeFuncs) (setOwned id id (disj_union {[+ runtimeFuncs +]}) (setSys w s))
                   else setSys w s).

Fixpoint tlsLoop (fuel : nat) (callback : Z) : L loader unit :=
  match fuel with
  | O => lcrash
  | S fuel' =>
      run! f := rd 8 callback in
      if f =? 0 then lret tt
      else
        run! base := codeBase in
        run! _ := call f [base; DLL_PROCESS_ATTACH; 0] in
        tlsLoop fuel' (callback + 8)
  end.

Definition executeTLS : L loader unit :=
  run! va := directoryAddress IMAGE_DIRECTORY_ENTRY_TLS in
  if va =? 0 then lret tt
  else
    run! base := codeBase in
    run! callback := rd 8 (base + va + 24) in
    run! fuel := imageFuel in
    if callback =? 0 then lret tt else tlsLoop fuel callback.

(** ** check4GBBoundaries *)

Definition crosses4GB (base size : Z) : bool := Z.shiftr base 32 <? Z.shiftr (u64 (base + size)) 32.

(** VirtualAlloc into the module: a failure leaves no base. *)
Definition allocCode (address size : Z) : L loader unit :=
  fun s => match reserve address size s with
           | Some (Ok a, s') => Some (Ok tt, setModule (withCodeBase a) s')
           | Some (Err e, s') => Some (Err e, setModule (withCodeBase 0) s')
           | None => None
           end.

Fixpoint check4GBBoundaries (fuel : nat) (size : Z) : L loader unit :=
  match fuel with
  | O => lfail (ErrText "out of fuel")
  | S fuel' =>
      run! base := codeBase in
      if crosses4GB base size then
        run! _ := setMod (fun m => withBlocked (base :: mo_blockedMemory m) m) in
        run! _ := lwrap "Error allocating memory block" (allocCode 0 size) in
        check4GBBoundaries fuel' size
      else lret tt
  end.

(** ** hookRtlPcToFileHeader *)

(** The import descriptors of kernelbase.dll up to that of ntdll.dll. *)
Fixpoint findNtdll (fuel : nat) (base : Z) (image : gostring) (desc : Z) : option (result Z) :=
  match fuel with
  | O => None
  | S fuel' =>
      match readAt base image 4 (u64 (desc + 12)) with
      | None => None
      | Some name =>
          if name =? 0 then Some (Err (ErrText "ntdll.dll not found"))
          else match cstringAt base image (u64 (base + name)) with
               | None => None
               | Some libraryName =>
                   if EqualFoldASCII libraryName (str "ntdll.dll") then Some (Ok desc)
                   else findNtdll fuel' base image (desc + sizeofImportDescriptor)
               end
      end
  end.

Fixpoint findThunk (fuel : nat) (base : Z) (image : gostring) (originalThunk thunk : Z) : option (result Z) :=
  match fuel with
  | O => None
  | S fuel' =>
      match readAt base image 8 (u64 originalThunk) with
      | None => None
      | Some v =>
          if v =? 0 then Some (Err (ErrText "RtlPcToFileHeader not found"))
          else
            let next := findThunk fuel' base image (originalThunk + 8) (thunk + 8) in
            if IMAGE_SNAP_BY_ORDINAL v then next
            else match cstringAt base image (u64 (base + v + 2)) with
                 | None => None
                 | Some name => if bool_decide (name = str "RtlPcToFileHeader") then Some (Ok thunk) else next
                 end
      end
  end.

(** The address of the import of RtlPcToFileHeader. *)
Definition findHook (base : Z) (image : gostring) : option (result Z) :=
  let fuel := S (length image) in
  match readAt base image 4 (u64 (base + o_E_lfanew)) with
  | None => None
  | Some lfanew =>
      match readAt base image 4 (u64 (base + int32_of lfanew + o_DataDirectory + 8 * IMAGE_DIRECTORY_ENTRY_IMPORT)) with
      | None => None
      | Some imports =>
          match findNtdll fuel base image (base + imports) with
          | None => None
          | Some (Err e) => Some (Err e)
          | Some (Ok desc) =>
              match readAt base image 4 (u64 desc), readAt base image 4 (u64 (desc + 16)) with
              | Some original, Some first => findThunk fuel base image (base + original) (base + first)
              | _, _ => None
              end
          end
      end
  end.

Definition hookRtlPcToFileHeader : L loader unit :=
  run! kernelBase := lget (fun s => sys_KernelBase (lo_sys s)) in
  match kernelBase with
  | Err e => lfail e
  | Ok (base, image) =>
      run! found := llift (findHook base image) in
      match found with
      | Err e => lfail e
      | Ok thunk =>
          run! oldProtect := onSys (sys_Protect thunk 8 PAGE_READWRITE) in
          run! callback := lget (fun s => sys_NewCallback (lo_sys s)) in
          run! _ := tell (sys_PatchKernelBase thunk callback) in
          run! _ := onSys (sys_Protect thunk 8 oldProtect) in
          lret tt
      end
  end.

(** The address the hook passes on: inside a loaded module, that of the hook. *)
Fixpoint hookedPc (ranges : list (Z * Z)) (thunk pcValue : Z) : Z :=
  match ranges with
  | [] => pcValue
  | (start, end_) :: rest => if (start <=? pcValue) && (pcValue <? end_) then thunk else hookedPc rest thunk pcValue
  end.

(** sync.Once: the first call decides. *)
Definition hookOnce : L loader unit :=
  fun s => match lo_hook s with
           | Some r => Some (r, s)
           | None => match hookRtlPcToFileHeader s with
                     | Some (r, s') => Some (r, setHook r s')
                     | None => None
                     end
           end.

(** ** Free *)

Fixpoint freeAll (f : Z -> L loader unit) (l : list Z) : L loader unit :=
  match l with
  | [] => lret tt
  | a :: l' => run! _ := f a in freeAll f l'
  end.

(** The first range that starts at [base] is cut out. *)
Fixpoint cutRange (base : Z) (ranges : list (Z * Z)) : list (Z * Z) :=
  match ranges with
  | [] => []
  | r :: rest => if fst r =? base then rest else r :: cutRange base rest
  end.

Definition deleteFunctionTable (a : Z) : L loader unit :=
  lmod (fun s => setOwned id id (fun o => o ∖ {[+ a +]}) (setSys (sys_RtlDeleteFunctionTable a (lo_sys s)) s)).

Definition freeModule (m : mmModule) : L loader unit :=
  run! _ := (if mo_initialized m
             then run! _ := call (mo_entry m) [mo_codeBase m; DLL_PROCESS_DETACH; 0] in setMod (withInitialized false)
             else lret tt) in
  run! _ := freeAll freeLibrary (mo_modules m) in
  run! _ := setMod (withModules []) in
  run! _ := (if mo_runtimeFuncs m =? 0 then lret tt
             else run! _ := deleteFunctionTable (mo_runtimeFuncs m) in setMod (withRuntimeFuncs 0)) in
  run! _ := (if mo_codeBase m =? 0 then lret tt
             else
               run! _ := lmod (setRanges (cutRange (mo_codeBase m))) in
               run! _ := release (mo_codeBase m) in
               setMod (withCodeBase 0)) in
  run! _ := freeAll release (mo_blockedMemory m) in
  setMod (withBlocked []).

Definition Free : L loader unit := run! m := lget lo_module in freeModule m.

(** ** LoadLibrary *)

(** What LoadLibrary takes from the headers of the file. *)
Record filePlan : Type := mkPlan {
  fp_lfanew : Z;
  fp_imageBase : Z;
  fp_alignment : Z;
  fp_sizeOfHeaders : Z;
  fp_alignedImageSize : Z;
  fp_isDLL : bool
}.

Definition obind_res {A B} (r : option A) (k : A -> option (result B)) : option (result B) :=
  match r with Some a => k a | None => None end.
Notation "'get!' x ':=' r 'in' k" := (obind_res r (fun x => k)) (at level 10, x pattern, r at level 100, k at level 200).

Definition dataAt (data : gostring) (n : nat) (off : Z) : option Z := readAt 0 data n off.

(** The end of the last section. *)
Fixpoint lastEnd (data : gostring) (alignment first : Z) (n : nat) (i : Z) (last : Z) : option Z :=
  match n with
  | O => Some last
  | S n' =>
      match dataAt data 4 (section first i + o_SizeOfRawData), dataAt data 4 (section first i + o_VirtualAddress) with
      | Some raw, Some va => lastEnd data alignment first n' (i + 1) (Z.max last (va + (if raw =? 0 then alignment else raw)))
      | _, _ => None
      end
  end.

(** The checks before anything is allocated. *)
Definition validate (data : gostring) : option (result filePlan) :=
  let size := Z.of_nat (length data) in
  if size <? sizeofDosHeader then Some (Err (ErrText "Incomplete IMAGE_DOS_HEADER"))
  else
    get! magic := dataAt data 2 0 in
    if negb (magic =? IMAGE_DOS_SIGNATURE) then Some (Err (ErrText "Not an MS-DOS binary"))
    else
      get! lfanew := dataAt data 4 o_E_lfanew in
      let h := int32_of lfanew in
      if (h <? 0) || (size <? h + sizeofNtHeaders) then Some (Err (ErrText "Incomplete IMAGE_NT_HEADERS"))
      else
        get! signature := dataAt data 4 h in
        get! machine := dataAt data 2 (h + o_Machine) in
        get! alignment := dataAt data 4 (h + o_SectionAlignment) in
        get! n := dataAt data 2 (h + o_NumberOfSections) in
        get! optionalSize := dataAt data 2 (h + o_SizeOfOptionalHeader) in
        get! directories := dataAt data 4 (h + o_NumberOfRvaAndSizes) in
        get! sizeOfImage := dataAt data 4 (h + o_SizeOfImage) in
        get! imageBase := dataAt data 8 (h + o_ImageBase) in
        get! sizeOfHeaders := dataAt data 4 (h + o_SizeOfHeaders) in
        get! characteristics := dataAt data 2 (h + o_FileCharacteristics) in
        let first := h + o_OptionalHeader + optionalSize in
        if negb (signature =? IMAGE_NT_SIGNATURE) then Some (Err (ErrText "Not an NT binary"))
        else if negb (machine =? IMAGE_FILE_MACHINE_AMD64) then Some (Err (ErrText "Foreign platform"))
        else if (alignment =? 0) || negb (Z.land alignment (alignment - 1) =? 0) then Some (Err (ErrText "Unaligned section"))
        else if n =? 0 then Some (Err (ErrText "No sections"))
        else if optionalSize <? sizeofOptionalHeader then Some (Err (ErrText "Incomplete optional header"))
        else if directories <? IMAGE_NUMBEROF_DIRECTORY_ENTRIES then Some (Err (ErrText "Incomplete data directory"))
        else if size <? first + n * sizeofSectionHeader then Some (Err (ErrText "Incomplete section headers"))
        else
          get! lastSectionEnd := lastEnd data alignment first (Z.to_nat n) 0 0 in
          let alignedImageSize := alignUp sizeOfImage alignment in
          if negb (alignedImageSize =? alignUp lastSectionEnd alignment) then Some (Err (ErrText "Section is not page-aligned"))
          else Some (Ok (mkPlan h imageBase alignment sizeOfHeaders alignedImageSize
                           (negb (Z.land characteristics IMAGE_FILE_DLL =? 0)))).

(** Memory for the image, at its own base or anywhere, within four gigabytes. *)
Definition allocImage (fuel : nat) (p : filePlan) : L loader unit :=
  run! _ := (fun s => match allocCode (fp_imageBase p) (fp_alignedImageSize p) s with
                      | Some (Err _, s') => lwrap "Error allocating code" (allocCode 0 (fp_alignedImageSize p)) s'
                      | r => r
                      end) in
  lwrap "Error reallocating code" (check4GBBoundaries fuel (fp_alignedImageSize p)).

Definition copyHeaders (data : gostring) (p : filePlan) : L loader unit :=
  if Z.of_nat (length data) <? fp_sizeOfHeaders p then lfail (ErrText "Incomplete headers")
  else
    run! base := codeBase in
    run! dest := lwrap "Error allocating headers" (onSys (sys_Commit base (fp_sizeOfHeaders p))) in
    run! _ := storeBytes dest (bytesAt 0 (Z.to_nat (fp_sizeOfHeaders p)) data) in
    run! _ := setMod (withHeaders (u64 (dest + fp_lfanew p))) in
    run! h := headers in
    wr 8 (h + o_ImageBase) base.

Definition relocate (p : filePlan) : L loader unit :=
  run! imageBase := headerField 8 o_ImageBase in
  let locationDelta := u64 (imageBase - fp_imageBase p) in
  if locationDelta =? 0 then setMod (withRelocated true)
  else
    run! relocated := lwrap "Error relocating module" (performBaseRelocation locationDelta) in
    run! _ := setMod (withRelocated relocated) in
    if relocated then lret tt else lfail (ErrText "Module could not be relocated").

Definition ERROR_DLL_INIT_FAILED : Z := 1114.

(** The entry point is told that the library is attached. *)
Definition attach : L loader unit :=
  run! entry := headerField 4 o_AddressOfEntryPoint in
  if entry =? 0 then lret tt
  else
    run! base := codeBase in
    run! _ := setMod (withEntry (u64 (base + entry))) in
    run! m := lget lo_module in
    if mo_isDLL m then
      run! r0 := call (mo_entry m) [base; DLL_PROCESS_ATTACH; 0] in
      if r0 =? 0 then lfail (ErrCode ERROR_DLL_INIT_FAILED) else setMod (withInitialized true)
    else lret tt.

(** A call whose error is ignored. *)
Definition ltry {A} (m : L loader A) : L loader unit :=
  fun s => match m s with Some (_, s') => Some (Ok tt, s') | None => None end.

Definition loadImage (fuel : nat) (data : gostring) (p : filePlan) : L loader unit :=
  run! _ := allocImage fuel p in
  run! _ := copyHeaders data p in
  run! _ := lwrap "Error copying sections" (copySections data (fp_alignment p)) in
  run! _ := relocate p in
  run! _ := lwrap "Error building import table" buildImportTable in
  run! _ := lwrap "Error finalizing sections" finalizeSections in
  run! _ := registerExceptionHandlers in
  run! base := codeBase in
  run! _ := lmod (setRanges (fun ranges => ranges ++ [(base, u64 (base + fp_alignedImageSize p))])) in
  run! _ := hookOnce in
  run! _ := executeTLS in
  run! _ := attach in
  ltry buildNameExports.

(** The module that was loaded is that of the state; on an error it is freed. *)
Definition LoadLibrary (fuel : nat) (data : gostring) : L loader unit :=
  fun s =>
    match validate data with
    | None => None
    | Some (Err e) => Some (Err e, s)
    | Some (Ok p) =>
        match loadImage fuel data p (setModule (fun _ => newModule (fp_isDLL p)) s) with
        | Some (Err e, s') => match Free s' with Some (_, s'') => Some (Err e, s'') | None => None end
        | r => r
        end
    end.
End Memmod.
