(* ===== verification/MemmodTheorems.v ===== *)
(** * Loading a library from memory: what is checked, kept and given back

    The checks of the headers never read outside the file, what they accept fits
    into the image, and a library that cannot be loaded leaves nothing behind. *)

From stdpp Require Import gmultiset.
From S2P Require Import Prelude GoStrings GoNum Netip Config Name Parser ConfWf Driver Effects Memmod.
Local Open Scope Z_scope.

(** ** The checks of the headers *)

Lemma dataAt_in (data : gostring) (n : nat) (off : Z) :
  0 <= off -> off + Z.of_nat n <= Z.of_nat (length data) -> exists v, dataAt data n off = Some v.
Proof.
  intros Ho Hl. unfold dataAt, readAt, offsetOf. pose proof (Z.mod_le off (2 ^ 64) Ho ltac:(lia)) as Hm. unfold u64. rewrite Z.sub_0_r.
  destruct (Z.leb_spec 0 (Z.of_nat n)); [|lia]. destruct (Z.leb_spec (off mod 2 ^ 64 + Z.of_nat n) (Z.of_nat (length data))); [|lia].
  by eexists.
Qed.

Lemma leValue_range (bs : gostring) : 0 <= leValue bs < 256 ^ Z.of_nat (length bs).
Proof.
  induction bs as [|b bs IH]; [cbn; lia|]. cbn [leValue length]. rewrite Nat2Z.inj_succ, Z.pow_succ_r by lia.
  pose proof (code_range b). lia.
Qed.
Lemma fieldAt_range (off n : nat) (bs : gostring) : 0 <= fieldAt off n bs < 256 ^ Z.of_nat n.
Proof.
  pose proof (leValue_range (bytesAt off n bs)) as Hr. unfold fieldAt. unfold bytesAt in *. rewrite length_take in Hr.
  pose proof (Z.pow_le_mono_r 256 (Z.of_nat (n `min` length (drop off bs))) (Z.of_nat n)). lia.
Qed.
Lemma dataAt_range (data : gostring) (n : nat) (off v : Z) : dataAt data n off = Some v -> 0 <= v < 256 ^ Z.of_nat n.
Proof. unfold dataAt, readAt. case_match; [|done]. intros [= <-]. apply fieldAt_range. Qed.

(** Reads the next field of the file, with its bounds. *)
Ltac read_data :=
  match goal with
  | |- context [obind_res (dataAt ?d ?n ?o) _] =>
      let v := fresh "v" in let E := fresh "E" in let R := fresh "R" in
      destruct (dataAt_in d n o) as [v E]; [lia..|]; rewrite E; cbn [obind_res];
      pose proof (dataAt_range d n o v E) as R; cbn in R
  end.

(** Where the section whose header stands at [at_] ends, one without data taking
    a page of its own. *)
Definition sectionEnd (data : gostring) (alignment at_ e : Z) : Prop :=
  exists va raw, dataAt data 4 (at_ + 12) = Some va /\ dataAt data 4 (at_ + 16) = Some raw
  /\ e = va + (if raw =? 0 then alignment else raw).

Lemma lastEnd_total (data : gostring) (alignment first : Z) (n : nat) (i last : Z) :
  0 <= first -> 0 <= i -> first + (i + Z.of_nat n) * sizeofSectionHeader <= Z.of_nat (length data) ->
  exists e, lastEnd data alignment first n i last = Some e
  /\ last <= e
  /\ (forall j, i <= j < i + Z.of_nat n -> exists x, sectionEnd data alignment (first + 40 * j) x /\ x <= e)
  /\ (e = last \/ exists j, i <= j < i + Z.of_nat n /\ sectionEnd data alignment (first + 40 * j) e).
Proof.
  revert i last. induction n as [|n IH]; intros i last Hf Hi Hl; cbn [lastEnd].
  { exists last. split; [done|]. split; [lia|]. split; [lia|auto]. }
  unfold section, sizeofSectionHeader, o_SizeOfRawData, o_VirtualAddress in *.
  destruct (dataAt_in data 4 (first + 40 * i + 16)) as [raw Eraw]; [lia..|].
  destruct (dataAt_in data 4 (first + 40 * i + 12)) as [va Eva]; [lia..|]. rewrite Eraw, Eva.
  set (x := va + (if raw =? 0 then alignment else raw)). assert (Hx : sectionEnd data alignment (first + 40 * i) x) by by exists va, raw.
  destruct (IH (i + 1) (Z.max last x)) as (e & Ee & Hle & Hs & Hlast); [lia..|].
  exists e. split; [done|]. split; [lia|]. split.
  - intros j Hj. destruct (decide (j = i)) as [->|Hn]; [|apply Hs; lia]. exists x. split; [done|lia].
  - destruct Hlast as [->|(j & Hj & He)]; [|right; exists j; split; [lia|done]].
    destruct (Z.max_spec last x) as [[_ ->]|[_ ->]]; [right; exists i; split; [lia|done]|auto].
Qed.

(** What the headers say of a file LoadLibrary goes on with, in the offsets of the
    format of executables: a DOS and an NT signature, the machine, an alignment
    that is a power of two, all sixteen directories, as many sections as the file
    header counts, whose headers follow the optional header of the size it states
    and lie in the file; the memory the library is to take is the size of the
    image rounded up to the alignment, every section ends within it, and one ends
    on its last page. *)
Definition roundUp (v a : Z) : Z := (v + a - 1) / a * a.
Record checked (data : gostring) (p : filePlan) : Prop := {
  ck_dos : 64 <= Z.of_nat (length data) /\ dataAt data 2 0 = Some 0x5A4D;
  ck_lfanew : dataAt data 4 60 = Some (fp_lfanew p) /\ fp_lfanew p < 2 ^ 31;
  ck_nt : fp_lfanew p + 264 <= Z.of_nat (length data) /\ dataAt data 4 (fp_lfanew p) = Some 0x4550;
  ck_machine : dataAt data 2 (fp_lfanew p + 4) = Some 0x8664;
  ck_alignment : dataAt data 4 (fp_lfanew p + 56) = Some (fp_alignment p) /\ exists k, 0 <= k /\ fp_alignment p = 2 ^ k;
  ck_imageBase : dataAt data 8 (fp_lfanew p + 48) = Some (fp_imageBase p);
  ck_sizeOfHeaders : dataAt data 4 (fp_lfanew p + 84) = Some (fp_sizeOfHeaders p);
  ck_isDLL : exists c, dataAt data 2 (fp_lfanew p + 22) = Some c /\ fp_isDLL p = negb (Z.land c 0x2000 =? 0);
  ck_directories : exists d, dataAt data 4 (fp_lfanew p + 132) = Some d /\ 16 <= d;
  ck_image : exists size, dataAt data 4 (fp_lfanew p + 80) = Some size /\ fp_alignedImageSize p = roundUp size (fp_alignment p);
  ck_sections : exists n opt, dataAt data 2 (fp_lfanew p + 6) = Some n /\ dataAt data 2 (fp_lfanew p + 20) = Some opt
    /\ 0 < n /\ 240 <= opt
    /\ let first := fp_lfanew p + 24 + opt in
       first + 40 * n <= Z.of_nat (length data)
       /\ (forall i, 0 <= i < n -> exists e, sectionEnd data (fp_alignment p) (first + 40 * i) e /\ e <= fp_alignedImageSize p)
       /\ exists i e, 0 <= i < n /\ sectionEnd data (fp_alignment p) (first + 40 * i) e /\ fp_alignedImageSize p = roundUp e (fp_alignment p)
}.

Lemma land_pred_pow2 (a : Z) : 0 < a -> Z.land a (a - 1) = 0 -> exists k, 0 <= k /\ a = 2 ^ k.
Proof.
  intros Ha Hz. exists (Z.log2 a). split; [apply Z.log2_nonneg|]. pose proof (Z.log2_spec a Ha) as [Hlo Hhi].
  set (k := Z.log2 a) in *. pose proof (Z.log2_nonneg a : 0 <= k) as Hk. destruct (decide (a = 2 ^ k)) as [?|Hn]; [done|].
  assert (Hb : Z.testbit (Z.land a (a - 1)) k = true); [|by rewrite Hz, Z.bits_0 in Hb].
  rewrite Z.land_spec. apply andb_true_iff.
  assert (Hbit : forall x, 2 ^ k <= x < 2 ^ Z.succ k -> Z.testbit x k = true).
  { intros x Hx. rewrite Z.testbit_true by done. rewrite Z.pow_succ_r in Hx by done.
    replace (x / 2 ^ k) with 1; [done|]. apply (Z.div_unique x (2 ^ k) 1 (x - 2 ^ k)); lia. }
  split; apply Hbit; lia.
Qed.

Lemma alignUp_pow2 (v k : Z) : 0 <= k <= 32 -> 0 <= v < 2 ^ 40 -> alignUp v (2 ^ k) = (v + 2 ^ k - 1) / 2 ^ k * 2 ^ k.
Proof.
  intros Hk Hv. unfold alignUp, u64. assert (Hp : 0 < 2 ^ k <= 2 ^ 32) by (split; [apply Z.pow_pos_nonneg|apply Z.pow_le_mono_r]; lia).
  rewrite (Z.mod_small (v + 2 ^ k - 1)) by lia. set (x := v + 2 ^ k - 1). assert (Hx : 0 <= x < 2 ^ 64) by (unfold x; lia).
  rewrite <- Z.shiftl_mul_pow2, <- Z.shiftr_div_pow2 by lia. apply Z.bits_inj'. intros i Hi.
  rewrite Z.land_spec, Z.shiftl_spec by lia. destruct (decide (i < 64)) as [Hi64|Hi64].
  - rewrite Z.mod_pow2_bits_low, Z.lnot_spec by lia. replace (2 ^ k - 1) with (Z.ones k) by (rewrite Z.ones_equiv; lia).
    rewrite Z.testbit_ones_nonneg by lia. destruct (Z.ltb_spec i k).
    + rewrite (Z.testbit_neg_r _ (i - k)) by lia. by rewrite andb_false_r.
    + rewrite Z.shiftr_spec by lia. by rewrite andb_true_r, Z.sub_add.
  - rewrite Z.mod_pow2_bits_high, andb_false_r by lia. rewrite Z.shiftr_spec by lia.
    rewrite Z.sub_add, <- (Z.mod_small x (2 ^ 64)) by done. by rewrite Z.mod_pow2_bits_high by lia.
Qed.
Lemma alignUp_ge (v k : Z) : 0 <= k <= 32 -> 0 <= v < 2 ^ 40 -> v <= alignUp v (2 ^ k).
Proof.
  intros Hk Hv. rewrite alignUp_pow2 by done. assert (0 < 2 ^ k) by (apply Z.pow_pos_nonneg; lia).
  pose proof (Z.div_mod (v + 2 ^ k - 1) (2 ^ k) ltac:(lia)). pose proof (Z.mod_pos_bound (v + 2 ^ k - 1) (2 ^ k) ltac:(lia)). lia.
Qed.

Lemma lastEnd_bound (data : gostring) (alignment first : Z) (n : nat) (i last e : Z) :
  0 <= alignment < 2 ^ 32 -> 0 <= last < 2 ^ 34 -> lastEnd data alignment first n i last = Some e -> 0 <= e < 2 ^ 34.
Proof.
  intros Ha. revert i last. induction n as [|n IH]; intros i last Hl; cbn [lastEnd]; [by intros [= ->]|].
  destruct (dataAt data 4 (section first i + o_SizeOfRawData)) as [raw|] eqn:Er; [|done].
  destruct (dataAt data 4 (section first i + o_VirtualAddress)) as [va|] eqn:Ev; [|done].
  apply dataAt_range in Er, Ev. cbn in Er, Ev. apply IH. destruct (raw =? 0); lia.
Qed.

Lemma alignUp_roundUp (v a k : Z) : a = 2 ^ k -> 0 <= k -> 0 <= a < 2 ^ 32 -> 0 <= v < 2 ^ 40 -> alignUp v a = roundUp v a.
Proof.
  intros -> Hk Ha Hv. apply alignUp_pow2; [|done]. assert (k < 32) by (apply (Z.pow_lt_mono_r_iff 2); lia). lia.
Qed.
Lemma roundUp_ge (v a : Z) : 0 < a -> v <= roundUp v a.
Proof.
  intros Ha. unfold roundUp. pose proof (Z.div_mod (v + a - 1) a ltac:(lia)). pose proof (Z.mod_pos_bound (v + a - 1) a Ha). lia.
Qed.
Lemma roundUp_mono (v w a : Z) : 0 < a -> v <= w -> roundUp v a <= roundUp w a.
Proof. intros Ha Hvw. unfold roundUp. apply Z.mul_le_mono_nonneg_r; [lia|]. apply Z.div_le_mono; lia. Qed.
Lemma roundUp_idem (v a : Z) : 0 < a -> roundUp (roundUp v a) a = roundUp v a.
Proof.
  intros Ha. unfold roundUp at 1. set (q := roundUp v a). unfold roundUp in q. subst q. f_equal.
  symmetry. apply (Z.div_unique _ a _ (a - 1)); lia.
Qed.
Lemma pow2_land_pred (k : Z) : 0 <= k -> Z.land (2 ^ k) (2 ^ k - 1) = 0.
Proof.
  intros Hk. replace (2 ^ k - 1) with (Z.ones k) by (rewrite Z.ones_equiv; lia). rewrite Z.land_ones by done. apply Z.mod_same. lia.
Qed.
Lemma sectionEnd_det (data : gostring) (a at_ x y : Z) : sectionEnd data a at_ x -> sectionEnd data a at_ y -> x = y.
Proof. intros (va & raw & E1 & E2 & ->) (va' & raw' & E3 & E4 & ->). by simplify_eq. Qed.
Lemma sectionEnd_pos (data : gostring) (a at_ x : Z) : 0 < a -> sectionEnd data a at_ x -> 0 < x.
Proof.
  intros Ha (va & raw & E1 & E2 & ->). apply dataAt_range in E1, E2. cbn in E1, E2. destruct (Z.eqb_spec raw 0); lia.
Qed.

Lemma int32_nonneg (v : Z) : 0 <= v < 2 ^ 32 -> 0 <= int32_of v -> int32_of v = v /\ v < 2 ^ 31.
Proof. unfold int32_of. destruct (Z.ltb_spec v (2 ^ 31)); lia. Qed.

Ltac unfold_offsets :=
  unfold sizeofDosHeader, o_E_lfanew, sizeofNtHeaders, o_Machine, o_SectionAlignment, o_NumberOfSections, o_SizeOfOptionalHeader,
    o_NumberOfRvaAndSizes, o_SizeOfImage, o_ImageBase, o_SizeOfHeaders, o_FileCharacteristics, o_OptionalHeader, sizeofOptionalHeader,
    IMAGE_DOS_SIGNATURE, IMAGE_NT_SIGNATURE, IMAGE_FILE_MACHINE_AMD64, IMAGE_NUMBEROF_DIRECTORY_ENTRIES, IMAGE_FILE_DLL,
    sizeofSectionHeader in *.

Lemma validate_sound (data : gostring) : exists r, validate data = Some r /\ forall p, r = Ok p -> checked data p.
Proof.
  unfold validate. unfold_offsets.
  destruct (Z.ltb_spec (Z.of_nat (length data)) 64) as [|Hsize]; [by eexists|]. read_data.
  destruct (Z.eqb_spec v 0x5A4D) as [->|]; [|by eexists]. cbn [negb]. read_data. set (h := int32_of _).
  destruct (Z.ltb_spec h 0) as [|Hh]; [by eexists|]. cbn [orb]. destruct (int32_nonneg v R0 Hh) as [Eh Hv]. fold h in Eh.
  destruct (Z.ltb_spec (Z.of_nat (length data)) (h + 264)) as [|Hnt]; [by eexists|]. do 10 read_data.
  destruct (Z.eqb_spec v0 0x4550) as [->|]; [|by eexists]. destruct (Z.eqb_spec v1 0x8664) as [->|]; [|by eexists]. cbn [negb].
  destruct ((v2 =? 0) || negb (Z.land v2 (v2 - 1) =? 0)) eqn:Eal; [by eexists|].
  apply orb_false_iff in Eal as [Eal0%Z.eqb_neq Eal%negb_false_iff%Z.eqb_eq].
  destruct (land_pred_pow2 v2 ltac:(lia) Eal) as (k & Hk & Ek).
  destruct (Z.eqb_spec v3 0) as [|Hn]; [by eexists|]. destruct (Z.ltb_spec v4 240); [by eexists|].
  destruct (Z.ltb_spec v5 16); [by eexists|].
  destruct (Z.ltb_spec (Z.of_nat (length data)) (h + 24 + v4 + v3 * 40)) as [|Hsec]; [by eexists|].
  destruct (lastEnd_total data v2 (h + 24 + v4) (Z.to_nat v3) 0 0) as (e & Ee & Hle & Hs & Hlast); [unfold_offsets; lia..|].
  rewrite Ee. cbn [obind_res]. apply lastEnd_bound in Ee; [|lia..].
  rewrite (alignUp_roundUp v6 v2 k), (alignUp_roundUp e v2 k) by lia.
  destruct (Z.eqb_spec (roundUp v6 v2) (roundUp e v2)) as [Heq|]; [|by eexists]. cbn [negb].
  pose proof (roundUp_ge e v2 ltac:(lia)) as Hge.
  eexists. split; [done|]. intros p [= <-]. rewrite Z2Nat.id in * by lia.
  split; cbn [fp_lfanew fp_imageBase fp_alignment fp_sizeOfHeaders fp_alignedImageSize fp_isDLL]; eauto; [by rewrite Eh|].
  exists v3, v4. do 2 (split; [done|]). do 2 (split; [lia|]). split; [lia|]. split.
  - intros i Hi. destruct (Hs i ltac:(lia)) as (x & Hx & Hxe). exists x. split; [done|lia].
  - destruct Hlast as [->|(j & Hj & He)]; [|exists j, e; split; [lia|]; by rewrite Heq].
    destruct (Hs 0 ltac:(lia)) as (x & Hx & Hxe). apply sectionEnd_pos in Hx; lia.
Qed.

Lemma validate_complete (data : gostring) (p : filePlan) : checked data p -> validate data = Some (Ok p).
Proof.
  intros [[Hsize Hdos] [Elf Hlf] [Hnt Esig] Emach [Eal (k & Hk & Ek)] Ebase Ehdr (c & Ec & Edll) (d & Ed & Hd) (size & Es & Eimg)
    (n & opt & En & Eopt & Hn & Hopt & Hsec & Hall & i & e & Hi & He & Eend)].
  pose proof (dataAt_range _ _ _ _ Elf) as R1. pose proof (dataAt_range _ _ _ _ Eal) as R2. pose proof (dataAt_range _ _ _ _ Es) as R3.
  pose proof (dataAt_range _ _ _ _ Eopt) as R4. cbn in R1, R2, R3, R4.
  assert (Ha : 0 < fp_alignment p) by (rewrite Ek; apply Z.pow_pos_nonneg; lia).
  assert (Eh : int32_of (fp_lfanew p) = fp_lfanew p) by (unfold int32_of; destruct (Z.ltb_spec (fp_lfanew p) (2 ^ 31)); lia).
  unfold validate. unfold_offsets. rewrite (proj2 (Z.ltb_ge _ _)) by lia. rewrite Hdos, Elf. cbn [obind_res Z.eqb negb]. rewrite Eh.
  rewrite (proj2 (Z.ltb_ge (fp_lfanew p) 0)) by lia. rewrite (proj2 (Z.ltb_ge _ (fp_lfanew p + 264))) by lia. cbn [orb].
  change (24 + 32) with 56. change (24 + 108) with 132. change (24 + 56) with 80. change (24 + 24) with 48. change (24 + 60) with 84.
  rewrite Esig, Emach, Eal, En, Eopt, Ed, Es, Ebase, Ehdr, Ec. cbn [obind_res].
  rewrite !Z.eqb_refl. cbn [negb]. rewrite (proj2 (Z.eqb_neq (fp_alignment p) 0)) by lia.
  replace (Z.land (fp_alignment p) (fp_alignment p - 1)) with 0 by (rewrite Ek; symmetry; by apply pow2_land_pred). cbn [Z.eqb negb orb].
  rewrite (proj2 (Z.eqb_neq n 0)), (proj2 (Z.ltb_ge opt 240)), (proj2 (Z.ltb_ge d 16)) by lia.
  rewrite (proj2 (Z.ltb_ge _ (fp_lfanew p + 24 + opt + n * 40))) by lia.
  destruct (lastEnd_total data (fp_alignment p) (fp_lfanew p + 24 + opt) (Z.to_nat n) 0 0) as (l & El & Hl0 & Hs & Hlast); [unfold_offsets; lia..|].
  rewrite El. cbn [obind_res]. apply lastEnd_bound in El; [|lia..]. rewrite Z2Nat.id in * by lia.
  rewrite (alignUp_roundUp size _ k), (alignUp_roundUp l _ k), <- Eimg by lia.
  assert (Hle : e <= l). { destruct (Hs i Hi) as (x & Hx & Hxl). by rewrite (sectionEnd_det _ _ _ _ _ He Hx). }
  assert (Hl : l <= fp_alignedImageSize p).
  { destruct Hlast as [->|(j & Hj & Hend)]; [rewrite Eend; pose proof (roundUp_ge e _ Ha); pose proof (sectionEnd_pos _ _ _ _ Ha He); lia|].
    destruct (Hall j Hj) as (x & Hx & Hxl). by rewrite (sectionEnd_det _ _ _ _ _ Hend Hx). }
  apply (roundUp_mono _ _ _ Ha) in Hle, Hl. rewrite Eend, roundUp_idem in Hl by done.
  replace (roundUp l (fp_alignment p)) with (fp_alignedImageSize p) by lia. rewrite Z.eqb_refl. cbn [negb]. rewrite <- Edll.
  by destruct p.
Qed.

(** C37: LoadLibrary looks at any bytes without reading outside them, and before it
    has allocated anything it has refused them with an error or goes on with
    exactly the files whose headers are as [checked] says: the section table is
    the one the file header announces (its count, after an optional header of the
    stated size), it lies in the file, every section of it ends within the memory
    that is going to be allocated, and that memory is no larger than the last of
    them needs; what it goes on with are the fields of the headers. *)
Theorem validate_safe (data : gostring) :
  exists r, validate data = Some r /\ forall p, r = Ok p <-> checked data p.
Proof.
  destruct (validate_sound data) as (r & E & Hr). exists r. split; [done|]. intros p. split; [apply Hr|].
  intros Hc%validate_complete. congruence.
Qed.

(** ** What is taken and given back *)

(** Documented of VirtualAlloc: a region lies in the address space of the process. *)
Class LoaderLaws (W : Type) `{LoaderSystem W} : Prop := {
  reserve_user address size w a w' : sys_Reserve address size w = (Ok a, w') -> 0 < a < 2 ^ 47
}.

Section Resources.
Context {W : Type} `{LoaderLaws W}.

Abbreviation loader := (loader W).

(** Two states that differ in the image, the system and the hook. *)
Definition same (s s' : loader) : Prop :=
  lo_module s' = lo_module s /\ lo_ranges s' = lo_ranges s /\ lo_regions s' = lo_regions s
  /\ lo_libraries s' = lo_libraries s /\ lo_tables s' = lo_tables s.
Definition plain {A} (m : L loader A) : Prop := forall s r s', m s = Some (r, s') -> same s s'.

Lemma same_process_refl s : same s s.
Proof. done. Qed.
Lemma same_process_trans s1 s2 s3 : same s1 s2 -> same s2 s3 -> same s1 s3.
Proof. unfold same. intros (? & ? & ? & ? & ?) (? & ? & ? & ? & ?). repeat split; congruence. Qed.

Lemma plain_then {A B} (m : L loader A) (k : A -> L loader B) : plain m -> (forall a, plain (k a)) -> plain (lthen m k).
Proof.
  intros Hm Hk s r s' E. unfold lthen in E. destruct (m s) as [[[a|e] s1]|] eqn:Em; [| |done].
  - exact (same_process_trans _ _ _ (Hm _ _ _ Em) (Hk a _ _ _ E)).
  - injection E as <- <-. exact (Hm _ _ _ Em).
Qed.
Lemma plain_wrap {A} why (m : L loader A) : plain m -> plain (lwrap why m).
Proof. intros Hm s r s' E. unfold lwrap in E. destruct (m s) as [[[a|e] s1]|] eqn:Em; simplify_eq; exact (Hm _ _ _ Em). Qed.
Lemma plain_ret {A} (a : A) : plain (lret a).
Proof. by intros s r s' [= <- <-]. Qed.
Lemma plain_fail {A} e : plain (A := A) (lfail e).
Proof. by intros s r s' [= <- <-]. Qed.
Lemma plain_crash {A} : plain (A := A) lcrash.
Proof. by intros s r s'. Qed.
Lemma plain_get {A} (f : loader -> A) : plain (lget f).
Proof. by intros s r s' [= <- <-]. Qed.
Lemma plain_lift {A} (o : option A) : plain (llift o).
Proof. intros s r s' E. unfold llift in E. by destruct o; simplify_eq. Qed.
Lemma plain_rd n a : plain (rd n a).
Proof. intros s r s' E. unfold rd in E. by destruct (readAt _ _ _ _); simplify_eq. Qed.
Lemma plain_rdString a : plain (rdString a).
Proof. intros s r s' E. unfold rdString in E. by destruct (cstringAt _ _ _); simplify_eq. Qed.
Lemma plain_store a bs : plain (storeBytes a bs).
Proof. intros s r s' E. unfold storeBytes in E. by destruct (storeAt _ _ _ _); simplify_eq. Qed.
Lemma plain_onSys {A} (f : M W A) : plain (onSys f).
Proof. intros s r s' E. unfold onSys in E. by destruct (f (lo_sys s)); simplify_eq. Qed.
Lemma plain_tell f : plain (tell f).
Proof. by intros s r s' [= <- <-]. Qed.
Lemma plain_call f args : plain (call f args).
Proof. intros s r s' E. unfold call in E. by destruct (sys_Call _ _ _ _) as [[? ?] ?]; simplify_eq. Qed.
Lemma plain_wr n a v : plain (wr n a v).
Proof. apply plain_store. Qed.

Hint Resolve plain_ret plain_fail plain_crash plain_get plain_lift plain_rd plain_rdString plain_store plain_onSys plain_tell
  plain_call plain_wr : memmod.

Ltac plain_step :=
  match goal with
  | |- plain (lthen _ _) => apply plain_then; [|intros ?]
  | |- plain (lwrap _ _) => apply plain_wrap
  | |- plain (if ?b then _ else _) => destruct b
  | |- plain (match ?x with _ => _ end) => destruct x
  | |- plain _ => solve [auto with memmod]
  end.
Ltac plain_tac := repeat plain_step.

Lemma plain_headerField n off : plain (headerField n off).
Proof. unfold headerField, headers. plain_tac. Qed.
Lemma plain_codeBase : plain codeBase.
Proof. unfold codeBase. plain_tac. Qed.
Hint Resolve plain_headerField plain_codeBase : memmod.
Lemma plain_Sections : plain Sections.
Proof. unfold Sections, headers. plain_tac. Qed.
Lemma plain_copySection data alignment sec : plain (copySection data alignment sec).
Proof. unfold copySection. plain_tac. Qed.
Hint Resolve plain_Sections plain_copySection : memmod.
Lemma plain_copySections data alignment : plain (copySections data alignment).
Proof.
  unfold copySections. plain_step; [plain_tac|]. destruct a as [first n]. generalize 0 at 1. induction (Z.to_nat n) as [|m IH]; intros i;
    cbn [sectionLoop]; plain_tac.
Qed.
Lemma plain_realSectionSize sec : plain (realSectionSize sec).
Proof. unfold realSectionSize. plain_tac. Qed.
Lemma plain_finalizeSection d : plain (finalizeSection d).
Proof. unfold finalizeSection. plain_tac. Qed.
Hint Resolve plain_realSectionSize plain_finalizeSection : memmod.
Lemma plain_finalizeLoop imageOffset first n i d : plain (finalizeLoop imageOffset first n i d).
Proof.
  revert i d. induction n as [|n IH]; intros i d; cbn [finalizeLoop]; [plain_tac|]. unfold describeSection. plain_tac.
Qed.
Hint Resolve plain_finalizeLoop : memmod.
Lemma plain_finalizeSections : plain finalizeSections.
Proof. unfold finalizeSections, describeSection. plain_tac. Qed.
Lemma plain_relocateEntry delta dest relInfo : plain (relocateEntry delta dest relInfo).
Proof. unfold relocateEntry, relocateThumb. plain_tac. Qed.
Hint Resolve plain_relocateEntry : memmod.
Lemma plain_relocateEntries delta dest infos n j : plain (relocateEntries delta dest infos n j).
Proof. revert j. induction n as [|n IH]; intros j; cbn [relocateEntries]; plain_tac. Qed.
Hint Resolve plain_relocateEntries : memmod.
Lemma plain_relocateBlocks fuel delta relocEnd hdr : plain (relocateBlocks fuel delta relocEnd hdr).
Proof. revert hdr. induction fuel as [|n IH]; intros hdr; cbn [relocateBlocks]; plain_tac. Qed.
Hint Resolve plain_relocateBlocks : memmod.
Lemma plain_performBaseRelocation delta : plain (performBaseRelocation delta).
Proof. unfold performBaseRelocation, directorySize, directoryAddress. plain_tac. Qed.
Lemma plain_tlsLoop fuel callback : plain (tlsLoop fuel callback).
Proof. revert callback. induction fuel as [|n IH]; intros callback; cbn [tlsLoop]; plain_tac. Qed.
Hint Resolve plain_performBaseRelocation plain_tlsLoop plain_copySections plain_finalizeSections : memmod.
Lemma plain_executeTLS : plain executeTLS.
Proof. unfold executeTLS, directoryAddress, imageFuel. plain_tac. Qed.
Lemma plain_hook : plain hookRtlPcToFileHeader.
Proof. unfold hookRtlPcToFileHeader. plain_tac. Qed.
Lemma plain_hookOnce : plain hookOnce.
Proof.
  intros s r s' E. unfold hookOnce in E. destruct (lo_hook s); [by injection E as <- <-|].
  destruct (hookRtlPcToFileHeader s) as [[r1 s1]|] eqn:Eh; [|done]. injection E as <- <-. exact (plain_hook _ _ _ Eh).
Qed.
Lemma plain_getProc handle thunk : plain (getProc handle thunk).
Proof.
  unfold getProc. destruct (IMAGE_SNAP_BY_ORDINAL _); [|plain_step; [plain_tac|]; plain_step; [plain_tac|]];
    intros s r s' E; [destruct (sys_GetProcAddressByOrdinal _ _ _)|destruct (sys_GetProcAddress _ _ _)]; by injection E as <- <-.
Qed.
Hint Resolve plain_executeTLS plain_hookOnce plain_getProc : memmod.

(** *** Ownership

    [R], [Li], [T] and [Rg] are the regions, libraries, function tables and
    address ranges there were before. *)
Context (R Li T : gmultiset Z) (Rg : list (Z * Z)).
Context (Hfresh : forall address size w a w', sys_Reserve address size w = (Ok a, w') -> a ∉ Rg.*1).

Definition one (a : Z) : gmultiset Z := if a =? 0 then ∅ else {[+ a +]}.

Record owns (m : mmModule) (s : loader) : Prop := {
  ow_regions : lo_regions s = one (mo_codeBase m) ⊎ list_to_set_disj (mo_blockedMemory m) ⊎ R;
  ow_libraries : lo_libraries s = list_to_set_disj (mo_modules m) ⊎ Li;
  ow_tables : lo_tables s = one (mo_runtimeFuncs m) ⊎ T;
  ow_base : 0 <= mo_codeBase m < 2 ^ 47;
  ow_new : mo_codeBase m = 0 \/ mo_codeBase m ∉ Rg.*1
}.

(** The stages of LoadLibrary: before the imports, before the exception table,
    before the range is listed, and after. *)
Definition stage2 (s : loader) : Prop := owns (lo_module s) s /\ lo_ranges s = Rg /\ mo_codeBase (lo_module s) <> 0.
Definition stage1 (s : loader) : Prop := stage2 s /\ mo_runtimeFuncs (lo_module s) = 0.
Definition stage0 (s : loader) : Prop := stage1 s /\ mo_modules (lo_module s) = [].
Definition stage3 (s : loader) : Prop :=
  owns (lo_module s) s
  /\ (lo_ranges s = Rg \/ mo_codeBase (lo_module s) <> 0 /\ exists e, lo_ranges s = Rg ++ [(mo_codeBase (lo_module s), e)]).

Lemma stage0_1 s : stage0 s -> stage1 s.
Proof. by intros [? _]. Qed.
Lemma stage1_2 s : stage1 s -> stage2 s.
Proof. by intros [? _]. Qed.
Lemma stage2_3 s : stage2 s -> stage3 s.
Proof. intros (? & ? & ?). split; auto. Qed.
Hint Resolve stage0_1 stage1_2 stage2_3 : memmod.

(** [m] takes states with [P] to states with [Q], or with [E] when it fails. *)
Definition lspec {A} (P : loader -> Prop) (m : L loader A) (Q : A -> loader -> Prop) (E : loader -> Prop) : Prop :=
  forall s r s', P s -> m s = Some (r, s') -> match r with Ok a => Q a s' | Err _ => E s' end.

Lemma lspec_then {A B} P (m : L loader A) Q (k : A -> L loader B) Q' E :
  lspec P m Q E -> (forall a, lspec (Q a) (k a) Q' E) -> lspec P (lthen m k) Q' E.
Proof.
  intros Hm Hk s r s' HP Er. unfold lthen in Er. destruct (m s) as [[[a|e] s1]|] eqn:Em; [| |done].
  - exact (Hk a _ _ _ (Hm _ _ _ HP Em) Er).
  - injection Er as <- <-. exact (Hm _ _ _ HP Em).
Qed.
Lemma lspec_wrap {A} P why (m : L loader A) Q E : lspec P m Q E -> lspec P (lwrap why m) Q E.
Proof.
  intros Hm s r s' HP Er. unfold lwrap in Er.
  destruct (m s) as [[[a|e] s1]|] eqn:Em; simplify_eq; exact (Hm _ _ _ HP Em).
Qed.
Lemma lspec_weaken {A} (P P' : loader -> Prop) (m : L loader A) (Q Q' : A -> loader -> Prop) (E E' : loader -> Prop) :
  lspec P m Q E -> (forall s, P' s -> P s) -> (forall a s, Q a s -> Q' a s) -> (forall s, E s -> E' s) -> lspec P' m Q' E'.
Proof. intros Hm HP HQ HE s r s' Hs Er. specialize (Hm s r s' (HP s Hs) Er). destruct r; auto. Qed.

(** What depends on the module, the ranges and what is owned survives a plain
    computation. *)
Definition stable (P : loader -> Prop) : Prop := forall s s', same s s' -> P s -> P s'.
Lemma lspec_plain {A} P (E : loader -> Prop) (m : L loader A) :
  stable P -> (forall s, P s -> E s) -> plain m -> lspec P m (fun _ => P) E.
Proof. intros HS HE Hm s r s' HP Er. apply Hm in Er. destruct r; eauto. Qed.
Lemma lspec_ret {A} (P : loader -> Prop) (Q : A -> loader -> Prop) E a : (forall s, P s -> Q a s) -> lspec P (lret a) Q E.
Proof. intros HQ s r s' HP [= <- <-]. auto. Qed.
Lemma lspec_fail {A} (P : loader -> Prop) (Q : A -> loader -> Prop) (E : loader -> Prop) e : (forall s, P s -> E s) -> lspec P (lfail e) Q E.
Proof. intros HE s r s' HP [= <- <-]. auto. Qed.
Lemma lspec_mod (P : loader -> Prop) f (Q : unit -> loader -> Prop) E : (forall s, P s -> Q tt (f s)) -> lspec P (lmod f) Q E.
Proof. intros HQ s r s' HP [= <- <-]. auto. Qed.

Lemma owns_same m s s' : same s s' -> owns m s -> owns m s'.
Proof. intros (_ & _ & Er & El & Et) [H1 H2 H3 H4 H5]. split; rewrite ?Er, ?El, ?Et; done. Qed.
Lemma stable_stage2 : stable stage2.
Proof. intros s s' Hs (Ho & H1 & H2). pose proof Hs as (Em & Erg & _). unfold stage2. rewrite Em, Erg. eauto using owns_same. Qed.
Lemma stable_stage1 : stable stage1.
Proof. intros s s' Hs [H1 H2]. split; [exact (stable_stage2 s s' Hs H1)|]. by destruct Hs as (-> & _). Qed.
Lemma stable_stage0 : stable stage0.
Proof. intros s s' Hs [H1 H2]. split; [exact (stable_stage1 s s' Hs H1)|]. by destruct Hs as (-> & _). Qed.
Lemma stable_stage3 : stable stage3.
Proof. intros s s' Hs (Ho & H1). pose proof Hs as (Em & Erg & _). unfold stage3. rewrite Em, Erg. eauto using owns_same. Qed.
Hint Resolve stable_stage0 stable_stage1 stable_stage2 stable_stage3 : memmod.

(** Changes of the module that leave what it owns. *)
Lemma update_stage (P : loader -> Prop) f :
  P ∈ [stage0; stage1; stage2; stage3] ->
  (forall m, mo_codeBase (f m) = mo_codeBase m /\ mo_blockedMemory (f m) = mo_blockedMemory m /\ mo_modules (f m) = mo_modules m
             /\ mo_runtimeFuncs (f m) = mo_runtimeFuncs m) ->
  lspec P (setMod f) (fun _ => P) stage3.
Proof.
  intros HP Hf. apply lspec_mod. intros s HPs.
  assert (Ho : forall m, owns m s -> owns (f m) (setModule f s)).
  { intros m [H1 H2 H3 H4 H5]. destruct (Hf m) as (Eb & Ebl & Em & Er). split; cbn; rewrite ?Eb, ?Ebl, ?Em, ?Er; done. }
  destruct (Hf (lo_module s)) as (Eb & Ebl & Em & Er). unfold stage0, stage1, stage2, stage3 in *.
  repeat (apply elem_of_cons in HP as [->|HP]); [..|by apply elem_of_nil in HP];
    cbn; rewrite ?Eb, ?Em, ?Er; naive_solver.
Qed.

(** *** The steps that take something *)

(** No base, or one that is kept elsewhere. *)
Definition unbased (s : loader) : Prop :=
  owns (withCodeBase 0 (lo_module s)) s /\ lo_ranges s = Rg /\ mo_runtimeFuncs (lo_module s) = 0 /\ mo_modules (lo_module s) = [].

Lemma stable_unbased : stable unbased.
Proof. intros s s' Hs (Ho & H1 & H2). pose proof Hs as (Em & Erg & _). unfold unbased. rewrite Em, Erg. eauto using owns_same. Qed.

Lemma one_zero : one 0 = ∅.
Proof. done. Qed.
Lemma one_ne a : a <> 0 -> one a = {[+ a +]}.
Proof. intros Ha. unfold one. by rewrite (proj2 (Z.eqb_neq a 0) Ha). Qed.

Lemma ms_take (a : Z) (B C : gmultiset Z) : {[+ a +]} ⊎ (∅ ⊎ B ⊎ C) = {[+ a +]} ⊎ B ⊎ C.
Proof. clear. multiset_solver. Qed.
Lemma ms_move (a : Z) (B C : gmultiset Z) : {[+ a +]} ⊎ B ⊎ C = ∅ ⊎ ({[+ a +]} ⊎ B) ⊎ C.
Proof. clear. multiset_solver. Qed.

Lemma allocCode_spec address size : lspec unbased (allocCode address size) (fun _ => stage0) (fun s => unbased s /\ stage3 s).
Proof.
  intros s r s' ([H1 H2 H3 H4 H5] & Hrg & Hrf & Hm) E. unfold allocCode, reserve in E. cbn in *.
  destruct (sys_Reserve address size (lo_sys s)) as [[a|e] w] eqn:Ea; injection E as <- <-.
  - pose proof (reserve_user _ _ _ _ _ Ea) as Hu. pose proof (Hfresh _ _ _ _ _ Ea) as Hn.
    split; [split; [split; [|split; [done|cbn; lia]]|done]|done]. split; cbn; [|done|done|lia|by right].
    rewrite H1, one_ne by lia. apply ms_take.
  - by split; (split; [by split|auto]).
Qed.

Lemma check4GB_spec fuel size : lspec stage0 (check4GBBoundaries fuel size) (fun _ => stage0) stage3.
Proof.
  induction fuel as [|fuel IH]; cbn [check4GBBoundaries]; [apply lspec_fail; auto with memmod|].
  apply lspec_then with (Q := fun b s => stage0 s /\ b = mo_codeBase (lo_module s)); [by intros s r s' Hb [= <- <-]|].
  intros b. destruct (crosses4GB b size); [|apply lspec_ret; by intros s [? _]].
  apply lspec_then with (Q := fun _ => unbased).
  { apply lspec_mod. intros s [[[([H1 H2 H3 H4 H5] & Hrg & Hne) Hrf] Hm] ->]. split; [|done].
    split; cbn; [|done|done|lia|by left]. rewrite H1, one_ne by done. apply ms_move. }
  intros _. apply lspec_then with (Q := fun _ => stage0); [|intros _; exact IH].
  apply lspec_wrap. eapply lspec_weaken; [apply allocCode_spec|auto|auto|by intros s [_ ?]].
Qed.

Lemma allocImage_spec fuel p : lspec unbased (allocImage fuel p) (fun _ => stage0) stage3.
Proof.
  apply lspec_then with (Q := fun _ => stage0); [|intros _; apply lspec_wrap, check4GB_spec].
  intros s r s' Hu E. destruct (allocCode (fp_imageBase p) (fp_alignedImageSize p) s) as [[[[]|e] s1]|] eqn:Ea; [| |done].
  - injection E as <- <-. exact (allocCode_spec _ _ _ _ _ Hu Ea).
  - destruct (allocCode_spec _ _ _ _ _ Hu Ea) as [Hu1 _].
    pose proof (lspec_wrap _ "Error allocating code" _ _ _ (allocCode_spec 0 (fp_alignedImageSize p)) s1 r s' Hu1 E) as Hr.
    destruct r; [done|]. apply Hr.
Qed.

Lemma plain_lspec {A} (m : L loader A) : plain m -> lspec stage0 m (fun _ => stage0) stage3.
Proof. intros Hm. apply lspec_plain; auto with memmod. Qed.

Ltac in_list := repeat (first [apply list_elem_of_here | apply list_elem_of_further]).
Ltac keeps := apply update_stage; [in_list|done].

Lemma copyHeaders_spec data p : lspec stage0 (copyHeaders data p) (fun _ => stage0) stage3.
Proof.
  unfold copyHeaders. destruct (_ <? _); [apply lspec_fail; auto with memmod|].
  do 3 (eapply lspec_then; [apply plain_lspec; plain_tac|intros ?]). eapply lspec_then; [keeps|intros ?].
  apply plain_lspec. unfold headers. plain_tac.
Qed.

Lemma relocate_spec p : lspec stage0 (relocate p) (fun _ => stage0) stage3.
Proof.
  unfold relocate. eapply lspec_then; [apply plain_lspec; plain_tac|intros b]. destruct (_ =? 0); [keeps|].
  eapply lspec_then; [apply plain_lspec; plain_tac|intros []]; (eapply lspec_then; [keeps|intros ?]).
  - by apply lspec_ret.
  - apply lspec_fail; auto with memmod.
Qed.

(** A library that was loaded and is not yet the module's. *)
Definition holding (h : Z) (s : loader) : Prop :=
  stage1 (setOwned id (fun o => o ∖ {[+ h +]}) id s) /\ h ∈ lo_libraries s.

Lemma stable_holding h : stable (holding h).
Proof.
  intros s s' Hs [H1 Hin]. pose proof Hs as (Em & Erg & Er & El & Et). split; [|by rewrite El].
  apply (stable_stage1 (setOwned id (fun o => o ∖ {[+ h +]}) id s)); [|done]. repeat split; cbn; congruence.
Qed.

Lemma ms_drop (a : Z) (B : gmultiset Z) : ({[+ a +]} ⊎ B) ∖ {[+ a +]} = B.
Proof. clear. multiset_solver. Qed.
Lemma ms_drop_head (a : Z) (B C : gmultiset Z) : ({[+ a +]} ⊎ B ⊎ C) ∖ {[+ a +]} = B ⊎ C.
Proof. clear. multiset_solver. Qed.
Lemma ms_append (a : Z) (B C D : gmultiset Z) : D ∖ {[+ a +]} = B ⊎ C -> a ∈ D -> D = B ⊎ ({[+ a +]} ⊎ ∅) ⊎ C.
Proof.
  clear. intros HD Hin. apply gmultiset_singleton_subseteq_l, gmultiset_disj_union_difference in Hin. rewrite Hin, HD.
  clear. multiset_solver.
Qed.

Lemma loadLibraryEx_spec name : lspec stage1 (loadLibraryEx name) holding stage3.
Proof.
  intros s r s' H1 E. unfold loadLibraryEx in E. destruct (sys_LoadLibraryEx name (lo_sys s)) as [[h|e] w]; injection E as <- <-.
  - split; [|apply gmultiset_elem_of_disj_union; left; by apply gmultiset_elem_of_singleton].
    apply (stable_stage1 s); [|done]. repeat split. apply ms_drop.
  - apply stage2_3, stage1_2, (stable_stage1 s); [by repeat split|done].
Qed.

(** The thunks: an error has freed the library. *)
Lemma thunkLoop_spec fuel h thunkRef funcRef : lspec (holding h) (thunkLoop fuel h thunkRef funcRef) (fun _ => holding h) stage1.
Proof.
  revert thunkRef funcRef. induction fuel as [|fuel IH]; intros thunkRef funcRef; cbn [thunkLoop]; [by intros s r s'|].
  assert (Hrd : forall n a, lspec (holding h) (rd n a) (fun _ => holding h) stage1).
  { intros n a s r s' Hh E. pose proof (stable_holding h _ _ (plain_rd n a s r s' E) Hh). unfold rd in E.
    destruct (readAt _ _ _ _); [|done]. by injection E as <- <-. }
  eapply lspec_then; [apply Hrd|intros thunk]. destruct (thunk =? 0); [by apply lspec_ret|].
  apply lspec_then with (Q := fun _ => holding h).
  { intros s r s' Hh E. pose proof (stable_holding h _ _ (plain_getProc h thunk s r s' E) Hh). destruct r; [done|]. exfalso.
    unfold getProc, codeBase, rdString, lget, lthen in E. repeat case_match; simplify_eq. }
  intros res. apply lspec_then with (Q := fun _ => holding h).
  { intros s r s' Hh E. pose proof (stable_holding h _ _ (plain_wr 8 funcRef _ s r s' E) Hh). destruct r; [done|]. exfalso.
    unfold wr, storeBytes in E. repeat case_match; simplify_eq. }
  intros _. destruct res as [a|e]; [apply IH|]. apply lspec_then with (Q := fun _ => stage1); [|intros _; by apply lspec_fail].
  apply lspec_mod. intros s [H1 _]. apply (stable_stage1 (setOwned id (fun o => o ∖ {[+ h +]}) id s)); [by repeat split|done].
Qed.

Lemma importLibrary_spec desc name : lspec stage1 (importLibrary desc name) (fun _ => stage1) stage3.
Proof.
  assert (Hp1 : forall A (m : L loader A), plain m -> lspec stage1 m (fun _ => stage1) stage3)
    by (intros A m Hm; apply lspec_plain; auto with memmod).
  assert (Hrd : forall h n a, lspec (holding h) (rd n a) (fun _ => holding h) stage3).
  { intros h n a s r s' Hh E. pose proof (stable_holding h _ _ (plain_rd n a s r s' E) Hh). unfold rd in E.
    destruct (readAt _ _ _ _); [|done]. by injection E as <- <-. }
  unfold importLibrary. do 2 (eapply lspec_then; [apply Hp1; plain_tac|intros ?]).
  eapply lspec_then; [apply lspec_wrap, loadLibraryEx_spec|intros h]. do 2 (eapply lspec_then; [apply Hrd|intros ?]).
  apply lspec_then with (Q := fun _ => holding h); [by intros s r s' Hh [= <- <-]|intros fuel].
  apply lspec_then with (Q := fun _ => holding h); [eapply lspec_weaken; [apply thunkLoop_spec|auto with memmod..]|intros _].
  apply lspec_mod. intros s [[([H1 H2 H3 H4 H5] & Hrg & Hne) Hrf] Hin].
  split; [split; [|done]|done]. split; [exact H1| |exact H3|exact H4|exact H5].
  change (lo_libraries s = list_to_set_disj (mo_modules (lo_module s) ++ [h]) ⊎ Li). rewrite list_to_set_disj_app. by apply ms_append.
Qed.

Lemma importLoop_spec fuel desc : lspec stage1 (importLoop fuel desc) (fun _ => stage1) stage3.
Proof.
  revert desc. induction fuel as [|fuel IH]; intros desc; cbn [importLoop]; [by intros s r s'|].
  eapply lspec_then; [apply (lspec_plain stage1); auto with memmod|intros name]. destruct (name =? 0); [by apply lspec_ret|].
  eapply lspec_then; [apply importLibrary_spec|intros ?; apply IH].
Qed.

Lemma buildImportTable_spec : lspec stage0 buildImportTable (fun _ => stage1) stage3.
Proof.
  unfold buildImportTable, directorySize, directoryAddress. eapply lspec_then; [apply plain_lspec; plain_tac|intros size].
  destruct (size =? 0); [apply lspec_ret; auto with memmod|]. do 2 (eapply lspec_then; [apply plain_lspec; plain_tac|intros ?]).
  apply lspec_then with (Q := fun _ => stage1).
  { apply lspec_mod. intros s [[([H1 H2 H3 H4 H5] & Hrg & Hne) Hrf] Hm]. split; [split; [|done]|done]. split; cbn; try done.
    by rewrite H2, Hm. }
  intros _. apply lspec_then with (Q := fun _ => stage1); [by intros s r s' Hh [= <- <-]|intros fuel]. apply importLoop_spec.
Qed.

Lemma register_spec : lspec stage1 registerExceptionHandlers (fun _ => stage2) stage3.
Proof.
  assert (Hp1 : forall A (m : L loader A), plain m -> lspec stage1 m (fun _ => stage1) stage3)
    by (intros A m Hm; apply lspec_plain; auto with memmod).
  unfold registerExceptionHandlers, directorySize, directoryAddress.
  eapply lspec_then; [apply Hp1; plain_tac|intros size].
  apply lspec_then with (Q := fun va s => stage1 s /\ 0 <= va < 2 ^ 32).
  { intros s r s' H1 E. pose proof (stable_stage1 _ _ (plain_headerField _ _ _ _ _ E) H1).
    unfold headerField, headers, lget, lthen, rd, readAt in E. repeat case_match; simplify_eq. split; [done|].
    match goal with |- 0 <= fieldAt ?o ?n ?b < _ => pose proof (fieldAt_range o n b) as Hr; cbn in Hr; lia end. }
  intros va. destruct ((size =? 0) || (va =? 0)) eqn:Ez; [apply lspec_ret; intros s [? _]; auto with memmod|].
  apply lspec_then with (Q := fun b s => (stage1 s /\ 0 <= va < 2 ^ 32) /\ b = mo_codeBase (lo_module s)); [by intros s r s' Hb [= <- <-]|].
  intros b s r s' [[[([H1 H2 H3 H4 H5] & Hrg & Hcb) Hrf] Hva] ->] E.
  destruct (sys_RtlAddFunctionTable _ _ _ _) as [added w]; injection E as <- <-. destruct added; [|by split].
  apply orb_false_iff in Ez as [_ Ez%Z.eqb_neq]. set (rf := u64 _) in *.
  assert (Hne : rf <> 0) by (unfold rf, u64; rewrite Z.mod_small; lia).
  split; [|done]. split; [exact H1|exact H2| |exact H4|exact H5].
  change ({[+ rf +]} ⊎ lo_tables s = one rf ⊎ T). rewrite H3, Hrf, one_zero, one_ne by done. clear. multiset_solver.
Qed.

Lemma attach_spec : lspec stage3 attach (fun _ => stage3) stage3.
Proof.
  assert (Hp3 : forall A (m : L loader A), plain m -> lspec stage3 m (fun _ => stage3) stage3)
    by (intros A m Hm; apply lspec_plain; auto with memmod).
  unfold attach. eapply lspec_then; [apply Hp3; plain_tac|intros entry]. destruct (entry =? 0); [by apply lspec_ret|].
  eapply lspec_then; [apply Hp3; plain_tac|intros b]. eapply lspec_then; [keeps|intros ?].
  eapply lspec_then; [apply Hp3; plain_tac|intros m]. destruct (mo_isDLL m); [|by apply lspec_ret].
  eapply lspec_then; [apply Hp3; plain_tac|intros r0]. destruct (r0 =? 0); [by apply lspec_fail|keeps].
Qed.

Lemma plain_nameLoop base names ordinals n i exports : plain (nameLoop base names ordinals n i exports).
Proof. revert i exports. induction n as [|n IH]; intros i exports; cbn [nameLoop]; plain_tac. Qed.

Lemma nameExports_spec : lspec stage3 (ltry buildNameExports) (fun _ => stage3) stage3.
Proof.
  assert (Hp3 : forall A (m : L loader A), plain m -> lspec stage3 m (fun _ => stage3) stage3)
    by (intros A m Hm; apply lspec_plain; auto with memmod).
  assert (Hb : lspec stage3 buildNameExports (fun _ => stage3) stage3).
  { unfold buildNameExports, directorySize, directoryAddress. eapply lspec_then; [apply Hp3; plain_tac|intros size].
    destruct (size =? 0); [by apply lspec_fail|]. do 4 (eapply lspec_then; [apply Hp3; plain_tac|intros ?]).
    repeat (destruct (_ =? 0); [by apply lspec_fail|]). do 2 (eapply lspec_then; [apply Hp3; plain_tac|intros ?]).
    eapply lspec_then; [apply Hp3, plain_nameLoop|intros ?]. keeps. }
  intros s r s' Hs E. unfold ltry in E. destruct (buildNameExports s) as [[r1 s1]|] eqn:E1; [|done]. injection E as <- <-.
  specialize (Hb s r1 s1 Hs E1). by destruct r1.
Qed.

Lemma loadImage_spec fuel data p : lspec unbased (loadImage fuel data p) (fun _ => stage3) stage3.
Proof.
  assert (Hp3 : forall A (m : L loader A), plain m -> lspec stage3 m (fun _ => stage3) stage3)
    by (intros A m Hm; apply lspec_plain; auto with memmod).
  unfold loadImage. eapply lspec_then; [apply allocImage_spec|intros ?]. eapply lspec_then; [apply copyHeaders_spec|intros ?].
  eapply lspec_then; [apply plain_lspec; plain_tac|intros ?]. eapply lspec_then; [apply relocate_spec|intros ?].
  eapply lspec_then; [apply lspec_wrap, buildImportTable_spec|intros ?].
  eapply lspec_then; [apply (lspec_plain stage1); auto with memmod; plain_tac|intros ?].
  eapply lspec_then; [apply register_spec|intros ?].
  apply lspec_then with (Q := fun b s => stage2 s /\ b = mo_codeBase (lo_module s)); [by intros s r s' Hb [= <- <-]|intros b].
  apply lspec_then with (Q := fun _ => stage3).
  { apply lspec_mod. intros s [([H1 H2 H3 H4 H5] & Hrg & Hne) ->]. split; [by split|]. right. split; [done|].
    eexists. cbn. by rewrite Hrg. }
  intros ?. eapply lspec_then; [apply Hp3; auto with memmod|intros ?]. eapply lspec_then; [apply Hp3; auto with memmod|intros ?].
  eapply lspec_then; [apply attach_spec|intros ?]. apply nameExports_spec.
Qed.

(** *** Free *)

Lemma freeAll_libraries (l : list Z) (B : gmultiset Z) (s : loader) : lo_libraries s = list_to_set_disj l ⊎ B ->
  exists s', freeAll freeLibrary l s = Some (Ok tt, s') /\ lo_libraries s' = B /\ lo_module s' = lo_module s
    /\ lo_ranges s' = lo_ranges s /\ lo_regions s' = lo_regions s /\ lo_tables s' = lo_tables s.
Proof.
  revert s. induction l as [|h l IH]; intros s Hl; cbn [freeAll].
  - exists s. split; [done|]. split; [|done]. rewrite Hl. apply (left_id_L ∅ disj_union).
  - destruct (IH (setOwned id (fun o => o ∖ {[+ h +]}) id (setSys (sys_FreeLibrary h (lo_sys s)) s))) as (s' & E & Hs).
    { change (lo_libraries s ∖ {[+ h +]} = list_to_set_disj l ⊎ B). rewrite Hl. cbn [list_to_set_disj]. apply ms_drop_head. }
    exists s'. split; [exact E|exact Hs].
Qed.
Lemma freeAll_regions (l : list Z) (B : gmultiset Z) (s : loader) : lo_regions s = list_to_set_disj l ⊎ B ->
  exists s', freeAll release l s = Some (Ok tt, s') /\ lo_regions s' = B /\ lo_module s' = lo_module s
    /\ lo_ranges s' = lo_ranges s /\ lo_libraries s' = lo_libraries s /\ lo_tables s' = lo_tables s.
Proof.
  revert s. induction l as [|h l IH]; intros s Hl; cbn [freeAll].
  - exists s. split; [done|]. split; [|done]. rewrite Hl. apply (left_id_L ∅ disj_union).
  - destruct (IH (setOwned (fun o => o ∖ {[+ h +]}) id id (setSys (sys_Release h (lo_sys s)) s))) as (s' & E & Hs).
    { change (lo_regions s ∖ {[+ h +]} = list_to_set_disj l ⊎ B). rewrite Hl. cbn [list_to_set_disj]. apply ms_drop_head. }
    exists s'. split; [exact E|exact Hs].
Qed.

Lemma cutRange_new (b e : Z) (l : list (Z * Z)) : b ∉ l.*1 -> cutRange b l = l /\ cutRange b (l ++ [(b, e)]) = l.
Proof.
  clear. induction l as [|[x y] l IH]; cbn; [rewrite Z.eqb_refl; done|]. intros Hn.
  apply not_elem_of_cons in Hn as [Hx Hl]. destruct (IH Hl) as [-> ->]. by rewrite (proj2 (Z.eqb_neq x b)) by congruence.
Qed.

(** A computation that returns and leaves a state with [P]. *)
Definition returns (m : L loader unit) (s : loader) (P : loader -> Prop) : Prop := exists s', m s = Some (Ok tt, s') /\ P s'.
Lemma returns_then m k s P Q : returns m s P -> (forall s', P s' -> returns (k tt) s' Q) -> returns (lthen m k) s Q.
Proof. intros (s1 & E & HP) Hk. destruct (Hk s1 HP) as (s2 & E2 & HQ). exists s2. unfold lthen. by rewrite E. Qed.
Lemma returns_mod f s (P : loader -> Prop) : P (f s) -> returns (lmod f) s P.
Proof. intros HP. by exists (f s). Qed.
Lemma returns_ret s (P : loader -> Prop) : P s -> returns (lret tt) s P.
Proof. intros HP. by exists s. Qed.

(** The state is as it was before, but for the image and the system. *)
Definition clean (s : loader) : Prop :=
  lo_regions s = R /\ lo_libraries s = Li /\ lo_tables s = T /\ lo_ranges s = Rg.

(** What is left to free: the libraries, the table, the memory. *)
Record left_ (m : mmModule) (libraries tables base blocked : bool) (s : loader) : Prop := {
  le_libraries : lo_libraries s = if libraries then list_to_set_disj (mo_modules m) ⊎ Li else Li;
  le_tables : lo_tables s = if tables then one (mo_runtimeFuncs m) ⊎ T else T;
  le_regions : lo_regions s = (if base then one (mo_codeBase m) else ∅) ⊎ ((if blocked then list_to_set_disj (mo_blockedMemory m) else ∅) ⊎ R);
  le_ranges : if base then lo_ranges s = Rg \/ mo_codeBase m <> 0 /\ exists e, lo_ranges s = Rg ++ [(mo_codeBase m, e)]
              else lo_ranges s = Rg
}.

Lemma left_update m a b c d f s : left_ m a b c d s -> left_ m a b c d (setModule f s).
Proof. intros []. by split. Qed.

Lemma left_same m a b c d s s' : same s s' -> left_ m a b c d s -> left_ m a b c d s'.
Proof. intros (_ & Erg & Er & El & Et) []. split; rewrite ?Erg, ?Er, ?El, ?Et; done. Qed.
Lemma returns_call m a b c d f args (s : loader) :
  left_ m a b c d s -> exists r s', call f args s = Some (Ok r, s') /\ left_ m a b c d s'.
Proof.
  intros Hl. destruct (call f args s) as [[r s']|] eqn:E; [|unfold call in E; by destruct (sys_Call _ _ _ _) as [[? ?] ?]].
  pose proof (left_same _ _ _ _ _ _ _ (plain_call _ _ _ _ _ E) Hl). unfold call in E.
  destruct (sys_Call _ _ _ _) as [[r0 ?] ?]. injection E as <- <-. eauto.
Qed.

Lemma freeModule_spec (m : mmModule) (s : loader) :
  (mo_codeBase m = 0 \/ mo_codeBase m ∉ Rg.*1) -> left_ m true true true true s -> returns (freeModule m) s clean.
Proof.
  intros Hnew Hl. unfold freeModule. apply returns_then with (P := left_ m true true true true).
  { destruct (mo_initialized m); [|by apply returns_ret]. destruct (returns_call m true true true true (mo_entry m)
      [mo_codeBase m; DLL_PROCESS_DETACH; 0] s Hl) as (r & s1 & E & Hl1). eexists. unfold lthen. rewrite E. split; [done|].
    by apply left_update. }
  clear s Hl. intros s Hl. apply returns_then with (P := left_ m false true true true).
  { destruct (freeAll_libraries (mo_modules m) Li s (le_libraries _ _ _ _ _ _ Hl)) as (s1 & E & El & Em & Erg & Er & Et).
    exists s1. split; [done|]. destruct Hl as [H1 H2 H3 H4]. split; rewrite ?Erg, ?Er, ?Et; done. }
  clear s Hl. intros s Hl. apply returns_then with (P := left_ m false true true true); [by apply returns_mod, left_update|].
  clear s Hl. intros s Hl. apply returns_then with (P := left_ m false false true true).
  { destruct Hl as [H1 H2 H3 H4]. destruct (Z.eqb_spec (mo_runtimeFuncs m) 0) as [Hz|Hz].
    - apply returns_ret. split; try done. by rewrite H2, Hz, one_zero, (left_id_L ∅ disj_union).
    - eapply returns_then; [apply returns_mod with (P := left_ m false false true true)|intros s' Hs'; by apply returns_mod, left_update].
      split; try done. change (lo_tables s ∖ {[+ mo_runtimeFuncs m +]} = T). rewrite H2, one_ne by done. apply ms_drop. }
  clear s Hl. intros s Hl. apply returns_then with (P := left_ m false false false true).
  { destruct Hl as [H1 H2 H3 H4]. destruct (Z.eqb_spec (mo_codeBase m) 0) as [Hz|Hz].
    - apply returns_ret. split; try done; [by rewrite H3, Hz, one_zero|]. by destruct H4 as [?|[? _]].
    - eapply returns_then; [by apply returns_mod with (P := fun s' => s' = setRanges (cutRange (mo_codeBase m)) s)|intros s' ->].
      eapply returns_then; [apply returns_mod with (P := left_ m false false false true)|intros s' Hs'; by apply returns_mod, left_update].
      destruct Hnew as [?|Hnew]; [done|]. split; [done|done| |].
      + change (lo_regions s ∖ {[+ mo_codeBase m +]} = ∅ ⊎ (list_to_set_disj (mo_blockedMemory m) ⊎ R)).
        rewrite H3, one_ne, ms_drop, (left_id_L ∅ disj_union) by done. done.
      + change (cutRange (mo_codeBase m) (lo_ranges s) = Rg).
        destruct H4 as [->|[_ [e ->]]]; [apply (cutRange_new _ 0), Hnew|apply cutRange_new, Hnew]. }
  clear s Hl. intros s [H1 H2 H3 H4]. rewrite (left_id_L ∅ disj_union) in H3.
  destruct (freeAll_regions _ _ _ H3) as (s1 & E & Er & Em & Erg & El & Et).
  apply returns_then with (P := fun s' => s' = s1); [by exists s1|]. intros s' ->. apply returns_mod.
  unfold clean. cbn. rewrite Er, El, Et, Erg. done.
Qed.

Lemma Free_spec (s : loader) : stage3 s -> returns Free s clean.
Proof.
  intros [[H1 H2 H3 H4 H5] Hrg]. change (returns (freeModule (lo_module s)) s clean). apply freeModule_spec; [done|].
  split; [done|done|by rewrite H1, (assoc_L disj_union)|done].
Qed.
End Resources.

(** C16: What LoadLibrary takes it gives back: when it fails, at whatever point, the
    memory, the libraries and the function table it had acquired are released and
    its address range is not listed; and when it succeeds, Free does the same. *)
Theorem LoadLibrary_releases {W} `{LoaderLaws W} (fuel : nat) (data : gostring) (s s' : loader W) (r : result unit) :
  (forall address size w a w', sys_Reserve address size w = (Ok a, w') -> a ∉ (lo_ranges s).*1) ->
  LoadLibrary fuel data s = Some (r, s') ->
  let initial := clean (lo_regions s) (lo_libraries s) (lo_tables s) (lo_ranges s) in
  match r with Err _ => initial s' | Ok _ => exists s'', Free s' = Some (Ok tt, s'') /\ initial s'' end.
Proof.
  intros Hfresh E initial. unfold LoadLibrary in E. destruct (validate data) as [[p|e]|]; [|by injection E as <- <-|done].
  set (s0 := setModule (fun _ => newModule (fp_isDLL p)) s) in *.
  assert (Hu : unbased (lo_regions s) (lo_libraries s) (lo_tables s) (lo_ranges s) s0).
  { split; [|done]. split; [| | |cbn; lia|by left].
    - change (lo_regions s = ∅ ⊎ ∅ ⊎ lo_regions s). by rewrite !(left_id_L ∅ disj_union).
    - change (lo_libraries s = ∅ ⊎ lo_libraries s). by rewrite (left_id_L ∅ disj_union).
    - change (lo_tables s = ∅ ⊎ lo_tables s). by rewrite (left_id_L ∅ disj_union). }
  pose proof (loadImage_spec (lo_regions s) (lo_libraries s) (lo_tables s) (lo_ranges s) Hfresh fuel data p s0) as Hspec.
  destruct (loadImage fuel data p s0) as [[[[]|e] s1]|] eqn:El; [| |done]; specialize (Hspec _ _ Hu eq_refl); cbn in Hspec.
  - injection E as <- <-. exact (Free_spec _ _ _ _ _ Hspec).
  - destruct (Free_spec _ _ _ _ _ Hspec) as (s2 & Ef & Hc). rewrite Ef in E. by injection E as <- <-.
Qed.
