(* ===== verification/MemmodReloc.v ===== *)
(** * Relocation: what a table of relocations does to an image

    performBaseRelocation walks the table in memory and changes the image as it
    goes. Where the fields its entries name lie apart from each other and from
    the table, it moves every field on its own ([moveAll]): it adds the distance,
    or its upper half, to a field of the width the entry's type says, or to the
    address a pair of Thumb-2 instructions loads. Moving an image back restores it
    unless it has such instructions, which cannot be moved down. *)

From stdpp Require Import gmultiset.
From S2P Require Import Prelude GoStrings GoNum Netip Config Name Parser ConfWf Driver Effects Memmod MemmodTheorems.
Local Open Scope Z_scope.

(** ** Bytes in place of others *)

Definition splice (off : nat) (bs image : gostring) : gostring := take off image ++ bs ++ drop (off + length bs) image.

Lemma splice_length off bs image : (off + length bs <= length image)%nat -> length (splice off bs image) = length image.
Proof. intros Hl. unfold splice. rewrite !length_app, length_take, length_drop. lia. Qed.

Lemma splice_lookup off bs image i : (off + length bs <= length image)%nat ->
  splice off bs image !! i = if decide (off <= i < off + length bs)%nat then bs !! (i - off)%nat else image !! i.
Proof.
  intros Hl. unfold splice. assert (Ht : length (take off image) = off) by (rewrite length_take; lia).
  destruct (decide (off <= i < off + length bs)%nat) as [Hi|Hi].
  - rewrite lookup_app_r, Ht by lia. by rewrite lookup_app_l by lia.
  - destruct (decide (i < off)%nat).
    + rewrite lookup_app_l by lia. by apply lookup_take_lt.
    + rewrite lookup_app_r, Ht by lia. rewrite lookup_app_r, lookup_drop by lia. f_equal. lia.
Qed.

Lemma bytesAt_lookup off n image i : bytesAt off n image !! i = if decide (i < n)%nat then image !! (off + i)%nat else None.
Proof.
  unfold bytesAt. destruct (decide (i < n)%nat).
  - by rewrite lookup_take_lt, lookup_drop.
  - by rewrite lookup_take_ge by lia.
Qed.

Lemma bytesAt_length off n image : (off + n <= length image)%nat -> length (bytesAt off n image) = n.
Proof. intros Hl. unfold bytesAt. rewrite length_take, length_drop. lia. Qed.

(** Two fields that share no byte. *)
Definition apart (a b : nat * nat) : Prop := (a.1 + a.2 <= b.1 \/ b.1 + b.2 <= a.1)%nat.

Lemma bytesAt_splice off bs image o n :
  (off + length bs <= length image)%nat -> apart (off, length bs) (o, n) -> bytesAt o n (splice off bs image) = bytesAt o n image.
Proof.
  intros Hl Ha. apply list_eq. intros i. rewrite !bytesAt_lookup. destruct (decide (i < n)%nat); [|done].
  rewrite splice_lookup by done. destruct (decide _); [|done]. unfold apart in Ha. cbn in Ha. lia.
Qed.
Lemma bytesAt_spliced off bs image : (off + length bs <= length image)%nat -> bytesAt off (length bs) (splice off bs image) = bs.
Proof.
  intros Hl. apply list_eq. intros i. rewrite bytesAt_lookup. destruct (decide (i < length bs)%nat) as [Hi|Hi].
  - rewrite splice_lookup by done. rewrite decide_True by lia. f_equal. lia.
  - symmetry. apply lookup_ge_None. lia.
Qed.
Lemma splice_same off n image : (off + n <= length image)%nat -> splice off (bytesAt off n image) image = image.
Proof.
  intros Hl. pose proof (bytesAt_length off n image Hl) as Hb. apply list_eq. intros i. rewrite splice_lookup by lia. rewrite Hb.
  destruct (decide _) as [Hi|]; [|done]. rewrite bytesAt_lookup, decide_True by lia. f_equal. lia.
Qed.
Lemma splice_again off bs bs' image : length bs = length bs' -> (off + length bs <= length image)%nat ->
  splice off bs' (splice off bs image) = splice off bs' image.
Proof.
  intros He Hl. apply list_eq. intros i. rewrite !splice_lookup by (rewrite ?splice_length by lia; lia).
  rewrite He. by destruct (decide _).
Qed.
Lemma splice_app off a b image : (off + length (a ++ b) <= length image)%nat ->
  splice off (a ++ b) image = splice (off + length a) b (splice off a image).
Proof.
  rewrite length_app. intros Hl. apply list_eq. intros i.
  rewrite !splice_lookup by (rewrite ?length_app, ?splice_length by lia; lia). rewrite length_app.
  destruct (decide _), (decide _); try lia; [| |rewrite decide_False by lia; done].
  - rewrite lookup_app_r by lia. f_equal. lia.
  - rewrite decide_True by lia. apply lookup_app_l. lia.
Qed.
Lemma splice_comm off bs off' bs' image : apart (off, length bs) (off', length bs') ->
  (off + length bs <= length image)%nat -> (off' + length bs' <= length image)%nat ->
  splice off bs (splice off' bs' image) = splice off' bs' (splice off bs image).
Proof.
  intros Ha Hl Hl'. apply list_eq. intros i. rewrite !splice_lookup by (rewrite ?splice_length by lia; lia).
  unfold apart in Ha. cbn in Ha. destruct (decide _), (decide _); try done. lia.
Qed.

(** ** Adding to a field *)

Lemma leBytes_mod n v : leBytes n (v mod 256 ^ Z.of_nat n) = leBytes n v.
Proof.
  revert v. induction n as [|n IH]; intros v; [done|]. cbn [leBytes]. rewrite Nat2Z.inj_succ, Z.pow_succ_r by lia.
  assert (Hp : 0 < 256 ^ Z.of_nat n) by (apply Z.pow_pos_nonneg; lia). rewrite Z.rem_mul_r by lia. f_equal.
  - by rewrite (Z.mul_comm 256), Z.mod_add, Z.mod_mod by lia.
  - rewrite (Z.mul_comm 256), Z.div_add, Z.div_small, Z.add_0_l by (try apply Z.mod_pos_bound; lia). apply IH.
Qed.
Lemma leBytes_leValue bs : leBytes (length bs) (leValue bs) = bs.
Proof.
  induction bs as [|b bs IH]; [done|]. cbn [length leValue leBytes]. pose proof (code_range b) as Hb.
  rewrite (Z.mul_comm 256), Z.div_add, Z.div_small, Z.add_0_l, IH by lia. f_equal.
  rewrite Z.mod_add, Z.mod_small by lia. apply chr_code.
Qed.

(** ** Thumb-2 instructions *)

(** The bits of [a] are among those of [m]. *)
Definition within (a m : Z) : Prop := Z.land a m = a.

Lemma within_land a m : within (Z.land a m) m.
Proof. unfold within. by rewrite <- Z.land_assoc, Z.land_diag. Qed.
Lemma within_add a m b n : within a m -> within b n -> Z.land m n = 0 -> a + b = Z.lor a b /\ within (a + b) (Z.lor m n).
Proof.
  intros Ha Hb Hmn. assert (Hab : Z.land a b = 0).
  { rewrite <- Ha, <- Hb. apply Z.bits_inj'. intros i Hi. rewrite !Z.land_spec, Z.bits_0.
    assert (Hi0 : Z.testbit (Z.land m n) i = false) by (by rewrite Hmn, Z.bits_0). rewrite Z.land_spec in Hi0.
    destruct (Z.testbit a i), (Z.testbit b i), (Z.testbit m i), (Z.testbit n i); done. }
  assert (E : a + b = Z.lor a b) by (rewrite <- Z.lxor_lor by done; by apply Z.add_nocarry_lxor). split; [done|].
  rewrite E. apply Z.bits_inj'. intros i Hi. rewrite Z.land_spec, !Z.lor_spec.
  assert (Ha' : Z.testbit (Z.land a m) i = Z.testbit a i) by (by rewrite Ha).
  assert (Hb' : Z.testbit (Z.land b n) i = Z.testbit b i) by (by rewrite Hb). rewrite Z.land_spec in Ha', Hb'.
  destruct (Z.testbit a i), (Z.testbit b i), (Z.testbit m i), (Z.testbit n i); done.
Qed.

(** Sums of parts that share no bit, as bits. *)
Lemma thumbImm_bits inst :
  thumbImm inst = Z.lor (Z.lor (Z.lor (Z.land (Z.shiftl inst 1) 0x0800) (Z.land (Z.shiftl inst 12) 0xf000))
                          (Z.land (Z.shiftr inst 20) 0x0700)) (Z.land (Z.shiftr inst 16) 0x00ff).
Proof.
  unfold thumbImm.
  destruct (within_add _ _ _ _ (within_land (Z.shiftl inst 1) 0x0800) (within_land (Z.shiftl inst 12) 0xf000) eq_refl) as [E1 W1].
  destruct (within_add _ _ _ _ W1 (within_land (Z.shiftr inst 20) 0x0700) eq_refl) as [E2 W2].
  destruct (within_add _ _ _ _ W2 (within_land (Z.shiftr inst 16) 0x00ff) eq_refl) as [E3 _]. by rewrite E3, E2, E1.
Qed.
Lemma thumbPut_bits inst imm16 :
  thumbPut inst imm16 = Z.lor (Z.lor (Z.lor (Z.lor (Z.land inst 0x8f00fbf0) (Z.land (Z.shiftr imm16 1) 0x0400))
                          (Z.land (Z.shiftr imm16 12) 0x000f)) (Z.land (Z.shiftl imm16 20) 0x70000000)) (Z.land (Z.shiftl imm16 16) 0xff0000).
Proof.
  unfold thumbPut.
  destruct (within_add _ _ _ _ (within_land inst 0x8f00fbf0) (within_land (Z.shiftr imm16 1) 0x0400) eq_refl) as [E1 W1].
  destruct (within_add _ _ _ _ W1 (within_land (Z.shiftr imm16 12) 0x000f) eq_refl) as [E2 W2].
  destruct (within_add _ _ _ _ W2 (within_land (Z.shiftl imm16 20) 0x70000000) eq_refl) as [E3 W3].
  destruct (within_add _ _ _ _ W3 (within_land (Z.shiftl imm16 16) 0xff0000) eq_refl) as [E4 _]. by rewrite E4, E3, E2, E1.
Qed.

Lemma testbit_mask_high m i k : 0 <= m < 2 ^ k -> k <= i -> 0 <= k -> Z.testbit m i = false.
Proof. intros Hm Hi Hk. rewrite <- (Z.mod_small m (2 ^ k)) by done. by apply Z.mod_pow2_bits_high. Qed.

(** Splits a bit index below [n] into its values. *)
Ltac each_bit i n :=
  let rec go k := (lazymatch eval compute in (Z.leb n k) with
                   | true => idtac
                   | false => destruct (Z.eq_dec i k) as [->|?]; [|let k' := eval compute in (k + 1) in go k'] end) in go 0.
Ltac bit_calc := rewrite ?thumbImm_bits, ?thumbPut_bits;
  repeat match goal with
    | |- context [Z.testbit (Z.lor ?a ?b) ?k] => rewrite (Z.lor_spec a b k)
    | |- context [Z.testbit (Z.land ?a (Zpos ?m)) ?k] =>
        rewrite (Z.land_spec a (Zpos m) k); let b := eval vm_compute in (Z.testbit (Zpos m) k) in change (Z.testbit (Zpos m) k) with b;
        rewrite ?andb_false_r, ?andb_true_r, ?orb_false_r, ?orb_false_l
    | |- context [Z.testbit (Z.shiftl ?a ?n) ?k] =>
        rewrite (Z.shiftl_spec a n k) by lia; let k' := eval vm_compute in (k - n) in change (k - n) with k'
    | |- context [Z.testbit (Z.shiftr ?a ?n) ?k] =>
        rewrite (Z.shiftr_spec a n k) by lia; let k' := eval vm_compute in (k + n) in change (k + n) with k'
    end.

(** No mask has bits from [k] on. *)
Ltac above i k := repeat match goal with |- context [Z.testbit (Zpos ?m) i] => rewrite (testbit_mask_high (Zpos m) i k) by lia end;
  by rewrite ?andb_false_r.

Lemma thumbImm_put inst imm16 : thumbImm (thumbPut inst imm16) = imm16 mod 2 ^ 16.
Proof.
  apply Z.bits_inj'. intros i Hi. destruct (Z_lt_le_dec i 16) as [Hlt|Hge].
  - rewrite Z.mod_pow2_bits_low by lia. each_bit i 16; [..|lia]; bit_calc; done.
  - rewrite Z.mod_pow2_bits_high, thumbImm_bits, !Z.lor_spec, !Z.land_spec by lia.
    above i 16.
Qed.
Lemma thumbPut_imm inst : 0 <= inst < 2 ^ 32 -> thumbPut inst (thumbImm inst) = inst.
Proof.
  intros Hr. apply Z.bits_inj'. intros i Hi. destruct (Z_lt_le_dec i 32) as [Hlt|Hge].
  - each_bit i 32; [..|lia]; bit_calc; done.
  - rewrite thumbPut_bits, !Z.lor_spec, !Z.land_spec by lia.
    rewrite (testbit_mask_high inst i 32) by lia. above i 32.
Qed.
(** The opcode stays. *)
Lemma thumbPut_opcode inst imm16 : Z.land (thumbPut inst imm16) 0x8000fbf0 = Z.land inst 0x8000fbf0.
Proof.
  apply Z.bits_inj'. intros i Hi. destruct (Z_lt_le_dec i 32) as [Hlt|Hge].
  - each_bit i 32; [..|lia]; bit_calc; done.
  - rewrite !Z.land_spec. above i 32.
Qed.
Lemma thumbPut_range inst imm16 : 0 <= thumbPut inst imm16 < 2 ^ 32.
Proof.
  assert (E : thumbPut inst imm16 = thumbPut inst imm16 mod 2 ^ 32); [|rewrite E; apply Z.mod_pos_bound; lia].
  apply Z.bits_inj'. intros i Hi. destruct (Z_lt_le_dec i 32) as [Hlt|Hge]; [by rewrite Z.mod_pow2_bits_low by lia|].
  rewrite Z.mod_pow2_bits_high, thumbPut_bits, !Z.lor_spec, !Z.land_spec by lia.
  above i 32.
Qed.

Lemma thumbImm_range inst : 0 <= thumbImm inst < 2 ^ 16.
Proof.
  assert (E : thumbImm inst = thumbImm inst mod 2 ^ 16); [|rewrite E; apply Z.mod_pos_bound; lia].
  apply Z.bits_inj'. intros i Hi. destruct (Z_lt_le_dec i 16) as [Hlt|Hge]; [by rewrite Z.mod_pow2_bits_low by lia|].
  rewrite Z.mod_pow2_bits_high, thumbImm_bits, !Z.lor_spec, !Z.land_spec by lia. above i 16.
Qed.
Lemma high_half x : 0 <= x -> Z.shiftr (Z.land x 0xffff0000) 16 = (x / 2 ^ 16) mod 2 ^ 16.
Proof.
  intros Hx. rewrite Z.shiftr_land. change (Z.shiftr 0xffff0000 16) with (Z.ones 16). rewrite Z.land_ones, Z.shiftr_div_pow2 by lia. done.
Qed.

Lemma thumbPut_mod inst imm16 : thumbPut inst (imm16 mod 2 ^ 16) = thumbPut inst imm16.
Proof.
  apply Z.bits_inj'. intros i Hi. destruct (Z_lt_le_dec i 32) as [Hlt|Hge].
  - each_bit i 32; [..|lia]; bit_calc; rewrite ?Z.mod_pow2_bits_low by lia; done.
  - rewrite !thumbPut_bits, !Z.lor_spec, !Z.land_spec by lia. above i 32.
Qed.

(** ** What happens to a field *)

(** What an entry of the table names: half a word, the upper half of a word, a
    word, a double word or a pair of instructions. *)
Inductive fieldKind : Type := KLow | KHigh | KHighLow | KDir64 | KThumb.
Definition width (k : fieldKind) : nat := match k with KLow | KHigh => 2 | KHighLow => 4 | KDir64 | KThumb => 8 end.

Abbreviation target := (nat * fieldKind)%type.
Definition fieldOf (t : target) : nat * nat := (t.1, width t.2).

(** The address a MOVW and a MOVT behind it load. *)
Definition thumbAddress (bs : gostring) : Z := thumbImm (leValue (drop 4 bs)) * 2 ^ 16 + thumbImm (leValue (take 4 bs)).

(** The bytes [bs] of a field once the image has moved by [delta]. *)
Definition moved (delta : Z) (k : fieldKind) (bs : gostring) : gostring :=
  match k with
  | KHigh => leBytes 2 (leValue bs + delta / 2 ^ 16)
  | KThumb =>
      let sum := thumbAddress bs + delta mod 2 ^ 32 in
      leBytes 4 (thumbPut (leValue (take 4 bs)) (sum mod 2 ^ 16)) ++ leBytes 4 (thumbPut (leValue (drop 4 bs)) (sum / 2 ^ 16))
  | _ => leBytes (width k) (leValue bs + delta)
  end.

(** Which fields can be moved: all but a pair of instructions that are not MOVW
    and MOVT, or that cannot hold the address. *)
Definition movable (delta : Z) (k : fieldKind) (bs : gostring) : Prop :=
  match k with
  | KThumb => Z.land (leValue (take 4 bs)) 0x8000fbf0 = 0xf240 /\ Z.land (leValue (drop 4 bs)) 0x8000fbf0 = 0xf2c0
              /\ thumbAddress bs + delta mod 2 ^ 32 < 2 ^ 32
  | _ => True
  end.

Definition moveField (delta : Z) (image : gostring) (t : target) : gostring :=
  splice t.1 (moved delta t.2 (bytesAt t.1 (width t.2) image)) image.
Definition moveAll (delta : Z) (image : gostring) (ts : list target) : gostring := foldl (moveField delta) image ts.

Definition inside (image : gostring) (t : nat * nat) : Prop := (t.1 + t.2 <= length image)%nat.
Abbreviation within_image image := (fun t : target => inside image (fieldOf t)).

(** Fields that lie apart from each other. *)
Fixpoint allApart (ts : list target) : Prop :=
  match ts with [] => True | t :: ts' => Forall (fun u => apart (fieldOf t) (fieldOf u)) ts' /\ allApart ts' end.

Lemma apart_sym a b : apart a b -> apart b a.
Proof. unfold apart. lia. Qed.
Lemma allApart_app l l' : allApart (l ++ l') ->
  allApart l /\ allApart l' /\ Forall (fun u => Forall (fun t => apart (fieldOf t) (fieldOf u)) l) l'.
Proof.
  induction l as [|t l IH]; cbn [allApart app]; [intros Ha; split; [done|]; split; [done|]; by apply Forall_forall|].
  intros [Ht Ha]. apply Forall_app in Ht as [Ht Ht']. destruct (IH Ha) as (Hl & Hl' & Hx). split; [done|]. split; [done|].
  rewrite Forall_forall in *. intros u Hu. apply Forall_cons. auto.
Qed.

Lemma moved_length delta k bs : length (moved delta k bs) = width k.
Proof. destruct k; unfold moved; rewrite ?length_app, !leBytes_length; done. Qed.
Lemma moveField_length delta image t : inside image (fieldOf t) -> length (moveField delta image t) = length image.
Proof. intros Hi. apply splice_length. by rewrite moved_length. Qed.
Lemma moveField_apart delta image t (u : nat * nat) : inside image (fieldOf t) -> apart (fieldOf t) u ->
  bytesAt u.1 u.2 (moveField delta image t) = bytesAt u.1 u.2 image.
Proof. intros Hi Ha. destruct u. by apply bytesAt_splice; rewrite moved_length. Qed.
Lemma moveField_inside delta image t ts : inside image (fieldOf t) -> Forall (within_image image) ts ->
  Forall (within_image (moveField delta image t)) ts.
Proof. intros Ht Hi. eapply Forall_impl; [exact Hi|]. intros u. unfold inside. by rewrite moveField_length. Qed.
Lemma moveAll_length delta ts image : Forall (within_image image) ts -> length (moveAll delta image ts) = length image.
Proof.
  revert image. induction ts as [|t ts IH]; intros image Hi; [done|]. apply Forall_cons in Hi as [Ht Hts]. cbn [moveAll foldl].
  change (length (moveAll delta (moveField delta image t) ts) = length image). rewrite IH; [by apply moveField_length|].
  by apply moveField_inside.
Qed.
Lemma moveAll_inside delta image ts ts' : Forall (within_image image) ts -> Forall (within_image image) ts' ->
  Forall (within_image (moveAll delta image ts)) ts'.
Proof. intros Ht Hi. eapply Forall_impl; [exact Hi|]. intros u. unfold inside. by rewrite moveAll_length. Qed.
Lemma moveAll_apart delta ts image (u : nat * nat) : Forall (within_image image) ts -> Forall (fun t => apart (fieldOf t) u) ts ->
  bytesAt u.1 u.2 (moveAll delta image ts) = bytesAt u.1 u.2 image.
Proof.
  revert image. induction ts as [|t ts IH]; intros image Hi Ha; [done|].
  apply Forall_cons in Hi as [Ht Hi]. apply Forall_cons in Ha as [Hat Ha]. cbn [moveAll foldl].
  change (bytesAt u.1 u.2 (moveAll delta (moveField delta image t) ts) = bytesAt u.1 u.2 image).
  rewrite IH by (done || by apply moveField_inside). by apply moveField_apart.
Qed.
Lemma moveField_comm d d' image t u : inside image (fieldOf t) -> inside image (fieldOf u) -> apart (fieldOf t) (fieldOf u) ->
  moveField d (moveField d' image u) t = moveField d' (moveField d image t) u.
Proof.
  intros Ht Hu Ha. pose proof (moveField_apart d' image u (fieldOf t) Hu (apart_sym _ _ Ha)) as E1.
  pose proof (moveField_apart d image t (fieldOf u) Ht Ha) as E2. cbn [fieldOf fst snd] in E1, E2.
  unfold moveField at 1 3. rewrite E1, E2. apply splice_comm; rewrite ?moved_length; done.
Qed.
Lemma moveField_back d d' image t : inside image (fieldOf t) ->
  (let bs := bytesAt t.1 (width t.2) image in moved d' t.2 (moved d t.2 bs) = bs) -> moveField d' (moveField d image t) t = image.
Proof.
  intros Hi Hb. cbv zeta in Hb. unfold moveField at 1. unfold moveField at 1.
  rewrite <- (moved_length d t.2 (bytesAt t.1 (width t.2) image)) at 1.
  rewrite bytesAt_spliced by (by rewrite moved_length). unfold moveField. rewrite splice_again by (by rewrite ?moved_length). rewrite Hb.
  by apply splice_same.
Qed.
Lemma moveAll_past d d' t ts image : inside image (fieldOf t) -> Forall (within_image image) ts ->
  Forall (fun u => apart (fieldOf t) (fieldOf u)) ts -> moveField d' (moveAll d image ts) t = moveAll d (moveField d' image t) ts.
Proof.
  revert image. induction ts as [|u ts IH]; intros image Ht Hi Ha; [done|].
  apply Forall_cons in Hi as [Hu Hi]. apply Forall_cons in Ha as [Hau Ha]. cbn [moveAll foldl].
  change (moveField d' (moveAll d (moveField d image u) ts) t = moveAll d (moveField d (moveField d' image t) u) ts).
  rewrite IH; [by rewrite moveField_comm| |by apply moveField_inside|done]. unfold inside. by rewrite moveField_length.
Qed.
Lemma moveAll_back d d' ts image : Forall (within_image image) ts -> allApart ts ->
  Forall (fun t => let bs := bytesAt t.1 (width t.2) image in moved d' t.2 (moved d t.2 bs) = bs) ts ->
  moveAll d' (moveAll d image ts) ts = image.
Proof.
  revert image. induction ts as [|t ts IH]; intros image Hi Ha Hb; [done|].
  apply Forall_cons in Hi as [Ht Hi]. destruct Ha as [Hat Ha]. apply Forall_cons in Hb as [Hbt Hb]. cbn [moveAll foldl].
  change (moveAll d' (moveField d' (moveAll d (moveField d image t) ts) t) ts = image).
  rewrite moveAll_past; [|unfold inside; by rewrite moveField_length|by apply moveField_inside|done].
  rewrite moveField_back by done. by apply IH.
Qed.

(** The kinds of field that moving back restores: no instructions, and upper
    halves only where the distance is one of whole 64 kilobytes. *)
Definition restorable (delta : Z) (k : fieldKind) : Prop :=
  match k with KThumb => False | KHigh => delta mod 2 ^ 16 = 0 | _ => True end.

Lemma leBytes_back n d d' bs : length bs = n -> (d + d') mod 256 ^ Z.of_nat n = 0 ->
  leBytes n (leValue (leBytes n (leValue bs + d)) + d') = bs.
Proof.
  intros Hn Hd. rewrite <- (leBytes_mod n (leValue bs + d)). set (m := 256 ^ Z.of_nat n) in *.
  assert (Hm : 0 < m) by (apply Z.pow_pos_nonneg; lia). rewrite leValue_leBytes by (apply Z.mod_pos_bound; exact Hm).
  rewrite <- leBytes_mod. fold m. rewrite Zplus_mod_idemp_l, <- Z.add_assoc, <- Zplus_mod_idemp_r, Hd, Z.add_0_r.
  unfold m. rewrite leBytes_mod, <- Hn. apply leBytes_leValue.
Qed.
Lemma opposite_mod delta n : (n <= 8)%nat -> (delta + u64 (- delta)) mod 256 ^ Z.of_nat n = 0.
Proof.
  intros Hn. replace (delta + u64 (- delta)) with (256 ^ Z.of_nat n * (256 ^ Z.of_nat (8 - n) * ((delta + u64 (- delta)) / 2 ^ 64))).
  { rewrite Z.mul_comm. apply Z.mod_mul, Z.pow_nonzero; lia. }
  rewrite Z.mul_assoc, <- Z.pow_add_r by lia. replace (Z.of_nat n + Z.of_nat (8 - n)) with 8 by lia. change (256 ^ 8) with (2 ^ 64).
  symmetry. apply Z_div_exact_full_2; [done|]. unfold u64. rewrite Zplus_mod_idemp_r. by rewrite Z.add_opp_diag_r.
Qed.
Lemma opposite_high delta : delta mod 2 ^ 16 = 0 -> (delta / 2 ^ 16 + u64 (- delta) / 2 ^ 16) mod 2 ^ 16 = 0.
Proof.
  intros Hd. pose proof (Z.div_mod delta (2 ^ 16) ltac:(lia)) as E. set (q := delta / 2 ^ 16) in *. rewrite Hd, Z.add_0_r in E.
  rewrite E. unfold u64. replace (- (2 ^ 16 * q)) with (2 ^ 16 * (- q)) by lia. change (2 ^ 64) with (2 ^ 16 * 2 ^ 48).
  rewrite Zmult_mod_distr_l, (Z.mul_comm (2 ^ 16)), Z.div_mul by lia. change (2 ^ 48) with (2 ^ 16 * 2 ^ 32).
  rewrite Z.rem_mul_r by lia. rewrite Z.add_assoc, (Z.mul_comm (2 ^ 16)), Z.mod_add, Zplus_mod_idemp_r by lia. by rewrite Z.add_opp_diag_r.
Qed.
Lemma moved_back delta k bs : length bs = width k -> restorable delta k -> moved (u64 (- delta)) k (moved delta k bs) = bs.
Proof.
  intros Hl Hr. destruct k; try done; unfold moved; apply leBytes_back; try done; [by apply opposite_mod; cbn; lia| |by apply opposite_mod; cbn; lia..].
  by apply opposite_high.
Qed.

(** ** The table *)

(** The field an entry names; [None] for an entry of another type. *)
Definition entryTargets (va relInfo : Z) : option (list target) :=
  let off := Z.to_nat (va + Z.land relInfo 0xfff) in
  let relType := Z.shiftr relInfo 12 in
  if relType =? 0 then Some []
  else if relType =? 1 then Some [(off, KHigh)]
  else if relType =? 2 then Some [(off, KLow)]
  else if relType =? 3 then Some [(off, KHighLow)]
  else if relType =? 7 then Some [(off, KThumb)]
  else if relType =? 10 then Some [(off, KDir64)]
  else None.

Fixpoint blockTargets (image : gostring) (va infos : Z) (n : nat) (j : Z) : option (list target) :=
  match n with
  | O => Some []
  | S n' =>
      match dataAt image 2 (infos + 2 * j) with
      | Some relInfo =>
          match entryTargets va relInfo, blockTargets image va infos n' (j + 1) with
          | Some l, Some l' => Some (l ++ l')
          | _, _ => None
          end
      | None => None
      end
  end.

Fixpoint tableTargets (fuel : nat) (image : gostring) (relocEnd hdr : Z) : option (list target) :=
  match fuel with
  | O => None
  | S fuel' =>
      if relocEnd <? hdr + sizeofBaseRelocation then Some []
      else match dataAt image 4 hdr, dataAt image 4 (hdr + 4) with
           | Some va, Some size =>
               if va =? 0 then Some []
               else if (size <? sizeofBaseRelocation) || (relocEnd <? hdr + size) then None
               else match blockTargets image va (hdr + sizeofBaseRelocation) (Z.to_nat ((size - sizeofBaseRelocation) / 2)) 0,
                          tableTargets fuel' image relocEnd (hdr + size) with
                    | Some l, Some l' => Some (l ++ l')
                    | _, _ => None
                    end
           | _, _ => None
           end
  end.

(** Two images with the same bytes from [lo] on. *)
Definition agree (lo len : Z) (image image' : gostring) : Prop :=
  length image = length image' /\ forall off n, lo <= off -> off + Z.of_nat n <= lo + len -> dataAt image n off = dataAt image' n off.

Lemma agree_refl lo len image : agree lo len image image.
Proof. done. Qed.
Lemma agree_trans lo len i1 i2 i3 : agree lo len i1 i2 -> agree lo len i2 i3 -> agree lo len i1 i3.
Proof. intros [H1 H2] [H3 H4]. split; [congruence|]. intros off n Hl Hh. by rewrite H2, H4. Qed.

Lemma blockTargets_agree lo len image image' va infos n j :
  agree lo len image image' -> 0 <= j -> lo <= infos -> infos + 2 * (j + Z.of_nat n) <= lo + len ->
  blockTargets image va infos n j = blockTargets image' va infos n j.
Proof.
  intros Ha. revert j. induction n as [|n IH]; intros j Hj Hlo Hhi; [done|]. cbn [blockTargets].
  rewrite (proj2 Ha), (IH (j + 1)) by lia. done.
Qed.
Lemma tableTargets_agree lo len fuel image image' hdr :
  agree lo len image image' -> lo <= hdr -> tableTargets fuel image (lo + len) hdr = tableTargets fuel image' (lo + len) hdr.
Proof.
  intros Ha. revert hdr. induction fuel as [|fuel IH]; intros hdr Hlo; [done|]. cbn [tableTargets]. unfold sizeofBaseRelocation in *.
  destruct (Z.ltb_spec (lo + len) (hdr + 8)); [done|]. rewrite !(proj2 Ha) by lia.
  destruct (dataAt image' 4 hdr) as [va|]; [|done]. destruct (dataAt image' 4 (hdr + 4)) as [size|]; [|done].
  destruct (va =? 0); [done|]. destruct (Z.ltb_spec size 8); [done|]. destruct (Z.ltb_spec (lo + len) (hdr + size)); [done|]. cbn [orb].
  rewrite (blockTargets_agree lo len image image'), IH; [done|lia|done|lia|lia|]. rewrite Z2Nat.id by (apply Z.div_pos; lia).
  pose proof (Z.div_mod (size - 8) 2). pose proof (Z.mod_pos_bound (size - 8) 2). lia.
Qed.

(** A field outside the table leaves it as it is. *)
Lemma moveField_agree delta image t lo len : 0 <= lo -> 0 <= len -> lo + len < 2 ^ 64 ->
  inside image (fieldOf t) -> apart (fieldOf t) (Z.to_nat lo, Z.to_nat len) -> agree lo len image (moveField delta image t).
Proof.
  intros Hlo Hlen Hb Hi Ha. split; [by rewrite moveField_length|]. intros off n Hl Hh. unfold dataAt, readAt, offsetOf.
  rewrite moveField_length by done. unfold u64. rewrite Z.sub_0_r, Z.mod_small by lia. destruct (_ && _); [|done]. unfold fieldAt.
  pose proof (moveField_apart delta image t (Z.to_nat off, n) Hi) as Hap. cbn [fst snd] in Hap. rewrite Hap; [done|].
  unfold apart in *. cbn [fst snd] in *. lia.
Qed.
Lemma moveAll_agree delta ts image lo len : 0 <= lo -> 0 <= len -> lo + len < 2 ^ 64 -> Forall (within_image image) ts ->
  Forall (fun t => apart (fieldOf t) (Z.to_nat lo, Z.to_nat len)) ts -> agree lo len image (moveAll delta image ts).
Proof.
  intros Hlo Hlen Hb. revert image. induction ts as [|t ts IH]; intros image Hi Ha; [done|].
  apply Forall_cons in Hi as [Ht Hi]. apply Forall_cons in Ha as [Hat Ha].
  apply (agree_trans _ _ _ (moveField delta image t)); [by apply moveField_agree|]. apply IH; [|done]. by apply moveField_inside.
Qed.

(** ** The entries *)

Lemma readAt_base base image n off : readAt base image n (u64 (base + off)) = dataAt image n off.
Proof.
  unfold dataAt, readAt, offsetOf. replace (u64 (u64 (base + off) - base)) with (u64 (off - 0)); [done|].
  unfold u64. rewrite Zminus_mod_idemp_l. f_equal. lia.
Qed.
Lemma storeAt_base base image off bs : storeAt base image (u64 (base + off)) bs = storeAt 0 image off bs.
Proof.
  unfold storeAt, offsetOf. replace (u64 (u64 (base + off) - base)) with (u64 (off - 0)); [done|].
  unfold u64. rewrite Zminus_mod_idemp_l. f_equal. lia.
Qed.

Lemma rd_base {W} `{LoaderSystem W} n off (s : loader W) v : dataAt (lo_image s) n off = Some v -> rd n (mo_codeBase (lo_module s) + off) s = Some (Ok v, s).
Proof. intros E. unfold rd. by rewrite readAt_base, E. Qed.

Lemma rd_field {W} `{LoaderSystem W} n (off : nat) (s : loader W) : Z.of_nat off < 2 ^ 63 -> inside (lo_image s) (off, n) ->
  rd n (mo_codeBase (lo_module s) + Z.of_nat off) s = Some (Ok (fieldAt off n (lo_image s)), s).
Proof.
  intros Ho Hi. apply rd_base. unfold dataAt, readAt, offsetOf, u64. unfold inside in Hi. cbn in Hi. rewrite Z.sub_0_r, Z.mod_small by lia.
  destruct (Z.leb_spec 0 (Z.of_nat n)); [|lia]. destruct (Z.leb_spec (Z.of_nat off + Z.of_nat n) (Z.of_nat (length (lo_image s)))); [|lia].
  cbn [andb]. by rewrite Nat2Z.id.
Qed.
Lemma wr_field {W} `{LoaderSystem W} n (off : nat) v (s : loader W) : Z.of_nat off < 2 ^ 63 -> inside (lo_image s) (off, n) ->
  wr n (mo_codeBase (lo_module s) + Z.of_nat off) v s = Some (Ok tt, setImage (splice off (leBytes n v) (lo_image s)) s).
Proof.
  intros Ho Hi. unfold wr, storeBytes. rewrite storeAt_base. unfold storeAt, offsetOf, u64. unfold inside in Hi. cbn in Hi.
  rewrite leBytes_length, Z.sub_0_r, Z.mod_small by lia.
  destruct (Z.leb_spec 0 (Z.of_nat n)); [|lia]. destruct (Z.leb_spec (Z.of_nat off + Z.of_nat n) (Z.of_nat (length (lo_image s)))); [|lia].
  cbn [andb]. rewrite Nat2Z.id. unfold splice. by rewrite leBytes_length.
Qed.
Lemma fieldAt_spliced off n v image : (off + n <= length image)%nat -> 0 <= v < 256 ^ Z.of_nat n ->
  fieldAt off n (splice off (leBytes n v) image) = v.
Proof.
  intros Hl Hv. unfold fieldAt. rewrite <- (leBytes_length n v) at 1. rewrite bytesAt_spliced by (by rewrite leBytes_length).
  by apply leValue_leBytes.
Qed.
Lemma fieldAt_apart off n v o m image : (off + n <= length image)%nat -> apart (off, n) (o, m) ->
  fieldAt o m (splice off (leBytes n v) image) = fieldAt o m image.
Proof. intros Hl Ha. unfold fieldAt. by rewrite bytesAt_splice by (by rewrite leBytes_length). Qed.

Lemma take_bytesAt off n m image : take n (bytesAt off (n + m) image) = bytesAt off n image.
Proof. unfold bytesAt. rewrite take_take. f_equal. lia. Qed.
Lemma drop_bytesAt off n m image : drop n (bytesAt off (n + m) image) = bytesAt (off + n) m image.
Proof. unfold bytesAt. rewrite skipn_firstn_comm, drop_drop. by replace (n + m - n)%nat with m by lia. Qed.

(** The relocation of a MOVW and the MOVT behind it adds the distance, as 32
    bits, to the address they load, when the sum has 32 bits; otherwise the
    module is refused. So it never moves an address down: a distance below zero
    is a large one. *)
Theorem relocateThumb_adds {W} `{LoaderSystem W} (delta : Z) (off : nat) (s : loader W) :
  let bs := bytesAt off 8 (lo_image s) in
  0 <= delta -> Z.of_nat off < 2 ^ 62 -> (off + 8 <= length (lo_image s))%nat ->
  Z.land (leValue (take 4 bs)) 0x8000fbf0 = 0xf240 -> Z.land (leValue (drop 4 bs)) 0x8000fbf0 = 0xf2c0 ->
  exists r s', relocateThumb delta (mo_codeBase (lo_module s) + Z.of_nat off) s = Some (r, s')
  /\ (is_Ok r = true <-> movable delta KThumb bs)
  /\ (is_Ok r = true -> s' = setImage (moveField delta (lo_image s) (off, KThumb)) s).
Proof.
  intros bs Hd Ho Hl Hw Ht. set (sum := thumbAddress bs + delta mod 2 ^ 32).
  assert (Hmov : movable delta KThumb bs <-> sum < 2 ^ 32) by (cbn; tauto). setoid_rewrite Hmov. clear Hmov.
  assert (Ew : leValue (take 4 bs) = fieldAt off 4 (lo_image s)) by (unfold bs; by rewrite (take_bytesAt off 4 4)).
  assert (Et : leValue (drop 4 bs) = fieldAt (off + 4) 4 (lo_image s)) by (unfold bs; by rewrite (drop_bytesAt off 4 4)).
  unfold moveField. cbn [fst snd width]. fold bs. unfold moved. fold sum.
  assert (Esum : sum = thumbImm (fieldAt (off + 4) 4 (lo_image s)) * 2 ^ 16 + thumbImm (fieldAt off 4 (lo_image s)) + delta mod 2 ^ 32)
    by (unfold sum, thumbAddress; by rewrite Ew, Et).
  rewrite Ew, Et in *. clearbody sum.
  set (w := fieldAt off 4 (lo_image s)) in *.
  set (t := fieldAt (off + 4) 4 (lo_image s)) in *. pose proof (thumbImm_range w) as Rw. pose proof (thumbImm_range t) as Rt.
  set (d := delta mod 2 ^ 32) in *. assert (Rd : 0 <= d < 2 ^ 32) by (apply Z.mod_pos_bound; lia).
  unfold relocateThumb. unfold lthen at 1. rewrite rd_field by (unfold inside; cbn; lia). change (fieldAt off 4 (lo_image s)) with w.
  rewrite Hw. cbn [Z.eqb Pos.eqb negb]. change (u32 delta) with d.
  assert (Hlow : Z.land d 0xffff = d mod 2 ^ 16) by (by rewrite <- Z.land_ones). rewrite Hlow. set (imm := thumbImm w + d mod 2 ^ 16).
  assert (Rimm : 0 <= imm < 2 ^ 17) by (unfold imm; pose proof (Z.mod_pos_bound d (2 ^ 16)); lia).
  assert (Hhi : Z.shiftr (Z.land delta 0xffff0000) 16 = d / 2 ^ 16).
  { rewrite high_half by done. unfold d. change (2 ^ 32) with (2 ^ 16 * 2 ^ 16). rewrite Z.rem_mul_r by lia.
    rewrite (Z.mul_comm (2 ^ 16)), Z.div_add, (Z.div_small (delta mod 2 ^ 16)) by (try apply Z.mod_pos_bound; lia). done. }
  assert (Rq : 0 <= imm / 2 ^ 16 < 2 ^ 16) by (split; [apply Z.div_pos|apply Z.div_lt_upper_bound]; lia).
  rewrite Hhi, high_half, (Z.mod_small (imm / 2 ^ 16)) by lia. set (hi := d / 2 ^ 16 + imm / 2 ^ 16).
  pose proof (Z.mod_pos_bound imm (2 ^ 16) ltac:(lia)) as Rm. assert (Rhi : 0 <= hi) by (unfold hi; pose proof (Z.div_pos d (2 ^ 16)); lia).
  assert (Hsum : sum = (thumbImm t + hi) * 2 ^ 16 + imm mod 2 ^ 16).
  { rewrite Esum. unfold hi. pose proof (Z.div_mod d (2 ^ 16)). pose proof (Z.div_mod imm (2 ^ 16)). unfold imm in *. lia. }
  assert (Elo : sum mod 2 ^ 16 = imm mod 2 ^ 16) by (rewrite Hsum, Z.add_comm, Z.mod_add by lia; by rewrite Z.mod_mod).
  assert (Ehi : sum / 2 ^ 16 = thumbImm t + hi) by (rewrite Hsum, Z.add_comm, Z.div_add, Z.div_small by lia; lia).
  rewrite Elo, Ehi, thumbPut_mod. unfold lthen at 1. rewrite wr_field by (unfold inside; cbn; lia).
  set (s1 := setImage (splice off (leBytes 4 (thumbPut w imm)) (lo_image s)) s).
  assert (Hlen : length (lo_image s1) = length (lo_image s)) by (apply splice_length; rewrite leBytes_length; lia).
  assert (Ht1 : fieldAt (off + 4) 4 (lo_image s1) = t) by (apply fieldAt_apart; [lia|unfold apart; cbn; lia]).
  rewrite splice_app by (rewrite length_app, !leBytes_length; lia). rewrite leBytes_length.
  change (splice off (leBytes 4 (thumbPut w imm)) (lo_image s)) with (lo_image s1).
  destruct (Z.eqb_spec hi 0) as [Hz|Hz].
  { exists (Ok tt), s1. split; [done|]. split; [split; [lia|done]|]. intros _. rewrite Hz, Z.add_0_r.
    assert (Rt1 : 0 <= t < 2 ^ 32) by (unfold t; apply fieldAt_range). rewrite thumbPut_imm, <- Ht1 by done.
    pose proof (bytesAt_length (off + 4) 4 (lo_image s1) ltac:(lia)) as Hb. pose proof (leBytes_leValue (bytesAt (off + 4) 4 (lo_image s1))) as El.
    rewrite Hb in El. unfold fieldAt. rewrite El. by rewrite splice_same by lia. }
  unfold lthen at 1. change (mo_codeBase (lo_module s)) with (mo_codeBase (lo_module s1)).
  replace (mo_codeBase (lo_module s1) + Z.of_nat off + 4) with (mo_codeBase (lo_module s1) + Z.of_nat (off + 4)) by lia.
  rewrite rd_field by (unfold inside; rewrite ?Hlen; cbn; lia). rewrite Ht1, Ht. cbn [Z.eqb Pos.eqb negb].
  destruct (Z.ltb_spec 0xffff (thumbImm t + hi)) as [Hov|Hfit].
  { eexists _, s1. split; [done|]. split; [split; [done|lia]|done]. }
  rewrite wr_field by (unfold inside; rewrite ?Hlen; cbn; lia). eexists _, _. split; [done|]. split; [split; [lia|done]|done].
Qed.

(** What the instructions load then. *)
Lemma moved_thumb delta bs : length bs = 8%nat -> movable delta KThumb bs ->
  thumbAddress (moved delta KThumb bs) = thumbAddress bs + delta mod 2 ^ 32.
Proof.
  intros Hl (_ & _ & Hs). unfold moved. set (sum := thumbAddress bs + delta mod 2 ^ 32) in *.
  assert (R : 0 <= sum).
  { unfold sum, thumbAddress. pose proof (thumbImm_range (leValue (drop 4 bs))). pose proof (thumbImm_range (leValue (take 4 bs))).
    pose proof (Z.mod_pos_bound delta (2 ^ 32)). lia. }
  unfold thumbAddress. rewrite take_app_le, drop_app_ge by (rewrite leBytes_length; lia). rewrite leBytes_length, take_ge by (by rewrite leBytes_length).
  change (4 - 4)%nat with 0%nat. rewrite drop_0, !leValue_leBytes by apply thumbPut_range. rewrite !thumbImm_put, Z.mod_mod, (Z.mod_small (sum / 2 ^ 16)).
  - pose proof (Z.div_mod sum (2 ^ 16)). lia.
  - split; [apply Z.div_pos|apply Z.div_lt_upper_bound]; lia.
  - lia.
Qed.

Section Relocation.
Context {W : Type} `{LoaderSystem W}.

Abbreviation loader := (loader W).

(** Adding to a field of the image. *)
Lemma add_at (n : nat) (off delta : Z) (s : loader) :
  0 <= off < 2 ^ 63 -> inside (lo_image s) (Z.to_nat off, n) ->
  (run! v := rd n (mo_codeBase (lo_module s) + off) in wr n (mo_codeBase (lo_module s) + off) (v + delta)) s
  = Some (Ok tt, setImage (splice (Z.to_nat off) (leBytes n (fieldAt (Z.to_nat off) n (lo_image s) + delta)) (lo_image s)) s).
Proof.
  intros Ho Hi. assert (Eo : off = Z.of_nat (Z.to_nat off)) by lia. set (o := Z.to_nat off) in *. clearbody o. subst off.
  unfold lthen. rewrite rd_field by (done || lia).
  by rewrite wr_field by (done || lia).
Qed.
Lemma leBytes_congr n v d d' : d mod 256 ^ Z.of_nat n = d' mod 256 ^ Z.of_nat n -> leBytes n (v + d) = leBytes n (v + d').
Proof. intros Hd. by rewrite <- leBytes_mod, <- Zplus_mod_idemp_r, Hd, Zplus_mod_idemp_r, leBytes_mod. Qed.

Definition movableIn (delta : Z) (image : gostring) (t : target) : Prop := movable delta t.2 (bytesAt t.1 (width t.2) image).

Lemma relocateEntry_moves delta va relInfo ts (s : loader) :
  0 <= delta -> 0 <= va < 2 ^ 32 -> entryTargets va relInfo = Some ts ->
  Forall (within_image (lo_image s)) ts -> Forall (movableIn delta (lo_image s)) ts ->
  relocateEntry delta (mo_codeBase (lo_module s) + va) relInfo s = Some (Ok tt, setImage (moveAll delta (lo_image s) ts) s).
Proof.
  intros Hd Hva E Hi Hm. unfold entryTargets in E. unfold relocateEntry. set (off := Z.land relInfo 0xfff) in *.
  assert (Hoff : 0 <= off < 2 ^ 12) by (unfold off; change 0xfff with (Z.ones 12); rewrite Z.land_ones by lia; apply Z.mod_pos_bound; lia).
  rewrite <- Z.add_assoc. unfold IMAGE_REL_BASED_ABSOLUTE, IMAGE_REL_BASED_LOW, IMAGE_REL_BASED_HIGH, IMAGE_REL_BASED_HIGHLOW,
    IMAGE_REL_BASED_DIR64, IMAGE_REL_BASED_THUMB_MOV32.
  destruct (Z.eqb_spec (Z.shiftr relInfo 12) 0) as [E0|N0]; [by injection E as <-; destruct s|].
  assert (Hone : forall k, [(Z.to_nat (va + off), k)] = ts -> inside (lo_image s) (Z.to_nat (va + off), width k)
    /\ movableIn delta (lo_image s) (Z.to_nat (va + off), k)).
  { intros k <-. apply Forall_cons in Hi as [Hi _]. apply Forall_cons in Hm as [Hm _]. done. }
  destruct (Z.eqb_spec (Z.shiftr relInfo 12) 1) as [E1|N1]; [rewrite E1; injection E as E; destruct (Hone _ E) as [Hin _]; subst ts; cbn [Z.eqb Pos.eqb]|].
  { rewrite (add_at 2 (va + off)) by (lia || exact Hin). cbn [moveAll foldl]. unfold moveField, moved. cbn [fst snd width].
    unfold fieldAt. do 4 f_equal. apply leBytes_congr. rewrite Z.shiftr_div_pow2 by lia. unfold u32. change (2 ^ 32) with (2 ^ 16 * 2 ^ 16).
    rewrite Z.rem_mul_r by lia. rewrite (Z.mul_comm (2 ^ 16) (_ mod _)), Z.div_add, (Z.div_small (delta mod 2 ^ 16)) by (try apply Z.mod_pos_bound; lia).
    change (256 ^ Z.of_nat 2) with (2 ^ 16). by rewrite Z.add_0_l, Z.mod_mod. }
  destruct (Z.eqb_spec (Z.shiftr relInfo 12) 2) as [E2|N2]; [injection E as E; destruct (Hone _ E) as [Hin _]; subst ts|].
  { rewrite (add_at 2 (va + off)) by (lia || exact Hin). cbn [moveAll foldl]. unfold moveField, moved. cbn [fst snd width].
    unfold fieldAt. do 4 f_equal. apply leBytes_congr. change 0xffff with (Z.ones 16). rewrite Z.land_ones by lia. by rewrite Z.mod_mod. }
  destruct (Z.eqb_spec (Z.shiftr relInfo 12) 3) as [E3|N3]; [injection E as E; destruct (Hone _ E) as [Hin _]; subst ts|].
  { rewrite (add_at 4 (va + off)) by (lia || exact Hin). cbn [moveAll foldl]. unfold moveField, moved. cbn [fst snd width].
    unfold fieldAt. do 4 f_equal. apply leBytes_congr. unfold u32. by rewrite Z.mod_mod. }
  destruct (Z.eqb_spec (Z.shiftr relInfo 12) 7) as [E7|N7]; [rewrite E7; injection E as E; destruct (Hone _ E) as [Hin Hmv]; subst ts; cbn [Z.eqb Pos.eqb]|].
  { destruct (relocateThumb_adds delta (Z.to_nat (va + off)) s) as (r & s' & Er & Hok & Hs'); [done|lia|exact Hin|apply Hmv..|].
    rewrite Z2Nat.id in Er by lia. apply Hok in Hmv as Hr. rewrite Er, (Hs' Hr). by destruct r as [[]|]. }
  destruct (Z.eqb_spec (Z.shiftr relInfo 12) 10) as [E10|N10]; [injection E as E; destruct (Hone _ E) as [Hin _]; subst ts|done].
  by rewrite (add_at 8 (va + off)) by (lia || exact Hin).
Qed.

Lemma movableIn_past delta delta' image ts u : Forall (within_image image) ts -> Forall (fun t => apart (fieldOf t) (fieldOf u)) ts ->
  movableIn delta image u -> movableIn delta (moveAll delta' image ts) u.
Proof.
  intros Hi Ha. unfold movableIn. pose proof (moveAll_apart delta' ts image (fieldOf u) Hi Ha) as E. cbn [fieldOf fst snd] in E. by rewrite E.
Qed.
Lemma Forall_movable_past delta delta' image ts ts' : Forall (within_image image) ts ->
  Forall (fun u => Forall (fun t => apart (fieldOf t) (fieldOf u)) ts) ts' ->
  Forall (movableIn delta image) ts' -> Forall (movableIn delta (moveAll delta' image ts)) ts'.
Proof. intros Hi Ha Hm. rewrite Forall_forall in *. intros u Hu. apply movableIn_past; [by apply Forall_forall|auto|auto]. Qed.

(** ** The loop moves them all

    The table, its place and its length; what it names lies apart from it. *)
Context (lo len : Z) (Hlo : 0 <= lo) (Hlen : 0 <= len) (Hend : lo + len < 2 ^ 34).

Definition outside (t : target) : Prop := apart (fieldOf t) (Z.to_nat lo, Z.to_nat len).

(** What a part of the table names can be moved one after the other. *)
Record moveable (delta : Z) (image : gostring) (ts : list target) : Prop := {
  mb_inside : Forall (within_image image) ts;
  mb_outside : Forall outside ts;
  mb_apart : allApart ts;
  mb_movable : Forall (movableIn delta image) ts
}.
Lemma moveable_app delta image l l' : moveable delta image (l ++ l') ->
  moveable delta image l /\ moveable delta (moveAll delta image l) l' /\ agree lo len image (moveAll delta image l).
Proof.
  intros [Hi Ho Ha Hm]. apply Forall_app in Hi as [Hi Hi'], Ho as [Ho Ho'], Hm as [Hm Hm']. apply allApart_app in Ha as (Ha & Ha' & Hx).
  split; [done|]. split; [split; [by apply moveAll_inside|done|done|by apply Forall_movable_past]|].
  apply moveAll_agree; [lia..|done|done].
Qed.

Lemma relocateEntries_moves delta va infos n j ts (s : loader) :
  0 <= delta -> 0 <= va < 2 ^ 32 -> 0 <= j -> lo <= infos -> infos + 2 * (j + Z.of_nat n) <= lo + len ->
  blockTargets (lo_image s) va infos n j = Some ts -> moveable delta (lo_image s) ts ->
  relocateEntries delta (mo_codeBase (lo_module s) + va) (mo_codeBase (lo_module s) + infos) n j s
  = Some (Ok tt, setImage (moveAll delta (lo_image s) ts) s).
Proof.
  intros Hd Hva. revert j ts s. induction n as [|n IH]; intros j ts s Hj Hl Hh E Hm; cbn [relocateEntries blockTargets] in *.
  { injection E as <-. by destruct s. }
  destruct (dataAt (lo_image s) 2 (infos + 2 * j)) as [relInfo|] eqn:Er; [|done].
  destruct (entryTargets va relInfo) as [l|] eqn:El; [|done].
  destruct (blockTargets (lo_image s) va infos n (j + 1)) as [l'|] eqn:El'; [|done]. injection E as <-.
  destruct (moveable_app _ _ _ _ Hm) as (Hm1 & Hm2 & Hag).
  unfold lthen at 1. rewrite <- Z.add_assoc, (rd_base 2 _ s relInfo Er).
  unfold lthen at 1. rewrite (relocateEntry_moves delta va relInfo l s Hd Hva El (mb_inside _ _ _ Hm1) (mb_movable _ _ _ Hm1)).
  set (s1 := setImage (moveAll delta (lo_image s) l) s).
  change (mo_codeBase (lo_module s)) with (mo_codeBase (lo_module s1)).
  rewrite (IH (j + 1) l' s1); [|lia|lia|lia| |exact Hm2].
  - unfold s1. cbn [lo_image setImage]. unfold moveAll. by rewrite foldl_app.
  - rewrite <- El'. symmetry. apply (blockTargets_agree lo len); [done|lia..].
Qed.

(** The blocks of the table. *)
Lemma relocateBlocks_moves fuel delta o ts (s : loader) :
  let base := mo_codeBase (lo_module s) in
  0 <= delta -> 0 <= base < 2 ^ 62 -> lo <= o <= lo + len ->
  tableTargets fuel (lo_image s) (lo + len) o = Some ts -> moveable delta (lo_image s) ts ->
  relocateBlocks fuel delta (base + (lo + len)) (base + o) s = Some (Ok tt, setImage (moveAll delta (lo_image s) ts) s).
Proof.
  intros base Hd. revert o ts s base. induction fuel as [|fuel IH]; intros o ts s base Hb Ho E Hm; subst base;
    cbn [relocateBlocks tableTargets] in *; [done|]. set (base := mo_codeBase (lo_module s)) in *.
  unfold sizeofBaseRelocation in *. unfold u64 at 1. rewrite Z.mod_small by lia.
  destruct (Z.ltb_spec (lo + len) (o + 8)) as [Hlt|Hge].
  { destruct (Z.ltb_spec (base + (lo + len)) (base + o + 8)); [|lia]. injection E as <-. by destruct s. }
  destruct (Z.ltb_spec (base + (lo + len)) (base + o + 8)); [lia|].
  destruct (dataAt (lo_image s) 4 o) as [va|] eqn:Eva; [|done]. destruct (dataAt (lo_image s) 4 (o + 4)) as [size|] eqn:Esz; [|done].
  pose proof (dataAt_range _ _ _ _ Eva) as Rva. pose proof (dataAt_range _ _ _ _ Esz) as Rsz. cbn in Rva, Rsz.
  unfold lthen at 1. rewrite (rd_base 4 o s va Eva : rd 4 (base + o) s = _). destruct (va =? 0); [injection E as <-; by destruct s|].
  unfold lthen at 1. rewrite <- Z.add_assoc, (rd_base 4 (o + 4) s size Esz : rd 4 (base + (o + 4)) s = _).
  destruct (Z.ltb_spec size 8) as [|Hs8]; [done|]. destruct (Z.ltb_spec (lo + len) (o + size)) as [|Hsz]; [done|]. cbn [orb] in E.
  unfold u64 at 1. rewrite Z.mod_small by lia. destruct (Z.ltb_spec (base + (lo + len)) (base + o + size)); [lia|].
  destruct (blockTargets _ _ _ _ _) as [l|] eqn:El; [|done]. destruct (tableTargets fuel _ _ _) as [l'|] eqn:El'; [|done].
  injection E as <-. destruct (moveable_app _ _ _ _ Hm) as (Hm1 & Hm2 & Hag).
  unfold lthen at 1, codeBase, lget. unfold lthen at 1. rewrite <- Z.add_assoc.
  change (mo_codeBase (lo_module s)) with base. unfold base.
  rewrite (relocateEntries_moves delta va (o + 8) _ 0 l s); [|done|lia|lia|lia| |done|done].
  2: { rewrite Z2Nat.id by (apply Z.div_pos; lia). pose proof (Z.div_mod (size - 8) 2). pose proof (Z.mod_pos_bound (size - 8) 2). lia. }
  set (s1 := setImage (moveAll delta (lo_image s) l) s).
  unfold lthen. change (mo_codeBase (lo_module s)) with (mo_codeBase (lo_module s1)). rewrite (rd_base 4 (o + 4) s1 size) by (cbn [s1 lo_image setImage]; rewrite <- (proj2 Hag) by lia; exact Esz).
  change (mo_codeBase (lo_module s1)) with base. unfold u64. rewrite Z.mod_small by lia. rewrite <- Z.add_assoc.
  change base with (mo_codeBase (lo_module s1)).
  rewrite (IH (o + size) l' s1); [|done|lia| |exact Hm2].
  - unfold s1. cbn [lo_image setImage]. unfold moveAll. by rewrite foldl_app.
  - rewrite <- El'. symmetry. by apply (tableTargets_agree lo len); [|lia].
Qed.
End Relocation.

(** A loaded image whose relocation table names fields that lie in it, apart from
    each other, from the table and from the entry of the headers that locates it. *)
Record relocatable {W} (s : loader W) (ho lo len : Z) (ts : list target) : Prop := {
  rl_base : 0 <= mo_codeBase (lo_module s) < 2 ^ 62;
  rl_headers : mo_headers (lo_module s) = mo_codeBase (lo_module s) + ho /\ 0 <= ho < 2 ^ 32;
  rl_address : dataAt (lo_image s) 4 (ho + (o_DataDirectory + 40)) = Some lo;
  rl_size : dataAt (lo_image s) 4 (ho + (o_DataDirectory + 44)) = Some len;
  rl_some : len <> 0;
  rl_table : tableTargets (S (Z.to_nat (len / sizeofBaseRelocation))) (lo_image s) (lo + len) lo = Some ts;
  rl_inside : Forall (within_image (lo_image s)) ts;
  rl_outside : Forall (outside lo len) ts;
  rl_header : Forall (fun t => apart (fieldOf t) (Z.to_nat (ho + (o_DataDirectory + 40)), 8%nat)) ts;
  rl_apart : allApart ts
}.

Lemma performBaseRelocation_moves {W} `{LoaderSystem W} (delta : Z) (s : loader W) ho lo len ts :
  0 <= delta -> relocatable s ho lo len ts -> Forall (movableIn delta (lo_image s)) ts ->
  performBaseRelocation delta s = Some (Ok true, setImage (moveAll delta (lo_image s) ts) s).
Proof.
  intros Hd [Hb [Hh Hho] Ea Es Hn Ht Hi Ho _ Hap] Hm. pose proof (dataAt_range _ _ _ _ Ea) as Ra. pose proof (dataAt_range _ _ _ _ Es) as Rs.
  cbn in Ra, Rs. unfold performBaseRelocation, directorySize, directoryAddress, headerField, headers, lget.
  change (o_DataDirectory + 8 * IMAGE_DIRECTORY_ENTRY_BASERELOC + 4) with (o_DataDirectory + 44).
  change (o_DataDirectory + 8 * IMAGE_DIRECTORY_ENTRY_BASERELOC) with (o_DataDirectory + 40).
  unfold lthen at 1 2. rewrite Hh, <- Z.add_assoc, (rd_base 4 _ s len Es). rewrite (proj2 (Z.eqb_neq len 0) Hn).
  unfold lthen at 1 2. rewrite Hh, <- Z.add_assoc, (rd_base 4 _ s lo Ea). unfold lthen at 1, codeBase, lget.
  unfold u64. rewrite !Z.mod_small by (rewrite ?Z.mod_small; lia). rewrite <- Z.add_assoc. unfold lthen.
  rewrite (relocateBlocks_moves lo len) with (ts := ts); [done|lia..|done|done].
Qed.

(** The image that has been moved can be moved again. *)
Lemma relocatable_moved {W} (delta : Z) (s : loader W) ho lo len ts :
  relocatable s ho lo len ts -> relocatable (setImage (moveAll delta (lo_image s) ts) s) ho lo len ts.
Proof.
  intros [Hb [Hh Hho] Ea Es Hn Ht Hi Ho Hd Hap]. pose proof (dataAt_range _ _ _ _ Ea) as Ra. pose proof (dataAt_range _ _ _ _ Es) as Rs.
  cbn in Ra, Rs. unfold o_DataDirectory in *.
  assert (Hag : agree lo len (lo_image s) (moveAll delta (lo_image s) ts)) by (apply moveAll_agree; [lia..|done|done]).
  assert (Hagh : agree (ho + (24 + 112 + 40)) 8 (lo_image s) (moveAll delta (lo_image s) ts)) by (apply moveAll_agree; [lia..|done|done]).
  split; cbn [lo_image lo_module setImage]; unfold o_DataDirectory; try done.
  - by rewrite <- (proj2 Hagh) by lia.
  - by rewrite <- (proj2 Hagh) by lia.
  - rewrite <- Ht. symmetry. by apply tableTargets_agree; [|lia].
  - by apply moveAll_inside.
Qed.

(** C17: Relocating an image by a distance succeeds and moves each field its table
    names, changing no other byte: it adds the distance to a field of two, four
    or eight bytes (types LOW, HIGHLOW, DIR64), its upper half to an upper half
    (HIGH), and its lower 32 bits to the address a MOVW and MOVT load (THUMB_MOV32)
    where these are such instructions and the sum has 32 bits. Relocating it back
    by the same distance restores the image where the table has no THUMB_MOV32
    entry, and HIGH entries only with a distance of whole 64 kilobytes. *)
Theorem relocation_round_trip {W} `{LoaderSystem W} (delta : Z) (s : loader W) ho lo len ts :
  0 <= delta -> relocatable s ho lo len ts -> Forall (movableIn delta (lo_image s)) ts ->
  performBaseRelocation delta s = Some (Ok true, setImage (moveAll delta (lo_image s) ts) s)
  /\ (Forall (fun t => restorable delta t.2) ts ->
      performBaseRelocation (u64 (- delta)) (setImage (moveAll delta (lo_image s) ts) s) = Some (Ok true, s)).
Proof.
  intros Hd Hr Hm. split; [by apply (performBaseRelocation_moves delta s ho lo len)|]. intros Hback.
  assert (Hu : 0 <= u64 (- delta)) by (apply Z.mod_pos_bound; lia).
  rewrite (performBaseRelocation_moves _ _ _ _ _ _ Hu (relocatable_moved delta s ho lo len ts Hr)).
  - cbn [lo_image setImage]. rewrite moveAll_back; [by destruct s|apply Hr|apply Hr|]. pose proof (rl_inside _ _ _ _ _ Hr) as Hi.
    rewrite Forall_forall in *. intros t Ht. apply moved_back; [by apply bytesAt_length, Hi|auto].
  - eapply Forall_impl; [exact Hback|]. intros [off k]. unfold movableIn. by destruct k.
Qed.
