(* ===== verification/MemmodSections.v ===== *)
(** * Copying the sections of a library

    The sections are copied from the file to their places in the image while the
    headers they are described by lie in the same image. *)

From stdpp Require Import gmultiset.
From S2P Require Import Prelude GoStrings GoNum Netip Config Name Parser ConfWf Driver Effects Memmod MemmodTheorems MemmodReloc.
Local Open Scope Z_scope.

(** ** Addresses cut to 32 bits *)

(** A section header has 32 bits for an address. They are enough where the image
    does not cross a multiple of four gigabytes: the upper half is that of the
    base. *)
Lemma physicalAddress_restored (base size va : Z) :
  0 <= base -> base + size < 2 ^ 64 -> 0 <= va <= size -> crosses4GB base size = false ->
  Z.lor (u32 (base + va)) (Z.land base 0xffffffff00000000) = base + va.
Proof.
  intros Hb Hs Hva Hc. unfold crosses4GB, u64 in Hc. rewrite Z.mod_small in Hc by lia. apply Z.ltb_ge in Hc.
  rewrite !Z.shiftr_div_pow2 in Hc by lia.
  assert (Hq : (base + va) / 2 ^ 32 = base / 2 ^ 32).
  { pose proof (Z.div_le_mono base (base + va) (2 ^ 32)). pose proof (Z.div_le_mono (base + va) (base + size) (2 ^ 32)). lia. }
  assert (Hhigh : Z.land base 0xffffffff00000000 = Z.shiftl (base / 2 ^ 32) 32).
  { apply Z.bits_inj'. intros i Hi. rewrite Z.land_spec, Z.shiftl_spec by lia.
    replace 0xffffffff00000000 with (Z.shiftl (Z.ones 32) 32) by done. rewrite Z.shiftl_spec by lia.
    destruct (Z_lt_le_dec i 32); [rewrite !(Z.testbit_neg_r _ (i - 32)) by lia; apply andb_false_r|].
    rewrite <- Z.shiftr_div_pow2, Z.shiftr_spec by lia. replace (i - 32 + 32) with i by lia.
    destruct (Z_lt_le_dec i 64); [rewrite Z.ones_spec_low by lia; apply andb_true_r|].
    rewrite Z.ones_spec_high, andb_false_r by lia. symmetry. apply (testbit_mask_high base i 64); lia. }
  rewrite Hhigh, <- Hq. apply Z.bits_inj'. intros i Hi. unfold u32. rewrite Z.lor_spec, Z.shiftl_spec by lia.
  destruct (Z_lt_le_dec i 32) as [Hlt|Hge].
  - by rewrite Z.mod_pow2_bits_low, (Z.testbit_neg_r _ (i - 32)), orb_false_r by lia.
  - rewrite Z.mod_pow2_bits_high, <- Z.shiftr_div_pow2, Z.shiftr_spec by lia. cbn [orb]. f_equal. lia.
Qed.

(** ** The sections *)

(** The system commits whatever memory it is asked for. *)
Definition commits (W : Type) `{LoaderSystem W} : Prop := forall a n (w : W), is_Ok (sys_Commit a n w).1 = true.

Record section_ : Type := mkSection { sc_raw : nat; sc_va : nat; sc_pointer : nat }.

Definition sectionOf (image : gostring) (first i : nat) : section_ :=
  let h := (first + 40 * i)%nat in
  mkSection (Z.to_nat (fieldAt (h + 16) 4 image)) (Z.to_nat (fieldAt (h + 12) 4 image)) (Z.to_nat (fieldAt (h + 20) 4 image)).

(** The place of a section in the image. *)
Definition place (alignment : nat) (c : section_) : nat * nat := (sc_va c, if (sc_raw c =? 0)%nat then alignment else sc_raw c).

(** What belongs there. *)
Definition content (data : gostring) (alignment : nat) (c : section_) : gostring :=
  if (sc_raw c =? 0)%nat then zeroes alignment else bytesAt (sc_pointer c) (sc_raw c) data.

(** The headers lie in the image, the sections too, apart from each other and from
    the headers, and what they hold lies in the file. *)
Record laidOut (data : gostring) (alignment first n : nat) (image : gostring) : Prop := {
  ly_headers : (first + 40 * n <= length image)%nat;
  ly_inside : forall i, (i < n)%nat -> inside image (place alignment (sectionOf image first i));
  ly_apart : forall i j, (i < n)%nat -> (j < n)%nat -> i <> j ->
    apart (place alignment (sectionOf image first i)) (place alignment (sectionOf image first j));
  ly_table : forall i, (i < n)%nat -> apart (place alignment (sectionOf image first i)) (first, (40 * n)%nat);
  ly_file : forall i, (i < n)%nat -> let c := sectionOf image first i in sc_raw c <> 0%nat ->
    (sc_pointer c + sc_raw c <= length data)%nat
}.

Section Copying.
Context {W : Type} `{LoaderSystem W}.
Context (data : gostring) (alignment first n : nat).
Context (Hal : alignment <> 0%nat).

Abbreviation loader := (loader W).
Abbreviation sec image i := (sectionOf image first i).
Abbreviation place c := (place alignment c).
Abbreviation content c := (content data alignment c).

Lemma content_length image i : laidOut data alignment first n image -> (i < n)%nat ->
  length (content (sec image i)) = (place (sec image i)).2.
Proof.
  intros Hl Hi. unfold content, place. cbn [snd]. destruct (Nat.eqb_spec (sc_raw (sec image i)) 0) as [Hz|Hz]; [apply length_replicate|].
  apply bytesAt_length. by apply (ly_file _ _ _ _ _ Hl).
Qed.

(** The image with section [i] copied and an address noted in its header. *)
Definition copied (image : gostring) (i : nat) (physical : Z) : gostring :=
  let c := sec image i in
  splice (first + 40 * i + 8) (leBytes 4 physical) (splice (sc_va c) (content c) image).

Lemma rd_section (s : loader) i (off : nat) :
  (first + 40 * n <= length (lo_image s))%nat -> (i < n)%nat -> (off + 4 <= 40)%nat -> Z.of_nat (length (lo_image s)) < 2 ^ 62 ->
  rd 4 (section (mo_codeBase (lo_module s) + Z.of_nat first) (Z.of_nat i) + Z.of_nat off) s
  = Some (Ok (fieldAt (first + 40 * i + off) 4 (lo_image s)), s).
Proof.
  intros Hl Hi Ho Hb. unfold section, sizeofSectionHeader.
  replace (mo_codeBase (lo_module s) + Z.of_nat first + 40 * Z.of_nat i + Z.of_nat off)
    with (mo_codeBase (lo_module s) + Z.of_nat (first + 40 * i + off)) by lia.
  apply rd_field; [lia|]. unfold inside. cbn. lia.
Qed.

Lemma wr_physical (s : loader) i v :
  (first + 40 * n <= length (lo_image s))%nat -> (i < n)%nat -> Z.of_nat (length (lo_image s)) < 2 ^ 62 ->
  wr 4 (section (mo_codeBase (lo_module s) + Z.of_nat first) (Z.of_nat i) + o_PhysicalAddress) v s
  = Some (Ok tt, setImage (splice (first + 40 * i + 8) (leBytes 4 v) (lo_image s)) s).
Proof.
  intros Hl Hi Hb. unfold section, sizeofSectionHeader, o_PhysicalAddress.
  replace (mo_codeBase (lo_module s) + Z.of_nat first + 40 * Z.of_nat i + 8)
    with (mo_codeBase (lo_module s) + Z.of_nat (first + 40 * i + 8)) by lia.
  apply wr_field; [lia|]. unfold inside. cbn. lia.
Qed.

Lemma store_place (s : loader) (off : nat) bs : (off + length bs <= length (lo_image s))%nat -> Z.of_nat (length (lo_image s)) < 2 ^ 62 ->
  storeBytes (mo_codeBase (lo_module s) + Z.of_nat off) bs s = Some (Ok tt, setImage (splice off bs (lo_image s)) s).
Proof.
  intros Hl Hb. unfold storeBytes. rewrite storeAt_base. unfold storeAt, offsetOf, u64. rewrite Z.sub_0_r, Z.mod_small by lia.
  destruct (Z.leb_spec 0 (Z.of_nat (length bs))); [|lia].
  destruct (Z.leb_spec (Z.of_nat off + Z.of_nat (length bs)) (Z.of_nat (length (lo_image s)))); [|lia]. cbn [andb].
  by rewrite Nat2Z.id.
Qed.

Lemma copySection_copies (s : loader) i :
  laidOut data alignment first n (lo_image s) -> (i < n)%nat -> Z.of_nat (length (lo_image s)) < 2 ^ 62 ->
  exists r s', copySection data (Z.of_nat alignment) (section (mo_codeBase (lo_module s) + Z.of_nat first) (Z.of_nat i)) s = Some (r, s')
  /\ lo_module s' = lo_module s /\ (commits W -> is_Ok r = true) /\ (is_Ok r = true -> exists physical, lo_image s' = copied (lo_image s) i physical).
Proof.
  intros Hl Hi Hb. pose proof (ly_headers _ _ _ _ _ Hl) as Hh. pose proof (ly_inside _ _ _ _ _ Hl i Hi) as Hin.
  pose proof (ly_table _ _ _ _ _ Hl i Hi) as Hta. pose proof (content_length _ i Hl Hi) as Hc.
  unfold inside in Hin. unfold copySection, codeBase, lget.
  change o_SizeOfRawData with (Z.of_nat 16). change o_VirtualAddress with (Z.of_nat 12). change o_PointerToRawData with (Z.of_nat 20). set (c := sec (lo_image s) i) in *.
  unfold lthen at 1. rewrite (rd_section s i 16) by (done || lia). unfold lthen at 1. rewrite (rd_section s i 12) by (done || lia).
  unfold lthen at 1. set (raw := fieldAt (first + 40 * i + 16) 4 (lo_image s)). set (va := fieldAt (first + 40 * i + 12) 4 (lo_image s)).
  assert (Rraw : 0 <= raw < 2 ^ 32) by apply (fieldAt_range _ 4). assert (Rva : 0 <= va < 2 ^ 32) by apply (fieldAt_range _ 4).
  assert (Eraw : sc_raw c = Z.to_nat raw) by done. assert (Eva : sc_va c = Z.to_nat va) by done.
  assert (Hphys : apart (first + 40 * i + 8, 4)%nat (place c)) by (unfold apart in *; cbn in *; lia).
  destruct (Z.eqb_spec raw 0) as [Hz|Hz].
  - rewrite (proj2 (Z.eqb_neq (Z.of_nat alignment) 0)) by lia. unfold lthen at 1, lwrap, onSys.
    destruct (sys_Commit _ _ (lo_sys s)) as [[dest|e] w] eqn:Ec; [|eexists _, _; split; [done|]; split; [done|]; split; [|done]].
    2: { intros Hco. apply (f_equal (fun x => is_Ok x.1)) in Ec. by rewrite (Hco _ _ (lo_sys s)) in Ec. }
    unfold lthen at 1.
    change (mo_codeBase (lo_module s)) with (mo_codeBase (lo_module (setSys w s))).
    rewrite (wr_physical (setSys w s)) by (done || lia). set (s1 := setImage _ _).
    change (mo_codeBase (lo_module (setSys w s))) with (mo_codeBase (lo_module s1)). replace va with (Z.of_nat (sc_va c)) by lia.
    assert (Hc0 : content c = zeroes alignment) by (unfold content; by rewrite Eraw, Hz).
    assert (Hlen : length (lo_image s1) = length (lo_image s)) by (apply splice_length; rewrite leBytes_length; cbn; lia).
    rewrite Nat2Z.id, <- Hc0. rewrite store_place by (rewrite ?Hc, ?Hlen; done || lia). eexists _, _. split; [done|]. split; [done|].
    split; [done|]. intros _. eexists. unfold copied. fold c. symmetry. apply splice_comm; rewrite ?leBytes_length, ?Hc; cbn [lo_image setSys]; (done || lia || (unfold apart in *; cbn in *; lia)).
  - unfold lthen at 1. rewrite (rd_section s i 20) by (done || lia). set (ptr := fieldAt (first + 40 * i + 20) 4 (lo_image s)).
    assert (Rptr : 0 <= ptr < 2 ^ 32) by apply (fieldAt_range _ 4). assert (Eptr : sc_pointer c = Z.to_nat ptr) by done.
    pose proof (ly_file _ _ _ _ _ Hl i Hi ltac:(fold c; lia)) as Hfile. cbn zeta in Hfile. fold c in Hfile.
    assert (Hw : u64 (ptr + raw) = ptr + raw) by (unfold u64; apply Z.mod_small; lia).
    destruct (Z.ltb_spec (Z.of_nat (length data)) (u64 (ptr + raw))); [lia|]. unfold lthen at 1, lwrap, onSys.
    destruct (sys_Commit _ _ (lo_sys s)) as [[dest|e] w] eqn:Ec; [|eexists _, _; split; [done|]; split; [done|]; split; [|done]].
    2: { intros Hco. apply (f_equal (fun x => is_Ok x.1)) in Ec. by rewrite (Hco _ _ (lo_sys s)) in Ec. }
    unfold lthen at 1.
    change (mo_codeBase (lo_module s)) with (mo_codeBase (lo_module (setSys w s))). replace va with (Z.of_nat (sc_va c)) by lia.
    assert (Hc0 : content c = bytesAt (Z.to_nat ptr) (Z.to_nat raw) data)
      by (unfold content; by rewrite Eraw, (proj2 (Nat.eqb_neq (Z.to_nat raw) 0)) by lia).
    rewrite <- Hc0. rewrite store_place by (rewrite ?Hc; done). set (s1 := setImage _ _).
    change (mo_codeBase (lo_module (setSys w s))) with (mo_codeBase (lo_module s1)).
    assert (Hlen : length (lo_image s1) = length (lo_image s)) by (apply splice_length; by rewrite Hc).
    rewrite wr_physical by (rewrite ?Hlen; done). eexists _, _. split; [done|]. split; [done|]. split; [done|].
    intros _. by eexists.
Qed.

(** After one section the headers describe the same sections, and nothing but its
    place and the address in its header has changed. *)
Lemma copied_length image i physical : laidOut data alignment first n image -> (i < n)%nat ->
  length (copied image i physical) = length image.
Proof.
  intros Hl Hi. pose proof (ly_headers _ _ _ _ _ Hl). pose proof (ly_inside _ _ _ _ _ Hl i Hi) as Hin. unfold inside in Hin.
  unfold copied. rewrite !splice_length; rewrite ?leBytes_length, ?splice_length; rewrite ?content_length by done; unfold place in *; cbn in *; lia.
Qed.
Lemma copied_apart image i physical u : laidOut data alignment first n image -> (i < n)%nat ->
  apart (place (sec image i)) u -> apart (first + 40 * i + 8, 4)%nat u ->
  bytesAt u.1 u.2 (copied image i physical) = bytesAt u.1 u.2 image.
Proof.
  intros Hl Hi Ha Hp. pose proof (ly_headers _ _ _ _ _ Hl). pose proof (ly_inside _ _ _ _ _ Hl i Hi) as Hin. unfold inside in Hin.
  unfold copied. destruct u as [o m].
  rewrite bytesAt_splice; [apply bytesAt_splice|..]; rewrite ?leBytes_length, ?splice_length; rewrite ?content_length by done;
    unfold place in *; cbn in *; lia || done.
Qed.
Lemma copied_sections image i physical j : laidOut data alignment first n image -> (i < n)%nat -> (j < n)%nat ->
  sec (copied image i physical) j = sec image j.
Proof.
  intros Hl Hi Hj. pose proof (ly_table _ _ _ _ _ Hl i Hi) as Ht.
  assert (Hf : forall o, (12 <= o)%nat -> (o + 4 <= 40)%nat ->
    fieldAt (first + 40 * j + o) 4 (copied image i physical) = fieldAt (first + 40 * j + o) 4 image).
  { intros o Ho Ho'. unfold fieldAt. f_equal. apply (copied_apart image i physical (first + 40 * j + o, 4)%nat Hl Hi);
      unfold apart in *; cbn in *; lia. }
  unfold sectionOf. by rewrite !Hf by lia.
Qed.
Lemma copied_laidOut image i physical : laidOut data alignment first n image -> (i < n)%nat ->
  laidOut data alignment first n (copied image i physical).
Proof.
  intros Hl Hi. pose proof (copied_length image i physical Hl Hi) as Hlen. split.
  - rewrite Hlen. apply Hl.
  - intros j Hj. unfold inside. rewrite copied_sections, Hlen by done. by apply Hl.
  - intros j k Hj Hk Hjk. rewrite !copied_sections by done. by apply Hl.
  - intros j Hj. rewrite copied_sections by done. by apply Hl.
  - intros j Hj. rewrite copied_sections by done. by apply Hl.
Qed.
Lemma copied_content image i physical : laidOut data alignment first n image -> (i < n)%nat ->
  let c := sec image i in bytesAt (place c).1 (place c).2 (copied image i physical) = content c.
Proof.
  intros Hl Hi. cbn zeta. pose proof (ly_headers _ _ _ _ _ Hl). pose proof (ly_inside _ _ _ _ _ Hl i Hi) as Hin. unfold inside in Hin.
  pose proof (ly_table _ _ _ _ _ Hl i Hi) as Ht. pose proof (content_length image i Hl Hi) as Hc. unfold copied.
  rewrite bytesAt_splice.
  - rewrite <- Hc. apply bytesAt_spliced. by rewrite Hc.
  - rewrite leBytes_length, splice_length; [lia|]. by rewrite Hc.
  - rewrite leBytes_length. unfold apart in *. cbn in *. lia.
Qed.

(** The loop from section [i] on: sections before it stay, sections from it on are
    copied, and so is nothing else. *)
Lemma sectionLoop_copies m i (s : loader) :
  laidOut data alignment first n (lo_image s) -> (i + m = n)%nat -> Z.of_nat (length (lo_image s)) < 2 ^ 62 ->
  exists r s', sectionLoop data (Z.of_nat alignment) (mo_codeBase (lo_module s) + Z.of_nat first) m (Z.of_nat i) s = Some (r, s')
  /\ (commits W -> is_Ok r = true)
  /\ (is_Ok r = true ->
      length (lo_image s') = length (lo_image s)
      /\ (forall j, (i <= j < n)%nat -> let c := sec (lo_image s) j in bytesAt (place c).1 (place c).2 (lo_image s') = content c)
      /\ forall u, (forall j, (i <= j < n)%nat -> apart (place (sec (lo_image s) j)) u /\ apart (first + 40 * j + 8, 4)%nat u) ->
           bytesAt u.1 u.2 (lo_image s') = bytesAt u.1 u.2 (lo_image s)).
Proof.
  revert i s. induction m as [|m IH]; intros i s Hl Hi Hb; cbn [sectionLoop].
  { exists (Ok tt), s. split; [done|]. split; [done|]. intros _. split; [done|]. split; [intros j Hj; lia|done]. }
  unfold lthen. destruct (copySection_copies s i Hl ltac:(lia) Hb) as (r & s1 & E & Em & Hco & Hok). rewrite E.
  destruct r as [[]|e]; [|by eexists _, _]. destruct (Hok eq_refl) as [physical Eim].
  pose proof (copied_length (lo_image s) i physical Hl ltac:(lia)) as Hlen.
  pose proof (copied_laidOut (lo_image s) i physical Hl ltac:(lia)) as Hl1. rewrite <- Eim in Hlen, Hl1.
  destruct (IH (S i) s1 Hl1 ltac:(lia) ltac:(by rewrite Hlen)) as (r & s2 & E2 & Hco2 & H2). rewrite Em in E2.
  replace (Z.of_nat i + 1) with (Z.of_nat (S i)) by lia. rewrite E2. exists r, s2. split; [done|]. split; [done|]. intros Hr.
  destruct (H2 Hr) as (Hlen2 & Hcont & Hoth). split; [congruence|].
  assert (Hsec : forall j, (j < n)%nat -> sec (lo_image s1) j = sec (lo_image s) j)
    by (intros j Hj; rewrite Eim; apply copied_sections; (done || lia)).
  assert (Hout : forall u, (forall j, (i <= j < n)%nat -> apart (place (sec (lo_image s) j)) u /\ apart (first + 40 * j + 8, 4)%nat u) ->
           bytesAt u.1 u.2 (lo_image s2) = bytesAt u.1 u.2 (lo_image s)).
  { intros u Hu. rewrite Hoth by (intros j Hj; rewrite Hsec by lia; apply Hu; lia). rewrite Eim.
    destruct (Hu i ltac:(lia)). by apply copied_apart; [done|lia|..]. }
  split; [|done]. intros j Hj. destruct (decide (j = i)) as [->|Hn].
  - cbn zeta. rewrite Hoth; [rewrite Eim; apply copied_content; [done|lia]|]. intros k Hk. rewrite Hsec by lia.
    split; [apply Hl; lia|]. pose proof (ly_table _ _ _ _ _ Hl i ltac:(lia)) as Ht. unfold apart in *. cbn in *. lia.
  - specialize (Hcont j ltac:(lia)). cbn zeta in Hcont. by rewrite Hsec in Hcont by lia.
Qed.
End Copying.

(** The headers of the state: where they are, and the sections they announce. *)
Definition announces {W} (s : loader W) (ho first n : nat) : Prop :=
  mo_headers (lo_module s) = mo_codeBase (lo_module s) + Z.of_nat ho
  /\ (ho + 264 <= length (lo_image s))%nat
  /\ Z.of_nat first = Z.of_nat ho + o_OptionalHeader + fieldAt (ho + 20) 2 (lo_image s)
  /\ Z.of_nat n = fieldAt (ho + 6) 2 (lo_image s).

(** C20: Where the headers in the image announce sections that lie in it apart from
    each other and from the headers, copySections stays inside the image; when
    Windows commits the memory it succeeds with every section holding its bytes of
    the file, or zeroes, and no other byte changed than the addresses it notes in
    the headers. *)
Theorem copySections_copies {W} `{LoaderSystem W} (data : gostring) (alignment ho first n : nat) (s : loader W) :
  alignment <> 0%nat -> Z.of_nat (length (lo_image s)) < 2 ^ 62 ->
  0 <= mo_codeBase (lo_module s) < 2 ^ 62 -> announces s ho first n -> laidOut data alignment first n (lo_image s) ->
  exists r s', copySections data (Z.of_nat alignment) s = Some (r, s')
  /\ (commits W -> is_Ok r = true)
  /\ (is_Ok r = true ->
      length (lo_image s') = length (lo_image s)
      /\ (forall j, (j < n)%nat -> let c := sectionOf (lo_image s) first j in
           bytesAt (place alignment c).1 (place alignment c).2 (lo_image s') = content data alignment c)
      /\ forall u, (forall j, (j < n)%nat -> apart (place alignment (sectionOf (lo_image s) first j)) u /\ apart (first + 40 * j + 8, 4)%nat u) ->
           bytesAt u.1 u.2 (lo_image s') = bytesAt u.1 u.2 (lo_image s)).
Proof.
  intros Hal Hb Hbase (Hh & Hho & Hfirst & Hn) Hl. unfold copySections, Sections, headerField, headers, lget.
  unfold lthen at 1 2 3 4 5 6. rewrite Hh. change o_SizeOfOptionalHeader with (Z.of_nat 20). change o_NumberOfSections with (Z.of_nat 6).
  rewrite <- !Z.add_assoc, <- !Nat2Z.inj_add, !rd_field by (lia || (unfold inside; cbn; lia)).
  rewrite Hh, <- Z.add_assoc, <- Nat2Z.inj_add, rd_field by (lia || (unfold inside; cbn; lia)). unfold lret.
  replace (u64 _) with (mo_codeBase (lo_module s) + Z.of_nat first).
  2: { unfold u64. pose proof (ly_headers _ _ _ _ _ Hl). rewrite Z.mod_small; lia. }
  rewrite <- Hn, Nat2Z.id.
  destruct (sectionLoop_copies data alignment first n Hal n 0 s Hl eq_refl Hb) as (r & s' & E & Hco & Hok).
  exists r, s'. split; [exact E|]. split; [exact Hco|]. intros Hr. destruct (Hok Hr) as (H1 & H2 & H3). split; [done|]. split.
  - intros j Hj. apply H2. lia.
  - intros u Hu. apply H3. intros j Hj. apply Hu. lia.
Qed.
