(* ===== verification/MemmodExample.v ===== *)
(** * A small library, loaded

    A system that gives out memory from a counter, a library of one section with
    an export and a relocation, and what becomes of it. *)

From stdpp Require Import gmultiset.
From S2P Require Import Prelude GoStrings GoNum Netip Config Name Parser ConfWf Driver Effects Memmod MemmodTheorems MemmodReloc MemmodSections.
Local Open Scope Z_scope.

(** Memory is given at the counter and nowhere else; commits answer with the start
    of the page; the functions of the library return 1. *)
#[export] Instance counterSystem : LoaderSystem Z := {|
  sys_Reserve address size w := if (address =? 0) && (0 <? w) && (w <? 2 ^ 47) then (Ok w, w + 65536) else (Err (ErrCode 487), w);
  sys_Commit address size w := (Ok (address / 4096 * 4096), w);
  sys_Decommit address size w := w;
  sys_Release address w := w;
  sys_Protect address size protect w := (Ok PAGE_READWRITE, w);
  sys_LoadLibraryEx name w := (Err (ErrCode 126), w);
  sys_FreeLibrary h w := w;
  sys_GetProcAddress h name w := (Err (ErrCode 127), w);
  sys_GetProcAddressByOrdinal h n w := (Err (ErrCode 127), w);
  sys_RtlAddFunctionTable a n base w := (true, w);
  sys_RtlDeleteFunctionTable a w := w;
  sys_Call f args image w := (1, image, w);
  sys_KernelBase w := Err (ErrCode 126);
  sys_NewCallback w := 4096;
  sys_PatchKernelBase a v w := w
|}.
#[export] Instance counterLaws : LoaderLaws Z.
Proof.
  split. intros address size w a w'. cbn. destruct (_ && _) eqn:E; [|done]. intros [= <- <-].
  apply andb_true_iff in E as [[_ E1]%andb_true_iff E2]. lia.
Qed.

(** The bytes [bs] put at each offset. *)
Definition build (size : nat) (l : list (nat * gostring)) : gostring := foldl (fun image p => splice p.1 p.2 image) (zeroes size) l.

Definition library : gostring := build 768 [
  (0%nat, leBytes 2 IMAGE_DOS_SIGNATURE); (60%nat, leBytes 4 64);
  (64%nat, leBytes 4 IMAGE_NT_SIGNATURE); (68%nat, leBytes 2 IMAGE_FILE_MACHINE_AMD64); (70%nat, leBytes 2 1);
  (84%nat, leBytes 2 240); (86%nat, leBytes 2 IMAGE_FILE_DLL);
  (104%nat, leBytes 4 0x210); (112%nat, leBytes 8 0x180000000); (120%nat, leBytes 4 512); (144%nat, leBytes 4 1024);
  (148%nat, leBytes 4 512); (196%nat, leBytes 4 16);
  (200%nat, leBytes 4 528 ++ leBytes 4 40); (240%nat, leBytes 4 640 ++ leBytes 4 12);
  (336%nat, leBytes 4 256 ++ leBytes 4 512 ++ leBytes 4 256 ++ leBytes 4 512); (364%nat, leBytes 4 0x60000020);
  (512%nat, leBytes 8 0x180000210);
  (544%nat, leBytes 4 1 ++ leBytes 4 1 ++ leBytes 4 1 ++ leBytes 4 576 ++ leBytes 4 580 ++ leBytes 4 584);
  (576%nat, leBytes 4 0x210 ++ leBytes 4 588 ++ leBytes 2 0); (588%nat, str "Open");
  (640%nat, leBytes 4 512 ++ leBytes 4 12 ++ leBytes 2 0xa000 ++ leBytes 2 0)].

(** Nothing is loaded and the hook is in place. *)
Definition start_ : loader Z := mkLoader 65536 (newModule false) [] [] (Some (Ok tt)) ∅ ∅ ∅.

Definition loaded : loader Z := match LoadLibrary 5 library start_ with Some (_, s) => s | None => start_ end.

Lemma library_loads : LoadLibrary 5 library start_ = Some (Ok tt, loaded).
Proof. vm_compute. reflexivity. Qed.

(** The library was moved from its own base, and its pointer with it; its function
    is found by its name. *)
Example library_moved :
  mo_codeBase (lo_module loaded) = 65536 /\ fieldAt 512 8 (lo_image loaded) = 65536 + 0x210
  /\ match ProcAddressByName (str "Open") loaded with Some (Ok a, _) => a | _ => 0 end = 65536 + 0x210
  /\ match ProcAddressByName (str "Close") loaded with Some (r, _) => is_Ok r | _ => true end = false
  /\ match ProcAddressByOrdinal 1 loaded with Some (Ok a, _) => a | _ => 0 end = 65536 + 0x210.
Proof. vm_compute. auto. Qed.

Lemma LoadLibrary_releases_witness :
  exists s, Free loaded = Some (Ok tt, s) /\ lo_regions s = ∅ /\ lo_ranges s = [].
Proof.
  destruct (LoadLibrary_releases 5 library start_ loaded (Ok tt)) as (s & Ef & Hr & _ & _ & Hrg).
  - intros address size w a w' _. apply not_elem_of_nil.
  - exact library_loads.
  - exists s. split; [exact Ef|]. split; [exact Hr|exact Hrg].
Defined.

(** The image with the headers in place. *)
Definition placed : loader Z :=
  mkLoader 131072 (withHeaders (65536 + 64) (withCodeBase 65536 (newModule true))) (library ++ zeroes 256) [] (Some (Ok tt)) {[+ 65536 +]} ∅ ∅.

(** The same with a table of four entries: a pointer, the upper half of an address,
    a pair of instructions, and the padding. *)
Definition mixed : loader Z :=
  setImage (splice 640 (leBytes 4 512 ++ leBytes 4 16 ++ leBytes 2 0xa000 ++ leBytes 2 0x1008 ++ leBytes 2 0x700c ++ leBytes 2 0)
             (splice 524 (leBytes 4 (thumbPut 0xf240 0x5678) ++ leBytes 4 (thumbPut 0xf2c0 0x1234))
                (splice 244 (leBytes 4 16) (lo_image placed)))) placed.
Definition mixedTargets : list (nat * fieldKind) := [(512%nat, KDir64); (520%nat, KHigh); (524%nat, KThumb)].

Ltac by_leb := apply Nat.leb_le; vm_compute; reflexivity.

Lemma mixed_relocatable : relocatable mixed 64 640 16 mixedTargets.
Proof.
  split.
  - change (0 <= 65536 < 2 ^ 62). lia.
  - split; [reflexivity|lia].
  - vm_compute. reflexivity.
  - vm_compute. reflexivity.
  - discriminate.
  - vm_compute. reflexivity.
  - repeat (constructor; [by_leb|]). constructor.
  - repeat (constructor; [left; by_leb|]). constructor.
  - repeat (constructor; [right; by_leb|]). constructor.
  - split; [repeat (constructor; [left; by_leb|]); constructor|]. split; [constructor; [left; by_leb|constructor]|]. split; constructor.
Qed.

Lemma placed_relocatable : relocatable placed 64 640 12 [(512%nat, KDir64)].
Proof.
  split.
  - change (0 <= 65536 < 2 ^ 62). lia.
  - split; [reflexivity|lia].
  - vm_compute. reflexivity.
  - vm_compute. reflexivity.
  - discriminate.
  - vm_compute. reflexivity.
  - constructor; [by_leb|constructor].
  - constructor; [left; by_leb|constructor].
  - constructor; [right; by_leb|constructor].
  - split; constructor.
Qed.

(** The image with all kinds of entries is moved, and the plain one there and back. *)
Lemma relocation_round_trip_witness :
  performBaseRelocation 0x10000 mixed = Some (Ok true, setImage (moveAll 0x10000 (lo_image mixed) mixedTargets) mixed)
  /\ performBaseRelocation (u64 (- 0x10000)) (setImage (moveAll 0x10000 (lo_image placed) [(512%nat, KDir64)]) placed) = Some (Ok true, placed).
Proof.
  split.
  - refine (proj1 (relocation_round_trip 0x10000 mixed 64 640 16 mixedTargets _ mixed_relocatable _)); [lia|].
    constructor; [exact I|]. constructor; [exact I|]. constructor; [|constructor].
    split; [vm_compute; reflexivity|]. split; [vm_compute; reflexivity|]. vm_compute. reflexivity.
  - refine (proj2 (relocation_round_trip 0x10000 placed 64 640 12 [(512%nat, KDir64)] _ placed_relocatable _) _); [lia| |];
      (constructor; [exact I|constructor]).
Defined.
Example mixed_moved :
  let image := moveAll 0x10000 (lo_image mixed) mixedTargets in
  fieldAt 512 8 image = 0x180010210 /\ fieldAt 520 2 image = 1 /\ thumbAddress (bytesAt 524 8 image) = 0x12355678.
Proof. vm_compute. auto. Qed.

Lemma placed_laidOut : laidOut library 512 328 1 (lo_image placed).
Proof.
  split.
  - apply Nat.leb_le. vm_compute. reflexivity.
  - intros i Hi. replace i with 0%nat by lia. apply Nat.leb_le. vm_compute. reflexivity.
  - intros i j Hi Hj Hn. lia.
  - intros i Hi. replace i with 0%nat by lia. right. apply Nat.leb_le. vm_compute. reflexivity.
  - intros i Hi. replace i with 0%nat by lia. intros c Hc. apply Nat.leb_le. vm_compute. reflexivity.
Qed.

Lemma copySections_copies_witness :
  exists r s', copySections library 512 placed = Some (r, s') /\ is_Ok r = true /\ bytesAt 512 256 (lo_image s') = bytesAt 512 256 library.
Proof.
  destruct (copySections_copies library 512 64 328 1 placed) as (r & s' & E & Hco & Hok); [discriminate|vm_compute; reflexivity| | |exact placed_laidOut|].
  { change (0 <= 65536 < 2 ^ 62). lia. }
  { split; [reflexivity|]. split; [apply Nat.leb_le; vm_compute; reflexivity|]. split; vm_compute; reflexivity. }
  assert (Hr : is_Ok r = true) by (apply Hco; by intros a n w). exists r, s'. split; [exact E|]. split; [exact Hr|].
  destruct (Hok Hr) as (_ & Hc & _). exact (Hc 0%nat (Nat.lt_0_succ 0)).
Defined.

(** A MOVW and a MOVT that load 0x12345678. *)
Definition thumbPair : loader Z :=
  mkLoader 131072 (withCodeBase 65536 (newModule true)) (leBytes 4 (thumbPut 0xf240 0x5678) ++ leBytes 4 (thumbPut 0xf2c0 0x1234)) [] None ∅ ∅ ∅.

Lemma relocateThumb_adds_witness :
  exists r s', relocateThumb 0x10000 65536 thumbPair = Some (r, s') /\ thumbAddress (lo_image s') = 0x12355678.
Proof.
  destruct (relocateThumb_adds 0x10000 0 thumbPair) as (r & s' & E & Hfit & Hok); [lia|reflexivity|by_leb|vm_compute; reflexivity..|].
  exists r, s'. split; [exact E|]. rewrite Hok; [vm_compute; reflexivity|]. apply Hfit. split; [vm_compute; reflexivity|].
  split; vm_compute; reflexivity.
Defined.

(** Moved down by 64 kilobytes it is refused. *)
Example thumb_down : match relocateThumb (u64 (- 0x10000)) 65536 thumbPair with Some (r, _) => is_Ok r | None => true end = false.
Proof. vm_compute. reflexivity. Qed.

(** The section lies at 65536 + 512, inside the first page; its header notes the
    start of the page. *)
Example address_noted :
  match copySections library 512 placed with Some (_, s) => fieldAt 336 4 (lo_image s) | None => 0 end = 65536.
Proof. vm_compute. reflexivity. Qed.

(** Headers that announce no size of their own are not copied, and the index of
    the first section is out of range. *)
Definition headless : gostring := splice 112 (leBytes 8 65536) (splice 148 (leBytes 4 0) library).
Example headless_crashes : LoadLibrary 5 headless start_ = None.
Proof. vm_compute. reflexivity. Qed.
