(* ===== verification/Winipcfg.v ===== *)
(** * The network functions on top of the IP helper library: tunnel/winipcfg

    luid.go, winipcfg.go and the methods of types.go. The functions of the IP
    helper library, the registry and the service control manager are parameters;
    what the rest of the tunnel calls ([NetSystem]) is defined on them here. *)

From S2P Require Import Prelude GoStrings GoNum Netip Config Effects Driver Services TunnelNet.
Import TunnelNet.
Local Open Scope Z_scope.

Definition ERROR_INVALID_PARAMETER : Z := 87.
Definition ERROR_PROC_NOT_FOUND : Z := 127.
Definition DadStatePreferred : Z := 4.
Definition Infinite : Z := 0xffffffff.

(** windows.ERROR_BUFFER_OVERFLOW. *)
Definition bufferOverflow : goerr := ErrCode 111.

(** ** Rows *)

(** RawSockaddrInet is its 28 bytes. *)
Abbreviation RawSockaddrInet := gostring.

Definition SetAddr (addr : RawSockaddrInet) (netAddr : Addr) : result RawSockaddrInet :=
  match netAddr with
  | AddrZero => Err (ErrCode ERROR_INVALID_PARAMETER)
  | _ => Ok (SetAddrPort addr netAddr 0)
  end.

Record IPAddressPrefix : Type := mkIPPrefix { RawPrefix : RawSockaddrInet; PrefixLength : Z }.

Definition SetPrefix (prefix : IPAddressPrefix) (netPrefix : Prefix) : result IPAddressPrefix :=
  let? raw := SetAddr (RawPrefix prefix) (p_addr netPrefix) in
  Ok (mkIPPrefix raw (p_bits netPrefix mod 256)).

(** Prefix: an address of the row has no zone here. *)
Definition prefixOf (prefix : IPAddressPrefix) : Prefix :=
  match sockaddrAddr (RawPrefix prefix) with
  | AddrZero => mkPrefix AddrZero (-1)
  | a => PrefixFrom (withoutZone a) (PrefixLength prefix)
  end.

(** MibIPforwardRow2 with all of its fields. *)
Record forwardRow : Type := mkForwardRow {
  fw_InterfaceLUID : LUID;
  fw_InterfaceIndex : Z;
  fw_DestinationPrefix : IPAddressPrefix;
  fw_NextHop : RawSockaddrInet;
  fw_SitePrefixLength : Z;
  fw_ValidLifetime : Z;
  fw_PreferredLifetime : Z;
  fw_Metric : Z;
  fw_Protocol : Z;
  fw_Loopback : bool;
  fw_AutoconfigureAddress : bool;
  fw_Publish : bool;
  fw_Immortal : bool;
  fw_Age : Z;
  fw_Origin : Z
}.

Definition zeroSockaddr : RawSockaddrInet := zeroes sockaddrSize.

Definition zeroForward : forwardRow :=
  mkForwardRow 0 0 (mkIPPrefix zeroSockaddr 0) zeroSockaddr 0 0 0 0 0 false false false false 0 0.

(** The row with its key: interface, destination and next hop. *)
Definition withRoute (luid : LUID) (prefix : IPAddressPrefix) (nextHop : RawSockaddrInet) (r : forwardRow) : forwardRow :=
  mkForwardRow luid (fw_InterfaceIndex r) prefix nextHop (fw_SitePrefixLength r) (fw_ValidLifetime r)
    (fw_PreferredLifetime r) (fw_Metric r) (fw_Protocol r) (fw_Loopback r) (fw_AutoconfigureAddress r) (fw_Publish r)
    (fw_Immortal r) (fw_Age r) (fw_Origin r).
Definition withLifetimes (valid preferred : Z) (r : forwardRow) : forwardRow :=
  mkForwardRow (fw_InterfaceLUID r) (fw_InterfaceIndex r) (fw_DestinationPrefix r) (fw_NextHop r) (fw_SitePrefixLength r)
    valid preferred (fw_Metric r) (fw_Protocol r) (fw_Loopback r) (fw_AutoconfigureAddress r) (fw_Publish r)
    (fw_Immortal r) (fw_Age r) (fw_Origin r).
Definition withMetric (metric : Z) (r : forwardRow) : forwardRow :=
  mkForwardRow (fw_InterfaceLUID r) (fw_InterfaceIndex r) (fw_DestinationPrefix r) (fw_NextHop r) (fw_SitePrefixLength r)
    (fw_ValidLifetime r) (fw_PreferredLifetime r) metric (fw_Protocol r) (fw_Loopback r) (fw_AutoconfigureAddress r)
    (fw_Publish r) (fw_Immortal r) (fw_Age r) (fw_Origin r).

(** What the monitors read of a row. *)
Definition readForward (r : forwardRow) : MibIPforwardRow2 :=
  mkForward (fw_InterfaceLUID r) (fw_InterfaceIndex r) (prefixOf (fw_DestinationPrefix r)) (sockaddrAddr (fw_NextHop r))
    (fw_Metric r).

Record MibUnicastIPAddressRow : Type := mkUnicastRow {
  ua_Address : RawSockaddrInet;
  ua_InterfaceLUID : LUID;
  ua_InterfaceIndex : Z;
  ua_PrefixOrigin : Z;
  ua_SuffixOrigin : Z;
  ua_ValidLifetime : Z;
  ua_PreferredLifetime : Z;
  ua_OnLinkPrefixLength : Z;
  ua_SkipAsSource : bool;
  ua_DadState : Z;
  ua_ScopeID : Z;
  ua_CreationTimeStamp : Z
}.

Definition zeroUnicast : MibUnicastIPAddressRow := mkUnicastRow zeroSockaddr 0 0 0 0 0 0 0 false 0 0 0.

Definition withAddress (address : RawSockaddrInet) (luid : LUID) (bits : Z) (r : MibUnicastIPAddressRow)
    : MibUnicastIPAddressRow :=
  mkUnicastRow address luid (ua_InterfaceIndex r) (ua_PrefixOrigin r) (ua_SuffixOrigin r) (ua_ValidLifetime r)
    (ua_PreferredLifetime r) bits (ua_SkipAsSource r) (ua_DadState r) (ua_ScopeID r) (ua_CreationTimeStamp r).
Definition withPreferred (r : MibUnicastIPAddressRow) : MibUnicastIPAddressRow :=
  mkUnicastRow (ua_Address r) (ua_InterfaceLUID r) (ua_InterfaceIndex r) (ua_PrefixOrigin r) (ua_SuffixOrigin r) Infinite
    Infinite (ua_OnLinkPrefixLength r) (ua_SkipAsSource r) DadStatePreferred (ua_ScopeID r) (ua_CreationTimeStamp r).

(** MibIPInterfaceRow before a call fills it. *)
Definition zeroInterface : MibIPInterfaceRow := mkIPInterface false 0 false false 0 false 0 0 [].

(** The patch of MibIPInterfaceRow.get. *)
Definition patchSitePrefix (family : AddressFamily) (row : MibIPInterfaceRow) : MibIPInterfaceRow :=
  let length := ii_SitePrefixLength row in
  let length := match family with
                | AF_INET => if 32 <? length then 0 else length
                | AF_INET6 => if 128 <? length then 128 else length
                end in
  mkIPInterface (ii_RouterDiscoveryDisabled row) (ii_DadTransmits row) (ii_ManagedAddressConfigurationSupported row)
    (ii_OtherStatefulConfigurationSupported row) (ii_NLMTU row) (ii_UseAutomaticMetric row) (ii_Metric row) length
    (ii_others row).

(** An adapter with its DNS servers: an address is nil when it is of neither
    family. *)
Record IPAdapterAddresses : Type := mkAdapterAddresses {
  aa_addresses : adapterAddresses;
  aa_FirstDNSServerAddress : list (option Addr)
}.

Definition DnsInterfaceSettingsVersion1 : Z := 1.
Definition DnsInterfaceSettingsFlagIPv6 : Z := 1.
Definition DnsInterfaceSettingsFlagNameserver : Z := 2.
Definition DnsInterfaceSettingsFlagSearchList : Z := 4.

Record DnsInterfaceSettings : Type := mkDnsSettings {
  ds_Version : Z;
  ds_Flags : Z;
  ds_NameServer : list Z;
  ds_SearchList : list Z
}.

(** ** The library *)

(** A family of None is AF_UNSPEC. GetAdaptersAddresses gets the size of the
    buffer and leaves the size it needs. *)
Class IPHelper (W : Type) := {
  initializeIPForwardEntry : forwardRow -> forwardRow;
  getIPForwardTable2 : option AddressFamily -> W -> result (list forwardRow);
  getIPForwardEntry2 : forwardRow -> W -> result forwardRow;
  createIPForwardEntry2 : forwardRow -> M W unit;
  deleteIPForwardEntry2 : forwardRow -> M W unit;
  initializeUnicastIPAddressEntry : MibUnicastIPAddressRow -> MibUnicastIPAddressRow;
  getUnicastIPAddressTable : option AddressFamily -> W -> result (list MibUnicastIPAddressRow);
  getUnicastIPAddressEntry : MibUnicastIPAddressRow -> W -> result MibUnicastIPAddressRow;
  createUnicastIPAddressEntry : MibUnicastIPAddressRow -> M W unit;
  deleteUnicastIPAddressEntry : MibUnicastIPAddressRow -> M W unit;
  initializeIPInterfaceEntry : MibIPInterfaceRow -> MibIPInterfaceRow;
  getIPInterfaceEntry : LUID -> AddressFamily -> MibIPInterfaceRow -> W -> result MibIPInterfaceRow;
  setIPInterfaceEntry : LUID -> AddressFamily -> MibIPInterfaceRow -> M W unit;
  getIfEntry2 : LUID -> W -> result MibIfRow2;
  convertInterfaceLUIDToGUID : LUID -> W -> result gostring;
  convertInterfaceGUIDToLUID : gostring -> W -> result LUID;
  convertInterfaceIndexToLUID : Z -> W -> result LUID;
  win_GetAdaptersAddresses : option AddressFamily -> Z -> W -> result (list IPAdapterAddresses) * Z;
  setInterfaceDnsSettings : gostring -> DnsInterfaceSettings -> M W unit;
  reg_CreateKey : gostring -> M W Z;
  reg_SetStringValue : Z -> gostring -> gostring -> M W unit;
  reg_CloseKey : Z -> M W unit;
  dns_Connect : M W unit;
  dns_Disconnect : M W unit;
  dns_OpenService : gostring -> M W Z;
  dns_ControlParamChange : Z -> M W unit;
  dns_CloseService : Z -> M W unit
}.

(** What else the tunnel takes from the system. *)
Class TunSystem (W : Type) := {
  ts_StartedAtBoot : W -> bool;
  ts_ForceMTU : Z -> W -> W;
  ts_BindSocketToInterface4 : Z -> bool -> M W unit;
  ts_BindSocketToInterface6 : Z -> bool -> M W unit;
  ts_rebind : M W unit;
  ts_prefixOrder : gset Prefix -> list Prefix;
  ts_routeOrder : gset RouteData -> list RouteData
}.

Section Winipcfg.
Context {W : Type} `{IPHelper W}.

(** A call that reads the system. *)
Definition reading {A} (f : W -> result A) : M W A := fun w => (f w, w).

(** ** winipcfg.go *)

(** The loop that grows the buffer; [size] is its length. *)
Fixpoint adaptersLoop (fuel : nat) (family : option AddressFamily) (size : Z) (w : W) : result (list IPAdapterAddresses) :=
  match fuel with
  | O => Err (ErrText "out of fuel")
  | S fuel' =>
      match win_GetAdaptersAddresses family size w with
      | (Ok l, _) => Ok l
      | (Err e, size') =>
          if negb (bool_decide (e = bufferOverflow)) || (size' <=? size) then Err e
          else adaptersLoop fuel' family size' w
      end
  end.

Definition adaptersAddresses (fuel : nat) (family : option AddressFamily) (w : W) : result (list IPAdapterAddresses) :=
  adaptersLoop fuel family 15000 w.

(** GetIPForwardTable2 copies the table and frees it. *)
Definition forwardTable (family : option AddressFamily) (w : W) : result (list MibIPforwardRow2) :=
  let? tab := getIPForwardTable2 family w in Ok (map readForward tab).

(** ** luid.go: interfaces *)

Definition luid_IPInterface (luid : LUID) (family : AddressFamily) (w : W) : result MibIPInterfaceRow :=
  let? row := getIPInterfaceEntry luid family (initializeIPInterfaceEntry zeroInterface) w in
  Ok (patchSitePrefix family row).

Definition luid_GUID (luid : LUID) (w : W) : result gostring := convertInterfaceLUIDToGUID luid w.
Definition LUIDFromGUID (guid : gostring) (w : W) : result LUID := convertInterfaceGUIDToLUID guid w.
Definition LUIDFromIndex (index : Z) (w : W) : result LUID := convertInterfaceIndexToLUID index w.

(** ** luid.go: addresses *)

Definition luid_IPAddress (luid : LUID) (addr : Addr) (w : W) : result MibUnicastIPAddressRow :=
  let row := withAddress zeroSockaddr luid 0 zeroUnicast in
  let? address := SetAddr (ua_Address row) addr in
  getUnicastIPAddressEntry (withAddress address luid 0 row) w.

Definition unicastRow (luid : LUID) (address : Prefix) (r : MibUnicastIPAddressRow) : result MibUnicastIPAddressRow :=
  let? raw := SetAddr (ua_Address r) (p_addr address) in
  Ok (withAddress raw luid (p_bits address mod 256) r).

Definition luid_AddIPAddress (luid : LUID) (address : Prefix) : M W unit :=
  do! row := mpure (unicastRow luid address (withPreferred (initializeUnicastIPAddressEntry zeroUnicast))) in
  createUnicastIPAddressEntry row.

Fixpoint luid_AddIPAddresses (luid : LUID) (addresses : list Prefix) : M W unit :=
  match addresses with
  | [] => mret tt
  | a :: rest => do! _ := luid_AddIPAddress luid a in luid_AddIPAddresses luid rest
  end.

Definition luid_DeleteIPAddress (luid : LUID) (address : Prefix) : M W unit :=
  do! row := mpure (unicastRow luid address (initializeUnicastIPAddressEntry zeroUnicast)) in
  deleteUnicastIPAddressEntry row.

(** The loop of FlushIPAddresses, which drops the errors of Delete. *)
Fixpoint deleteAddresses (luid : LUID) (t : list MibUnicastIPAddressRow) (w : W) : W :=
  match t with
  | [] => w
  | row :: rest =>
      deleteAddresses luid rest (if ua_InterfaceLUID row =? luid then (deleteUnicastIPAddressEntry row w).2 else w)
  end.

Definition luid_FlushIPAddresses (luid : LUID) (family : option AddressFamily) : M W unit :=
  do! t := reading (getUnicastIPAddressTable family) in
  fun w => (Ok tt, deleteAddresses luid t w).

Definition luid_SetIPAddresses (luid : LUID) (addresses : list Prefix) : M W unit :=
  do! _ := luid_FlushIPAddresses luid None in luid_AddIPAddresses luid addresses.

(** ** luid.go: routes *)

Definition routeRow (luid : LUID) (destination : Prefix) (nextHop : Addr) (r : forwardRow) : result forwardRow :=
  let? prefix := SetPrefix (fw_DestinationPrefix r) destination in
  let? hop := SetAddr (fw_NextHop r) nextHop in
  Ok (withRoute luid prefix hop r).

Definition luid_Route (luid : LUID) (destination : Prefix) (nextHop : Addr) (w : W) : result forwardRow :=
  let? row := routeRow luid destination nextHop (withLifetimes Infinite Infinite (initializeIPForwardEntry zeroForward)) in
  getIPForwardEntry2 row w.

Definition luid_AddRoute (luid : LUID) (destination : Prefix) (nextHop : Addr) (metric : Z) : M W unit :=
  do! row := mpure (routeRow luid destination nextHop (initializeIPForwardEntry zeroForward)) in
  createIPForwardEntry2 (withMetric metric row).

Fixpoint luid_AddRoutes (luid : LUID) (routesData : list RouteData) : M W unit :=
  match routesData with
  | [] => mret tt
  | rd :: rest =>
      do! _ := luid_AddRoute luid (rd_Destination rd) (rd_NextHop rd) (rd_Metric rd) in luid_AddRoutes luid rest
  end.

Definition luid_DeleteRoute (luid : LUID) (destination : Prefix) (nextHop : Addr) : M W unit :=
  do! row := mpure (routeRow luid destination nextHop (initializeIPForwardEntry zeroForward)) in
  do! row := reading (getIPForwardEntry2 row) in
  deleteIPForwardEntry2 row.

(** The loop of FlushRoutes goes on after an error and keeps the last one. *)
Fixpoint deleteForwards (luid : LUID) (t : list forwardRow) (err : result unit) (w : W) : result unit * W :=
  match t with
  | [] => (err, w)
  | row :: rest =>
      if fw_InterfaceLUID row =? luid then
        let '(r, w') := deleteIPForwardEntry2 row w in
        deleteForwards luid rest (match r with Err e => Err e | Ok _ => err end) w'
      else deleteForwards luid rest err w
  end.

Definition luid_FlushRoutes (luid : LUID) (family : option AddressFamily) : M W unit :=
  do! t := reading (getIPForwardTable2 family) in
  deleteForwards luid t (Ok tt).

Definition luid_SetRoutes (luid : LUID) (routesData : list RouteData) : M W unit :=
  do! _ := luid_FlushRoutes luid None in luid_AddRoutes luid routesData.

(** ** luid.go: DNS *)

Fixpoint dnsServers (l : list (option Addr)) : result (list Addr) :=
  match l with
  | [] => Ok []
  | None :: _ => Err (ErrCode ERROR_INVALID_PARAMETER)
  | Some a :: rest => let? r := dnsServers rest in Ok (a :: r)
  end.

Fixpoint dnsOf (luid : LUID) (addresses : list IPAdapterAddresses) : result (list Addr) :=
  match addresses with
  | [] => Ok []
  | addr :: rest =>
      if ad_LUID (aa_addresses addr) =? luid then
        let? l := dnsServers (aa_FirstDNSServerAddress addr) in
        let? r := dnsOf luid rest in Ok (l ++ r)
      else dnsOf luid rest
  end.

Definition luid_DNS (fuel : nat) (luid : LUID) (w : W) : result (list Addr) :=
  let? addresses := adaptersAddresses fuel None w in dnsOf luid addresses.

Definition dnsRegPath (family : AddressFamily) (guid : gostring) : gostring :=
  match family with
  | AF_INET => str "SYSTEM\CurrentControlSet\Services\Tcpip\Parameters\Interfaces\" ++ guid
  | AF_INET6 => str "SYSTEM\CurrentControlSet\Services\Tcpip6\Parameters\Interfaces\" ++ guid
  end.

(** The cache is told last, and its errors do not matter. *)
Definition tellCache : M W unit :=
  fun w => match dns_Connect w with
           | (Err _, w) => (Ok tt, w)
           | (Ok _, w) =>
               let w := match dns_OpenService (str "dnscache") w with
                        | (Err _, w) => w
                        | (Ok s, w) => (dns_CloseService s (dns_ControlParamChange s w).2).2
                        end in
               (Ok tt, (dns_Disconnect w).2)
           end.

Definition setRegistryDNS (key : Z) (servers domains : gostring) : M W unit :=
  do! _ := mwrap (ErrWrap "setting NameServer registry value" []) (reg_SetStringValue key (str "NameServer") servers) in
  do! _ := mwrap (ErrWrap "setting SearchList registry value" []) (reg_SetStringValue key (str "SearchList") domains) in
  tellCache.

(** Before Windows 10 1809. *)
Definition legacyDNS (family : AddressFamily) (guid servers domains : gostring) : M W unit :=
  do! key := mwrap (ErrWrap "opening interface registry key" []) (reg_CreateKey (dnsRegPath family guid)) in
  fun w => let '(r, w) := setRegistryDNS key servers domains w in (r, (reg_CloseKey key w).2).

Definition dnsSettings (family : AddressFamily) (servers16 domains16 : list Z) : DnsInterfaceSettings :=
  let flags := Z.lor DnsInterfaceSettingsFlagNameserver DnsInterfaceSettingsFlagSearchList in
  mkDnsSettings DnsInterfaceSettingsVersion1
    (match family with AF_INET => flags | AF_INET6 => Z.lor flags DnsInterfaceSettingsFlagIPv6 end) servers16 domains16.

Definition luid_SetDNS (luid : LUID) (family : AddressFamily) (servers : list Addr) (domains : list gostring) : M W unit :=
  let filteredServers := map AddrString (List.filter (ofFamily family) servers) in
  do! servers16 := mpure (UTF16FromString (Join filteredServers (str ","))) in
  do! domains16 := mpure (UTF16FromString (Join domains (str ","))) in
  do! guid := reading (luid_GUID luid) in
  do! r := try (setInterfaceDnsSettings guid (dnsSettings family servers16 domains16)) in
  match r with
  | Ok _ => mret tt
  | Err e => if bool_decide (asErrno e = Some ERROR_PROC_NOT_FOUND)
             then legacyDNS family guid (Join filteredServers (str ",")) (Join domains (str ","))
             else mfail e
  end.

Definition luid_FlushDNS (luid : LUID) (family : AddressFamily) : M W unit := luid_SetDNS luid family [] [].

(** ** The interface of the tunnel *)

Definition luidNet `{TunSystem W} (fuel : nat) : NetSystem W := {|
  GetIPForwardTable2 family w := forwardTable (Some family) w;
  LUID_Interface l w := getIfEntry2 l w;
  LUID_IPInterface := luid_IPInterface;
  IPInterface_Set := setIPInterfaceEntry;
  AddRoute := luid_AddRoute;
  DeleteRoute l p a w := (luid_DeleteRoute l p a w).2;
  FlushRoutes l family := luid_FlushRoutes l (Some family);
  AddIPAddress := luid_AddIPAddress;
  FlushIPAddresses l family := luid_FlushIPAddresses l (Some family);
  SetDNS := luid_SetDNS;
  GetAdaptersAddresses family w := let? l := adaptersAddresses fuel (Some family) w in Ok (map aa_addresses l);
  DeleteIPAddress l p w := (luid_DeleteIPAddress l p w).2;
  StartedAtBoot := ts_StartedAtBoot;
  ForceMTU := ts_ForceMTU;
  BindSocketToInterface4 := ts_BindSocketToInterface4;
  BindSocketToInterface6 := ts_BindSocketToInterface6;
  rebind := ts_rebind;
  prefixOrder := ts_prefixOrder;
  routeOrder := ts_routeOrder
|}.
End Winipcfg.
