(* ===== verification/WinipcfgTheorems.v ===== *)
(** * The network functions keep their promises

    What the tunnel relies on ([NetConfigLaws]) holds of luid.go on top of any IP
    helper library that does what its documentation says. *)

From S2P Require Import Prelude GoStrings GoNum Netip Config Effects Driver Services Firewall TunnelNet TunnelConfig Winipcfg.
Import TunnelNet.
Local Open Scope Z_scope.

(** ** Addresses in rows *)

Lemma SetAddr_read addr a :
  plainAddr a -> exists raw, SetAddr addr a = Ok raw /\ sockaddrAddr raw = a.
Proof.
  intros [Ha Hz]. destruct a as [|v|v zone]; [done|..]; cbn in Ha, Hz; eexists; (split; [reflexivity|]); cbn [SetAddrPort].
  - assert (Hfam : fieldAt 0 2 (leBytes 2 Driver.AF_INET ++ beBytes 2 0 ++ beBytes 4 v ++ zeroes 8 ++ drop 16 addr) = Driver.AF_INET)
      by (unfold Driver.AF_INET; readfield).
    unfold sockaddrAddr. rewrite Hfam. cbn [Z.eqb Driver.AF_INET Pos.eqb]. f_equal.
    rewrite <- (beValue_beBytes 4 v) at 2 by (cbn; lia). f_equal; readfield.
  - injection Hz as <-.
    assert (Hfam : fieldAt 0 2 (leBytes 2 Driver.AF_INET6 ++ beBytes 2 0 ++ leBytes 4 0 ++ beBytes 16 v ++ leBytes 4 0) = Driver.AF_INET6)
      by (unfold Driver.AF_INET6; readfield).
    assert (Hsc : fieldAt 24 4 (leBytes 2 Driver.AF_INET6 ++ beBytes 2 0 ++ leBytes 4 0 ++ beBytes 16 v ++ leBytes 4 0) = 0) by readfield.
    unfold sockaddrAddr. rewrite Hfam, Hsc. cbn [Z.eqb Driver.AF_INET Driver.AF_INET6 Pos.eqb negb]. f_equal.
    rewrite <- (beValue_beBytes 16 v) at 2 by (cbn; lia). f_equal; readfield.
Qed.

Lemma SetPrefix_read prefix p :
  validPrefix p -> exists raw, SetPrefix prefix p = Ok raw /\ prefixOf raw = p /\ sockaddrAddr (RawPrefix raw) = p_addr p.
Proof.
  intros Hv. pose proof Hv as (Ha & Hz & Hb). destruct (SetAddr_read (RawPrefix prefix) (p_addr p)) as (raw & E & Hr); [done|].
  unfold SetPrefix. rewrite E. cbn [rbind]. eexists. split; [reflexivity|]. split; [|done].
  assert (Hbits : p_bits p mod 256 = p_bits p). { apply Z.mod_small. destruct (p_addr p); cbn in Hb; lia. }
  unfold prefixOf. cbn [RawPrefix PrefixLength]. rewrite Hr, Hbits. pose proof (PrefixFrom_valid p Hv) as Hp.
  destruct (p_addr p) as [|v|v z]; [done|exact Hp|]. cbn in Hz. injection Hz as <-. exact Hp.
Qed.

(** ** What the library promises *)

Record ipState : Type := mkIPState {
  iv_routes : list forwardRow;
  iv_addresses : list MibUnicastIPAddressRow;
  iv_interface : LUID -> AddressFamily -> MibIPInterfaceRow;
  iv_dns : gostring -> AddressFamily -> result (list Z) * result (list Z)
}.

Definition set_routes (l : list forwardRow) (s : ipState) : ipState :=
  mkIPState l (iv_addresses s) (iv_interface s) (iv_dns s).
Definition set_addresses (l : list MibUnicastIPAddressRow) (s : ipState) : ipState :=
  mkIPState (iv_routes s) l (iv_interface s) (iv_dns s).
Definition set_interface (luid : LUID) (family : AddressFamily) (i : MibIPInterfaceRow) (s : ipState) : ipState :=
  mkIPState (iv_routes s) (iv_addresses s)
    (fun l f => if bool_decide (l = luid /\ f = family) then i else iv_interface s l f) (iv_dns s).
Definition set_dns (guid : gostring) (family : AddressFamily) (g : result (list Z) * result (list Z) -> result (list Z) * result (list Z))
    (s : ipState) : ipState :=
  mkIPState (iv_routes s) (iv_addresses s) (iv_interface s)
    (fun g' f => if bool_decide (g' = guid /\ f = family) then g (iv_dns s g' f) else iv_dns s g' f).

(** What identifies a row, and what a call keeps of the row it is given. *)
Definition routeKey (r : forwardRow) : LUID * gostring * Z * gostring :=
  (fw_InterfaceLUID r, RawPrefix (fw_DestinationPrefix r), PrefixLength (fw_DestinationPrefix r), fw_NextHop r).
Definition addressKey (r : MibUnicastIPAddressRow) : LUID * gostring := (ua_InterfaceLUID r, ua_Address r).

Definition forwardFamily (family : AddressFamily) (r : forwardRow) : bool :=
  ofFamily family (sockaddrAddr (RawPrefix (fw_DestinationPrefix r))).
Definition unicastFamily (family : AddressFamily) (r : MibUnicastIPAddressRow) : bool :=
  ofFamily family (sockaddrAddr (ua_Address r)).

(** The GUIDs of interfaces are fixed. A key of the registry remembers its
    path. *)
Class IPHelperLaws (W : Type) `{IPHelper W} := {
  il_view : W -> ipState;
  il_guid : LUID -> gostring;
  il_key : W -> Z -> option gostring;
  il_LUIDToGUID : forall l w g, convertInterfaceLUIDToGUID l w = Ok g -> g = il_guid l;
  il_forwardTable : forall f w t, getIPForwardTable2 (Some f) w = Ok t ->
    t ≡ₚ List.filter (forwardFamily f) (iv_routes (il_view w));
  il_createForward : forall row w r w', createIPForwardEntry2 row w = (r, w') ->
    match r with
    | Ok _ => exists row', routeKey row' = routeKey row /\ fw_Metric row' = fw_Metric row
        /\ il_view w' = set_routes (iv_routes (il_view w) ++ [row']) (il_view w)
    | Err _ => il_view w' = il_view w
    end;
  il_deleteForward : forall row w r w', deleteIPForwardEntry2 row w = (r, w') ->
    match r with
    | Ok _ => il_view w' = set_routes (List.filter (fun r' => negb (bool_decide (routeKey r' = routeKey row)))
                                         (iv_routes (il_view w))) (il_view w)
    | Err _ => il_view w' = il_view w
    end;
  il_unicastTable : forall f w t, getUnicastIPAddressTable (Some f) w = Ok t ->
    t ≡ₚ List.filter (unicastFamily f) (iv_addresses (il_view w));
  il_createUnicast : forall row w r w', createUnicastIPAddressEntry row w = (r, w') ->
    match r with
    | Ok _ => exists row', addressKey row' = addressKey row /\ ua_OnLinkPrefixLength row' = ua_OnLinkPrefixLength row
        /\ il_view w' = set_addresses (iv_addresses (il_view w) ++ [row']) (il_view w)
    | Err _ => il_view w' = il_view w
    end;
  il_deleteUnicast : forall row w r w', deleteUnicastIPAddressEntry row w = (r, w') ->
    match r with
    | Ok _ => il_view w' = set_addresses (List.filter (fun r' => negb (bool_decide (addressKey r' = addressKey row)))
                                            (iv_addresses (il_view w))) (il_view w)
    | Err _ => il_view w' = il_view w
    end;
  il_setInterface : forall l f i w r w', setIPInterfaceEntry l f i w = (r, w') ->
    il_view w' = match r with Ok _ => set_interface l f i (il_view w) | Err _ => il_view w end;
  il_setDns : forall g f ns sl w r w', setInterfaceDnsSettings g (dnsSettings f ns sl) w = (r, w') ->
    il_view w' = match r with Ok _ => set_dns g f (fun _ => (Ok ns, Ok sl)) (il_view w) | Err _ => il_view w end;
  il_createKey : forall p w r w', reg_CreateKey p w = (r, w') ->
    il_view w' = il_view w /\ match r with Ok k => il_key w' k = Some p | Err _ => True end;
  il_setNameServer : forall k v w r w' f g, reg_SetStringValue k (str "NameServer") v w = (r, w') ->
    il_key w k = Some (dnsRegPath f g) ->
    il_key w' k = il_key w k
    /\ il_view w' = match r with Ok _ => set_dns g f (fun x => (UTF16FromString v, x.2)) (il_view w) | Err _ => il_view w end;
  il_setSearchList : forall k v w r w' f g, reg_SetStringValue k (str "SearchList") v w = (r, w') ->
    il_key w k = Some (dnsRegPath f g) ->
    il_key w' k = il_key w k
    /\ il_view w' = match r with Ok _ => set_dns g f (fun x => (x.1, UTF16FromString v)) (il_view w) | Err _ => il_view w end;
  il_closeKey : forall k w, il_view (reg_CloseKey k w).2 = il_view w;
  il_connect : forall w, il_view (dns_Connect w).2 = il_view w;
  il_disconnect : forall w, il_view (dns_Disconnect w).2 = il_view w;
  il_openService : forall n w, il_view (dns_OpenService n w).2 = il_view w;
  il_paramChange : forall s w, il_view (dns_ControlParamChange s w).2 = il_view w;
  il_closeService : forall s w, il_view (dns_CloseService s w).2 = il_view w
}.

Section Luid.
Context {W : Type} `{IPHelperLaws W} `{TunSystem W} (fuel : nat).

(** ** One family of one interface *)

Definition forwardOf (luid : LUID) (family : AddressFamily) (r : forwardRow) : bool :=
  (fw_InterfaceLUID r =? luid) && forwardFamily family r.
Definition unicastOf (luid : LUID) (family : AddressFamily) (r : MibUnicastIPAddressRow) : bool :=
  (ua_InterfaceLUID r =? luid) && unicastFamily family r.

Definition readRoute (r : forwardRow) : Prefix * Addr * Z :=
  (prefixOf (fw_DestinationPrefix r), sockaddrAddr (fw_NextHop r), fw_Metric r).
Definition readAddress (r : MibUnicastIPAddressRow) : Prefix :=
  PrefixFrom (sockaddrAddr (ua_Address r)) (ua_OnLinkPrefixLength r).

Definition familyState (s : ipState) (luid : LUID) (family : AddressFamily) : netState :=
  mkNet (map readRoute (List.filter (forwardOf luid family) (iv_routes s)))
    (map readAddress (List.filter (unicastOf luid family) (iv_addresses s)))
    (iv_interface s luid family) (iv_dns s (il_guid luid) family).

Definition luidState (w : W) : LUID -> AddressFamily -> netState := familyState (il_view w).

(** ** Routes *)

Lemma forwardKey_of luid family r r' : routeKey r' = routeKey r -> forwardOf luid family r' = forwardOf luid family r.
Proof. unfold routeKey, forwardOf, forwardFamily. intros [= -> -> _ _]. done. Qed.

Lemma filter_filter {A} (P Q : A -> bool) l : List.filter Q (List.filter P l) = List.filter (fun x => P x && Q x) l.
Proof. induction l as [|x l IH]; cbn; [done|]. destruct (P x); cbn; [destruct (Q x)|]; by rewrite IH. Qed.
Lemma filter_all {A} (P : A -> bool) l : (forall x, x ∈ l -> P x = true) -> List.filter P l = l.
Proof. induction l as [|x l IH]; intros HP; cbn; [done|]. rewrite (HP x) by left. f_equal. apply IH. intros. apply HP. by right. Qed.
Lemma filter_none {A} (P : A -> bool) l : (forall x, x ∈ l -> P x = false) -> List.filter P l = [].
Proof. induction l as [|x l IH]; intros HP; cbn; [done|]. rewrite (HP x) by left. apply IH. intros. apply HP. by right. Qed.

Lemma deleteForwards_err luid t e w : is_Ok (deleteForwards luid t (Err e) w).1 = false.
Proof.
  revert e w; induction t as [|row t IH]; intros e w; cbn [deleteForwards]; [done|].
  destruct (_ =? _); [|apply IH]. destruct (deleteIPForwardEntry2 row w) as [[u|e'] w1]; apply IH.
Qed.

(** The rows that are left: all of other interfaces, none of the table of this
    one. *)
Lemma deleteForwards_spec luid t w w' :
  deleteForwards luid t (Ok tt) w = (Ok tt, w') ->
  exists P, il_view w' = set_routes (List.filter P (iv_routes (il_view w))) (il_view w)
    /\ forall r, (r ∈ t -> fw_InterfaceLUID r = luid -> P r = false) /\ (fw_InterfaceLUID r <> luid -> P r = true).
Proof.
  revert w. induction t as [|row t IH]; intros w; cbn [deleteForwards].
  { intros [= <-]. exists (fun _ => true). rewrite filter_all by done. split; [by destruct (il_view w)|]. set_solver. }
  destruct (Z.eqb_spec (fw_InterfaceLUID row) luid) as [Hl|Hl].
  - destruct (deleteIPForwardEntry2 row w) as [[[]|e] w1] eqn:Ed; pose proof (il_deleteForward _ _ _ _ Ed) as Hd.
    + intros (P & Hv & HP)%IH. rewrite Hd in Hv. cbn in Hv. rewrite filter_filter in Hv. eexists. split; [exact Hv|].
      intros r. cbn. split.
      * intros [->|Ht]%elem_of_cons Hr; [by rewrite bool_decide_true|]. rewrite (proj1 (HP r) Ht Hr). by rewrite andb_false_r.
      * intros Hr. rewrite (proj2 (HP r) Hr), bool_decide_false; [done|]. unfold routeKey. intros [= Heq _ _ _]. congruence.
    + intros E. pose proof (deleteForwards_err luid t e w1) as He. by rewrite E in He.
  - intros (P & Hv & HP)%IH. exists P. split; [done|]. intros r. split; [|apply HP].
    intros [->|Ht]%elem_of_cons Hr; [congruence|by apply HP].
Qed.

Lemma FlushRoutes_spec luid family w w' :
  luid_FlushRoutes luid (Some family) w = (Ok tt, w') ->
  exists P, il_view w' = set_routes (List.filter P (iv_routes (il_view w))) (il_view w)
    /\ List.filter (forwardOf luid family) (iv_routes (il_view w')) = []
    /\ forall r, fw_InterfaceLUID r <> luid -> P r = true.
Proof.
  unfold luid_FlushRoutes, mthen, reading. destruct (getIPForwardTable2 (Some family) w) as [t|e] eqn:Et; [|done].
  apply il_forwardTable in Et. intros (P & Hv & HP)%deleteForwards_spec. exists P. split; [done|]. split; [|intros r; apply HP].
  rewrite Hv. cbn. rewrite filter_filter. apply filter_none. intros r Hr.
  destruct (forwardOf luid family r) eqn:Ef; [|by rewrite andb_false_r]. unfold forwardOf in Ef.
  apply andb_prop in Ef as [El%Z.eqb_eq Ef]. rewrite (proj1 (HP r)); [done| |done].
  rewrite Et. apply base.list_elem_of_In, filter_In. split; [by apply base.list_elem_of_In|done].
Qed.

Lemma AddRoute_spec luid p n x w r w' :
  luid_AddRoute luid p n x w = (r, w') ->
  match r with
  | Ok _ => exists row, il_view w' = set_routes (iv_routes (il_view w) ++ [row]) (il_view w)
      /\ fw_InterfaceLUID row = luid
      /\ (validPrefix p -> plainAddr n -> readRoute row = (p, n, x) /\ forall f, forwardFamily f row = ofFamily f (p_addr p))
  | Err _ => il_view w' = il_view w
  end.
Proof.
  unfold luid_AddRoute, mthen, mpure. destruct (routeRow _ _ _ _) as [row|e] eqn:Er; [|by intros [= <- <-]].
  intros Ec. apply il_createForward in Ec. destruct r as [u|e]; [|done]. destruct Ec as (row' & Hk & Hm & Hv).
  exists row'. split; [done|]. unfold routeRow in Er. apply rbind_Ok in Er as (prefix & Ep & Er).
  apply rbind_Ok in Er as (hop & Eh & [= <-]). unfold routeKey in Hk. cbn in Hk, Hm. injection Hk as Hl Hrp Hpl Hnh.
  split; [done|]. intros Hp Hn. destruct (SetPrefix_read (fw_DestinationPrefix (initializeIPForwardEntry zeroForward)) p Hp) as (raw & Ep' & Hr & Ha).
  destruct (SetAddr_read (fw_NextHop (initializeIPForwardEntry zeroForward)) n Hn) as (rawn & Eh' & Hrn).
  rewrite Ep in Ep'. rewrite Eh in Eh'. injection Ep' as <-. injection Eh' as <-.
  assert (Hd : fw_DestinationPrefix row' = prefix) by (destruct (fw_DestinationPrefix row'), prefix; cbn in *; congruence).
  split; [unfold readRoute; rewrite Hd, Hnh, Hm; by rewrite Hr, Hrn|]. intros f. unfold forwardFamily. by rewrite Hd, Ha.
Qed.

(** ** Addresses *)

Definition onlyAddresses (s s' : ipState) : Prop := s' = set_addresses (iv_addresses s') s.

Lemma onlyAddresses_set l s : onlyAddresses s (set_addresses l s).
Proof. done. Qed.
Lemma onlyAddresses_refl s : onlyAddresses s s.
Proof. by destruct s. Qed.
Lemma onlyAddresses_trans s1 s2 s3 : onlyAddresses s1 s2 -> onlyAddresses s2 s3 -> onlyAddresses s1 s3.
Proof. unfold onlyAddresses. intros -> ->. done. Qed.
Lemma onlyAddresses_same s s' luid family :
  onlyAddresses s s' -> sameBarAddresses (familyState s luid family) (familyState s' luid family).
Proof. unfold onlyAddresses. intros ->. done. Qed.

(** A row whose deletion has failed. *)
Definition undeletable (row : MibUnicastIPAddressRow) : Prop := exists w e w', deleteUnicastIPAddressEntry row w = (Err e, w').

Lemma deleteUnicast_only row w r w' :
  deleteUnicastIPAddressEntry row w = (r, w') ->
  onlyAddresses (il_view w) (il_view w')
  /\ (forall x, x ∈ iv_addresses (il_view w') -> x ∈ iv_addresses (il_view w))
  /\ (row ∈ iv_addresses (il_view w') -> undeletable row).
Proof.
  intros E. pose proof (il_deleteUnicast _ _ _ _ E) as Hd.
  destruct r as [u|e]; rewrite Hd.
  - split; [done|]. cbn. split.
    + intros x Hx. apply base.list_elem_of_In, filter_In in Hx as [Hx _]. by apply base.list_elem_of_In.
    + intros Hx. apply base.list_elem_of_In, filter_In in Hx as [_ Hx]. by rewrite bool_decide_true in Hx.
  - split; [apply onlyAddresses_refl|]. split; [done|]. intros _. by eexists _, _, _.
Qed.

Lemma deleteAddresses_spec luid t w :
  let w' := deleteAddresses luid t w in
  onlyAddresses (il_view w) (il_view w')
  /\ forall x, x ∈ iv_addresses (il_view w') ->
       x ∈ iv_addresses (il_view w) /\ (x ∈ t -> ua_InterfaceLUID x = luid -> undeletable x).
Proof.
  revert w; induction t as [|row t IH]; intros w; cbn [deleteAddresses].
  { split; [apply onlyAddresses_refl|]. set_solver. }
  destruct (Z.eqb_spec (ua_InterfaceLUID row) luid) as [Hl|Hl].
  - destruct (deleteUnicastIPAddressEntry row w) as [r w1] eqn:E. apply deleteUnicast_only in E as (Ho & Hs & Hn). cbn [snd].
    destruct (IH w1) as [Ho2 Hx]. split; [by eapply onlyAddresses_trans|]. intros x Hin. destruct (Hx x Hin) as [Hw1 Ht].
    split; [by apply Hs|]. intros [->|Hr]%elem_of_cons; [intros _; by apply Hn|by apply Ht].
  - destruct (IH w) as [Ho2 Hx]. split; [done|]. intros x Hin. destruct (Hx x Hin) as [Hw1 Ht]. split; [done|].
    intros [->|Hr]%elem_of_cons; [done|by apply Ht].
Qed.

Lemma FlushIPAddresses_spec luid family w r w' :
  luid_FlushIPAddresses luid (Some family) w = (r, w') ->
  onlyAddresses (il_view w) (il_view w')
  /\ (r = Ok tt -> forall x, x ∈ iv_addresses (il_view w') -> unicastOf luid family x = true -> undeletable x).
Proof.
  unfold luid_FlushIPAddresses, mthen, reading. destruct (getUnicastIPAddressTable (Some family) w) as [t|e] eqn:Et;
    [|intros [= <- <-]; split; [apply onlyAddresses_refl|done]].
  apply il_unicastTable in Et. intros [= <- <-]. destruct (deleteAddresses_spec luid t w) as [Ho Hx]. split; [done|]. intros _.
  intros x Hin Ef. unfold unicastOf in Ef.
  apply andb_prop in Ef as [El%Z.eqb_eq Ef]. destruct (Hx x Hin) as [Hw Ht]. apply Ht; [|done].
  rewrite Et. apply base.list_elem_of_In, filter_In. split; [by apply base.list_elem_of_In|done].
Qed.

Lemma AddIPAddress_spec luid a w r w' :
  luid_AddIPAddress luid a w = (r, w') ->
  onlyAddresses (il_view w) (il_view w') /\ (r = Ok tt -> validPrefix a -> exists row,
    iv_addresses (il_view w') = iv_addresses (il_view w) ++ [row] /\ ua_InterfaceLUID row = luid
    /\ readAddress row = a /\ forall f, unicastFamily f row = ofFamily f (p_addr a)).
Proof.
  unfold luid_AddIPAddress, mthen, mpure. destruct (unicastRow _ _ _) as [row|e] eqn:Er;
    [|intros [= <- <-]; split; [apply onlyAddresses_refl|done]].
  intros Ec. apply il_createUnicast in Ec. destruct r as [[]|e]; [|rewrite Ec; split; [apply onlyAddresses_refl|done]].
  destruct Ec as (row' & Hk & Hm & Hv). rewrite Hv. split; [done|]. intros _ Hp. exists row'. split; [done|].
  unfold unicastRow in Er. apply rbind_Ok in Er as (raw & Ea & [= <-]). unfold addressKey in Hk. cbn in Hk, Hm.
  injection Hk as Hl Hadr. split; [done|]. pose proof Hp as (Hva & Hz & Hb).
  destruct (SetAddr_read (ua_Address (withPreferred (initializeUnicastIPAddressEntry zeroUnicast))) (p_addr a)) as (raw' & Ea' & Hra);
    [done|]. rewrite Ea in Ea'. injection Ea' as <-.
  assert (Hbits : p_bits a mod 256 = p_bits a). { apply Z.mod_small. destruct (p_addr a); cbn in Hb; lia. }
  split; [unfold readAddress; rewrite Hadr, Hra, Hm, Hbits; by apply PrefixFrom_valid|].
  intros f. unfold unicastFamily. by rewrite Hadr, Hra.
Qed.

Lemma DeleteIPAddress_only luid p w : onlyAddresses (il_view w) (il_view (luid_DeleteIPAddress luid p w).2).
Proof.
  unfold luid_DeleteIPAddress, mthen, mpure. destruct (unicastRow _ _ _) as [row|e]; [|apply onlyAddresses_refl].
  destruct (deleteUnicastIPAddressEntry row w) as [r w'] eqn:E. by apply deleteUnicast_only in E as [? _].
Qed.

(** ** DNS *)

Definition onlyDNS (s s' : ipState) : Prop := s' = mkIPState (iv_routes s) (iv_addresses s) (iv_interface s) (iv_dns s').
Lemma onlyDNS_refl s : onlyDNS s s.
Proof. by destruct s. Qed.

Lemma tellCache_view w r w' : tellCache w = (r, w') -> r = Ok tt /\ il_view w' = il_view w.
Proof.
  unfold tellCache. pose proof (il_connect w) as Hc. destruct (dns_Connect w) as [[u|e] w1]; cbn [snd] in Hc;
    [|by intros [= <- <-]]. intros [= <- <-]. split; [done|]. rewrite il_disconnect.
  pose proof (il_openService (str "dnscache") w1) as Ho. destruct (dns_OpenService _ w1) as [[sv|e] w2]; cbn [snd] in Ho; [|congruence].
  rewrite il_closeService, il_paramChange. congruence.
Qed.

Lemma legacyDNS_spec family guid servers domains w r w' :
  legacyDNS family guid servers domains w = (r, w') ->
  onlyDNS (il_view w) (il_view w')
  /\ (r = Ok tt -> iv_dns (il_view w') guid family = (UTF16FromString servers, UTF16FromString domains)).
Proof.
  unfold legacyDNS, mthen, mwrap. destruct (reg_CreateKey _ w) as [[k|e] w1] eqn:Ek; apply il_createKey in Ek as [Hv1 Hk];
    [|intros [= <- <-]; rewrite Hv1; split; [apply onlyDNS_refl|done]].
  destruct (setRegistryDNS k servers domains w1) as [r2 w2] eqn:E2. intros [= <- <-]. rewrite il_closeKey, <- Hv1. clear Hv1.
  unfold setRegistryDNS, mthen, mwrap in E2. destruct (reg_SetStringValue k _ servers w1) as [[u|e] w3] eqn:E3;
    destruct (il_setNameServer _ _ _ _ _ _ _ E3 Hk) as [Hk3 Hv3]; [|injection E2 as <- <-; rewrite Hv3; split; [apply onlyDNS_refl|done]].
  rewrite Hk in Hk3.
  destruct (reg_SetStringValue k _ domains w3) as [[u2|e] w4] eqn:E4; destruct (il_setSearchList _ _ _ _ _ _ _ E4 Hk3) as [_ Hv4];
    [|injection E2 as <- <-; rewrite Hv4, Hv3; split; [done|done]].
  apply tellCache_view in E2 as [-> Hv2]. rewrite Hv2, Hv4, Hv3. split; [done|]. intros _. cbn.
  by rewrite !bool_decide_true.
Qed.

Lemma SetDNS_spec luid family servers domains w r w' :
  luid_SetDNS luid family servers domains w = (r, w') ->
  onlyDNS (il_view w) (il_view w')
  /\ (r = Ok tt -> iv_dns (il_view w') (il_guid luid) family = dnsTexts family servers domains).
Proof.
  unfold luid_SetDNS, mthen, mpure, reading, try, luid_GUID, dnsTexts.
  destruct (UTF16FromString (Join (map _ _) _)) as [s16|e] eqn:Es; [|intros [= <- <-]; split; [apply onlyDNS_refl|done]].
  destruct (UTF16FromString (Join domains _)) as [d16|e] eqn:Ed; [|intros [= <- <-]; split; [apply onlyDNS_refl|done]].
  destruct (convertInterfaceLUIDToGUID luid w) as [g|e] eqn:Eg; [|intros [= <- <-]; split; [apply onlyDNS_refl|done]].
  apply il_LUIDToGUID in Eg as ->. destruct (setInterfaceDnsSettings _ _ w) as [[u|e] w1] eqn:E1; apply il_setDns in E1.
  - intros [= <- <-]. rewrite E1. split; [done|]. intros _. cbn. by rewrite bool_decide_true.
  - case_bool_decide.
    + intros [Ho Hd]%legacyDNS_spec. rewrite E1 in Ho. split; [done|]. intros Hr. by rewrite (Hd Hr), Es, Ed.
    + intros [= <- <-]. rewrite E1. split; [apply onlyDNS_refl|done].
Qed.

(** ** The interface of the tunnel *)

#[local] Instance luidSystem : NetSystem W := luidNet fuel.

Lemma familyState_routes s l luid family :
  familyState (set_routes l s) luid family
  = mkNet (map readRoute (List.filter (forwardOf luid family) l)) (ns_addresses (familyState s luid family))
      (ns_interface (familyState s luid family)) (ns_dns (familyState s luid family)).
Proof. done. Qed.

(** The addresses that stay behind a flush. *)
Definition stuckAddress (luid : LUID) (family : AddressFamily) (a : Prefix) : Prop :=
  exists row, unicastOf luid family row = true /\ readAddress row = a /\ undeletable row.

Definition luidConfigLaws (Horder : forall s, ts_routeOrder s ≡ₚ elements s) : NetConfigLaws W.
Proof.
  refine {| net := luidState; stuck := stuckAddress |}; cbn [routeOrder FlushRoutes AddRoute FlushIPAddresses AddIPAddress DeleteIPAddress
    IPInterface_Set SetDNS luidSystem luidNet]; unfold luidState.
  - exact Horder.
  - intros l f w w' E. apply FlushRoutes_spec in E as (P & Hv & Hn & _). rewrite Hv in Hn |- *. cbn in Hn.
    by rewrite familyState_routes, Hn.
  - intros l p n x f w w' E Hf Hp Hn _. apply AddRoute_spec in E as (row & Hv & Hl & Hr). destruct (Hr Hp Hn) as [Hr1 Hr2].
    rewrite Hv, familyState_routes, List.filter_app, map_app. cbn. unfold forwardOf at 2. rewrite Hl, Z.eqb_refl, Hr2, Hf. cbn.
    by rewrite Hr1.
  - intros l f w r w' [Ho Hn]%FlushIPAddresses_spec. split; [by apply onlyAddresses_same|]. intros Hr. cbn. apply Forall_fmap, Forall_forall.
    intros x Hx. apply base.list_elem_of_In, filter_In in Hx as [Hx Hf]. exists x. split; [done|]. split; [done|].
    apply (Hn Hr); [by apply base.list_elem_of_In|done].
  - intros l a f w r w' [Ho Ha]%AddIPAddress_spec Hf Hp. split; [by apply onlyAddresses_same|]. intros Hr.
    destruct (Ha Hr Hp) as (row & Hv & Hl & Hra & Hfa). cbn. rewrite Hv, List.filter_app, map_app. cbn.
    unfold unicastOf at 2. rewrite Hl, Z.eqb_refl, Hfa, Hf. cbn. by rewrite Hra.
  - intros l a w l' f. apply onlyAddresses_same, DeleteIPAddress_only.
  - intros l f i w w' E%il_setInterface. rewrite E. unfold familyState. cbn. by rewrite bool_decide_true.
  - intros l f d s w w' [Ho Hd]%SetDNS_spec. unfold familyState. rewrite (Hd eq_refl), Ho. done.
Defined.

(** ** Other interfaces *)

Definition otherRoutes (luid : LUID) (s : ipState) : list forwardRow :=
  List.filter (fun r => negb (fw_InterfaceLUID r =? luid)) (iv_routes s).

Definition keepsOthers (luid : LUID) (w w' : W) : Prop := otherRoutes luid (il_view w') = otherRoutes luid (il_view w).

Lemma otherRoutes_filter luid P s :
  (forall r, fw_InterfaceLUID r <> luid -> P r = true) -> otherRoutes luid (set_routes (List.filter P (iv_routes s)) s) = otherRoutes luid s.
Proof.
  intros HP. unfold otherRoutes. cbn. rewrite filter_filter. induction (iv_routes s) as [|r l IH]; cbn; [done|].
  rewrite IH. destruct (Z.eqb_spec (fw_InterfaceLUID r) luid) as [|Hn]; cbn; [by rewrite andb_false_r|]. by rewrite (HP r Hn).
Qed.

Lemma deleteForwards_others luid t err w r w' : deleteForwards luid t err w = (r, w') -> keepsOthers luid w w'.
Proof.
  revert err w; induction t as [|row t IH]; intros err w; cbn [deleteForwards]; [by intros [= <- <-]|].
  destruct (Z.eqb_spec (fw_InterfaceLUID row) luid) as [Hl|Hl]; [|apply IH].
  destruct (deleteIPForwardEntry2 row w) as [r1 w1] eqn:Ed. pose proof (il_deleteForward _ _ _ _ Ed) as Hd.
  intros E%IH. unfold keepsOthers in *. rewrite E. destruct r1 as [u|e]; rewrite Hd; [|done]. apply otherRoutes_filter.
  intros x Hx. rewrite bool_decide_false; [done|]. unfold routeKey. intros [= Heq _ _ _]. congruence.
Qed.

Lemma addresses_others luid s s' : onlyAddresses s s' -> otherRoutes luid s' = otherRoutes luid s.
Proof. unfold onlyAddresses. intros ->. done. Qed.
Lemma dns_others luid s s' : onlyDNS s s' -> otherRoutes luid s' = otherRoutes luid s.
Proof. unfold onlyDNS. intros ->. done. Qed.

Lemma configureInterface_others rounds family conf luid w r w' :
  configureInterface rounds family conf luid w = Some (r, w') -> keepsOthers luid w w'.
Proof.
  apply (configureInterface_keeps (keepsOthers luid)); [done|unfold keepsOthers; congruence|..];
    cbn [FlushRoutes AddRoute FlushIPAddresses AddIPAddress DeleteIPAddress IPInterface_Set SetDNS luidSystem luidNet].
  - intros f w0 r0 w0'. unfold luid_FlushRoutes, mthen, reading.
    destruct (getIPForwardTable2 (Some f) w0) as [t|e]; [apply deleteForwards_others|by intros [= <- <-]].
  - intros p n x w0 r0 w0' E%AddRoute_spec. unfold keepsOthers. destruct r0 as [u|e]; [|by rewrite E].
    destruct E as (row & Hv & Hl & _). rewrite Hv. unfold otherRoutes. cbn. rewrite List.filter_app. cbn.
    by rewrite Hl, Z.eqb_refl, app_nil_r.
  - intros f w0 r0 w0' [Ho _]%FlushIPAddresses_spec. by apply addresses_others.
  - intros a w0 r0 w0' [Ho _]%AddIPAddress_spec. by apply addresses_others.
  - intros l a w0. apply addresses_others, DeleteIPAddress_only.
  - intros f i w0 r0 w0' E%il_setInterface. unfold keepsOthers. rewrite E. by destruct r0.
  - intros f d s w0 r0 w0' [Ho _]%SetDNS_spec. by apply dns_others.
Qed.

End Luid.

(** ** The buffer of GetAdaptersAddresses *)

(** Each round asks for more, and sizes are 32 bits wide: with fuel for the sizes
    there are, the loop ends and more fuel changes nothing. *)
Lemma adaptersLoop_fuel {W} `{IPHelper W} family (w : W) :
  (forall size, snd (win_GetAdaptersAddresses family size w) < 2 ^ 32) ->
  forall n m size, 2 ^ 32 - size < Z.of_nat n -> 2 ^ 32 - size < Z.of_nat m -> size < 2 ^ 32 ->
  adaptersLoop n family size w = adaptersLoop m family size w.
Proof.
  intros Hw n. induction n as [|n IH]; intros [|m] size Hn Hm Hs; [lia..|]. cbn [adaptersLoop]. pose proof (Hw size) as Hb.
  destruct (win_GetAdaptersAddresses family size w) as [[l|e] size']; [done|]. cbn [snd] in Hb.
  destruct (negb _ || (size' <=? size)) eqn:E; [done|]. apply orb_false_iff in E as [_ E%Z.leb_gt]. apply IH; lia.
Qed.
