(* ===== verification/InterfaceWatcher.v ===== *)
(** * The interface watcher: tunnel/interfacewatcher.go

    Windows says when the TCP/IP interface of the adapter appears, for each
    family; the watcher then sets it up. Until the tunnel has told it which
    adapter is its own, it keeps what it hears. The channels are lists; what is
    in them when the tunnel reads them was sent before. *)

From S2P Require Import Prelude GoStrings GoNum Netip Config Name Paths WSTLS Parser Writer UAPI Driver Effects Store Services Firewall TunnelNet ChangeHandlers.
Import TunnelNet.
Local Open Scope Z_scope.

(** The network functions where the registry of callbacks is beside the system. *)
#[global] Instance registryNet {W} `{NetSystem W} : NetSystem (registry W) := {|
  GetIPForwardTable2 family r := GetIPForwardTable2 family (rg_sys r);
  LUID_Interface l r := LUID_Interface l (rg_sys r);
  LUID_IPInterface l family r := LUID_IPInterface l family (rg_sys r);
  IPInterface_Set l family i := onRegSys (IPInterface_Set l family i);
  AddRoute l p a m := onRegSys (AddRoute l p a m);
  DeleteRoute l p a r := mkRegistry (DeleteRoute l p a (rg_sys r)) (rg_next r) (rg_handlers r);
  FlushRoutes l family := onRegSys (FlushRoutes l family);
  AddIPAddress l p := onRegSys (AddIPAddress l p);
  FlushIPAddresses l family := onRegSys (FlushIPAddresses l family);
  SetDNS l family a d := onRegSys (SetDNS l family a d);
  GetAdaptersAddresses family r := GetAdaptersAddresses family (rg_sys r);
  DeleteIPAddress l p r := mkRegistry (DeleteIPAddress l p (rg_sys r)) (rg_next r) (rg_handlers r);
  StartedAtBoot r := StartedAtBoot (rg_sys r);
  ForceMTU m r := mkRegistry (ForceMTU m (rg_sys r)) (rg_next r) (rg_handlers r);
  BindSocketToInterface4 i b := onRegSys (BindSocketToInterface4 i b);
  BindSocketToInterface6 i b := onRegSys (BindSocketToInterface6 i b);
  rebind := onRegSys rebind;
  prefixOrder := prefixOrder;
  routeOrder := routeOrder
|}.

(** The driver's calls on an adapter, and the removal of the DNS servers. *)
Definition AdapterStateDown : Z := 0.
Definition AdapterStateUp : Z := 1.

Class AdapterSystem (W adapter : Type) := {
  adapter_AdapterState : adapter -> M W Z;
  adapter_SetConfiguration : adapter -> gostring -> M W unit;
  adapter_SetAdapterState : adapter -> Z -> M W unit;
  FlushDNS : LUID -> AddressFamily -> M W unit
}.

(** A family of an event: one of the two, or any other number. *)
Definition interfaceWatcherEvent : Type := (LUID * option AddressFamily)%type.

Record interfaceWatcher (adapter : Type) : Type := mkWatcher {
  iw_errors : list (Z * goerr);
  iw_started : list AddressFamily;
  iw_conf : Config;
  iw_adapter : option adapter;
  iw_clamper : option (list Z);
  iw_luid : LUID;
  iw_interfaceChangeCallback : option changeCallback;
  iw_changeCallbacks : AddressFamily -> list changeCallback;
  iw_storedEvents : list interfaceWatcherEvent;
  iw_watchdog : bool
}.
Arguments mkWatcher {adapter}.
Arguments iw_errors {adapter}.
Arguments iw_started {adapter}.
Arguments iw_conf {adapter}.
Arguments iw_adapter {adapter}.
Arguments iw_clamper {adapter}.
Arguments iw_luid {adapter}.
Arguments iw_interfaceChangeCallback {adapter}.
Arguments iw_changeCallbacks {adapter}.
Arguments iw_storedEvents {adapter}.
Arguments iw_watchdog {adapter}.

Section Watcher.
Context {W adapter : Type} `{NetSystem W} `{ChangeNotify W} `{AdapterSystem W adapter}.


Abbreviation net := (registry W).
Abbreviation watcher := (interfaceWatcher adapter).

(** ** Fields *)

Definition w_error (se : Z) (e : goerr) (iw : watcher) : watcher :=
  mkWatcher (iw_errors iw ++ [(se, e)]) (iw_started iw) (iw_conf iw) (iw_adapter iw) (iw_clamper iw) (iw_luid iw)
    (iw_interfaceChangeCallback iw) (iw_changeCallbacks iw) (iw_storedEvents iw) (iw_watchdog iw).
Definition w_start (family : AddressFamily) (iw : watcher) : watcher :=
  mkWatcher (iw_errors iw) (iw_started iw ++ [family]) (iw_conf iw) (iw_adapter iw) (iw_clamper iw) (iw_luid iw)
    (iw_interfaceChangeCallback iw) (iw_changeCallbacks iw) (iw_storedEvents iw) (iw_watchdog iw).
Definition w_clamp (mtus : option (list Z)) (iw : watcher) : watcher :=
  mkWatcher (iw_errors iw) (iw_started iw) (iw_conf iw) (iw_adapter iw) mtus (iw_luid iw)
    (iw_interfaceChangeCallback iw) (iw_changeCallbacks iw) (iw_storedEvents iw) (iw_watchdog iw).
Definition w_callbacks (family : AddressFamily) (l : list changeCallback) (iw : watcher) : watcher :=
  mkWatcher (iw_errors iw) (iw_started iw) (iw_conf iw) (iw_adapter iw) (iw_clamper iw) (iw_luid iw)
    (iw_interfaceChangeCallback iw)
    (fun f => if bool_decide (f = family) then l else iw_changeCallbacks iw f) (iw_storedEvents iw) (iw_watchdog iw).
Definition w_events (l : list interfaceWatcherEvent) (iw : watcher) : watcher :=
  mkWatcher (iw_errors iw) (iw_started iw) (iw_conf iw) (iw_adapter iw) (iw_clamper iw) (iw_luid iw)
    (iw_interfaceChangeCallback iw) (iw_changeCallbacks iw) l (iw_watchdog iw).
Definition w_watchdog (b : bool) (iw : watcher) : watcher :=
  mkWatcher (iw_errors iw) (iw_started iw) (iw_conf iw) (iw_adapter iw) (iw_clamper iw) (iw_luid iw)
    (iw_interfaceChangeCallback iw) (iw_changeCallbacks iw) (iw_storedEvents iw) b.
Definition w_registered (c : option changeCallback) (iw : watcher) : watcher :=
  mkWatcher (iw_errors iw) (iw_started iw) (iw_conf iw) (iw_adapter iw) (iw_clamper iw) (iw_luid iw)
    c (iw_changeCallbacks iw) (iw_storedEvents iw) (iw_watchdog iw).

(** ** Callbacks *)

(** Unregister, whose error is ignored. *)
Definition unregister (c : changeCallback) (n : net) : net := (UnregisterCallback c n).2.

Definition unregisterAll (l : list changeCallback) (n : net) : net := fold_left (fun n c => unregister c n) l n.

(** The registrations of monitorMTU, and those of the route monitor. *)
Definition registerPair : M net (list changeCallback) :=
  do! cbr := RegisterRouteChangeCallback in
  fun n => match RegisterInterfaceChangeCallback n with
           | (Ok cbi, n') => (Ok [cbr; cbi], n')
           | (Err e, n') => (Err e, unregister cbr n')
           end.

(** mtumonitor.go: the MTU once, then whenever the default route changes. *)
Definition monitorMTU (family : AddressFamily) (luid : LUID) (clamper : option nat) (mtus : list Z) (n : net)
    : result (list changeCallback) * (list Z * net) :=
  match mtuDoIt family luid clamper initMTU mtus n with
  | (Err e, (_, mtus, n)) => (Err e, (mtus, n))
  | (Ok _, (_, mtus, n)) => let '(r, n) := registerPair n in (r, (mtus, n))
  end.

Definition familyIndex (family : AddressFamily) : nat := match family with AF_INET => 0%nat | AF_INET6 => 1%nat end.

(** ** setup *)

(** The MTU is monitored unless the configuration sets it. *)
Definition setupMTU (family : AddressFamily) (iw : watcher) (n : net) : result unit * (watcher * net) :=
  if i_MTU (c_Interface (iw_conf iw)) =? 0 then
    let clamper := match iw_clamper iw with Some _ => Some (familyIndex family) | None => None end in
    let '(r, (mtus, n)) := monitorMTU family (iw_luid iw) clamper (default [] (iw_clamper iw)) n in
    let iw := w_clamp (match iw_clamper iw with Some _ => Some mtus | None => None end) iw in
    match r with
    | Ok callbacks => (Ok tt, (w_callbacks family callbacks iw, n))
    | Err e => (Err e, (w_callbacks family [] iw, n))
    end
  else (Ok tt, (iw, n)).

(** evaluateDynamicPitfalls only logs. *)
Definition setup (family : option AddressFamily) (iw : watcher) (n : net) : watcher * net :=
  let iw := w_watchdog false iw in
  match family with
  | None => (iw, n)
  | Some family =>
      let n := unregisterAll (iw_changeCallbacks iw family) n in
      let iw := w_callbacks family [] iw in
      match setupMTU family iw n with
      | (Err e, (iw, n)) => (w_error ErrorMonitorMTUChanges e iw, n)
      | (Ok _, (iw, n)) =>
          match configureInterface 16 family (iw_conf iw) (iw_luid iw) n with
          | Some (Ok _, n) => (w_start family iw, n)
          | Some (Err e, n) => (w_error ErrorSetNetConfig e iw, n)
          | None => (iw, n)
          end
      end
  end.

(** The callback of watchInterface; [added] says whether the notification is
    MibAddInstance. The result says whether the callback brought the adapter up. *)
Definition onInterfaceChange (added : bool) (event : interfaceWatcherEvent) (iw : watcher) (n : net)
    : watcher * net * bool :=
  if negb added then (iw, n, false)
  else if iw_luid iw =? 0 then (w_events (iw_storedEvents iw ++ [event]) iw, n, false)
  else if negb (event.1 =? iw_luid iw) then (iw, n, false)
  else
    let '(iw, n) := setup event.2 iw n in
    match iw_adapter iw with
    | None => (iw, n, false)
    | Some a =>
        match onRegSys (adapter_AdapterState a) n with
        | (Ok state, n) =>
            if state =? AdapterStateDown then
              let n := (onRegSys (adapter_SetConfiguration a (ToDriverConfiguration (iw_conf iw))) n).2 in
              let '(r, n) := onRegSys (adapter_SetAdapterState a AdapterStateUp) n in
              (iw, n, match r with Ok _ => true | Err _ => false end)
            else (iw, n, false)
        | (Err _, n) => (iw, n, false)
        end
    end.

(** The timer of one minute. *)
Definition watchdogFires (iw : watcher) : watcher :=
  if iw_watchdog iw
  then w_watchdog false (w_error ErrorCreateNetworkAdapter
         (ErrText "TCP/IP interface for adapter did not appear after one minute") iw)
  else iw.

Definition newWatcher (c : option changeCallback) : watcher :=
  mkWatcher [] [] (mkConfig [] emptyInterface [] ∅ []) None None 0 c (fun _ => []) [] false.

Definition watchInterface : M net watcher :=
  fun n => match RegisterInterfaceChangeCallback n with
           | (Ok c, n) => (Ok (newWatcher (Some c)), n)
           | (Err e, n) => (Err (ErrWrap "unable to register interface change callback" [] e), n)
           end.

Fixpoint setupStored (luid : LUID) (events : list interfaceWatcherEvent) (iw : watcher) (n : net) : watcher * net :=
  match events with
  | [] => (iw, n)
  | event :: rest =>
      let '(iw, n) := if event.1 =? luid then setup event.2 iw n else (iw, n) in
      setupStored luid rest iw n
  end.

(** [clamper] says whether there is a userspace device to clamp. *)
Definition Configure (a : option adapter) (clamper : bool) (config : Config) (luid : LUID) (iw : watcher) (n : net)
    : watcher * net :=
  let iw := w_watchdog true iw in
  let iw := mkWatcher (iw_errors iw) (iw_started iw) config a
              (if clamper then Some [0; 0] else iw_clamper iw) luid (iw_interfaceChangeCallback iw)
              (iw_changeCallbacks iw) (iw_storedEvents iw) (iw_watchdog iw) in
  let '(iw, n) := setupStored luid (iw_storedEvents iw) iw n in
  (w_events [] iw, n).

(** ** Destroy

    The first part works on a snapshot; notifications that arrive before the
    callback is gone, [late], run after the snapshot was taken. Unregister waits
    for the callbacks that run, so all of them have ended when the second part
    turns the firewall off. *)
Definition flushFamily (luid : LUID) (family : AddressFamily) (n : net) : net :=
  let n := (FlushRoutes luid family n).2 in
  let n := (FlushIPAddresses luid family n).2 in
  (onRegSys (FlushDNS luid family) n).2.

(** Notifications of added interfaces, with the number of times that they brought
    the adapter up. *)
Fixpoint lateEvents (late : list interfaceWatcherEvent) (iw : watcher) (n : net) : watcher * net * nat :=
  match late with
  | [] => (iw, n, 0%nat)
  | event :: rest =>
      let '(iw, n, up) := onInterfaceChange true event iw n in
      let '(iw, n, ups) := lateEvents rest iw n in
      (iw, n, if up : bool then S ups else ups)
  end.

(** The last result says, of each time that a notification brought the adapter up,
    whether the firewall was on. *)
Definition destroyWatcher {Ww : Type} `{Firewall.WFP Ww} (late : list interfaceWatcherEvent) (iw : watcher)
    (fw : Firewall.firewall (W := Ww)) (n : net) : watcher * Firewall.firewall (W := Ww) * net * list bool :=
  let iw := w_watchdog false iw in
  let callbacks4 := iw_changeCallbacks iw AF_INET in
  let callbacks6 := iw_changeCallbacks iw AF_INET6 in
  let interfaceCallback := iw_interfaceChangeCallback iw in
  let luid := iw_luid iw in
  let '(iw, n, ups) := lateEvents late iw n in
  let broughtUp := replicate ups (negb (Firewall.wfpSession fw =? 0)) in
  let n := match interfaceCallback with Some c => unregister c n | None => n end in
  let n := unregisterAll callbacks6 (unregisterAll callbacks4 n) in
  let iw := if bool_decide (interfaceCallback = iw_interfaceChangeCallback iw) then w_registered None iw else iw in
  let iw := w_callbacks AF_INET (drop (length callbacks4) (iw_changeCallbacks iw AF_INET)) iw in
  let iw := w_callbacks AF_INET6 (drop (length callbacks6) (iw_changeCallbacks iw AF_INET6)) iw in
  let n := if negb (luid =? 0) && (iw_luid iw =? luid) then flushFamily luid AF_INET6 (flushFamily luid AF_INET n) else n in
  let fw := Firewall.DisableFirewall fw in
  (iw, fw, n, broughtUp).
End Watcher.
