(* ===== verification/WatcherTheorems.v ===== *)
(** * The callbacks of the interface watcher

    Every callback that the watcher registered is in one of its fields until it is
    unregistered, and Destroy unregisters all of them but those of an interface that
    appears while it runs. A notification leaves the adapter of the watcher as it
    is, and brings it up only when there is one. *)

From S2P Require Import Prelude GoStrings GoNum Netip Config Effects Store Services Firewall ChangeHandlers TunnelNet TunnelConfig InterfaceWatcher.
Import TunnelNet.
Local Open Scope Z_scope.

Create HintDb sysonly.

Section Callbacks.
Context {W adapter : Type} `{NetSystem W} `{ChangeNotify W} `{AdapterSystem W adapter}.

Abbreviation net := (registry W).
Abbreviation watcher := (interfaceWatcher adapter).

(** ** Functions of the system only *)

Definition sameReg (n n' : net) : Prop := rg_next n' = rg_next n /\ rg_handlers n' = rg_handlers n.

Lemma sameReg_refl n : sameReg n n.
Proof. done. Qed.
Lemma sameReg_trans n1 n2 n3 : sameReg n1 n2 -> sameReg n2 n3 -> sameReg n1 n3.
Proof. intros [? ?] [? ?]. split; congruence. Qed.

Abbreviation sysOnly f := (keeping sameReg f).

Lemma sysOnly_onRegSys {A} (f : M W A) : sysOnly (onRegSys f).
Proof. intros n r n'. unfold onRegSys. destruct (f (rg_sys n)). by intros [= <- <-]. Qed.
Lemma sysOnly_ret {A} (a : A) : sysOnly (mret a).
Proof. apply (keeping_value sameReg sameReg_refl (Ok a)). Qed.
Lemma sysOnly_bind {A B} (m : M net A) (k : A -> M net B) : sysOnly m -> (forall a, sysOnly (k a)) -> sysOnly (mthen m k).
Proof. apply keeping_bind, sameReg_trans. Qed.
#[local] Hint Resolve sysOnly_onRegSys sysOnly_ret : sysonly.

Lemma configureInterface_sameReg fuel family conf l n r n' :
  configureInterface fuel family conf l n = Some (r, n') -> sameReg n n'.
Proof.
  apply (configureInterface_keeps sameReg sameReg_refl sameReg_trans l); intros; try apply sysOnly_onRegSys. done.
Qed.

Lemma mtuDoIt_sameReg family l c st mtus n r st' mtus' n' :
  mtuDoIt family l c st mtus n = (r, (st', mtus', n')) -> sameReg n n'.
Proof.
  unfold mtuDoIt. destruct (findDefaultLUID _ _ _ _ n) as [[x y]|e]; [|by intros [= <- <- <- <-]].
  destruct (if x =? 0 then _ else _) as [mtu|e]; [|by intros [= <- <- <- <-]].
  case_match; [|by intros [= <- <- <- <-]]. destruct (LUID_IPInterface _ _ n) as [i|e]; [|by intros [= <- <- <- <-]].
  destruct (IPInterface_Set _ _ _ n) as [[u|e] n1] eqn:E; pose proof (sysOnly_onRegSys _ _ _ _ E);
    [|by intros [= <- <- <- <-]].
  destruct c as [index|]; [|by intros [= <- <- <- <-]].
  destruct (familyForceMTU _ _ mtus n1) as [m2 n2] eqn:E2. unfold familyForceMTU in E2. injection E2 as <- <-.
  by intros [= <- <- <- <-].
Qed.

(** ** What a notification leaves alone *)

(** The adapter, its LUID and the callback for interfaces. *)
Record fixed (iw iw' : watcher) : Prop := {
  fx_adapter : iw_adapter iw' = iw_adapter iw;
  fx_luid : iw_luid iw' = iw_luid iw;
  fx_callback : iw_interfaceChangeCallback iw' = iw_interfaceChangeCallback iw
}.

Lemma fixed_refl iw : fixed iw iw.
Proof. done. Qed.
Lemma fixed_trans iw1 iw2 iw3 : fixed iw1 iw2 -> fixed iw2 iw3 -> fixed iw1 iw3.
Proof. intros [? ? ?] [? ? ?]. split; congruence. Qed.

Lemma setup_fixed family iw n iw' n' : setup family iw n = (iw', n') -> fixed iw iw'.
Proof.
  unfold setup, setupMTU. destruct family as [family|]; [|by intros [= <- <-]].
  destruct (i_MTU _ =? 0); [destruct (monitorMTU _ _ _ _ _) as [[l|e] [mtus n1]]|]; [|by intros [= <- <-]|];
    destruct (configureInterface _ _ _ _ _) as [[[u|e] n2]|]; by intros [= <- <-].
Qed.

Lemma onInterfaceChange_fixed added event iw n iw' n' up :
  onInterfaceChange added event iw n = (iw', n', up) -> fixed iw iw' /\ (up = true -> iw_adapter iw <> None).
Proof.
  unfold onInterfaceChange. destruct (negb added); [by intros [= <- <- <-]|].
  destruct (iw_luid iw =? 0); [by intros [= <- <- <-]|]. destruct (negb _); [by intros [= <- <- <-]|].
  destruct (setup event.2 iw n) as [iw1 n1] eqn:E. apply setup_fixed in E as Hf. pose proof (fx_adapter _ _ Hf) as Ha.
  destruct (iw_adapter iw1) as [a|]; [|by intros [= <- <- <-]].
  destruct (onRegSys (adapter_AdapterState a) n1) as [[st|e] n2]; [|by intros [= <- <- <-]].
  destruct (st =? AdapterStateDown); [|by intros [= <- <- <-]].
  destruct (onRegSys (adapter_SetAdapterState a _) _) as [r4 n4]. intros [= <- <- <-]. split; [done|by rewrite <- Ha].
Qed.

Lemma lateEvents_fixed late iw n iw' n' ups :
  lateEvents late iw n = (iw', n', ups) -> fixed iw iw' /\ (ups <> 0%nat -> iw_adapter iw <> None).
Proof.
  revert iw n iw' n' ups; induction late as [|ev late IH]; intros iw n iw' n' ups; cbn [lateEvents]; [by intros [= <- <- <-]|].
  destruct (onInterfaceChange true ev iw n) as [[iw1 n1] up] eqn:E1. apply onInterfaceChange_fixed in E1 as [Hf1 Hu1].
  destruct (lateEvents late iw1 n1) as [[iw2 n2] ups2] eqn:E2. apply IH in E2 as [Hf2 Hu2]. intros [= <- <- <-].
  split; [by eapply fixed_trans|]. rewrite <- (fx_adapter _ _ Hf1). destruct up; [|exact Hu2].
  intros _. rewrite (fx_adapter _ _ Hf1). by apply Hu1.
Qed.

(** A notification for another interface, or before the adapter is known. *)
Definition foreign (iw : watcher) (event : interfaceWatcherEvent) : Prop := iw_luid iw = 0 \/ event.1 <> iw_luid iw.

(** ** Registering and unregistering *)

Context (Hnz : handlesNonzero).

Lemma listening_same n n' : sameReg n n' -> listening n -> listening n'.
Proof. intros [Hn Hh] Hl k. rewrite Hn, Hh. apply Hl. Qed.
Lemma registered_same n n' c : sameReg n n' -> registered c n' <-> registered c n.
Proof. intros [_ Hh]. unfold registered. by rewrite Hh. Qed.

Lemma unregisterAll_spec l (n : net) :
  listening n -> listening (unregisterAll l n) /\ forall c, registered c (unregisterAll l n) <-> c ∉ l /\ registered c n.
Proof.
  revert n; induction l as [|c0 l IH]; intros n Hl; cbn; [split; [done|set_solver]|].
  unfold unregister at 2 4. destruct (UnregisterCallback c0 n) as [x n1] eqn:E.
  apply UnregisterCallback_spec in E as [Hl1 Hr1]; [|done]. destruct (IH n1 Hl1) as [Hl2 Hr2]. split; [done|].
  intros c. rewrite Hr2, Hr1. set_solver.
Qed.

Lemma registerPair_spec n r n' :
  listening n -> registerPair n = (r, n') ->
  listening n' /\ match r with
  | Ok l => NoDup l /\ (forall c, c ∈ l -> ~ registered c n) /\ forall c, registered c n' <-> c ∈ l \/ registered c n
  | Err _ => forall c, registered c n' <-> registered c n
  end.
Proof.
  intros Hl. unfold registerPair, mthen. destruct (RegisterRouteChangeCallback n) as [[cbr|e] n1] eqn:E1;
    apply (RegisterChangeCallback_spec RouteChange n _ _ Hnz Hl) in E1 as [Hl1 Hr1]; [|by intros [= <- <-]].
  destruct Hr1 as [Hf1 Hr1].
  destruct (RegisterInterfaceChangeCallback n1) as [[cbi|e] n2] eqn:E2;
    apply (RegisterChangeCallback_spec InterfaceChange n1 _ _ Hnz Hl1) in E2 as [Hl2 Hr2]; intros [= <- <-].
  - destruct Hr2 as [Hf2 Hr2]. split; [done|].
    assert (Hne : cbi <> cbr) by (intros ->; apply Hf2, Hr1; by left). split; [|split].
    + apply NoDup_cons. split; [set_solver|]. apply NoDup_singleton.
    + intros c [->|[->|[]%elem_of_nil]%elem_of_cons]%elem_of_cons; [done|]. intros Hc. apply Hf2, Hr1. by right.
    + intros c. rewrite Hr2, Hr1. set_solver.
  - unfold unregister. destruct (UnregisterCallback cbr n2) as [x n3] eqn:E3.
    apply UnregisterCallback_spec in E3 as [Hl3 Hr3]; [|done]. split; [done|]. intros c. cbn. rewrite Hr3, Hr2, Hr1.
    split; [naive_solver|]. intros Hc. split; [|by right]. by intros ->.
Qed.

(** ** The watcher *)

Definition callbacksOf (iw : watcher) : list changeCallback :=
  option_list (iw_interfaceChangeCallback iw) ++ iw_changeCallbacks iw AF_INET ++ iw_changeCallbacks iw AF_INET6.

(** The callbacks of the registry are those of the watcher and of [others]. *)
Record accounted (others : changeCallback -> Prop) (iw : watcher) (n : net) : Prop := {
  ac_listening : listening n;
  ac_nodup : NoDup (callbacksOf iw);
  ac_registered : forall c, registered c n <-> c ∈ callbacksOf iw \/ others c;
  ac_apart : forall c, c ∈ callbacksOf iw -> ~ others c
}.

Lemma accounted_same others iw iw' n n' :
  callbacksOf iw' = callbacksOf iw -> sameReg n n' -> accounted others iw n -> accounted others iw' n'.
Proof.
  intros Hc Hs [Hl Hnd Hr Ha]. split; [by eapply listening_same|by rewrite Hc| |by rewrite Hc].
  intros c. rewrite (registered_same n n' c Hs), Hc. apply Hr.
Qed.

(** The callbacks of one family and the rest. *)
Lemma callbacksOf_family iw family : exists rest, callbacksOf iw ≡ₚ iw_changeCallbacks iw family ++ rest
  /\ forall l, callbacksOf (w_callbacks family l iw) ≡ₚ l ++ rest.
Proof.
  assert (Hswap : forall a b c : list changeCallback, a ++ b ++ c ≡ₚ b ++ a ++ c)
    by (intros a b c; apply Permutation_app_swap_app).
  assert (Hlast : forall a b c : list changeCallback, a ++ b ++ c ≡ₚ c ++ a ++ b).
  { intros a b c. etrans; [|apply Permutation_app_comm]. by rewrite (assoc_L (++) a b c). }
  destruct family.
  - exists (option_list (iw_interfaceChangeCallback iw) ++ iw_changeCallbacks iw AF_INET6).
    split; [exact (Hswap (option_list (iw_interfaceChangeCallback iw)) (iw_changeCallbacks iw AF_INET) (iw_changeCallbacks iw AF_INET6))|].
    intros l. exact (Hswap (option_list (iw_interfaceChangeCallback iw)) l (iw_changeCallbacks iw AF_INET6)).
  - exists (option_list (iw_interfaceChangeCallback iw) ++ iw_changeCallbacks iw AF_INET).
    split; [exact (Hlast (option_list (iw_interfaceChangeCallback iw)) (iw_changeCallbacks iw AF_INET) (iw_changeCallbacks iw AF_INET6))|].
    intros l. exact (Hlast (option_list (iw_interfaceChangeCallback iw)) (iw_changeCallbacks iw AF_INET) l).
Qed.

Lemma accounted_drop others iw n family :
  accounted others iw n -> accounted others (w_callbacks family [] iw) (unregisterAll (iw_changeCallbacks iw family) n).
Proof.
  intros [Hl Hnd Hr Ha]. destruct (callbacksOf_family iw family) as (rest & Hc & Hc').
  rewrite Hc in Hnd. apply NoDup_app in Hnd as (_ & Hdis & Hnd).
  destruct (unregisterAll_spec (iw_changeCallbacks iw family) n Hl) as [Hl' Hr'].
  assert (Hmem : forall c, c ∈ callbacksOf (w_callbacks family [] iw) <-> c ∈ rest) by (intros c; by rewrite Hc').
  split; [done|by rewrite Hc'| |].
  - intros c. rewrite Hr', Hr, Hmem, Hc, elem_of_app. split; [intros [Hn [[Hf|Hf]|Hf]]; auto; done|].
    intros [Hin|Ho]; (split; [intros Hf|auto]); [exact (Hdis c Hf Hin)|].
    apply (Ha c); [|done]. rewrite Hc. apply elem_of_app. by left.
  - intros c Hin%Hmem. apply Ha. rewrite Hc. apply elem_of_app. by right.
Qed.

Lemma accounted_add others iw n n' family l :
  accounted others iw n -> iw_changeCallbacks iw family = [] -> listening n' -> NoDup l ->
  (forall c, c ∈ l -> ~ registered c n) -> (forall c, registered c n' <-> c ∈ l \/ registered c n) ->
  accounted others (w_callbacks family l iw) n'.
Proof.
  intros [Hl Hnd Hr Ha] He Hl' Hndl Hf Hr'. destruct (callbacksOf_family iw family) as (rest & Hc & Hc').
  rewrite He in Hc. cbn in Hc. rewrite Hc in Hnd.
  assert (Hmem : forall c, c ∈ callbacksOf iw <-> c ∈ rest) by (intros c; by rewrite Hc).
  assert (Hmem' : forall c, c ∈ callbacksOf (w_callbacks family l iw) <-> c ∈ l \/ c ∈ rest)
    by (intros c; by rewrite Hc', elem_of_app).
  split; [done| | |].
  - rewrite Hc'. apply NoDup_app. split; [done|]. split; [|done]. intros c Hcl Hcr. apply (Hf c Hcl), Hr. left. by apply Hmem.
  - intros c. rewrite Hr', Hr, Hmem, Hmem'. tauto.
  - intros c [Hcl|Hcr]%Hmem'; [|by apply Ha, Hmem]. intros Ho. apply (Hf c Hcl), Hr. by right.
Qed.

Lemma setupMTU_accounted others family iw n r iw' n' :
  accounted others iw n -> iw_changeCallbacks iw family = [] ->
  setupMTU family iw n = (r, (iw', n')) -> accounted others iw' n'.
Proof.
  intros Hac He. unfold setupMTU. case_match; [|by intros [= <- <- <-]]. unfold monitorMTU.
  destruct (mtuDoIt family (iw_luid iw) _ initMTU _ n) as [[u|e] [[st mtus] n1]] eqn:E; apply mtuDoIt_sameReg in E.
  - pose proof (accounted_same others iw iw n n1 eq_refl E Hac) as Hac1.
    destruct (registerPair n1) as [[l|e] n2] eqn:E2; apply registerPair_spec in E2 as [Hl2 Hr2]; try apply Hac1;
      intros [= <- <- <-].
    + destruct Hr2 as (Hnd & Hf & Hr2). eapply accounted_add; [|exact He|done|done|exact Hf|exact Hr2].
      by eapply accounted_same; [| |exact Hac1].
    + eapply (accounted_add others _ n1 n2 family []); [|exact He|done|constructor|set_solver|].
      * by eapply accounted_same; [| |exact Hac1].
      * intros c. rewrite Hr2. set_solver.
  - intros [= <- <- <-]. eapply (accounted_add others _ n1 n1 family []); [|exact He| |constructor|set_solver|set_solver].
    + by eapply accounted_same; [| |exact Hac].
    + eapply listening_same; [exact E|apply Hac].
Qed.

Lemma setup_accounted others family iw n iw' n' :
  accounted others iw n -> setup family iw n = (iw', n') -> accounted others iw' n'.
Proof.
  intros Hac. unfold setup. destruct family as [family|]; [|intros [= <- <-]; by eapply accounted_same; [| |exact Hac]].
  set (iw0 := w_watchdog false iw). assert (Hac0 : accounted others iw0 n) by by eapply accounted_same; [| |exact Hac].
  destruct (setupMTU family _ _) as [r [iw1 n1]] eqn:E.
  apply (setupMTU_accounted others) in E; [|by apply accounted_drop|cbn; by rewrite bool_decide_true].
  destruct r as [u|e]; [|intros [= <- <-]; by eapply accounted_same; [| |exact E]].
  destruct (configureInterface _ _ _ _ n1) as [[[u2|e2] n2]|] eqn:E2; [apply configureInterface_sameReg in E2..|];
    intros [= <- <-]; by eapply accounted_same; [| |exact E].
Qed.

Lemma onInterfaceChange_accounted others added event iw n iw' n' up :
  accounted others iw n -> onInterfaceChange added event iw n = (iw', n', up) -> accounted others iw' n'.
Proof.
  intros Hac. unfold onInterfaceChange. destruct added; cbn [negb]; [|by intros [= <- <- <-]].
  destruct (iw_luid iw =? 0); [intros [= <- <- <-]; by eapply accounted_same; [| |exact Hac]|].
  destruct (negb _); [by intros [= <- <- <-]|].
  destruct (setup event.2 iw n) as [iw1 n1] eqn:E. apply (setup_accounted others) in E; [|done].
  destruct (iw_adapter iw1) as [a|]; [|by intros [= <- <- <-]].
  destruct (onRegSys (adapter_AdapterState a) n1) as [[st|e] n2] eqn:E2; pose proof (sysOnly_onRegSys _ _ _ _ E2) as Hs2;
    [|intros [= <- <- <-]; by eapply accounted_same; [| |exact E]].
  destruct (st =? AdapterStateDown); [|intros [= <- <- <-]; by eapply accounted_same; [| |exact E]].
  destruct (onRegSys (adapter_SetConfiguration a _) n2) as [r3 n3] eqn:E3. cbn [snd].
  destruct (onRegSys (adapter_SetAdapterState a _) n3) as [r4 n4] eqn:E4. intros [= <- <- <-].
  eapply accounted_same; [done| |exact E]. eapply sameReg_trans; [exact Hs2|].
  eapply sameReg_trans; [exact (sysOnly_onRegSys _ _ _ _ E3)|exact (sysOnly_onRegSys _ _ _ _ E4)].
Qed.

Lemma lateEvents_accounted others late iw n iw' n' ups :
  accounted others iw n -> lateEvents late iw n = (iw', n', ups) -> accounted others iw' n'.
Proof.
  revert iw n ups; induction late as [|ev late IH]; intros iw n ups Hac; cbn [lateEvents]; [by intros [= <- <- <-]|].
  destruct (onInterfaceChange true ev iw n) as [[iw1 n1] up] eqn:E1.
  destruct (lateEvents late iw1 n1) as [[iw2 n2] ups2] eqn:E2. intros [= <- <- <-].
  eapply IH; [|exact E2]. by eapply onInterfaceChange_accounted.
Qed.

Lemma lateEvents_foreign late iw n iw' n' ups :
  Forall (foreign iw) late -> lateEvents late iw n = (iw', n', ups) -> callbacksOf iw' = callbacksOf iw.
Proof.
  revert iw ups; induction late as [|ev late IH]; intros iw ups Hf; cbn [lateEvents]; [by intros [= <- <- <-]|].
  apply Forall_cons in Hf as [Hev Hf]. unfold onInterfaceChange. cbn [negb]. destruct (Z.eqb_spec (iw_luid iw) 0) as [Hz|Hz].
  - destruct (lateEvents late _ n) as [[iw2 n2] ups2] eqn:E2. intros [= <- <- <-].
    apply IH in E2; [exact E2|]. eapply Forall_impl; [exact Hf|]. intros e _. by left.
  - destruct Hev as [?|Hev]; [done|]. rewrite (proj2 (Z.eqb_neq _ _) Hev). cbn [negb].
    destruct (lateEvents late iw n) as [[iw2 n2] ups2] eqn:E2. intros [= <- <- <-]. by eapply IH.
Qed.

Lemma Configure_accounted others a clamper config l iw n iw' n' :
  accounted others iw n -> Configure a clamper config l iw n = (iw', n') -> accounted others iw' n'.
Proof.
  intros Hac. unfold Configure. set (iw0 := mkWatcher _ _ _ _ _ _ _ _ _ _).
  assert (Hac0 : accounted others iw0 n) by by eapply accounted_same; [| |exact Hac].
  generalize (iw_storedEvents iw0). intros events. destruct (setupStored l events iw0 n) as [iw1 n1] eqn:E.
  assert (Hac1 : accounted others iw1 n1).
  { clear Hac. clearbody iw0. revert iw0 n Hac0 E. induction events as [|ev events IH]; intros iw0 n Hac0; cbn [setupStored]; [by intros [= <- <-]|].
    destruct (ev.1 =? l); [|by apply IH]. destruct (setup ev.2 iw0 n) as [iw2 n2] eqn:E2.
    apply IH. by eapply setup_accounted. }
  intros [= <- <-]. by eapply accounted_same; [| |exact Hac1].
Qed.

(** What happens to a watcher, and whatever else leaves the registry alone. *)
Inductive wstep : watcher * net -> watcher * net -> Prop :=
  | ws_change added event iw n : wstep (iw, n) (onInterfaceChange added event iw n).1
  | ws_configure a clamper config l iw n : wstep (iw, n) (Configure a clamper config l iw n)
  | ws_watchdog iw n : wstep (iw, n) (watchdogFires iw, n)
  | ws_system iw n n' : sameReg n n' -> wstep (iw, n) (iw, n').

Lemma accounted_step others x y : wstep x y -> accounted others x.1 x.2 -> accounted others y.1 y.2.
Proof.
  intros [added event iw n|a clamper config l iw n|iw n|iw n n' Hs]; cbn [fst snd]; intros Hac.
  - destruct (onInterfaceChange added event iw n) as [[iw' n'] up] eqn:E. by eapply onInterfaceChange_accounted.
  - destruct (Configure a clamper config l iw n) as [iw' n'] eqn:E. by eapply Configure_accounted.
  - eapply accounted_same; [|done|exact Hac]. unfold watchdogFires. by case_match.
  - by eapply accounted_same.
Qed.

Lemma watchInterface_accounted n iw n' :
  listening n -> watchInterface n = (Ok iw, n') -> accounted (fun c => registered c n) iw n'.
Proof.
  intros Hl. unfold watchInterface. destruct (RegisterInterfaceChangeCallback n) as [[c|e] n1] eqn:E; [|done].
  apply (RegisterChangeCallback_spec InterfaceChange n _ _ Hnz Hl) in E as [Hl1 [Hf Hr]]. intros [= <- <-].
  split; [done|apply NoDup_singleton| |].
  - intros c'. rewrite Hr. cbn. set_solver.
  - intros c' Hc'. cbn in Hc'. rewrite list_elem_of_singleton in Hc'. by subst.
Qed.

Lemma flushFamily_sameReg l family n : sameReg n (flushFamily l family n).
Proof.
  unfold flushFamily. destruct (FlushRoutes l family n) as [r1 n1] eqn:E1. cbn [snd].
  destruct (FlushIPAddresses l family n1) as [r2 n2] eqn:E2. cbn [snd].
  destruct (onRegSys (FlushDNS l family) n2) as [r3 n3] eqn:E3. cbn [snd].
  eapply sameReg_trans; [exact (sysOnly_onRegSys _ _ _ _ E1)|].
  eapply sameReg_trans; [exact (sysOnly_onRegSys _ _ _ _ E2)|exact (sysOnly_onRegSys _ _ _ _ E3)].
Qed.

(** What the unregistrations of Destroy leave. *)
Lemma destroyed_registered others iw iw1 n c :
  accounted others iw1 n -> (forall c, c ∈ callbacksOf iw -> ~ others c) ->
  registered c (unregisterAll (iw_changeCallbacks iw AF_INET6) (unregisterAll (iw_changeCallbacks iw AF_INET)
    (match iw_interfaceChangeCallback iw with Some c => unregister c n | None => n end)))
  <-> others c \/ (c ∈ callbacksOf iw1 /\ c ∉ callbacksOf iw).
Proof.
  intros [Hln Hnd Hr _] Ha.
  set (n2 := match iw_interfaceChangeCallback iw with Some c => unregister c n | None => n end).
  assert (H2' : listening n2 /\ forall c, registered c n2 <-> c ∉ option_list (iw_interfaceChangeCallback iw) /\ registered c n).
  { subst n2. destruct (iw_interfaceChangeCallback iw) as [c0|]; [exact (unregisterAll_spec [c0] n Hln)|].
    split; [done|]. set_solver. }
  destruct H2' as [Hl2 Hr2]. destruct (unregisterAll_spec (iw_changeCallbacks iw AF_INET) n2 Hl2) as [Hl3 Hr3].
  destruct (unregisterAll_spec (iw_changeCallbacks iw AF_INET6) _ Hl3) as [Hl4 Hr4].
  rewrite Hr4, Hr3, Hr2, Hr. specialize (Ha c). assert (Hin : c ∈ callbacksOf iw <-> c ∈ option_list (iw_interfaceChangeCallback iw)
    \/ c ∈ iw_changeCallbacks iw AF_INET \/ c ∈ iw_changeCallbacks iw AF_INET6) by (unfold callbacksOf; by rewrite !elem_of_app).
  rewrite Hin in Ha |- *. tauto.
Qed.

(** C25: From its start on, through any notifications and configurations, the
    callbacks that the watcher has registered are exactly those in its fields.
    Whatever notifications arrive while Destroy runs, Destroy unregisters the ones
    that were in the fields when it began and no other: what stays registered is
    what those notifications registered, and nothing does when none of them is for
    the interface of the tunnel. *)
Theorem watcher_callbacks n0 iw0 n1 iw n :
  listening n0 -> watchInterface n0 = (Ok iw0, n1) -> rtc wstep (iw0, n1) (iw, n) ->
  (forall c, registered c n <-> c ∈ callbacksOf iw \/ registered c n0)
  /\ forall (Ww : Type) (HWFP : Firewall.WFP Ww) (fw : Firewall.firewall (W := Ww)) late iw1 m ups iw' fw' n' on,
       lateEvents late (w_watchdog false iw) n = (iw1, m, ups) ->
       destroyWatcher late iw fw n = (iw', fw', n', on) ->
       (forall c, registered c n' <-> registered c n0 \/ (c ∈ callbacksOf iw1 /\ c ∉ callbacksOf iw))
       /\ (Forall (foreign iw) late -> forall c, registered c n' <-> registered c n0).
Proof.
  intros Hl E Hs. apply (watchInterface_accounted _ _ _ Hl) in E.
  assert (Hac : accounted (fun c => registered c n0) iw n).
  { change (accounted (fun c => registered c n0) (iw, n).1 (iw, n).2). change iw0 with (iw0, n1).1 in E.
    change n1 with (iw0, n1).2 in E at 2. revert E. induction Hs as [x|x y z Hst _ IH]; [done|].
    intros Hx. by apply IH, (accounted_step _ x). }
  split; [apply Hac|]. intros Ww HWFP fw late iw1 m ups iw' fw' n' on El Ed.
  assert (Hreg : forall c, registered c n' <-> registered c n0 \/ (c ∈ callbacksOf iw1 /\ c ∉ callbacksOf iw)).
  { intros c. unfold destroyWatcher in Ed. rewrite El in Ed. injection Ed as _ _ <- _.
    rewrite <- (destroyed_registered (fun c => registered c n0) iw iw1 m c); [| |apply Hac].
    - cbn [w_watchdog iw_luid iw_changeCallbacks iw_interfaceChangeCallback]. case_match; [|done].
      apply registered_same. eapply sameReg_trans; apply flushFamily_sameReg.
    - eapply lateEvents_accounted; [|exact El]. by eapply accounted_same; [| |exact Hac]. }
  split; [exact Hreg|]. intros Hf c. rewrite Hreg. apply lateEvents_foreign in El; [|exact Hf]. rewrite El.
  change (callbacksOf (w_watchdog false iw)) with (callbacksOf iw). tauto.
Qed.
End Callbacks.
