(* ===== verification/TunnelService.v ===== *)
(** * The tunnel service: tunnel/service.go, scriptrunner.go

    Execute brings a tunnel up, serves until it is told to stop or something
    fails, and takes everything down again. Its local variables are the fields of
    a state; a step that fails ends the body with the error of that step, and the
    deferred function runs on the state that is left. The calls on devices that
    succeeded are kept in [sv_trace], in their order. The three systems it works
    on (files, network and devices, filtering platform) do not share state. *)

From S2P Require Import Prelude GoStrings GoNum Netip Config Name Paths WSTLS Parser Writer UAPI Driver Effects Store Services Firewall DeterministicGUID ChangeHandlers TunnelNet InterfaceWatcher.
Import TunnelNet GUID.
Local Open Scope Z_scope.

Definition svcStartPending : Z := 2.
Definition svcStopPending : Z := 3.
Definition svcRunning : Z := 4.
Definition svcStop : Z := 1.
Definition svcInterrogate : Z := 4.
Definition svcShutdown : Z := 5.
Definition AdapterLogOn : Z := 1.
Definition ERROR_GENERIC_COMMAND_FAILED : Z := 14109.

(** ** Devices *)

Class DeviceSystem (W adapter tun device listener bind process : Type) := {
  rl_InitGlobalLogger : path -> M W unit;
  scm_Connect : M W unit;
  scm_LockStatus : M W bool;
  scm_Disconnect : M W unit;
  tun_CreateTUN : gostring -> gostring -> Z -> M W tun;
  tun_LUID : tun -> LUID;
  tun_Close : tun -> M W unit;
  driver_CreateAdapter : gostring -> gostring -> gostring -> M W adapter;
  adapter_LUID : adapter -> LUID;
  adapter_SetLogging : adapter -> Z -> M W unit;
  adapter_CloseHandle : adapter -> M W unit;
  conn_NewMultiplexBind : M W bind;
  device_NewDevice : tun -> bind -> W -> device * W;
  device_IpcSet : device -> gostring -> M W unit;
  device_Up : device -> M W unit;
  device_Close : device -> M W unit;
  ipc_UAPIListen : gostring -> M W listener;
  listener_Close : listener -> M W unit;
  DropAllPrivileges : bool -> M W unit;
  win_GetSystemDirectory : M W gostring;
  os_OpenDevNull : M W Z;
  os_Pipe : M W (Z * Z);
  os_CloseFile : Z -> M W unit;
  os_StartProcess : gostring -> gostring -> list Z -> gostring -> M W process;
  process_Wait : process -> M W Z
}.

(** The calls that make, configure and release something; [BroughtUp] says
    whether the firewall was on. *)
Inductive action (adapter tun device listener : Type) : Type :=
  | Created (a : adapter)
  | CreatedTUN (t : tun)
  | MadeDevice (t : tun) (d : device)
  | Listening (l : listener)
  | BroughtUp (firewallOn : bool)
  | ClosedListener (l : listener)
  | ClosedDevice (d : device)
  | ClosedTUN (t : tun)
  | ClosedAdapter (a : adapter)
  | RanScript (command : gostring).
Arguments Created {adapter tun device listener}.
Arguments CreatedTUN {adapter tun device listener}.
Arguments MadeDevice {adapter tun device listener}.
Arguments Listening {adapter tun device listener}.
Arguments BroughtUp {adapter tun device listener}.
Arguments ClosedListener {adapter tun device listener}.
Arguments ClosedDevice {adapter tun device listener}.
Arguments ClosedTUN {adapter tun device listener}.
Arguments ClosedAdapter {adapter tun device listener}.
Arguments RanScript {adapter tun device listener}.

Section Service.
Context {Wf handle W Ww adapter tun device listener bind process : Type}.
Context `{FileSystem Wf handle} `{NetSystem W} `{ChangeNotify W} `{AdapterSystem W adapter} `{ResolverSystem W}
  `{Registry W} `{DeviceSystem W adapter tun device listener bind process} `{Firewall.WFP Ww}.
Context `{UnicodeTables} `{NetURL}.
Context (decoders : list (gostring -> option gostring)) (fuel : nat).
(** What the GUID of the adapter is made with. *)
Context (sort_Slice : forall A : Type, (A -> A -> bool) -> list A -> list A).
Context (NFC : gostring -> gostring) (Public : Key -> Key) (blake2s_Sum256 : gostring -> gostring).
Context (UseFixedGUID : bool).

Abbreviation action := (action adapter tun device listener).

(** The state of the process and the variables of Execute. *)
Record execution : Type := mkExecution {
  sv_files : store Wf;
  sv_net : registry W;
  sv_fw : Firewall.firewall (W := Ww);
  sv_adminKey : option (result unit);
  sv_changes : list (Z * bool);
  sv_trace : list action;
  lo_watcher : option (interfaceWatcher adapter);
  lo_adapter : option adapter;
  lo_nativeTun : option tun;
  lo_dev : option device;
  lo_uapi : option listener;
  lo_routeMonitor : option defaultRouteMonitor;
  lo_removeWSTLSFiles : option path;
  lo_luid : LUID;
  lo_config : option Config;
  lo_serviceError : Z;
  lo_serviceState : Z
}.

Definition set_sv_files (x : store Wf) (s : execution) : execution :=
  mkExecution x (sv_net s) (sv_fw s) (sv_adminKey s) (sv_changes s) (sv_trace s) (lo_watcher s) (lo_adapter s)
    (lo_nativeTun s) (lo_dev s) (lo_uapi s) (lo_routeMonitor s) (lo_removeWSTLSFiles s) (lo_luid s) (lo_config
    s) (lo_serviceError s) (lo_serviceState s).
Definition set_sv_net (x : registry W) (s : execution) : execution :=
  mkExecution (sv_files s) x (sv_fw s) (sv_adminKey s) (sv_changes s) (sv_trace s) (lo_watcher s) (lo_adapter
    s) (lo_nativeTun s) (lo_dev s) (lo_uapi s) (lo_routeMonitor s) (lo_removeWSTLSFiles s) (lo_luid s)
    (lo_config s) (lo_serviceError s) (lo_serviceState s).
Definition set_sv_fw (x : Firewall.firewall (W := Ww)) (s : execution) : execution :=
  mkExecution (sv_files s) (sv_net s) x (sv_adminKey s) (sv_changes s) (sv_trace s) (lo_watcher s) (lo_adapter
    s) (lo_nativeTun s) (lo_dev s) (lo_uapi s) (lo_routeMonitor s) (lo_removeWSTLSFiles s) (lo_luid s)
    (lo_config s) (lo_serviceError s) (lo_serviceState s).
Definition set_sv_adminKey (x : option (result unit)) (s : execution) : execution :=
  mkExecution (sv_files s) (sv_net s) (sv_fw s) x (sv_changes s) (sv_trace s) (lo_watcher s) (lo_adapter s)
    (lo_nativeTun s) (lo_dev s) (lo_uapi s) (lo_routeMonitor s) (lo_removeWSTLSFiles s) (lo_luid s) (lo_config
    s) (lo_serviceError s) (lo_serviceState s).
Definition set_sv_changes (x : list (Z * bool)) (s : execution) : execution :=
  mkExecution (sv_files s) (sv_net s) (sv_fw s) (sv_adminKey s) x (sv_trace s) (lo_watcher s) (lo_adapter s)
    (lo_nativeTun s) (lo_dev s) (lo_uapi s) (lo_routeMonitor s) (lo_removeWSTLSFiles s) (lo_luid s) (lo_config
    s) (lo_serviceError s) (lo_serviceState s).
Definition set_sv_trace (x : list action) (s : execution) : execution :=
  mkExecution (sv_files s) (sv_net s) (sv_fw s) (sv_adminKey s) (sv_changes s) x (lo_watcher s) (lo_adapter s)
    (lo_nativeTun s) (lo_dev s) (lo_uapi s) (lo_routeMonitor s) (lo_removeWSTLSFiles s) (lo_luid s) (lo_config
    s) (lo_serviceError s) (lo_serviceState s).
Definition set_lo_watcher (x : option (interfaceWatcher adapter)) (s : execution) : execution :=
  mkExecution (sv_files s) (sv_net s) (sv_fw s) (sv_adminKey s) (sv_changes s) (sv_trace s) x (lo_adapter s)
    (lo_nativeTun s) (lo_dev s) (lo_uapi s) (lo_routeMonitor s) (lo_removeWSTLSFiles s) (lo_luid s) (lo_config
    s) (lo_serviceError s) (lo_serviceState s).
Definition set_lo_adapter (x : option adapter) (s : execution) : execution :=
  mkExecution (sv_files s) (sv_net s) (sv_fw s) (sv_adminKey s) (sv_changes s) (sv_trace s) (lo_watcher s) x
    (lo_nativeTun s) (lo_dev s) (lo_uapi s) (lo_routeMonitor s) (lo_removeWSTLSFiles s) (lo_luid s) (lo_config
    s) (lo_serviceError s) (lo_serviceState s).
Definition set_lo_nativeTun (x : option tun) (s : execution) : execution :=
  mkExecution (sv_files s) (sv_net s) (sv_fw s) (sv_adminKey s) (sv_changes s) (sv_trace s) (lo_watcher s)
    (lo_adapter s) x (lo_dev s) (lo_uapi s) (lo_routeMonitor s) (lo_removeWSTLSFiles s) (lo_luid s) (lo_config
    s) (lo_serviceError s) (lo_serviceState s).
Definition set_lo_dev (x : option device) (s : execution) : execution :=
  mkExecution (sv_files s) (sv_net s) (sv_fw s) (sv_adminKey s) (sv_changes s) (sv_trace s) (lo_watcher s)
    (lo_adapter s) (lo_nativeTun s) x (lo_uapi s) (lo_routeMonitor s) (lo_removeWSTLSFiles s) (lo_luid s)
    (lo_config s) (lo_serviceError s) (lo_serviceState s).
Definition set_lo_uapi (x : option listener) (s : execution) : execution :=
  mkExecution (sv_files s) (sv_net s) (sv_fw s) (sv_adminKey s) (sv_changes s) (sv_trace s) (lo_watcher s)
    (lo_adapter s) (lo_nativeTun s) (lo_dev s) x (lo_routeMonitor s) (lo_removeWSTLSFiles s) (lo_luid s)
    (lo_config s) (lo_serviceError s) (lo_serviceState s).
Definition set_lo_routeMonitor (x : option defaultRouteMonitor) (s : execution) : execution :=
  mkExecution (sv_files s) (sv_net s) (sv_fw s) (sv_adminKey s) (sv_changes s) (sv_trace s) (lo_watcher s)
    (lo_adapter s) (lo_nativeTun s) (lo_dev s) (lo_uapi s) x (lo_removeWSTLSFiles s) (lo_luid s) (lo_config s)
    (lo_serviceError s) (lo_serviceState s).
Definition set_lo_removeWSTLSFiles (x : option path) (s : execution) : execution :=
  mkExecution (sv_files s) (sv_net s) (sv_fw s) (sv_adminKey s) (sv_changes s) (sv_trace s) (lo_watcher s)
    (lo_adapter s) (lo_nativeTun s) (lo_dev s) (lo_uapi s) (lo_routeMonitor s) x (lo_luid s) (lo_config s)
    (lo_serviceError s) (lo_serviceState s).
Definition set_lo_luid (x : LUID) (s : execution) : execution :=
  mkExecution (sv_files s) (sv_net s) (sv_fw s) (sv_adminKey s) (sv_changes s) (sv_trace s) (lo_watcher s)
    (lo_adapter s) (lo_nativeTun s) (lo_dev s) (lo_uapi s) (lo_routeMonitor s) (lo_removeWSTLSFiles s) x
    (lo_config s) (lo_serviceError s) (lo_serviceState s).
Definition set_lo_config (x : option Config) (s : execution) : execution :=
  mkExecution (sv_files s) (sv_net s) (sv_fw s) (sv_adminKey s) (sv_changes s) (sv_trace s) (lo_watcher s)
    (lo_adapter s) (lo_nativeTun s) (lo_dev s) (lo_uapi s) (lo_routeMonitor s) (lo_removeWSTLSFiles s) (lo_luid
    s) x (lo_serviceError s) (lo_serviceState s).
Definition set_lo_serviceError (x : Z) (s : execution) : execution :=
  mkExecution (sv_files s) (sv_net s) (sv_fw s) (sv_adminKey s) (sv_changes s) (sv_trace s) (lo_watcher s)
    (lo_adapter s) (lo_nativeTun s) (lo_dev s) (lo_uapi s) (lo_routeMonitor s) (lo_removeWSTLSFiles s) (lo_luid
    s) (lo_config s) x (lo_serviceState s).
Definition set_lo_serviceState (x : Z) (s : execution) : execution :=
  mkExecution (sv_files s) (sv_net s) (sv_fw s) (sv_adminKey s) (sv_changes s) (sv_trace s) (lo_watcher s)
    (lo_adapter s) (lo_nativeTun s) (lo_dev s) (lo_uapi s) (lo_routeMonitor s) (lo_removeWSTLSFiles s) (lo_luid
    s) (lo_config s) (lo_serviceError s) x.

(** ** Calls *)

Definition onFiles {A} (f : M (store Wf) A) : M execution A :=
  fun s => let '(r, x) := f (sv_files s) in (r, set_sv_files x s).
Definition onNet {A} (f : M (registry W) A) : M execution A :=
  fun s => let '(r, n) := f (sv_net s) in (r, set_sv_net n s).
Definition onDev {A} (f : M W A) : M execution A := onNet (onRegSys f).
Definition ignoring {A} (f : M execution A) : M execution unit := do! _ := try f in mret tt.
Definition note (a : action) : M execution unit := mmod (fun s => set_sv_trace (sv_trace s ++ [a]) s).
Definition report (state : Z) (accepts : bool) : M execution unit :=
  mmod (fun s => set_sv_changes (sv_changes s ++ [(state, accepts)]) s).

(** A step after whose failure the body returns with that service error. *)
Definition failing {A} (serviceError : Z) (f : M execution A) : M execution A :=
  fun s => match f s with
           | (Err e, s') => (Err e, set_lo_serviceError serviceError s')
           | ok => ok
           end.

Definition wrapping {A} (why : string) (f : M execution A) : M execution A := mwrap (ErrWrap why []) f.

(** ** scriptrunner.go *)

Definition startScript (comspec command interfaceName : gostring) (devNull : Z) : M execution unit :=
  do! (reader, writer) := onDev os_Pipe in
  do! started := try (onDev (os_StartProcess comspec (str "cmd /c " ++ command) [devNull; writer; writer]
                        (str "WIREGUARD_TUNNEL_NAME=" ++ interfaceName))) in
  do! _ := ignoring (onDev (os_CloseFile writer)) in
  match started with
  | Err e => do! _ := ignoring (onDev (os_CloseFile reader)) in mfail e
  | Ok p =>
      do! _ := note (RanScript command) in
      do! state := try (onDev (process_Wait p)) in
      do! _ := ignoring (onDev (os_CloseFile reader)) in
      match state with
      | Err e => mfail e
      | Ok code => if code =? 0 then mret tt else mfail (ErrCode ERROR_GENERIC_COMMAND_FAILED)
      end
  end.

Definition dangerousScriptExecution : M execution bool :=
  fun s => let '(b, key, w) := AdminBool (sv_adminKey s) (str "DangerousScriptExecution") (rg_sys (sv_net s)) in
           (Ok b, set_sv_adminKey key (set_sv_net (mkRegistry w (rg_next (sv_net s)) (rg_handlers (sv_net s))) s)).

Definition runScriptCommand (command interfaceName : gostring) : M execution unit :=
  if (length command =? 0)%nat then mret tt
  else
    do! allowed := dangerousScriptExecution in
    if negb allowed then mret tt
    else
      do! system32 := onDev win_GetSystemDirectory in
      do! devNull := onDev os_OpenDevNull in
      do! r := try (startScript (system32 ++ str "\cmd.exe") command interfaceName devNull) in
      do! _ := ignoring (onDev (os_CloseFile devNull)) in
      mpure r.

(** ** The body of Execute *)

(** The variable config; it is set when it is used. *)
Definition theConfig : M execution Config :=
  fun s => match lo_config s with Some c => (Ok c, s) | None => (Err (ErrText "no configuration"), s) end.

Definition prepareTLS (p : path) : M execution unit :=
  do! config := theConfig in
  fun s => let '(r, config', files) := PrepareWSTLSFiles fuel (PathIsEncrypted (render p)) config (sv_files s) in
           let s := set_lo_config (Some config') (set_sv_files files s) in
           match r with
           | Ok dir => (Ok tt, set_lo_removeWSTLSFiles (Some dir) s)
           | Err e => (Err e, s)
           end.

(** At boot, with the service control manager locked, the service says that it
    runs before it does. *)
Definition announceAtBoot : M execution unit :=
  fun s => if negb (StartedAtBoot (sv_net s)) then (Ok tt, s) else
    (do! connected := try (onDev scm_Connect) in
     match connected with
     | Err _ => mret tt
     | Ok _ =>
         do! locked := try (onDev scm_LockStatus) in
         do! _ := match locked with
                  | Ok true => do! _ := mmod (set_lo_serviceState svcRunning) in report svcRunning false
                  | _ => mret tt
                  end in
         ignoring (onDev scm_Disconnect)
     end) s.

Definition firewallIsOn (s : execution) : bool := negb (Firewall.wfpSession (sv_fw s) =? 0).

(** Something that happens to the watcher, with the number of times that it brought
    the adapter up. *)
Definition withWatcher (f : interfaceWatcher adapter -> registry W -> interfaceWatcher adapter * registry W * nat)
    : M execution unit :=
  fun s => match lo_watcher s with
           | None => (Ok tt, s)
           | Some iw =>
               let '(iw, n, ups) := f iw (sv_net s) in
               let tr := sv_trace s ++ replicate ups (BroughtUp (firewallIsOn s)) in
               (Ok tt, set_sv_trace tr (set_lo_watcher (Some iw) (set_sv_net n s)))
           end.

(** The interface notifications that come before the watcher knows its adapter. *)
Definition earlyEvents (early : list interfaceWatcherEvent) : M execution unit := withWatcher (lateEvents early).

Definition startWatching : M execution unit :=
  do! iw := onNet watchInterface in
  mmod (set_lo_watcher (Some iw)).

Definition resolveConfig : M execution unit :=
  do! config := theConfig in
  fun s => let '(r, config', w) := ResolveEndpoints config (rg_sys (sv_net s)) in
           (r, set_lo_config (Some config')
                 (set_sv_net (mkRegistry w (rg_next (sv_net s)) (rg_handlers (sv_net s))) s)).

(** Up to fifteen tries when the system has just booted. *)
Fixpoint createAdapter {A} (tries : nat) (create : M W A) : M execution A :=
  match tries with
  | O => mfail (ErrText "no try")
  | S tries' => fun s =>
      match onDev create s with
      | (Ok a, s') => (Ok a, s')
      | (Err e, s') => if negb (StartedAtBoot (sv_net s')) || (tries' =? 0)%nat then (Err e, s')
                       else createAdapter tries' create s'
      end
  end.

Definition makeTUN (config : Config) : M execution unit :=
  do! guid := mpure (deterministicGUID sort_Slice NFC Public blake2s_Sum256 UseFixedGUID config) in
  do! t := failing ErrorCreateNetworkAdapter (wrapping "Error creating adapter"
             (createAdapter 15 (tun_CreateTUN (c_Name config) guid (i_MTU (c_Interface config))))) in
  do! _ := note (CreatedTUN t) in
  mmod (fun s => set_lo_luid (tun_LUID t) (set_lo_nativeTun (Some t) s)).

Definition makeAdapter (config : Config) : M execution unit :=
  do! guid := mpure (deterministicGUID sort_Slice NFC Public blake2s_Sum256 UseFixedGUID config) in
  do! a := failing ErrorCreateNetworkAdapter (wrapping "Error creating adapter"
             (createAdapter 15 (driver_CreateAdapter (c_Name config) (str "WireGuard") guid))) in
  do! _ := note (Created a) in
  do! _ := mmod (fun s => set_lo_luid (adapter_LUID a) (set_lo_adapter (Some a) s)) in
  failing ErrorCreateNetworkAdapter (wrapping "Error enabling adapter logging" (onDev (adapter_SetLogging a AdapterLogOn))).

Definition switchOnFirewall (config : Config) : M execution unit :=
  fun s => let '(r, fw) := enableFirewall config (lo_luid s) (sv_fw s) in (r, set_sv_fw fw s).

Definition bringUp (f : M W unit) : M execution unit :=
  do! _ := onDev f in
  do! on := mget firewallIsOn in
  note (BroughtUp on).

Definition newMonitor (config : Config) : M execution unit :=
  fun s => let '(r, n) := newDefaultRouteMonitor config (lo_luid s) (sv_net s) in
           let s := set_sv_net n s in
           match r with
           | Ok m => (Ok tt, set_lo_routeMonitor (Some m) s)
           | Err e => (Err e, s)
           end.

Definition startMonitor : M execution unit :=
  fun s => match lo_routeMonitor s with
           | None => (Ok tt, s)
           | Some m => let '(r, (m', n)) := start registerPair m (sv_net s) in
                       (r, set_lo_routeMonitor (Some m') (set_sv_net n s))
           end.

Definition configureWatcher (a : option adapter) (clamper : bool) (config : Config) : M execution unit :=
  fun s => match lo_watcher s with
           | None => (Ok tt, s)
           | Some iw => let '(iw, n) := Configure a clamper config (lo_luid s) iw (sv_net s) in
                        (Ok tt, set_lo_watcher (Some iw) (set_sv_net n s))
           end.

(** The userspace device of a tunnel with WebSocket peers. *)
Definition runUserspace (t : tun) (config : Config) : M execution unit :=
  do! b := failing ErrorDeviceSetConfig (onDev conn_NewMultiplexBind) in
  do! dev := onDev (fun w => let '(d, w') := device_NewDevice t b w in (Ok d, w')) in
  do! _ := note (MadeDevice t dev) in
  do! _ := mmod (set_lo_dev (Some dev)) in
  do! l := failing ErrorUAPIListen (onDev (ipc_UAPIListen (c_Name config))) in
  do! _ := note (Listening l) in
  do! _ := mmod (set_lo_uapi (Some l)) in
  do! _ := failing ErrorDeviceSetConfig (onDev (device_IpcSet dev (ToUAPI config))) in
  do! _ := failing ErrorBindSocketsToDefaultRoutes (newMonitor config) in
  do! _ := failing ErrorDeviceBringUp (bringUp (device_Up dev)) in
  do! _ := failing ErrorBindSocketsToDefaultRoutes startMonitor in
  configureWatcher None true config.

(** The driver's adapter of any other tunnel. *)
Definition runDriver (a : adapter) (config : Config) : M execution unit :=
  do! _ := failing ErrorDeviceSetConfig (onDev (adapter_SetConfiguration a (ToDriverConfiguration config))) in
  do! _ := failing ErrorDeviceBringUp (bringUp (adapter_SetAdapterState a AdapterStateUp)) in
  configureWatcher (Some a) false config.

Definition prepareService (p : path) (early : list interfaceWatcherEvent) : M execution unit :=
  do! logFile := failing ErrorRingloggerOpen (onFiles (LogFile fuel true)) in
  do! _ := failing ErrorRingloggerOpen (onDev (rl_InitGlobalLogger logFile)) in
  do! config := failing ErrorLoadConfiguration (onFiles (LoadFromPath decoders p)) in
  do! _ := mmod (set_lo_config (Some (DeduplicateNetworkEntries config))) in
  do! _ := failing ErrorLoadConfiguration (prepareTLS p) in
  do! _ := announceAtBoot in
  do! _ := failing ErrorSetNetConfig startWatching in
  do! _ := earlyEvents early in
  failing ErrorDNSLookup resolveConfig.

(** With the adapter made: the firewall first, then the device. *)
Definition connectTunnel (config : Config) : M execution unit :=
  do! _ := failing ErrorRunScript (runScriptCommand (i_PreUp (c_Interface config)) (c_Name config)) in
  do! _ := failing ErrorFirewall (switchOnFirewall config) in
  do! _ := failing ErrorDropPrivileges (onDev (DropAllPrivileges true)) in
  do! t := mget lo_nativeTun in
  do! a := mget lo_adapter in
  do! _ := match t, a with
           | Some t, _ => runUserspace t config
           | None, Some a => runDriver a config
           | None, None => mret tt
           end in
  do! _ := failing ErrorRunScript (runScriptCommand (i_PostUp (c_Interface config)) (c_Name config)) in
  do! state := mget lo_serviceState in
  report state true.

Definition startTunnel : M execution unit :=
  do! config := theConfig in
  do! _ := if HasWebSocketPeers config then makeTUN config else makeAdapter config in
  connectTunnel config.

(** ** The loop

    What the select of the loop takes, and what happens beside it: a change of an
    interface, the watchdog. *)
Inductive serviceEvent : Type :=
  | DeviceDone
  | ControlRequest (cmd : Z) (currentStatus : Z * bool)
  | InterfaceEvent (added : bool) (event : interfaceWatcherEvent)
  | WatchdogEvent
  | StartedEvent
  | ErrorEvent.

(** A value taken from a channel. *)
Definition takeStarted (iw : interfaceWatcher adapter) : interfaceWatcher adapter :=
  mkWatcher (iw_errors iw) (tail (iw_started iw)) (iw_conf iw) (iw_adapter iw) (iw_clamper iw) (iw_luid iw)
    (iw_interfaceChangeCallback iw) (iw_changeCallbacks iw) (iw_storedEvents iw) (iw_watchdog iw).

(** True when Execute returns; false when the events run out first. *)
Fixpoint serve (started : bool) (events : list serviceEvent) : M execution bool :=
  match events with
  | [] => mret false
  | DeviceDone :: rest =>
      do! dev := mget lo_dev in
      match dev with Some _ => mret true | None => serve started rest end
  | ControlRequest cmd currentStatus :: rest =>
      if (cmd =? svcStop) || (cmd =? svcShutdown) then mret true
      else if cmd =? svcInterrogate then
        do! _ := report currentStatus.1 currentStatus.2 in serve started rest
      else serve started rest
  | InterfaceEvent added event :: rest =>
      do! _ := withWatcher (fun iw n => let '(iw, n, up) := onInterfaceChange added event iw n in
                                        (iw, n, Nat.b2n up)) in serve started rest
  | WatchdogEvent :: rest =>
      do! _ := withWatcher (fun iw n => (watchdogFires iw, n, 0%nat)) in serve started rest
  | StartedEvent :: rest =>
      do! iw := mget lo_watcher in
      match iw with
      | Some iw =>
          match iw_started iw with
          | [] => serve started rest
          | _ =>
              do! _ := withWatcher (fun iw n => (takeStarted iw, n, 0%nat)) in
              if negb started then
                do! _ := mmod (set_lo_serviceState svcRunning) in
                do! _ := report svcRunning true in
                serve true rest
              else serve started rest
          end
      | None => serve started rest
      end
  | ErrorEvent :: rest =>
      do! iw := mget lo_watcher in
      match iw with
      | Some iw =>
          match iw_errors iw with
          | [] => serve started rest
          | (serviceError, e) :: _ => failing serviceError (mfail e)
          end
      | None => serve started rest
      end
  end.

(** ** The deferred function *)

Definition hasAdapter (s : execution) : bool :=
  match lo_adapter s, lo_nativeTun s with None, None => false | _, _ => true end.

(** A script that runs only when nothing has failed. *)
Definition downScript (failed : option goerr) (script : Interface -> gostring) : M execution (option goerr) :=
  fun s => match failed, hasAdapter s, lo_config s with
           | None, true, Some config =>
               match runScriptCommand (script (c_Interface config)) (c_Name config) s with
               | (Ok _, s') => (Ok None, s')
               | (Err e, s') => (Ok (Some e), s')
               end
           | _, _, _ => (Ok failed, s)
           end.

Definition closing (a : action) (f : M W unit) : M execution unit :=
  do! _ := ignoring (onDev f) in note a.

Definition closeWatcher (late : list interfaceWatcherEvent) : M execution unit :=
  fun s => match lo_watcher s with
           | None => (Ok tt, s)
           | Some iw =>
               let '(iw, fw, n, broughtUp) := destroyWatcher late iw (sv_fw s) (sv_net s) in
               let tr := sv_trace s ++ map BroughtUp broughtUp in
               (Ok tt, set_sv_trace tr (set_lo_watcher (Some iw) (set_sv_fw fw (set_sv_net n s))))
           end.

Definition closeMonitor : M execution unit :=
  fun s => match lo_routeMonitor s with
           | None => (Ok tt, s)
           | Some m => let '(m, n) := Destroy unregisterAll m (sv_net s) in
                       (Ok tt, set_lo_routeMonitor (Some m) (set_sv_net n s))
           end.

Definition closeDevices : M execution unit :=
  do! uapi := mget lo_uapi in
  do! _ := match uapi with Some l => closing (ClosedListener l) (listener_Close l) | None => mret tt end in
  do! dev := mget lo_dev in
  do! t := mget lo_nativeTun in
  do! _ := match dev, t with
           | Some d, _ => closing (ClosedDevice d) (device_Close d)
           | None, Some t => closing (ClosedTUN t) (tun_Close t)
           | None, None => mret tt
           end in
  do! a := mget lo_adapter in
  match a with Some a => closing (ClosedAdapter a) (adapter_CloseHandle a) | None => mret tt end.

Definition removeTLS : M execution unit :=
  do! dir := mget lo_removeWSTLSFiles in
  match dir with Some dir => onFiles (cleanupFiles dir) | None => mret tt end.

Definition finish (late : list interfaceWatcherEvent) (err : option goerr) : M execution (bool * Z) :=
  do! serviceError := mget lo_serviceError in
  let ec := DetermineErrorCode err serviceError in
  let logErr := CombineErrors err serviceError in
  do! _ := mmod (set_lo_serviceState svcStopPending) in
  do! _ := report svcStopPending false in
  do! logErr := downScript logErr i_PreDown in
  do! _ := closeWatcher late in
  do! _ := closeMonitor in
  do! _ := closeDevices in
  do! _ := removeTLS in
  do! _ := downScript logErr i_PostDown in
  mret ec.

(** All of it but the deferred function. *)
Definition body (p : path) (early : list interfaceWatcherEvent) (events : list serviceEvent) : M execution bool :=
  do! _ := prepareService p early in
  do! _ := startTunnel in
  serve false events.

(** The exit code once it has returned; None while it serves. *)
Definition Execute (p : path) (early : list interfaceWatcherEvent) (events : list serviceEvent)
    (late : list interfaceWatcherEvent) : M execution (option (bool * Z)) :=
  do! _ := mmod (set_lo_serviceState svcStartPending) in
  do! _ := report svcStartPending false in
  do! r := try (body p early events) in
  match r with
  | Ok false => mret None
  | Ok true => do! ec := finish late None in mret (Some ec)
  | Err e => do! ec := finish late (Some e) in mret (Some ec)
  end.
End Service.
