(* ===== verification/TunnelServiceTheorems.v ===== *)
(** * What a tunnel service leaves behind

    However its steps fail and whatever happens while it serves: each adapter, TUN,
    device and listener it made is closed once, no rule of the firewall stays in
    force, and the adapter is only brought up behind the firewall. *)

From S2P Require Import Prelude GoStrings GoNum Netip Config Name Paths WSTLS WSTLSNames Parser Writer ConfWf UAPI Driver Effects Store StoreLaws StoreTheorems StoreTLS StoreTunnels Services Firewall FirewallTheorems DeterministicGUID ChangeHandlers TunnelNet InterfaceWatcher WatcherTheorems TunnelService.
Import TunnelNet GUID.
Local Open Scope Z_scope.

Inductive resource (adapter tun device listener : Type) : Type :=
  | RAdapter (a : adapter)
  | RTun (t : tun)
  | RDevice (d : device)
  | RListener (l : listener).
Arguments RAdapter {adapter tun device listener}.
Arguments RTun {adapter tun device listener}.
Arguments RDevice {adapter tun device listener}.
Arguments RListener {adapter tun device listener}.

Section Resources.
Context {adapter tun device listener : Type}.
Abbreviation action := (action adapter tun device listener).
Abbreviation resource := (resource adapter tun device listener).

(** What is held after the calls of a trace: a device takes over its TUN, and
    only what is held can be closed. *)
Inductive owns : list action -> list resource -> Prop :=
  | owns_nil : owns [] []
  | owns_perm tr h h' : owns tr h -> h ≡ₚ h' -> owns tr h'
  | owns_created tr h a : owns tr h -> owns (tr ++ [Created a]) (RAdapter a :: h)
  | owns_tun tr h t : owns tr h -> owns (tr ++ [CreatedTUN t]) (RTun t :: h)
  | owns_device tr h t d : owns tr (RTun t :: h) -> owns (tr ++ [MadeDevice t d]) (RDevice d :: h)
  | owns_listening tr h l : owns tr h -> owns (tr ++ [Listening l]) (RListener l :: h)
  | owns_up tr h b : owns tr h -> owns (tr ++ [BroughtUp b]) h
  | owns_script tr h c : owns tr h -> owns (tr ++ [RanScript c]) h
  | owns_closedListener tr h l : owns tr (RListener l :: h) -> owns (tr ++ [ClosedListener l]) h
  | owns_closedDevice tr h d : owns tr (RDevice d :: h) -> owns (tr ++ [ClosedDevice d]) h
  | owns_closedTUN tr h t : owns tr (RTun t :: h) -> owns (tr ++ [ClosedTUN t]) h
  | owns_closedAdapter tr h a : owns tr (RAdapter a :: h) -> owns (tr ++ [ClosedAdapter a]) h.

Lemma owns_scripts tr h l : owns tr h -> owns (tr ++ map RanScript l) h.
Proof.
  revert tr; induction l as [|c l IH]; intros tr Ht; cbn [map]; [by rewrite app_nil_r|].
  change (RanScript c :: map RanScript l) with ([RanScript c] ++ map RanScript l : list action).
  rewrite (assoc_L (++)). by apply IH, owns_script.
Qed.

Lemma owns_ups tr h l : owns tr h -> owns (tr ++ map BroughtUp l) h.
Proof.
  revert tr; induction l as [|b l IH]; intros tr Ht; cbn [map]; [by rewrite app_nil_r|].
  change (BroughtUp b :: map BroughtUp l) with ([BroughtUp b] ++ map BroughtUp l : list action).
  rewrite (assoc_L (++)). by apply IH, owns_up.
Qed.

Definition behindFirewall (a : action) : Prop := match a with BroughtUp on => on = true | _ => True end.
End Resources.

Create HintDb tame.

Section Released.
Context {Wf handle W Ww adapter tun device listener bind process : Type}.
Context `{FileSystem Wf handle} `{NetSystem W} `{ChangeNotify W} `{AdapterSystem W adapter} `{ResolverSystem W}
  `{Registry W} `{DeviceSystem W adapter tun device listener bind process} `{WFPLaws : Firewall.WFPLaws Ww}.
Context `{UnicodeTables} `{NetURL}.
Context (decoders : list (gostring -> option gostring)) (fuel : nat).
Context (sort_Slice : forall A : Type, (A -> A -> bool) -> list A -> list A).
Context (NFC : gostring -> gostring) (Public : Key -> Key) (blake2s_Sum256 : gostring -> gostring).
Context (UseFixedGUID : bool).

Abbreviation execution := (execution (Wf := Wf) (W := W) (Ww := Ww) (adapter := adapter) (tun := tun)
  (device := device) (listener := listener)).
Abbreviation action := (action adapter tun device listener).
Abbreviation resource := (resource adapter tun device listener).

(** ** Steps that make or release nothing *)

(** Between [s] and [s'] nothing was made or released, the firewall and the files
    are as they were, and so is the watcher. *)
Record same (s s' : execution) : Prop := {
  sm_files : sv_files s' = sv_files s;
  sm_tls : lo_removeWSTLSFiles s' = lo_removeWSTLSFiles s;
  sm_fw : sv_fw s' = sv_fw s;
  sm_adapter : lo_adapter s' = lo_adapter s;
  sm_tun : lo_nativeTun s' = lo_nativeTun s;
  sm_dev : lo_dev s' = lo_dev s;
  sm_uapi : lo_uapi s' = lo_uapi s;
  sm_watcher : lo_watcher s' = lo_watcher s;
  sm_trace : exists l, sv_trace s' = sv_trace s ++ map RanScript l
}.

Lemma same_refl s : same s s.
Proof. split; try done. exists []. by rewrite app_nil_r. Qed.

Lemma same_trans s1 s2 s3 : same s1 s2 -> same s2 s3 -> same s1 s3.
Proof.
  intros [? ? ? ? ? ? ? Hw [l Hl]] [? ? ? ? ? ? ? Hw' [l' Hl']]. split; try congruence.
  exists (l ++ l'). by rewrite Hl', Hl, map_app, (assoc_L (++)).
Qed.

(** A change of fields that count for nothing here. *)
Lemma same_fields s s' :
  sv_files s' = sv_files s -> lo_removeWSTLSFiles s' = lo_removeWSTLSFiles s -> sv_fw s' = sv_fw s ->
  lo_adapter s' = lo_adapter s -> lo_nativeTun s' = lo_nativeTun s -> lo_dev s' = lo_dev s -> lo_uapi s' = lo_uapi s ->
  lo_watcher s' = lo_watcher s -> sv_trace s' = sv_trace s -> same s s'.
Proof. intros. split; try done. exists []. by rewrite app_nil_r. Qed.

Definition tame {A} (f : M execution A) : Prop := keeping same f.

Lemma tame_ret {A} (a : A) : tame (mret a).
Proof. apply (keeping_value same same_refl (Ok a)). Qed.
Lemma tame_fail {A} e : tame (mfail (A := A) e).
Proof. apply (keeping_value same same_refl (Err e)). Qed.
Lemma tame_pure {A} (r : result A) : tame (mpure r).
Proof. apply keeping_value, same_refl. Qed.
Lemma tame_get {A} (f : execution -> A) : tame (mget f).
Proof. apply keeping_get, same_refl. Qed.
Lemma tame_bind {A B} (m : M execution A) (k : A -> M execution B) : tame m -> (forall a, tame (k a)) -> tame (mthen m k).
Proof. apply keeping_bind, same_trans. Qed.
Lemma tame_try {A} (m : M execution A) : tame m -> tame (try m).
Proof. apply keeping_try. Qed.
Lemma tame_ignoring {A} (m : M execution A) : tame m -> tame (ignoring m).
Proof. intros Hm. apply tame_bind; [by apply tame_try|]. intros a. apply tame_ret. Qed.
Lemma tame_failing {A} se (m : M execution A) : tame m -> tame (failing se m).
Proof.
  intros Hm s r s'. unfold failing. destruct (m s) as [[a|e] s1] eqn:E; intros [= <- <-]; [exact (Hm _ _ _ E)|].
  eapply same_trans; [exact (Hm _ _ _ E)|]. by apply same_fields.
Qed.
Lemma tame_wrapping {A} why (m : M execution A) : tame m -> tame (wrapping why m).
Proof. apply keeping_wrap. Qed.
Lemma tame_onNet {A} (f : M (registry W) A) : tame (onNet f).
Proof. intros s r s'. unfold onNet. destruct (f (sv_net s)) as [x n]. intros [= <- <-]. by apply same_fields. Qed.
Lemma tame_script c : tame (note (RanScript c)).
Proof. intros s r s' [= <- <-]. split; try done. by exists [c]. Qed.
Lemma tame_report st b : tame (report st b).
Proof. intros s r s' [= <- <-]. by apply same_fields. Qed.
Lemma tame_state st : tame (mmod (set_lo_serviceState st)).
Proof. intros s r s' [= <- <-]. by apply same_fields. Qed.
Lemma tame_config c : tame (mmod (set_lo_config c)).
Proof. intros s r s' [= <- <-]. by apply same_fields. Qed.
#[local] Hint Resolve tame_ret tame_fail tame_pure tame_get tame_onNet tame_script tame_report tame_state tame_config
  : tame.

Ltac tame_step :=
  match goal with
  | |- tame (mthen _ _) => apply tame_bind; [|intros ?]
  | |- tame (try _) => apply tame_try
  | |- tame (ignoring _) => apply tame_ignoring
  | |- tame (failing _ _) => apply tame_failing
  | |- tame (wrapping _ _) => apply tame_wrapping
  | |- tame (onDev _) => apply tame_onNet
  | |- tame (match ?x with _ => _ end) => destruct x
  | _ => solve [auto with tame]
  end.
Ltac tame_run := repeat tame_step.

Lemma dangerousScriptExecution_tame : tame dangerousScriptExecution.
Proof.
  intros s r s'. unfold dangerousScriptExecution. destruct (AdminBool _ _ _) as [[b key] w]. intros [= <- <-].
  by apply same_fields.
Qed.
#[local] Hint Resolve dangerousScriptExecution_tame : tame.

Lemma startScript_tame comspec command name devNull : tame (startScript comspec command name devNull).
Proof. unfold startScript. tame_run. Qed.
#[local] Hint Resolve startScript_tame : tame.

Lemma runScriptCommand_tame command name : tame (runScriptCommand command name).
Proof. unfold runScriptCommand. tame_run. Qed.
#[local] Hint Resolve runScriptCommand_tame : tame.

Lemma theConfig_tame : tame theConfig.
Proof. intros s r s'. unfold theConfig. destruct (lo_config s); intros [= <- <-]; apply same_refl. Qed.
#[local] Hint Resolve theConfig_tame : tame.

Lemma announceAtBoot_tame : tame announceAtBoot.
Proof.
  intros s r s'. unfold announceAtBoot. destruct (negb _); [intros [= <- <-]; apply same_refl|].
  assert (Ht : tame (do! connected := try (onDev scm_Connect) in
    match connected with
    | Err _ => mret tt
    | Ok _ => do! locked := try (onDev scm_LockStatus) in
        do! _ := match locked with
                 | Ok true => do! _ := mmod (set_lo_serviceState svcRunning) in report svcRunning false
                 | _ => mret tt
                 end in
        ignoring (onDev scm_Disconnect)
    end)) by tame_run.
  apply Ht.
Qed.
#[local] Hint Resolve announceAtBoot_tame : tame.

Lemma resolveConfig_tame : tame resolveConfig.
Proof.
  unfold resolveConfig. apply tame_bind; [apply theConfig_tame|]. intros c s r s'.
  destruct (ResolveEndpoints c _) as [[x c'] w]. intros [= <- <-]. by apply same_fields.
Qed.
#[local] Hint Resolve resolveConfig_tame : tame.

Lemma createAdapter_tame {A} tries (create : M W A) : tame (createAdapter tries create).
Proof.
  induction tries as [|tries IH]; cbn [createAdapter]; [apply tame_fail|]. intros s r s'.
  destruct (onDev create s) as [[a|e] s1] eqn:E; [intros [= <- <-]; exact (tame_onNet _ _ _ _ E)|].
  destruct (_ || _); [intros [= <- <-]; exact (tame_onNet _ _ _ _ E)|].
  intros E2. eapply same_trans; [exact (tame_onNet _ _ _ _ E)|exact (IH _ _ _ E2)].
Qed.
#[local] Hint Resolve createAdapter_tame : tame.

Lemma newMonitor_tame c : tame (newMonitor c).
Proof.
  intros s r s'. unfold newMonitor. destruct (newDefaultRouteMonitor _ _ _) as [[m|e] n]; intros [= <- <-]; by apply same_fields.
Qed.
Lemma startMonitor_tame : tame startMonitor.
Proof.
  intros s r s'. unfold startMonitor. destruct (lo_routeMonitor s) as [m|]; [|intros [= <- <-]; apply same_refl].
  destruct (start _ m _) as [x [m' n]]. intros [= <- <-]. by apply same_fields.
Qed.
#[local] Hint Resolve newMonitor_tame startMonitor_tame : tame.

Lemma downScript_tame failed script : tame (downScript failed script).
Proof.
  intros s r s'. unfold downScript.
  destruct failed as [e|], (hasAdapter s), (lo_config s) as [c|]; try (intros [= <- <-]; apply same_refl).
  destruct (runScriptCommand _ _ s) as [[u|e] s1] eqn:E; intros [= <- <-]; exact (runScriptCommand_tame _ _ _ _ _ E).
Qed.
Lemma closeMonitor_tame : tame closeMonitor.
Proof.
  intros s r s'. unfold closeMonitor. destruct (lo_routeMonitor s) as [m|]; [|intros [= <- <-]; apply same_refl].
  destruct (Destroy _ m _) as [m' n]. intros [= <- <-]. by apply same_fields.
Qed.

(** ** What is held *)

Definition heldOf (a : option adapter) (t : option tun) (d : option device) (l : option listener) : list resource :=
  (match l with Some l => [RListener l] | None => [] end)
  ++ (match d, t with Some d, _ => [RDevice d] | None, Some t => [RTun t] | None, None => [] end)
  ++ (match a with Some a => [RAdapter a] | None => [] end).

Definition held (s : execution) : list resource := heldOf (lo_adapter s) (lo_nativeTun s) (lo_dev s) (lo_uapi s).

Abbreviation session s := (Firewall.wfpSession (sv_fw s)).

(** The watcher knows an adapter, which it may bring up. *)
Definition armed (s : execution) : Prop := exists iw, lo_watcher s = Some iw /\ iw_adapter iw <> None.

Record good (s : execution) : Prop := {
  g_owns : owns (sv_trace s) (held s);
  g_up : Forall behindFirewall (sv_trace s);
  g_fw : FirewallTheorems.fwInv (sv_fw s);
  g_watch : lo_watcher s = None -> session s = 0;
  g_armed : armed s -> session s <> 0
}.

Lemma behind_scripts (l : list gostring) : Forall behindFirewall (map RanScript l : list action).
Proof. induction l; by constructor. Qed.

Lemma good_same s s' : same s s' -> good s -> good s'.
Proof.
  intros [_ _ Hfw Ha Ht Hd Hu Hw [l Hl]] [Ho Hup Hf Hg Hm]. split.
  - unfold held. rewrite Hl, Ha, Ht, Hd, Hu. by apply owns_scripts.
  - rewrite Hl. apply Forall_app. split; [done|apply behind_scripts].
  - by rewrite Hfw.
  - by rewrite Hfw, Hw.
  - unfold armed. rewrite Hfw, Hw. exact Hm.
Qed.

(** The progress of the body: what has been made, and whether the firewall is
    on. *)
Record stage (a : option adapter) (t : option tun) (d : option device) (l : option listener) (on : bool)
    (s : execution) : Prop := {
  st_good : good s;
  st_adapter : lo_adapter s = a;
  st_tun : lo_nativeTun s = t;
  st_dev : lo_dev s = d;
  st_uapi : lo_uapi s = l;
  st_on : if on : bool then session s <> 0 else session s = 0
}.

Definition watched (s : execution) : Prop := lo_watcher s <> None.

Definition stageW a t d l on (s : execution) : Prop := stage a t d l on s /\ watched s.

Lemma stage_same a t d l on s s' : same s s' -> stage a t d l on s -> stage a t d l on s'.
Proof.
  intros Hs [Hg Ha Ht Hd Hl Hon]. split; [by eapply good_same|..];
    destruct Hs as [_ _ Hfw Ha' Ht' Hd' Hu' _ _]; try congruence. by rewrite Hfw.
Qed.

Lemma stageW_same a t d l on s s' : same s s' -> stageW a t d l on s -> stageW a t d l on s'.
Proof. intros Hs [Hg Hw]. split; [by eapply stage_same|]. unfold watched. by rewrite (sm_watcher _ _ Hs). Qed.

Lemma stageW_good a t d l on s : stageW a t d l on s -> good s.
Proof. intros [[Hg _ _ _ _ _] _]. done. Qed.

Lemma tame_stage {A} (f : M execution A) a t d l on :
  tame f -> triple (stageW a t d l on) f (fun _ => stageW a t d l on) good.
Proof.
  intros Hf s r s' Hs E. pose proof (stageW_same _ _ _ _ _ _ _ (Hf _ _ _ E) Hs) as Hs'.
  destruct r; [done|by eapply stageW_good].
Qed.

Lemma tame_good {A} (f : M execution A) : tame f -> triple good f (fun _ => good) good.
Proof. intros Hf s r s' Hs E. pose proof (good_same _ _ (Hf _ _ _ E) Hs). by destruct r. Qed.

Lemma failing_good {A} se (f : M execution A) P Q : triple P f Q good -> triple P (failing se f) Q good.
Proof.
  intros Hf s r s' Hs. unfold failing. destruct (f s) as [[x|e] s1] eqn:E; intros [= <- <-]; [exact (Hf _ _ _ Hs E)|].
  specialize (Hf _ _ _ Hs E). cbn in Hf. apply (good_same s1); [by apply same_fields|done].
Qed.

(** *** Steps that make something *)

Lemma makes s s' (x : action) h :
  good s -> sv_trace s' = sv_trace s ++ [x] -> sv_fw s' = sv_fw s -> lo_watcher s' = lo_watcher s ->
  behindFirewall x -> (owns (sv_trace s) (held s) -> owns (sv_trace s ++ [x]) h) -> h ≡ₚ held s' -> good s'.
Proof.
  intros [Ho Hup Hf Hg Hm] Ht Hfw Hw Hx Howns Hh. split.
  - rewrite Ht. eapply owns_perm; [by apply Howns|done].
  - rewrite Ht. apply Forall_app. split; [done|]. by constructor.
  - by rewrite Hfw.
  - by rewrite Hfw, Hw.
  - unfold armed. rewrite Hfw, Hw. exact Hm.
Qed.

(** *** The watcher *)

(** What happens to a watcher leaves its adapter, and brings up only that. *)
Definition minds (f : interfaceWatcher adapter -> registry W -> interfaceWatcher adapter * registry W * nat) : Prop :=
  forall iw n iw' n' ups, f iw n = (iw', n', ups) ->
    iw_adapter iw' = iw_adapter iw /\ (ups <> 0%nat -> iw_adapter iw <> None).

Lemma behind_ups (on : list bool) :
  Forall (fun b => b = true) on -> Forall behindFirewall (map BroughtUp on : list action).
Proof. induction 1; by constructor. Qed.

(** The watcher and what it brought up, while the firewall stays as it is. *)
Lemma good_watched s iw iw' n ups :
  good s -> lo_watcher s = Some iw -> iw_adapter iw' = iw_adapter iw -> (ups <> 0%nat -> iw_adapter iw <> None) ->
  good (set_sv_trace (sv_trace s ++ map BroughtUp (replicate ups (firewallIsOn s))) (set_lo_watcher (Some iw') (set_sv_net n s))).
Proof.
  intros [Ho Hup Hf Hg Hm] Hw Ha Hups. assert (Harm : iw_adapter iw <> None -> session s <> 0) by (intros ?; apply Hm; by exists iw).
  split; [by apply owns_ups| |done|done|].
  - apply Forall_app. split; [done|]. apply behind_ups. destruct ups as [|k]; [constructor|].
    apply Forall_replicate. unfold firewallIsOn. destruct (Z.eqb_spec (session s) 0); [|done]. exfalso. by apply Harm; [apply Hups|].
  - intros (iw2 & [= <-] & Hx). apply Harm. by rewrite <- Ha.
Qed.

Lemma withWatcher_good f s r s' : minds f -> good s -> withWatcher f s = (r, s') -> r = Ok tt /\ good s'
  /\ lo_adapter s' = lo_adapter s /\ lo_nativeTun s' = lo_nativeTun s /\ lo_dev s' = lo_dev s /\ lo_uapi s' = lo_uapi s
  /\ sv_fw s' = sv_fw s /\ (lo_watcher s <> None -> lo_watcher s' <> None).
Proof.
  intros Hf Hg. unfold withWatcher. destruct (lo_watcher s) as [iw|] eqn:Ew; [|intros [= <- <-]; by repeat (split; [done|])].
  destruct (f iw (sv_net s)) as [[iw' n] ups] eqn:E. apply Hf in E as [Ha Hups]. intros [= <- <-].
  rewrite <- (fmap_replicate BroughtUp). split; [done|]. split; [by eapply good_watched|]. by repeat (split; [done|]).
Qed.

Lemma lateEvents_minds late : minds (lateEvents late).
Proof. intros iw n iw' n' ups E. apply lateEvents_fixed in E as [[Ha _ _] Hu]. by split. Qed.
Lemma onInterfaceChange_minds added event :
  minds (fun iw n => let '(iw, n, up) := onInterfaceChange added event iw n in (iw, n, Nat.b2n up)).
Proof.
  intros iw n iw' n' ups. destruct (onInterfaceChange added event iw n) as [[iw1 n1] up] eqn:E.
  apply onInterfaceChange_fixed in E as [[Ha _ _] Hu]. intros [= <- <- <-]. split; [done|]. by destruct up; [auto|].
Qed.
Lemma watchdogFires_minds : minds (fun iw n => (watchdogFires iw, n, 0%nat)).
Proof. intros iw n iw' n' ups [= <- <- <-]. split; [|done]. unfold watchdogFires. by case_match. Qed.
Lemma takeStarted_minds : minds (fun iw n => (takeStarted iw, n, 0%nat)).
Proof. by intros iw n iw' n' ups [= <- <- <-]. Qed.

Lemma withWatcher_stage f a t d l on :
  minds f -> triple (stageW a t d l on) (withWatcher f) (fun _ => stageW a t d l on) good.
Proof.
  intros Hf s r s' [[Hg Ha Ht Hd Hl Hon] Hw] E.
  destruct (withWatcher_good f s r s' Hf Hg E) as (-> & Hg' & Ha' & Ht' & Hd' & Hl' & Hfw & Hw').
  split; [|by apply Hw']. split; try congruence. by rewrite Hfw.
Qed.

Lemma withWatcher_triple f : minds f -> triple good (withWatcher f) (fun _ => good) good.
Proof. intros Hf s r s' Hg E. by destruct (withWatcher_good f s r s' Hf Hg E) as (-> & Hg' & _). Qed.

Lemma configureWatcher_good a' t d l a b c :
  triple (stageW a' t d l true) (configureWatcher a b c) (fun _ => good) good.
Proof.
  intros s r s' [[[Ho Hup Hf Hg Hm] Ha Ht Hd Hl Hon] Hw]. unfold configureWatcher.
  destruct (lo_watcher s) as [iw|] eqn:E; [|done].
  destruct (Configure _ _ _ _ _ _) as [iw' n]. intros [= <- <-]. by split.
Qed.

(** The state just after a call was noted. *)
Definition noted (P : execution -> Prop) (x : action) (s : execution) : Prop :=
  exists s0, P s0 /\ s = set_sv_trace (sv_trace s0 ++ [x]) s0.

Lemma note_noted P x E : triple P (note x) (fun _ => noted P x) E.
Proof. intros s r s' Hs [= <- <-]. by exists s. Qed.

Lemma makeTUN_stage config :
  triple (stageW None None None None false) (makeTUN sort_Slice NFC Public blake2s_Sum256 UseFixedGUID config)
    (fun _ s => exists t, stageW None (Some t) None None false s) good.
Proof.
  eapply triple_bind; [apply tame_stage, tame_pure|]. intros guid.
  eapply triple_bind; [apply tame_stage; tame_run|]. intros t.
  eapply triple_bind; [apply note_noted|]. intros u0 ? r s' (s & [[Hg Ha Ht Hd Hl Hon] Hw] & ->) [= <- <-].
  exists t. split; [|exact Hw]. split; try done.
  eapply (makes s _ (CreatedTUN t)); [done|done|done|done|done|apply owns_tun|].
  unfold held. cbn. by rewrite Ha, Hd, Hl, Ht.
Qed.

Lemma makeAdapter_stage config :
  triple (stageW None None None None false) (makeAdapter sort_Slice NFC Public blake2s_Sum256 UseFixedGUID config)
    (fun _ s => exists a, stageW (Some a) None None None false s) good.
Proof.
  eapply triple_bind; [apply tame_stage, tame_pure|]. intros guid.
  eapply triple_bind; [apply tame_stage; tame_run|]. intros a.
  eapply triple_bind; [apply note_noted|]. intros u0.
  eapply (triple_bind _ _ _ (fun _ => stageW (Some a) None None None false)).
  { intros ? r s' (s & [[Hg Ha Ht Hd Hl Hon] Hw] & ->) [= <- <-]. split; [|exact Hw]. split; try done.
    eapply (makes s _ (Created a)); [done|done|done|done|done|apply owns_created|].
    unfold held. cbn. by rewrite Ha, Hd, Hl, Ht. }
  intros u1. eapply triple_conseq; [apply tame_stage; tame_run|done|intros u2 s Hs; by exists a|done].
Qed.

Lemma switchOnFirewall_stage a t d l config :
  triple (stageW a t d l false) (switchOnFirewall config) (fun _ => stageW a t d l true) good.
Proof.
  intros s r s' [[[Ho Hup Hf Hg Hm] Ha Ht Hd Hl Hon] Hw] E. unfold switchOnFirewall, enableFirewall in E.
  destruct (Firewall.EnableFirewall _ _ _ (sv_fw s)) as [x fw] eqn:Ef. injection E as <- <-.
  pose proof (FirewallTheorems.step_enable (sv_fw s) (lo_luid s) (doNotRestrict config) (i_DNS (c_Interface config))) as Hst.
  rewrite Ef in Hst. apply FirewallTheorems.fwInv_step in Hst; [|done]. cbn [snd] in Hst.
  apply FirewallTheorems.EnableFirewall_effect in Ef; [|done].
  assert (Hgood : good (set_sv_fw fw s)) by (split; [done|done|exact Hst|intros Hn; by destruct Hw|intros Hx; by destruct (Hm Hx)]).
  destruct x as [u|e]; [|done]. split; [|exact Hw]. split; try done. apply Ef.
Qed.

Lemma bringUp_stage a t d l f :
  triple (stageW a t d l true) (bringUp f) (fun _ => stageW a t d l true) good.
Proof.
  eapply triple_bind; [apply tame_stage; tame_run|]. intros u0.
  intros s r s' [[Hg Ha Ht Hd Hl Hon] Hw] [= <- <-]. split; [|exact Hw]. split; try done.
  eapply (makes s _ (BroughtUp (firewallIsOn s))); [done|done|done|done| |apply owns_up|done].
  cbn. unfold firewallIsOn. destruct (Z.eqb_spec (session s) 0); [contradiction|done].
Qed.

Lemma runUserspace_stage t config :
  triple (stageW None (Some t) None None true) (runUserspace t config) (fun _ => good) good.
Proof.
  eapply triple_bind; [apply tame_stage; tame_run|]. intros b.
  eapply triple_bind; [apply tame_stage; tame_run|]. intros dev.
  eapply triple_bind; [apply note_noted|]. intros u0.
  eapply (triple_bind _ _ _ (fun _ => stageW None (Some t) (Some dev) None true)).
  { intros ? r s' (s & [[Hg Ha Ht Hd Hl Hon] Hw] & ->) [= <- <-]. split; [|exact Hw]. split; try done.
    eapply (makes s _ (MadeDevice t dev)); [done|done|done|done|done|intros Ho; apply owns_device|].
    - unfold held in Ho. rewrite Ha, Ht, Hd, Hl in Ho. exact Ho.
    - unfold held. cbn. by rewrite Ha, Hl. }
  intros u1. eapply triple_bind; [apply tame_stage; tame_run|]. intros ul.
  eapply triple_bind; [apply note_noted|]. intros u2.
  eapply (triple_bind _ _ _ (fun _ => stageW None (Some t) (Some dev) (Some ul) true)).
  { intros ? r s' (s & [[Hg Ha Ht Hd Hl Hon] Hw] & ->) [= <- <-]. split; [|exact Hw]. split; try done.
    eapply (makes s _ (Listening ul)); [done|done|done|done|done|apply owns_listening|].
    unfold held. cbn. by rewrite Ha, Hd, Hl. }
  intros u3. eapply triple_bind; [apply tame_stage; tame_run|]. intros u4.
  eapply triple_bind; [apply tame_stage; tame_run|]. intros u5.
  eapply triple_bind; [apply failing_good, bringUp_stage|]. intros u6.
  eapply triple_bind; [apply tame_stage; tame_run|]. intros u7.
  apply configureWatcher_good.
Qed.

Lemma runDriver_stage a config :
  triple (stageW (Some a) None None None true) (runDriver a config) (fun _ => good) good.
Proof.
  eapply triple_bind; [apply tame_stage; tame_run|]. intros u0.
  eapply triple_bind; [apply failing_good, bringUp_stage|]. intros u1.
  apply configureWatcher_good.
Qed.

Lemma triple_exists {X A} (P : X -> execution -> Prop) (f : M execution A) Q E :
  (forall x, triple (P x) f Q E) -> triple (fun s => exists x, P x s) f Q E.
Proof. intros Hf s r s' [x Hx]. by apply (Hf x). Qed.

(** The part after the adapter was made. *)
Lemma connect_good a t config :
  (t = None -> a <> None) -> (t <> None -> a = None) ->
  triple (stageW a t None None false) (connectTunnel config) (fun _ => good) good.
Proof.
  intros Hta Hat. unfold connectTunnel. eapply triple_bind; [apply tame_stage; tame_run|]. intros u0.
  eapply triple_bind; [apply failing_good, switchOnFirewall_stage|]. intros u1.
  eapply triple_bind; [apply tame_stage; tame_run|]. intros u2.
  eapply (triple_bind _ _ _ (fun x s => x = t /\ stageW a t None None true s)).
  { intros s r s' Hs [= <- <-]. split; [apply Hs|done]. }
  intros t' s r s' [-> Hs]. revert s r s' Hs.
  eapply (triple_bind _ _ _ (fun x s => x = a /\ stageW a t None None true s)).
  { intros s r s' Hs [= <- <-]. split; [apply Hs|done]. }
  intros a' s r s' [-> Hs]. revert s r s' Hs.
  eapply (triple_bind _ _ _ (fun _ => good)).
  { destruct t as [t|].
    - rewrite (Hat ltac:(done)). apply runUserspace_stage.
    - destruct a as [a|]; [apply runDriver_stage|by destruct Hta]. }
  intros u3. apply tame_good. tame_run.
Qed.

Lemma startTunnel_good :
  triple (stageW None None None None false)
    (startTunnel sort_Slice NFC Public blake2s_Sum256 UseFixedGUID) (fun _ => good) good.
Proof.
  eapply triple_bind; [apply tame_stage, theConfig_tame|]. intros config. destruct (HasWebSocketPeers config).
  - eapply triple_bind; [apply makeTUN_stage|]. intros u0. apply triple_exists. intros t. by apply connect_good.
  - eapply triple_bind; [apply makeAdapter_stage|]. intros u0. apply triple_exists. intros a. by apply connect_good.
Qed.

(** *** Before the adapter *)

Definition begun (s : execution) : Prop := stage None None None None false s.

Lemma tame_begun {A} (f : M execution A) : tame f -> triple begun f (fun _ => begun) good.
Proof.
  intros Hf s r s' Hs E. pose proof (stage_same _ _ _ _ _ _ _ (Hf _ _ _ E) Hs) as Hs'. destruct r; [done|apply Hs'].
Qed.

Lemma onFiles_stage {A} (f : M (store Wf) A) : triple begun (onFiles f) (fun _ => begun) good.
Proof.
  intros s r s' [[Ho Hup Hf Hg Hm] Ha Ht Hd Hl Hon]. unfold onFiles. destruct (f (sv_files s)) as [x fs]. intros [= <- <-].
  assert (good (set_sv_files fs s)) by by split. destruct x; [by split|done].
Qed.

Lemma prepareTLS_stage p : triple begun (prepareTLS fuel p) (fun _ => begun) good.
Proof.
  eapply triple_bind; [apply tame_begun, theConfig_tame|]. intros config s r s' [[Ho Hup Hf Hg Hm] Ha Ht Hd Hl Hon].
  destruct (PrepareWSTLSFiles fuel (PathIsEncrypted (render p)) config (sv_files s)) as [[[dir|e] c'] fs];
    intros [= <- <-]; [split; try done|]; by split.
Qed.

Lemma startWatching_stage : triple begun startWatching (fun _ => stageW None None None None false) good.
Proof.
  eapply (triple_bind _ _ _ (fun iw s => iw_adapter iw = None /\ begun s)).
  { intros s r s' Hs E. pose proof (tame_begun _ (tame_onNet watchInterface) s r s' Hs E) as Hr.
    destruct r as [iw|e]; [|done]. split; [|done]. unfold onNet, watchInterface in E.
    destruct (RegisterInterfaceChangeCallback _) as [[c|e] n]; [|done]. by injection E as <- _. }
  intros iw s r s' [Hiw [[Ho Hup Hf Hg Hm] Ha Ht Hd Hl Hon]] [= <- <-]. split; [|done]. split; try done.
  split; try done. intros (iw2 & [= <-] & Hx). by destruct Hx.
Qed.

Lemma prepareService_stage p early :
  triple begun (prepareService decoders fuel p early) (fun _ => stageW None None None None false) good.
Proof.
  eapply triple_bind; [apply failing_good, onFiles_stage|]. intros logFile.
  eapply triple_bind; [apply tame_begun; tame_run|]. intros u0.
  eapply triple_bind; [apply failing_good, onFiles_stage|]. intros config.
  eapply triple_bind; [apply tame_begun; tame_run|]. intros u1.
  eapply triple_bind; [apply failing_good, prepareTLS_stage|]. intros u2.
  eapply triple_bind; [apply tame_begun; tame_run|]. intros u3.
  eapply triple_bind; [apply failing_good, startWatching_stage|]. intros u4.
  eapply triple_bind; [apply withWatcher_stage, lateEvents_minds|]. intros u5. apply tame_stage. tame_run.
Qed.

(** *** Taking down *)

(** Nothing is held and no rule is in force. *)
Record down (s : execution) : Prop := {
  dn_owns : owns (sv_trace s) [];
  dn_up : Forall behindFirewall (sv_trace s);
  dn_fw : FirewallTheorems.fwInv (sv_fw s);
  dn_off : session s = 0
}.

Lemma down_same s s' : same s s' -> down s -> down s'.
Proof.
  intros [_ _ Hfw _ _ _ _ _ [l Hl]] [Ho Hup Hf Hz]. split; [rewrite Hl; by apply owns_scripts| |congruence|congruence].
  rewrite Hl. apply Forall_app. split; [done|apply behind_scripts].
Qed.

(** A state whose firewall is off and which holds only [h] of what is in its
    variables. *)
Definition closingTo (h : list resource) (s0 s : execution) : Prop :=
  owns (sv_trace s) h /\ Forall behindFirewall (sv_trace s) /\ FirewallTheorems.fwInv (sv_fw s) /\ session s = 0
  /\ lo_adapter s = lo_adapter s0 /\ lo_nativeTun s = lo_nativeTun s0 /\ lo_dev s = lo_dev s0 /\ lo_uapi s = lo_uapi s0.

Lemma closing_run (x : action) f h h' s0 s :
  closingTo h s0 s -> behindFirewall x -> (forall tr, owns tr h -> owns (tr ++ [x]) h') ->
  exists s', closing x f s = (Ok tt, s') /\ closingTo h' s0 s'.
Proof.
  intros (Ho & Hup & Hf & Hz & Ha & Ht & Hd & Hl) Hx Hown. unfold closing, ignoring, mthen, try, onDev, onNet.
  destruct (onRegSys f (sv_net s)) as [r n]. eexists. split; [reflexivity|].
  split; [by apply Hown|]. split; [apply Forall_app; split; [done|by constructor]|]. done.
Qed.

Lemma closeDevices_down s :
  closingTo (held s) s s -> exists s', closeDevices s = (Ok tt, s') /\ down s'.
Proof.
  intros (Ho & Hup & Hf & Hz & _). unfold closeDevices.
  assert (Hself : forall h, owns (sv_trace s) h -> closingTo h s s) by (intros h Hh; do 7 (split; [done|]); done).
  set (rest1 := (match lo_dev s, lo_nativeTun s with Some d, _ => [RDevice d] | None, Some t => [RTun t] | None, None => [] end)
    ++ (match lo_adapter s with Some a => [RAdapter a] | None => [] end) : list resource).
  set (rest2 := (match lo_adapter s with Some a => [RAdapter a] | None => [] end) : list resource).
  assert (Hc1 : exists s1, (match lo_uapi s with Some l => closing (ClosedListener l) (listener_Close l) | None => mret tt end) s
      = (Ok tt, s1) /\ closingTo rest1 s s1).
  { destruct (lo_uapi s) as [l|] eqn:El.
    - apply (closing_run _ _ (held s)); [by apply Hself|done|]. intros tr. unfold held. rewrite El. apply owns_closedListener.
    - exists s. split; [done|]. unfold held in Ho. rewrite El in Ho. by apply Hself. }
  destruct Hc1 as (s1 & E1 & Hc1). unfold mthen at 1, mget at 1. unfold mthen at 1. rewrite E1.
  unfold mthen at 1, mget at 1. unfold mthen at 1, mget at 1.
  assert (Hc2 : exists s2, (match lo_dev s1, lo_nativeTun s1 with
      | Some d, _ => closing (ClosedDevice d) (device_Close d)
      | None, Some t => closing (ClosedTUN t) (tun_Close t)
      | None, None => mret tt end) s1 = (Ok tt, s2) /\ closingTo rest2 s s2).
  { pose proof Hc1 as (_ & _ & _ & _ & _ & -> & -> & _). subst rest1.
    destruct (lo_dev s) as [d|]; [|destruct (lo_nativeTun s) as [t|]].
    - eapply closing_run; [exact Hc1|done|]. intros tr. apply owns_closedDevice.
    - eapply closing_run; [exact Hc1|done|]. intros tr. apply owns_closedTUN.
    - by exists s1. }
  destruct Hc2 as (s2 & E2 & Hc2). unfold mthen at 1. rewrite E2. unfold mthen at 1, mget at 1.
  pose proof Hc2 as (_ & _ & _ & _ & Ha & _). rewrite Ha. subst rest2.
  assert (Hc3 : exists s3, (match lo_adapter s with Some a => closing (ClosedAdapter a) (adapter_CloseHandle a)
      | None => mret tt end) s2 = (Ok tt, s3) /\ closingTo [] s s3).
  { destruct (lo_adapter s) as [a|]; [|by exists s2].
    eapply closing_run; [exact Hc2|done|]. intros tr. apply owns_closedAdapter. }
  destruct Hc3 as (s3 & E3 & Ho3 & Hup3 & Hf3 & Hz3 & _). exists s3. split; [exact E3|by split].
Qed.

(** Every notification has run before the firewall goes off. *)
Lemma closeWatcher_off late s :
  good s -> exists s', closeWatcher late s = (Ok tt, s') /\ closingTo (held s') s' s'.
Proof.
  intros Hg. unfold closeWatcher. destruct (lo_watcher s) as [iw|] eqn:Ew.
  - destruct (destroyWatcher late iw (sv_fw s) (sv_net s)) as [[[iw' fw] n] on] eqn:Ed. unfold destroyWatcher in Ed.
    destruct (lateEvents late _ _) as [[iw1 n1] ups] eqn:El. apply lateEvents_fixed in El as [_ Hups].
    injection Ed as _ <- _ <-. destruct (good_watched s iw iw n1 ups Hg Ew eq_refl Hups) as [Ho Hup _ _ _].
    assert (Hz : Firewall.wfpSession (Firewall.DisableFirewall (sv_fw s)) = 0).
    { unfold Firewall.DisableFirewall. by destruct (Z.eqb_spec (session s) 0). }
    eexists. split; [reflexivity|]. split; [exact Ho|]. split; [exact Hup|]. split; [cbn|by split].
    eapply FirewallTheorems.fwInv_step; [apply FirewallTheorems.step_disable|apply Hg].
  - exists s. split; [done|]. destruct Hg as [Ho Hup Hf Hg _]. split; [done|]. split; [done|]. split; [done|]. split; [by apply Hg|done].
Qed.

Lemma closingTo_same s s' : same s s' -> closingTo (held s) s s -> closingTo (held s') s' s'.
Proof.
  intros [_ _ Hfw Ha Ht Hd Hu _ [l Hl]] (Ho & Hup & Hf & Hz & _). unfold closingTo, held. rewrite Hl, Hfw, Ha, Ht, Hd, Hu.
  split; [by apply owns_scripts|]. split; [|by split]. apply Forall_app. split; [done|apply behind_scripts].
Qed.

Lemma downScript_ok failed script (s : execution) : exists r s', downScript failed script s = (Ok r, s').
Proof.
  unfold downScript. destruct failed as [e|], (hasAdapter s), (lo_config s) as [c|];
    try (eexists _, _; reflexivity).
  destruct (runScriptCommand _ _ s) as [[u|e] s1]; eexists _, _; reflexivity.
Qed.

Lemma finish_down late err s : good s -> exists ec s', finish late err s = (Ok ec, s') /\ down s'
  /\ ec = DetermineErrorCode err (lo_serviceError s).
Proof.
  intros Hg. unfold finish, mthen at 1, mget at 1. cbv zeta. unfold mthen at 1, mmod at 1. unfold mthen at 1, report at 1, mmod at 1.
  set (s0 := set_sv_changes _ _). assert (Hg0 : good s0) by (eapply good_same; [|exact Hg]; by apply same_fields).
  unfold mthen at 1. destruct (downScript_ok (CombineErrors err (lo_serviceError s)) i_PreDown s0) as (logErr & s1 & E1). rewrite E1.
  pose proof (good_same _ _ (downScript_tame _ _ _ _ _ E1) Hg0) as Hg1.
  destruct (closeWatcher_off late s1 Hg1) as (s2 & E2 & Hg2). unfold mthen at 1. rewrite E2.
  unfold mthen at 1. destruct (closeMonitor s2) as [r3 s3] eqn:E3.
  assert (r3 = Ok tt) as ->.
  { unfold closeMonitor in E3. destruct (lo_routeMonitor s2); [destruct (Destroy _ _ _)|]; by injection E3. }
  pose proof (closingTo_same _ _ (closeMonitor_tame _ _ _ E3) Hg2) as Hg3.
  destruct (closeDevices_down s3 Hg3) as (s4 & E4 & Hd4). unfold mthen at 1. rewrite E4.
  assert (Hc5 : exists s5, removeTLS s4 = (Ok tt, s5) /\ down s5).
  { unfold removeTLS, mthen, mget. destruct (lo_removeWSTLSFiles s4) as [dir|]; [|by exists s4].
    unfold onFiles, cleanupFiles. destruct dir as [|x dir]; [|unfold mthen, try; destruct (sys _ _) as [r5 fs]];
      (eexists; split; [reflexivity|by destruct Hd4]). }
  destruct Hc5 as (s5 & E5 & Hd5). unfold mthen at 1. rewrite E5. unfold mthen at 1.
  destruct (downScript_ok logErr i_PostDown s5) as (l6 & s6 & E6). rewrite E6. eexists _, s6. split; [reflexivity|].
  split; [|done]. eapply down_same; [exact (downScript_tame _ _ _ _ _ E6)|done].
Qed.

(** ** The service *)

(** A process that has done nothing yet. *)
Definition initial (s : execution) : Prop :=
  sv_trace s = [] /\ lo_watcher s = None /\ lo_adapter s = None /\ lo_nativeTun s = None /\ lo_dev s = None
  /\ lo_uapi s = None /\ session s = 0 /\ (forall h, Firewall.ss_filters (Firewall.engine (Firewall.fw_world (sv_fw s)) h) = []).

Lemma initial_begun s : initial s -> begun s.
Proof.
  intros (Ht & Hw & Ha & Hn & Hd & Hu & Hz & Hf). split; try done. split.
  - unfold held. rewrite Ht, Ha, Hn, Hd, Hu. constructor.
  - rewrite Ht. constructor.
  - split; [intros h _; apply Hf|done].
  - done.
  - intros (iw & Hx & _). by rewrite Hw in Hx.
Qed.

Lemma serve_good events started : triple good (serve started events) (fun _ => good) good.
Proof.
  revert started; induction events as [|ev events IH]; intros started; cbn [serve]; [apply tame_good, tame_ret|].
  destruct ev as [|cmd st|added event| | |].
  - eapply triple_bind; [apply tame_good, tame_get|]. intros [d|]; [apply tame_good, tame_ret|apply IH].
  - destruct (_ || _); [apply tame_good, tame_ret|]. destruct (_ =? _); [|apply IH].
    eapply triple_bind; [apply tame_good, tame_report|]. intros u. apply IH.
  - eapply triple_bind; [apply withWatcher_triple, onInterfaceChange_minds|]. intros u. apply IH.
  - eapply triple_bind; [apply withWatcher_triple, watchdogFires_minds|]. intros u. apply IH.
  - eapply triple_bind; [apply tame_good, tame_get|]. intros [iw|]; [|apply IH]. destruct (iw_started iw); [apply IH|].
    eapply triple_bind; [apply withWatcher_triple, takeStarted_minds|]. intros u. destruct (negb started); [|apply IH].
    eapply triple_bind; [apply tame_good, tame_state|]. intros u1.
    eapply triple_bind; [apply tame_good, tame_report|]. intros u2. apply IH.
  - eapply triple_bind; [apply tame_good, tame_get|]. intros [iw|]; [|apply IH].
    destruct (iw_errors iw) as [|[se e] es]; [apply IH|]. apply tame_good, tame_failing, tame_fail.
Qed.

Lemma body_good p early events :
  triple begun (body decoders fuel sort_Slice NFC Public blake2s_Sum256 UseFixedGUID p early events) (fun _ => good) good.
Proof.
  eapply triple_bind; [apply prepareService_stage|]. intros u0.
  eapply triple_bind; [apply startTunnel_good|]. intros u1. apply serve_good.
Qed.

(** C11: Whatever step of a tunnel service fails, whatever happens while it serves,
    and whatever interfaces appear before the watcher knows its adapter, while the
    service serves and while the watcher is destroyed: the adapter is only brought
    up, by the service or by the callback of the watcher, while the rules of the
    firewall are in force; and once the service has returned, each adapter, TUN,
    device and listener it made has been closed once and nothing else has, and no
    rule of the firewall is in force any more. *)
Theorem Execute_releases p early events late s r s' :
  initial s ->
  Execute decoders fuel sort_Slice NFC Public blake2s_Sum256 UseFixedGUID p early events late s = (r, s') ->
  Forall behindFirewall (sv_trace s')
  /\ match r with
     | Ok (Some ec) => owns (sv_trace s') [] /\ session s' = 0
         /\ forall h, Firewall.ss_filters (Firewall.engine (Firewall.fw_world (sv_fw s')) h) = []
     | Ok None => owns (sv_trace s') (held s')
     | Err _ => False
     end.
Proof.
  intros Hi%initial_begun. unfold Execute, mthen at 1, mmod at 1. unfold mthen at 1, report at 1, mmod at 1.
  set (s0 := set_sv_changes _ _). assert (Hs0 : begun s0) by (eapply stage_same; [|exact Hi]; by apply same_fields).
  unfold mthen at 1, try. destruct (body _ _ _ _ _ _ _ _ _ _ s0) as [r1 s1] eqn:E1.
  assert (Hg : good s1) by (pose proof (body_good p early events s0 r1 s1 Hs0 E1); by destruct r1).
  assert (Hend : forall err, (do! ec := finish late err in mret (Some ec)) s1 = (r, s') ->
    Forall behindFirewall (sv_trace s') /\ match r with
     | Ok (Some ec) => owns (sv_trace s') [] /\ session s' = 0
         /\ forall h, Firewall.ss_filters (Firewall.engine (Firewall.fw_world (sv_fw s')) h) = []
     | Ok None => owns (sv_trace s') (held s')
     | Err _ => False
     end).
  { intros err. destruct (finish_down late err s1 Hg) as (ec & s2 & E2 & [Ho Hup [Hf _] Hz] & _).
    unfold mthen. rewrite E2. intros [= <- <-]. split; [done|]. split; [done|]. split; [done|].
    intros h. apply Hf. destruct (decide (h = 0)); [by right|left; congruence]. }
  destruct r1 as [[|]|e]; [apply Hend| |apply Hend]. intros [= <- <-]. split; apply Hg.
Qed.
End Released.
