(* ===== verification/TunnelServiceTLS.v ===== *)
(** * The decrypted TLS files of a tunnel service

    They are there only while the service runs, unless they cannot be removed, and
    the service changes no other file of the store. *)

From S2P Require Import Prelude GoStrings GoNum Netip Config Name Paths WSTLS WSTLSNames Parser Writer ConfWf UAPI Driver Effects Store StoreLaws StoreTheorems StoreTLS StoreTunnels Services Firewall DeterministicGUID Updater Manager ManagerTheorems ChangeHandlers TunnelNet InterfaceWatcher TunnelService TunnelServiceTheorems.
Import TunnelNet GUID.
Local Open Scope Z_scope.

Lemma tryDecoders_name `{UnicodeTables} `{NetURL} decoders s name e c :
  tryDecoders decoders s name e = Ok c -> c_Name c = name.
Proof.
  induction decoders as [|d decoders IH]; cbn [tryDecoders]; [done|].
  destruct (d s) as [s'|]; [|done]. destruct (FromWgQuick s' name) as [c'|e'] eqn:E; [|done].
  intros [= <-]. by apply FromWgQuick_wf in E as [_ ->].
Qed.

Section Files.
Context {Wf handle W Ww adapter tun device listener bind process : Type}.
Context `{FileSystem Wf handle} `{!FileLaws} `{NetSystem W} `{ChangeNotify W} `{AdapterSystem W adapter} `{ResolverSystem W}
  `{Registry W} `{DeviceSystem W adapter tun device listener bind process} `{Firewall.WFP Ww}.
Context `{UnicodeTables} `{NetURL}.
Context (decoders : list (gostring -> option gostring)) (fuel : nat).
Context (sort_Slice : forall A : Type, (A -> A -> bool) -> list A -> list A).
Context (NFC : gostring -> gostring) (Public : Key -> Key) (blake2s_Sum256 : gostring -> gostring).
Context (UseFixedGUID : bool).

Abbreviation execution := (execution (Wf := Wf) (W := W) (Ww := Ww) (adapter := adapter) (tun := tun)
  (device := device) (listener := listener)).

(** ** Steps that leave the files alone *)

Definition sameFiles (s s' : execution) : Prop :=
  sv_files s' = sv_files s /\ lo_removeWSTLSFiles s' = lo_removeWSTLSFiles s.

Lemma sameFiles_refl s : sameFiles s s.
Proof. done. Qed.
Lemma sameFiles_trans s1 s2 s3 : sameFiles s1 s2 -> sameFiles s2 s3 -> sameFiles s1 s3.
Proof. intros [? ?] [? ?]. split; congruence. Qed.

Definition light {A} (f : M execution A) : Prop := keeping sameFiles f.

Lemma light_tame {A} (f : M execution A) : tame f -> light f.
Proof. intros Hf s r s' E. destruct (Hf _ _ _ E) as [H1' H2' _ _ _ _ _ _ _]. by split. Qed.
Lemma light_bind {A B} (m : M execution A) (k : A -> M execution B) : light m -> (forall a, light (k a)) -> light (mthen m k).
Proof. apply keeping_bind, sameFiles_trans. Qed.
Lemma light_failing {A} se (m : M execution A) : light m -> light (failing se m).
Proof. intros Hm s r s'. unfold failing. destruct (m s) as [[a|e] s1] eqn:E; intros [= <- <-]; exact (Hm _ _ _ E). Qed.
Lemma light_mod (f : execution -> execution) : (forall s, sameFiles s (f s)) -> light (mmod f).
Proof. intros Hf s r s' [= <- <-]. apply Hf. Qed.
Lemma light_ret {A} (a : A) : light (mret a).
Proof. apply light_tame, tame_ret. Qed.
Lemma light_get {A} (f : execution -> A) : light (mget f).
Proof. apply light_tame, tame_get. Qed.
Lemma light_pure {A} (r : result A) : light (mpure r).
Proof. apply light_tame, tame_pure. Qed.
Lemma light_onDev {A} (f : M W A) : light (onDev f).
Proof. apply light_tame, tame_onNet. Qed.
Lemma light_note a : light (note a).
Proof. by apply light_mod. Qed.
Lemma light_create {A} tries (f : M W A) : light (createAdapter tries f).
Proof. apply light_tame, createAdapter_tame. Qed.
Lemma light_wrapping {A} why (m : M execution A) : light m -> light (wrapping why m).
Proof. apply keeping_wrap. Qed.
Lemma light_script c n : light (runScriptCommand c n).
Proof. apply light_tame, runScriptCommand_tame. Qed.
Lemma light_firewall c : light (switchOnFirewall c).
Proof. intros s r s'. unfold switchOnFirewall. destruct (enableFirewall _ _ _) as [x fw]. by intros [= <- <-]. Qed.

Lemma light_configure a b c : light (configureWatcher a b c).
Proof.
  intros s r s'. unfold configureWatcher. destruct (lo_watcher s) as [iw|]; [|by intros [= <- <-]].
  destruct (Configure _ _ _ _ _ _) as [iw' n]. by intros [= <- <-].
Qed.
Lemma light_watcher f : light (withWatcher f).
Proof.
  intros s r s'. unfold withWatcher. destruct (lo_watcher s) as [iw|]; [|by intros [= <- <-]].
  destruct (f iw (sv_net s)) as [[iw' n] ups]. by intros [= <- <-].
Qed.
Lemma light_fail {A} e : light (mfail (A := A) e).
Proof. apply light_tame, tame_fail. Qed.

#[local] Hint Resolve light_watcher light_fail light_ret light_get light_pure light_onDev light_note light_create light_script light_firewall : light.

Ltac light_step :=
  match goal with
  | |- light (mthen _ _) => apply light_bind; [|intros ?]
  | |- light (failing _ _) => apply light_failing
  | |- light (wrapping _ _) => apply light_wrapping
  | |- light (match ?x with _ => _ end) => destruct x
  | |- light (mmod _) => apply light_mod; done
  | |- light (report _ _) => apply light_mod; done
  | |- light (newMonitor _) => apply light_tame, newMonitor_tame
  | |- light startMonitor => apply light_tame, startMonitor_tame
  | |- light (configureWatcher _ _ _) => apply light_configure
  | _ => solve [auto with light]
  end.
Ltac light_run := repeat light_step.

Lemma startTunnel_light : light (startTunnel sort_Slice NFC Public blake2s_Sum256 UseFixedGUID).
Proof.
  unfold startTunnel, connectTunnel, makeTUN, makeAdapter, runUserspace, runDriver, bringUp.
  apply light_bind; [apply light_tame, theConfig_tame|]. intros config. light_run.
Qed.

Lemma closeDevices_light : light closeDevices.
Proof.
  assert (Hclose : forall a f, light (closing a f)).
  { intros a f. apply light_bind; [apply light_tame, tame_ignoring, tame_onNet|intros u; apply light_note]. }
  unfold closeDevices. light_run; apply Hclose.
Qed.

Lemma closeWatcher_light late : light (closeWatcher late).
Proof.
  intros s r s'. unfold closeWatcher. destruct (lo_watcher s) as [iw|]; [|by intros [= <- <-]].
  destruct (destroyWatcher late iw _ _) as [[[iw' fw] n] on]. by intros [= <- <-].
Qed.

Lemma serve_light events started : light (serve started events).
Proof.
  revert started; induction events as [|ev events IH]; intros started; cbn [serve]; [apply light_ret|].
  destruct ev; light_run.
Qed.

(** ** Steps that leave the service error alone *)

Definition errorKept {A} (f : M execution A) : Prop := keeping (fun s s' => lo_serviceError s' = lo_serviceError s) f.

Lemma errorKept_bind {A B} (m : M execution A) (k : A -> M execution B) : errorKept m -> (forall a, errorKept (k a)) -> errorKept (mthen m k).
Proof. apply keeping_bind. intros s1 s2 s3 -> ->. done. Qed.
Lemma errorKept_try {A} (m : M execution A) : errorKept m -> errorKept (try m).
Proof. apply keeping_try. Qed.
Lemma errorKept_ret {A} (a : A) : errorKept (mret a).
Proof. by intros s r s' [= <- <-]. Qed.
Lemma errorKept_fail {A} e : errorKept (mfail (A := A) e).
Proof. by intros s r s' [= <- <-]. Qed.
Lemma errorKept_pure {A} (r : result A) : errorKept (mpure r).
Proof. by intros s x s' [= <- <-]. Qed.
Lemma errorKept_get {A} (f : execution -> A) : errorKept (mget f).
Proof. by intros s r s' [= <- <-]. Qed.
Lemma errorKept_onNet {A} (f : M (registry W) A) : errorKept (onNet f).
Proof. intros s r s'. unfold onNet. destruct (f (sv_net s)) as [x n]. by intros [= <- <-]. Qed.
Lemma errorKept_onFiles {A} (f : M (store Wf) A) : errorKept (onFiles f).
Proof. intros s r s'. unfold onFiles. destruct (f (sv_files s)) as [x n]. by intros [= <- <-]. Qed.
Lemma errorKept_note a : errorKept (note a).
Proof. by intros s r s' [= <- <-]. Qed.
Lemma errorKept_admin : errorKept dangerousScriptExecution.
Proof. intros s r s'. unfold dangerousScriptExecution. destruct (AdminBool _ _ _) as [[b key] w]. by intros [= <- <-]. Qed.
#[local] Hint Resolve errorKept_ret errorKept_fail errorKept_pure errorKept_get errorKept_onNet errorKept_onFiles errorKept_note errorKept_admin : light.

Ltac errorKept_step :=
  match goal with
  | |- errorKept (mthen _ _) => apply errorKept_bind; [|intros ?]
  | |- errorKept (try _) => apply errorKept_try
  | |- errorKept (ignoring _) => apply errorKept_bind; [apply errorKept_try|intros ?]
  | |- errorKept (onDev _) => apply errorKept_onNet
  | |- errorKept (match ?x with _ => _ end) => destruct x
  | _ => solve [auto with light]
  end.

Lemma runScriptCommand_errorKept c n : errorKept (runScriptCommand c n).
Proof. unfold runScriptCommand, startScript. repeat errorKept_step. Qed.

Lemma downScript_errorKept failed script : errorKept (downScript failed script).
Proof.
  intros s r s'. unfold downScript.
  destruct failed as [e|], (hasAdapter s), (lo_config s) as [c|]; try by intros [= <- <-].
  destruct (runScriptCommand _ _ s) as [[u|e] s1] eqn:E; intros [= <- <-]; exact (runScriptCommand_errorKept _ _ _ _ _ E).
Qed.

Lemma finish_errorKept late err : errorKept (finish late err).
Proof.
  assert (Hclose : forall a f, errorKept (closing a f)) by (intros a f; unfold closing; repeat errorKept_step).
  assert (Hwatch : errorKept (closeWatcher late)).
  { intros s r s'. unfold closeWatcher. destruct (lo_watcher s) as [iw|]; [|by intros [= <- <-]].
    destruct (destroyWatcher late iw _ _) as [[[iw' fw] n] on]. by intros [= <- <-]. }
  assert (Hmon : errorKept closeMonitor).
  { intros s r s'. unfold closeMonitor. destruct (lo_routeMonitor s) as [m|]; [|by intros [= <- <-]].
    destruct (Destroy _ m _) as [m' n]. by intros [= <- <-]. }
  assert (Hmod : forall f : execution -> execution, (forall s, lo_serviceError (f s) = lo_serviceError s) -> errorKept (mmod f))
    by (intros f Hf s r s' [= <- <-]; apply Hf).
  pose proof downScript_errorKept as Hdown. unfold finish, closeDevices, removeTLS, report. cbv zeta.
  repeat first [errorKept_step|apply Hclose|exact Hwatch|exact Hmon|apply Hdown|by apply Hmod].
Qed.

(** ** The files of one tunnel *)

Section Tunnel.
Context (root name : gostring) (files : gmap gostring gostring) (V : gmap path gofile) (O : gmap handle (path * bool)).
Context (Hv : TunnelNameIsValid name = true) (Hsav : savable files) (Hex : tlsExactly root V name files).

Abbreviation at_ := (StoreTheorems.at_ root).
Abbreviation dir := (runtimeDir root name).
Abbreviation clean := (cleaned root name V O).

(** What the service owes: nothing, or the removal of its directory. *)
Definition owed (s : execution) : Prop :=
  match lo_removeWSTLSFiles s with
  | None => clean (sv_files s)
  | Some d => forall u fs, cleanupFiles d (sv_files s) = (u, fs) -> clean fs
  end.

Definition untouched (s : execution) : Prop := at_ V O (sv_files s) /\ lo_removeWSTLSFiles s = None.

(** The errors of a service that has no configuration yet. *)
Definition unloaded (s : execution) : Prop :=
  lo_serviceError s = ErrorRingloggerOpen \/ lo_serviceError s = ErrorLoadConfiguration.

(** How the body can fail. *)
Definition ending (s : execution) : Prop := owed s \/ (untouched s /\ unloaded s).

Lemma light_owed {A} (f : M execution A) : light f -> triple owed f (fun _ => owed) owed.
Proof. intros Hf s r s' Hs E. destruct (Hf _ _ _ E) as [Hfs Ht]. unfold owed in *. rewrite <- Hfs, <- Ht in Hs. by destruct r. Qed.

Lemma light_ending {A} (f : M execution A) : light f -> triple owed f (fun _ => owed) ending.
Proof. intros Hf. eapply triple_conseq; [by apply light_owed|done|done|by left]. Qed.

Lemma light_untouched {A} (f : M execution A) : light f -> triple untouched f (fun _ => untouched) untouched.
Proof.
  intros Hf s r s' [Ha Hn] E. destruct (Hf _ _ _ E) as [Hfs Ht].
  assert (untouched s') as Hu by (split; congruence). by destruct r.
Qed.

Lemma failing_ending {A} se (f : M execution A) P Q :
  se = ErrorRingloggerOpen \/ se = ErrorLoadConfiguration ->
  triple P f Q (fun s => owed s \/ untouched s) -> triple P (failing se f) Q ending.
Proof.
  intros Hse Hf s r s' Hs. unfold failing. destruct (f s) as [[x|e] s1] eqn:E; intros [= <- <-]; [exact (Hf _ _ _ Hs E)|].
  destruct (Hf _ _ _ Hs E) as [Ho|Hu]; [by left|by right].
Qed.

Lemma failing_untouched {A} se (f : M execution A) P Q :
  se = ErrorRingloggerOpen \/ se = ErrorLoadConfiguration ->
  triple P f Q untouched -> triple P (failing se f) Q ending.
Proof. intros Hse Hf. apply failing_ending; [done|]. eapply triple_conseq; [exact Hf|done|done|by right]. Qed.

Lemma onFiles_untouched {A} (f : M (store Wf) A) :
  readsOnly root f -> triple untouched (onFiles f) (fun _ => untouched) untouched.
Proof.
  intros Hf s r s' [Ha Hn]. unfold onFiles. destruct (f (sv_files s)) as [x fs] eqn:E. intros [= <- <-].
  specialize (Hf V O _ _ _ Ha E). assert (Hu : untouched (set_sv_files fs s)) by (split; [by destruct x|done]).
  by destruct x.
Qed.

Definition loaded (s : execution) : Prop := untouched s /\ exists c, lo_config s = Some c /\ c_Name c = name.

Lemma LoadFromPath_name s c s' :
  LoadFromPath decoders (confPath root name) s = (Ok c, s') -> IsWSTLSLocalPath root = true -> c_Name c = name.
Proof.
  intros E Hr. destruct (NameFromPath_stored root name Hr Hv) as [[Hn _] _]. unfold LoadFromPath in E.
  change (confPath root name) with [root; str "Configurations"; name ++ configFileSuffix] in E. rewrite Hn in E.
  unfold mthen at 1, mpure at 1 in E. unfold mthen in E. destruct (sys _ s) as [[b|e] s1]; [|done].
  destruct (_ s1) as [[b'|e] s2]; [|done]. injection E as E _. unfold FromWgQuickWithUnknownEncoding in E.
  destruct (FromWgQuick b' name) as [c'|e'] eqn:Ef; [|by eapply tryDecoders_name].
  injection E as <-. by apply FromWgQuick_wf in Ef as [_ ->].
Qed.

Lemma loadConfig_loaded :
  triple untouched (do! config := failing ErrorLoadConfiguration (onFiles (LoadFromPath decoders (confPath root name))) in
                    mmod (set_lo_config (Some (DeduplicateNetworkEntries config)))) (fun _ => loaded) ending.
Proof.
  eapply (triple_bind _ _ _ (fun c s => c_Name c = name /\ untouched s)).
  { apply failing_untouched; [by right|]. intros s r s' Hs E.
    pose proof (onFiles_untouched _ (LoadFromPath_readsOnly decoders root _) s r s' Hs E) as Hr.
    destruct r as [c|e]; [|done]. split; [|done]. unfold onFiles in E.
    destruct (LoadFromPath decoders (confPath root name) (sv_files s)) as [x fs] eqn:El. injection E as -> _.
    eapply LoadFromPath_name; [exact El|]. apply Hs. }
  intros c s r s' [Hc Hs] [= <- <-]. split; [exact Hs|]. eexists. split; [reflexivity|]. exact Hc.
Qed.

Lemma prepareTLS_owed :
  triple loaded (prepareTLS fuel (confPath root name)) (fun _ => owed) (fun s => owed s \/ untouched s).
Proof.
  intros s r s' [Hs (c & Hc & Hn)]. unfold prepareTLS, theConfig, mthen. rewrite Hc. pose proof Hs as [Ha Ht].
  destruct (NameFromPath_stored root name (proj1 Ha) Hv) as [_ Henc].
  change (PathIsEncrypted (render (confPath root name)) = true) in Henc. rewrite Henc.
  destruct (PrepareWSTLSFiles fuel true c (sv_files s)) as [[x c'] fs] eqn:E.
  pose proof (PrepareWSTLSFiles_safe fuel root V O c files (sv_files s) x c' fs) as Hp.
  rewrite Hn in Hp. specialize (Hp Hv Hsav Hex Ha E).
  destruct x as [d|e]; intros [= <- <-].
  - destruct Hp as (V1 & _ & _ & _ & Hcl). exact Hcl.
  - destruct Hp as [[_ ->]|Hcl]; [by right|left]. unfold owed. cbn. by rewrite Ht.
Qed.

Lemma prepareService_owed early :
  triple untouched (prepareService decoders fuel (confPath root name) early) (fun _ => owed) ending.
Proof.
  eapply triple_bind; [apply failing_untouched, onFiles_untouched, LogFile_readsOnly; by left|]. intros logFile.
  eapply triple_bind; [apply failing_untouched, light_untouched; [by left|light_run]|]. intros u0.
  intros s r s' Hs E. rewrite <- mthen_assoc in E. revert s r s' Hs E.
  eapply triple_bind; [apply loadConfig_loaded|]. intros u1.
  eapply triple_bind; [apply failing_ending, prepareTLS_owed; by right|]. intros u2.
  eapply triple_bind; [apply light_ending, light_tame, announceAtBoot_tame|]. intros u3.
  eapply triple_bind; [apply light_ending, light_failing; unfold startWatching; light_run; apply light_tame, tame_onNet|]. intros u4.
  eapply triple_bind; [apply light_ending, light_watcher|]. intros u5.
  apply light_ending, light_failing, light_tame, resolveConfig_tame.
Qed.

Lemma body_owed early events :
  triple untouched (body decoders fuel sort_Slice NFC Public blake2s_Sum256 UseFixedGUID (confPath root name) early events)
    (fun _ => owed) ending.
Proof.
  eapply triple_bind; [apply prepareService_owed|]. intros u0.
  eapply triple_bind; [apply light_ending, startTunnel_light|]. intros u1. apply light_ending, serve_light.
Qed.

(** The deferred function: [P] until the cleanup, [Q] from then on. *)
Lemma finish_files (P : execution -> Prop) (Q : store Wf -> Prop) late err :
  (forall s s', sameFiles s s' -> P s -> P s') ->
  (forall s, P s -> match lo_removeWSTLSFiles s with
                    | None => Q (sv_files s)
                    | Some d => forall u fs, cleanupFiles d (sv_files s) = (u, fs) -> Q fs
                    end) ->
  triple P (finish late err) (fun _ s => Q (sv_files s)) (fun _ => True).
Proof.
  intros HP HQ. assert (Hweak : forall A (f : M execution A), light f -> triple P f (fun _ => P) (fun _ => True)).
  { intros A f Hf s r s' Hs E. pose proof (HP s s' (Hf _ _ _ E) Hs). by destruct r. }
  eapply triple_bind; [apply Hweak, light_get|]. intros se. cbv zeta.
  eapply triple_bind; [apply Hweak; light_run|]. intros u0.
  eapply triple_bind; [apply Hweak; light_run|]. intros u1.
  eapply triple_bind; [apply Hweak, light_tame, downScript_tame|]. intros logErr.
  eapply triple_bind; [apply Hweak, closeWatcher_light|]. intros u2.
  eapply triple_bind; [apply Hweak, light_tame, closeMonitor_tame|]. intros u3.
  eapply triple_bind; [apply Hweak, closeDevices_light|]. intros u4.
  eapply (triple_bind _ _ _ (fun _ s => Q (sv_files s))).
  { intros s r s' Hs%HQ. unfold removeTLS, mthen, mget. destruct (lo_removeWSTLSFiles s) as [d|].
    - unfold onFiles. destruct (cleanupFiles d (sv_files s)) as [x fs] eqn:E. intros [= <- <-].
      destruct x; [|done]. by eapply Hs.
    - intros [= <- <-]. done. }
  intros u5. eapply (triple_bind _ _ _ (fun _ s => Q (sv_files s))).
  { intros s r s' Hs E. destruct (downScript_tame _ _ _ _ _ E) as [Hfs _ _ _ _ _ _ _ _]. destruct r; [|done].
    by rewrite Hfs. }
  intros x. by apply triple_ret.
Qed.

Lemma finish_ending late err s ec s' :
  ending s -> finish late err s = (Ok ec, s') ->
  clean (sv_files s') \/ (at_ V O (sv_files s') /\ unloaded s').
Proof.
  intros [Ho|[Hu He]] E.
  - left. refine (finish_files owed clean late err _ _ s (Ok ec) s' Ho E); [|done].
    intros z z' [Hfs Ht]. unfold owed. by rewrite Hfs, Ht.
  - right. split; [|unfold unloaded; by rewrite (finish_errorKept _ _ _ _ _ E)].
    refine (finish_files untouched (at_ V O) late err _ _ s (Ok ec) s' Hu E).
    + intros z z' [Hfs Ht] [Ha Hn]. split; congruence.
    + intros z [Ha Hn]. by rewrite Hn.
Qed.

End Tunnel.
End Files.
