(* ===== verification/TunnelExample.v ===== *)
(** * A network that satisfies the laws, and a tunnel configured on it *)

From S2P Require Import Prelude GoStrings GoNum Netip Config Effects TunnelNet RouteMonitor.
From S2P Require Import Firewall FirewallTheorems KillSwitch FirewallExample TunnelConfig.
Import TunnelNet.
Local Open Scope Z_scope.

Record simNet : Type := mkSimNet {
  sn_added : gset route;
  sn_present : gset route;
  sn_state : LUID -> AddressFamily -> netState
}.

Definition alterNet (w : simNet) (l : LUID) (p : AddressFamily -> bool) (g : netState -> netState) : simNet :=
  mkSimNet (sn_added w) (sn_present w)
    (fun l' f => if bool_decide (l' = l) && p f then g (sn_state w l' f) else sn_state w l' f).

Definition family_is (f : AddressFamily) (f' : AddressFamily) : bool := bool_decide (f' = f).

Lemma alterNet_eq w l p g f : p f = true -> sn_state (alterNet w l p g) l f = g (sn_state w l f).
Proof. intros Hp. cbn. by rewrite bool_decide_eq_true_2, Hp by done. Qed.

Lemma family_is_refl f : family_is f f = true.
Proof. by apply bool_decide_eq_true_2. Qed.

(** The table: an Ethernet and a wireless interface, the second the faster. *)
Definition simTable : list MibIPforwardRow2 :=
  [mkForward 10 1 (PrefixFrom IPv4Unspecified 0) (Addr4 0xc0a80001) 50;
   mkForward 11 2 (PrefixFrom IPv4Unspecified 0) (Addr4 0xc0a80101) 25;
   mkForward 77 3 (PrefixFrom IPv4Unspecified 0) (Addr4 0) 0].

Definition simInterface : MibIPInterfaceRow := mkIPInterface false 1 true true 1500 true 5 64 [].

Definition simAddRoute (l : LUID) (p : Prefix) (n : Addr) (x : Z) : M simNet unit :=
  fun w =>
  if bool_decide ((l, p, n) ∈ sn_present w) then (Err (ErrCode ERROR_OBJECT_ALREADY_EXISTS), w)
  else (Ok tt, alterNet (mkSimNet ({[(l, p, n)]} ∪ sn_added w) ({[(l, p, n)]} ∪ sn_present w) (sn_state w)) l
                 (fun f => ofFamily f (p_addr p))
                 (fun s => mkNet (ns_routes s ++ [(p, n, x)]) (ns_addresses s) (ns_interface s) (ns_dns s))).

#[export] Instance simNetSystem : NetSystem simNet := {|
  GetIPForwardTable2 f _ := Ok (match f with AF_INET => simTable | AF_INET6 => [] end);
  LUID_Interface _ _ := Ok (mkIfRow IfOperStatusUp 1500);
  LUID_IPInterface _ _ _ := Ok simInterface;
  IPInterface_Set l f i w :=
    (Ok tt, alterNet w l (family_is f) (fun s => mkNet (ns_routes s) (ns_addresses s) i (ns_dns s)));
  AddRoute := simAddRoute;
  DeleteRoute l p n w := mkSimNet (sn_added w ∖ {[(l, p, n)]}) (sn_present w ∖ {[(l, p, n)]}) (sn_state w);
  FlushRoutes l f w :=
    (Ok tt, alterNet w l (family_is f) (fun s => mkNet [] (ns_addresses s) (ns_interface s) (ns_dns s)));
  AddIPAddress l a w :=
    (Ok tt, alterNet w l (fun f => ofFamily f (p_addr a))
              (fun s => mkNet (ns_routes s) (ns_addresses s ++ [a]) (ns_interface s) (ns_dns s)));
  FlushIPAddresses l f w :=
    (Ok tt, alterNet w l (family_is f) (fun s => mkNet (ns_routes s) [] (ns_interface s) (ns_dns s)));
  SetDNS l f d s w :=
    (Ok tt, alterNet w l (family_is f) (fun n => mkNet (ns_routes n) (ns_addresses n) (ns_interface n) (dnsTexts f d s)));
  GetAdaptersAddresses _ _ := Ok [];
  DeleteIPAddress _ _ w := w;
  StartedAtBoot _ := true;
  ForceMTU _ w := w;
  BindSocketToInterface4 _ _ w := (Ok tt, w);
  BindSocketToInterface6 _ _ w := (Ok tt, w);
  rebind w := (Ok tt, w);
  prefixOrder s := elements s;
  routeOrder s := elements s
|}.

#[export, refine] Instance simNetLaws : NetLaws simNet := {|
  added := sn_added;
  present w r := r ∈ sn_present w
|}.
Proof.
  all: cbn; unfold simAddRoute; intros; try (case_bool_decide; simplify_eq); try done.
  - cbn. set_solver.
  - cbn. set_solver.
Defined.

#[export, refine] Instance simNetConfigLaws : NetConfigLaws simNet := {| net := sn_state; stuck _ _ _ := False |}.
Proof.
  all: cbn [routeOrder FlushRoutes AddRoute FlushIPAddresses AddIPAddress DeleteIPAddress IPInterface_Set SetDNS simNetSystem];
    unfold simAddRoute; intros; try (case_bool_decide); simplify_eq; try done;
    rewrite ?alterNet_eq by (apply family_is_refl || done); done.
Defined.

Definition simStart : simNet := mkSimNet ∅ ∅ (fun _ _ => mkNet [] [] simInterface (dnsTexts AF_INET [] [])).

(** A full tunnel to a WebSocket server at 203.0.113.7. *)
Definition examplePeer : Peer :=
  set_pr_WSURL (str "wss://example.com/") (set_pr_Endpoint (mkEndpoint (str "203.0.113.7") 443)
    (set_pr_AllowedIPs [PrefixFrom IPv4Unspecified 0] emptyPeer)).

Definition exampleConf : Config :=
  mkConfig (str "office") (set_i_DNS dnsServers (set_i_Addresses [mkPrefix (Addr4 0x0a000002) 24] emptyInterface))
    [examplePeer] ∅ [].

Lemma findDefaultGateway_lowest_witness :
  exists row x, mkGateway 11 2 (Addr4 0xc0a80101) = rowGateway row /\ firstLowest AF_INET 77 simStart simTable row x.
Proof.
  destruct (findDefaultGateway_lowest AF_INET 77 simStart simTable (mkGateway 11 2 (Addr4 0xc0a80101)))
    as [[H _] | (row & x & Hg & Hf & _)]; [reflexivity | | vm_compute; reflexivity | discriminate H |].
  - intros r i Hr [= <-]. cbn. unfold simTable in Hr. rewrite !elem_of_cons, elem_of_nil in Hr.
    destruct Hr as [->|[->|[->|[]]]]; cbn; lia.
  - exists row, x. split; [exact Hg | exact Hf].
Defined.

Definition exampleMonitor : result defaultRouteMonitor * simNet := newDefaultRouteMonitor exampleConf 77 simStart.


Definition exampleUpdate : defaultRouteFamily * bool * option goerr * simNet :=
  updateFamily 77 (newFamily exampleConf AF_INET) simStart.

Lemma updateFamily_follows_witness :
  exampleUpdate.1.2 = None
  /\ hostRoute (gateway exampleUpdate.1.1.1) (PrefixFrom (Addr4 0xcb007107) 32) ∈ sn_present exampleUpdate.2.
Proof.
  assert (Hn : exampleUpdate.1.2 = None) by (vm_compute; reflexivity).
  assert (Hg : (gw_luid (gateway exampleUpdate.1.1.1) =? 11) = true) by (vm_compute; reflexivity).
  split; [exact Hn|]. destruct exampleUpdate as [[[f moved] err] w] eqn:E. cbn [fst snd] in *. subst err.
  destruct (updateFamily_follows 77 (newFamily exampleConf AF_INET) simStart f moved None w E) as (_ & _ & H).
  apply Z.eqb_eq in Hg. apply H.
  - left. intros Heq. rewrite Heq in Hg. discriminate Hg.
  - rewrite Hg. discriminate.
  - vm_compute. left.
Defined.

Lemma configureInterface_terminates_witness :
  exists w', configureInterface 16 AF_INET exampleConf 77 simStart = Some (Ok tt, w')
    /\ ns_addresses (sn_state w' 77 AF_INET) = [mkPrefix (Addr4 0x0a000002) 24].
Proof.
  assert (Hok : option_map (fun rw => is_Ok rw.1) (configureInterface 16 AF_INET exampleConf 77 simStart) = Some true)
    by (vm_compute; reflexivity).
  destruct (configureInterface_terminates AF_INET exampleConf 77 simStart) as (r & w' & E & Hc).
  { constructor; [|constructor]. split_and!; cbn; (lia || done). }
  { constructor; [|constructor]. split_and!; cbn; (lia || done). }
  rewrite E in Hok. destruct r as [[]|e]; [|discriminate Hok].
  destruct (cf_addresses _ _ _ _ (Hc eq_refl) eq_refl) as ([|a left] & Hl & Hs); [|inversion Hs; contradiction].
  exists w'. split; [exact E|exact Hl].
Defined.


(** One peer with 1.2.3.4/0: a default route, and no restriction. *)
Example stray_default_unrestricted :
  let conf := mkConfig (str "stray") emptyInterface [set_pr_AllowedIPs [mkPrefix (Addr4 0x01020304) 0] emptyPeer] ∅ [] in
  map rd_Destination (deduplicatedRoutes (W := simNet) conf) = [PrefixFrom IPv4Unspecified 0] /\ doNotRestrict conf = true.
Proof. vm_compute. done. Qed.
