(* ===== verification/WinipcfgExample.v ===== *)
(** * An IP helper library in memory, and a tunnel configured on it

    The library refuses to delete an address that is still tentative. *)

From S2P Require Import Prelude GoStrings GoNum Netip Config Effects Driver Services Firewall TunnelNet TunnelConfig Winipcfg WinipcfgTheorems FirewallExample RouteMonitor TunnelExample.
Import TunnelNet.
Local Open Scope Z_scope.

Definition simKeyIs (row r : forwardRow) : bool := bool_decide (routeKey r = routeKey row).

#[local] Instance memHelper : IPHelper ipState := {|
  initializeIPForwardEntry r := r;
  getIPForwardTable2 f s :=
    Ok (match f with Some f => List.filter (forwardFamily f) (iv_routes s) | None => iv_routes s end);
  getIPForwardEntry2 row s :=
    match find (simKeyIs row) (iv_routes s) with Some r => Ok r | None => Err (ErrCode ERROR_NOT_FOUND) end;
  createIPForwardEntry2 row s :=
    if existsb (simKeyIs row) (iv_routes s) then (Err (ErrCode ERROR_OBJECT_ALREADY_EXISTS), s)
    else (Ok tt, set_routes (iv_routes s ++ [row]) s);
  deleteIPForwardEntry2 row s := (Ok tt, set_routes (List.filter (fun r => negb (bool_decide (routeKey r = routeKey row))) (iv_routes s)) s);
  initializeUnicastIPAddressEntry r := r;
  getUnicastIPAddressTable f s :=
    Ok (match f with Some f => List.filter (unicastFamily f) (iv_addresses s) | None => iv_addresses s end);
  getUnicastIPAddressEntry row s := Err (ErrCode ERROR_NOT_FOUND);
  createUnicastIPAddressEntry row s := (Ok tt, set_addresses (iv_addresses s ++ [row]) s);
  deleteUnicastIPAddressEntry row s :=
    if ua_DadState row =? 1 then (Err (ErrCode 5), s)
    else (Ok tt, set_addresses (List.filter (fun r => negb (bool_decide (addressKey r = addressKey row))) (iv_addresses s)) s);
  initializeIPInterfaceEntry i := i;
  getIPInterfaceEntry l f _ s := Ok (iv_interface s l f);
  setIPInterfaceEntry l f i s := (Ok tt, set_interface l f i s);
  getIfEntry2 _ _ := Ok (mkIfRow IfOperStatusUp 1500);
  convertInterfaceLUIDToGUID l _ := Ok (map chr [l]);
  convertInterfaceGUIDToLUID _ _ := Err (ErrCode ERROR_NOT_FOUND);
  convertInterfaceIndexToLUID _ _ := Err (ErrCode ERROR_NOT_FOUND);
  win_GetAdaptersAddresses _ size _ := if size <? 20000 then (Err bufferOverflow, 20000) else (Ok [], size);
  setInterfaceDnsSettings g d s :=
    (Ok tt, set_dns g (if Z.testbit (ds_Flags d) 0 then AF_INET6 else AF_INET) (fun _ => (Ok (ds_NameServer d), Ok (ds_SearchList d))) s);
  reg_CreateKey _ s := (Err (ErrCode 5), s);
  reg_SetStringValue _ _ _ s := (Err (ErrCode 5), s);
  reg_CloseKey _ s := (Ok tt, s);
  dns_Connect s := (Ok tt, s);
  dns_Disconnect s := (Ok tt, s);
  dns_OpenService _ s := (Ok 0, s);
  dns_ControlParamChange _ s := (Ok tt, s);
  dns_CloseService _ s := (Ok tt, s)
|}.

#[local] Instance memTun : TunSystem ipState := {|
  ts_StartedAtBoot _ := false;
  ts_ForceMTU _ s := s;
  ts_BindSocketToInterface4 _ _ := mret tt;
  ts_BindSocketToInterface6 _ _ := mret tt;
  ts_rebind := mret tt;
  ts_prefixOrder s := elements s;
  ts_routeOrder s := elements s
|}.

#[local, refine] Instance memLaws : IPHelperLaws ipState := {|
  il_view s := s;
  il_guid l := map chr [l];
  il_key _ _ := None
|}.
Proof.
  all: cbn; intros; simplify_eq; try done.
  - destruct (existsb _ _); simplify_eq; [done|]. by exists row.
  - by exists row.
  - destruct (ua_DadState row =? 1); by simplify_eq.
  - by destruct f.
Defined.

(** A route of another interface, and what the tunnel has left from before: a
    route, an address that can be deleted and one that cannot. *)
Definition memRow (luid : LUID) (p : Prefix) : forwardRow :=
  match routeRow luid p IPv4Unspecified zeroForward with Ok r => r | Err _ => zeroForward end.

Definition memAddress (v dad : Z) : MibUnicastIPAddressRow :=
  match SetAddr zeroSockaddr (Addr4 v) with
  | Ok raw => mkUnicastRow raw 77 0 0 0 0 0 24 false dad 0 0
  | Err _ => zeroUnicast
  end.

Definition memStart : ipState :=
  mkIPState [memRow 10 (PrefixFrom IPv4Unspecified 0); memRow 77 (PrefixFrom (Addr4 0x0a090000) 16)]
    [memAddress 0x0a000005 4; memAddress 0x0a000006 1]
    (fun _ _ => simInterface) (fun _ _ => dnsTexts AF_INET [] []).

Definition memRun := configureInterface (H := luidNet 5) 16 AF_INET exampleConf 77 memStart.

(** The stale route is gone and the new one is there. *)
Example memRun_routes :
  option_map (fun rw => (is_Ok rw.1, map readRoute (List.filter (forwardOf 77 AF_INET) (iv_routes rw.2)))) memRun
  = Some (true, [(PrefixFrom IPv4Unspecified 0, IPv4Unspecified, 0)]).
Proof. vm_compute. reflexivity. Qed.

Example memRun_addresses :
  option_map (fun rw => ns_addresses (familyState rw.2 77 AF_INET)) memRun
  = Some [mkPrefix (Addr4 0x0a000006) 24; mkPrefix (Addr4 0x0a000002) 24].
Proof. vm_compute. reflexivity. Qed.

