(* ===== verification/TunnelServiceExample.v ===== *)
(** * A tunnel service that runs

    The tunnel of the store in memory, on the network and the filtering platform
    of the other examples: it comes up, is told to stop, and is gone. *)

From S2P Require Import Prelude GoStrings GoNum Netip Config Name Paths WSTLS WSTLSNames WSTLSCollect Parser Writer ConfWf ParserTheorems RoundTrip UAPI Driver Effects Store StoreLaws StoreTheorems StoreTLS StoreTunnels StoreExample Services Firewall FirewallTheorems KillSwitch FirewallExample Updater Manager IPC Tracker TrackerTheorems ManagerTheorems ManagerExample DeterministicGUID ChangeHandlers TunnelNet RouteMonitor TunnelConfig TunnelExample InterfaceWatcher WatcherTheorems TunnelService TunnelServiceTheorems TunnelServiceTLS.
Import TunnelNet GUID.
Local Open Scope Z_scope.

#[local] Existing Instance asciiTables.
#[local] Existing Instance exampleURL.

#[local] Instance simNotify : ChangeNotify simNet := {|
  notifyChange _ := mret 9;
  cancelMibChangeNotify2 _ := mret tt
|}.

#[local] Instance simAdapter : AdapterSystem simNet nat := {|
  adapter_AdapterState _ := mret AdapterStateDown;
  adapter_SetConfiguration _ _ := mret tt;
  adapter_SetAdapterState _ _ := mret tt;
  FlushDNS _ _ := mret tt
|}.

#[local] Instance simResolver : ResolverSystem simNet := {|
  GetAddrInfoW _ := mret [mkAddrinfo AF_INET_CODE (Addr4 0xcb007107)];
  resolverAtBoot := true
|}.

#[local] Instance simRegistry : Registry simNet := {|
  reg_OpenKey _ := mfail (ErrCode 2);
  reg_GetIntegerValue _ := mfail (ErrCode 2)
|}.

#[local] Instance simDevices : DeviceSystem simNet nat nat nat nat nat nat := {|
  rl_InitGlobalLogger _ := mret tt;
  scm_Connect := mret tt;
  scm_LockStatus := mret false;
  scm_Disconnect := mret tt;
  tun_CreateTUN _ _ _ := mret 1%nat;
  tun_LUID _ := 77;
  tun_Close _ := mret tt;
  driver_CreateAdapter _ _ _ := mret 1%nat;
  adapter_LUID _ := 77;
  adapter_SetLogging _ _ := mret tt;
  adapter_CloseHandle _ := mret tt;
  conn_NewMultiplexBind := mret 2%nat;
  device_NewDevice _ _ w := (3%nat, w);
  device_IpcSet _ _ := mret tt;
  device_Up _ := mret tt;
  device_Close _ := mret tt;
  ipc_UAPIListen _ := mret 4%nat;
  listener_Close _ := mret tt;
  DropAllPrivileges _ := mret tt;
  win_GetSystemDirectory := mret (str "C:\Windows\system32");
  os_OpenDevNull := mret 5;
  os_Pipe := mret (6, 7);
  os_CloseFile _ := mret tt;
  os_StartProcess _ _ _ _ := mret 8%nat;
  process_Wait _ := mret 0
|}.

Definition simInitial : execution (Wf := memory) (W := simNet) (Ww := simWorld) (adapter := nat) (tun := nat)
    (device := nat) (listener := nat) :=
  mkExecution (exStore exFiles) (mkRegistry simStart 0 (fun _ => mkHandlers ∅ 0)) initialFirewall None [] []
    None None None None None None None 0 None 0 0.

(** The interface appears before the service knows its adapter; the service is
    then told to stop. *)
Definition simRun : result (option (bool * Z)) * execution (Wf := memory) (W := simNet) (Ww := simWorld)
    (adapter := nat) (tun := nat) (device := nat) (listener := nat) :=
  Execute [] 1 (fun _ _ l => l) (fun s => s) (fun k => k) (fun s => s) true (confPath exRoot (str "office"))
    [(77, Some AF_INET); (77, Some AF_INET6)] [StartedEvent; ControlRequest svcStop (svcRunning, true)] [] simInitial.

Lemma simInitial_initial : initial simInitial.
Proof. do 7 (split; [reflexivity|]). intros h. reflexivity. Qed.

(** The calls of the run, in their order. *)
Example simRun_trace :
  simRun.1 = Ok (Some (false, 0))
  /\ sv_trace simRun.2 = [CreatedTUN 1%nat; MadeDevice 1%nat 3%nat; Listening 4%nat; BroughtUp true;
                          ClosedListener 4%nat; ClosedDevice 3%nat]
  /\ sv_changes simRun.2 = [(svcStartPending, false); (svcStartPending, true); (svcRunning, true); (svcStopPending, false)].
Proof. vm_compute. repeat split. Qed.

Lemma Execute_releases_witness :
  owns (sv_trace simRun.2) [] /\ Firewall.wfpSession (sv_fw simRun.2) = 0.
Proof.
  assert (Hr : simRun.1 = Ok (Some (false, 0))) by (vm_compute; reflexivity).
  destruct (Execute_releases [] 1 (fun _ _ l => l) (fun s => s) (fun k => k) (fun s => s) true
    (confPath exRoot (str "office")) [(77, Some AF_INET); (77, Some AF_INET6)]
    [StartedEvent; ControlRequest svcStop (svcRunning, true)] [] simInitial simRun.1 simRun.2
    simInitial_initial (surjective_pairing simRun)) as [_ Hd].
  rewrite Hr in Hd. exact (conj (proj1 Hd) (proj1 (proj2 Hd))).
Defined.

(** A tunnel of the driver whose adapter is always found down: the service brings it
    up, then the callback of the watcher does, while the service serves and again
    while the watcher is destroyed. *)
Definition simPlain : result (option (bool * Z)) * execution (Wf := memory) (W := simNet) (Ww := simWorld)
    (adapter := nat) (tun := nat) (device := nat) (listener := nat) :=
  Execute [] 1 (fun _ _ l => l) (fun s => s) (fun k => k) (fun s => s) true
    [exRoot; str "Configurations"; str "lab.conf"]
    [(77, Some AF_INET)] [InterfaceEvent true (77, Some AF_INET6); ControlRequest svcStop (svcRunning, true)]
    [(77, Some AF_INET)] (set_sv_files (exStore plainFiles) simInitial).

Example simPlain_trace :
  simPlain.1 = Ok (Some (false, 0))
  /\ sv_trace simPlain.2 = [Created 1%nat; BroughtUp true; BroughtUp true; BroughtUp true; ClosedAdapter 1%nat]
  /\ Firewall.wfpSession (sv_fw simPlain.2) = 0.
Proof. vm_compute. repeat split. Qed.


(** ** A tracker that starts *)

Definition exTracking : tracking memory gostring gostring := mkTracking (exMgr ∅ ∅) [].

Lemma trackers_exclusive_witness :
  exists t, rtc (cstep sortedStates) (exTracking, []) (t, [(str "home", str "service", TunnelUnknown)])
    /\ mg_trackedTunnels (tk_mgr t) = {[str "home" := TunnelUnknown]}.
Proof.
  eexists. assert (Hr : rtc (cstep sortedStates) (exTracking, [])
    ((enterTracker (str "home") (str "service") exTracking).2, [(str "home", str "service", TunnelUnknown)])).
  { apply rtc_once. apply (cs_enter sortedStates exTracking [] (str "home") (str "service") true). reflexivity. }
  split; [exact Hr|]. exact (proj2 (trackers_exclusive sortedStates _ _ exTracking eq_refl Hr)).
Defined.

(** The states a tracker tells, and whether it has ended. The service always reports
    that it runs. *)
Definition toldStates (l : list notification) : list TunnelState :=
  map (fun n => match n with TunnelChange _ state _ _ => state | _ => TunnelUnknown end) l.
Definition simTracker (early late : list Z) : result bool * list TunnelState :=
  let '(r, t) := trackTunnelService sortedStates (str "home") (str "service") early late exTracking in
  (r, toldStates (tk_notified t)).

Example tracker_tells :
  simTracker [] [SERVICE_NOTIFY_RUNNING; SERVICE_NOTIFY_STOP_PENDING; SERVICE_NOTIFY_STOPPED; SERVICE_NOTIFY_RUNNING]
  = (Ok true, [TunnelStarted; TunnelStopping; TunnelStopped]).
Proof. vm_compute. reflexivity. Qed.

(** The service has stopped between the question for its state and the first call:
    the clients are told that it has stopped and then that it has started. *)
Example stale_state_told : simTracker [SERVICE_NOTIFY_STOPPED] [] = (Ok true, [TunnelStopped; TunnelStarted]).
Proof. vm_compute. reflexivity. Qed.

(** ** A watcher that comes and goes *)

Definition simRegistryStart : registry simNet := mkRegistry simStart 0 (fun _ => mkHandlers ∅ 0).

Definition simWatch : result (interfaceWatcher nat) * registry simNet := watchInterface simRegistryStart.
Definition simWatcher : interfaceWatcher nat := newWatcher (Some (InterfaceChange, 0%nat)).

(** Both families appear once the adapter is known. *)
Definition simConfigured : interfaceWatcher nat * registry simNet :=
  Configure (Some 1%nat) false exampleConf 77 simWatcher simWatch.2.
Definition simUp4 : interfaceWatcher nat * registry simNet :=
  (onInterfaceChange true (77, Some AF_INET) simConfigured.1 simConfigured.2).1.
Definition simUp : interfaceWatcher nat * registry simNet :=
  (onInterfaceChange true (77, Some AF_INET6) simUp4.1 simUp4.2).1.

(** The watcher holds the two callbacks of each family beside its own. *)
Example simUp_callbacks :
  callbacksOf simUp.1 = [(InterfaceChange, 0%nat); (RouteChange, 1%nat); (InterfaceChange, 2%nat);
                         (RouteChange, 3%nat); (InterfaceChange, 4%nat)]
  /\ iw_started simUp.1 = [AF_INET; AF_INET6].
Proof. vm_compute. repeat split. Qed.

Lemma simRegistry_listening : listening simRegistryStart.
Proof. intros k. split; [intros id Hid; by apply elem_of_empty in Hid|done]. Qed.

Lemma watcher_callbacks_witness :
  (forall c, registered c simUp.2 <-> c ∈ callbacksOf simUp.1 \/ registered c simRegistryStart)
  /\ forall c, registered c (destroyWatcher [(78, Some AF_INET)] simUp.1 initialFirewall simUp.2).1.2
             <-> registered c simRegistryStart.
Proof.
  assert (Hs : rtc wstep (simWatcher, simWatch.2) (simUp.1, simUp.2)).
  { rewrite <- (surjective_pairing simUp).
    apply (rtc_l _ _ (simConfigured.1, simConfigured.2));
      [rewrite <- (surjective_pairing simConfigured); apply ws_configure|].
    apply (rtc_l _ _ (simUp4.1, simUp4.2)); [rewrite <- (surjective_pairing simUp4); apply ws_change|].
    apply rtc_once, ws_change. }
  assert (Hnz : handlesNonzero (W := simNet)) by (intros k w h w' E; injection E as <- <-; discriminate).
  destruct (watcher_callbacks Hnz simRegistryStart simWatcher simWatch.2
    simUp.1 simUp.2 simRegistry_listening eq_refl Hs) as [Hin Hd].
  split; [exact Hin|].
  destruct (destroyWatcher [(78, Some AF_INET)] simUp.1 initialFirewall simUp.2) as [[[iw' fw'] n'] on] eqn:E.
  destruct (lateEvents [(78, Some AF_INET)] (w_watchdog false simUp.1) simUp.2) as [[iw1 m] ups] eqn:El.
  apply (proj2 (Hd _ _ _ _ _ _ _ _ _ _ _ El E)). apply Forall_singleton. right.
  assert (Hluid : iw_luid simUp.1 = 77) by (vm_compute; reflexivity). rewrite Hluid. discriminate.
Defined.

(** An interface that appears between the two critical sections of Destroy sets
    its family up again; the callbacks of that are dropped from the fields and
    stay registered. *)
Example destroyWatcher_late :
  let '(iw, _, n, _) := destroyWatcher [(77, Some AF_INET)] simUp.1 initialFirewall simUp.2 in
  callbacksOf iw = [] /\ (5%nat ∈ h_callbacks (rg_handlers n RouteChange)) .
Proof.
  assert (E : let '(iw, _, n, _) := destroyWatcher [(77, Some AF_INET)] simUp.1 initialFirewall simUp.2 in
    callbacksOf iw = [] /\ bool_decide (5%nat ∈ h_callbacks (rg_handlers n RouteChange)) = true) by (vm_compute; done).
  destruct (destroyWatcher _ _ _ _) as [[[iw fw] n] on]. split; [apply E|]. apply (bool_decide_eq_true_1 _), E.
Qed.
